(* ===== verification/_CoqProject ===== *)
-Q . S2P
Prelude.v
Bitmap.v
Superblock.v
Addresses.v
Cg.v
CgSearch.v
Runs.v
CgStore.v
Alloc.v
AllocWp.v
Accounting.v
Clusters.v
Summary.v
FragSummary.v
AllocSpec.v
AllocInv.v
FragAlloc.v
CgCache.v
CgCacheSpec.v
Sample.v
AllocTheorems.v
CgCacheTheorems.v
FfsSubr.v
UnixTime.v
FragCache.v
Chain.v
FragList.v
FragOps.v
FragFlush.v
FragGet.v
FragView.v
FragCacheTheorems.v
FileEnv.v
Inode.v
FileAlloc.v
Fread.v
Fwrite.v
Dir.v
Lookup.v
Handler.v
System.v
InodeSpec.v
InodeTheorems.v
IndexPath.v
FileSpec.v
HandlerSpec.v
BlockMap.v
BlockTree.v
BlockWrite.v
ReadSpec.v
FileSample.v
FileTheorems.v
HandlerSample.v
ReadTheorems.v
InodeFree.v
DirFormat.v
DirSearch.v
DirUpdate.v
DirTheorems.v
Mount.v
MountTheorems.v
InfoBlock.v
Packets.v
LockTheorems.v
ObjectPackets.v
VolumePackets.v
Dispatch.v
PacketSpec.v
PacketTheorems.v
Newfs.v
InitCg.v
NewfsLayout.v
NewfsGroup.v
NewfsCg.v
NewfsSuper.v
NewfsMount.v
Fsck.v
FsckGroup.v
FsckBytes.v
FsckTheorems.v
