(* ===== verification/Prelude.v ===== *)
(** BFFS, the Berkeley Fast Filesystem handler for AmigaOS: a model of the
    file system code and the theorems about it.

    * The program

    BFFS is an AmigaDOS handler process.  Packets from applications
    ([fs/packets.c]) become operations on files ([fs/file.c], [fs/fread.c],
    [fs/fwrite.c]), directories ([fs/dir.c]) and inodes ([fs/inode.c]);
    these take disk space from the allocator ([fs/alloc.c]) and read and
    write fragments through a write-back cache ([fs/cache.c]), which keeps
    the cylinder groups in a table of its own.  The caches move data with
    data_read and data_write of [fs/ufs.c], which also reads disk labels,
    finds the superblock and writes it back.  Of the utilities beside the
    handler, newfs ([newfs/mkfs.c]) makes the file systems it mounts and
    fsck repairs them, its last pass ([fsck/pass5.c]) the maps and counts the
    allocator lives on; they share [unix_support/ffs_subr.c] with BSD.

    * The model

    A shallow embedding: C functions are Gallina functions in the monad [M]
    of this file (a state, and [None] for undefined behaviour: following
    NULL, an index out of its array, or a loop that does not end within its
    fuel).  [ULONG], [int] and [short] are integers with their wrap-around
    written out ([u32], [s32], [u16]).  Memory is flat ([FileEnv.Memory]):
    an address is a [Z] and [ld8] reads a byte, so aliases and stale pointers
    into cache buffers behave as in the code.  What C leaves to the system
    (exec and dos calls, the trackdisk device, the C library's strnicmp) is a
    class with laws.  Statistics and PRINT output are left out.

    Configuration: the big endian build for the 68000 family (BOTHENDIAN and
    RONLY and FAST undefined, UFS_V1), so that DISK32 is the identity; cylinder
    groups of the format of 4.3 BSD Reno and later; inode numbers below 2^31.

    * Files and code

    - [Prelude] (this file): integers, arrays as lists, bits, loops, [M] and
      its weakest precondition [wp], automation.
    - [Bitmap], [Superblock], [Addresses], [Cg], [CgSearch], [Runs]: the bit
      macros of alloc.h, [struct fs], [struct cg] and fsmacros.h, the searches
      and the table updates of alloc.c, and maximal runs of bits, which all
      summary tables count.
    - [CgStore] (interfaces), [Alloc], [AllocWp], [Accounting], [Clusters],
      [Summary], [FragSummary], [AllocSpec], [AllocInv], [FragAlloc],
      [AllocTheorems]: the four operations of alloc.c over any group cache
      that obeys [CgStoreLaws].
    - [CgCache], [CgCacheSpec], [CgCacheTheorems]: the group cache of cache.c
      (cache_cg and its relatives), shown to obey [CgStoreLaws].
    - [FfsSubr], [UnixTime]: ffs_subr.c with ffs_tables.c,
      unixtime.c.
    - [FragCache]: the fragment cache of cache.c: nodes in an array, two hash
      tables of doubly linked chains, the two usage stacks.  [Chain] and
      [FragList] state the shape of those lists, [FragOps], [FragFlush]
      and [FragGet] prove each operation keeps it, [FragView]
      relates the cache and the disk to one array of fragments, and
      [FragCacheTheorems] holds the theorems.
    - [FileEnv] (interface and on-disk layout), [Inode], [FileAlloc], [Fread],
      [Fwrite], [Dir], [Lookup]: inode.c, file.c, fread.c, fwrite.c, dir.c over
      any fragment cache.
    - [FileSpec] (the contract of the fragment cache), [InodeSpec],
      [InodeTheorems], [InodeFree], [IndexPath], [BlockMap], [BlockTree],
      [BlockWrite], [FileTheorems]: inodes and block maps.  [ReadSpec] (what
      the device holds, buffers that fill up), [ReadTheorems]: reading.
    - [DirFormat], [DirSearch], [DirUpdate], [DirTheorems]: directories.
    - [Mount], [MountTheorems]: ufs.c.
    - [Handler] (globals of the process, interface to its surroundings),
      [System]: handler.h, system.c.  [InfoBlock], [Packets],
      [ObjectPackets], [VolumePackets]: packets.c, a Definition per packet
      routine.  [Dispatch]: the tables of table.c and the packet loop of
      handler.c.
    - [HandlerSpec] (the contract of the system's memory and of the globals),
      [LockTheorems], [PacketSpec], [PacketTheorems]: the lock
      list, permission bits, seeking, refused packets.
    - [Newfs] (the choice of the geometry), [InitCg] (groups, root directory):
      newfs/mkfs.c, with [cdh] defined, UFS_V1 and LOSTDIR not.  [NewfsLayout]
      (arithmetic; what the loops over cylinders per group end with),
      [NewfsGroup] and [NewfsCg] (a group while it is built, and when it is
      done), [NewfsSuper] (every number in range), [NewfsMount] (all groups,
      the root directory, the whole).
    - [Fsck]: fsck/pass5.c with reply and dofix of fsck/utilities.c, on groups
      as lists of bytes.  [FsckGroup] (the group computed from the maps of
      the earlier passes), [FsckBytes] (its bytes, and what the handler reads
      of them), [FsckTheorems] (comparing, repairing, the whole pass).
    - [Sample], [FileSample], [HandlerSample]: a concrete file system and
      handler on which every theorem with hypotheses is instantiated.

    * Theorems

    - Allocator: [block_allocate], [block_deallocate], [frags_allocate] and
      [frags_deallocate] change exactly the stated fragments in the set of
      free fragments of the disk and keep every table (free counts per group,
      cylinder and rotational position, run sizes, clusters, totals) equal
      to what the maps say; the searches return the block or run their policy
      names; allocation and release of a run cancel.
    - Group cache: [cache_cg], [cache_cg_write], [cache_cg_flush] lose no
      update of a group, whatever is evicted: a refinement of the abstract
      store of groups the allocator is proved over.
    - Fragment cache: a read returns the latest contents of its fragment, a
      write is what later reads return, a flush leaves the disk equal to that
      view with nothing dirty, and a node can always be had: a refinement of
      one array of fragments.
    - Inodes: [inum_new] takes a free inode by its policy, [inum_free] gives
      it back, [inum_sane] initialises it; all counts stay exact.
    - Block maps: the index path of a block is unique, [ridisk_frag] computes
      the map, [cidisk_frag] changes it at one block of one file, and no other
      fragment of any file moves.  [file_read] returns the file's bytes.
    - Directories: a directory is a list of entries; search, creation and
      deletion are the list operations, creation then deletion restores the
      entries, errors leave everything as it was.
    - Packets: CreateLock and FreeLock are the operations on the list of
      locks they are meant to be and an exclusive lock excludes all others;
      a seek ends in the file or moves nothing; refused packets do nothing;
      permission bits survive the way to AmigaDOS and back.
    - Mount: the masks computed from the superblock, the range of device
      requests, the end of the search for the superblock.
    - newfs: every geometry mkfs accepts is well formed for the handler, the
      groups it builds satisfy the allocator's invariant with exactly the data
      area free, and with the root directory in place the file system is in
      the state the theorems on allocation and inodes start from
      ([NewfsMount.newfs_mounts]).
    - fsck: whatever the groups, summaries and totals were, pass 5 with every
      repair agreed to leaves the state those theorems start from, with the
      fragments and inodes in use that the earlier passes found; run again it
      has nothing to say; and a user who refuses loses nothing.
    - Shared primitives: equivalence of the two block-map implementations,
      [ffs_fragacct] counts runs, times convert back and forth.

    * Bounds and fuel

    Counted loops recurse over the list of their indices; the loops the code
    bounds by data (chains, runs, entries of a fragment) take as fuel the
    number of places they can visit, and theorems that a loop ends are about
    [wp], which a run out of fuel does not satisfy.  Retries the user is asked
    for are bounded by a hypothesis on the user ([patience]).  The loops of
    newfs that double or halve block sizes have fuel 64, more than there are
    bits; those that give up cylinders have one turn per cylinder.  The
    options of newfs are bounded by [NewfsSuper.good_options], which keeps
    the numbers of mkfs below 2^31.  Pass 5 has counted loops only; the sizes
    of groups it is proved for are in [FsckTheorems.pass5_ready].

    * Not modelled

    The operating system calls of handler.c and request.c (message ports,
    timers, requesters, device opening: arguments of the model), debug output,
    the disk change interrupt, the builds for other byte orders; of newfs the
    reading of options and disk labels and the transfers; of fsck the passes
    before the last, whose maps are its input, and groups of 4.2 BSD; and the
    other utilities, which are programs of their own over the same disk
    format.

    * This file

    Machine integers, C arrays as lists indexed by [Z], bit vectors, counted
    loops, the state monad with undefined behaviour, and the automation the
    component files share. *)

From Stdlib Require Export ZArith Lia Bool.
From stdpp Require Export base list gmap sorting.

#[global] Set Default Goal Selector "!".

Declare Scope bffs_scope.
Delimit Scope bffs_scope with bffs.
#[global] Open Scope Z_scope.

(** ** Integers of the 68000 target

    [ULONG] and [unsigned long] are 32 bit unsigned, [int] and [long] are
    32 bit two's complement, [short] is 16 bit and [uint8_t] is 8 bit. *)

Definition u8 (x : Z) : Z := x mod 2 ^ 8.
Definition u16 (x : Z) : Z := x mod 2 ^ 16.
Definition u32 (x : Z) : Z := x mod 2 ^ 32.
Definition s16 (x : Z) : Z := (x + 2 ^ 15) mod 2 ^ 16 - 2 ^ 15.
Definition s32 (x : Z) : Z := (x + 2 ^ 31) mod 2 ^ 32 - 2 ^ 31.

Definition in_u32 (x : Z) : Prop := 0 <= x < 2 ^ 32.
Definition in_s32 (x : Z) : Prop := - 2 ^ 31 <= x < 2 ^ 31.

Create HintDb bffs discriminated.
Create Rewrite HintDb bffs.

Ltac zify_pow :=
  change (2 ^ 8) with 256 in *; change (2 ^ 16) with 65536 in *;
  change (2 ^ 15) with 32768 in *; change (2 ^ 32) with 4294967296 in *;
  change (2 ^ 31) with 2147483648 in *.

(** Arithmetic with division and remainder by constants. *)
Ltac dlia := zify_pow; Z.to_euclidean_division_equations; lia.

Lemma u8_small x : 0 <= x < 256 -> u8 x = x.
Proof. intros H. unfold u8. apply Z.mod_small. zify_pow. lia. Qed.

Lemma u8_range x : 0 <= u8 x < 256.
Proof. unfold u8. apply Z.mod_pos_bound. zify_pow. lia. Qed.

Lemma u16_small x : 0 <= x < 65536 -> u16 x = x.
Proof. intros H. unfold u16. apply Z.mod_small. zify_pow. lia. Qed.

Lemma u16_range x : 0 <= u16 x < 65536.
Proof. unfold u16. apply Z.mod_pos_bound. zify_pow. lia. Qed.

Lemma u32_small x : in_u32 x -> u32 x = x.
Proof. intros H. unfold u32. apply Z.mod_small, H. Qed.

Lemma u32_range x : in_u32 (u32 x).
Proof. unfold u32, in_u32. apply Z.mod_pos_bound. zify_pow. lia. Qed.

Lemma s32_small x : in_s32 x -> s32 x = x.
Proof.
  unfold in_s32, s32. intros H. rewrite Z.mod_small; zify_pow; lia.
Qed.

Lemma s32_range x : in_s32 (s32 x).
Proof.
  unfold in_s32, s32. pose proof (Z.mod_pos_bound (x + 2 ^ 31) (2 ^ 32)).
  zify_pow. lia.
Qed.

Lemma s16_small x : - 32768 <= x < 32768 -> s16 x = x.
Proof.
  unfold s16. intros H. rewrite Z.mod_small; zify_pow; lia.
Qed.

(** A signed increment that wraps is undone by the opposite decrement. *)
Lemma s32_add_cancel x a : in_s32 x -> s32 (s32 (x + a) + - a) = x.
Proof.
  unfold in_s32, s32. intros H.
  replace ((x + a + 2 ^ 31) mod 2 ^ 32 - 2 ^ 31 + - a + 2 ^ 31)
    with ((x + a + 2 ^ 31) mod 2 ^ 32 + - a) by lia.
  rewrite Zplus_mod_idemp_l.
  replace (x + a + 2 ^ 31 + - a) with (x + 2 ^ 31) by lia.
  rewrite Z.mod_small; zify_pow; lia.
Qed.

#[export] Hint Rewrite u8_small u16_small u32_small s32_small s16_small
  using (unfold in_u32, in_s32 in *; zify_pow; lia) : bffs.

(** C division truncates; every divisor in the modelled code is positive
    and every dividend non negative, where it agrees with [Z.div]. *)

(** ** Arrays

    A C array is a list indexed by [Z].  A read outside the array yields
    the default value and a write outside it is dropped; the theorems state
    the bounds under which every access is inside. *)

Class Dflt (A : Type) := dflt : A.
#[export] Instance dflt_Z : Dflt Z := 0.
#[export] Instance dflt_option A : Dflt (option A) := None.

Definition zget {A} `{Dflt A} (l : list A) (i : Z) : A :=
  if i <? 0 then dflt else default dflt (l !! Z.to_nat i).

Definition zset {A} (l : list A) (i : Z) (v : A) : list A :=
  if i <? 0 then l else <[Z.to_nat i := v]> l.

Definition zlen {A} (l : list A) : Z := Z.of_nat (length l).

Lemma zlen_nonneg {A} (l : list A) : 0 <= zlen l.
Proof. unfold zlen. lia. Qed.

Lemma zlen_app {A} (x y : list A) : zlen (x ++ y) = zlen x + zlen y.
Proof. unfold zlen. rewrite length_app. lia. Qed.

Lemma zlen_zset {A} (l : list A) i v : zlen (zset l i v) = zlen l.
Proof. unfold zlen, zset. destruct (i <? 0); [done|]. by rewrite length_insert. Qed.

Lemma length_zset {A} (l : list A) i v : length (zset l i v) = length l.
Proof. unfold zset. destruct (i <? 0); [done|]. apply length_insert. Qed.

Lemma zget_zset_eq {A} `{Dflt A} (l : list A) i v :
  0 <= i < zlen l -> zget (zset l i v) i = v.
Proof.
  intros Hi. unfold zget, zset, zlen in *.
  destruct (Z.ltb_spec i 0); [lia|].
  rewrite list_lookup_insert_eq; [done|lia].
Qed.

Lemma zget_zset_ne {A} `{Dflt A} (l : list A) i j v :
  i <> j -> zget (zset l i v) j = zget l j.
Proof.
  intros Hij. unfold zget, zset.
  destruct (Z.ltb_spec i 0), (Z.ltb_spec j 0); try done.
  rewrite list_lookup_insert_ne; [done|lia].
Qed.

Lemma zget_zset {A} `{Dflt A} (l : list A) i j v :
  0 <= i < zlen l -> zget (zset l i v) j = if i =? j then v else zget l j.
Proof.
  intros Hi. destruct (Z.eqb_spec i j) as [->|Hne].
  - by apply zget_zset_eq.
  - by apply zget_zset_ne.
Qed.

Lemma zget_out {A} `{Dflt A} (l : list A) i : zlen l <= i -> zget l i = dflt.
Proof.
  intros Hi. unfold zget, zlen in *. destruct (Z.ltb_spec i 0); [done|].
  by rewrite lookup_ge_None_2 by lia.
Qed.

Lemma zset_zget_id {A} `{Dflt A} (l : list A) i : zset l i (zget l i) = l.
Proof.
  unfold zset, zget. destruct (Z.ltb_spec i 0); [done|].
  destruct (l !! Z.to_nat i) eqn:E; simpl.
  - by apply list_insert_id.
  - apply list_insert_ge. by apply lookup_ge_None.
Qed.

Lemma zset_zset {A} (l : list A) i v w : zset (zset l i v) i w = zset l i w.
Proof.
  unfold zset. destruct (Z.ltb_spec i 0); [done|]. by rewrite list_insert_insert_eq.
Qed.

Lemma zlist_eq {A} `{Dflt A} (l k : list A) :
  zlen l = zlen k -> (forall i, 0 <= i < zlen l -> zget l i = zget k i) -> l = k.
Proof.
  unfold zlen. intros Hlen Hget. apply list_eq. intros n.
  destruct (decide (n < length l)%nat) as [Hn|Hn].
  - specialize (Hget (Z.of_nat n) ltac:(lia)). unfold zget in Hget.
    destruct (Z.ltb_spec (Z.of_nat n) 0); [lia|]. rewrite Nat2Z.id in Hget.
    destruct (lookup_lt_is_Some_2 l n Hn) as [x Hx].
    destruct (lookup_lt_is_Some_2 k n ltac:(lia)) as [y Hy].
    rewrite Hx, Hy in *. simpl in Hget. by f_equal.
  - rewrite !lookup_ge_None_2 by lia. done.
Qed.

Lemma zget_Forall {A} `{Dflt A} (P : A -> Prop) (l : list A) i :
  Forall P l -> P dflt -> P (zget l i).
Proof.
  intros HF Hd. unfold zget. destruct (i <? 0); [done|].
  destruct (l !! Z.to_nat i) eqn:E; simpl; [|done].
  by eapply Forall_lookup_1.
Qed.

Lemma zset_Forall {A} (P : A -> Prop) (l : list A) i v :
  Forall P l -> P v -> Forall P (zset l i v).
Proof.
  intros HF Hv. unfold zset. destruct (i <? 0); [done|]. by apply Forall_insert.
Qed.

#[export] Hint Rewrite @zlen_zset @length_zset : bffs.

(** A 32 bit table entry incremented in place. *)
Definition tally (l : list Z) (i a : Z) : list Z := zset l i (s32 (zget l i + a)).

Lemma s32_add x a : s32 (s32 x + a) = s32 (x + a).
Proof.
  unfold s32. replace ((x + 2 ^ 31) mod 2 ^ 32 - 2 ^ 31 + a + 2 ^ 31)
    with ((x + 2 ^ 31) mod 2 ^ 32 + a) by lia.
  rewrite Zplus_mod_idemp_l. by replace (x + 2 ^ 31 + a) with (x + a + 2 ^ 31) by lia.
Qed.

Lemma s16_add x a : s16 (s16 x + a) = s16 (x + a).
Proof.
  unfold s16. replace ((x + 2 ^ 15) mod 2 ^ 16 - 2 ^ 15 + a + 2 ^ 15)
    with ((x + 2 ^ 15) mod 2 ^ 16 + a) by lia.
  rewrite Zplus_mod_idemp_l. by replace (x + 2 ^ 15 + a) with (x + a + 2 ^ 15) by lia.
Qed.

Lemma s32_s32 x : s32 (s32 x) = s32 x.
Proof. pose proof (s32_add x 0) as H. by rewrite !Z.add_0_r in H. Qed.

(** Tallies compose: the entry at [k] accumulates the increments made at [k]. *)
Lemma zget_tally l i k a X :
  0 <= i < zlen l -> zget l k = s32 X ->
  zget (tally l i a) k = s32 (X + if i =? k then a else 0).
Proof.
  intros Hi HX. unfold tally. rewrite zget_zset by done.
  destruct (Z.eqb_spec i k) as [->|]; rewrite HX; [apply s32_add|by rewrite Z.add_0_r].
Qed.

Lemma zlen_tally l i a : zlen (tally l i a) = zlen l.
Proof. apply zlen_zset. Qed.

(** ** Counted loops

    [for (i = lo; i < hi; i += st)] visits [upto lo hi st];
    [for (i = hi; i >= lo; i -= st)] visits [downto hi lo st]. *)

Definition upto (lo hi st : Z) : list Z :=
  (fun k => lo + st * k) <$> seqZ 0 ((hi - lo + st - 1) / st).

Definition downto (hi lo st : Z) : list Z :=
  (fun k => hi - st * k) <$> seqZ 0 ((hi - lo) / st + 1).

(** First element of a list that satisfies a test: a search loop with [break]. *)
Fixpoint find_first (p : Z -> bool) (l : list Z) : option Z :=
  match l with
  | [] => None
  | x :: l' => if p x then Some x else find_first p l'
  end.

(** The length of the leading run of a test: a counting loop that stops at
    the first failure. *)
Fixpoint count_while (p : Z -> bool) (l : list Z) : Z :=
  match l with
  | [] => 0
  | x :: l' => if p x then 1 + count_while p l' else 0
  end.

(** Sum of [f] over a list of indices. *)
Definition zsum (f : Z -> Z) (l : list Z) : Z := foldr (fun x a => f x + a) 0 l.

Lemma elem_of_upto lo hi st x :
  0 < st ->
  x ∈ upto lo hi st <-> exists k, 0 <= k /\ x = lo + st * k /\ x < hi.
Proof.
  intros Hst. unfold upto. rewrite list_elem_of_fmap. split.
  - intros (k & -> & Hk). apply elem_of_seqZ in Hk. exists k.
    split; [lia|]. split; [done|].
    assert (k < (hi - lo + st - 1) / st) by lia.
    assert (st * (k + 1) <= hi - lo + st - 1).
    { transitivity (st * ((hi - lo + st - 1) / st)); [nia|].
      apply Z.mul_div_le. lia. }
    lia.
  - intros (k & Hk & -> & Hlt). exists k. split; [done|]. apply elem_of_seqZ.
    split; [lia|]. simpl.
    assert (k + 1 <= (hi - lo + st - 1) / st); [|lia].
    apply Z.div_le_lower_bound; lia.
Qed.

Lemma elem_of_downto hi lo st x :
  0 < st ->
  x ∈ downto hi lo st <-> exists k, 0 <= k /\ x = hi - st * k /\ lo <= x.
Proof.
  intros Hst. unfold downto. rewrite list_elem_of_fmap. split.
  - intros (k & -> & Hk). apply elem_of_seqZ in Hk. exists k.
    split; [lia|]. split; [done|].
    assert (st * k <= hi - lo); [|lia].
    transitivity (st * ((hi - lo) / st)); [nia|]. apply Z.mul_div_le. lia.
  - intros (k & Hk & -> & Hle). exists k. split; [done|]. apply elem_of_seqZ.
    split; [lia|]. simpl.
    assert (k <= (hi - lo) / st); [|lia]. apply Z.div_le_lower_bound; lia.
Qed.

Lemma upto_nil lo hi st : 0 < st -> hi <= lo -> upto lo hi st = [].
Proof.
  intros Hst Hle. unfold upto. rewrite (seqZ_nil 0); [done|].
  assert ((hi - lo + st - 1) / st < 1); [|lia].
  apply Z.div_lt_upper_bound; lia.
Qed.

Lemma upto_cons lo hi st :
  0 < st -> lo < hi -> upto lo hi st = lo :: upto (lo + st) hi st.
Proof.
  intros Hst Hlt. unfold upto.
  replace (hi - lo + st - 1) with ((hi - (lo + st) + st - 1) + 1 * st) by lia.
  rewrite Z.div_add by lia.
  assert (0 <= (hi - (lo + st) + st - 1) / st) by (apply Z.div_pos; lia).
  rewrite (seqZ_cons 0) by lia. simpl. f_equal; [lia|].
  replace (Z.pred ((hi - (lo + st) + st - 1) / st + 1))
    with ((hi - (lo + st) + st - 1) / st) by lia.
  change (Z.succ 0) with (1 + 0). rewrite <- (fmap_add_seqZ 1 0).
  rewrite <- list_fmap_compose. apply list_fmap_ext. intros i x _. simpl. lia.
Qed.

Lemma downto_cons hi lo st :
  0 < st -> lo <= hi -> downto hi lo st = hi :: downto (hi - st) lo st.
Proof.
  intros Hst Hle. unfold downto.
  replace (hi - lo) with ((hi - st - lo) + 1 * st) at 1 by lia.
  rewrite Z.div_add by lia.
  assert (-1 <= (hi - st - lo) / st) by (apply Z.div_le_lower_bound; lia).
  rewrite (seqZ_cons 0) by lia. simpl. f_equal; [lia|].
  replace (Z.pred ((hi - st - lo) / st + 1 + 1)) with ((hi - st - lo) / st + 1) by lia.
  change (Z.succ 0) with (1 + 0). rewrite <- (fmap_add_seqZ 1 0).
  rewrite <- list_fmap_compose. apply list_fmap_ext. intros i x _. simpl. lia.
Qed.

Lemma downto_nil hi lo st : 0 < st -> hi < lo -> downto hi lo st = [].
Proof.
  intros Hst Hlt. unfold downto. rewrite (seqZ_nil 0); [done|].
  assert ((hi - lo) / st < 0); [|lia]. apply Z.div_lt_upper_bound; lia.
Qed.

Lemma find_first_Some p l x :
  find_first p l = Some x -> x ∈ l /\ p x = true.
Proof.
  induction l as [|y l IH]; simpl; [done|]. intros H.
  destruct (p y) eqn:E.
  - injection H as <-. split; [by left|done].
  - destruct (IH H). split; [by right|done].
Qed.

Lemma find_first_None p l :
  find_first p l = None <-> forall x, x ∈ l -> p x = false.
Proof.
  induction l as [|y l IH]; simpl.
  - split; [intros _ x Hx; by apply not_elem_of_nil in Hx|done].
  - split.
    + intros H x Hx. destruct (p y) eqn:E; [done|].
      apply elem_of_cons in Hx as [->|Hx]; [done|]. by apply IH.
    + intros H. rewrite (H y) by by left. apply IH. intros x Hx. apply H. by right.
Qed.

Lemma count_while_ext p q l :
  (forall i, i ∈ l -> p i = q i) -> count_while p l = count_while q l.
Proof.
  induction l as [|x l IH]; intros Hl; [done|]. simpl.
  rewrite Hl by by left. rewrite IH; [done|]. intros i Hi. apply Hl. by right.
Qed.

(** A counting loop stops at the end of its range or at the first failure. *)
Lemma count_while_up p lo hi :
  lo <= hi -> let n := count_while p (upto lo hi 1) in
  0 <= n <= hi - lo /\ (forall i, lo <= i < lo + n -> p i = true) /\
  (lo + n = hi \/ p (lo + n) = false).
Proof.
  remember (Z.to_nat (hi - lo)) as m eqn:Hm. revert lo Hm.
  induction m as [|m IH]; intros lo Hm Hle.
  - rewrite upto_nil by lia. simpl. split; [lia|]. split; [lia|left; lia].
  - rewrite upto_cons by lia. simpl. destruct (p lo) eqn:E.
    + destruct (IH (lo + 1) ltac:(lia) ltac:(lia)) as (Hb & Hp & He).
      revert Hb Hp He. generalize (count_while p (upto (lo + 1) hi 1)). intros n Hb Hp He.
      replace (lo + (1 + n)) with (lo + 1 + n) by lia. split; [lia|]. split; [|done].
      intros i Hi. destruct (Z.eqb_spec i lo) as [->|]; [done|]. apply Hp. lia.
    + split; [lia|]. split; [lia|]. right. by rewrite Z.add_0_r.
Qed.

Lemma count_while_down p hi lo :
  lo <= hi + 1 -> let n := count_while p (downto hi lo 1) in
  0 <= n <= hi + 1 - lo /\ (forall i, hi - n < i <= hi -> p i = true) /\
  (hi - n = lo - 1 \/ p (hi - n) = false).
Proof.
  remember (Z.to_nat (hi + 1 - lo)) as m eqn:Hm. revert hi Hm.
  induction m as [|m IH]; intros hi Hm Hle.
  - rewrite downto_nil by lia. simpl. split; [lia|]. split; [lia|left; lia].
  - rewrite downto_cons by lia. simpl. destruct (p hi) eqn:E.
    + destruct (IH (hi - 1) ltac:(lia) ltac:(lia)) as (Hb & Hp & He).
      revert Hb Hp He. generalize (count_while p (downto (hi - 1) lo 1)). intros n Hb Hp He.
      replace (hi - (1 + n)) with (hi - 1 - n) by lia. split; [lia|]. split; [|done].
      intros i Hi. destruct (Z.eqb_spec i hi) as [->|]; [done|]. apply Hp. lia.
    + split; [lia|]. split; [lia|]. right. by rewrite Z.sub_0_r.
Qed.

(** ** Sums *)

Lemma zsum_app f l k : zsum f (l ++ k) = zsum f l + zsum f k.
Proof. unfold zsum. induction l as [|x l IH]; simpl; lia. Qed.

Lemma zsum_ext f g l : (forall x, x ∈ l -> f x = g x) -> zsum f l = zsum g l.
Proof.
  unfold zsum. induction l as [|x l IH]; simpl; intros H; [done|].
  rewrite (H x), IH; [done| |by left]. intros y Hy. apply H. by right.
Qed.

(** Changing a summand at one index of a duplicate-free list. *)
Lemma zsum_update f g l x :
  NoDup l -> x ∈ l -> (forall y, y ∈ l -> y <> x -> g y = f y) ->
  zsum g l = zsum f l + (g x - f x).
Proof.
  unfold zsum. induction 1 as [|y l Hy Hnd IH]; intros Hx Hext.
  - by apply not_elem_of_nil in Hx.
  - simpl. apply elem_of_cons in Hx as [->|Hx].
    + fold (zsum f l) (zsum g l). rewrite (zsum_ext g f l); [lia|].
      intros z Hz. apply Hext; [by right|]. intros ->. done.
    + rewrite IH; [|done|].
      * rewrite (Hext y); [lia|by left|]. intros ->. done.
      * intros z Hz Hne. apply Hext; [by right|done].
Qed.

Lemma zsum_nonneg f l : (forall x, x ∈ l -> 0 <= f x) -> 0 <= zsum f l.
Proof.
  unfold zsum. induction l as [|x l IH]; simpl; intros H; [lia|].
  assert (0 <= f x) by (apply H; by left).
  assert (0 <= foldr (fun x a => f x + a) 0 l); [|lia].
  apply IH. intros y Hy. apply H. by right.
Qed.

Lemma zsum_le f l c :
  (forall x, x ∈ l -> f x <= c) -> zsum f l <= c * Z.of_nat (length l).
Proof.
  unfold zsum. induction l as [|x l IH]; simpl; intros H; [lia|].
  assert (f x <= c) by (apply H; by left).
  assert (foldr (fun x a => f x + a) 0 l <= c * Z.of_nat (length l)); [|lia].
  apply IH. intros y Hy. apply H. by right.
Qed.

Lemma zsum_pos_elem f l x :
  (forall y, y ∈ l -> 0 <= f y) -> x ∈ l -> f x <= zsum f l.
Proof.
  intros Hpos Hx. induction l as [|y l IH]; [by apply not_elem_of_nil in Hx|].
  unfold zsum in *. simpl. apply elem_of_cons in Hx as [->|Hx].
  - assert (0 <= zsum f l); [|unfold zsum in *; lia].
    apply zsum_nonneg. intros z Hz. apply Hpos. by right.
  - assert (0 <= f y) by (apply Hpos; by left).
    specialize (IH ltac:(intros z Hz; apply Hpos; by right) Hx). lia.
Qed.

Lemma zsum_zero f l :
  (forall y, y ∈ l -> 0 <= f y) -> zsum f l = 0 -> forall x, x ∈ l -> f x = 0.
Proof.
  intros Hpos Hz x Hx. pose proof (zsum_pos_elem f l x Hpos Hx).
  specialize (Hpos x Hx). lia.
Qed.

Lemma zsum_exists f l :
  0 < zsum f l -> exists x, x ∈ l /\ 0 < f x.
Proof.
  unfold zsum. induction l as [|x l IH]; simpl; [lia|]. intros H.
  destruct (Z.ltb_spec 0 (f x)) as [Hx|Hx].
  - exists x. split; [by left|done].
  - destruct IH as (y & Hy & Hfy); [lia|]. exists y. split; [by right|done].
Qed.

(** ** State with undefined behaviour

    [M S A]: a computation over the state [S].  [None] is behaviour the C
    code does not define (a NULL pointer followed); the theorems of the
    later files that give a result prove in passing that it is not reached. *)

Definition M (S A : Type) : Type := S -> option (A * S).

Definition ret {S A} (a : A) : M S A := fun s => Some (a, s).
Definition bnd {S A B} (m : M S A) (k : A -> M S B) : M S B :=
  fun s => match m s with Some (a, s') => k a s' | None => None end.
Definition undef {S A} : M S A := fun _ => None.
Definition gets {S A} (f : S -> A) : M S A := fun s => Some (f s, s).
Definition modify {S} (f : S -> S) : M S unit := fun s => Some (tt, f s).

(** Following a pointer that may be NULL. *)
Definition deref {S A} (o : option A) : M S A :=
  match o with Some a => ret a | None => undef end.

Notation "x <- m ;; k" := (bnd m (fun x => k))
  (at level 100, m at next level, k at level 200, right associativity) : bffs_scope.
Notation "m ;; k" := (bnd m (fun _ => k))
  (at level 100, k at level 200, right associativity) : bffs_scope.

(** Running a loop body over the indices of a counted loop. *)
Fixpoint mfor {S} (l : list Z) (body : Z -> M S unit) : M S unit :=
  match l with
  | [] => ret tt
  | i :: l' => bnd (body i) (fun _ => mfor l' body)
  end.

(** A counted loop that threads a local variable. *)
Fixpoint mfold {S A} (l : list Z) (a : A) (body : Z -> A -> M S A) : M S A :=
  match l with
  | [] => ret a
  | i :: l' => bnd (body i a) (fun a => mfold l' a body)
  end.

(** Total correctness: the computation is defined, and its result and final
    state satisfy [Q]. *)
Definition wp {S A} (m : M S A) (Q : A -> S -> Prop) (s : S) : Prop :=
  match m s with Some (a, s') => Q a s' | None => False end.

Lemma wp_ret {S A} (a : A) (Q : A -> S -> Prop) s : Q a s -> wp (ret a) Q s.
Proof. done. Qed.

Lemma wp_bnd {S A B} (m : M S A) (k : A -> M S B) Q s :
  wp m (fun a s' => wp (k a) Q s') s -> wp (bnd m k) Q s.
Proof. unfold wp, bnd. by destruct (m s) as [[a s']|]. Qed.

Lemma wp_gets {S A} (f : S -> A) (Q : A -> S -> Prop) s : Q (f s) s -> wp (gets f) Q s.
Proof. done. Qed.

Lemma wp_modify {S} (f : S -> S) (Q : unit -> S -> Prop) s :
  Q tt (f s) -> wp (modify f) Q s.
Proof. done. Qed.

Lemma wp_deref {S A} (o : option A) a (Q : A -> S -> Prop) s :
  o = Some a -> Q a s -> wp (deref o) Q s.
Proof. by intros ->. Qed.

Lemma wp_mono {S A} (m : M S A) (P Q : A -> S -> Prop) s :
  wp m P s -> (forall a s', P a s' -> Q a s') -> wp m Q s.
Proof. unfold wp. destruct (m s) as [[a s']|]; eauto. Qed.

Lemma wp_run {S A} (m : M S A) (Q : A -> S -> Prop) s :
  wp m Q s <-> exists a s', m s = Some (a, s') /\ Q a s'.
Proof.
  unfold wp. destruct (m s) as [[a s']|]; split.
  - intros HQ. by exists a, s'.
  - by intros (a' & s'' & [= <- <-] & HQ).
  - done.
  - by intros (a' & s'' & [=] & _).
Qed.

(** Loop rule: an invariant indexed by the indices still to be visited. *)
Lemma wp_mfor {S} (body : Z -> M S unit) (I : list Z -> S -> Prop) (Q : unit -> S -> Prop) l s :
  I l s ->
  (forall i l' s', I (i :: l') s' -> wp (body i) (fun _ s'' => I l' s'') s') ->
  (forall s', I [] s' -> Q tt s') ->
  wp (mfor l body) Q s.
Proof.
  intros HI Hbody HQ. revert s HI. induction l as [|i l IH]; intros s HI; simpl.
  - by apply HQ.
  - apply wp_bnd. eapply wp_mono; [by apply Hbody|]. intros ? s' HI'. by apply IH.
Qed.

(** A loop over [lo], ..., [hi - 1] with an invariant on the counter. *)
Lemma wp_mfor_upto {S} (body : Z -> M S unit) (I : Z -> S -> Prop) (Q : unit -> S -> Prop) lo hi s :
  lo <= hi -> I lo s ->
  (forall k s', lo <= k < hi -> I k s' -> wp (body k) (fun _ s'' => I (k + 1) s'') s') ->
  (forall s', I hi s' -> Q tt s') ->
  wp (mfor (upto lo hi 1) body) Q s.
Proof.
  remember (Z.to_nat (hi - lo)) as n eqn:Hn. revert lo Hn s.
  induction n as [|n IH]; intros lo Hn s Hle HI Hstep HQ.
  - rewrite upto_nil by lia. apply wp_ret, HQ. by replace hi with lo by lia.
  - rewrite upto_cons by lia. cbn [mfor]. apply wp_bnd. eapply wp_mono; [apply Hstep; [lia|done]|].
    intros [] s' HI'. apply IH; [lia|lia|done| |done]. intros k s'' Hk. apply Hstep. lia.
Qed.

Ltac wp_step :=
  lazymatch goal with
  | |- wp (bnd _ _) _ _ => apply wp_bnd
  | |- wp (ret _) _ _ => apply wp_ret
  | |- wp (gets _) _ _ => apply wp_gets
  | |- wp (modify _) _ _ => apply wp_modify
  end; cbv beta.
Ltac wp_steps := repeat wp_step.
