(* ===== verification/Bitmap.v ===== *)
(** Free-fragment bit maps: the macros of [alloc.h] and the block primitives
    of [alloc.c] ([block_alloc], [block_dealloc], [block_avail],
    [frags_left_are_free]).  A set bit is a free fragment.  [FPB] is the
    macro FRAGS_PER_BLK, the [fs_frag] field of the mounted superblock. *)

From S2P Require Import Prelude.

(** ** alloc.h *)

Definition bit_set (map : list Z) (index : Z) : list Z :=
  zset map (Z.shiftr index 3)
    (u8 (Z.lor (zget map (Z.shiftr index 3)) (Z.shiftl 1 (Z.land index 7)))).

Definition bit_clr (map : list Z) (index : Z) : list Z :=
  zset map (Z.shiftr index 3)
    (u8 (Z.land (zget map (Z.shiftr index 3))
                (Z.lnot (Z.shiftl 1 (Z.land index 7))))).

Definition bit_chk (map : list Z) (index : Z) : Z :=
  Z.land (zget map (Z.shiftr index 3)) (Z.shiftl 1 (Z.land index 7)).

Definition bit_val (map : list Z) (index : Z) : Z :=
  if bit_chk map index =? 0 then 0 else 1.

(** ** Whole blocks *)

Definition block_alloc (FPB : Z) (map : list Z) (fpos : Z) : list Z :=
  let k := Z.shiftr fpos 3 in
  if FPB =? 1 then
    zset map k (u8 (Z.land (zget map k) (Z.lnot (Z.shiftl 1 (Z.land fpos 7)))))
  else if FPB =? 2 then
    let map := zset map k
      (u8 (Z.land (zget map k) (Z.lnot (Z.shiftl 1 (Z.land fpos 6))))) in
    zset map k
      (u8 (Z.land (zget map k) (Z.lnot (Z.shiftl 1 (Z.lor (Z.land fpos 6) 1)))))
  else if FPB =? 4 then
    zset map k (u8 (Z.land (zget map k)
                           (if Z.land fpos 4 =? 0 then 0xf0 else 0x0f)))
  else if FPB =? 8 then zset map k 0
  else map.

Definition block_dealloc (FPB : Z) (map : list Z) (fpos : Z) : list Z :=
  let k := Z.shiftr fpos 3 in
  if FPB =? 1 then
    zset map k (u8 (Z.lor (zget map k) (Z.shiftl 1 (Z.land fpos 7))))
  else if FPB =? 2 then
    let map := zset map k
      (u8 (Z.lor (zget map k) (Z.shiftl 1 (Z.land fpos 6)))) in
    zset map k (u8 (Z.lor (zget map k) (Z.shiftl 1 (Z.lor (Z.land fpos 6) 1))))
  else if FPB =? 4 then
    zset map k (u8 (Z.lor (zget map k)
                          (if Z.land fpos 4 =? 0 then 0x0f else 0xf0)))
  else if FPB =? 8 then zset map k 0xff
  else map.

Definition block_avail (FPB : Z) (map : list Z) (fpos : Z) : bool :=
  if FPB =? 1 then negb (bit_val map fpos =? 0)
  else if FPB =? 2 then
    negb (bit_val map (Z.land fpos (Z.lnot 1)) =? 0) &&
    negb (bit_val map (Z.lor fpos 1) =? 0)
  else if FPB =? 4 then
    let temp := if Z.land fpos 4 =? 0 then 0x0f else 0xf0 in
    Z.land (zget map (Z.shiftr fpos 3)) temp =? temp
  else if FPB =? 8 then zget map (Z.shiftr fpos 3) =? 0xff
  else false.

(** The loop of [frags_left_are_free]: [index] runs to the end of the block
    while [frag] advances with it. *)
Fixpoint frags_left_loop (map : list Z) (left : list Z) (frag : Z) : bool :=
  match left with
  | [] => true
  | _ :: left' =>
      if bit_val map frag =? 0 then false else frags_left_loop map left' (frag + 1)
  end.

Definition frags_left_are_free (FPB : Z) (map : list Z) (frag : Z) : bool :=
  frags_left_loop map (upto (frag mod FPB) FPB 1) frag.

(** ** The bit view *)

Definition is_free (map : list Z) (i : Z) : bool :=
  Z.testbit (zget map (i / 8)) (i mod 8).

Definition byte (b : Z) : Prop := 0 <= b < 256.

Definition valid_fpb (FPB : Z) : Prop := FPB = 1 \/ FPB = 2 \/ FPB = 4 \/ FPB = 8.

(** Position [i] lies inside the map. *)
Definition in_map (map : list Z) (i : Z) : Prop := 0 <= i < 8 * zlen map.

Lemma shiftr3 i : Z.shiftr i 3 = i / 8.
Proof. by rewrite Z.shiftr_div_pow2. Qed.

Lemma land_low3 x m : 0 <= m < 8 -> Z.land x m = Z.land (x mod 8) m.
Proof.
  intros Hm. change 8 with (2 ^ 3). rewrite <- Z.land_ones by lia.
  rewrite <- Z.land_assoc. f_equal.
  rewrite Z.land_comm, Z.land_ones by lia. symmetry. apply Z.mod_small. done.
Qed.

Lemma mod8_cases x (P : Z -> Prop) :
  P 0 -> P 1 -> P 2 -> P 3 -> P 4 -> P 5 -> P 6 -> P 7 -> P (x mod 8).
Proof.
  intros. pose proof (Z.mod_pos_bound x 8 ltac:(lia)).
  assert (x mod 8 = 0 \/ x mod 8 = 1 \/ x mod 8 = 2 \/ x mod 8 = 3 \/
          x mod 8 = 4 \/ x mod 8 = 5 \/ x mod 8 = 6 \/ x mod 8 = 7) as Hc by lia.
  by destruct Hc as [->|[->|[->|[->|[->|[->|[->| ->]]]]]]].
Qed.

Lemma u8_testbit x j : 0 <= j < 8 -> Z.testbit (u8 x) j = Z.testbit x j.
Proof. intros Hj. unfold u8. by rewrite Z.mod_pow2_bits_low by lia. Qed.

Lemma byte_u8 x : byte (u8 x).
Proof. apply u8_range. Qed.

Lemma byte_testbit_high b j : byte b -> 8 <= j -> Z.testbit b j = false.
Proof.
  intros Hb Hj. unfold byte in Hb. rewrite <- (Z.mod_small b (2 ^ 8)) by (zify_pow; lia).
  by apply Z.mod_pow2_bits_high; lia.
Qed.

Lemma byte_eq a b :
  byte a -> byte b -> (forall j, 0 <= j < 8 -> Z.testbit a j = Z.testbit b j) -> a = b.
Proof.
  intros Ha Hb H. apply Z.bits_inj'. intros j Hj.
  destruct (Z.ltb_spec j 8); [apply H; lia|].
  by rewrite !byte_testbit_high by (done || lia).
Qed.

(** A byte of the map replaced: which bits change. *)
Lemma is_free_zset map k v i :
  0 <= k < zlen map ->
  is_free (zset map k v) i = if i / 8 =? k then Z.testbit v (i mod 8) else is_free map i.
Proof.
  intros Hk. unfold is_free. rewrite zget_zset by done.
  rewrite (Z.eqb_sym k). by destruct (i / 8 =? k).
Qed.

Lemma in_map_byte map i : in_map map i -> 0 <= i / 8 < zlen map.
Proof. unfold in_map. intros H. split; [apply Z.div_pos; lia|]. apply Z.div_lt_upper_bound; lia. Qed.

Lemma land_pow2_eqb b j :
  0 <= j -> (Z.land b (Z.shiftl 1 j) =? 0) = negb (Z.testbit b j).
Proof.
  intros Hj. rewrite Z.shiftl_1_l. destruct (Z.testbit b j) eqn:E.
  - apply Z.eqb_neq. intros H0.
    assert (Z.testbit (Z.land b (2 ^ j)) j = false) as Hf by (rewrite H0; apply Z.bits_0).
    rewrite Z.land_spec, E, Z.pow2_bits_true in Hf by done. done.
  - apply Z.eqb_eq. apply Z.bits_inj'. intros k Hk.
    rewrite Z.land_spec, Z.bits_0, Z.pow2_bits_eqb by done.
    destruct (Z.eqb_spec j k) as [->|]; [by rewrite E|by rewrite andb_false_r].
Qed.

(** [bit_chk] and [bit_val] test the bit [is_free] names. *)
Lemma bit_chk_free map i : (bit_chk map i =? 0) = negb (is_free map i).
Proof.
  unfold bit_chk, is_free. rewrite shiftr3, (land_low3 i 7) by lia.
  rewrite land_pow2_eqb.
  - do 2 f_equal. apply (mod8_cases i (fun m => Z.land m 7 = m)); reflexivity.
  - apply Z.land_nonneg. right. lia.
Qed.

Lemma bit_val_free map i : bit_val map i = if is_free map i then 1 else 0.
Proof. unfold bit_val. rewrite bit_chk_free. by destruct (is_free map i). Qed.

Lemma bit_val_zero map i : (bit_val map i =? 0) = negb (is_free map i).
Proof. rewrite bit_val_free. by destruct (is_free map i). Qed.

(** ** Bit effects of the macros *)

(** Truth table of a constant mask against the eight positions of a byte. *)
Ltac byte_cases :=
  repeat match goal with
  | |- context [?x mod 8] =>
      is_var x;
      let P := fresh in
      pattern (x mod 8);
      match goal with |- ?Q _ => set (P := Q) end;
      apply (mod8_cases x P); subst P; cbv beta
  end.

Lemma bits_index i j : i = j <-> i / 8 = j / 8 /\ i mod 8 = j mod 8.
Proof. split; [by intros ->|]. intros [H1 H2]. rewrite (Z.div_mod i 8), (Z.div_mod j 8) by lia. lia. Qed.

Lemma eqb_index i j : (i =? j) = (i / 8 =? j / 8) && (i mod 8 =? j mod 8).
Proof.
  destruct (Z.eqb_spec i j) as [->|Hne]; [by rewrite !Z.eqb_refl|].
  destruct (Z.eqb_spec (i / 8) (j / 8)), (Z.eqb_spec (i mod 8) (j mod 8)); try done.
  exfalso. apply Hne. by apply bits_index.
Qed.

Lemma bit_set_free map x i :
  in_map map x -> is_free (bit_set map x) i = (i =? x) || is_free map i.
Proof.
  intros Hx. unfold bit_set. rewrite shiftr3, (land_low3 x 7) by lia.
  rewrite is_free_zset by by apply in_map_byte. rewrite (eqb_index i x).
  unfold is_free at 2. destruct (Z.eqb_spec (i / 8) (x / 8)) as [->|]; [|done].
  rewrite u8_testbit by (apply Z.mod_pos_bound; lia). rewrite Z.lor_spec.
  rewrite orb_comm. f_equal. byte_cases; reflexivity.
Qed.

Lemma bit_clr_free map x i :
  in_map map x -> is_free (bit_clr map x) i = negb (i =? x) && is_free map i.
Proof.
  intros Hx. unfold bit_clr. rewrite shiftr3, (land_low3 x 7) by lia.
  rewrite is_free_zset by by apply in_map_byte. rewrite (eqb_index i x).
  unfold is_free at 2. destruct (Z.eqb_spec (i / 8) (x / 8)) as [->|]; [|done].
  rewrite u8_testbit by (apply Z.mod_pos_bound; lia). rewrite Z.land_spec.
  rewrite andb_comm. f_equal. byte_cases; reflexivity.
Qed.

Lemma zlen_bit_set map x : zlen (bit_set map x) = zlen map.
Proof. apply zlen_zset. Qed.

Lemma zlen_bit_clr map x : zlen (bit_clr map x) = zlen map.
Proof. apply zlen_zset. Qed.

Lemma bytes_bit_set map x : Forall byte map -> Forall byte (bit_set map x).
Proof. intros. apply zset_Forall; [done|apply byte_u8]. Qed.

Lemma bytes_bit_clr map x : Forall byte map -> Forall byte (bit_clr map x).
Proof. intros. apply zset_Forall; [done|apply byte_u8]. Qed.

(** The block of a fragment, when blocks have [FPB] fragments. *)
Lemma fpb_same_block FPB x y :
  valid_fpb FPB -> 
  (x / FPB =? y / FPB) =
  (x / 8 =? y / 8) && ((x mod 8) / FPB =? (y mod 8) / FPB).
Proof.
  intros HF.
  assert (forall z, z / FPB = (8 / FPB) * (z / 8) + (z mod 8) / FPB) as Hz.
  { intros z. rewrite (Z.div_mod z 8) at 1 by lia.
    unfold valid_fpb in HF. destruct HF as [->|[->|[->| ->]]].
    - rewrite !Z.div_1_r. lia.
    - change (8 / 2) with 4. replace (8 * (z / 8) + z mod 8) with (z mod 8 + (4 * (z / 8)) * 2) by lia.
      rewrite Z.div_add by lia. lia.
    - change (8 / 4) with 2. replace (8 * (z / 8) + z mod 8) with (z mod 8 + (2 * (z / 8)) * 4) by lia.
      rewrite Z.div_add by lia. lia.
    - change (8 / 8) with 1. replace (8 * (z / 8) + z mod 8) with (z mod 8 + (z / 8) * 8) by lia.
      rewrite Z.div_add by lia. lia. }
  assert (forall z, 0 <= (z mod 8) / FPB < 8 / FPB) as Hb.
  { intros z. unfold valid_fpb in HF. destruct HF as [->|[->|[->| ->]]]; byte_cases; vm_compute; split; congruence. }
  rewrite (Hz x), (Hz y). pose proof (Hb x). pose proof (Hb y).
  destruct (Z.eqb_spec (x / 8) (y / 8)) as [->|Hne].
  - simpl. destruct (Z.eqb_spec ((x mod 8) / FPB) ((y mod 8) / FPB)) as [->|]; [apply Z.eqb_refl|].
    apply Z.eqb_neq. lia.
  - simpl. apply Z.eqb_neq. nia.
Qed.

Lemma zlen_block_alloc FPB map x : zlen (block_alloc FPB map x) = zlen map.
Proof. unfold block_alloc. repeat case_match; by rewrite ?zlen_zset. Qed.

Lemma zlen_block_dealloc FPB map x : zlen (block_dealloc FPB map x) = zlen map.
Proof. unfold block_dealloc. repeat case_match; by rewrite ?zlen_zset. Qed.

Lemma bytes_block_alloc FPB map x : Forall byte map -> Forall byte (block_alloc FPB map x).
Proof.
  intros. unfold block_alloc.
  repeat case_match; repeat apply zset_Forall; try done; try apply byte_u8.
Qed.

Lemma bytes_block_dealloc FPB map x : Forall byte map -> Forall byte (block_dealloc FPB map x).
Proof.
  intros. unfold block_dealloc.
  repeat case_match; repeat apply zset_Forall; try done; try apply byte_u8.
Qed.

Ltac fpb_cases H :=
  unfold valid_fpb in H; destruct H as [->|[->|[->| ->]]].

(** What a whole-block update does to the eight bits of one byte. *)
Lemma block_alloc_free FPB map x i :
  valid_fpb FPB -> in_map map x ->
  is_free (block_alloc FPB map x) i = negb (i / FPB =? x / FPB) && is_free map i.
Proof.
  intros HF Hx. pose proof (in_map_byte _ _ Hx) as Hk. rewrite fpb_same_block by done.
  unfold block_alloc. rewrite shiftr3.
  rewrite ?(land_low3 x 7), ?(land_low3 x 6), ?(land_low3 x 4) by lia.
  fpb_cases HF; cbn -[zset zget u8 Z.land Z.lor Z.lnot Z.shiftl Z.div Z.modulo Z.testbit];
    rewrite !is_free_zset by (rewrite ?zlen_zset; done);
    unfold is_free; destruct (Z.eqb_spec (i / 8) (x / 8)) as [->|]; try done; simpl andb;
    rewrite ?zget_zset_eq by done;
    rewrite ?u8_testbit by (apply Z.mod_pos_bound; lia);
    rewrite ?Z.land_spec;
    rewrite ?u8_testbit by (apply Z.mod_pos_bound; lia);
    rewrite ?Z.land_spec; generalize (zget map (x / 8)); intros b;
    byte_cases; cbn; by rewrite ?andb_true_r, ?andb_false_r.
Qed.

Lemma block_dealloc_free FPB map x i :
  valid_fpb FPB -> in_map map x ->
  is_free (block_dealloc FPB map x) i = (i / FPB =? x / FPB) || is_free map i.
Proof.
  intros HF Hx. pose proof (in_map_byte _ _ Hx) as Hk. rewrite fpb_same_block by done.
  unfold block_dealloc. rewrite shiftr3.
  rewrite ?(land_low3 x 7), ?(land_low3 x 6), ?(land_low3 x 4) by lia.
  fpb_cases HF; cbn -[zset zget u8 Z.land Z.lor Z.lnot Z.shiftl Z.div Z.modulo Z.testbit];
    rewrite !is_free_zset by (rewrite ?zlen_zset; done);
    unfold is_free; destruct (Z.eqb_spec (i / 8) (x / 8)) as [->|]; try done; simpl orb;
    rewrite ?zget_zset_eq by done;
    rewrite ?u8_testbit by (apply Z.mod_pos_bound; lia);
    rewrite ?Z.lor_spec;
    rewrite ?u8_testbit by (apply Z.mod_pos_bound; lia);
    rewrite ?Z.lor_spec; generalize (zget map (x / 8)); intros b;
    byte_cases; cbn; by rewrite ?orb_true_r, ?orb_false_r.
Qed.

(** ** Availability tests *)

(** Fragments of the block of [x]. *)
Definition block_frags (FPB x : Z) : list Z := seqZ (x / FPB * FPB) FPB.

Lemma valid_fpb_pos FPB : valid_fpb FPB -> 0 < FPB <= 8.
Proof. unfold valid_fpb. lia. Qed.

Lemma elem_of_block_frags FPB x i :
  0 < FPB -> i ∈ block_frags FPB x <-> i / FPB = x / FPB.
Proof.
  intros HF. unfold block_frags. rewrite elem_of_seqZ. split.
  - intros [H1 H2]. symmetry. apply (Z.div_unique i FPB (x / FPB) (i - x / FPB * FPB)); lia.
  - intros H. rewrite <- H. pose proof (Z.div_mod i FPB). pose proof (Z.mod_pos_bound i FPB). lia.
Qed.

(** All bits of a byte set under a mask. *)
Lemma land_mask_eq b m :
  0 <= m -> (Z.land b m = m <-> forall j, 0 <= j -> Z.testbit m j = true -> Z.testbit b j = true).
Proof.
  intros Hm. split.
  - intros H j Hj Hmj. rewrite <- H, Z.land_spec in Hmj. by apply andb_true_iff in Hmj as [? _].
  - intros H. apply Z.bits_inj'. intros j Hj. rewrite Z.land_spec.
    destruct (Z.testbit m j) eqn:E; [|by rewrite andb_false_r]. by rewrite H.
Qed.

Lemma div_mod_block FPB x i :
  valid_fpb FPB -> i / FPB = x / FPB ->
  i / 8 = x / 8 /\ (i mod 8) / FPB = (x mod 8) / FPB.
Proof.
  intros HF H. pose proof (fpb_same_block FPB i x HF) as Hb.
  rewrite (proj2 (Z.eqb_eq _ _) H) in Hb. symmetry in Hb.
  apply andb_true_iff in Hb as [H1 H2]. split; by apply Z.eqb_eq.
Qed.

Lemma div_mod_block_inv FPB x j :
  valid_fpb FPB -> 0 <= j < 8 -> j / FPB = (x mod 8) / FPB ->
  (8 * (x / 8) + j) / FPB = x / FPB /\ (8 * (x / 8) + j) / 8 = x / 8 /\
  (8 * (x / 8) + j) mod 8 = j.
Proof.
  intros HF Hj H.
  assert ((8 * (x / 8) + j) / 8 = x / 8) as H8.
  { symmetry. apply (Z.div_unique _ _ _ j); lia. }
  assert ((8 * (x / 8) + j) mod 8 = j) as Hm.
  { symmetry. apply (Z.mod_unique _ _ (x / 8)); lia. }
  split; [|done]. apply Z.eqb_eq. rewrite fpb_same_block by done.
  rewrite H8, Hm, H. by rewrite !Z.eqb_refl.
Qed.

Lemma byte_full b : byte b -> (b = 255 <-> forall j, 0 <= j < 8 -> Z.testbit b j = true).
Proof.
  intros Hb. split.
  - intros -> j Hj. assert (j = 0 \/ j = 1 \/ j = 2 \/ j = 3 \/ j = 4 \/ j = 5 \/ j = 6 \/ j = 7) as Hc by lia.
    by destruct Hc as [->|[->|[->|[->|[->|[->|[->| ->]]]]]]].
  - intros H. apply byte_eq; [done|unfold byte; lia|]. intros j Hj. rewrite H by done.
    assert (j = 0 \/ j = 1 \/ j = 2 \/ j = 3 \/ j = 4 \/ j = 5 \/ j = 6 \/ j = 7) as Hc by lia.
    by destruct Hc as [->|[->|[->|[->|[->|[->|[->| ->]]]]]]].
Qed.

(** [block_avail] through the byte: every bit of the block's share is set. *)
Lemma block_avail_byte FPB map x :
  valid_fpb FPB -> Forall byte map ->
  block_avail FPB map x = true <->
  forall j, 0 <= j < 8 -> j / FPB = (x mod 8) / FPB ->
    Z.testbit (zget map (x / 8)) j = true.
Proof.
  intros HF Hb.
  assert (byte (zget map (x / 8))) as Hk.
  { apply zget_Forall; [done|]. unfold byte, dflt, dflt_Z. lia. }
  unfold block_avail. fpb_cases HF; cbn -[bit_val zget Z.land Z.lor Z.lnot Z.div Z.modulo Z.testbit Z.shiftr].
  - rewrite bit_val_zero, negb_involutive. unfold is_free. split.
    + intros H j Hj Hd. rewrite !Z.div_1_r in Hd. by subst j.
    + intros H. apply H; [apply Z.mod_pos_bound; lia|done].
  - rewrite !bit_val_zero, !negb_involutive, andb_true_iff. unfold is_free.
    assert (Z.land x (Z.lnot 1) = 2 * (x / 2)) as ->.
    { change (Z.lnot 1) with (Z.lnot (Z.ones 1)). rewrite <- Z.ldiff_land, Z.ldiff_ones_r by lia.
      rewrite Z.shiftl_mul_pow2, Z.shiftr_div_pow2 by lia. change (2 ^ 1) with 2. lia. }
    assert (Z.lor x 1 = 2 * (x / 2) + 1) as ->.
    { pose proof (Z.div_mod x 2 ltac:(lia)) as Hx. pose proof (Z.mod_pos_bound x 2 ltac:(lia)).
      apply Z.bits_inj'. intros n Hn. rewrite Z.lor_spec. destruct (Z.eqb_spec n 0) as [->|].
      - rewrite Z.testbit_odd_0. change (Z.testbit 1 0) with true. by rewrite orb_true_r.
      - change 1 with (2 ^ 0) at 1. rewrite Z.pow2_bits_false, orb_false_r by lia.
        replace n with (Z.succ (n - 1)) by lia. rewrite Z.testbit_odd_succ by lia.
        replace (x / 2) with (Z.shiftr x 1) by (by rewrite Z.shiftr_div_pow2).
        rewrite Z.shiftr_spec by lia. f_equal. }
    replace (2 * (x / 2) / 8) with (x / 8) by dlia.
    replace ((2 * (x / 2) + 1) / 8) with (x / 8) by dlia.
    replace ((2 * (x / 2)) mod 8) with (2 * ((x mod 8) / 2)) by dlia.
    replace ((2 * (x / 2) + 1) mod 8) with (2 * ((x mod 8) / 2) + 1) by dlia.
    pose proof (Z.mod_pos_bound x 8 ltac:(lia)) as Hm. clear Hb Hk.
    generalize dependent (x mod 8). intros m Hm. split.
    + intros [H0 H1] j Hj Hd.
      assert (j = 2 * (m / 2) \/ j = 2 * (m / 2) + 1) as [-> | ->] by dlia; done.
    + intros H. split; apply H; dlia.
  - rewrite shiftr3, (land_low3 x 4), Z.eqb_eq by lia.
    rewrite land_mask_eq by (case_match; lia). split.
    + intros H j Hj Hd. apply H; [lia|]. revert j Hj Hd. byte_cases; cbn -[Z.div]; intros j Hj Hd;
      assert (j = 0 \/ j = 1 \/ j = 2 \/ j = 3 \/ j = 4 \/ j = 5 \/ j = 6 \/ j = 7) as Hc by lia;
      by destruct Hc as [->|[->|[->|[->|[->|[->|[->| ->]]]]]]].
    + intros H j Hj Hd. destruct (Z.ltb_spec j 8) as [Hlt|Hge].
      * apply H; [lia|]. revert j Hj Hd Hlt. clear H. byte_cases; cbn -[Z.div Z.testbit]; intros j Hj Hd Hlt;
        assert (j = 0 \/ j = 1 \/ j = 2 \/ j = 3 \/ j = 4 \/ j = 5 \/ j = 6 \/ j = 7) as Hc by lia;
        by destruct Hc as [->|[->|[->|[->|[->|[->|[->| ->]]]]]]].
      * exfalso. rewrite byte_testbit_high in Hd; [done| |done]. unfold byte. case_match; lia.
  - rewrite shiftr3, Z.eqb_eq, byte_full by done. split.
    + intros H j Hj _. by apply H.
    + intros H j Hj. apply H; [done|]. rewrite !Z.div_small; [done| |lia]. apply Z.mod_pos_bound. lia.
Qed.

Lemma block_avail_free FPB map x :
  valid_fpb FPB -> Forall byte map ->
  block_avail FPB map x = true <->
  forall i, i / FPB = x / FPB -> is_free map i = true.
Proof.
  intros HF Hb. rewrite block_avail_byte by done. split.
  - intros H i Hi. apply div_mod_block in Hi as [Hd Hm]; [|done].
    unfold is_free. rewrite Hd. apply H; [apply Z.mod_pos_bound; lia|done].
  - intros H j Hj Hd. destruct (div_mod_block_inv FPB x j HF Hj Hd) as (H1 & H2 & H3).
    specialize (H _ H1). unfold is_free in H. by rewrite H2, H3 in H.
Qed.

(** The block test depends on the block only. *)
Lemma block_avail_same FPB map x y :
  valid_fpb FPB -> Forall byte map -> x / FPB = y / FPB ->
  block_avail FPB map x = block_avail FPB map y.
Proof.
  intros HF Hb Hxy. apply eq_true_iff_eq. rewrite !block_avail_free by done. by rewrite Hxy.
Qed.

Lemma frags_left_loop_spec map l frag :
  frags_left_loop map l frag = true <->
  forall i, frag <= i < frag + zlen l -> is_free map i = true.
Proof.
  revert frag. induction l as [|a l IH]; intros frag; simpl.
  - unfold zlen. simpl. split; [intros _ i Hi; lia|done].
  - rewrite bit_val_zero. unfold zlen in *. simpl.
    destruct (is_free map frag) eqn:E; simpl.
    + rewrite IH. split; intros H i Hi.
      * destruct (Z.eqb_spec i frag) as [->|]; [done|]. apply H. lia.
      * apply H. lia.
    + split; [done|]. intros H. rewrite <- E. symmetry. symmetry. apply H. lia.
Qed.

Lemma zlen_upto1 lo hi : lo <= hi -> zlen (upto lo hi 1) = hi - lo.
Proof.
  intros H. unfold zlen, upto. rewrite length_fmap, length_seqZ.
  rewrite Z.div_1_r. lia.
Qed.
