(* ===== verification/Superblock.v ===== *)
(** The superblock of a mounted file system: [struct fs] and [struct csum]
    of [ufs/fs.h] and the address macros of [fsmacros.h].  The fields newfs
    fixes are the record [geometry]; the fields the handler changes while
    mounted are the other fields of [fs].  Disk words are big endian and so
    is the host: DISK32 is the identity of the big endian build. *)

From S2P Require Import Prelude Bitmap.

(** ** struct csum *)

Record csum := Csum {
  cs_ndir : Z;
  cs_nbfree : Z;
  cs_nifree : Z;
  cs_nffree : Z }.

Definition csum0 : csum := Csum 0 0 0 0.
#[export] Instance dflt_csum : Dflt csum := csum0.

Definition csum_add_nbfree (c : csum) (a : Z) : csum :=
  Csum (cs_ndir c) (s32 (cs_nbfree c + a)) (cs_nifree c) (cs_nffree c).
Definition csum_add_nffree (c : csum) (a : Z) : csum :=
  Csum (cs_ndir c) (cs_nbfree c) (cs_nifree c) (s32 (cs_nffree c + a)).
Definition csum_add_nifree (c : csum) (a : Z) : csum :=
  Csum (cs_ndir c) (cs_nbfree c) (s32 (cs_nifree c + a)) (cs_nffree c).
Definition csum_add_ndir (c : csum) (a : Z) : csum :=
  Csum (s32 (cs_ndir c + a)) (cs_nbfree c) (cs_nifree c) (cs_nffree c).

(** ** struct fs *)

Record geometry := Geometry {
  fs_sblkno : Z;        (* offset of the superblock copy in a group *)
  fs_cblkno : Z;        (* offset of the cylinder group block *)
  fs_iblkno : Z;        (* offset of the inode blocks *)
  fs_dblkno : Z;        (* offset of the first data block *)
  fs_cgoffset : Z;
  fs_cgmask : Z;
  fs_ncg : Z;           (* number of cylinder groups *)
  fs_bsize : Z;         (* bytes in a block, FBSIZE *)
  fs_fsize : Z;         (* bytes in a fragment, FSIZE *)
  fs_frag : Z;          (* fragments in a block, FRAGS_PER_BLK *)
  fs_bshift : Z;
  fs_fshift : Z;
  fs_fragshift : Z;
  fs_nindir : Z;        (* block pointers in a block *)
  fs_inopb : Z;         (* inodes in a block *)
  fs_nspf : Z;          (* sectors in a fragment *)
  fs_npsect : Z;
  fs_interleave : Z;
  fs_trackskew : Z;
  fs_nsect : Z;
  fs_spc : Z;           (* sectors in a cylinder *)
  fs_ipg : Z;           (* inodes in a group *)
  fs_fpg : Z;           (* fragments in a group *)
  fs_nrpos : Z;
  fs_contigsumsize : Z }.

Record fs := Fs {
  fs_geo :> geometry;
  fs_cstotal : csum;
  fs_new_cstotal : csum;    (* low words of the 64 bit totals *)
  fs_csp : list csum;       (* one entry per group: the macro fs_cs *)
  fs_flags : Z;
  fs_fmod : Z;              (* a char: modified since the last flush *)
  fs_ronly : Z }.

Definition FS_FLAGS_UPDATED : Z := 0x80.

Definition s8 (x : Z) : Z := (x + 2 ^ 7) mod 2 ^ 8 - 2 ^ 7.

Definition fs_updated (s : fs) : bool := negb (Z.land (fs_flags s) FS_FLAGS_UPDATED =? 0).

Definition set_cstotal (s : fs) (v : csum) : fs :=
  Fs (fs_geo s) v (fs_new_cstotal s) (fs_csp s) (fs_flags s) (fs_fmod s) (fs_ronly s).
Definition set_new_cstotal (s : fs) (v : csum) : fs :=
  Fs (fs_geo s) (fs_cstotal s) v (fs_csp s) (fs_flags s) (fs_fmod s) (fs_ronly s).
Definition set_csp (s : fs) (v : list csum) : fs :=
  Fs (fs_geo s) (fs_cstotal s) (fs_new_cstotal s) v (fs_flags s) (fs_fmod s) (fs_ronly s).
Definition set_fmod (s : fs) (v : Z) : fs :=
  Fs (fs_geo s) (fs_cstotal s) (fs_new_cstotal s) (fs_csp s) (fs_flags s) v (fs_ronly s).
Definition set_ronly (s : fs) (v : Z) : fs :=
  Fs (fs_geo s) (fs_cstotal s) (fs_new_cstotal s) (fs_csp s) (fs_flags s) (fs_fmod s) v.

(** [superblock->fs_fmod++] on a [char]. *)
Definition fmod_inc (s : fs) : fs := set_fmod s (s8 (fs_fmod s + 1)).

(** ** fsmacros.h: addresses *)

Section Macros.
Context (g : geometry).

Definition cgbase (c : Z) : Z := u32 (fs_fpg g * c).
Definition cgstart (c : Z) : Z :=
  u32 (cgbase c + fs_cgoffset g * Z.land c (Z.lnot (fs_cgmask g))).
Definition cgsblock (c : Z) : Z := u32 (cgstart c + fs_sblkno g).
Definition cgtod (c : Z) : Z := u32 (cgstart c + fs_cblkno g).
Definition cgimin (c : Z) : Z := u32 (cgstart c + fs_iblkno g).
Definition cgdmin (c : Z) : Z := u32 (cgstart c + fs_dblkno g).

Definition blkstofrags (b : Z) : Z := u32 (Z.shiftl b (fs_fragshift g)).
Definition fragstoblks (f : Z) : Z := Z.shiftr f (fs_fragshift g).

Definition INOPB : Z := fs_inopb g.
Definition INOPF : Z := Z.shiftr (fs_inopb g) (fs_fragshift g).

Definition itoo (x : Z) : Z := x mod fs_inopb g.
Definition itog (x : Z) : Z := x / fs_ipg g.
Definition itofo (x : Z) : Z := Z.land x (INOPF - 1).
Definition itodo (x : Z) : Z := itoo x / INOPF.
Definition itod (x : Z) : Z :=
  u32 (cgimin (itog x) + blkstofrags ((x mod fs_ipg g) / fs_inopb g)).

Definition dtog (d : Z) : Z := d / fs_fpg g.
Definition dtogd (d : Z) : Z := d mod fs_fpg g.

Definition fragnum (fsb : Z) : Z := Z.land fsb (fs_frag g - 1).
Definition blknum (fsb : Z) : Z := Z.land fsb (Z.lnot (fs_frag g - 1)).

Definition NSPF : Z := fs_nspf g.
Definition cbtocylno (bno : Z) : Z := bno * NSPF / fs_spc g.
Definition cbtorpos (bno : Z) : Z :=
  ((bno * NSPF mod fs_spc g) / fs_nsect g * fs_trackskew g +
   ((bno * NSPF mod fs_spc g) mod fs_nsect g) * fs_interleave g)
  mod fs_nsect g * fs_nrpos g / fs_npsect g.

(** Sectors of 512 bytes in a fragment and in a block, from FSIZE and FBSIZE. *)
Definition NDSPF : Z := Z.shiftr (fs_fsize g) 9.
Definition NDSPB : Z := Z.shiftr (fs_bsize g) 9.

(** What newfs guarantees of the geometry, as far as the address macros and
    the allocator rely on it. *)
Record wf_geometry : Prop := {
  wg_frag : valid_fpb (fs_frag g);
  wg_fragshift : 0 <= fs_fragshift g /\ fs_frag g = 2 ^ fs_fragshift g;
  wg_ncg : 0 < fs_ncg g;
  wg_fpg : 0 < fs_fpg g /\ (fs_frag g | fs_fpg g);
  wg_size : fs_fpg g * fs_ncg g < 2 ^ 31;
  wg_offsets : 0 <= fs_sblkno g /\ 0 <= fs_cblkno g /\ 0 <= fs_iblkno g;
  wg_order : fs_sblkno g < fs_cblkno g < fs_iblkno g;
  wg_inopf : exists k, 0 <= k /\ INOPF = 2 ^ k;
  wg_inopb : fs_inopb g = INOPF * fs_frag g;
  wg_ipg : 0 < fs_ipg g /\ (fs_inopb g | fs_ipg g);
  wg_inodes : fs_iblkno g + fs_ipg g / INOPF <= fs_dblkno g;
  wg_inside : forall c, 0 <= c < fs_ncg g ->
    0 <= fs_cgoffset g * Z.land c (Z.lnot (fs_cgmask g)) /\
    fs_cgoffset g * Z.land c (Z.lnot (fs_cgmask g)) + fs_dblkno g <= fs_fpg g;
  wg_cyl : 0 < fs_spc g /\ 0 < fs_nsect g /\ 0 < fs_npsect g }.

End Macros.

(** ** The macros under a well-formed geometry *)

Section Wf.
Context (g : geometry) (Hg : wf_geometry g).

Lemma frag_pos : 0 < fs_frag g <= 8.
Proof using Hg. apply valid_fpb_pos, Hg. Qed.

Lemma group_bound c : 0 <= c < fs_ncg g -> 0 <= fs_fpg g * c /\ fs_fpg g * c + fs_fpg g < 2 ^ 31.
Proof using Hg. intros Hc. pose proof (wg_size g Hg). destruct (wg_fpg g Hg). split; nia. Qed.

Lemma cgbase_eq c : 0 <= c < fs_ncg g -> cgbase g c = fs_fpg g * c.
Proof using Hg.
  intros Hc. unfold cgbase. apply u32_small. pose proof (group_bound c Hc).
  destruct (wg_fpg g Hg). unfold in_u32. zify_pow. lia.
Qed.

Lemma cgstart_eq c :
  0 <= c < fs_ncg g ->
  cgstart g c = fs_fpg g * c + fs_cgoffset g * Z.land c (Z.lnot (fs_cgmask g)).
Proof using Hg.
  intros Hc. unfold cgstart. rewrite cgbase_eq by done. apply u32_small.
  pose proof (group_bound c Hc). destruct (wg_inside g Hg c Hc).
  pose proof (wg_inodes g Hg). pose proof (wg_offsets g Hg).
  pose proof (wg_order g Hg). destruct (wg_ipg g Hg) as [Hi _].
  destruct (wg_inopf g Hg) as (k & Hk & HINOPF).
  assert (0 <= fs_ipg g / INOPF g) by (apply Z.div_pos; rewrite ?HINOPF; lia).
  unfold in_u32. zify_pow. lia.
Qed.

Lemma dblkno_bounds : 0 <= fs_iblkno g <= fs_dblkno g.
Proof using Hg.
  pose proof (wg_inodes g Hg). pose proof (wg_offsets g Hg). destruct (wg_ipg g Hg) as [Hi _].
  destruct (wg_inopf g Hg) as (k & Hk & HINOPF).
  assert (0 <= fs_ipg g / INOPF g) by (apply Z.div_pos; rewrite ?HINOPF; lia). lia.
Qed.

Lemma cg_area c off :
  0 <= c < fs_ncg g -> 0 <= off <= fs_dblkno g ->
  u32 (cgstart g c + off) = cgstart g c + off /\
  fs_fpg g * c <= cgstart g c + off <= fs_fpg g * c + fs_fpg g.
Proof using Hg.
  intros Hc Hoff. rewrite cgstart_eq by done.
  pose proof (group_bound c Hc). destruct (wg_inside g Hg c Hc).
  split; [apply u32_small; unfold in_u32; zify_pow; lia|lia].
Qed.

Lemma cgtod_eq c : 0 <= c < fs_ncg g -> cgtod g c = cgstart g c + fs_cblkno g.
Proof using Hg.
  intros Hc. unfold cgtod. pose proof dblkno_bounds. pose proof (wg_order g Hg).
  pose proof (wg_offsets g Hg). apply cg_area; [done|lia].
Qed.

Lemma cgimin_eq c : 0 <= c < fs_ncg g -> cgimin g c = cgstart g c + fs_iblkno g.
Proof using Hg.
  intros Hc. unfold cgimin. pose proof dblkno_bounds. apply cg_area; [done|lia].
Qed.

(** A cylinder group block lies in its own group. *)
Lemma cgtod_group c : 0 <= c < fs_ncg g -> dtog g (cgtod g c) = c.
Proof using Hg.
  intros Hc. rewrite cgtod_eq by done. unfold dtog.
  pose proof dblkno_bounds. pose proof (wg_order g Hg). pose proof (wg_offsets g Hg).
  pose proof (wg_fpg g Hg) as [Hf _]. destruct (wg_inside g Hg c Hc). rewrite cgstart_eq by done.
  symmetry. apply (Z.div_unique _ _ _ (fs_cgoffset g * Z.land c (Z.lnot (fs_cgmask g)) + fs_cblkno g)); lia.
Qed.

Lemma cgtod_inj c1 c2 :
  0 <= c1 < fs_ncg g -> 0 <= c2 < fs_ncg g -> cgtod g c1 = cgtod g c2 -> c1 = c2.
Proof using Hg.
  intros H1 H2 H. rewrite <- (cgtod_group c1), <- (cgtod_group c2) by done. by rewrite H.
Qed.

Lemma blknum_eq x : blknum g x = x / fs_frag g * fs_frag g.
Proof using Hg.
  destruct (wg_fragshift g Hg) as [Hk Hf]. unfold blknum. rewrite Hf.
  replace (2 ^ fs_fragshift g - 1) with (Z.ones (fs_fragshift g)) by (rewrite Z.ones_equiv; lia).
  rewrite <- Z.ldiff_land, Z.ldiff_ones_r by done.
  by rewrite Z.shiftl_mul_pow2, Z.shiftr_div_pow2 by done.
Qed.

Lemma fragnum_eq x : fragnum g x = x mod fs_frag g.
Proof using Hg.
  destruct (wg_fragshift g Hg) as [Hk Hf]. unfold fragnum. rewrite Hf.
  replace (2 ^ fs_fragshift g - 1) with (Z.ones (fs_fragshift g)) by (rewrite Z.ones_equiv; lia).
  by rewrite Z.land_ones.
Qed.

Lemma fragstoblks_eq x : fragstoblks g x = x / fs_frag g.
Proof using Hg.
  destruct (wg_fragshift g Hg) as [Hk Hf]. unfold fragstoblks. by rewrite Z.shiftr_div_pow2, Hf.
Qed.

(** Splitting a fragment address into group and offset, and back. *)
Lemma group_split d : d = fs_fpg g * dtog g d + dtogd g d.
Proof using Hg. destruct (wg_fpg g Hg). apply Z.div_mod. lia. Qed.

Lemma group_join c o :
  0 <= c < fs_ncg g -> 0 <= o < fs_fpg g ->
  dtog g (o + cgbase g c) = c /\ dtogd g (o + cgbase g c) = o.
Proof using Hg.
  intros Hc Ho. rewrite cgbase_eq by done. unfold dtog, dtogd. split; symmetry.
  - apply (Z.div_unique _ _ _ o); lia.
  - apply (Z.mod_unique _ _ c); lia.
Qed.

End Wf.

#[export] Hint Resolve frag_pos wg_frag : bffs.
