(* ===== verification/Addresses.v ===== *)
(** Where newfs's geometry puts things: the areas of a cylinder group and
    the place of an inode, by the macros of [fsmacros.h]. *)

From S2P Require Import Prelude Bitmap Superblock.

Section Addresses.
Context (g : geometry) (Hg : wf_geometry g).

Lemma inopf_pos : 0 < INOPF g /\ exists k, 0 <= k /\ INOPF g = 2 ^ k.
Proof using Hg.
  destruct (wg_inopf g Hg) as (k & Hk & E). split; [|by exists k].
  rewrite E. apply Z.pow_pos_nonneg; lia.
Qed.

Lemma itofo_eq x : itofo g x = x mod INOPF g.
Proof using Hg.
  destruct inopf_pos as (_ & k & Hk & E). unfold itofo. rewrite E.
  replace (2 ^ k - 1) with (Z.ones k) by (rewrite Z.ones_equiv; lia). by apply Z.land_ones.
Qed.

Lemma blkstofrags_eq x : in_u32 (x * fs_frag g) -> blkstofrags g x = x * fs_frag g.
Proof using Hg.
  intros H. destruct (wg_fragshift g Hg) as [Hk E]. unfold blkstofrags.
  rewrite Z.shiftl_mul_pow2, <- E by done. by apply u32_small.
Qed.

(** Splitting an inode number: group, fragment of the group, slot. *)
Lemma inode_split i (b := (i mod fs_ipg g) / fs_inopb g) :
  0 <= i ->
  i mod fs_ipg g = (b * fs_frag g + itodo g i) * INOPF g + itofo g i /\
  0 <= b * fs_frag g + itodo g i < fs_ipg g / INOPF g.
Proof using Hg.
  intros Hi. destruct inopf_pos as [HP _]. pose proof (frag_pos g Hg) as HF.
  destruct (wg_ipg g Hg) as [Hp [q Hq]]. pose proof (wg_inopb g Hg) as Hb.
  assert (0 < fs_inopb g) as Hbp by (rewrite Hb; nia).
  assert (i mod fs_ipg g mod fs_inopb g = i mod fs_inopb g) as Hm.
  { apply (Z.mod_unique _ _ (i / fs_ipg g * q + b)).
    - left. apply Z.mod_pos_bound. lia.
    - pose proof (Z.div_mod i (fs_ipg g) ltac:(lia)) as E1.
      pose proof (Z.div_mod (i mod fs_ipg g) (fs_inopb g) ltac:(lia)) as E2. fold b in E2.
      clearbody b. revert E1 E2. generalize (i mod fs_ipg g mod fs_inopb g) (i / fs_ipg g) (i mod fs_ipg g).
      intros x y r E1 E2. rewrite E1, Hq. lia. }
  pose proof (Z.div_mod (i mod fs_ipg g) (fs_inopb g) ltac:(lia)) as E. fold b in E. rewrite Hm in E.
  assert (i mod fs_inopb g mod INOPF g = i mod INOPF g) as Hm2.
  { apply Z.mod_mod_divide. exists (fs_frag g). lia. }
  pose proof (Z.div_mod (i mod fs_inopb g) (INOPF g) ltac:(lia)) as E3. rewrite Hm2 in E3.
  pose proof (Z.mod_pos_bound i (fs_inopb g) Hbp) as Bi. pose proof (Z.mod_pos_bound i (INOPF g) HP) as Bj.
  pose proof (Z.mod_pos_bound i (fs_ipg g) Hp) as Br.
  assert (i mod fs_ipg g = (b * fs_frag g + itodo g i) * INOPF g + itofo g i) as Es.
  { rewrite itofo_eq. unfold itodo, itoo. clear Hm Hm2.
    remember (i mod fs_inopb g) as x eqn:Hx. clear Hx. clearbody b. rewrite E, Hb. lia. }
  split; [done|]. rewrite itofo_eq in Es.
  assert (0 <= b) by (unfold b; apply Z.div_pos; lia).
  assert (0 <= itodo g i) by (unfold itodo, itoo; apply Z.div_pos; lia).
  split; [nia|].
  assert (fs_ipg g = q * fs_frag g * INOPF g) as Em by (rewrite Hq, Hb; ring).
  assert (fs_ipg g / INOPF g = q * fs_frag g) as -> by (rewrite Em; apply Z.div_mul; lia).
  assert (i mod fs_ipg g < q * fs_frag g * INOPF g) as Bm by lia.
  revert Es Bm. generalize (b * fs_frag g + itodo g i) (q * fs_frag g).
  intros x m Es Bm. destruct (Z.ltb_spec x m); [done|].
  assert (m * INOPF g <= x * INOPF g) by (apply Z.mul_le_mono_nonneg_r; lia). lia.
Qed.

(** The superblock copy, the group block, the inode blocks and the data
    of a group follow each other inside the group, for every rotation of the
    group's start by cgoffset and cgmask. *)
Theorem group_layout c :
  0 <= c < fs_ncg g ->
  fs_fpg g * c <= cgsblock g c < cgtod g c /\ cgtod g c < cgimin g c /\
  cgimin g c + fs_ipg g / INOPF g <= cgdmin g c <= fs_fpg g * (c + 1).
Proof using Hg.
  intros Hc. pose proof (wg_order g Hg). pose proof (wg_offsets g Hg).
  pose proof (dblkno_bounds g Hg). pose proof (wg_inodes g Hg).
  destruct inopf_pos as [HP _]. destruct (wg_ipg g Hg) as [Hi _].
  assert (0 <= fs_ipg g / INOPF g) by (apply Z.div_pos; lia).
  destruct (cg_area g Hg c (fs_sblkno g) Hc ltac:(lia)) as [E1 B1].
  destruct (cg_area g Hg c (fs_cblkno g) Hc ltac:(lia)) as [E2 B2].
  destruct (cg_area g Hg c (fs_iblkno g) Hc ltac:(lia)) as [E3 B3].
  destruct (cg_area g Hg c (fs_dblkno g) Hc ltac:(lia)) as [E4 B4].
  unfold cgsblock, cgtod, cgimin, cgdmin. rewrite E1, E2, E3, E4. lia.
Qed.

Lemma ino_place i (frag := itod g i + itodo g i) :
  0 <= i < fs_ipg g * fs_ncg g ->
  cgimin g (itog g i) <= frag < cgdmin g (itog g i) /\ 0 <= itofo g i < INOPF g /\
  i = fs_ipg g * itog g i + (frag - cgimin g (itog g i)) * INOPF g + itofo g i.
Proof using Hg.
  intros Hi. destruct inopf_pos as [HP _]. destruct (wg_ipg g Hg) as [Hp _].
  assert (0 <= itog g i < fs_ncg g) as Hc.
  { unfold itog. split; [apply Z.div_pos; lia|]. apply Z.div_lt_upper_bound; lia. }
  destruct (inode_split i ltac:(lia)) as [Es Hb]. pose proof (frag_pos g Hg) as HF.
  pose proof (wg_offsets g Hg). pose proof (dblkno_bounds g Hg). pose proof (wg_inodes g Hg).
  assert (0 <= itodo g i) as Hd.
  { unfold itodo, itoo. apply Z.div_pos; [|lia]. apply Z.mod_pos_bound.
    rewrite (wg_inopb g Hg). nia. }
  set (b := (i mod fs_ipg g) / fs_inopb g) in *.
  assert (0 <= b) as Hb0.
  { unfold b. apply Z.div_pos; [apply Z.mod_pos_bound; lia|]. rewrite (wg_inopb g Hg). nia. }
  destruct (cg_area g Hg (itog g i) (fs_iblkno g) Hc ltac:(lia)) as [E3 B3].
  destruct (cg_area g Hg (itog g i) (fs_dblkno g) Hc ltac:(lia)) as [E4 B4].
  pose proof (group_bound g Hg _ Hc) as Hgb.
  assert (itod g i = cgimin g (itog g i) + b * fs_frag g) as Ei.
  { unfold itod. fold b. unfold cgimin. rewrite E3.
    rewrite blkstofrags_eq by (unfold in_u32; zify_pow; lia).
    apply u32_small. unfold in_u32. zify_pow. lia. }
  unfold frag. rewrite Ei. unfold cgimin, cgdmin. rewrite E3, E4.
  pose proof (Z.mod_pos_bound i (INOPF g) HP) as Bj. rewrite <- itofo_eq in Bj.
  split; [lia|]. split; [done|].
  pose proof (Z.div_mod i (fs_ipg g) ltac:(lia)) as Ed. fold (itog g i) in Ed. rewrite Es in Ed. lia.
Qed.

Lemma ino_place_bound i :
  0 <= i < fs_ipg g * fs_ncg g -> 0 <= itod g i + itodo g i < fs_fpg g * fs_ncg g.
Proof using Hg.
  intros Hi. destruct (ino_place i Hi) as (H1 & _ & _). destruct (wg_ipg g Hg) as [Hp _].
  assert (0 <= itog g i < fs_ncg g) as Hc.
  { unfold itog. split; [apply Z.div_pos; lia|]. apply Z.div_lt_upper_bound; lia. }
  pose proof (dblkno_bounds g Hg). pose proof (wg_inodes g Hg). pose proof (wg_offsets g Hg).
  destruct inopf_pos as [HP _].
  assert (0 <= fs_ipg g / INOPF g) by (apply Z.div_pos; lia).
  destruct (cg_area g Hg (itog g i) (fs_iblkno g) Hc ltac:(lia)) as [E3 B3].
  destruct (cg_area g Hg (itog g i) (fs_dblkno g) Hc ltac:(lia)) as [E4 B4].
  pose proof (group_bound g Hg _ Hc). unfold cgimin, cgdmin in H1. rewrite E3, E4 in H1. nia.
Qed.

Lemma ino_place_inj i j :
  0 <= i < fs_ipg g * fs_ncg g -> 0 <= j < fs_ipg g * fs_ncg g ->
  itod g i + itodo g i = itod g j + itodo g j -> itofo g i = itofo g j -> i = j.
Proof using Hg.
  intros Hi Hj Ef Es. destruct (ino_place i Hi) as (Pi & _ & Ei). destruct (ino_place j Hj) as (Pj & _ & Ej).
  assert (itog g i = itog g j) as Eg; [|rewrite Ei, Ej, Ef, Es, Eg; done].
  destruct (wg_ipg g Hg) as [Hp _]. destruct inopf_pos as [HP _].
  assert (forall x, 0 <= x < fs_ipg g * fs_ncg g -> 0 <= itog g x < fs_ncg g) as Hc.
  { intros x Hx. unfold itog. split; [apply Z.div_pos; lia|]. apply Z.div_lt_upper_bound; lia. }
  pose proof (dblkno_bounds g Hg). pose proof (wg_inodes g Hg). pose proof (wg_offsets g Hg).
  assert (0 <= fs_ipg g / INOPF g) by (apply Z.div_pos; lia).
  rewrite Ef in Pi. unfold cgimin, cgdmin in Pi, Pj.
  destruct (cg_area g Hg (itog g i) (fs_iblkno g) (Hc i Hi) ltac:(lia)) as [E1 B1].
  destruct (cg_area g Hg (itog g i) (fs_dblkno g) (Hc i Hi) ltac:(lia)) as [E2 B2].
  destruct (cg_area g Hg (itog g j) (fs_iblkno g) (Hc j Hj) ltac:(lia)) as [E3 B3].
  destruct (cg_area g Hg (itog g j) (fs_dblkno g) (Hc j Hj) ltac:(lia)) as [E4 B4].
  rewrite E1, E2 in Pi. rewrite E3, E4 in Pj. destruct (wg_fpg g Hg) as [Hf _].
  destruct (Z.lt_trichotomy (itog g i) (itog g j)) as [Hlt|[|Hlt]]; [exfalso|done|exfalso]; nia.
Qed.

(** An inode lives in the inode area of its own group, and its number
    can be read back from the fragment and the slot in it: two inodes never
    share a place. *)
Theorem inode_place i (frag := itod g i + itodo g i) :
  0 <= i < fs_ipg g * fs_ncg g ->
  (cgimin g (itog g i) <= frag < cgdmin g (itog g i) /\ 0 <= itofo g i < INOPF g /\
   i = fs_ipg g * itog g i + (frag - cgimin g (itog g i)) * INOPF g + itofo g i) /\
  forall j, 0 <= j < fs_ipg g * fs_ncg g -> itod g j + itodo g j = frag -> itofo g j = itofo g i -> j = i.
Proof using Hg.
  intros Hi. split; [by apply ino_place|]. intros j Hj. by apply ino_place_inj.
Qed.

End Addresses.
