(* ===== verification/Cg.v ===== *)
(** The cylinder group and the searches of [alloc.c]: [struct cg] of
    [ufs/fs.h] with its maps, [block_free_find], [block_fragblock_find],
    the summary updates [adjust_blks_free], [adjust_frags_free],
    [adjust_frsum], and [ffs_clusteracct].  The accessors cg_blksfree,
    cg_blktot, cg_blks, cg_clustersfree, cg_clustersum and cg_inosused give
    the place of each table in the block; the tables do not overlap and each
    is one field here. *)

From S2P Require Import Prelude Bitmap Superblock.

Record cg := Cg {
  cg_cgx : Z;
  cg_niblk : Z;              (* inodes in this group *)
  cg_ndblk : Z;              (* fragments in this group *)
  cg_cs : csum;
  cg_irotor : Z;             (* last inode used *)
  cg_frsum : list Z;         (* free runs of each size below a block *)
  cg_blktot : list Z;        (* free blocks of each cylinder *)
  cg_blks : list Z;          (* free blocks of each rotational position *)
  cg_inosused : list Z;      (* inode map, bit set when in use *)
  cg_blksfree : list Z;      (* fragment map, bit set when free *)
  cg_clustersum : list Z;
  cg_clustersfree : list Z;
  cg_nclusterblks : Z }.

Definition set_cgx (c : cg) (v : Z) : cg :=
  Cg v (cg_niblk c) (cg_ndblk c) (cg_cs c) (cg_irotor c) (cg_frsum c) (cg_blktot c)
     (cg_blks c) (cg_inosused c) (cg_blksfree c) (cg_clustersum c) (cg_clustersfree c)
     (cg_nclusterblks c).
Definition set_cs (c : cg) (v : csum) : cg :=
  Cg (cg_cgx c) (cg_niblk c) (cg_ndblk c) v (cg_irotor c) (cg_frsum c) (cg_blktot c)
     (cg_blks c) (cg_inosused c) (cg_blksfree c) (cg_clustersum c) (cg_clustersfree c)
     (cg_nclusterblks c).
Definition set_irotor (c : cg) (v : Z) : cg :=
  Cg (cg_cgx c) (cg_niblk c) (cg_ndblk c) (cg_cs c) v (cg_frsum c) (cg_blktot c)
     (cg_blks c) (cg_inosused c) (cg_blksfree c) (cg_clustersum c) (cg_clustersfree c)
     (cg_nclusterblks c).
Definition set_frsum (c : cg) (v : list Z) : cg :=
  Cg (cg_cgx c) (cg_niblk c) (cg_ndblk c) (cg_cs c) (cg_irotor c) v (cg_blktot c)
     (cg_blks c) (cg_inosused c) (cg_blksfree c) (cg_clustersum c) (cg_clustersfree c)
     (cg_nclusterblks c).
Definition set_blktot (c : cg) (v : list Z) : cg :=
  Cg (cg_cgx c) (cg_niblk c) (cg_ndblk c) (cg_cs c) (cg_irotor c) (cg_frsum c) v
     (cg_blks c) (cg_inosused c) (cg_blksfree c) (cg_clustersum c) (cg_clustersfree c)
     (cg_nclusterblks c).
Definition set_blks (c : cg) (v : list Z) : cg :=
  Cg (cg_cgx c) (cg_niblk c) (cg_ndblk c) (cg_cs c) (cg_irotor c) (cg_frsum c) (cg_blktot c)
     v (cg_inosused c) (cg_blksfree c) (cg_clustersum c) (cg_clustersfree c)
     (cg_nclusterblks c).
Definition set_inosused (c : cg) (v : list Z) : cg :=
  Cg (cg_cgx c) (cg_niblk c) (cg_ndblk c) (cg_cs c) (cg_irotor c) (cg_frsum c) (cg_blktot c)
     (cg_blks c) v (cg_blksfree c) (cg_clustersum c) (cg_clustersfree c)
     (cg_nclusterblks c).
Definition set_blksfree (c : cg) (v : list Z) : cg :=
  Cg (cg_cgx c) (cg_niblk c) (cg_ndblk c) (cg_cs c) (cg_irotor c) (cg_frsum c) (cg_blktot c)
     (cg_blks c) (cg_inosused c) v (cg_clustersum c) (cg_clustersfree c)
     (cg_nclusterblks c).
Definition set_clusters (c : cg) (sum map : list Z) : cg :=
  Cg (cg_cgx c) (cg_niblk c) (cg_ndblk c) (cg_cs c) (cg_irotor c) (cg_frsum c) (cg_blktot c)
     (cg_blks c) (cg_inosused c) (cg_blksfree c) sum map
     (cg_nclusterblks c).

(** ** block_free_find *)

(** The loops of cases 1 and 2: [index] visits every block, and the search
    stops at the first free block farther than the best one so far. *)
Fixpoint near_loop (avail : Z -> bool) (preferred : Z) (l : list Z)
    (fragpos mindist : Z) : Z :=
  match l with
  | [] => fragpos
  | index :: l' =>
      if avail index then
        let absdist := Z.abs (preferred - index) in
        if absdist <=? mindist then near_loop avail preferred l' index absdist
        else fragpos
      else near_loop avail preferred l' fragpos mindist
  end.

(** Case 4: two blocks of four fragments in each byte. *)
Fixpoint near_loop4 (map : list Z) (preferred : Z) (l : list Z)
    (fragpos mindist : Z) : Z :=
  match l with
  | [] => fragpos
  | index :: l' =>
      let b := zget map (Z.shiftr index 3) in
      let high (fragpos mindist : Z) : Z :=
        if Z.land b 0xf0 =? 0xf0 then
          let absdist := Z.abs (preferred - (index + 4)) in
          if absdist <=? mindist then near_loop4 map preferred l' (index + 4) absdist
          else fragpos
        else near_loop4 map preferred l' fragpos mindist in
      if Z.land b 0x0f =? 0x0f then
        let absdist := Z.abs (preferred - index) in
        if absdist <=? mindist then high index absdist else fragpos
      else high fragpos mindist
  end.

Definition block_free_find (g : geometry) (mycg : cg) (preferred : Z) : Z :=
  let FPB := fs_frag g in
  let ndblk := cg_ndblk mycg in
  let map := cg_blksfree mycg in
  let preferred := blknum g preferred in
  let preferred := if ndblk <? preferred then 0 else preferred in
  if FPB =? 1 then
    near_loop (fun index => negb (bit_val map index =? 0)) preferred
      (upto 0 ndblk 1) (-1) ndblk
  else if FPB =? 2 then
    near_loop (fun index => negb (bit_val map (Z.land index (Z.lnot 1)) =? 0) &&
                            negb (bit_val map (Z.lor index 1) =? 0)) preferred
      (upto 0 ndblk 2) (-1) ndblk
  else if FPB =? 4 then
    near_loop4 map preferred (upto 0 ndblk 8) (-1) ndblk
  else if FPB =? 8 then
    let preferred := Z.shiftr preferred 3 in
    let maxfrag := Z.shiftr ndblk 3 in
    let full (k : Z) : bool := zget map k =? 0xff in
    match find_first full (downto preferred 0 1),
          find_first full (upto (preferred + 1) maxfrag 1) with
    | None, None => -1
    | None, Some pindex => Z.shiftl pindex 3
    | Some nindex, None => Z.shiftl nindex 3
    | Some nindex, Some pindex =>
        let pdist := pindex - preferred in
        let ndist := preferred - nindex in
        if pdist <? ndist then Z.shiftl pindex 3 else Z.shiftl nindex 3
    end
  else -1.

(** ** block_fragblock_find *)

Definition OPT_TIME : Z := 0.
Definition OPT_SPACE : Z := 1.

(** One block, optimised for time: the first run of [min_frags]. *)
Fixpoint time_scan (map : list Z) (index min_frags : Z) (l : list Z) (freehere : Z)
    : option Z :=
  match l with
  | [] => None
  | index2 :: l' =>
      if negb (bit_val map (index + index2) =? 0) then
        let freehere := freehere + 1 in
        if freehere =? min_frags then Some (index + (index2 - freehere + 1))
        else time_scan map index min_frags l' freehere
      else time_scan map index min_frags l' 0
  end.

Fixpoint time_blocks (FPB : Z) (map : list Z) (min_frags : Z) (l : list Z) : option Z :=
  match l with
  | [] => None
  | index :: l' =>
      match time_scan map index min_frags (upto 0 FPB 1) 0 with
      | Some r => Some r
      | None => time_blocks FPB map min_frags l'
      end
  end.

(** MIN_CHECK: an exact fit returns at once, a better fit is remembered. *)
Definition min_check (min_frags index index2 freehere : Z) (best : Z * Z)
    : Z + (Z * Z) :=
  if freehere =? min_frags then inl (index + index2 - freehere)
  else if (min_frags <=? freehere) && (freehere <? best.1)
  then inr (freehere, index + index2 - freehere)
  else inr best.

(** One block, optimised for space; [inl] is a return from the function. *)
Fixpoint space_scan (FPB : Z) (map : list Z) (index min_frags : Z) (l : list Z)
    (freehere : Z) (best : Z * Z) : Z + (Z * Z) :=
  match l with
  | [] => min_check min_frags index FPB freehere best
  | index2 :: l' =>
      if negb (bit_val map (index + index2) =? 0) then
        space_scan FPB map index min_frags l' (freehere + 1) best
      else
        match min_check min_frags index index2 freehere best with
        | inl r => inl r
        | inr best => space_scan FPB map index min_frags l' 0 best
        end
  end.

Fixpoint space_blocks (FPB : Z) (map : list Z) (min_frags : Z) (l : list Z)
    (best : Z * Z) : Z + (Z * Z) :=
  match l with
  | [] => inr best
  | index :: l' =>
      match space_scan FPB map index min_frags (upto 0 FPB 1) 0 best with
      | inl r => inl r
      | inr best => space_blocks FPB map min_frags l' best
      end
  end.

(** The smallest run size from [min_frags] up that the summary lists. *)
Definition frsum_size (frsum : list Z) (min_frags FPB : Z) : Z :=
  default FPB (find_first (fun k => negb (zget frsum k =? 0)) (upto min_frags FPB 1)).

Definition block_fragblock_find (optimization : Z) (g : geometry) (mycg : cg)
    (preferred min_frags : Z) : Z :=
  let FPB := fs_frag g in
  let ndblk := cg_ndblk mycg in
  let map := cg_blksfree mycg in
  let preferred := blknum g preferred in
  let preferred := if ndblk <? preferred then 0 else preferred in
  if (min_frags <? 1) || (FPB <? min_frags) then -1
  else if optimization =? OPT_TIME then
    match time_blocks FPB map min_frags (upto preferred ndblk FPB) with
    | Some r => r
    | None =>
        default (-1)
          (time_blocks FPB map min_frags (downto (preferred - FPB) 0 FPB))
    end
  else
    let min_frags := frsum_size (cg_frsum mycg) min_frags FPB in
    match space_blocks FPB map min_frags (upto preferred ndblk FPB) (FPB, -1) with
    | inl r => r
    | inr best =>
        match space_blocks FPB map min_frags (downto (preferred - FPB) 0 FPB) best with
        | inl r => r
        | inr best => best.2
        end
    end.

(** ** Summary accounting *)

Definition adjust_blks_free (s : fs) (mycg : cg) (cgx block adjust : Z) : fs * cg :=
  let cylinder := cbtocylno s block in
  let s := set_csp s (zset (fs_csp s) cgx (csum_add_nbfree (zget (fs_csp s) cgx) adjust)) in
  let pos := cylinder * fs_nrpos s + cbtorpos s block in
  let mycg := set_blks mycg
    (zset (cg_blks mycg) pos (s16 (zget (cg_blks mycg) pos + adjust))) in
  let mycg := set_blktot mycg
    (zset (cg_blktot mycg) cylinder (s32 (zget (cg_blktot mycg) cylinder + adjust))) in
  let mycg := set_cs mycg (csum_add_nbfree (cg_cs mycg) adjust) in
  let s := set_cstotal s (csum_add_nbfree (fs_cstotal s) adjust) in
  let s := if fs_updated s
           then set_new_cstotal s (csum_add_nbfree (fs_new_cstotal s) adjust) else s in
  (fmod_inc s, mycg).

Definition adjust_frags_free (s : fs) (mycg : cg) (cgx adjust : Z) : fs * cg :=
  let s := set_csp s (zset (fs_csp s) cgx (csum_add_nffree (zget (fs_csp s) cgx) adjust)) in
  let mycg := set_cs mycg (csum_add_nffree (cg_cs mycg) adjust) in
  let s := set_cstotal s (csum_add_nffree (fs_cstotal s) adjust) in
  let s := if fs_updated s
           then set_new_cstotal s (csum_add_nffree (fs_new_cstotal s) adjust) else s in
  (fmod_inc s, mycg).

Definition adjust_frsum (mycg : cg) (count adjust : Z) : cg :=
  if count =? 0 then mycg
  else set_frsum mycg
         (zset (cg_frsum mycg) count (s32 (zget (cg_frsum mycg) count + adjust))).

(** ** ffs_clusteracct *)

Definition NBBY : Z := 8.

(** The forward loop; [mapp] is the index of the next byte to load. *)
Fixpoint cluster_forw (freemapp : list Z) (l : list Z) (mapp map bit : Z) : Z :=
  match l with
  | [] => 0
  | i :: l' =>
      if Z.land map bit =? 0 then 0
      else if negb (Z.land i (NBBY - 1) =? NBBY - 1)
      then 1 + cluster_forw freemapp l' mapp map (Z.shiftl bit 1)
      else 1 + cluster_forw freemapp l' (mapp + 1) (zget freemapp mapp) 1
  end.

Fixpoint cluster_back (freemapp : list Z) (l : list Z) (mapp map bit : Z) : Z :=
  match l with
  | [] => 0
  | i :: l' =>
      if Z.land map bit =? 0 then 0
      else if negb (Z.land i (NBBY - 1) =? 0)
      then 1 + cluster_back freemapp l' mapp map (Z.shiftr bit 1)
      else 1 + cluster_back freemapp l' (mapp - 1) (zget freemapp mapp)
                 (Z.shiftl 1 (NBBY - 1))
  end.

Definition ffs_clusteracct (g : geometry) (mycg : cg) (block adjust : Z) : cg :=
  let contigsumsize := fs_contigsumsize g in
  if contigsumsize <=? 0 then mycg
  else
    let blkno := fragstoblks g block in
    let freemapp := cg_clustersfree mycg in
    let sump := cg_clustersum mycg in
    let freemapp := if 0 <? adjust then bit_set freemapp blkno
                    else bit_clr freemapp blkno in
    let start := blkno + 1 in
    let end_ := start + contigsumsize in
    let end_ := if cg_nclusterblks mycg <=? end_ then cg_nclusterblks mycg else end_ in
    let forw := cluster_forw freemapp (upto start end_ 1)
                  (Z.quot start NBBY + 1) (zget freemapp (Z.quot start NBBY))
                  (Z.shiftl 1 (Z.rem start NBBY)) in
    let start := blkno - 1 in
    let end_ := start - contigsumsize in
    let end_ := if end_ <? 0 then -1 else end_ in
    let back := cluster_back freemapp (downto start (end_ + 1) 1)
                  (Z.quot start NBBY - 1) (zget freemapp (Z.quot start NBBY))
                  (Z.shiftl 1 (Z.rem start NBBY)) in
    let i := back + forw + 1 in
    let i := if contigsumsize <? i then contigsumsize else i in
    let sump := zset sump i (s32 (zget sump i + adjust)) in
    let sump := if 0 <? back then zset sump back (s32 (zget sump back - adjust)) else sump in
    let sump := if 0 <? forw then zset sump forw (s32 (zget sump forw - adjust)) else sump in
    set_clusters mycg sump freemapp.
