(* ===== verification/CgSearch.v ===== *)
(** Correctness of the allocator's searches over one cylinder group:
    [block_free_find] returns the free block nearest to the preferred one,
    in each of its four loops, and [block_fragblock_find] returns a run of
    free fragments inside one block, following the stated policy. *)

From S2P Require Import Prelude Bitmap Superblock Cg.

(** The fragment map of a group: bytes, long enough, nothing free past the
    end of the group. *)
Record wf_map (c : cg) : Prop := {
  wm_bytes : Forall byte (cg_blksfree c);
  wm_len : 0 <= cg_ndblk c <= 8 * zlen (cg_blksfree c);
  wm_tail : forall i, cg_ndblk c <= i -> is_free (cg_blksfree c) i = false }.

(** Block [b] (a fragment index, block aligned) is entirely free. *)
Definition free_block (FPB : Z) (c : cg) (b : Z) : Prop :=
  0 <= b < cg_ndblk c /\ b mod FPB = 0 /\
  forall i, i / FPB = b / FPB -> is_free (cg_blksfree c) i = true.

Lemma free_block_avail FPB c b :
  valid_fpb FPB -> wf_map c ->
  free_block FPB c b <->
  0 <= b < cg_ndblk c /\ b mod FPB = 0 /\ block_avail FPB (cg_blksfree c) b = true.
Proof.
  intros HF Hw. unfold free_block. rewrite (block_avail_free FPB _ b HF); [done|apply Hw].
Qed.

(** A whole free block never reaches past the end of the group. *)
Lemma free_block_inside FPB c b i :
  valid_fpb FPB -> wf_map c -> free_block FPB c b -> i / FPB = b / FPB -> i < cg_ndblk c.
Proof.
  intros HF Hw (_ & _ & Hfree) Hi. destruct (Z.ltb_spec i (cg_ndblk c)); [done|].
  pose proof (wm_tail c Hw i ltac:(lia)) as Ht. by rewrite Hfree in Ht.
Qed.

(** ** The scan of cases 1, 2 and 4 *)

Definition best_so_far (avail : Z -> bool) (p : Z) (l : list Z) (fragpos mindist : Z) : Prop :=
  (fragpos = -1 /\ forall i, i ∈ l -> avail i = true -> Z.abs (p - i) <= mindist) \/
  (0 <= fragpos /\ avail fragpos = true /\ mindist = Z.abs (p - fragpos) /\
   forall i, i ∈ l -> fragpos < i).

Lemma near_loop_spec avail p l fragpos mindist :
  StronglySorted Z.lt l -> (forall i, i ∈ l -> 0 <= i) ->
  best_so_far avail p l fragpos mindist ->
  let r := near_loop avail p l fragpos mindist in
  (r = -1 /\ fragpos = -1 /\ forall i, i ∈ l -> avail i = false) \/
  ((r = fragpos \/ r ∈ l) /\ 0 <= r /\ avail r = true /\
   (0 <= fragpos -> Z.abs (p - r) <= Z.abs (p - fragpos)) /\
   forall i, i ∈ l -> avail i = true -> Z.abs (p - r) <= Z.abs (p - i)).
Proof.
  intros Hs Hpos. revert fragpos mindist.
  induction Hs as [|x l Hs IH Hx]; intros fragpos mindist Hb; simpl.
  - destruct Hb as [[-> _]|(H0 & Ha & _ & _)]; [left|right].
    + repeat split; try done. intros i Hi. by apply not_elem_of_nil in Hi.
    + repeat split; auto; try lia. intros i Hi. by apply not_elem_of_nil in Hi.
  - rewrite Forall_forall in Hx.
    specialize (IH ltac:(intros i Hi; apply Hpos; by right)).
    assert (0 <= x) as Hx0 by (apply Hpos; by left).
    destruct (avail x) eqn:Ea.
    + destruct (Z.leb_spec (Z.abs (p - x)) mindist) as [Hle|Hgt].
      * destruct (IH x (Z.abs (p - x))) as [(_ & -> & _)|(Hin & Hr0 & Har & Hrx & Hmin)]; [|lia|].
        { right. repeat split; try done. }
        right. split; [|split; [done|split; [done|split]]].
        -- right. destruct Hin as [->|Hin]; [by left|by right].
        -- intros Hf. destruct Hb as [[-> _]|(_ & _ & -> & _)]; lia.
        -- intros i Hi Hai. apply elem_of_cons in Hi as [->|Hi]; [by apply Hrx|by apply Hmin].
      * destruct Hb as [[-> Hd]|(Hf0 & Haf & -> & Hlt)].
        { specialize (Hd x ltac:(by left) Ea). lia. }
        right. split; [by left|split; [done|split; [done|split; [lia|]]]].
        intros i Hi Hai. pose proof (Hlt x ltac:(by left)).
        apply elem_of_cons in Hi as [->|Hi]; [lia|]. specialize (Hx i Hi). lia.
    + destruct (IH fragpos mindist) as [(Hr & Hf & Hn)|(Hin & Hr0 & Har & Hrx & Hmin)].
      * destruct Hb as [[-> Hd]|(Hf0 & Haf & -> & Hlt)]; [left|right].
        -- split; [done|]. intros i Hi. apply Hd. by right.
        -- repeat split; try done. intros i Hi. apply Hlt. by right.
      * left. repeat split; try done. intros i Hi.
        apply elem_of_cons in Hi as [->|Hi]; [done|by apply Hn].
      * right. split; [|split; [done|split; [done|split; [done|]]]].
        -- destruct Hin as [->|Hin]; [by left|right; by right].
        -- intros i Hi Hai. apply elem_of_cons in Hi as [->|Hi]; [by rewrite Ea in Hai|by apply Hmin].
Qed.

(** Case 4 is the same scan over both halves of each byte. *)
Lemma near_loop4_eq map p l fragpos mindist :
  Forall (fun i => i mod 8 = 0) l ->
  near_loop4 map p l fragpos mindist =
  near_loop (block_avail 4 map) p (l ≫= fun i => [i; i + 4]) fragpos mindist.
Proof.
  intros Hl. revert fragpos mindist. induction Hl as [|x l Hx Hl IH]; intros; [done|].
  cbn [mbind list_bind near_loop4 app near_loop].
  assert (block_avail 4 map x = (Z.land (zget map (Z.shiftr x 3)) 0x0f =? 0x0f)) as ->.
  { unfold block_avail. cbn [Z.eqb Pos.eqb]. rewrite (land_low3 x 4), Hx by lia. done. }
  assert (block_avail 4 map (x + 4) = (Z.land (zget map (Z.shiftr x 3)) 0xf0 =? 0xf0)) as ->.
  { unfold block_avail. cbn [Z.eqb Pos.eqb]. rewrite (land_low3 (x + 4) 4) by lia.
    replace ((x + 4) mod 8) with 4 by dlia. rewrite !shiftr3.
    by replace ((x + 4) / 8) with (x / 8) by dlia. }
  repeat case_match; auto.
Qed.

Lemma upto_sorted lo hi st : 0 < st -> StronglySorted Z.lt (upto lo hi st).
Proof.
  intros Hst. remember (Z.to_nat (hi - lo)) as n eqn:Hn. revert lo Hn.
  induction n as [n IH] using lt_wf_ind. intros lo ->.
  destruct (Z.ltb_spec lo hi).
  - rewrite upto_cons by lia. constructor; [apply (IH (Z.to_nat (hi - (lo + st)))); lia|].
    apply Forall_forall. intros x (k & Hk & -> & _)%elem_of_upto; lia.
  - rewrite upto_nil by lia. constructor.
Qed.

Lemma upto_pairs lo hi :
  (upto lo hi 8 ≫= fun i => [i; i + 4]) = upto lo (lo + 8 * ((hi - lo + 7) / 8)) 4 \/ hi <= lo.
Proof.
  destruct (Z.leb_spec hi lo) as [|Hlt]; [by right|left].
  remember (Z.to_nat (hi - lo)) as n eqn:Hn. revert lo Hlt Hn.
  induction n as [n IH] using lt_wf_ind. intros lo Hlt ->.
  set (m := (hi - lo + 7) / 8). assert (1 <= m) by (apply Z.div_le_lower_bound; lia).
  rewrite (upto_cons lo hi) by lia. cbn [mbind list_bind app].
  rewrite (upto_cons lo) by lia. rewrite (upto_cons (lo + 4)) by lia. do 2 f_equal.
  replace (lo + 4 + 4) with (lo + 8) by lia.
  destruct (Z.ltb_spec (lo + 8) hi).
  - rewrite (IH (Z.to_nat (hi - (lo + 8)))) by lia. f_equal.
    replace m with ((hi - (lo + 8) + 7) / 8 + 1); [lia|].
    unfold m. replace (hi - lo + 7) with (hi - (lo + 8) + 7 + 1 * 8) by lia.
    by rewrite Z.div_add.
  - rewrite (upto_nil (lo + 8) hi) by lia. cbn. rewrite upto_nil; [done|lia|].
    assert (m < 2); [|lia]. apply Z.div_lt_upper_bound; lia.
Qed.

(** ** Directed searches of case 8 *)

Lemma find_first_upto p lo hi x :
  find_first p (upto lo hi 1) = Some x <->
  (lo <= x < hi /\ p x = true /\ forall y, lo <= y < x -> p y = false).
Proof.
  remember (Z.to_nat (hi - lo)) as n eqn:Hn. revert lo Hn.
  induction n as [|n IH]; intros lo Hn.
  - rewrite upto_nil by lia. simpl. split; [done|lia].
  - rewrite upto_cons by lia. simpl. destruct (p lo) eqn:E.
    + split.
      * intros [= <-]. repeat split; try lia. done.
      * intros (Hx & Hp & Hlt). f_equal. destruct (Z.eqb_spec lo x); [done|].
        by rewrite Hlt in E by lia.
    + rewrite IH by lia. split; intros (Hx & Hp & Hlt).
      * repeat split; try lia; try done. intros y Hy.
        destruct (Z.eqb_spec y lo) as [->|]; [done|apply Hlt; lia].
      * repeat split; try done; try lia; [|intros y Hy; apply Hlt; lia].
        destruct (Z.eqb_spec lo x) as [->|]; [by rewrite E in Hp|lia].
Qed.

Lemma find_first_downto p hi lo x :
  find_first p (downto hi lo 1) = Some x <->
  (lo <= x <= hi /\ p x = true /\ forall y, x < y <= hi -> p y = false).
Proof.
  remember (Z.to_nat (hi - lo + 1)) as n eqn:Hn. revert hi Hn.
  induction n as [|n IH]; intros hi Hn.
  - rewrite downto_nil by lia. simpl. split; [done|lia].
  - rewrite downto_cons by lia. simpl. destruct (p hi) eqn:E.
    + split.
      * intros [= <-]. repeat split; try lia. done.
      * intros (Hx & Hp & Hlt). f_equal. destruct (Z.eqb_spec hi x); [done|].
        by rewrite Hlt in E by lia.
    + rewrite IH by lia. split; intros (Hx & Hp & Hlt).
      * repeat split; try lia; try done. intros y Hy.
        destruct (Z.eqb_spec y hi) as [->|]; [done|apply Hlt; lia].
      * repeat split; try done; try lia; [|intros y Hy; apply Hlt; lia].
        destruct (Z.eqb_spec hi x) as [->|]; [by rewrite E in Hp|lia].
Qed.

Lemma find_first_upto_None p lo hi :
  find_first p (upto lo hi 1) = None <-> forall y, lo <= y < hi -> p y = false.
Proof.
  rewrite find_first_None. split; intros H y Hy; apply H.
  - apply elem_of_upto; [lia|]. exists (y - lo). lia.
  - apply elem_of_upto in Hy as (k & ? & -> & ?); lia.
Qed.

Lemma find_first_downto_None p hi lo :
  find_first p (downto hi lo 1) = None <-> forall y, lo <= y <= hi -> p y = false.
Proof.
  rewrite find_first_None. split; intros H y Hy; apply H.
  - apply elem_of_downto; [lia|]. exists (hi - y). lia.
  - apply elem_of_downto in Hy as (k & ? & -> & ?); lia.
Qed.

(** ** block_free_find returns the nearest free block *)

(** The preferred position after rounding to a block and range check. *)
Definition near_pref (g : geometry) (c : cg) (preferred : Z) : Z :=
  if cg_ndblk c <? blknum g preferred then 0 else blknum g preferred.

Definition nearest (FPB : Z) (c : cg) (q r : Z) : Prop :=
  (r = -1 /\ forall b, ~ free_block FPB c b) \/
  (free_block FPB c r /\ forall b, free_block FPB c b -> Z.abs (q - r) <= Z.abs (q - b)).

Lemma near_pref_bounds g c p :
  wf_geometry g -> 0 <= p -> 0 <= cg_ndblk c ->
  0 <= near_pref g c p <= cg_ndblk c /\ near_pref g c p mod fs_frag g = 0.
Proof.
  intros Hg Hp Hn. pose proof (frag_pos g Hg). unfold near_pref. rewrite blknum_eq by done.
  assert (0 <= p / fs_frag g) by (apply Z.div_pos; lia).
  destruct (Z.ltb_spec (cg_ndblk c) (p / fs_frag g * fs_frag g)).
  - split; [lia|apply Z.mod_0_l; lia].
  - split; [nia|apply Z.mod_mul; lia].
Qed.

Lemma near_loop_nearest FPB c l q :
  valid_fpb FPB -> wf_map c -> 0 <= q <= cg_ndblk c ->
  StronglySorted Z.lt l ->
  (forall i, i ∈ l -> 0 <= i /\ i mod FPB = 0) ->
  (forall b, free_block FPB c b -> b ∈ l) ->
  nearest FPB c q (near_loop (block_avail FPB (cg_blksfree c)) q l (-1) (cg_ndblk c)).
Proof.
  intros HF Hw Hq Hs Hl Hall.
  assert (forall i, i ∈ l -> block_avail FPB (cg_blksfree c) i = true -> free_block FPB c i) as Hfree.
  { intros i Hi Hai. destruct (Hl i Hi) as [Hi0 Him].
    destruct (Z.ltb_spec i (cg_ndblk c)); [by apply free_block_avail; auto|].
    rewrite block_avail_free in Hai by (done || apply Hw).
    specialize (Hai i eq_refl). by rewrite (wm_tail c Hw i) in Hai by lia. }
  destruct (near_loop_spec (block_avail FPB (cg_blksfree c)) q l (-1) (cg_ndblk c) Hs)
    as [(Hr & _ & Hn)|(Hin & Hr0 & Har & _ & Hmin)].
  - intros i Hi. by apply Hl.
  - left. split; [done|]. intros i Hi Hai. destruct (Hfree i Hi Hai) as [Hb _]. lia.
  - left. split; [done|]. intros b Hb. pose proof (Hall b Hb) as Hbl.
    apply Hn in Hbl. apply free_block_avail in Hb; [|done..]. destruct Hb as (_ & _ & Hb). congruence.
  - right. destruct Hin as [Heq|Hin]; [lia|]. split; [by apply Hfree|].
    intros b Hb. apply Hmin; [by apply Hall|]. apply free_block_avail in Hb; [apply Hb|done..].
Qed.

Lemma upto_all FPB nd hi i :
  0 < FPB -> nd <= hi -> 0 <= i < nd -> i mod FPB = 0 -> i ∈ upto 0 hi FPB.
Proof.
  intros HF Hhi Hi Hm. apply elem_of_upto; [done|]. exists (i / FPB).
  split; [apply Z.div_pos; lia|]. split; [|lia]. pose proof (Z.div_mod i FPB). lia.
Qed.

Lemma upto_aligned FPB hi i : 0 < FPB -> i ∈ upto 0 hi FPB -> 0 <= i /\ i mod FPB = 0.
Proof.
  intros HF (k & Hk & -> & _)%elem_of_upto; [|done]. split; [lia|].
  rewrite Z.add_0_l, Z.mul_comm. apply Z.mod_mul. lia.
Qed.

(** Case 8, through the nearest full byte on each side. *)
Lemma full_byte_block c k :
  wf_map c -> (zget (cg_blksfree c) k =? 0xff) = true -> 0 <= k -> free_block 8 c (8 * k).
Proof.
  intros Hw Hk Hk0.
  assert (valid_fpb 8) as HF by (unfold valid_fpb; lia).
  assert (block_avail 8 (cg_blksfree c) (8 * k) = true) as Ha.
  { unfold block_avail. cbn [Z.eqb Pos.eqb]. rewrite shiftr3, Z.mul_comm, Z.div_mul by lia. done. }
  apply free_block_avail; [done..|]. split; [|split; [rewrite Z.mul_comm; apply Z.mod_mul; lia|done]].
  rewrite block_avail_free in Ha by (done || apply Hw). specialize (Ha (8 * k) eq_refl).
  destruct (Z.ltb_spec (8 * k) (cg_ndblk c)); [lia|]. by rewrite (wm_tail c Hw) in Ha by lia.
Qed.

Lemma free_block_byte c b :
  wf_map c -> free_block 8 c b ->
  (zget (cg_blksfree c) (b / 8) =? 0xff) = true /\ b = 8 * (b / 8) /\ 0 <= b / 8 /\
  b / 8 < Z.shiftr (cg_ndblk c) 3.
Proof.
  intros Hw Hb. assert (valid_fpb 8) as HF by (unfold valid_fpb; lia).
  assert (b / 8 * 8 + 7 < cg_ndblk c) as Hlast.
  { apply (free_block_inside 8 c b); [done..|]. dlia. }
  apply free_block_avail in Hb as (Hb0 & Hbm & Hba); [|done..].
  unfold block_avail in Hba. cbn [Z.eqb Pos.eqb] in Hba. rewrite shiftr3 in Hba.
  rewrite shiftr3. split; [done|]. dlia.
Qed.

Lemma shiftl3 k : Z.shiftl k 3 = 8 * k.
Proof. rewrite Z.shiftl_mul_pow2 by lia. lia. Qed.

Lemma block_free_find8 c q :
  wf_map c -> 0 <= q -> q mod 8 = 0 ->
  let full (k : Z) : bool := zget (cg_blksfree c) k =? 0xff in
  let p := Z.shiftr q 3 in
  nearest 8 c q
    (match find_first full (downto p 0 1),
           find_first full (upto (p + 1) (Z.shiftr (cg_ndblk c) 3) 1) with
     | None, None => -1
     | None, Some pindex => Z.shiftl pindex 3
     | Some nindex, None => Z.shiftl nindex 3
     | Some nindex, Some pindex =>
         if pindex - p <? p - nindex then Z.shiftl pindex 3 else Z.shiftl nindex 3
     end).
Proof.
  intros Hw Hq Hqm full p.
  assert (q = 8 * p) as Hqp by (unfold p; rewrite shiftr3; dlia).
  assert (forall b, free_block 8 c b -> full (b / 8) = true /\ b = 8 * (b / 8) /\ 0 <= b / 8 < Z.shiftr (cg_ndblk c) 3) as Hfb.
  { intros b Hb. destruct (free_block_byte c b Hw Hb) as (? & ? & ? & ?). auto. }
  destruct (find_first full (downto p 0 1)) as [n|] eqn:En;
    destruct (find_first full (upto (p + 1) (Z.shiftr (cg_ndblk c) 3) 1)) as [m|] eqn:Em.
  - apply find_first_downto in En as (Hn & Hfn & Hbn).
    apply find_first_upto in Em as (Hm & Hfm & Hbm).
    right. destruct (Z.ltb_spec (m - p) (p - n)); rewrite shiftl3;
      (split; [apply full_byte_block; auto; lia|]); intros b Hb;
      destruct (Hfb b Hb) as (Hf & Heq & Hr);
      (assert (b / 8 <= n \/ m <= b / 8); [|lia]);
      destruct (Z.leb_spec (b / 8) n); [by left| |by left|];
      destruct (Z.leb_spec m (b / 8)); [by right| |by right|]; exfalso;
      destruct (Z.leb_spec (b / 8) p);
      [rewrite Hbn in Hf by lia; done|rewrite Hbm in Hf by lia; done
      |rewrite Hbn in Hf by lia; done|rewrite Hbm in Hf by lia; done].
  - apply find_first_downto in En as (Hn & Hfn & Hbn).
    rewrite find_first_upto_None in Em. right. rewrite shiftl3.
    split; [apply full_byte_block; auto; lia|]. intros b Hb.
    destruct (Hfb b Hb) as (Hf & Heq & Hr).
    assert (b / 8 <= n); [|lia]. destruct (Z.leb_spec (b / 8) n); [done|exfalso].
    destruct (Z.leb_spec (b / 8) p); [rewrite Hbn in Hf by lia|rewrite Em in Hf by lia]; done.
  - rewrite find_first_downto_None in En.
    apply find_first_upto in Em as (Hm & Hfm & Hbm). right. rewrite shiftl3.
    assert (0 <= p) by (unfold p; rewrite shiftr3; apply Z.div_pos; lia).
    split; [apply full_byte_block; auto; lia|]. intros b Hb.
    destruct (Hfb b Hb) as (Hf & Heq & Hr).
    assert (m <= b / 8); [|lia]. destruct (Z.leb_spec m (b / 8)); [done|exfalso].
    destruct (Z.leb_spec (b / 8) p); [rewrite En in Hf by lia|rewrite Hbm in Hf by lia]; done.
  - rewrite find_first_downto_None in En. rewrite find_first_upto_None in Em.
    left. split; [done|]. intros b Hb. destruct (Hfb b Hb) as (Hf & Heq & Hr).
    destruct (Z.leb_spec (b / 8) p); [rewrite En in Hf by lia|rewrite Em in Hf by lia]; done.
Qed.

Lemma block_free_find_nearest g c p :
  wf_geometry g -> wf_map c -> 0 <= p ->
  nearest (fs_frag g) c (near_pref g c p) (block_free_find g c p).
Proof.
  intros Hg Hw Hp. pose proof (wm_len c Hw).
  destruct (near_pref_bounds g c p Hg Hp ltac:(lia)) as [Hq Hqm].
  pose proof (wg_frag g Hg) as HF. unfold block_free_find. fold (near_pref g c p).
  revert Hq Hqm. generalize (near_pref g c p). intros q Hq Hqm.
  assert (forall b, free_block (fs_frag g) c b -> 0 <= b < cg_ndblk c /\ b mod fs_frag g = 0) as Hfb.
  { intros b (? & ? & _). done. }
  revert Hqm Hfb. pose proof HF as HF'. fpb_cases HF; intros Hqm Hfb; cbn [Z.eqb Pos.eqb].
  - apply (near_loop_nearest 1 c (upto 0 (cg_ndblk c) 1) q); try done; try (unfold valid_fpb; lia).
    + by apply upto_sorted.
    + intros i Hi. by apply upto_aligned in Hi.
    + intros b Hb. destruct (Hfb b Hb). by apply (upto_all 1 (cg_ndblk c)).
  - apply (near_loop_nearest 2 c (upto 0 (cg_ndblk c) 2) q); try done; try (unfold valid_fpb; lia).
    + by apply upto_sorted.
    + intros i Hi. by apply upto_aligned in Hi.
    + intros b Hb. destruct (Hfb b Hb). by apply (upto_all 2 (cg_ndblk c)).
  - rewrite near_loop4_eq.
    2:{ apply Forall_forall. intros i Hi. by apply upto_aligned in Hi as [_ ?]. }
    destruct (upto_pairs 0 (cg_ndblk c)) as [Hp4|Hle].
    + rewrite Hp4, Z.add_0_l, Z.sub_0_r. apply (near_loop_nearest 4 c); try done; try (unfold valid_fpb; lia).
      * by apply upto_sorted.
      * intros i Hi. by apply upto_aligned in Hi.
      * intros b Hb. destruct (Hfb b Hb). apply (upto_all 4 (cg_ndblk c)); auto; dlia.
    + rewrite upto_nil by lia. cbn. left. split; [done|]. intros b Hb. destruct (Hfb b Hb). lia.
  - apply (block_free_find8 c q Hw); [lia|done].
Qed.

(** ** block_fragblock_find *)

(** [n] free fragments from [r] on. *)
Definition free_run (map : list Z) (r n : Z) : Prop :=
  forall k, r <= k < r + n -> is_free map k = true.

(** A run the allocator may hand out: free and inside one block. *)
Definition frag_run (FPB : Z) (map : list Z) (r n : Z) : Prop :=
  0 <= r /\ free_run map r n /\ r / FPB = (r + n - 1) / FPB.

Lemma bit_val_nonzero map i : negb (bit_val map i =? 0) = is_free map i.
Proof. by rewrite bit_val_zero, negb_involutive. Qed.

Lemma time_scan_spec FPB map index n j h :
  1 <= n -> 0 <= h <= j -> h < n -> j <= FPB ->
  (forall k, index + j - h <= k < index + j -> is_free map k = true) ->
  (h < j -> is_free map (index + j - h - 1) = false) ->
  (forall r, index <= r -> r + n <= index + j -> ~ free_run map r n) ->
  match time_scan map index n (upto j FPB 1) h with
  | Some r => index <= r /\ r + n <= index + FPB /\ free_run map r n /\
              forall r', index <= r' < r -> ~ free_run map r' n
  | None => forall r, index <= r -> r + n <= index + FPB -> ~ free_run map r n
  end.
Proof.
  intros Hn. remember (Z.to_nat (FPB - j)) as m eqn:Hm. revert j h Hm.
  induction m as [|m IH]; intros j h Hm Hh Hhn Hj Hrun Hmax Hno.
  - rewrite upto_nil by lia. simpl. replace FPB with j by lia. done.
  - rewrite upto_cons by lia. simpl. rewrite bit_val_nonzero.
    destruct (is_free map (index + j)) eqn:E.
    + assert (forall r, index <= r -> r + n <= index + j + 1 -> h + 1 < n -> ~ free_run map r n) as Hno'.
      { intros r Hr Hrn Hlt Hfr. destruct (Z.leb_spec (r + n) (index + j)); [by eapply Hno|].
        destruct (Z.eqb_spec h j); [lia|].
        specialize (Hfr (index + j - h - 1) ltac:(lia)). by rewrite Hmax in Hfr by lia. }
      destruct (Z.eqb_spec (h + 1) n) as [Heq|Hne].
      * split; [lia|]. split; [lia|]. split.
        -- intros k Hk. destruct (Z.eqb_spec k (index + j)) as [->|]; [done|]. apply Hrun. lia.
        -- intros r' Hr'. apply Hno; lia.
      * apply IH; try lia.
        -- intros k Hk. destruct (Z.eqb_spec k (index + j)) as [->|]; [done|]. apply Hrun. lia.
        -- intros Hlt. replace (index + (j + 1) - (h + 1) - 1) with (index + j - h - 1) by lia.
           apply Hmax. lia.
        -- intros r Hr Hrn. apply Hno'; lia.
    + apply IH; try lia.
      * intros _. by replace (index + (j + 1) - 0 - 1) with (index + j) by lia.
      * intros r Hr Hrn Hfr. destruct (Z.leb_spec (r + n) (index + j)); [by eapply Hno|].
        specialize (Hfr (index + j) ltac:(lia)). congruence.
Qed.

Lemma frag_run_block FPB map r n index :
  0 < FPB -> 1 <= n -> index mod FPB = 0 ->
  index <= r -> r + n <= index + FPB -> 0 <= index -> free_run map r n ->
  frag_run FPB map r n /\ r / FPB = index / FPB.
Proof.
  intros HF Hn Hi Hr Hrn Hi0 Hfr.
  assert (forall x, index <= x < index + FPB -> x / FPB = index / FPB) as Hd.
  { intros x Hx. pose proof (Z.div_mod index FPB).
    symmetry. apply (Z.div_unique _ _ _ (x - index)); lia. }
  split; [|apply Hd; lia]. split; [lia|]. split; [done|]. by rewrite (Hd r), (Hd (r + n - 1)) by lia.
Qed.

Lemma frag_run_inside FPB map r n :
  0 < FPB -> 1 <= n -> frag_run FPB map r n ->
  r / FPB * FPB <= r /\ r + n <= r / FPB * FPB + FPB.
Proof.
  intros HF Hn (H0 & _ & Heq). pose proof (Z.div_mod r FPB). pose proof (Z.mod_pos_bound r FPB).
  pose proof (Z.div_mod (r + n - 1) FPB). pose proof (Z.mod_pos_bound (r + n - 1) FPB). nia.
Qed.

(** The scan of one block finds its first run. *)
Lemma time_block_spec FPB map index n :
  0 < FPB -> 1 <= n -> index mod FPB = 0 -> 0 <= index ->
  match time_scan map index n (upto 0 FPB 1) 0 with
  | Some r => frag_run FPB map r n /\ r / FPB = index / FPB /\
              forall r', r' / FPB = index / FPB -> r' < r -> ~ frag_run FPB map r' n
  | None => forall r, r / FPB = index / FPB -> ~ frag_run FPB map r n
  end.
Proof.
  intros HF Hn Hi Hi0.
  pose proof (time_scan_spec FPB map index n 0 0 Hn ltac:(lia) ltac:(lia) ltac:(lia)
    ltac:(lia) ltac:(lia) ltac:(lia)) as Hs.
  assert (index / FPB * FPB = index) as Hid by (pose proof (Z.div_mod index FPB); lia).
  destruct (time_scan map index n (upto 0 FPB 1) 0) as [r|].
  - destruct Hs as (H1 & H2 & H3 & H4).
    destruct (frag_run_block FPB map r n index) as [Hr Hd]; auto.
    split; [done|]. split; [done|]. intros r' Hd' Hlt Hr'.
    destruct (frag_run_inside FPB map r' n HF Hn Hr') as [Hlo _]. rewrite Hd', Hid in Hlo.
    apply (H4 r'); [lia|]. apply Hr'.
  - intros r Hd Hr. destruct (frag_run_inside FPB map r n HF Hn Hr) as [Hlo Hhi].
    rewrite Hd, Hid in *. apply (Hs r); [lia..|]. apply Hr.
Qed.

(** A list of blocks is searched front to back. *)
Lemma time_blocks_spec FPB map n l :
  match time_blocks FPB map n l with
  | Some r => exists pre index post, l = pre ++ index :: post /\
      time_scan map index n (upto 0 FPB 1) 0 = Some r /\
      forall i, i ∈ pre -> time_scan map i n (upto 0 FPB 1) 0 = None
  | None => forall i, i ∈ l -> time_scan map i n (upto 0 FPB 1) 0 = None
  end.
Proof.
  induction l as [|x l IH]; simpl.
  - intros i Hi. by apply not_elem_of_nil in Hi.
  - destruct (time_scan map x n (upto 0 FPB 1) 0) as [r|] eqn:E.
    + exists [], x, l. split; [done|]. split; [done|]. intros i Hi. by apply not_elem_of_nil in Hi.
    + destruct (time_blocks FPB map n l) as [r|].
      * destruct IH as (pre & index & post & -> & Hr & Hpre).
        exists (x :: pre), index, post. split; [done|]. split; [done|].
        intros i [->|Hi]%elem_of_cons; auto.
      * intros i [->|Hi]%elem_of_cons; auto.
Qed.

Definition time_policy (FPB : Z) (c : cg) (q n r : Z) : Prop :=
  let map := cg_blksfree c in
  (r = -1 /\ forall r', r' < cg_ndblk c -> ~ frag_run FPB map r' n) \/
  (frag_run FPB map r n /\ r < cg_ndblk c /\
   ((q <= r /\ forall r', q <= r' < r -> ~ frag_run FPB map r' n) \/
    (r < q /\ (forall r', q <= r' < cg_ndblk c -> ~ frag_run FPB map r' n) /\
     forall r', r' < q -> frag_run FPB map r' n ->
       r' / FPB < r / FPB \/ (r' / FPB = r / FPB /\ r <= r')))).

Lemma upto_split lo hi st pre x post y :
  0 < st -> upto lo hi st = pre ++ x :: post ->
  (exists k, 0 <= k /\ y = lo + st * k) -> lo <= y < x -> y ∈ pre.
Proof.
  intros Hst Heq (k & Hk & ->) Hy.
  assert (lo + st * k ∈ upto lo hi st) as Hin.
  { apply elem_of_upto; [done|]. exists k. split; [done|]. split; [done|].
    assert (x ∈ upto lo hi st) as Hx by (rewrite Heq; set_solver).
    apply elem_of_upto in Hx as (? & ? & ? & ?); lia. }
  pose proof (upto_sorted lo hi st Hst) as Hs. rewrite Heq in Hin, Hs.
  apply elem_of_app in Hin as [|Hin]; [done|exfalso].
  apply StronglySorted_app_1_r in Hs. apply StronglySorted_inv in Hs as [_ Hs].
  rewrite Forall_forall in Hs. apply elem_of_cons in Hin as [Hin|Hin]; [lia|].
  specialize (Hs _ Hin). lia.
Qed.

Lemma downto_sorted hi lo st : 0 < st -> StronglySorted Z.gt (downto hi lo st).
Proof.
  intros Hst. remember (Z.to_nat (hi - lo + 1)) as n eqn:Hn. revert hi Hn.
  induction n as [n IH] using lt_wf_ind. intros hi ->.
  destruct (Z.leb_spec lo hi).
  - rewrite downto_cons by lia. constructor; [apply (IH (Z.to_nat (hi - st - lo + 1))); lia|].
    apply Forall_forall. intros x (k & Hk & -> & _)%elem_of_downto; lia.
  - rewrite downto_nil by lia. constructor.
Qed.

Lemma downto_split hi lo st pre x post y :
  0 < st -> downto hi lo st = pre ++ x :: post ->
  (exists k, 0 <= k /\ y = hi - st * k) -> x < y -> y ∈ pre.
Proof.
  intros Hst Heq (k & Hk & ->) Hy.
  assert (x ∈ downto hi lo st) as Hx by (rewrite Heq; set_solver).
  assert (hi - st * k ∈ downto hi lo st) as Hin.
  { apply elem_of_downto; [done|]. exists k. split; [done|]. split; [done|].
    apply elem_of_downto in Hx as (? & ? & ? & ?); lia. }
  pose proof (downto_sorted hi lo st Hst) as Hs. rewrite Heq in Hin, Hs.
  apply elem_of_app in Hin as [|Hin]; [done|exfalso].
  apply StronglySorted_app_1_r in Hs. apply StronglySorted_inv in Hs as [_ Hs].
  rewrite Forall_forall in Hs. apply elem_of_cons in Hin as [Hin|Hin]; [lia|].
  specialize (Hs _ Hin). lia.
Qed.

(** A block start below or above [q] is reached by the backward or the
    forward loop. *)
Lemma block_start_up FPB q r :
  0 < FPB -> q mod FPB = 0 -> q <= r ->
  exists k, 0 <= k /\ r / FPB * FPB = q + FPB * k.
Proof.
  intros HF Hq Hr. exists (r / FPB - q / FPB).
  pose proof (Z.div_mod q FPB). pose proof (Z.div_le_mono q r FPB HF Hr). split; [lia|]. nia.
Qed.

Lemma block_start_down FPB q r :
  0 < FPB -> q mod FPB = 0 -> r < q ->
  exists k, 0 <= k /\ r / FPB * FPB = q - FPB - FPB * k.
Proof.
  intros HF Hq Hr. exists (q / FPB - 1 - r / FPB).
  pose proof (Z.div_mod q FPB).
  assert (r / FPB < q / FPB) by (apply Z.div_lt_upper_bound; nia). split; [lia|]. nia.
Qed.

Section TimePolicy.
Context (FPB : Z) (c : cg) (q n : Z).
Context (HF : 0 < FPB) (Hn : 1 <= n <= FPB) (Hq : q mod FPB = 0) (Hq0 : 0 <= q).
Let map := cg_blksfree c.

Lemma no_run_in_block r :
  0 <= r -> time_scan map (r / FPB * FPB) n (upto 0 FPB 1) 0 = None ->
  ~ frag_run FPB map r n.
Proof using HF Hn.
  intros Hr E.
  pose proof (time_block_spec FPB map (r / FPB * FPB) n HF ltac:(lia)
    ltac:(apply Z.mod_mul; lia) ltac:(pose proof (Z.div_pos r FPB); nia)) as Hs.
  rewrite E in Hs. apply Hs. by rewrite Z.div_mul by lia.
Qed.

Lemma time_forward_none :
  time_blocks FPB map n (upto q (cg_ndblk c) FPB) = None ->
  forall r, q <= r < cg_ndblk c -> ~ frag_run FPB map r n.
Proof using HF Hn Hq Hq0.
  intros E r Hr. pose proof (time_blocks_spec FPB map n (upto q (cg_ndblk c) FPB)) as Hs.
  rewrite E in Hs. apply no_run_in_block; [lia|]. apply Hs, elem_of_upto; [done|].
  destruct (block_start_up FPB q r HF Hq ltac:(lia)) as (k & Hk & Heq).
  exists k. split; [done|]. split; [done|]. pose proof (Z.div_mod r FPB).
  pose proof (Z.mod_pos_bound r FPB HF). lia.
Qed.

Lemma time_forward_some r :
  time_blocks FPB map n (upto q (cg_ndblk c) FPB) = Some r ->
  frag_run FPB map r n /\ q <= r /\ forall r', q <= r' < r -> ~ frag_run FPB map r' n.
Proof using HF Hn Hq Hq0.
  intros E. pose proof (time_blocks_spec FPB map n (upto q (cg_ndblk c) FPB)) as Hs.
  rewrite E in Hs. destruct Hs as (pre & index & post & Heq & Hsc & Hpre).
  assert (index ∈ upto q (cg_ndblk c) FPB) as Hin by (rewrite Heq; set_solver).
  apply elem_of_upto in Hin as (k & Hk & Hix & Hlt); [|done].
  assert (index mod FPB = 0) as Him.
  { rewrite Hix, Z.mul_comm, Z.mod_add by lia. done. }
  pose proof (time_block_spec FPB map index n HF ltac:(lia) Him ltac:(nia)) as Hb.
  rewrite Hsc in Hb. destruct Hb as (Hr & Hd & Hfirst).
  destruct (frag_run_inside FPB map r n HF ltac:(lia) Hr) as [Hlo Hhi].
  assert (index / FPB * FPB = index) as Hid by (pose proof (Z.div_mod index FPB); lia).
  rewrite Hd, Hid in Hlo, Hhi. split; [done|]. split; [nia|].
  intros r' Hr'. destruct (Z.leb_spec index r') as [Hge|Hbefore].
  - apply Hfirst; [|lia]. symmetry. apply (Z.div_unique _ _ _ (r' - index)); lia.
  - apply no_run_in_block; [lia|]. apply Hpre.
    eapply upto_split; [done|done|by apply (block_start_up FPB q r' HF Hq); lia|].
    pose proof (Z.div_mod r' FPB). pose proof (Z.mod_pos_bound r' FPB HF).
    destruct (block_start_up FPB q r' HF Hq ltac:(lia)) as (k' & Hk' & Hk2). nia.
Qed.

Lemma time_backward_none :
  time_blocks FPB map n (downto (q - FPB) 0 FPB) = None ->
  forall r, r < q -> ~ frag_run FPB map r n.
Proof using HF Hn Hq.
  intros E r Hr Hrun. pose proof (time_blocks_spec FPB map n (downto (q - FPB) 0 FPB)) as Hs.
  rewrite E in Hs. pose proof Hrun as [Hr0 _]. revert Hrun.
  apply no_run_in_block; [done|]. apply Hs, elem_of_downto; [done|].
  destruct (block_start_down FPB q r HF Hq Hr) as (k & Hk & Heq). exists k.
  split; [done|]. split; [done|]. pose proof (Z.div_pos r FPB). nia.
Qed.

Lemma time_backward_some r :
  time_blocks FPB map n (downto (q - FPB) 0 FPB) = Some r ->
  frag_run FPB map r n /\ r < q /\
  forall r', r' < q -> frag_run FPB map r' n ->
    r' / FPB < r / FPB \/ (r' / FPB = r / FPB /\ r <= r').
Proof using HF Hn Hq Hq0.
  intros E. pose proof (time_blocks_spec FPB map n (downto (q - FPB) 0 FPB)) as Hs.
  rewrite E in Hs. destruct Hs as (pre & index & post & Heq & Hsc & Hpre).
  assert (index ∈ downto (q - FPB) 0 FPB) as Hin by (rewrite Heq; set_solver).
  apply elem_of_downto in Hin as (k & Hk & Hix & Hge); [|done].
  assert (index mod FPB = 0) as Him.
  { rewrite Hix. replace (q - FPB - FPB * k) with (q + (- 1 - k) * FPB) by lia.
    by rewrite Z.mod_add by lia. }
  pose proof (time_block_spec FPB map index n HF ltac:(lia) Him Hge) as Hb.
  rewrite Hsc in Hb. destruct Hb as (Hr & Hd & Hfirst).
  destruct (frag_run_inside FPB map r n HF ltac:(lia) Hr) as [Hlo Hhi].
  assert (index / FPB * FPB = index) as Hid by (pose proof (Z.div_mod index FPB); lia).
  split; [done|]. split; [rewrite Hd, Hid in Hhi; nia|].
  intros r' Hr' Hrun. destruct (Z.ltb_spec (r' / FPB) (r / FPB)) as [|Hge']; [by left|right].
  destruct (Z.eqb_spec (r' / FPB) (r / FPB)) as [Hsame|Hne].
  - split; [done|]. destruct (Z.leb_spec r r'); [done|exfalso].
    apply (Hfirst r'); [by rewrite Hsame, Hd|done|done].
  - exfalso. revert Hrun. pose proof (Z.div_pos index FPB Hge HF).
    assert (0 <= r') by (pose proof (Z.div_mod r' FPB); pose proof (Z.mod_pos_bound r' FPB HF); nia).
    apply no_run_in_block; [done|]. apply Hpre.
    eapply downto_split; [done|done|by apply (block_start_down FPB q r' HF Hq Hr')|]. nia.
Qed.

End TimePolicy.

Lemma block_fragblock_find_policy g c p n :
  wf_geometry g -> wf_map c -> 0 <= p -> 1 <= n <= fs_frag g ->
  time_policy (fs_frag g) c (near_pref g c p) n (block_fragblock_find OPT_TIME g c p n).
Proof.
  intros Hg Hw Hp Hn. pose proof (frag_pos g Hg) as [HF _]. pose proof (wm_len c Hw).
  destruct (near_pref_bounds g c p Hg Hp ltac:(lia)) as [Hq Hqm].
  unfold block_fragblock_find. fold (near_pref g c p). revert Hq Hqm.
  generalize (near_pref g c p). intros q Hq Hqm.
  destruct (Z.ltb_spec n 1); [lia|]. destruct (Z.ltb_spec (fs_frag g) n); [lia|]. cbn [orb].
  change (OPT_TIME =? OPT_TIME) with true. cbn iota.
  destruct (time_blocks _ _ _ (upto _ _ _)) as [r|] eqn:E1.
  - apply time_forward_some in E1; [|lia..]. destruct E1 as (Hr & Hqr & Hfirst).
    right. split; [done|]. split; [|by left].
    destruct (Z.ltb_spec r (cg_ndblk c)); [done|]. destruct Hr as (_ & Hfr & _).
    specialize (Hfr r ltac:(lia)). by rewrite (wm_tail c Hw) in Hfr by lia.
  - pose proof (time_forward_none (fs_frag g) c q n HF Hn Hqm ltac:(lia) E1) as Hnone.
    destruct (time_blocks _ _ _ (downto _ _ _)) as [r|] eqn:E2; simpl.
    + apply time_backward_some in E2; [|lia..]. destruct E2 as (Hr & Hqr & Hlast).
      right. split; [done|]. split; [lia|]. right. split; [done|]. split; [done|]. auto.
    + left. split; [done|]. intros r' Hr'.
      destruct (Z.leb_spec q r'); [apply Hnone; lia|].
      by apply (time_backward_none (fs_frag g) c q n HF Hn Hqm E2).
Qed.
