(* ===== verification/Runs.v ===== *)
(** Maximal runs of set bits.  The summary tables of a cylinder group (free
    blocks, free fragments, runs by size, clusters by size) all count
    maximal runs of free bits with a weight; this file gives the one
    algebraic fact they need: what happens to the count when a piece of a
    run is cleared, or set. *)

From S2P Require Import Prelude.

Definition emit (h : Z) : list Z := if h =? 0 then [] else [h].

(** The lengths of the maximal runs of [true] in a list, [h] being the run
    already open at its start. *)
Fixpoint runs (l : list bool) (h : Z) : list Z :=
  match l with
  | [] => emit h
  | true :: l' => runs l' (h + 1)
  | false :: l' => emit h ++ runs l' 0
  end.

(** The bits [lo], ..., [lo + n - 1] of a predicate. *)
Definition bits (f : Z -> bool) (lo n : Z) : list bool := f <$> seqZ lo n.

(** Total weight of the maximal runs among those bits. *)
Definition run_weight (w : Z -> Z) (f : Z -> bool) (lo n : Z) : Z :=
  zsum w (runs (bits f lo n) 0).

Lemma runs_false A B h : runs (A ++ false :: B) h = runs A h ++ runs B 0.
Proof.
  revert h. induction A as [|[] A IH]; intros h; simpl; [done|apply IH|].
  by rewrite IH, app_assoc.
Qed.

Lemma runs_true m B h : 0 <= h -> runs (replicate m true ++ B) h = runs B (h + Z.of_nat m).
Proof.
  revert h. induction m as [|m IH]; intros h Hh; simpl.
  - by rewrite Z.add_0_r.
  - rewrite IH by lia. f_equal. lia.
Qed.

Definition closed_left (A : list bool) : Prop := A = [] \/ exists A', A = A' ++ [false].
Definition closed_right (B : list bool) : Prop := B = [] \/ exists B', B = false :: B'.

Lemma runs_mid A m B :
  closed_left A -> closed_right B ->
  runs (A ++ replicate m true ++ B) 0 = runs A 0 ++ emit (Z.of_nat m) ++ runs B 0.
Proof.
  intros HA HB.
  assert (runs (replicate m true ++ B) 0 = emit (Z.of_nat m) ++ runs B 0) as Hmid.
  { rewrite runs_true by lia. destruct HB as [->|(B' & ->)]; simpl; [by rewrite app_nil_r|done]. }
  destruct HA as [->|(A' & ->)]; [done|].
  rewrite <- app_assoc. simpl. rewrite !runs_false. simpl. by rewrite app_nil_r, Hmid.
Qed.

(** A gap of [m] clear bits inside what was one run. *)
Lemma runs_gap A l m h B :
  (0 < m)%nat -> closed_left A -> closed_right B ->
  runs (A ++ replicate l true ++ replicate m false ++ replicate h true ++ B) 0 =
  runs A 0 ++ emit (Z.of_nat l) ++ emit (Z.of_nat h) ++ runs B 0.
Proof.
  intros Hm HA HB. destruct m as [|m]; [lia|]. simpl replicate.
  rewrite <- !app_comm_cons, app_assoc, runs_false.
  replace (A ++ replicate l true) with (A ++ replicate l true ++ []) by by rewrite app_nil_r.
  rewrite (runs_mid A l []) by (done || by left). simpl. rewrite app_nil_r, <- app_assoc.
  do 2 f_equal. clear -HB. induction m as [|m IH]; simpl; [|done].
  apply (runs_mid [] h B); [by left|done].
Qed.

Lemma zsum_emit w h : w 0 = 0 -> zsum w (emit h) = w h.
Proof. intros Hw. unfold emit. destruct (Z.eqb_spec h 0) as [->|]; unfold zsum; simpl; lia. Qed.

Lemma bits_app f lo n m : 0 <= n -> 0 <= m -> bits f lo (n + m) = bits f lo n ++ bits f (lo + n) m.
Proof. intros Hn Hm. unfold bits. by rewrite seqZ_app, fmap_app. Qed.

Lemma bits_ext f g lo n : (forall i, lo <= i < lo + n -> f i = g i) -> bits f lo n = bits g lo n.
Proof.
  intros H. unfold bits. apply list_fmap_ext. intros j x Hx. apply H.
  apply lookup_seqZ in Hx. lia.
Qed.

Lemma bits_const f lo n b :
  (forall i, lo <= i < lo + n -> f i = b) -> bits f lo n = replicate (Z.to_nat n) b.
Proof.
  intros H. rewrite (bits_ext f (fun _ => b)) by done. unfold bits.
  rewrite <- (length_seqZ lo n).
  induction (seqZ lo n) as [|x l IH]; simpl; [done|]. by f_equal.
Qed.

Lemma bits_closed_left f lo n :
  0 <= n -> (n = 0 \/ f (lo + n - 1) = false) -> closed_left (bits f lo n).
Proof.
  intros Hn [->|Hf]; [left; unfold bits; by rewrite seqZ_nil by lia|].
  destruct (Z.eqb_spec n 0) as [->|]; [left; unfold bits; by rewrite seqZ_nil by lia|].
  right. exists (bits f lo (n - 1)). replace n with (n - 1 + 1) at 1 by lia.
  rewrite bits_app by lia. f_equal. unfold bits.
  rewrite seqZ_cons, seqZ_nil by lia. simpl. by replace (lo + (n - 1)) with (lo + n - 1) by lia; rewrite Hf.
Qed.

Lemma bits_closed_right f lo n :
  0 <= n -> (n = 0 \/ f lo = false) -> closed_right (bits f lo n).
Proof.
  intros Hn [->|Hf]; [left; unfold bits; by rewrite seqZ_nil by lia|].
  destruct (Z.eqb_spec n 0) as [->|]; [left; unfold bits; by rewrite seqZ_nil by lia|].
  right. exists (bits f (Z.succ lo) (Z.pred n)). unfold bits. rewrite seqZ_cons by lia. simpl. by rewrite Hf.
Qed.

(** [low] and [high] set bits of [f] surround positions [s], ..., [s+n-1],
    and the three pieces together are one maximal run within [lo], ...,
    [lo+N-1]. *)
Record run_around (f : Z -> bool) (lo N s n low high : Z) : Prop := {
  ra_n : 0 < n;
  ra_low : 0 <= low /\ lo <= s - low;
  ra_high : 0 <= high /\ s + n + high <= lo + N;
  ra_low_set : forall i, s - low <= i < s -> f i = true;
  ra_high_set : forall i, s + n <= i < s + n + high -> f i = true;
  ra_low_max : s - low = lo \/ f (s - low - 1) = false;
  ra_high_max : s + n + high = lo + N \/ f (s + n + high) = false }.

(** Clearing the middle of a run replaces its weight by that of the two
    pieces left over. *)
Lemma run_weight_split w f g lo N s n low high :
  w 0 = 0 -> run_around f lo N s n low high ->
  (forall i, s <= i < s + n -> f i = true /\ g i = false) ->
  (forall i, lo <= i < lo + N -> ~ (s <= i < s + n) -> g i = f i) ->
  run_weight w g lo N =
  run_weight w f lo N - w (low + n + high) + w low + w high.
Proof.
  intros Hw [Hn [Hl0 Hl] [Hh0 Hh] Hls Hhs Hlm Hhm] Hmid Hext. unfold run_weight.
  set (A := bits f lo (s - low - lo)). set (B := bits f (s + n + high) (lo + N - (s + n + high))).
  assert (closed_left A) as HA.
  { apply bits_closed_left; [lia|]. destruct Hlm as [|Hlm]; [left; lia|right].
    by replace (lo + (s - low - lo) - 1) with (s - low - 1) by lia. }
  assert (closed_right B) as HB.
  { apply bits_closed_right; [lia|]. destruct Hhm as [|Hhm]; [left; lia|by right]. }
  assert (bits f lo N = A ++ replicate (Z.to_nat (low + n + high)) true ++ B) as ->.
  { replace N with ((s - low - lo) + ((low + n + high) + (lo + N - (s + n + high)))) at 1 by lia.
    rewrite bits_app by lia. f_equal. rewrite bits_app by lia.
    replace (lo + (s - low - lo)) with (s - low) by lia.
    replace (s - low + (low + n + high)) with (s + n + high) by lia. f_equal.
    apply bits_const. intros i Hi. destruct (Z.ltb_spec i s); [apply Hls; lia|].
    destruct (Z.ltb_spec i (s + n)); [by apply Hmid|]. apply Hhs. lia. }
  assert (bits g lo N = A ++ replicate (Z.to_nat low) true ++ replicate (Z.to_nat n) false ++
            replicate (Z.to_nat high) true ++ B) as ->.
  { replace N with ((s - low - lo) + (low + (n + (high + (lo + N - (s + n + high)))))) at 1 by lia.
    rewrite bits_app by lia. f_equal.
    { apply bits_ext. intros i Hi. apply Hext; lia. }
    replace (lo + (s - low - lo)) with (s - low) by lia.
    rewrite bits_app by lia. f_equal.
    { apply bits_const. intros i Hi. rewrite Hext by lia. apply Hls. lia. }
    replace (s - low + low) with s by lia. rewrite bits_app by lia. f_equal.
    { apply bits_const. intros i Hi. apply Hmid. lia. }
    rewrite bits_app by lia. f_equal.
    { apply bits_const. intros i Hi. rewrite Hext by lia. apply Hhs. lia. }
    apply bits_ext. intros i Hi. apply Hext; lia. }
  rewrite runs_gap, runs_mid by (done || lia).
  rewrite !zsum_app, !zsum_emit by done. rewrite !Z2Nat.id by lia. lia.
Qed.

(** Bits outside the window do not matter. *)
Lemma run_weight_ext w f g lo n :
  (forall i, lo <= i < lo + n -> f i = g i) -> run_weight w f lo n = run_weight w g lo n.
Proof. intros H. unfold run_weight. by rewrite (bits_ext f g) by done. Qed.

Lemma runs_positive l h : 0 <= h -> Forall (fun r => 0 < r) (runs l h).
Proof.
  revert h. induction l as [|[] l IH]; intros h Hh; simpl.
  - unfold emit. destruct (Z.eqb_spec h 0); [constructor|]. repeat constructor. lia.
  - apply IH. lia.
  - apply Forall_app. split; [|apply IH; lia].
    unfold emit. destruct (Z.eqb_spec h 0); [constructor|]. repeat constructor. lia.
Qed.

Lemma run_weight_nonneg w f lo n :
  (forall r, 0 < r -> 0 <= w r) -> 0 <= run_weight w f lo n.
Proof.
  intros Hw. apply zsum_nonneg. intros r Hr.
  pose proof (runs_positive (bits f lo n) 0 ltac:(lia)) as Hp.
  rewrite Forall_forall in Hp. auto.
Qed.

(** The runs of [n] bits have total length at most [n]. *)
Lemma runs_total l h : 0 <= h -> zsum (fun r => r) (runs l h) <= h + Z.of_nat (length l).
Proof.
  revert h. induction l as [|[] l IH]; intros h Hh; simpl.
  - unfold emit, zsum. destruct (h =? 0); simpl; lia.
  - specialize (IH (h + 1) ltac:(lia)). lia.
  - rewrite zsum_app. specialize (IH 0 ltac:(lia)).
    unfold emit. destruct (Z.eqb_spec h 0); unfold zsum in *; simpl; lia.
Qed.

Lemma zsum_mono f g l : (forall x, x ∈ l -> f x <= g x) -> zsum f l <= zsum g l.
Proof.
  unfold zsum. induction l as [|x l IH]; simpl; intros H; [lia|].
  assert (f x <= g x) by (apply H; by left).
  assert (foldr (fun x a => f x + a) 0 l <= foldr (fun x a => g x + a) 0 l); [|lia].
  apply IH. intros y Hy. apply H. by right.
Qed.

Lemma run_weight_le w f lo n :
  0 <= n -> (forall r, 0 < r -> w r <= r) -> run_weight w f lo n <= n.
Proof.
  intros Hn Hw. unfold run_weight.
  pose proof (runs_total (bits f lo n) 0 ltac:(lia)) as Ht.
  unfold bits in Ht at 2. rewrite length_fmap, length_seqZ in Ht.
  etrans; [|etrans; [exact Ht|lia]]. apply zsum_mono. intros r Hr.
  pose proof (runs_positive (bits f lo n) 0 ltac:(lia)) as Hp.
  rewrite Forall_forall in Hp. auto.
Qed.

(** The runs cover the set bits. *)
Lemma runs_count l h : 0 <= h ->
  zsum (fun r => r) (runs l h) = h + Z.of_nat (length (filter (fun b => b = true) l)).
Proof.
  revert h. induction l as [|[] l IH]; intros h Hh; cbn [runs].
  - unfold emit, zsum. destruct (Z.eqb_spec h 0); simpl; lia.
  - rewrite IH by lia. rewrite filter_cons_True by done. cbn [length]. lia.
  - rewrite zsum_app, IH by lia. rewrite filter_cons_False by done.
    unfold emit. destruct (Z.eqb_spec h 0); unfold zsum; simpl; lia.
Qed.

(** A run as long as the window fills it. *)
Lemma run_full f lo n r :
  0 <= n -> r ∈ runs (bits f lo n) 0 -> n <= r -> forall i, lo <= i < lo + n -> f i = true.
Proof.
  intros Hn Hr Hle.
  pose proof (runs_positive (bits f lo n) 0 ltac:(lia)) as Hp. rewrite Forall_forall in Hp.
  pose proof (zsum_pos_elem (fun x => x) _ r ltac:(intros y Hy; specialize (Hp y Hy); lia) Hr) as Hs.
  simpl in Hs. rewrite runs_count in Hs by lia.
  assert (length (bits f lo n) = Z.to_nat n) as Hl
    by (unfold bits; by rewrite length_fmap, length_seqZ).
  intros i Hi. destruct (f i) eqn:E; [done|exfalso].
  assert (false ∈ bits f lo n) as Hin.
  { unfold bits. rewrite list_elem_of_fmap. exists i. split; [done|]. apply elem_of_seqZ. lia. }
  pose proof (length_filter_lt (fun b => b = true) _ false Hin ltac:(done)). lia.
Qed.

(** The two free stretches next to a range, capped as the counting loops cap
    them, are those of the run around it. *)
Lemma run_around_exists f lo N s n :
  0 < n -> lo <= s -> s + n <= lo + N ->
  run_around f lo N s n (count_while f (downto (s - 1) lo 1))
    (count_while f (upto (s + n) (lo + N) 1)).
Proof.
  intros Hn Hs Hsn.
  pose proof (count_while_down f (s - 1) lo ltac:(lia)) as (Hb1 & Hp1 & He1).
  pose proof (count_while_up f (s + n) (lo + N) ltac:(lia)) as (Hb2 & Hp2 & He2).
  revert Hb1 Hp1 He1 Hb2 Hp2 He2.
  generalize (count_while f (downto (s - 1) lo 1)) (count_while f (upto (s + n) (lo + N) 1)).
  intros l h Hb1 Hp1 He1 Hb2 Hp2 He2. constructor; try lia.
  - intros i Hi. apply Hp1. lia.
  - intros i Hi. apply Hp2. lia.
  - destruct He1 as [|He1]; [left; lia|right]. by replace (s - l - 1) with (s - 1 - l) by lia.
  - destruct He2 as [|He2]; [left; lia|right]. done.
Qed.

Lemma count_up_capped f s e cap :
  s <= e -> 0 <= cap ->
  count_while f (upto s (Z.min e (s + cap)) 1) = Z.min (count_while f (upto s e 1)) cap.
Proof.
  intros Hs Hc.
  pose proof (count_while_up f s (Z.min e (s + cap)) ltac:(lia)) as (Hb1 & Hp1 & He1).
  pose proof (count_while_up f s e ltac:(lia)) as (Hb2 & Hp2 & He2).
  revert Hb1 Hp1 He1 Hb2 Hp2 He2.
  generalize (count_while f (upto s (Z.min e (s + cap)) 1)) (count_while f (upto s e 1)).
  intros a b Hb1 Hp1 He1 Hb2 Hp2 He2.
  destruct (Z.ltb_spec a b) as [Hlt|Hge].
  - destruct He1 as [He1|He1]; [lia|]. by rewrite Hp2 in He1 by lia.
  - destruct (Z.ltb_spec b a) as [Hlt'|]; [|lia].
    destruct He2 as [He2|He2]; [lia|]. by rewrite Hp1 in He2 by lia.
Qed.

Lemma count_down_capped f s e cap :
  e <= s + 1 -> 0 <= cap ->
  count_while f (downto s (Z.max e (s + 1 - cap)) 1) = Z.min (count_while f (downto s e 1)) cap.
Proof.
  intros Hs Hc.
  pose proof (count_while_down f s (Z.max e (s + 1 - cap)) ltac:(lia)) as (Hb1 & Hp1 & He1).
  pose proof (count_while_down f s e ltac:(lia)) as (Hb2 & Hp2 & He2).
  revert Hb1 Hp1 He1 Hb2 Hp2 He2.
  generalize (count_while f (downto s (Z.max e (s + 1 - cap)) 1)) (count_while f (downto s e 1)).
  intros a b Hb1 Hp1 He1 Hb2 Hp2 He2.
  destruct (Z.ltb_spec a b) as [Hlt|Hge].
  - destruct He1 as [He1|He1]; [lia|]. by rewrite Hp2 in He1 by lia.
  - destruct (Z.ltb_spec b a) as [Hlt'|]; [|lia].
    destruct He2 as [He2|He2]; [lia|]. by rewrite Hp1 in He2 by lia.
Qed.
