(* ===== verification/CgStore.v ===== *)
(** Interfaces between components: [Storage] is what [data_read] and
    [data_write] promise their callers, [Exec] what the system's memory
    allocator promises, [CgStore] what the cylinder group cache promises the
    allocator. *)

From S2P Require Import Prelude Bitmap Superblock Cg.

(** ** The disk, as data_read and data_write show it

    [st_read num d] reads the object stored from fragment [num] on, [None]
    when the device fails; [st_write num v d] returns [true] on success. *)

Class Storage (D A : Type) := {
  st_read : Z -> D -> option A * D;
  st_write : Z -> A -> D -> bool * D }.

(** A healthy device: every transfer succeeds, a read returns what was last
    written at that address and changes nothing. *)
Class StorageLaws (D A : Type) `{Storage D A} := {
  st_peek : D -> Z -> A;
  st_read_ok : forall n d, st_read n d = (Some (st_peek d n), d);
  st_write_ok : forall n v d, exists d',
    st_write n v d = (true, d') /\
    forall k, st_peek d' k = if k =? n then v else st_peek d k }.

(** ** Memory of the operating system

    AllocMem and FreeMem of exec.library, over the state [H] of the system's
    free lists. *)
Class Exec (H : Type) := {
  AllocMem : H -> option Z * H;
  FreeMem : Z -> H -> H }.

(** Memory enough: a request succeeds with memory that is not in use. *)
Class ExecLaws (H : Type) `{Exec H} := {
  in_use : H -> Z -> Prop;
  AllocMem_ok : forall h, exists p h', AllocMem h = (Some p, h') /\
    ~ in_use h p /\ (forall q, in_use h q -> in_use h' q) /\ in_use h' p }.

(** ** The cylinder group cache, as the allocator sees it

    A buffer address is a [Z].  [cgs_load] and [cgs_store] follow a
    [struct cg *]. *)

Class CgStore (S : Type) := {
  cgs_fs : S -> fs;
  cgs_set_fs : fs -> S -> S;
  cache_cg : Z -> M S (option Z);
  cache_cg_write : Z -> M S (option Z);
  cgs_load : Z -> S -> option cg;
  cgs_store : Z -> cg -> S -> S }.

(** The contract.  [cgs_view s cgx] is the current contents of group [cgx],
    wherever they are held; [cgs_owns s cgx p w] says that [p] is the buffer
    of group [cgx], and with [w] that the group is marked for writing. *)
Class CgStoreLaws (S : Type) `{CgStore S} := {
  cgs_ok : S -> Prop;
  cgs_view : S -> Z -> cg;
  cgs_owns : S -> Z -> Z -> bool -> Prop;
  cgs_view_cgx : forall s cgx,
    cgs_ok s -> 0 <= cgx < fs_ncg (cgs_fs s) -> cg_cgx (cgs_view s cgx) = cgx;
  cgs_writable : forall s, cgs_ok s -> fs_ronly (cgs_fs s) = 0;
  cgs_load_view : forall s cgx p w,
    cgs_ok s -> cgs_owns s cgx p w -> cgs_load p s = Some (cgs_view s cgx);
  cgs_cache_cg : forall s cgx,
    cgs_ok s -> 0 <= cgx < fs_ncg (cgs_fs s) ->
    wp (cache_cg cgx) (fun r s' => exists p, r = Some p /\
      cgs_ok s' /\ cgs_fs s' = cgs_fs s /\
      (forall k, cgs_view s' k = cgs_view s k) /\
      cgs_owns s' cgx p false /\
      forall p' w, cgs_owns s cgx p' w -> p' = p /\ cgs_owns s' cgx p w) s;
  cgs_cache_cg_write : forall s cgx,
    cgs_ok s -> 0 <= cgx < fs_ncg (cgs_fs s) ->
    wp (cache_cg_write cgx) (fun r s' => exists p, r = Some p /\
      cgs_ok s' /\ cgs_fs s' = cgs_fs s /\
      (forall k, cgs_view s' k = cgs_view s k) /\
      cgs_owns s' cgx p true /\
      forall p' w, cgs_owns s cgx p' w -> p' = p) s;
  cgs_store_view : forall s cgx p c,
    cgs_ok s -> cgs_owns s cgx p true -> cg_cgx c = cgx ->
    let s' := cgs_store p c s in
    cgs_ok s' /\ cgs_fs s' = cgs_fs s /\
    (forall k, cgs_view s' k = if k =? cgx then c else cgs_view s k) /\
    forall w, cgs_owns s cgx p w -> cgs_owns s' cgx p w;
  cgs_set_fs_fs : forall s f, cgs_fs (cgs_set_fs f s) = f;
  cgs_set_fs_view : forall s f,
    fs_geo f = fs_geo (cgs_fs s) -> forall k, cgs_view (cgs_set_fs f s) k = cgs_view s k;
  cgs_set_fs_ok : forall s f,
    fs_geo f = fs_geo (cgs_fs s) -> fs_ronly f = fs_ronly (cgs_fs s) ->
    cgs_ok s -> cgs_ok (cgs_set_fs f s);
  cgs_set_fs_owns : forall s f cgx p w,
    cgs_owns s cgx p w -> cgs_owns (cgs_set_fs f s) cgx p w }.
