(* ===== verification/Alloc.v ===== *)
(** The allocator of [alloc.c] over the cylinder group cache:
    [block_allocate], [block_deallocate], [frags_allocate] and
    [frags_deallocate], each with every call that changes the superblock or
    the group buffers, in the order of the code.  NULL results of the cache
    follow the code's own checks; a NULL the code follows unchecked is
    undefined behaviour. *)

From S2P Require Import Prelude Bitmap Superblock Cg CgStore.
Local Open Scope bffs_scope.

Section Alloc.
Context {S : Type} `{CgStore S}.

(** Access through the global [superblock] and through a [struct cg *]. *)
Definition superblock : M S fs := gets cgs_fs.
Definition upd_superblock (f : fs -> fs) : M S unit :=
  modify (fun s => cgs_set_fs (f (cgs_fs s)) s).
Definition set_readonly : M S unit := upd_superblock (fun f => set_ronly f 1).

Definition load_cg (p : Z) : M S cg := o <- gets (cgs_load p) ;; deref o.
Definition upd_cg (p : Z) (f : cg -> cg) : M S unit :=
  c <- load_cg p ;; modify (cgs_store p (f c)).

(** The helpers that update the superblock and one group together. *)
Definition upd_both (p : Z) (f : fs -> cg -> fs * cg) : M S unit :=
  c <- load_cg p ;;
  modify (fun s => let r := f (cgs_fs s) c in cgs_set_fs r.1 (cgs_store p r.2 s)).

Definition adjust_blks_free_m (mycg cgx block adjust : Z) : M S unit :=
  upd_both mycg (fun f c => adjust_blks_free f c cgx block adjust).
Definition adjust_frags_free_m (mycg cgx adjust : Z) : M S unit :=
  upd_both mycg (fun f c => adjust_frags_free f c cgx adjust).
Definition adjust_frsum_m (mycg count adjust : Z) : M S unit :=
  upd_cg mycg (fun c => adjust_frsum c count adjust).

(** No free block according to the totals. *)
Definition no_blocks (f : fs) : bool :=
  if fs_updated f then cs_nbfree (fs_new_cstotal f) =? 0
  else cs_nbfree (fs_cstotal f) =? 0.

(** The group with the most free blocks: the loop over all groups that keeps
    the first maximum; [best] is the pair of bfree and cgx. *)
Fixpoint most_free (csp : list csum) (l : list Z) (best : Z * Z) : Z * Z :=
  match l with
  | [] => best
  | index :: l' =>
      let temp := u32 (cs_nbfree (zget csp index)) in
      most_free csp l' (if best.1 <? temp then (temp, index) else best)
  end.

(** The end of block_allocate, once [block] is chosen in group [cgx]. *)
Definition block_take (cgx block : Z) : M S Z :=
  mycg <- cache_cg_write cgx ;;
  match mycg with
  | None => ret 0
  | Some mycg =>
      f <- superblock ;;
      upd_cg mycg (fun c => set_blksfree c (block_alloc (fs_frag f) (cg_blksfree c) block)) ;;
      adjust_blks_free_m mycg cgx block (-1) ;;
      upd_cg mycg (fun c => ffs_clusteracct f c block (-1)) ;;
      ret (u32 (block + cgbase f cgx))
  end.

Definition block_allocate (nearblock : Z) : M S Z :=
  f <- superblock ;;
  let cgx := dtog f nearblock in
  mycg <- cache_cg cgx ;;
  f <- superblock ;;
  if no_blocks f then ret 0
  else
    p <- deref mycg ;;
    c <- load_cg p ;;
    let block := block_free_find f c (dtogd f nearblock) in
    if block =? -1 then
      let best := most_free (fs_csp f) (upto 0 (fs_ncg f) 1) (0, cgx) in
      let cgx := best.2 in
      if best.1 =? 0 then set_readonly ;; ret 0
      else
        mycg <- cache_cg cgx ;;
        p <- deref mycg ;;
        c <- load_cg p ;;
        f <- superblock ;;
        let block := block_free_find f c 0 in
        if block =? -1 then set_readonly ;; ret 0
        else block_take cgx block
    else block_take cgx block.

Definition block_deallocate (block : Z) : M S unit :=
  f <- superblock ;;
  let cgx := dtog f block in
  mycg <- cache_cg_write cgx ;;
  match mycg with
  | None => ret tt
  | Some mycg =>
      f <- superblock ;;
      let cblock := dtogd f block in
      upd_cg mycg (fun c => set_blksfree c (block_dealloc (fs_frag f) (cg_blksfree c) cblock)) ;;
      adjust_blks_free_m mycg cgx cblock 1 ;;
      upd_cg mycg (fun c => ffs_clusteracct f c cblock 1)
  end.

(** Free fragments just below position [fragoffset] of a block. *)
Definition count_low (map : list Z) (cgblkstart fragoffset : Z) : Z :=
  count_while (fun index => negb (bit_val map (cgblkstart + index) =? 0))
    (downto (fragoffset - 1) 0 1).

(** Free fragments from position [first] of a block to its end. *)
Definition count_high (FPB : Z) (map : list Z) (cgblkstart first : Z) : Z :=
  count_while (fun index => negb (bit_val map (cgblkstart + index) =? 0))
    (upto first FPB 1).

Definition frags_allocate (fragstart frags : Z) : M S Z :=
  f <- superblock ;;
  let FPB := fs_frag f in
  let cgx := dtog f fragstart in
  mycg <- cache_cg_write cgx ;;
  match mycg with
  | None => ret 1
  | Some mycg =>
      f <- superblock ;;
      let cgfragstart := dtogd f fragstart in
      let fragoffset := cgfragstart mod FPB in
      let cgblkstart := cgfragstart - fragoffset in
      let blkstart := fragstart - fragoffset in
      c <- load_cg mycg ;;
      let low := count_low (cg_blksfree c) cgblkstart fragoffset in
      let high := count_high FPB (cg_blksfree c) cgblkstart (fragoffset + frags) in
      adjust_frsum_m mycg low 1 ;;
      adjust_frsum_m mycg high 1 ;;
      if frags + low + high =? FPB then
        got <- block_allocate blkstart ;;
        if negb (got =? blkstart) then
          (if negb (got =? 0) then block_deallocate got else ret tt) ;;
          adjust_frags_free_m mycg cgx frags ;;
          adjust_frsum_m mycg low (-1) ;;
          adjust_frsum_m mycg high (-1) ;;
          set_readonly ;;
          ret 1
        else
          mfor (upto 0 low 1) (fun index =>
            upd_cg mycg (fun c => set_blksfree c
              (bit_set (cg_blksfree c) (cgfragstart - index - 1)))) ;;
          mfor (upto 0 high 1) (fun index =>
            upd_cg mycg (fun c => set_blksfree c
              (bit_set (cg_blksfree c) (cgfragstart + frags + index)))) ;;
          adjust_frags_free_m mycg cgx (FPB - frags) ;;
          ret 0
      else
        adjust_frsum_m mycg (frags + low + high) (-1) ;;
        mfor (upto 0 frags 1) (fun index =>
          upd_cg mycg (fun c => set_blksfree c
            (bit_clr (cg_blksfree c) (cgfragstart + index)))) ;;
        adjust_frags_free_m mycg cgx (- frags) ;;
        ret 0
  end.

Definition frags_deallocate (fragstart frags : Z) : M S unit :=
  if frags =? 0 then ret tt
  else
    f <- superblock ;;
    let FPB := fs_frag f in
    let cgx := dtog f fragstart in
    mycg <- cache_cg_write cgx ;;
    match mycg with
    | None => ret tt
    | Some mycg =>
        f <- superblock ;;
        let cgfragstart := dtogd f fragstart in
        let fragoffset := cgfragstart mod FPB in
        let cgblkstart := cgfragstart - fragoffset in
        let blkstart := fragstart - fragoffset in
        c <- load_cg mycg ;;
        let low := count_low (cg_blksfree c) cgblkstart fragoffset in
        let high := count_high FPB (cg_blksfree c) cgblkstart (fragoffset + frags) in
        adjust_frsum_m mycg low (-1) ;;
        adjust_frsum_m mycg high (-1) ;;
        if frags + low + high =? FPB then
          block_deallocate blkstart ;;
          adjust_frags_free_m mycg cgx (frags - FPB)
        else
          adjust_frsum_m mycg (frags + low + high) 1 ;;
          mfor (upto 0 frags 1) (fun index =>
            upd_cg mycg (fun c => set_blksfree c
              (bit_set (cg_blksfree c) (cgfragstart + index)))) ;;
          adjust_frags_free_m mycg cgx frags
    end.

End Alloc.
