(* ===== verification/AllocWp.v ===== *)
(** Plumbing between the allocator and the contract of the group cache: the
    effect of each primitive step on the pair of the superblock and the
    contents of all groups, so that the allocator's proofs are about pure
    functions. *)

From S2P Require Import Prelude Bitmap Superblock Cg CgStore Alloc.
Local Open Scope bffs_scope.

(** The groups with group [k] replaced. *)
Definition vupd (v : Z -> cg) (k : Z) (c : cg) : Z -> cg :=
  fun j => if j =? k then c else v j.

Lemma vupd_eq v k c : vupd v k c k = c.
Proof. unfold vupd. by rewrite Z.eqb_refl. Qed.

Lemma vupd_ne v k c j : j <> k -> vupd v k c j = v j.
Proof. intros H. unfold vupd. by rewrite (proj2 (Z.eqb_neq j k)). Qed.

Section Wp.
Context {S : Type} `{CgStoreLaws S}.

(** [s] has superblock [f] and groups [v]. *)
Definition holds (s : S) (f : fs) (v : Z -> cg) : Prop :=
  cgs_ok s /\ cgs_fs s = f /\ forall k, 0 <= k < fs_ncg f -> cgs_view s k = v k.

(** ... and [p] is the writable buffer of group [cgx]. *)
Definition holds_at (s : S) (f : fs) (v : Z -> cg) (cgx p : Z) : Prop :=
  holds s f v /\ cgs_owns s cgx p true.

Lemma holds_ext s (f : fs) v v' :
  (forall k, 0 <= k < fs_ncg f -> v k = v' k) -> holds s f v -> holds s f v'.
Proof. intros Hv (Hok & Hf & Hk). split; [done|]. split; [done|]. intros k Hr. by rewrite Hk, Hv. Qed.

Lemma wp_superblock (Q : fs -> S -> Prop) s (f : fs) v :
  holds s f v -> Q f s -> wp superblock Q s.
Proof. intros (_ & Hf & _) HQ. unfold superblock. apply wp_gets. by rewrite Hf. Qed.

Lemma wp_load (Q : cg -> S -> Prop) s (f : fs) v cgx p w :
  holds s f v -> 0 <= cgx < fs_ncg f -> cgs_owns s cgx p w -> Q (v cgx) s -> wp (load_cg p) Q s.
Proof.
  intros (Hok & Hf & Hv) Hc Ho HQ. unfold load_cg. wp_steps.
  rewrite (cgs_load_view s cgx p w Hok Ho). rewrite (Hv cgx Hc). by wp_steps.
Qed.

Lemma wp_upd_cg (h : cg -> cg) (Q : unit -> S -> Prop) s (f : fs) v cgx p :
  holds_at s f v cgx p -> 0 <= cgx < fs_ncg f -> cg_cgx (h (v cgx)) = cgx ->
  (forall s', holds_at s' f (vupd v cgx (h (v cgx))) cgx p -> Q tt s') ->
  wp (upd_cg p h) Q s.
Proof.
  intros [Hh Ho] Hc Hx HQ. unfold upd_cg. apply wp_bnd.
  eapply wp_load; [done|done|done|]. wp_steps. apply HQ.
  destruct Hh as (Hok & Hf & Hv).
  destruct (cgs_store_view s cgx p (h (v cgx)) Hok Ho Hx) as (Hok' & Hf' & Hv' & Ho').
  split; [|by apply Ho']. split; [done|]. split; [congruence|].
  intros k Hk. rewrite Hv'. unfold vupd. destruct (k =? cgx); [done|by apply Hv].
Qed.

Lemma wp_upd_both (h : fs -> cg -> fs * cg) (Q : unit -> S -> Prop) s (f : fs) v cgx p :
  holds_at s f v cgx p -> 0 <= cgx < fs_ncg f ->
  cg_cgx (h f (v cgx)).2 = cgx ->
  fs_geo (h f (v cgx)).1 = fs_geo f -> fs_ronly (h f (v cgx)).1 = fs_ronly f ->
  (forall s', holds_at s' (h f (v cgx)).1 (vupd v cgx (h f (v cgx)).2) cgx p -> Q tt s') ->
  wp (upd_both p h) Q s.
Proof.
  intros [Hh Ho] Hc Hx Hg Hr HQ. unfold upd_both. apply wp_bnd.
  eapply wp_load; [done|done|done|]. wp_steps. apply HQ.
  destruct Hh as (Hok & Hf & Hv). rewrite Hf.
  destruct (cgs_store_view s cgx p (h f (v cgx)).2 Hok Ho Hx) as (Hok' & Hf' & Hv' & Ho').
  assert (fs_geo (h f (v cgx)).1 = fs_geo (cgs_fs (cgs_store p (h f (v cgx)).2 s))) as Hg'
    by (rewrite Hf', Hf; done).
  split; [|by apply cgs_set_fs_owns, Ho']. split.
  - apply cgs_set_fs_ok; [done|by rewrite Hf', Hf|done].
  - split; [apply cgs_set_fs_fs|]. rewrite Hg. intros k Hk.
    rewrite cgs_set_fs_view by done. rewrite Hv'. unfold vupd.
    destruct (k =? cgx); [done|by apply Hv].
Qed.

(** A loop that edits one group step by step is a fold over it. *)
Lemma wp_mfor_cg (h : Z -> cg -> cg) (l : list Z) (Q : unit -> S -> Prop) s (f : fs) v cgx p :
  holds_at s f v cgx p -> 0 <= cgx < fs_ncg f -> cg_cgx (v cgx) = cgx ->
  (forall i c, cg_cgx (h i c) = cg_cgx c) ->
  (forall s', holds_at s' f (vupd v cgx (foldl (fun c i => h i c) (v cgx) l)) cgx p -> Q tt s') ->
  wp (mfor l (fun i => upd_cg p (h i))) Q s.
Proof.
  intros Hh Hc Hx Hhx. revert v s Hh Hx. induction l as [|i l IH]; intros v s Hh Hx HQ; simpl.
  - apply wp_ret, HQ. destruct Hh as [Hh Ho]. split; [|done].
    eapply holds_ext; [|done]. intros k _. unfold vupd. by destruct (Z.eqb_spec k cgx) as [->|].
  - apply wp_bnd. eapply wp_upd_cg; [done|done|by rewrite Hhx|]. intros s' Hh'.
    apply (IH _ s' Hh'); [by rewrite vupd_eq, Hhx|]. intros s'' Hh''. apply HQ.
    destruct Hh'' as [Hh'' Ho'']. split; [|done]. eapply holds_ext; [|done].
    intros k _. unfold vupd. rewrite Z.eqb_refl. by destruct (k =? cgx).
Qed.

Lemma wp_cache_cg (Q : option Z -> S -> Prop) s (f : fs) v cgx :
  holds s f v -> 0 <= cgx < fs_ncg f ->
  (forall p s', holds s' f v -> cgs_owns s' cgx p false ->
     (forall p' w, cgs_owns s cgx p' w -> p' = p /\ cgs_owns s' cgx p w) -> Q (Some p) s') ->
  wp (cache_cg cgx) Q s.
Proof.
  intros (Hok & Hf & Hv) Hc HQ.
  eapply wp_mono; [apply cgs_cache_cg; [done|by rewrite Hf]|].
  intros r s' (p & -> & Hok' & Hf' & Hv' & Ho & Hk). apply HQ; [|done|done].
  split; [done|]. split; [congruence|]. intros k Hr. by rewrite Hv', Hv.
Qed.

Lemma wp_cache_cg_write (Q : option Z -> S -> Prop) s (f : fs) v cgx :
  holds s f v -> 0 <= cgx < fs_ncg f ->
  (forall p s', holds_at s' f v cgx p ->
     (forall p' w, cgs_owns s cgx p' w -> p' = p) -> Q (Some p) s') ->
  wp (cache_cg_write cgx) Q s.
Proof.
  intros (Hok & Hf & Hv) Hc HQ.
  eapply wp_mono; [apply cgs_cache_cg_write; [done|by rewrite Hf]|].
  intros r s' (p & -> & Hok' & Hf' & Hv' & Ho & Hk). apply HQ; [|done].
  split; [|done]. split; [done|]. split; [congruence|]. intros k Hr. by rewrite Hv', Hv.
Qed.

Lemma holds_cgx s (f : fs) v k : holds s f v -> 0 <= k < fs_ncg f -> cg_cgx (v k) = k.
Proof.
  intros (Hok & Hf & Hv) Hk. rewrite <- (Hv k Hk). apply cgs_view_cgx; [done|by rewrite Hf].
Qed.

End Wp.
