(* ===== verification/Accounting.v ===== *)
(** The summary information of a cylinder group as weights of maximal free
    runs, and what the allocator's map updates do to it.  [wf_blocks] is the
    invariant of the whole-block tables (free block count, per cylinder and
    per rotational position counts, cluster map and cluster summary),
    [wf_frags] that of the fragment tables (free fragment count and the
    table of run sizes). *)

From S2P Require Import Prelude Bitmap Superblock Cg CgSearch Runs.

(** ** Weights *)

(** A run of [FPB] fragments within a block is a whole free block. *)
Definition w_nb (FPB r : Z) : Z := if r =? FPB then 1 else 0.
Definition w_nf (FPB r : Z) : Z := if r =? FPB then 0 else r.
Definition w_fr (k r : Z) : Z := if r =? k then 1 else 0.
(** Clusters longer than [contig] blocks count as [contig]. *)
Definition w_cl (contig k r : Z) : Z := if Z.min r contig =? k then 1 else 0.

Section Weights.
Context (g : geometry).
#[local] Abbreviation FPB := (fs_frag g).

Definition nblocks : Z := fs_fpg g / fs_frag g.

Definition blk_weight (w : Z -> Z) (map : list Z) (b : Z) : Z :=
  run_weight w (is_free map) (b * fs_frag g) (fs_frag g).

Definition group_weight (w : Z -> Z) (map : list Z) : Z :=
  zsum (blk_weight w map) (seqZ 0 nblocks).

(** Free blocks among those a position function sends to [x]. *)
Definition pos_weight (pos : Z -> Z) (map : list Z) (x : Z) : Z :=
  zsum (fun b => if pos (b * fs_frag g) =? x then blk_weight (w_nb (fs_frag g)) map b else 0)
    (seqZ 0 nblocks).

(** The index [adjust_blks_free] uses in the table of rotational positions. *)
Definition rpos_index (block : Z) : Z :=
  cbtocylno g block * fs_nrpos g + cbtorpos g block.

(** Blocks [b] and fragments [i] of the same block, as bits. *)
Definition same_outside (map map' : list Z) (k : Z) : Prop :=
  forall i, i / fs_frag g <> k -> is_free map' i = is_free map i.

Context (Hg : wf_geometry g).

Lemma nblocks_fpg : nblocks * FPB = fs_fpg g.
Proof using Hg.
  destruct (wg_fpg g Hg) as [Hp [q Hq]]. pose proof (frag_pos g Hg). unfold nblocks.
  rewrite Hq, Z.div_mul by lia. done.
Qed.

Lemma block_window b i : b * FPB <= i < b * FPB + FPB <-> i / FPB = b.
Proof using Hg.
  pose proof (frag_pos g Hg). split; intros Hi.
  - symmetry. apply (Z.div_unique _ _ _ (i - b * FPB)); lia.
  - subst b. pose proof (Z.div_mod i FPB). pose proof (Z.mod_pos_bound i FPB). lia.
Qed.

Lemma blk_weight_ext w map map' b :
  (forall i, i / FPB = b -> is_free map' i = is_free map i) ->
  blk_weight w map' b = blk_weight w map b.
Proof using Hg.
  intros He. unfold blk_weight. apply run_weight_ext. intros i Hi.
  apply He, block_window, Hi.
Qed.

Lemma group_weight_upd w map map' k :
  0 <= k < nblocks -> same_outside map map' k ->
  group_weight w map' = group_weight w map + (blk_weight w map' k - blk_weight w map k).
Proof using Hg.
  intros Hk He. apply zsum_update; [apply NoDup_seqZ|apply elem_of_seqZ; lia|].
  intros b _ Hb. apply blk_weight_ext. intros i Hi. apply He. by rewrite Hi.
Qed.

Lemma pos_weight_upd pos map map' k x :
  0 <= k < nblocks -> same_outside map map' k ->
  pos_weight pos map' x = pos_weight pos map x +
    (if pos (k * FPB) =? x
     then blk_weight (w_nb FPB) map' k - blk_weight (w_nb FPB) map k else 0).
Proof using Hg.
  intros Hk He. unfold pos_weight.
  rewrite (zsum_update
    (fun b => if pos (b * fs_frag g) =? x then blk_weight (w_nb (fs_frag g)) map b else 0)
    (fun b => if pos (b * fs_frag g) =? x then blk_weight (w_nb (fs_frag g)) map' b else 0) _ k).
  - destruct (pos (k * FPB) =? x); lia.
  - apply NoDup_seqZ.
  - apply elem_of_seqZ. lia.
  - intros b _ Hb. rewrite (blk_weight_ext _ map map'); [done|].
    intros i Hi. apply He. by rewrite Hi.
Qed.

(** A block all of whose bits agree. *)
Lemma blk_weight_full w map k :
  w 0 = 0 -> (forall i, i / FPB = k -> is_free map i = true) -> blk_weight w map k = w FPB.
Proof using Hg.
  intros Hw Hfull. pose proof (frag_pos g Hg) as HF.
  unfold blk_weight, run_weight. rewrite (bits_const _ _ _ true).
  - rewrite <- (app_nil_r (replicate _ _)), runs_true by lia. simpl.
    rewrite zsum_emit by done. f_equal. lia.
  - intros i Hi. apply Hfull, block_window, Hi.
Qed.

Lemma blk_weight_empty w map k :
  (forall i, i / FPB = k -> is_free map i = false) -> blk_weight w map k = 0.
Proof using Hg.
  intros He. unfold blk_weight, run_weight. rewrite (bits_const _ _ _ false).
  - induction (Z.to_nat (fs_frag g)); done.
  - intros i Hi. apply He, block_window, Hi.
Qed.

(** Clearing [n] fragments of a block, and setting them again. *)
Lemma blk_weight_split w map map' k s n low high :
  w 0 = 0 -> run_around (is_free map) (k * FPB) FPB s n low high ->
  (forall i, s <= i < s + n -> is_free map i = true) ->
  (forall i, is_free map' i = is_free map i && negb ((s <=? i) && (i <? s + n))) ->
  blk_weight w map' k = blk_weight w map k - w (low + n + high) + w low + w high.
Proof using Hg.
  intros Hw Hr Hset Hclr. unfold blk_weight.
  apply (run_weight_split w (is_free map) _ _ _ s); [done|done|..].
  - intros i Hi. split; [by apply Hset|]. rewrite Hclr.
    destruct (Z.leb_spec s i); [|lia]. destruct (Z.ltb_spec i (s + n)); [|lia].
    by rewrite andb_false_r.
  - intros i _ Hi. rewrite Hclr.
    destruct (Z.leb_spec s i), (Z.ltb_spec i (s + n)); [lia|..]; by rewrite andb_true_r.
Qed.

Lemma blk_weight_bounds map b :
  0 <= blk_weight (w_nb FPB) map b <= 1 /\
  0 <= blk_weight (w_nf FPB) map b <= FPB /\
  forall k, 1 <= k -> 0 <= blk_weight (w_fr k) map b <= FPB.
Proof using Hg.
  pose proof (frag_pos g Hg) as HF. repeat split.
  - apply run_weight_nonneg. intros r _. unfold w_nb. case_match; lia.
  - assert (FPB * blk_weight (w_nb FPB) map b <= FPB); [|nia].
    unfold blk_weight, run_weight.
    pose proof (run_weight_le (fun r => FPB * w_nb FPB r) (is_free map) (b * FPB) FPB ltac:(lia)) as Hle.
    unfold run_weight in Hle.
    replace (FPB * zsum (w_nb FPB) (runs (bits (is_free map) (b * FPB) FPB) 0))
      with (zsum (fun r => FPB * w_nb FPB r) (runs (bits (is_free map) (b * FPB) FPB) 0)).
    + apply Hle. intros r Hr. unfold w_nb. destruct (Z.eqb_spec r FPB); lia.
    + generalize (runs (bits (is_free map) (b * FPB) FPB) 0). intros l.
      unfold zsum. induction l as [|x l IH]; simpl; lia.
  - apply run_weight_nonneg. intros r Hr. unfold w_nf. case_match; lia.
  - apply run_weight_le; [lia|]. intros r Hr. unfold w_nf. case_match; lia.
  - apply run_weight_nonneg. intros r _. unfold w_fr. case_match; lia.
  - apply run_weight_le; [lia|]. intros r Hr. unfold w_fr. case_match; lia.
Qed.

Lemma length_blocks : Z.of_nat (length (seqZ 0 nblocks)) = nblocks.
Proof using Hg.
  rewrite length_seqZ. pose proof nblocks_fpg. pose proof (frag_pos g Hg).
  destruct (wg_fpg g Hg). nia.
Qed.

Lemma group_weight_bounds map :
  0 <= group_weight (w_nb FPB) map <= nblocks /\
  0 <= group_weight (w_nf FPB) map <= fs_fpg g /\
  forall k, 1 <= k -> 0 <= group_weight (w_fr k) map <= fs_fpg g.
Proof using Hg.
  pose proof nblocks_fpg as Hn.
  assert (forall w c, (forall b, 0 <= blk_weight w map b <= c) ->
            0 <= group_weight w map <= c * nblocks) as Hgen.
  { intros w c Hw. unfold group_weight. split.
    - apply zsum_nonneg. intros b _. apply Hw.
    - etrans; [apply zsum_le; intros b _; apply Hw|]. rewrite length_blocks. lia. }
  split; [|split].
  - pose proof (Hgen (w_nb FPB) 1) as H. rewrite Z.mul_1_l in H. apply H.
    intros b. apply blk_weight_bounds.
  - pose proof (Hgen (w_nf FPB) FPB) as H. rewrite Z.mul_comm, Hn in H. apply H.
    intros b. apply blk_weight_bounds.
  - intros k Hk. pose proof (Hgen (w_fr k) FPB) as H. rewrite Z.mul_comm, Hn in H. apply H.
    intros b. by apply blk_weight_bounds.
Qed.

Lemma pos_weight_bounds pos map x :
  0 <= pos_weight pos map x <= nblocks.
Proof using Hg.
  unfold pos_weight. split.
  - apply zsum_nonneg. intros b _. case_match; [|lia]. destruct (blk_weight_bounds map b). lia.
  - etrans; [apply (zsum_le _ _ 1)|rewrite length_blocks; lia].
    intros b _. case_match; [|lia]. destruct (blk_weight_bounds map b). lia.
Qed.

End Weights.
