(* ===== verification/Clusters.v ===== *)
(** [ffs_clusteracct] keeps the cluster summary: the bit loops count the
    free blocks on either side of a block, capped at the longest cluster the
    summary distinguishes, and the three increments are what a change of one
    bit does to the counts of maximal runs. *)

From S2P Require Import Prelude Bitmap Superblock Cg CgSearch Runs Accounting.

(** ** The loops over the cluster map *)

Lemma land7 i : Z.land i (NBBY - 1) = i mod 8.
Proof. unfold NBBY. change (8 - 1) with (Z.ones 3). by rewrite Z.land_ones. Qed.

Lemma test_bit b i : 0 <= i -> (Z.land b (Z.shiftl 1 (i mod 8)) =? 0) = negb (Z.testbit b (i mod 8)).
Proof. intros Hi. apply land_pow2_eqb, Z.mod_pos_bound. lia. Qed.

Lemma cluster_forw_count m lo hi :
  0 <= lo ->
  cluster_forw m (upto lo hi 1) (lo / 8 + 1) (zget m (lo / 8)) (Z.shiftl 1 (lo mod 8)) =
  count_while (is_free m) (upto lo hi 1).
Proof.
  remember (Z.to_nat (hi - lo)) as n eqn:Hn. revert lo Hn.
  induction n as [|n IH]; intros lo Hn Hlo; [by rewrite upto_nil by lia|].
  rewrite upto_cons by lia. cbn [cluster_forw count_while].
  rewrite test_bit by done. fold (is_free m lo). destruct (is_free m lo) eqn:E; [cbn [negb]|done].
  rewrite <- (IH (lo + 1)) by lia. rewrite land7. change (NBBY - 1) with 7.
  destruct (Z.eqb_spec (lo mod 8) 7) as [H7|H7]; cbn [negb]; do 2 f_equal.
  - dlia.
  - by replace ((lo + 1) / 8) with (lo / 8 + 1) by dlia.
  - by replace ((lo + 1) mod 8) with 0 by dlia.
  - dlia.
  - by replace ((lo + 1) / 8) with (lo / 8) by dlia.
  - replace ((lo + 1) mod 8) with (lo mod 8 + 1) by dlia.
    pose proof (Z.mod_pos_bound lo 8). by rewrite Z.shiftl_shiftl by lia.
Qed.

Lemma cluster_back_count m hi lo :
  0 <= lo -> 0 <= hi ->
  cluster_back m (downto hi lo 1) (hi / 8 - 1) (zget m (hi / 8)) (Z.shiftl 1 (hi mod 8)) =
  count_while (is_free m) (downto hi lo 1).
Proof.
  remember (Z.to_nat (hi + 1 - lo)) as n eqn:Hn. revert hi Hn.
  induction n as [|n IH]; intros hi Hn Hlo Hhi; [by rewrite downto_nil by lia|].
  rewrite downto_cons by lia. cbn [cluster_back count_while].
  rewrite test_bit by done. fold (is_free m hi). destruct (is_free m hi) eqn:E; [cbn [negb]|done].
  destruct (Z.ltb_spec (hi - 1) 0) as [H0|H0].
  { rewrite (downto_nil (hi - 1)) by lia. cbn. by repeat case_match. }
  rewrite <- (IH (hi - 1)) by lia. rewrite land7. change (NBBY - 1) with 7.
  destruct (Z.eqb_spec (hi mod 8) 0) as [H7|H7]; cbn [negb]; do 2 f_equal.
  - dlia.
  - by replace ((hi - 1) / 8) with (hi / 8 - 1) by dlia.
  - by replace ((hi - 1) mod 8) with 7 by dlia.
  - dlia.
  - by replace ((hi - 1) / 8) with (hi / 8) by dlia.
  - replace ((hi - 1) mod 8) with (hi mod 8 - 1) by dlia.
    pose proof (Z.mod_pos_bound hi 8). by rewrite Z.shiftr_shiftl_l by lia.
Qed.

(** ** The summary of one group *)

Record wf_clusters (g : geometry) (c : cg) : Prop := {
  wcl_n : cg_nclusterblks c = cg_ndblk c / fs_frag g;
  wcl_len : cg_nclusterblks c <= 8 * zlen (cg_clustersfree c);
  wcl_sumlen : fs_contigsumsize g < zlen (cg_clustersum c);
  wcl_free : forall b, 0 <= b < cg_nclusterblks c ->
    is_free (cg_clustersfree c) b = block_avail (fs_frag g) (cg_blksfree c) (b * fs_frag g);
  wcl_sum : forall k, 1 <= k <= fs_contigsumsize g ->
    zget (cg_clustersum c) k =
    run_weight (w_cl (fs_contigsumsize g) k) (is_free (cg_clustersfree c)) 0 (cg_nclusterblks c) }.

Section Acct.
Context (g : geometry) (c : cg).
#[local] Abbreviation S := (fs_contigsumsize g).
#[local] Abbreviation ncl := (cg_nclusterblks c).

(** The two capped counts of [ffs_clusteracct] around block [b]. *)
Definition clusters_forw (m : list Z) (b : Z) : Z :=
  Z.min (count_while (is_free m) (upto (b + 1) ncl 1)) S.
Definition clusters_back (m : list Z) (b : Z) : Z :=
  Z.min (count_while (is_free m) (downto (b - 1) 0 1)) S.

Lemma clusters_forw_eq m b :
  0 <= b < ncl -> 0 < S ->
  cluster_forw m (upto (b + 1) (if ncl <=? b + 1 + S then ncl else b + 1 + S) 1)
    (Z.quot (b + 1) NBBY + 1) (zget m (Z.quot (b + 1) NBBY))
    (Z.shiftl 1 (Z.rem (b + 1) NBBY)) = clusters_forw m b.
Proof.
  intros Hb HS. unfold NBBY. rewrite Z.quot_div_nonneg, Z.rem_mod_nonneg by lia.
  rewrite cluster_forw_count by lia. unfold clusters_forw.
  rewrite <- count_up_capped by lia. do 2 f_equal. destruct (Z.leb_spec ncl (b + 1 + S)); lia.
Qed.

Lemma clusters_back_eq m b :
  0 <= b < ncl -> 0 < S ->
  cluster_back m (downto (b - 1) ((if b - 1 - S <? 0 then -1 else b - 1 - S) + 1) 1)
    (Z.quot (b - 1) NBBY - 1) (zget m (Z.quot (b - 1) NBBY))
    (Z.shiftl 1 (Z.rem (b - 1) NBBY)) = clusters_back m b.
Proof.
  intros Hb HS. unfold clusters_back. destruct (Z.eqb_spec b 0) as [->|].
  { rewrite !downto_nil by (try case_match; lia). cbn. lia. }
  unfold NBBY. rewrite Z.quot_div_nonneg, Z.rem_mod_nonneg by lia.
  rewrite cluster_back_count by (try destruct (Z.ltb_spec (b - 1 - S) 0); lia).
  rewrite <- count_down_capped by lia. do 2 f_equal.
  destruct (Z.ltb_spec (b - 1 - S) 0); lia.
Qed.

Context (Hs : 0 < S).

(** [ffs_clusteracct] in terms of the counts. *)
Lemma ffs_clusteracct_eq x b a :
  fragstoblks g x = b -> 0 <= b < ncl ->
  ffs_clusteracct g c x a =
  let m := if 0 <? a then bit_set (cg_clustersfree c) b else bit_clr (cg_clustersfree c) b in
  let forw := clusters_forw m b in
  let back := clusters_back m b in
  let sum := tally (cg_clustersum c) (Z.min (back + forw + 1) S) a in
  let sum := if 0 <? back then tally sum back (- a) else sum in
  let sum := if 0 <? forw then tally sum forw (- a) else sum in
  set_clusters c sum m.
Proof using Hs.
  intros Hx Hb. unfold ffs_clusteracct. rewrite Hx. destruct (Z.leb_spec S 0); [lia|].
  cbv zeta. rewrite clusters_forw_eq, clusters_back_eq by done. unfold tally.
  set (m := if 0 <? a then _ else _).
  replace (if S <? clusters_back m b + clusters_forw m b + 1 then S
           else clusters_back m b + clusters_forw m b + 1)
    with (Z.min (clusters_back m b + clusters_forw m b + 1) S); [done|].
  destruct (Z.ltb_spec S (clusters_back m b + clusters_forw m b + 1)); lia.
Qed.

Lemma clusters_bounds m b :
  0 <= b < ncl -> 0 <= clusters_forw m b <= S /\ 0 <= clusters_back m b <= S.
Proof using Hs.
  intros Hb. unfold clusters_forw, clusters_back.
  pose proof (count_while_up (is_free m) (b + 1) ncl ltac:(lia)) as (H1 & _).
  pose proof (count_while_down (is_free m) (b - 1) 0 ltac:(lia)) as (H2 & _). lia.
Qed.

(** What a change of bit [b] does to the number of runs of size [k]. *)
Lemma clusters_weight m m' b k :
  0 <= b < ncl -> 1 <= k <= S ->
  is_free m b = true ->
  (forall i, is_free m' i = is_free m i && negb (i =? b)) ->
  run_weight (w_cl S k) (is_free m') 0 ncl =
  run_weight (w_cl S k) (is_free m) 0 ncl
    - (if Z.min (clusters_back m b + clusters_forw m b + 1) S =? k then 1 else 0)
    + (if clusters_back m b =? k then 1 else 0)
    + (if clusters_forw m b =? k then 1 else 0).
Proof using Hs.
  intros Hb Hk Hset Hclr.
  pose proof (run_around_exists (is_free m) 0 ncl b 1 ltac:(lia) ltac:(lia) ltac:(lia)) as Hr.
  rewrite Z.add_0_l in Hr.
  rewrite (run_weight_split (w_cl S k) _ (is_free m') _ _ b 1 _ _) by
    first [exact Hr
      | unfold w_cl; destruct (Z.eqb_spec (Z.min 0 S) k); lia
      | intros i Hi; rewrite Hclr; replace i with b by lia; by rewrite Hset, Z.eqb_refl
      | intros i _ Hi; rewrite Hclr, (proj2 (Z.eqb_neq i b)) by lia; by rewrite andb_true_r].
  destruct Hr as [_ [Hl0 Hl] [Hh0 Hh] _ _ _ _].
  unfold clusters_back, clusters_forw, w_cl.
  replace (Z.min (count_while (is_free m) (downto (b - 1) 0 1) + 1 +
                  count_while (is_free m) (upto (b + 1) ncl 1)) S)
    with (Z.min (Z.min (count_while (is_free m) (downto (b - 1) 0 1)) S +
                 Z.min (count_while (is_free m) (upto (b + 1) ncl 1)) S + 1) S) by lia. done.
Qed.

(** The counts do not see the bit they are taken around. *)
Lemma clusters_same m m' b :
  0 <= b < ncl -> (forall i, i <> b -> is_free m' i = is_free m i) ->
  clusters_forw m' b = clusters_forw m b /\ clusters_back m' b = clusters_back m b.
Proof using Type.
  intros Hb He. unfold clusters_forw, clusters_back.
  split; f_equal; apply count_while_ext; intros i Hi; apply He.
  - apply elem_of_upto in Hi as (k & ? & -> & ?); lia.
  - apply elem_of_downto in Hi as (k & ? & -> & ?); lia.
Qed.

End Acct.

(** The three increments, as one equation for entry [k]. *)
Lemma cluster_sum_entry sum S back forw a k X :
  S < zlen sum -> 0 <= back <= S -> 0 <= forw <= S -> 1 <= k <= S ->
  zget sum k = s32 X ->
  zget
    (let sum := tally sum (Z.min (back + forw + 1) S) a in
     let sum := if 0 <? back then tally sum back (- a) else sum in
     if 0 <? forw then tally sum forw (- a) else sum) k =
  s32 (X + a * ((if Z.min (back + forw + 1) S =? k then 1 else 0)
                - (if back =? k then 1 else 0) - (if forw =? k then 1 else 0))).
Proof.
  intros HS Hb Hf Hk HX. cbv zeta.
  assert (forall l i x Y, zlen l = zlen sum -> 0 <= i <= S -> zget l k = s32 Y ->
            zget (if 0 <? i then tally l i x else l) k = s32 (Y + if i =? k then x else 0)) as Hstep.
  { intros l i x Y Hl Hi HY. destruct (Z.ltb_spec 0 i); [apply zget_tally; [lia|done]|].
    destruct (Z.eqb_spec i k); [lia|]. by rewrite Z.add_0_r. }
  erewrite Hstep; [|by case_match; rewrite ?zlen_tally|lia|].
  2: { apply Hstep; [by rewrite zlen_tally|lia|]. apply zget_tally; [lia|exact HX]. }
  f_equal. destruct (_ =? k), (back =? k), (forw =? k); lia.
Qed.

Lemma run_weight_cl_bounds S k f n :
  1 <= k -> 0 <= S -> 0 <= n -> 0 <= run_weight (w_cl S k) f 0 n <= n.
Proof.
  intros Hk HS Hn. split.
  - apply run_weight_nonneg. intros r _. unfold w_cl. case_match; lia.
  - apply run_weight_le; [done|]. intros r Hr. unfold w_cl. case_match; lia.
Qed.

Section Preserve.
Context (g : geometry) (Hg : wf_geometry g) (HS : 0 < fs_contigsumsize g).
#[local] Abbreviation S := (fs_contigsumsize g).

(** Block [b] of the map changed from not free to free ([a = 1]) or back
    ([a = -1]), the other blocks unchanged. *)
Record block_flipped (map map' : list Z) (b a : Z) : Prop := {
  bf_sign : a = 1 \/ a = -1;
  bf_old : block_avail (fs_frag g) map (b * fs_frag g) = negb (0 <? a);
  bf_new : block_avail (fs_frag g) map' (b * fs_frag g) = (0 <? a);
  bf_other : forall k, k <> b ->
    block_avail (fs_frag g) map' (k * fs_frag g) = block_avail (fs_frag g) map (k * fs_frag g) }.

(** The weight of every cluster size after the bit of [b] changed. *)
Lemma cluster_weight_flip c b a m k :
  cg_nclusterblks c <= 8 * zlen (cg_clustersfree c) ->
  0 <= b < cg_nclusterblks c -> a = 1 \/ a = -1 -> 1 <= k <= S ->
  m = (if 0 <? a then bit_set (cg_clustersfree c) b else bit_clr (cg_clustersfree c) b) ->
  is_free (cg_clustersfree c) b = negb (0 <? a) ->
  (forall i, is_free m i = if i =? b then 0 <? a else is_free (cg_clustersfree c) i) /\
  run_weight (w_cl S k) (is_free m) 0 (cg_nclusterblks c) =
  run_weight (w_cl S k) (is_free (cg_clustersfree c)) 0 (cg_nclusterblks c)
  + a * ((if Z.min (clusters_back g m b + clusters_forw g c m b + 1) S =? k then 1 else 0)
         - (if clusters_back g m b =? k then 1 else 0)
         - (if clusters_forw g c m b =? k then 1 else 0)).
Proof using HS.
  intros Hlen Hb Ha Hk Hm Hold.
  assert (in_map (cg_clustersfree c) b) as Hin by (unfold in_map; lia).
  assert (forall i, is_free m i = if i =? b then 0 <? a else is_free (cg_clustersfree c) i) as Hbits.
  { intros i. rewrite Hm. destruct Ha as [-> | ->]; cbn [Z.ltb Z.compare].
    - rewrite bit_set_free by done. by destruct (i =? b).
    - rewrite bit_clr_free by done. by destruct (i =? b). }
  split; [done|]. clear Hm.
  assert (forall i, i <> b -> is_free m i = is_free (cg_clustersfree c) i) as Hsame.
  { intros i Hi. by rewrite Hbits, (proj2 (Z.eqb_neq i b)). }
  destruct Ha as [-> | ->]; cbn [Z.ltb Z.compare negb] in *.
  - rewrite (clusters_weight g c HS m (cg_clustersfree c) b k); [lia|done|done|..].
    + by rewrite Hbits, Z.eqb_refl.
    + intros i. rewrite Hbits. destruct (Z.eqb_spec i b) as [->|]; [by rewrite Hold|].
      by rewrite andb_true_r.
  - destruct (clusters_same g c m (cg_clustersfree c) b Hb) as [Hf Hbk].
    { intros i Hi. symmetry. by apply Hsame. }
    rewrite <- Hf, <- Hbk.
    rewrite (clusters_weight g c HS (cg_clustersfree c) m b k); [lia|done|done|done|].
    intros i. rewrite Hbits. destruct (Z.eqb_spec i b) as [->|]; [by rewrite andb_false_r|].
    by rewrite andb_true_r.
Qed.

Lemma ffs_clusteracct_wf c map b a :
  cg_nclusterblks c < 2 ^ 31 -> 0 <= b < cg_nclusterblks c ->
  block_flipped map (cg_blksfree c) b a ->
  wf_clusters g (set_blksfree c map) ->
  wf_clusters g (ffs_clusteracct g c (b * fs_frag g) a).
Proof using HS Hg.
  intros Hn Hb [Ha Hold Hnew Hoth] [Wn Wlen Wsl Wfree Wsum].
  cbn [set_blksfree cg_nclusterblks cg_clustersfree cg_clustersum cg_blksfree cg_ndblk] in *.
  rewrite (ffs_clusteracct_eq g c HS (b * fs_frag g) b a); [|rewrite fragstoblks_eq, Z.div_mul by (pose proof (frag_pos g Hg); done || lia); done|done].
  cbv zeta. set (m := if 0 <? a then _ else _).
  assert (zlen m = zlen (cg_clustersfree c)) as Hml
    by (unfold m; case_match; [apply zlen_bit_set|apply zlen_bit_clr]).
  pose proof (fun k Hk => cluster_weight_flip c b a m k Wlen Hb Ha Hk eq_refl
    ltac:(by rewrite Wfree)) as Hflip.
  destruct (clusters_bounds g c HS m b Hb) as [Hfb Hbb].
  constructor; cbn [set_clusters cg_nclusterblks cg_clustersfree cg_clustersum cg_blksfree cg_ndblk].
  - done.
  - by rewrite Hml.
  - by repeat (case_match; rewrite ?zlen_tally).
  - intros k Hk. destruct (Hflip 1 ltac:(lia)) as [Hbits _]. rewrite Hbits.
    destruct (Z.eqb_spec k b) as [->|Hne]; [by rewrite Hnew|]. by rewrite Hoth, Wfree.
  - intros k Hk. destruct (Hflip k Hk) as [_ Hw].
    pose proof (run_weight_cl_bounds S k (is_free (cg_clustersfree c)) (cg_nclusterblks c)
      ltac:(lia) ltac:(lia) ltac:(lia)).
    pose proof (run_weight_cl_bounds S k (is_free m) (cg_nclusterblks c)
      ltac:(lia) ltac:(lia) ltac:(lia)).
    rewrite (cluster_sum_entry _ S _ _ a k
      (run_weight (w_cl S k) (is_free (cg_clustersfree c)) 0 (cg_nclusterblks c)));
      [|lia|lia|lia|lia|].
    + rewrite <- Hw. apply s32_small. unfold in_s32. zify_pow. lia.
    + rewrite Wsum by done. symmetry. apply s32_small. unfold in_s32. zify_pow. lia.
Qed.

End Preserve.
