(* ===== verification/Summary.v ===== *)
(** The invariant of a cylinder group and of the totals, and its
    preservation by the steps the allocator is made of.  [wf_blocks] covers
    what counts whole blocks, [wf_frags] what counts fragments; the
    allocator breaks and restores the second while it relies on the first. *)

From S2P Require Import Prelude Bitmap Superblock Cg CgSearch Runs Accounting Clusters.

(** ** Blocks of the map *)

(** The weight of a block as a free block is the availability test. *)
Lemma blk_weight_nb g map b :
  wf_geometry g -> Forall byte map ->
  blk_weight g (w_nb (fs_frag g)) map b =
  if block_avail (fs_frag g) map (b * fs_frag g) then 1 else 0.
Proof.
  intros Hg Hb. pose proof (frag_pos g Hg) as HF. pose proof (wg_frag g Hg) as HV.
  destruct (block_avail _ _ _) eqn:E.
  - pose proof E as Hav. rewrite block_avail_free, Z.div_mul in Hav by (done || lia).
    rewrite (blk_weight_full g Hg _ map b); [|unfold w_nb; case_match; lia|done].
    unfold w_nb. by rewrite Z.eqb_refl.
  - destruct (blk_weight_bounds g Hg map b) as [Hbd _].
    destruct (Z.eqb_spec (blk_weight g (w_nb (fs_frag g)) map b) 0) as [|Hne]; [done|exfalso].
    unfold blk_weight, run_weight in *.
    destruct (zsum_exists (w_nb (fs_frag g)) (runs (bits (is_free map) (b * fs_frag g) (fs_frag g)) 0))
      as (r & Hr & Hw); [lia|].
    unfold w_nb in Hw. destruct (Z.eqb_spec r (fs_frag g)) as [->|]; [|lia].
    assert (block_avail (fs_frag g) map (b * fs_frag g) = true) as Ht; [|congruence].
    apply block_avail_free; [done|done|]. rewrite Z.div_mul by lia. intros i Hi.
    apply (run_full (is_free map) (b * fs_frag g) (fs_frag g) (fs_frag g)); [lia|done|lia|].
    by apply block_window.
Qed.

(** ** The invariant of one group *)

Record wf_blocks (g : geometry) (c : cg) : Prop := {
  wb_map : wf_map c;
  wb_ndblk : cg_ndblk c <= fs_fpg g;
  wb_nbfree : cs_nbfree (cg_cs c) = group_weight g (w_nb (fs_frag g)) (cg_blksfree c);
  wb_pos : forall b, 0 <= b < cg_ndblk c ->
    0 <= cbtocylno g b < zlen (cg_blktot c) /\ 0 <= rpos_index g b < zlen (cg_blks c);
  wb_blktot : forall x, 0 <= x < zlen (cg_blktot c) ->
    zget (cg_blktot c) x = pos_weight g (cbtocylno g) (cg_blksfree c) x;
  wb_blks : forall x, 0 <= x < zlen (cg_blks c) ->
    zget (cg_blks c) x = s16 (pos_weight g (rpos_index g) (cg_blksfree c) x);
  wb_clusters : 0 < fs_contigsumsize g -> wf_clusters g c }.

Record wf_frags (g : geometry) (c : cg) : Prop := {
  wf_frsum_len : zlen (cg_frsum c) = 8;
  wf_nffree : cs_nffree (cg_cs c) = group_weight g (w_nf (fs_frag g)) (cg_blksfree c);
  wf_frsum : forall k, 1 <= k < fs_frag g ->
    zget (cg_frsum c) k = group_weight g (w_fr k) (cg_blksfree c) }.

(** A block of the group: whole, aligned, inside. *)
Definition group_block (g : geometry) (c : cg) (b : Z) : Prop :=
  0 <= b /\ (b + 1) * fs_frag g <= cg_ndblk c.

Section Group.
Context (g : geometry) (Hg : wf_geometry g).
#[local] Abbreviation FPB := (fs_frag g).

Lemma group_block_in_map c b i :
  wf_map c -> group_block g c b -> i / FPB = b -> in_map (cg_blksfree c) i /\ 0 <= i < cg_ndblk c.
Proof using Hg.
  intros Hw [Hb Hi] Hd. pose proof (frag_pos g Hg). pose proof (wm_len c Hw).
  apply block_window in Hd; [|done]. unfold in_map. nia.
Qed.

Lemma group_block_range c b :
  wf_blocks g c -> group_block g c b -> 0 <= b < nblocks g.
Proof using Hg.
  intros Hw [Hb Hi]. pose proof (wb_ndblk g c Hw). pose proof (nblocks_fpg g Hg).
  pose proof (frag_pos g Hg). nia.
Qed.

Lemma group_block_cluster c b :
  wf_clusters g c -> group_block g c b -> 0 <= b < cg_nclusterblks c.
Proof using Hg.
  intros Hw [Hb Hi]. rewrite (wcl_n g c Hw). pose proof (frag_pos g Hg). split; [done|].
  assert (b + 1 <= cg_ndblk c / FPB); [|lia]. apply Z.div_le_lower_bound; lia.
Qed.

Lemma ncluster_small c : wf_blocks g c -> wf_clusters g c -> cg_nclusterblks c < 2 ^ 31.
Proof using Hg.
  intros Hw Hc. rewrite (wcl_n g c Hc). pose proof (wb_ndblk g c Hw). pose proof (frag_pos g Hg).
  pose proof (group_bound g Hg 0 ltac:(pose proof (wg_ncg g Hg); lia)).
  pose proof (wm_len c (wb_map g c Hw)). apply Z.div_lt_upper_bound; nia.
Qed.

Lemma avail_false map x i :
  Forall byte map -> i / FPB = x -> is_free map i = false -> block_avail FPB map (x * FPB) = false.
Proof using Hg.
  intros Hb Hi Hf. pose proof (frag_pos g Hg). apply not_true_iff_false.
  rewrite block_avail_free, Z.div_mul by (done || lia || apply Hg). intros Ht.
  rewrite (Ht i Hi) in Hf. done.
Qed.

Lemma avail_ext map map' x :
  Forall byte map -> Forall byte map' ->
  (forall i, i / FPB = x -> is_free map' i = is_free map i) ->
  block_avail FPB map' (x * FPB) = block_avail FPB map (x * FPB).
Proof using Hg.
  intros Hb Hb' He. pose proof (frag_pos g Hg). apply eq_true_iff_eq.
  rewrite !block_avail_free, Z.div_mul by (done || lia || apply Hg).
  split; intros Ht i Hi; [rewrite <- He|rewrite He]; auto.
Qed.

(** Maps with the same free blocks have the same block counts. *)
Lemma wf_blocks_map c map' :
  wf_blocks g c -> wf_map (set_blksfree c map') ->
  (forall b, block_avail FPB map' (b * FPB) = block_avail FPB (cg_blksfree c) (b * FPB)) ->
  wf_blocks g (set_blksfree c map').
Proof using Hg.
  intros Hw Hm Hav.
  assert (forall b, blk_weight g (w_nb FPB) map' b = blk_weight g (w_nb FPB) (cg_blksfree c) b) as Hbw.
  { intros b. rewrite !blk_weight_nb by (done || apply (wb_map g c Hw) || apply Hm). by rewrite Hav. }
  assert (forall pos x, pos_weight g pos map' x = pos_weight g pos (cg_blksfree c) x) as Hpw.
  { intros pos x. apply zsum_ext. intros b _. by rewrite Hbw. }
  destruct Hw as [W1 W2 W3 W4 W5 W6 W7]. constructor; cbn in *; try done.
  - rewrite W3. apply zsum_ext. intros b _. by rewrite Hbw.
  - intros x Hx. by rewrite Hpw, W5.
  - intros x Hx. by rewrite Hpw, W6.
  - intros HS. destruct (W7 HS) as [V1 V2 V3 V4 V5]. constructor; cbn in *; try done.
    intros b Hb. by rewrite Hav, V4.
Qed.

(** Fields the block counts do not read. *)
Lemma wf_blocks_ext c c' :
  cg_ndblk c' = cg_ndblk c -> cs_nbfree (cg_cs c') = cs_nbfree (cg_cs c) ->
  cg_blktot c' = cg_blktot c -> cg_blks c' = cg_blks c -> cg_blksfree c' = cg_blksfree c ->
  cg_clustersum c' = cg_clustersum c -> cg_clustersfree c' = cg_clustersfree c ->
  cg_nclusterblks c' = cg_nclusterblks c ->
  wf_blocks g c -> wf_blocks g c'.
Proof using Type.
  intros E1 E2 E3 E4 E5 E6 E7 E8 [[M1 M2 M3] W2 W3 W4 W5 W6 W7].
  constructor; rewrite ?E1, ?E2, ?E3, ?E4, ?E5 in *; try done.
  - constructor; rewrite ?E1, ?E5; done.
  - intros HS. destruct (W7 HS) as [V1 V2 V3 V4 V5].
    constructor; rewrite ?E1, ?E5, ?E6, ?E7, ?E8 in *; done.
Qed.

Lemma wf_frags_ext c c' :
  cs_nffree (cg_cs c') = cs_nffree (cg_cs c) -> cg_frsum c' = cg_frsum c ->
  cg_blksfree c' = cg_blksfree c -> wf_frags g c -> wf_frags g c'.
Proof using Type. intros E1 E2 E3 [W1 W2 W3]. constructor; rewrite ?E1, ?E2, ?E3; done. Qed.

(** ** A whole block taken or given back *)

(** The group part of [adjust_blks_free]. *)
Definition adjust_blks (c : cg) (block adjust : Z) : cg :=
  set_cs (set_blktot (set_blks c
    (zset (cg_blks c) (rpos_index g block) (s16 (zget (cg_blks c) (rpos_index g block) + adjust))))
    (tally (cg_blktot c) (cbtocylno g block) adjust))
    (csum_add_nbfree (cg_cs c) adjust).

Lemma adjust_blks_eq (f : fs) c cgx block adjust :
  fs_geo f = g -> (adjust_blks_free f c cgx block adjust).2 = adjust_blks c block adjust.
Proof using Type.
  intros E. unfold adjust_blks_free, adjust_blks, rpos_index, tally. by rewrite <- E.
Qed.

Definition block_step (c : cg) (map' : list Z) (block adjust : Z) : cg :=
  ffs_clusteracct g (adjust_blks (set_blksfree c map') block adjust) block adjust.

Lemma block_flip_weights c map' b a :
  wf_blocks g c -> wf_map (set_blksfree c map') -> group_block g c b ->
  block_flipped g (cg_blksfree c) map' b a ->
  group_weight g (w_nb FPB) map' = group_weight g (w_nb FPB) (cg_blksfree c) + a /\
  forall pos x, pos_weight g pos map' x =
    pos_weight g pos (cg_blksfree c) x + if pos (b * FPB) =? x then a else 0.
Proof using Hg.
  intros Hw Hm Hgb [Ha Hold Hnew Hoth].
  assert (forall k, blk_weight g (w_nb FPB) map' k =
            blk_weight g (w_nb FPB) (cg_blksfree c) k + if k =? b then a else 0) as Hbw.
  { intros k. rewrite !blk_weight_nb by (done || apply (wb_map g c Hw) || apply Hm).
    destruct (Z.eqb_spec k b) as [->|Hne].
    - rewrite Hold, Hnew. by destruct Ha as [-> | ->].
    - rewrite Hoth by done. lia. }
  pose proof (group_block_range c b Hw Hgb) as Hr. split.
  - unfold group_weight. rewrite (zsum_update (blk_weight g (w_nb FPB) (cg_blksfree c))
      (blk_weight g (w_nb FPB) map') _ b (NoDup_seqZ _ _)).
    + rewrite Hbw, Z.eqb_refl. lia.
    + apply elem_of_seqZ. lia.
    + intros k _ Hne. rewrite Hbw, (proj2 (Z.eqb_neq k b)) by done. lia.
  - intros pos x. unfold pos_weight.
    rewrite (zsum_update
      (fun k => if pos (k * FPB) =? x then blk_weight g (w_nb FPB) (cg_blksfree c) k else 0)
      (fun k => if pos (k * FPB) =? x then blk_weight g (w_nb FPB) map' k else 0)
      _ b (NoDup_seqZ _ _)).
    + rewrite Hbw, Z.eqb_refl. case_match; lia.
    + apply elem_of_seqZ. lia.
    + intros k _ Hne. rewrite Hbw, (proj2 (Z.eqb_neq k b)) by done. case_match; lia.
Qed.

Lemma clusteracct_fields c x a :
  let c' := ffs_clusteracct g c x a in
  cg_cgx c' = cg_cgx c /\ cg_ndblk c' = cg_ndblk c /\ cg_cs c' = cg_cs c /\
  cg_blktot c' = cg_blktot c /\ cg_blks c' = cg_blks c /\ cg_blksfree c' = cg_blksfree c /\
  cg_frsum c' = cg_frsum c /\ cg_inosused c' = cg_inosused c /\ cg_niblk c' = cg_niblk c /\
  cg_irotor c' = cg_irotor c.
Proof using Type. unfold ffs_clusteracct. by case_match. Qed.

Lemma nblocks_bound : 0 <= nblocks g <= fs_fpg g /\ fs_fpg g < 2 ^ 31.
Proof using Hg.
  pose proof (nblocks_fpg g Hg). pose proof (frag_pos g Hg). destruct (wg_fpg g Hg) as [Hp _].
  pose proof (group_bound g Hg 0 ltac:(pose proof (wg_ncg g Hg); lia)). nia.
Qed.

Lemma block_step_wf c map' b a :
  wf_blocks g c -> wf_map (set_blksfree c map') -> group_block g c b ->
  block_flipped g (cg_blksfree c) map' b a ->
  wf_blocks g (block_step c map' (b * FPB) a).
Proof using Hg.
  intros Hw Hm Hgb Hfl. destruct (block_flip_weights c map' b a Hw Hm Hgb Hfl) as [Hnb Hpos].
  pose proof nblocks_bound as [Hn1 Hn2]. pose proof (frag_pos g Hg) as HF.
  destruct (clusteracct_fields (adjust_blks (set_blksfree c map') (b * FPB) a) (b * FPB) a)
    as (_ & E1 & E2 & E3 & E4 & E5 & _).
  assert (0 <= b * FPB < cg_ndblk c) as Hb by (destruct Hgb; nia).
  pose proof Hw as [W1 W2 W3 W4 W5 W6 W7]. destruct (W4 _ Hb) as [Hcyl Hrp].
  destruct (group_weight_bounds g Hg map') as [Hgb' _].
  unfold block_step. constructor; rewrite ?E1, ?E2, ?E3, ?E4, ?E5; cbn -[Z.mul] in *.
  - destruct Hm as [M1 M2 M3]. cbn in *. constructor; rewrite ?E1, ?E5; done.
  - done.
  - rewrite W3, <- Hnb. apply s32_small. unfold in_s32. zify_pow. lia.
  - intros x Hx. rewrite zlen_tally, zlen_zset. by apply W4.
  - intros x Hx. rewrite zlen_tally in Hx.
    pose proof (pos_weight_bounds g Hg (cbtocylno g) map' x).
    pose proof (pos_weight_bounds g Hg (cbtocylno g) (cg_blksfree c) x).
    rewrite (zget_tally _ _ _ _ (pos_weight g (cbtocylno g) (cg_blksfree c) x)); [|done|].
    + rewrite <- Hpos. apply s32_small. unfold in_s32. zify_pow. lia.
    + rewrite W5 by done. symmetry. apply s32_small. unfold in_s32. zify_pow. lia.
  - intros x Hx. rewrite zlen_zset in Hx. rewrite zget_zset by done. rewrite Hpos.
    destruct (Z.eqb_spec (rpos_index g (b * FPB)) x) as [Hx'|Hx'].
    + rewrite Hx', W6 by done. apply s16_add.
    + by rewrite Z.add_0_r, W6.
  - intros HS. apply (ffs_clusteracct_wf g Hg HS _ (cg_blksfree c)).
    + by apply (ncluster_small c Hw), W7.
    + apply (group_block_cluster c b (W7 HS) Hgb).
    + done.
    + destruct (W7 HS) as [V1 V2 V3 V4 V5]. by constructor.
Qed.

(** [block_alloc] and [block_dealloc] flip exactly their block. *)
Lemma block_alloc_flips c b :
  wf_map c -> group_block g c b -> block_avail FPB (cg_blksfree c) (b * FPB) = true ->
  wf_map (set_blksfree c (block_alloc FPB (cg_blksfree c) (b * FPB))) /\
  block_flipped g (cg_blksfree c) (block_alloc FPB (cg_blksfree c) (b * FPB)) b (-1).
Proof using Hg.
  intros Hw Hgb Hav. pose proof (frag_pos g Hg) as HF. pose proof (wg_frag g Hg) as HV.
  pose proof Hw as [M1 M2 M3].
  assert (in_map (cg_blksfree c) (b * FPB)) as Hin.
  { apply (group_block_in_map c b (b * FPB) Hw Hgb). apply Z.div_mul. lia. }
  split; [constructor; cbn|constructor]; rewrite ?zlen_block_alloc; auto.
  - by apply bytes_block_alloc.
  - intros i Hi. rewrite block_alloc_free by done. rewrite M3 by done. by rewrite andb_false_r.
  - change (0 <? -1) with false. apply not_true_iff_false. rewrite block_avail_free by auto using bytes_block_alloc.
    intros H. specialize (H (b * FPB) eq_refl).
    by rewrite block_alloc_free, Z.eqb_refl in H by done.
  - intros k Hk. apply eq_true_iff_eq.
    rewrite !block_avail_free by auto using bytes_block_alloc. rewrite !Z.div_mul by lia.
    split; intros H i Hi; specialize (H i Hi); rewrite block_alloc_free, Z.div_mul in * by (done || lia);
      rewrite Hi, (proj2 (Z.eqb_neq k b)) in * by done; done.
Qed.

Lemma block_dealloc_flips c b :
  wf_map c -> group_block g c b -> block_avail FPB (cg_blksfree c) (b * FPB) = false ->
  wf_map (set_blksfree c (block_dealloc FPB (cg_blksfree c) (b * FPB))) /\
  block_flipped g (cg_blksfree c) (block_dealloc FPB (cg_blksfree c) (b * FPB)) b 1.
Proof using Hg.
  intros Hw Hgb Hav. pose proof (frag_pos g Hg) as HF. pose proof (wg_frag g Hg) as HV.
  pose proof Hw as [M1 M2 M3].
  assert (in_map (cg_blksfree c) (b * FPB)) as Hin.
  { apply (group_block_in_map c b (b * FPB) Hw Hgb). apply Z.div_mul. lia. }
  split; [constructor; cbn|constructor]; rewrite ?zlen_block_dealloc; auto.
  - by apply bytes_block_dealloc.
  - intros i Hi. rewrite block_dealloc_free, Z.div_mul by (done || lia). rewrite M3 by done.
    rewrite orb_false_r. apply Z.eqb_neq. intros Hd.
    destruct (group_block_in_map c b i Hw Hgb Hd). lia.
  - change (0 <? 1) with true. apply block_avail_free; [done|by apply bytes_block_dealloc|].
    intros i Hi. by rewrite block_dealloc_free, Hi, Z.eqb_refl by done.
  - intros k Hk. apply eq_true_iff_eq.
    rewrite !block_avail_free by auto using bytes_block_dealloc. rewrite !Z.div_mul by lia.
    split; intros H i Hi; specialize (H i Hi); rewrite block_dealloc_free, Z.div_mul in * by (done || lia);
      rewrite Hi, (proj2 (Z.eqb_neq k b)) in * by done; done.
Qed.

End Group.
