(* ===== verification/FragSummary.v ===== *)
(** The fragment tables under the steps of [frags_allocate] and
    [frags_deallocate], and the superblock totals under every adjustment. *)

From S2P Require Import Prelude Bitmap Superblock Cg CgSearch Runs Accounting Summary.

(** ** Bits set and cleared by a loop *)

Definition clr_bits (map : list Z) (l : list Z) : list Z := foldl bit_clr map l.
Definition set_bits (map : list Z) (l : list Z) : list Z := foldl bit_set map l.

Lemma clr_bits_free map l i :
  (forall x, x ∈ l -> in_map map x) ->
  is_free (clr_bits map l) i = is_free map i && negb (bool_decide (i ∈ l)).
Proof.
  unfold clr_bits. revert map. induction l as [|x l IH]; intros map Hl; simpl.
  - by rewrite andb_true_r.
  - rewrite IH by (intros y Hy; unfold in_map; rewrite zlen_bit_clr; apply Hl; by right).
    rewrite bit_clr_free by (apply Hl; by left).
    destruct (Z.eqb_spec i x) as [->|Hne]; simpl.
    + rewrite (bool_decide_eq_true_2 (x ∈ x :: l)) by by left. by rewrite andb_false_r.
    + f_equal. f_equal. apply bool_decide_ext. rewrite elem_of_cons. tauto.
Qed.

Lemma set_bits_free map l i :
  (forall x, x ∈ l -> in_map map x) ->
  is_free (set_bits map l) i = is_free map i || bool_decide (i ∈ l).
Proof.
  unfold set_bits. revert map. induction l as [|x l IH]; intros map Hl; simpl.
  - by rewrite orb_false_r.
  - rewrite IH by (intros y Hy; unfold in_map; rewrite zlen_bit_set; apply Hl; by right).
    rewrite bit_set_free by (apply Hl; by left).
    destruct (Z.eqb_spec i x) as [->|Hne]; simpl.
    + rewrite (bool_decide_eq_true_2 (x ∈ x :: l)) by by left. by rewrite orb_true_r.
    + f_equal. apply bool_decide_ext. rewrite elem_of_cons. tauto.
Qed.

Lemma zlen_clr_bits map l : zlen (clr_bits map l) = zlen map.
Proof.
  unfold clr_bits. revert map. induction l as [|x l IH]; intros map; simpl; [done|].
  by rewrite IH, zlen_bit_clr.
Qed.

Lemma zlen_set_bits map l : zlen (set_bits map l) = zlen map.
Proof.
  unfold set_bits. revert map. induction l as [|x l IH]; intros map; simpl; [done|].
  by rewrite IH, zlen_bit_set.
Qed.

Lemma bytes_clr_bits map l : Forall byte map -> Forall byte (clr_bits map l).
Proof.
  unfold clr_bits. revert map. induction l as [|x l IH]; intros map H; simpl; [done|].
  by apply IH, bytes_bit_clr.
Qed.

Lemma bytes_set_bits map l : Forall byte map -> Forall byte (set_bits map l).
Proof.
  unfold set_bits. revert map. induction l as [|x l IH]; intros map H; simpl; [done|].
  by apply IH, bytes_bit_set.
Qed.

(** ** A range of fragments of one block, taken or given back *)

Definition in_range (s n i : Z) : bool := (s <=? i) && (i <? s + n).

Lemma in_range_spec s n i : in_range s n i = true <-> s <= i < s + n.
Proof.
  unfold in_range. rewrite andb_true_iff, Z.leb_le, Z.ltb_lt. done.
Qed.

(** [map'] is [map] with the range cleared ([a = -1], the range was free) or
    set ([a = 1], the range was in use). *)
Record range_flipped (map map' : list Z) (s n a : Z) : Prop := {
  rf_sign : a = 1 \/ a = -1;
  rf_old : forall i, s <= i < s + n -> is_free map i = negb (0 <? a);
  rf_new : forall i, is_free map' i = if in_range s n i then 0 <? a else is_free map i }.

(** The change every weight of runs sees. *)
Definition merge_delta (w : Z -> Z) (low n high : Z) : Z := w (low + n + high) - w low - w high.

Section Frags.
Context (g : geometry) (Hg : wf_geometry g).
#[local] Abbreviation FPB := (fs_frag g).

Lemma run_around_ext f f' lo N s n low high :
  (forall i, ~ (s <= i < s + n) -> f i = f' i) ->
  run_around f lo N s n low high -> run_around f' lo N s n low high.
Proof.
  intros He [H1 H2 H3 H4 H5 H6 H7]. constructor; auto.
  - intros i Hi. rewrite <- He by lia. by apply H4.
  - intros i Hi. rewrite <- He by lia. by apply H5.
  - destruct H6 as [|H6]; [by left|right]. rewrite <- He by lia. done.
  - destruct H7 as [|H7]; [by left|right]. rewrite <- He by lia. done.
Qed.

Lemma range_weight w map map' s n a low high k :
  w 0 = 0 -> range_flipped map map' s n a ->
  run_around (is_free map) (k * FPB) FPB s n low high ->
  blk_weight g w map' k = blk_weight g w map k + a * merge_delta w low n high.
Proof using Hg.
  intros Hw [Ha Hold Hnew] Hr. unfold merge_delta.
  assert (forall i, ~ (s <= i < s + n) -> is_free map' i = is_free map i) as Hout.
  { intros i Hi. rewrite Hnew. destruct (in_range s n i) eqn:E; [|done].
    apply in_range_spec in E. lia. }
  destruct Ha as [-> | ->].
  - rewrite (blk_weight_split g Hg w map' map k s n low high Hw); [lia|..].
    + eapply run_around_ext; [|done]. intros i Hi. symmetry. by apply Hout.
    + intros i Hi. rewrite Hnew. by rewrite (proj2 (in_range_spec s n i) Hi).
    + intros i. rewrite Hnew. change (_ && (i <? s + n)) with (in_range s n i).
      destruct (in_range s n i) eqn:E; [|by rewrite andb_true_r].
      rewrite andb_false_r. apply Hold. by apply in_range_spec.
  - rewrite (blk_weight_split g Hg w map map' k s n low high Hw); [lia|done|done|].
    intros i. rewrite Hnew. change (_ && (i <? s + n)) with (in_range s n i).
    destruct (in_range s n i); [by rewrite andb_false_r|by rewrite andb_true_r].
Qed.

Lemma range_same_outside map map' s n a k :
  range_flipped map map' s n a -> k * FPB <= s -> s + n <= k * FPB + FPB ->
  same_outside g map map' k.
Proof using Hg.
  intros [_ _ Hnew] Hs Hn i Hi. rewrite Hnew. destruct (in_range s n i) eqn:E; [|done].
  apply in_range_spec in E. exfalso. apply Hi, block_window; [done|lia].
Qed.

Lemma range_group_weight w map map' s n a low high k :
  w 0 = 0 -> range_flipped map map' s n a -> 0 <= k < nblocks g ->
  run_around (is_free map) (k * FPB) FPB s n low high ->
  group_weight g w map' = group_weight g w map + a * merge_delta w low n high.
Proof using Hg.
  intros Hw Hf Hk Hr. rewrite (group_weight_upd g Hg w map map' k Hk).
  - rewrite (range_weight w map map' s n a low high k) by done. lia.
  - eapply range_same_outside; [done|..]; destruct Hr; lia.
Qed.

(** The tables after the loop and the adjustments of one request. *)
Lemma wf_frags_range c c' s n a low high k :
  wf_frags g c -> 0 <= k < nblocks g ->
  range_flipped (cg_blksfree c) (cg_blksfree c') s n a ->
  run_around (is_free (cg_blksfree c)) (k * FPB) FPB s n low high ->
  zlen (cg_frsum c') = 8 ->
  cs_nffree (cg_cs c') = s32 (cs_nffree (cg_cs c) + a * merge_delta (w_nf FPB) low n high) ->
  (forall j, 1 <= j < FPB ->
     zget (cg_frsum c') j = s32 (zget (cg_frsum c) j + a * merge_delta (w_fr j) low n high)) ->
  wf_frags g c'.
Proof using Hg.
  intros [W1 W2 W3] Hk Hf Hr Hlen Hnf Hfr. pose proof (frag_pos g Hg) as HF.
  pose proof (nblocks_bound g Hg). pose proof (group_weight_bounds g Hg (cg_blksfree c')) as (_ & Hb1 & Hb2).
  constructor; [done|..].
  - rewrite Hnf, W2, <- (range_group_weight (w_nf FPB) _ (cg_blksfree c') s n a low high k).
    + apply s32_small. unfold in_s32. zify_pow. lia.
    + unfold w_nf. by case_match.
    + done.
    + done.
    + done.
  - intros j Hj. specialize (Hb2 j ltac:(lia)).
    rewrite Hfr, W3 by done. rewrite <- (range_group_weight (w_fr j) _ (cg_blksfree c') s n a low high k).
    + apply s32_small. unfold in_s32. zify_pow. lia.
    + unfold w_fr. destruct (Z.eqb_spec 0 j); lia.
    + done.
    + done.
    + done.
Qed.

(** A range that leaves its block partly used both before and after does not
    change which blocks are free. *)
Lemma range_avail map map' s n a low high k b :
  Forall byte map -> Forall byte map' ->
  range_flipped map map' s n a ->
  run_around (is_free map) (k * FPB) FPB s n low high -> low + n + high <> FPB ->
  block_avail FPB map' (b * FPB) = block_avail FPB map (b * FPB).
Proof using Hg.
  intros Hb Hb' Hf Hr Hne. pose proof (frag_pos g Hg) as HF.
  pose proof (blk_weight_nb g map b Hg Hb) as E1. pose proof (blk_weight_nb g map' b Hg Hb') as E2.
  assert (blk_weight g (w_nb FPB) map' b = blk_weight g (w_nb FPB) map b) as He.
  { destruct (Z.eqb_spec b k) as [->|Hbk].
    - rewrite (range_weight (w_nb FPB) map map' s n a low high k); [|unfold w_nb; destruct (Z.eqb_spec 0 FPB); lia|done|done].
      destruct Hr as [? [? ?] [? ?] _ _ _ _]. unfold merge_delta, w_nb.
      destruct (Z.eqb_spec (low + n + high) FPB); [lia|]. destruct (Z.eqb_spec low FPB); [lia|].
      destruct (Z.eqb_spec high FPB); lia.
    - apply blk_weight_ext; [done|]. intros i Hi.
      eapply (range_same_outside map map' s n a k); [done|destruct Hr; lia|destruct Hr; lia|]. lia. }
  rewrite E1, E2 in He. by destruct (block_avail _ map' _), (block_avail _ map _).
Qed.

End Frags.

(** ** Totals *)

Definition cg_ids (g : geometry) : list Z := seqZ 0 (fs_ncg g).

Definition total (g : geometry) (v : Z -> cg) (p : csum -> Z) : Z :=
  zsum (fun k => p (cg_cs (v k))) (cg_ids g).

Record wf_totals (f : fs) (v : Z -> cg) : Prop := {
  wt_len : zlen (fs_csp f) = fs_ncg f;
  wt_csp : forall k, 0 <= k < fs_ncg f -> zget (fs_csp f) k = cg_cs (v k);
  wt_total : fs_cstotal f =
    Csum (s32 (total f v cs_ndir)) (s32 (total f v cs_nbfree))
         (s32 (total f v cs_nifree)) (s32 (total f v cs_nffree));
  wt_new : fs_updated f = true -> fs_new_cstotal f = fs_cstotal f }.

(** One of the four counters incremented. *)
Definition csum_adder (h : csum -> csum) : Prop :=
  exists a, h = (fun c => csum_add_ndir c a) \/ h = (fun c => csum_add_nbfree c a) \/
            h = (fun c => csum_add_nifree c a) \/ h = (fun c => csum_add_nffree c a).

(** What adjust_blks_free, adjust_frags_free, adjust_inodes_free and
    adjust_inode_total do to the superblock. *)
Definition adjust_super (f : fs) (h : csum -> csum) (cgx : Z) : fs :=
  let f := set_csp f (zset (fs_csp f) cgx (h (zget (fs_csp f) cgx))) in
  let f := set_cstotal f (h (fs_cstotal f)) in
  let f := if fs_updated f then set_new_cstotal f (h (fs_new_cstotal f)) else f in
  fmod_inc f.

Lemma adjust_super_geo f h cgx :
  fs_geo (adjust_super f h cgx) = fs_geo f /\ fs_ronly (adjust_super f h cgx) = fs_ronly f /\
  fs_csp (adjust_super f h cgx) = zset (fs_csp f) cgx (h (zget (fs_csp f) cgx)) /\
  fs_cstotal (adjust_super f h cgx) = h (fs_cstotal f) /\
  fs_updated (adjust_super f h cgx) = fs_updated f /\
  (fs_updated f = true -> fs_new_cstotal (adjust_super f h cgx) = h (fs_new_cstotal f)).
Proof.
  unfold adjust_super. cbv zeta.
  change (fs_updated (set_cstotal (set_csp f _) _)) with (fs_updated f).
  destruct (fs_updated f) eqn:E; repeat split; done.
Qed.

Lemma s32_mod x y : (x - y) mod 2 ^ 32 = 0 -> s32 x = s32 y.
Proof.
  intros H. unfold s32. f_equal. pose proof (Z.div_mod (x - y) (2 ^ 32) ltac:(done)) as Hd.
  rewrite H in Hd. replace (x + 2 ^ 31) with (y + 2 ^ 31 + ((x - y) / 2 ^ 32) * 2 ^ 32) by lia.
  by rewrite Z.mod_add.
Qed.

Lemma s32_diff x : (s32 x - x) mod 2 ^ 32 = 0.
Proof.
  unfold s32. rewrite (Z.mod_eq (x + 2 ^ 31)) by done.
  replace (x + 2 ^ 31 - 2 ^ 32 * ((x + 2 ^ 31) / 2 ^ 32) - 2 ^ 31 - x)
    with (- ((x + 2 ^ 31) / 2 ^ 32) * 2 ^ 32) by lia. by apply Z.mod_mul.
Qed.

(** A sum whose one term was incremented with wrap-around. *)
Lemma s32_term T x a : s32 (s32 T + a) = s32 (T + (s32 (x + a) - x)).
Proof.
  rewrite s32_add. apply s32_mod.
  replace (T + a - (T + (s32 (x + a) - x))) with (- (s32 (x + a) - (x + a))) by lia.
  pose proof (s32_diff (x + a)) as H. rewrite Z.mod_opp_l_z; done.
Qed.

Lemma total_update g v c k p :
  0 <= k < fs_ncg g ->
  total g (fun j => if j =? k then c else v j) p = total g v p + (p (cg_cs c) - p (cg_cs (v k))).
Proof.
  intros Hk. unfold total. rewrite (zsum_update (fun k => p (cg_cs (v k))) _ _ k).
  - by rewrite Z.eqb_refl.
  - apply NoDup_seqZ.
  - apply elem_of_seqZ. lia.
  - intros y _ Hy. by rewrite (proj2 (Z.eqb_neq y k)).
Qed.

Lemma wf_totals_step f v h k c :
  wf_totals f v -> 0 <= k < fs_ncg f -> csum_adder h -> cg_cs c = h (cg_cs (v k)) ->
  wf_totals (adjust_super f h k) (fun j => if j =? k then c else v j).
Proof.
  intros [T1 T2 T3 T4] Hk (a & Hh) Hc.
  destruct (adjust_super_geo f h k) as (E1 & _ & E3 & E4 & E5 & E6).
  constructor; rewrite ?E1, ?E3, ?E4, ?E5.
  - by rewrite zlen_zset.
  - intros j Hj. rewrite zget_zset by lia. rewrite (Z.eqb_sym j).
    destruct (Z.eqb_spec k j) as [<-|]; [by rewrite T2, Hc|by apply T2].
  - rewrite !total_update by done. rewrite T3, Hc.
    destruct Hh as [-> |[-> |[-> | ->]]]; unfold csum_add_ndir, csum_add_nbfree,
      csum_add_nifree, csum_add_nffree; cbn [cs_ndir cs_nbfree cs_nifree cs_nffree];
      rewrite !Z.sub_diag, !Z.add_0_r; f_equal; apply s32_term.
  - intros Hu. by rewrite E6, T4.
Qed.

Lemma wf_totals_ext (f : fs) v v' :
  (forall k, 0 <= k < fs_ncg f -> cg_cs (v' k) = cg_cs (v k)) -> wf_totals f v -> wf_totals f v'.
Proof.
  intros He [T1 T2 T3 T4].
  assert (forall p, total f v' p = total f v p) as Ht.
  { intros p. apply zsum_ext. intros k Hk. apply elem_of_seqZ in Hk. by rewrite He by lia. }
  constructor; rewrite ?Ht; auto. intros k Hk. by rewrite He, T2.
Qed.

Lemma adjust_blks_super f c cgx block a :
  (adjust_blks_free f c cgx block a).1 = adjust_super f (fun s => csum_add_nbfree s a) cgx.
Proof. done. Qed.

Lemma adjust_frags_super f c cgx a :
  (adjust_frags_free f c cgx a).1 = adjust_super f (fun s => csum_add_nffree s a) cgx.
Proof. done. Qed.
