(* ===== verification/AllocSpec.v ===== *)
(** The allocator against its specification.  [alloc_inv] is the invariant
    of the block tables and totals of a mounted file system, [fs_inv] adds
    the fragment tables; each operation of [Alloc] is proved, over any group
    cache that keeps its contract, to reach a stated pure successor of the
    superblock and the groups. *)

From S2P Require Import Prelude Bitmap Superblock Cg CgSearch Runs Accounting Clusters Summary.
From S2P Require Import FragSummary CgStore Alloc AllocWp.
Local Open Scope bffs_scope.

Record alloc_inv (f : fs) (v : Z -> cg) : Prop := {
  ai_geo : wf_geometry f;
  ai_blocks : forall k, 0 <= k < fs_ncg f -> wf_blocks f (v k);
  ai_totals : wf_totals f v;
  ai_boot : is_free (cg_blksfree (v 0)) 0 = false }.

Record fs_inv (f : fs) (v : Z -> cg) : Prop := {
  fi_alloc :> alloc_inv f v;
  fi_frags : forall k, 0 <= k < fs_ncg f -> wf_frags f (v k) }.

(** ** Free blocks and the counts *)

Section Counts.
Context (g : geometry) (Hg : wf_geometry g).
#[local] Abbreviation FPB := (fs_frag g).

Lemma free_block_group c b : wf_blocks g c -> free_block FPB c b -> group_block g c (b / FPB) /\ b = b / FPB * FPB.
Proof using Hg.
  intros Hw Hb. pose proof (frag_pos g Hg). pose proof Hb as (H1 & H2 & H3).
  assert (b = b / FPB * FPB) as He by (pose proof (Z.div_mod b FPB); lia).
  split; [|done]. split; [apply Z.div_pos; lia|].
  pose proof (free_block_inside FPB c b (b / FPB * FPB + FPB - 1) (wg_frag g Hg) (wb_map g c Hw) Hb).
  assert (b / FPB * FPB + FPB - 1 < cg_ndblk c); [|lia]. apply H0.
  symmetry. apply (Z.div_unique _ _ _ (FPB - 1)); lia.
Qed.

Lemma nbfree_pos c :
  wf_blocks g c -> 0 <= cs_nbfree (cg_cs c) < 2 ^ 31 /\
  (0 < cs_nbfree (cg_cs c) <-> exists b, free_block FPB c b).
Proof using Hg.
  intros Hw. pose proof (frag_pos g Hg) as HF. pose proof (wb_map g c Hw) as Hm.
  pose proof (nblocks_bound g Hg). pose proof (group_weight_bounds g Hg (cg_blksfree c)) as [Hb _].
  rewrite (wb_nbfree g c Hw). split; [lia|]. split.
  - intros Hpos. apply zsum_exists in Hpos as (k & Hk & Hw'). apply elem_of_seqZ in Hk.
    rewrite blk_weight_nb in Hw' by (done || apply Hm).
    destruct (block_avail _ _ _) eqn:E; [|lia]. exists (k * FPB).
    apply free_block_avail; [apply Hg|done|].
    split; [|split; [apply Z.mod_mul; lia|done]].
    rewrite block_avail_free in E by (apply Hg || apply Hm). specialize (E (k * FPB) eq_refl).
    destruct (Z.ltb_spec (k * FPB) (cg_ndblk c)); [nia|]. by rewrite (wm_tail c Hm) in E.
  - intros (b & Hb'). destruct (free_block_group c b Hw Hb') as [Hgb He].
    pose proof (group_block_range g Hg c _ Hw Hgb) as Hr.
    assert (blk_weight g (w_nb FPB) (cg_blksfree c) (b / FPB) = 1) as Hone.
    { rewrite blk_weight_nb by (done || apply Hm). rewrite <- He.
      apply free_block_avail in Hb' as (_ & _ & ->); [done|apply Hg|done]. }
    assert (0 < blk_weight g (w_nb FPB) (cg_blksfree c) (b / FPB)) by lia.
    assert (blk_weight g (w_nb FPB) (cg_blksfree c) (b / FPB) <= group_weight g (w_nb FPB) (cg_blksfree c)); [|lia].
    apply (zsum_pos_elem (blk_weight g (w_nb FPB) (cg_blksfree c))); [|apply elem_of_seqZ; lia].
    intros y _. destruct (blk_weight_bounds g Hg (cg_blksfree c) y). lia.
Qed.

End Counts.

Lemma most_free_spec csp l best :
  (forall k, k ∈ l -> 0 <= cs_nbfree (zget csp k) < 2 ^ 31) ->
  let r := most_free csp l best in
  best.1 <= r.1 /\ (forall k, k ∈ l -> cs_nbfree (zget csp k) <= r.1) /\
  (r = best \/ (r.2 ∈ l /\ r.1 = cs_nbfree (zget csp r.2))).
Proof.
  revert best. induction l as [|x l IH]; intros best Hl; simpl.
  - split; [lia|]. split; [|by left]. intros k Hk. by apply not_elem_of_nil in Hk.
  - rewrite u32_small by (specialize (Hl x ltac:(by left)); unfold in_u32; zify_pow; lia).
    destruct (IH (if best.1 <? cs_nbfree (zget csp x) then (cs_nbfree (zget csp x), x) else best))
      as (H1 & H2 & H3); [intros k Hk; apply Hl; by right|].
    destruct (Z.ltb_spec best.1 (cs_nbfree (zget csp x))); simpl in *.
    + split; [lia|]. split.
      * intros k [->|Hk]%elem_of_cons; [done|by apply H2].
      * right. destruct H3 as [->|[H3 H4]]; [split; [by left|done]|split; [by right|done]].
    + split; [done|]. split.
      * intros k [->|Hk]%elem_of_cons; [lia|by apply H2].
      * destruct H3 as [->|[H3 H4]]; [by left|right; split; [by right|done]].
Qed.

(** No group has a free block. *)
Definition disk_full (f : fs) (v : Z -> cg) : Prop :=
  forall k b, 0 <= k < fs_ncg f -> ~ free_block (fs_frag f) (v k) b.

Section Full.
Context (f : fs) (v : Z -> cg) (Hi : alloc_inv f v).

Lemma total_nbfree : 0 <= total f v cs_nbfree < 2 ^ 31.
Proof using Hi.
  pose proof (ai_geo f v Hi) as Hg. unfold total. split.
  - apply zsum_nonneg. intros k Hk%elem_of_seqZ. apply (nbfree_pos f Hg); apply Hi; lia.
  - pose proof (wg_size f Hg). pose proof (wg_ncg f Hg).
    assert (zsum (fun k => cs_nbfree (cg_cs (v k))) (cg_ids f) <=
      nblocks f * Z.of_nat (length (cg_ids f))) as Hle.
    { apply zsum_le. intros k Hk%elem_of_seqZ.
      rewrite (wb_nbfree f (v k)) by (apply Hi; lia). apply group_weight_bounds, Hg. }
    unfold cg_ids in *. rewrite length_seqZ, Z2Nat.id in Hle by lia.
    pose proof (nblocks_bound f Hg).
    assert (nblocks f * fs_ncg f <= fs_fpg f * fs_ncg f) by (apply Z.mul_le_mono_nonneg_r; lia). lia.
Qed.

Lemma no_blocks_full : no_blocks f = true <-> disk_full f v.
Proof using Hi.
  pose proof (ai_geo f v Hi) as Hg. pose proof (ai_totals f v Hi) as [T1 T2 T3 T4].
  pose proof total_nbfree as Hb.
  assert (cs_nbfree (fs_cstotal f) = total f v cs_nbfree) as Ht.
  { rewrite T3. apply s32_small. unfold in_s32. zify_pow. lia. }
  assert (no_blocks f = (total f v cs_nbfree =? 0)) as ->.
  { unfold no_blocks. destruct (fs_updated f) eqn:E; [rewrite T4 by done|]; by rewrite Ht. }
  rewrite Z.eqb_eq. split.
  - intros H0 k b Hk Hfb.
    assert (cs_nbfree (cg_cs (v k)) = 0) as Hz.
    { apply (zsum_zero (fun k => cs_nbfree (cg_cs (v k))) (cg_ids f)); [|done|apply elem_of_seqZ; lia].
      intros y Hy%elem_of_seqZ. apply (nbfree_pos f Hg); apply Hi; lia. }
    pose proof (nbfree_pos f Hg (v k) ltac:(by apply Hi)) as [_ [_ H2]].
    specialize (H2 (ex_intro _ b Hfb)). lia.
  - intros Hfull. destruct (Z.eqb_spec (total f v cs_nbfree) 0); [done|exfalso].
    destruct (zsum_exists (fun k => cs_nbfree (cg_cs (v k))) (cg_ids f)) as (k & Hk & Hpos).
    { unfold total in *. lia. }
    apply elem_of_seqZ in Hk. pose proof (nbfree_pos f Hg (v k) ltac:(apply Hi; lia)) as [_ [H1 _]].
    destruct (H1 Hpos) as (b & Hfb). by apply (Hfull k b); [lia|].
Qed.

(** The group [most_free] picks. *)
Lemma most_free_pick cg0 :
  ~ disk_full f v ->
  let r := most_free (fs_csp f) (upto 0 (fs_ncg f) 1) (0, cg0) in
  r.1 <> 0 /\ 0 <= r.2 < fs_ncg f /\ (exists b, free_block (fs_frag f) (v r.2) b) /\
  forall k, 0 <= k < fs_ncg f -> cs_nbfree (cg_cs (v k)) <= cs_nbfree (cg_cs (v r.2)).
Proof using Hi.
  intros Hnf. pose proof (ai_geo f v Hi) as Hg. pose proof (ai_totals f v Hi) as [T1 T2 T3 T4].
  assert (forall k, k ∈ upto 0 (fs_ncg f) 1 <-> 0 <= k < fs_ncg f) as Hin.
  { intros k. rewrite elem_of_upto by lia. split; [intros (? & ? & -> & ?); lia|]. intros. exists k. lia. }
  destruct (most_free_spec (fs_csp f) (upto 0 (fs_ncg f) 1) (0, cg0)) as (H1 & H2 & H3).
  { intros k Hk%Hin. rewrite T2 by done. apply (nbfree_pos f Hg). by apply Hi. }
  revert H1 H2 H3. generalize (most_free (fs_csp f) (upto 0 (fs_ncg f) 1) (0, cg0)).
  intros [n k0] H1 H2 H3; simpl in *.
  assert (n <> 0) as Hn.
  { intros ->. apply Hnf. intros k b Hk Hfb.
    pose proof (nbfree_pos f Hg (v k) ltac:(by apply Hi)) as [_ [_ Hp]].
    specialize (Hp (ex_intro _ b Hfb)). specialize (H2 k ltac:(by apply Hin)).
    rewrite T2 in H2 by done. lia. }
  destruct H3 as [[= ? ?]|[Hk0%Hin Hn0]]; [done|]. rewrite T2 in Hn0 by done.
  split; [done|]. split; [done|]. split.
  - apply (nbfree_pos f Hg (v k0)); [by apply Hi|lia].
  - intros k Hk. specialize (H2 k ltac:(by apply Hin)). rewrite T2 in H2 by done. lia.
Qed.

End Full.

(** ** Taking and giving back a block *)

Definition super_blks (f : fs) (cgx a : Z) : fs :=
  adjust_super f (fun s => csum_add_nbfree s a) cgx.
Definition super_frags (f : fs) (cgx a : Z) : fs :=
  adjust_super f (fun s => csum_add_nffree s a) cgx.

Definition taken (f : fs) (c : cg) (b : Z) : cg :=
  block_step f c (block_alloc (fs_frag f) (cg_blksfree c) b) b (-1).
Definition given (f : fs) (c : cg) (b : Z) : cg :=
  block_step f c (block_dealloc (fs_frag f) (cg_blksfree c) b) b 1.

Lemma block_step_cgx g c m b a : cg_cgx (block_step g c m b a) = cg_cgx c.
Proof. unfold block_step. by destruct (clusteracct_fields g (adjust_blks g (set_blksfree c m) b a) b a) as (-> & _). Qed.

Lemma block_step_rest g c m b a :
  let c' := block_step g c m b a in
  cg_blksfree c' = m /\ cg_frsum c' = cg_frsum c /\
  cg_cs c' = csum_add_nbfree (cg_cs c) a /\
  cg_inosused c' = cg_inosused c /\ cg_ndblk c' = cg_ndblk c.
Proof.
  cbv zeta. unfold block_step.
  by destruct (clusteracct_fields g (adjust_blks g (set_blksfree c m) b a) b a)
    as (_ & -> & -> & _ & _ & -> & -> & -> & _).
Qed.

Section Wp.
Context {S : Type} `{CgStoreLaws S}.

Lemma holds_at_ext s (f : fs) v v' k p :
  (forall j, v j = v' j) -> holds_at s f v k p -> holds_at s f v' k p.
Proof. intros Hv [Hh Ho]. split; [|done]. eapply holds_ext; [|done]. by intros. Qed.

Lemma vupd_vupd v k c c' j : vupd (vupd v k c) k c' j = vupd v k c' j.
Proof. unfold vupd. by destruct (j =? k). Qed.

(** The three updates a block allocation or deallocation makes in group [k]. *)
Lemma wp_block_step (map' : cg -> list Z) a b (Q : unit -> S -> Prop) s (f : fs) v k p :
  holds_at s f v k p -> 0 <= k < fs_ncg f -> cg_cgx (v k) = k ->
  (forall s', holds_at s' (super_blks f k a) (vupd v k (block_step f (v k) (map' (v k)) b a)) k p ->
     Q tt s') ->
  wp (upd_cg p (fun c => set_blksfree c (map' c)) ;;
      adjust_blks_free_m p k b a ;;
      upd_cg p (fun c => ffs_clusteracct f c b a)) Q s.
Proof.
  intros Hh Hk Hx HQ. apply wp_bnd.
  eapply wp_upd_cg; [done|done|done|]. intros s1 Hh1. cbv beta.
  apply wp_bnd. unfold adjust_blks_free_m.
  destruct (adjust_super_geo f (fun s => csum_add_nbfree s a) k) as (Eg & Er & _).
  eapply wp_upd_both; [done|done|..]; rewrite ?vupd_eq.
  - done.
  - exact Eg.
  - exact Er.
  - intros s2 Hh2. eapply wp_upd_cg; [done|rewrite adjust_blks_super, Eg; done|..].
    + rewrite vupd_eq, (adjust_blks_eq f f) by done.
      destruct (clusteracct_fields f (adjust_blks f (set_blksfree (v k) (map' (v k))) b a) b a) as (-> & _).
      done.
    + intros s3 Hh3. apply HQ. eapply holds_at_ext; [|exact Hh3]. intros j.
      rewrite vupd_eq, !vupd_vupd, (adjust_blks_eq f f) by done. done.
Qed.

Lemma wp_block_take (Q : Z -> S -> Prop) s (f : fs) v k b :
  holds s f v -> 0 <= k < fs_ncg f ->
  (forall s' p, holds_at s' (super_blks f k (-1)) (vupd v k (taken f (v k) b)) k p ->
     (forall p' w, cgs_owns s k p' w -> p' = p) -> Q (u32 (b + cgbase f k)) s') ->
  wp (block_take k b) Q s.
Proof.
  intros Hh Hk HQ. unfold block_take. apply wp_bnd.
  eapply wp_cache_cg_write; [done|done|]. intros p s1 Hh1 Hp. cbv beta iota.
  apply wp_bnd. eapply wp_superblock; [apply Hh1|]. cbv beta.
  pose proof (holds_cgx _ _ _ k Hh Hk) as Hx.
  enough (wp ((upd_cg p (fun c => set_blksfree c (block_alloc (fs_frag f) (cg_blksfree c) b)) ;;
      adjust_blks_free_m p k b (-1) ;;
      upd_cg p (fun c => ffs_clusteracct f c b (-1))) ;; ret (u32 (b + cgbase f k))) Q s1) as He.
  { revert He. unfold wp, bnd. repeat (case_match; try done). all: by simplify_eq. }
  apply wp_bnd. eapply (wp_block_step (fun c => block_alloc (fs_frag f) (cg_blksfree c) b)); [done|done|done|].
  intros s2 Hh2. apply wp_ret. by eapply HQ.
Qed.

Lemma wp_block_deallocate (Q : unit -> S -> Prop) s (f : fs) v d :
  holds s f v -> 0 <= dtog f d < fs_ncg f ->
  (forall s' p, holds_at s' (super_blks f (dtog f d) 1)
       (vupd v (dtog f d) (given f (v (dtog f d)) (dtogd f d))) (dtog f d) p ->
     (forall p' w, cgs_owns s (dtog f d) p' w -> p' = p) -> Q tt s') ->
  wp (block_deallocate d) Q s.
Proof.
  intros Hh Hk HQ. unfold block_deallocate. apply wp_bnd.
  eapply wp_superblock; [done|]. cbv beta zeta. apply wp_bnd.
  eapply wp_cache_cg_write; [done|done|]. intros p s1 Hh1 Hp. cbv beta iota.
  apply wp_bnd. eapply wp_superblock; [apply Hh1|]. cbv beta.
  pose proof (holds_cgx _ _ _ _ Hh Hk) as Hx.
  eapply (wp_block_step (fun c => block_dealloc (fs_frag f) (cg_blksfree c) (dtogd f d)));
    [done|done|done|]. intros s2 Hh2. by eapply HQ.
Qed.

(** ** block_allocate *)

(** Block [b] of group [k] is what a request near [d] gets: the free block
    nearest to [d] in its group, or, when that group has none, one in a
    group with the most free blocks. *)
Definition chosen (f : fs) (v : Z -> cg) (d k b : Z) : Prop :=
  0 <= k < fs_ncg f /\ free_block (fs_frag f) (v k) b /\
  ((k = dtog f d /\
    forall b', free_block (fs_frag f) (v k) b' ->
      Z.abs (near_pref f (v k) (dtogd f d) - b) <= Z.abs (near_pref f (v k) (dtogd f d) - b')) \/
   ((forall b', ~ free_block (fs_frag f) (v (dtog f d)) b') /\
    forall j, 0 <= j < fs_ncg f -> cs_nbfree (cg_cs (v j)) <= cs_nbfree (cg_cs (v k)))).

Lemma find_block (f : fs) v k p :
  alloc_inv f v -> 0 <= k < fs_ncg f -> 0 <= p ->
  nearest (fs_frag f) (v k) (near_pref f (v k) p) (block_free_find f (v k) p).
Proof.
  intros Hi Hk Hp. apply block_free_find_nearest; [apply Hi| |done].
  by apply (wb_map f), Hi.
Qed.

Lemma free_block_nonneg FPB c b : free_block FPB c b -> b <> -1.
Proof. intros (? & _). lia. Qed.

Lemma wp_block_allocate (Q : Z -> S -> Prop) s (f : fs) v d :
  holds s f v -> alloc_inv f v -> 0 <= dtog f d < fs_ncg f ->
  (disk_full f v -> forall s', holds s' f v -> Q 0 s') ->
  (forall k b s' p, chosen f v d k b ->
     holds_at s' (super_blks f k (-1)) (vupd v k (taken f (v k) b)) k p ->
     (forall p' w, k = dtog f d -> cgs_owns s k p' w -> p' = p) ->
     Q (u32 (b + cgbase f k)) s') ->
  wp (block_allocate d) Q s.
Proof.
  intros Hh Hi Hd Hnone Hsome. pose proof (ai_geo f v Hi) as Hg.
  assert (0 <= dtogd f d) as Hd0 by (apply Z.mod_pos_bound; apply (wg_fpg f Hg)).
  unfold block_allocate. apply wp_bnd. eapply wp_superblock; [done|]. cbv beta zeta.
  apply wp_bnd. eapply wp_cache_cg; [done|done|]. intros p s1 Hh1 Ho1 Hk1. cbv beta.
  apply wp_bnd. eapply wp_superblock; [done|]. cbv beta.
  destruct (no_blocks f) eqn:En.
  { apply wp_ret. apply Hnone; [|done]. by apply no_blocks_full. }
  assert (~ disk_full f v) as Hnf by (rewrite <- no_blocks_full, En; done).
  cbn [deref]. apply wp_bnd, wp_ret, wp_bnd. eapply wp_load; [done|done|done|].
  pose proof (find_block f v (dtog f d) (dtogd f d) Hi Hd Hd0) as Hn.
  revert Hn. generalize (block_free_find f (v (dtog f d)) (dtogd f d)). intros b Hn.
  destruct (Z.eqb_spec b (-1)) as [->|Hb].
  - assert (forall b', ~ free_block (fs_frag f) (v (dtog f d)) b') as Hno.
    { destruct Hn as [[_ Hn]|[Hn _]]; [done|]. by apply free_block_nonneg in Hn. }
    destruct (most_free_pick f v Hi (dtog f d) Hnf) as (Hr1 & Hr2 & (b' & Hb') & Hmax).
    revert Hr1 Hr2 Hb' Hmax. generalize (most_free (fs_csp f) (upto 0 (fs_ncg f) 1) (0, dtog f d)).
    intros [n k] Hr1 Hr2 Hb' Hmax. cbn [fst snd] in *. rewrite (proj2 (Z.eqb_neq n 0)) by done.
    apply wp_bnd. eapply wp_cache_cg; [done|done|]. intros p2 s2 Hh2 Ho2 _. cbv beta. cbn [deref].
    apply wp_bnd, wp_ret, wp_bnd. eapply wp_load; [done|done|done|]. apply wp_bnd.
    eapply wp_superblock; [done|]. cbv beta.
    pose proof (find_block f v k 0 Hi Hr2 ltac:(lia)) as Hn2.
    revert Hn2. generalize (block_free_find f (v k) 0). intros b2 [[_ Hn2]|[Hn2 _]]; [by destruct (Hn2 b')|].
    rewrite (proj2 (Z.eqb_neq b2 (-1))) by by eapply free_block_nonneg.
    eapply wp_block_take; [done|done|]. intros s3 p3 Hh3 Hp3. apply (Hsome k b2 s3 p3).
    + split; [done|]. split; [done|]. by right.
    + done.
    + intros p' w -> _. by destruct (Hno b').
  - destruct Hn as [[? _]|[Hfb Hmin]]; [done|].
    eapply wp_block_take; [done|done|]. intros s3 p3 Hh3 Hp3. apply (Hsome (dtog f d) b s3 p3).
    + split; [done|]. split; [done|]. by left.
    + done.
    + intros p' w _ Hp'. destruct (Hk1 p' w Hp') as [-> Ho']. by eapply Hp3.
Qed.

End Wp.
