(* ===== verification/AllocInv.v ===== *)
(** The invariant through the allocator's successors: a block taken or given
    back, a range of fragments taken or given back, seen as changes to the
    set of free fragments of the disk. *)

From S2P Require Import Prelude Bitmap Superblock Cg CgSearch Runs Accounting Clusters Summary.
From S2P Require Import FragSummary CgStore Alloc AllocWp AllocSpec.

(** The abstract state of the allocator: fragment [d] of the disk is free. *)
Definition frag_free (f : fs) (v : Z -> cg) (d : Z) : bool :=
  is_free (cg_blksfree (v (dtog f d))) (dtogd f d).

(** [d] is an address of the file system. *)
Definition on_disk (f : fs) (d : Z) : Prop := 0 <= d < fs_fpg f * fs_ncg f.

Lemma on_disk_group (f : fs) d : wf_geometry f -> on_disk f d -> 0 <= dtog f d < fs_ncg f.
Proof.
  intros Hg Hd. unfold on_disk, dtog in *. destruct (wg_fpg f Hg) as [Hp _].
  split; [apply Z.div_pos; lia|]. apply Z.div_lt_upper_bound; lia.
Qed.

(** What an operation on fragments [s], ..., [s+n-1] of group [k] may
    change: those bits and the counts. *)
Record frags_moved (f : fs) (v : Z -> cg) (f' : fs) (v' : Z -> cg) (k s n a : Z) : Prop := {
  fm_geo : fs_geo f' = fs_geo f;
  fm_ronly : fs_ronly f' = fs_ronly f;
  fm_other : forall j, j <> k -> v' j = v j;
  fm_bits : forall i, is_free (cg_blksfree (v' k)) i =
    if in_range s n i then 0 <? a else is_free (cg_blksfree (v k)) i;
  fm_inodes : cg_inosused (v' k) = cg_inosused (v k) /\ cg_ndblk (v' k) = cg_ndblk (v k) /\
    cs_ndir (cg_cs (v' k)) = cs_ndir (cg_cs (v k)) /\
    cs_nifree (cg_cs (v' k)) = cs_nifree (cg_cs (v k)) }.

Lemma frags_moved_free (f : fs) v f' v' k s n a d :
  wf_geometry f -> frags_moved f v f' v' k s n a ->
  0 <= k < fs_ncg f -> 0 <= s -> s + n <= fs_fpg f -> on_disk f d ->
  frag_free f' v' d = if in_range (s + cgbase f k) n d then 0 <? a else frag_free f v d.
Proof.
  intros Hg [M1 _ M3 M4 _] Hk Hs Hn Hd. unfold frag_free. rewrite M1.
  destruct (wg_fpg f Hg) as [Hp _]. rewrite cgbase_eq by done.
  pose proof (group_split f Hg d) as Hsp.
  assert (0 <= dtogd f d < fs_fpg f) as Hb by (apply Z.mod_pos_bound; lia).
  destruct (Z.eqb_spec (dtog f d) k) as [He|Hne].
  - rewrite He, M4. replace (in_range (s + fs_fpg f * k) n d) with (in_range s n (dtogd f d)); [done|].
    apply eq_true_iff_eq. rewrite !in_range_spec. rewrite He in Hsp. lia.
  - rewrite M3 by done. replace (in_range (s + fs_fpg f * k) n d) with false; [done|].
    symmetry. apply not_true_iff_false. rewrite in_range_spec. nia.
Qed.

Section Steps.
Context (f : fs) (v : Z -> cg).

Lemma alloc_inv_step k c' h :
  alloc_inv f v -> 0 <= k < fs_ncg f -> csum_adder h -> cg_cs c' = h (cg_cs (v k)) ->
  wf_blocks f c' -> (k = 0 -> is_free (cg_blksfree c') 0 = false) ->
  alloc_inv (adjust_super f h k) (vupd v k c').
Proof.
  intros [Hg Hb Ht H0] Hk Hh Hc Hw Hboot. destruct (adjust_super_geo f h k) as (E & _).
  constructor.
  - by rewrite E.
  - rewrite E. intros j Hj. unfold vupd. destruct (j =? k); [done|by apply Hb].
  - by apply wf_totals_step.
  - unfold vupd. destruct (Z.eqb_spec 0 k) as [<-|]; auto.
Qed.

Lemma nbfree_adder a : csum_adder (fun s => csum_add_nbfree s a).
Proof. exists a. auto. Qed.

Lemma nffree_adder a : csum_adder (fun s => csum_add_nffree s a).
Proof. exists a. auto. Qed.

Context (Hi : alloc_inv f v) (k : Z) (Hk : 0 <= k < fs_ncg f).
#[local] Abbreviation FPB := (fs_frag f).

Let Hg : wf_geometry f := ai_geo f v Hi.
Let Hw : wf_blocks f (v k) := ai_blocks f v Hi k Hk.

(** A block of the group flipped, as a range. *)
Lemma taken_range b :
  free_block FPB (v k) b ->
  range_flipped (cg_blksfree (v k)) (cg_blksfree (taken f (v k) b)) b FPB (-1).
Proof using Hi Hk.
  intros Hb. destruct (free_block_group f Hg (v k) b Hw Hb) as [Hgb He].
  pose proof (frag_pos f Hg) as HF. pose proof Hb as (Hb1 & Hb2 & Hb3).
  destruct (group_block_in_map f Hg (v k) (b / FPB) b (wb_map f _ Hw) Hgb eq_refl) as [Hin _].
  destruct (block_step_rest f (v k) (block_alloc FPB (cg_blksfree (v k)) b) b (-1)) as (E & _).
  constructor; [by right|..]; unfold taken; rewrite ?E.
  - intros i Hi'. apply Hb3. apply (block_window f Hg). lia.
  - intros i. rewrite block_alloc_free by (done || apply Hg).
    replace (in_range b FPB i) with (i / FPB =? b / FPB); [by destruct (_ =? _)|].
    apply eq_true_iff_eq. rewrite in_range_spec, Z.eqb_eq.
    rewrite <- (block_window f Hg). lia.
Qed.

Lemma alloc_inv_taken b :
  free_block FPB (v k) b ->
  alloc_inv (super_blks f k (-1)) (vupd v k (taken f (v k) b)) /\
  frags_moved f v (super_blks f k (-1)) (vupd v k (taken f (v k) b)) k b FPB (-1).
Proof using Hi Hk.
  intros Hb. destruct (free_block_group f Hg (v k) b Hw Hb) as [Hgb He].
  pose proof (frag_pos f Hg) as HF. pose proof (taken_range b Hb) as [_ _ Hbits].
  assert (block_avail FPB (cg_blksfree (v k)) (b / FPB * FPB) = true) as Hav.
  { rewrite <- He. by apply free_block_avail in Hb as (_ & _ & ?); [|apply Hg|apply Hw]. }
  destruct (block_alloc_flips f Hg (v k) (b / FPB) (wb_map f _ Hw) Hgb Hav) as [Hm Hfl].
  destruct (block_step_rest f (v k) (block_alloc FPB (cg_blksfree (v k)) b) b (-1))
    as (E1 & E2 & E3 & E4 & E5).
  destruct (adjust_super_geo f (fun s => csum_add_nbfree s (-1)) k) as (G1 & G2 & _).
  split.
  - apply alloc_inv_step; [done|done|apply nbfree_adder|done|..].
    + unfold taken. rewrite He. by apply block_step_wf.
    + intros H0. rewrite Hbits. destruct (in_range b FPB 0); [done|]. rewrite H0. apply (ai_boot f v Hi).
  - constructor; [done|done|..]; rewrite ?vupd_eq.
    + intros j Hj. by apply vupd_ne.
    + intros i. apply Hbits.
    + unfold taken. by rewrite E3, E4, E5.
Qed.

Lemma given_range b :
  group_block f (v k) b ->
  (forall i, i / FPB = b -> is_free (cg_blksfree (v k)) i = false) ->
  range_flipped (cg_blksfree (v k)) (cg_blksfree (given f (v k) (b * FPB))) (b * FPB) FPB 1.
Proof using Hi Hk.
  intros Hgb Hu. pose proof (frag_pos f Hg) as HF.
  assert (b * FPB / FPB = b) as Hd by (apply Z.div_mul; lia).
  destruct (group_block_in_map f Hg (v k) b (b * FPB) (wb_map f _ Hw) Hgb Hd) as [Hin _].
  destruct (block_step_rest f (v k) (block_dealloc FPB (cg_blksfree (v k)) (b * FPB)) (b * FPB) 1) as (E & _).
  constructor; [by left|..]; unfold given; rewrite ?E.
  - intros i Hi'. rewrite Hu; [done|]. apply (block_window f Hg). lia.
  - intros i. rewrite block_dealloc_free, Hd by (done || apply Hg).
    replace (in_range (b * FPB) FPB i) with (i / FPB =? b); [by destruct (_ =? _)|].
    apply eq_true_iff_eq. rewrite in_range_spec, Z.eqb_eq. by rewrite <- (block_window f Hg).
Qed.

Lemma alloc_inv_given b :
  group_block f (v k) b -> (k = 0 -> b <> 0) ->
  block_avail FPB (cg_blksfree (v k)) (b * FPB) = false ->
  alloc_inv (super_blks f k 1) (vupd v k (given f (v k) (b * FPB))).
Proof using Hi Hk.
  intros Hgb Hnb Hav. pose proof (frag_pos f Hg) as HF.
  assert (b * FPB / FPB = b) as Hd by (apply Z.div_mul; lia).
  destruct (group_block_in_map f Hg (v k) b (b * FPB) (wb_map f _ Hw) Hgb Hd) as [Hin _].
  destruct (block_dealloc_flips f Hg (v k) b (wb_map f _ Hw) Hgb Hav) as [Hm Hfl].
  destruct (block_step_rest f (v k) (block_dealloc FPB (cg_blksfree (v k)) (b * FPB)) (b * FPB) 1)
    as (E1 & E2 & E3 & E4 & E5).
  apply alloc_inv_step; [done|done|apply nbfree_adder|done|..].
  - unfold given. by apply block_step_wf.
  - intros H0. unfold given. rewrite E1, block_dealloc_free, Hd by (done || apply Hg).
    rewrite Z.div_0_l by lia. rewrite (proj2 (Z.eqb_neq 0 b)) by (intros <-; by apply Hnb).
    rewrite H0. apply (ai_boot f v Hi).
Qed.

(** Whole blocks do not count in the fragment tables. *)
Lemma wf_frags_block c' b a :
  wf_frags f (v k) -> group_block f (v k) b ->
  range_flipped (cg_blksfree (v k)) (cg_blksfree c') (b * FPB) FPB a ->
  cg_frsum c' = cg_frsum (v k) -> cs_nffree (cg_cs c') = cs_nffree (cg_cs (v k)) ->
  wf_frags f c'.
Proof using Hi Hk.
  intros Hf Hgb Hfl Efr Enf. pose proof (frag_pos f Hg) as HF.
  pose proof (group_block_range f Hg (v k) b Hw Hgb) as Hb.
  pose proof (nblocks_bound f Hg). 
  pose proof (group_weight_bounds f Hg (cg_blksfree (v k))) as (_ & Hb1 & Hb2).
  apply (wf_frags_range f Hg (v k) c' (b * FPB) FPB a 0 0 b); [done|done|done|..].
  - constructor; try lia.
  - by rewrite Efr, (wf_frsum_len f _ Hf).
  - assert (merge_delta (w_nf FPB) 0 FPB 0 = 0) as ->.
    { unfold merge_delta, w_nf. rewrite Z.add_0_l, Z.add_0_r, Z.eqb_refl.
      destruct (Z.eqb_spec 0 FPB); lia. }
    rewrite Enf, (wf_nffree f _ Hf), Z.mul_0_r, Z.add_0_r.
    symmetry. apply s32_small. unfold in_s32. zify_pow. lia.
  - intros j Hj. specialize (Hb2 j ltac:(lia)).
    assert (merge_delta (w_fr j) 0 FPB 0 = 0) as ->.
    { unfold merge_delta, w_fr. rewrite Z.add_0_l, Z.add_0_r.
      destruct (Z.eqb_spec FPB j); [lia|]. destruct (Z.eqb_spec 0 j); lia. }
    rewrite Efr, (wf_frsum f _ Hf), Z.mul_0_r, Z.add_0_r by done.
    symmetry. apply s32_small. unfold in_s32. zify_pow. lia.
Qed.

End Steps.
