(* ===== verification/FragAlloc.v ===== *)
(** [frags_allocate] and [frags_deallocate]: a run of fragments inside one
    block leaves or joins the free set, and every table stays exact, also
    when the run breaks up or completes a whole free block. *)

From S2P Require Import Prelude Bitmap Superblock Cg CgSearch Runs Accounting Clusters Summary.
From S2P Require Import FragSummary CgStore Alloc AllocWp AllocSpec AllocInv.
Local Open Scope bffs_scope.

(** ** The pieces of the two operations *)

Lemma count_while_fmap p h l : count_while p (h <$> l) = count_while (fun x => p (h x)) l.
Proof. induction l as [|x l IH]; [done|]. cbn. by rewrite IH. Qed.

Lemma count_low_eq map base off :
  count_low map base off = count_while (is_free map) (downto (base + off - 1) base 1).
Proof.
  unfold count_low, downto. replace (base + off - 1 - base) with (off - 1 - 0) by lia.
  rewrite !count_while_fmap. apply count_while_ext. intros i _.
  rewrite bit_val_nonzero. f_equal. lia.
Qed.

Lemma count_high_eq FPB map base first :
  count_high FPB map base first = count_while (is_free map) (upto (base + first) (base + FPB) 1).
Proof.
  unfold count_high, upto.
  replace (base + FPB - (base + first) + 1 - 1) with (FPB - first + 1 - 1) by lia.
  rewrite !count_while_fmap. apply count_while_ext. intros i _.
  rewrite bit_val_nonzero. f_equal. lia.
Qed.

Lemma adjust_frsum_fields c count a :
  let c' := adjust_frsum c count a in
  cg_cgx c' = cg_cgx c /\ cg_ndblk c' = cg_ndblk c /\ cg_cs c' = cg_cs c /\
  cg_blktot c' = cg_blktot c /\ cg_blks c' = cg_blks c /\ cg_blksfree c' = cg_blksfree c /\
  cg_clustersum c' = cg_clustersum c /\ cg_clustersfree c' = cg_clustersfree c /\
  cg_nclusterblks c' = cg_nclusterblks c /\ cg_inosused c' = cg_inosused c /\
  zlen (cg_frsum c') = zlen (cg_frsum c).
Proof.
  unfold adjust_frsum. destruct (count =? 0); cbn; rewrite ?zlen_zset; done.
Qed.

Lemma adjust_frsum_entry c count a j X :
  0 <= count < zlen (cg_frsum c) -> 1 <= j -> zget (cg_frsum c) j = s32 X ->
  zget (cg_frsum (adjust_frsum c count a)) j = s32 (X + if count =? j then a else 0).
Proof.
  intros Hc Hj HX. unfold adjust_frsum. destruct (Z.eqb_spec count 0) as [->|Hne].
  - destruct (Z.eqb_spec 0 j); [lia|]. by rewrite Z.add_0_r.
  - cbn. by apply zget_tally.
Qed.

Lemma set_blksfree_id c : set_blksfree c (cg_blksfree c) = c.
Proof. by destruct c. Qed.

Lemma foldl_clr (h : Z -> Z) l c :
  foldl (fun c i => set_blksfree c (bit_clr (cg_blksfree c) (h i))) c l =
  set_blksfree c (clr_bits (cg_blksfree c) (h <$> l)).
Proof.
  revert c. induction l as [|x l IH]; intros c; [by rewrite set_blksfree_id|].
  cbn [foldl]. rewrite IH. done.
Qed.

Lemma foldl_set (h : Z -> Z) l c :
  foldl (fun c i => set_blksfree c (bit_set (cg_blksfree c) (h i))) c l =
  set_blksfree c (set_bits (cg_blksfree c) (h <$> l)).
Proof.
  revert c. induction l as [|x l IH]; intros c; [by rewrite set_blksfree_id|].
  cbn [foldl]. rewrite IH. done.
Qed.

Lemma elem_of_range_up s n i : i ∈ ((fun x => s + x) <$> upto 0 n 1) <-> s <= i < s + n.
Proof.
  rewrite list_elem_of_fmap. split.
  - intros (y & -> & (x & ? & -> & ?)%elem_of_upto); lia.
  - intros Hi. exists (i - s). split; [lia|]. apply elem_of_upto; [lia|]. exists (i - s). lia.
Qed.

Lemma elem_of_range_down s n i : i ∈ ((fun x => s - x - 1) <$> upto 0 n 1) <-> s - n <= i < s.
Proof.
  rewrite list_elem_of_fmap. split.
  - intros (y & -> & (x & ? & -> & ?)%elem_of_upto); lia.
  - intros Hi. exists (s - i - 1). split; [lia|]. apply elem_of_upto; [lia|]. exists (s - i - 1). lia.
Qed.

(** ** One request *)

Section Request.
Context (f : fs) (v : Z -> cg) (Hi : fs_inv f v) (d n : Z).
#[local] Abbreviation FPB := (fs_frag f).
#[local] Abbreviation k := (dtog f d).
#[local] Abbreviation s := (dtogd f d).
#[local] Abbreviation b := (dtogd f d / fs_frag f).
#[local] Abbreviation map := (cg_blksfree (v (dtog f d))).

(** The fragments [d], ..., [d+n-1] lie in one block of the disk. *)
Definition frags_ok : Prop :=
  on_disk f d /\ 1 <= n /\ s mod FPB + n <= FPB.

Context (Hok : frags_ok).
Let Hg : wf_geometry f := ai_geo f v Hi.

Lemma Hk : 0 <= k < fs_ncg f.
Proof using Hi Hok. apply on_disk_group; [apply Hi|apply Hok]. Qed.

Lemma Hblocks : wf_blocks f (v k).
Proof using Hi Hok. apply Hi, Hk. Qed.

Definition low : Z := count_low map (s - s mod FPB) (s mod FPB).
Definition high : Z := count_high FPB map (s - s mod FPB) (s mod FPB + n).

Lemma block_start : s - s mod FPB = b * FPB /\ 0 <= s < fs_fpg f /\ s mod FPB = s - b * FPB /\ 0 <= s mod FPB < FPB.
Proof using Hi Hok.
  pose proof (frag_pos f Hg) as HF. destruct (wg_fpg f Hg) as [Hp _].
  pose proof (Z.div_mod s FPB). pose proof (Z.mod_pos_bound s FPB).
  pose proof (Z.mod_pos_bound d (fs_fpg f)). unfold dtogd in *. lia.
Qed.

Lemma block_in_group : 0 <= b < nblocks f.
Proof using Hi Hok.
  pose proof (frag_pos f Hg) as HF. pose proof (nblocks_fpg f Hg).
  destruct block_start as (H1 & H2 & H3 & H4). split; [apply Z.div_pos; lia|].
  apply Z.div_lt_upper_bound; lia.
Qed.

Lemma around : run_around (is_free map) (b * FPB) FPB s n low high.
Proof using Hi Hok.
  destruct Hok as (Hd & Hn & Hin). destruct block_start as (H1 & H2 & H3 & H4).
  unfold low, high. rewrite count_low_eq, count_high_eq, H1.
  replace (b * FPB + s mod FPB - 1) with (s - 1) by lia.
  replace (b * FPB + (s mod FPB + n)) with (s + n) by lia.
  apply run_around_exists; lia.
Qed.

Lemma low_high : 0 <= low /\ 0 <= high /\ low + n + high <= FPB /\ low < 8 /\ high < 8.
Proof using Hi Hok.
  pose proof (frag_pos f Hg) as HF. destruct around as [Hn [? ?] [? ?] _ _ _ _]. lia.
Qed.

(** Merged with its neighbours the range is one run of the block. *)
Lemma whole_block :
  low + n + high = FPB -> s - low = b * FPB /\
  forall i, i / FPB = b -> s <= i < s + n \/ is_free map i = true.
Proof using Hi Hok.
  intros HF. destruct around as [Hn [? ?] [? ?] Hl Hh _ _]. split; [lia|].
  intros i Hb. apply (block_window f Hg) in Hb.
  destruct (Z.ltb_spec i s); [right; apply Hl; lia|].
  destruct (Z.ltb_spec i (s + n)); [left; lia|]. right. apply Hh. lia.
Qed.

Lemma merge_nf :
  merge_delta (w_nf FPB) low n high = if low + n + high =? FPB then n - FPB else n.
Proof using Hi Hok.
  pose proof low_high. destruct Hok as (_ & Hn & _). unfold merge_delta, w_nf.
  destruct (Z.eqb_spec (low + n + high) FPB), (Z.eqb_spec low FPB), (Z.eqb_spec high FPB); lia.
Qed.

(** The adjustments of the run table. *)
Definition frsum_split (a : Z) (c : cg) : cg := adjust_frsum (adjust_frsum c low a) high a.
Definition frsum_merge (a : Z) (c : cg) : cg := adjust_frsum c (n + low + high) a.

Lemma frsum_split_entry c a j X :
  zlen (cg_frsum c) = 8 -> 1 <= j -> zget (cg_frsum c) j = s32 X ->
  zget (cg_frsum (frsum_split a c)) j =
  s32 (X + (if low =? j then a else 0) + (if high =? j then a else 0)).
Proof using Hi Hok.
  intros Hl Hj HX. pose proof low_high. unfold frsum_split.
  apply adjust_frsum_entry; [|done|].
  - destruct (adjust_frsum_fields c low a) as (_ & _ & _ & _ & _ & _ & _ & _ & _ & _ & ->). lia.
  - apply adjust_frsum_entry; [lia|done|done].
Qed.

Lemma frsum_split_fields a c :
  let c' := frsum_split a c in
  cg_cgx c' = cg_cgx c /\ cg_ndblk c' = cg_ndblk c /\ cg_cs c' = cg_cs c /\
  cg_blktot c' = cg_blktot c /\ cg_blks c' = cg_blks c /\ cg_blksfree c' = cg_blksfree c /\
  cg_clustersum c' = cg_clustersum c /\ cg_clustersfree c' = cg_clustersfree c /\
  cg_nclusterblks c' = cg_nclusterblks c /\ cg_inosused c' = cg_inosused c /\
  zlen (cg_frsum c') = zlen (cg_frsum c).
Proof using Type.
  cbv zeta. unfold frsum_split.
  destruct (adjust_frsum_fields (adjust_frsum c low a) high a)
    as (-> & -> & -> & -> & -> & -> & -> & -> & -> & -> & ->). apply adjust_frsum_fields.
Qed.

Lemma alloc_inv_split a : alloc_inv f (vupd v k (frsum_split a (v k))).
Proof using Hi Hok.
  pose proof Hi as [[_ Hb Ht H0] _].
  destruct (frsum_split_fields a (v k)) as (_ & E1 & E2 & E3 & E4 & E5 & E6 & E7 & E8 & _).
  constructor; [done|..].
  - intros j Hj. unfold vupd. destruct (Z.eqb_spec j k) as [->|]; [|by apply Hb].
    eapply wf_blocks_ext; [..|apply Hblocks]; by rewrite ?E2.
  - eapply wf_totals_ext; [|done]. intros j _. unfold vupd.
    destruct (Z.eqb_spec j k) as [->|]; [done|done].
  - unfold vupd. destruct (Z.eqb_spec 0 k) as [E|]; [by rewrite E5, <- E|done].
Qed.

(** The group after the whole operation, up to the tables the block steps
    rewrote. *)
Lemma moved_frags c' a :
  range_flipped map (cg_blksfree c') s n a ->
  cg_frsum c' = cg_frsum (if low + n + high =? FPB then frsum_split (- a) (v k)
                          else frsum_merge a (frsum_split (- a) (v k))) ->
  cs_nffree (cg_cs c') =
    s32 (cs_nffree (cg_cs (v k)) + a * if low + n + high =? FPB then n - FPB else n) ->
  wf_frags f c'.
Proof using Hi Hok.
  intros Hfl Efr Enf. pose proof (frag_pos f Hg) as HF. pose proof low_high as Hlh.
  pose proof (fi_frags f v Hi k Hk) as Hf. destruct Hok as (_ & Hn & _).
  destruct (frsum_split_fields (- a) (v k)) as (_ & _ & _ & _ & _ & _ & _ & _ & _ & _ & El).
  pose proof (nblocks_bound f Hg).
  pose proof (group_weight_bounds f Hg map) as (_ & _ & Hb2).
  eapply (wf_frags_range f Hg (v k) c' s n a low high b); [done|apply block_in_group|done|apply around|..].
  - rewrite Efr. case_match; [|unfold frsum_merge;
      destruct (adjust_frsum_fields (frsum_split (- a) (v k)) (n + low + high) a)
        as (_ & _ & _ & _ & _ & _ & _ & _ & _ & _ & ->)];
      by rewrite El, (wf_frsum_len f _ Hf).
  - by rewrite merge_nf.
  - intros j Hj. specialize (Hb2 j ltac:(lia)). pose proof (wf_frsum f _ Hf j Hj) as Ej.
    assert (zget (cg_frsum (v k)) j = s32 (zget (cg_frsum (v k)) j)) as Es.
    { rewrite Ej. symmetry. apply s32_small. unfold in_s32. zify_pow. lia. }
    pose proof (frsum_split_entry (v k) (- a) j _ (wf_frsum_len f _ Hf) ltac:(lia) Es) as E2.
    unfold merge_delta, w_fr. rewrite Efr. destruct (Z.eqb_spec (low + n + high) FPB) as [Hw|Hw].
    + rewrite E2. f_equal. destruct (Z.eqb_spec (low + n + high) j); [lia|].
      destruct (low =? j), (high =? j); lia.
    + unfold frsum_merge. erewrite adjust_frsum_entry; [|rewrite El, (wf_frsum_len f _ Hf); lia|lia|exact E2].
      f_equal. replace (n + low + high) with (low + n + high) by lia.
      destruct (low + n + high =? j), (low =? j), (high =? j); lia.
Qed.

(** A map that differs from the group's by the range. *)
Lemma range_map_wf map' a :
  range_flipped map map' s n a -> Forall byte map' -> zlen map' = zlen map ->
  s + n <= cg_ndblk (v k) -> wf_map (set_blksfree (v k) map').
Proof using Hi Hok.
  intros [_ _ Hbits] Hb Hl Hs. pose proof (wb_map f _ Hblocks) as [M1 M2 M3].
  constructor; cbn; [done|by rewrite Hl|]. intros i Hi'. rewrite Hbits.
  destruct (in_range s n i) eqn:E; [apply in_range_spec in E; lia|by apply M3].
Qed.

(** The range breaks up no whole block and completes none. *)
Lemma partial_inv map' a :
  low + n + high <> FPB -> range_flipped map map' s n a -> Forall byte map' ->
  zlen map' = zlen map -> s + n <= cg_ndblk (v k) -> (a = 1 -> k = 0 -> b <> 0) ->
  let c' := set_cs (set_blksfree (frsum_merge a (frsum_split (- a) (v k))) map')
              (csum_add_nffree (cg_cs (v k)) (a * n)) in
  fs_inv (super_frags f k (a * n)) (vupd v k c') /\
  frags_moved f v (super_frags f k (a * n)) (vupd v k c') k s n a.
Proof using Hi Hok.
  intros Hne Hfl Hby Hl Hs H0 c'. pose proof (frag_pos f Hg) as HF.
  pose proof (wb_map f _ Hblocks) as Hm. destruct Hok as (_ & Hn & _).
  destruct (adjust_super_geo f (fun s => csum_add_nffree s (a * n)) k) as (G1 & G2 & _).
  destruct (frsum_split_fields (- a) (v k)) as (_ & E1 & E2 & E3 & E4 & E5 & E6 & E7 & E8 & E9 & _).
  destruct (adjust_frsum_fields (frsum_split (- a) (v k)) (n + low + high) a)
    as (_ & F1 & F2 & F3 & F4 & F5 & F6 & F7 & F8 & F9 & _).
  fold (frsum_merge a (frsum_split (- a) (v k))) in F1, F2, F3, F4, F5, F6, F7, F8, F9.
  assert (wf_blocks f c') as Hw'.
  { eapply (wf_blocks_ext f (set_blksfree (v k) map')); unfold c'; cbn; try congruence.
    apply (wf_blocks_map f Hg); [apply Hblocks|by eapply range_map_wf|].
    intros x. eapply (range_avail f Hg map map'); [apply Hm|done|done|apply around|lia]. }
  split.
  - constructor.
    + apply alloc_inv_step; [apply Hi|apply Hk|apply nffree_adder|done|done|].
      intros Hk0. cbn. destruct Hfl as [Ha _ Hbits]. rewrite Hbits.
      destruct (in_range s n 0) eqn:E; [|rewrite Hk0; apply (ai_boot f v), Hi].
      destruct Ha as [-> | ->]; [|done]. apply in_range_spec in E.
      destruct (H0 eq_refl Hk0). destruct block_start as (? & ? & ? & ?).
      replace s with 0 by lia. apply Z.div_0_l. lia.
    + unfold super_frags. rewrite G1. intros j Hj. unfold vupd. destruct (Z.eqb_spec j k) as [->|]; [|by apply Hi].
      apply (moved_frags c' a); [done|..]; unfold c'; cbn; destruct (Z.eqb_spec (low + n + high) FPB); try lia; done.
  - constructor; [done|done|..]; rewrite ?vupd_eq.
    + intros j Hj. by apply vupd_ne.
    + intros i. apply Hfl.
    + unfold c'. cbn. by rewrite F1, E1, F9, E9.
Qed.

(** The adjusted totals keep the geometry. *)
Lemma two_super (f0 : fs) h h' j :
  fs_geo (adjust_super (adjust_super f0 h j) h' j) = fs_geo f0 /\
  fs_ronly (adjust_super (adjust_super f0 h j) h' j) = fs_ronly f0.
Proof using Type.
  destruct (adjust_super_geo (adjust_super f0 h j) h' j) as (-> & -> & _).
  by destruct (adjust_super_geo f0 h j) as (-> & -> & _).
Qed.

(** The end of a request that goes through a whole block: [c2] is the group
    after the block step, [map'] its map after the loops. *)
Lemma whole_inv f1 c2 map' a :
  let split := frsum_split (- a) (v k) in
  let c' := set_cs (set_blksfree c2 map') (csum_add_nffree (cg_cs c2) (a * (n - FPB))) in
  low + n + high = FPB -> range_flipped map map' s n a ->
  Forall byte map' -> zlen map' = zlen (cg_blksfree c2) -> zlen (cg_blksfree c2) = zlen map ->
  s + n <= cg_ndblk (v k) -> (a = 1 -> k = 0 -> b <> 0) ->
  fs_geo f1 = fs_geo f -> fs_ronly f1 = fs_ronly f ->
  alloc_inv f1 (vupd (vupd v k split) k c2) ->
  cg_frsum c2 = cg_frsum split -> cs_nffree (cg_cs c2) = cs_nffree (cg_cs (v k)) ->
  cg_ndblk c2 = cg_ndblk (v k) -> cg_inosused c2 = cg_inosused (v k) ->
  cs_ndir (cg_cs c2) = cs_ndir (cg_cs (v k)) -> cs_nifree (cg_cs c2) = cs_nifree (cg_cs (v k)) ->
  (forall x, block_avail FPB map' (x * FPB) = block_avail FPB (cg_blksfree c2) (x * FPB)) ->
  fs_inv (super_frags f1 k (a * (n - FPB))) (vupd v k c') /\
  frags_moved f v (super_frags f1 k (a * (n - FPB))) (vupd v k c') k s n a.
Proof using Hi Hok.
  intros split c' HF Hfl Hby Hl Hl2 Hs H0 Eg Er Hi2 Efr Enf End' Eino Edir Eif Hav.
  pose proof (wb_map f _ Hblocks) as [M1 M2 M3]. destruct Hok as (_ & Hn & _).
  destruct (adjust_super_geo f1 (fun s => csum_add_nffree s (a * (n - FPB))) k) as (G1 & G2 & _).
  assert (wf_blocks f c2) as Hw2.
  { rewrite <- Eg. rewrite <- (vupd_eq (vupd v k split) k c2). apply Hi2. rewrite Eg. apply Hk. }
  assert (wf_blocks f c') as Hw'.
  { apply (wf_blocks_ext f (set_blksfree c2 map')); try done.
    apply (wf_blocks_map f Hg); [done| |done].
    pose proof (range_map_wf map' a Hfl Hby ltac:(congruence) Hs) as [N1 N2 N3]. cbn in *.
    constructor; cbn; [done|by rewrite End'|by rewrite End']. }
  assert (vupd v k c' k = c') as Ek by apply vupd_eq.
  split.
  - constructor.
    + assert (alloc_inv (super_frags f1 k (a * (n - FPB))) (vupd (vupd (vupd v k split) k c2) k c')) as Hi'.
      { apply alloc_inv_step; [done|rewrite Eg; apply Hk|apply nffree_adder|by rewrite vupd_eq|by rewrite Eg|].
        intros Hk0. cbn. destruct Hfl as [Ha _ Hbits]. rewrite Hbits.
        destruct (in_range s n 0) eqn:E; [|rewrite Hk0; apply (ai_boot f v), Hi].
        destruct Ha as [-> | ->]; [|done]. apply in_range_spec in E.
        destruct (H0 eq_refl Hk0). destruct block_start as (? & ? & ? & ?).
        replace s with 0 by lia. apply Z.div_0_l. lia. }
      destruct Hi' as [J1 J2 J3 J4].
      constructor; [done|..].
      * intros j Hj. specialize (J2 j Hj). by rewrite !vupd_vupd in J2.
      * eapply wf_totals_ext; [|exact J3]. intros j _. by rewrite !vupd_vupd.
      * by rewrite !vupd_vupd in J4.
    + unfold super_frags. rewrite G1, Eg. intros j Hj. unfold vupd.
      destruct (Z.eqb_spec j k) as [->|]; [|by apply Hi].
      apply (moved_frags c' a); rewrite ?(proj2 (Z.eqb_eq _ _) HF); [done|done|].
      cbn. by rewrite Enf.
  - constructor; [by etrans|by etrans|..]; rewrite ?vupd_eq.
    + intros j Hj. by apply vupd_ne.
    + intros i. apply Hfl.
    + cbn. done.
Qed.

End Request.

(** ** frags_allocate *)

Lemma set_blksfree_twice c m m' : set_blksfree (set_blksfree c m) m' = set_blksfree c m'.
Proof. done. Qed.

(** The groups when the free block a request breaks up is taken. *)
Section Whole.
Context (f : fs) (v : Z -> cg) (Hi : fs_inv f v) (d n : Z) (Hok : frags_ok f d n).
#[local] Abbreviation FPB := (fs_frag f).
#[local] Abbreviation k := (dtog f d).
#[local] Abbreviation s := (dtogd f d).
#[local] Abbreviation b := (dtogd f d / fs_frag f).
#[local] Abbreviation map := (cg_blksfree (v (dtog f d))).
#[local] Abbreviation low := (low f v d).
#[local] Abbreviation high := (high f v d n).
Let Hg : wf_geometry f := ai_geo f v Hi.

Definition split_groups (a : Z) : Z -> cg := vupd v k (frsum_split f v d n a (v k)).

Lemma split_map a : cg_blksfree (split_groups a k) = map /\ cg_ndblk (split_groups a k) = cg_ndblk (v k).
Proof using Type.
  unfold split_groups. rewrite vupd_eq.
  by destruct (frsum_split_fields f v d n a (v k)) as (_ & -> & _ & _ & _ & -> & _).
Qed.

Lemma split_inv a : alloc_inv f (split_groups a).
Proof using Hi Hok. apply alloc_inv_split; done. Qed.

Lemma free_range_inside c i :
  wf_map c -> is_free (cg_blksfree c) i = true -> 0 <= i -> in_map (cg_blksfree c) i /\ i < cg_ndblk c.
Proof using Type.
  intros [M1 M2 M3] Hf Hi0. destruct (Z.ltb_spec i (cg_ndblk c)); [unfold in_map; lia|].
  by rewrite M3 in Hf by lia.
Qed.

Lemma whole_free :
  low + n + high = FPB -> (forall i, s <= i < s + n -> is_free map i = true) ->
  free_block FPB (split_groups 1 k) (b * FPB) /\ group_block f (v k) b.
Proof using Hi Hok.
  intros HF Hfr. destruct (whole_block f v Hi d n Hok HF) as [Hs Hall].
  pose proof (frag_pos f Hg) as Hp. pose proof (Hblocks f v Hi d n Hok) as Hw.
  assert (forall i, i / FPB = b -> is_free map i = true) as Hfree.
  { intros i Hb. destruct (Hall i Hb) as [Hr|]; [by apply Hfr|done]. }
  destruct (block_start f v Hi d n Hok) as (? & ? & ? & ?).
  assert (0 <= b) as Hb0 by (apply Z.div_pos; lia).
  pose proof (split_map 1) as [E1 E2].
  split.
  - unfold free_block. rewrite E1, E2, Z.div_mul, Z.mod_mul by lia.
    split; [|done]. split; [nia|]. eapply free_range_inside; [apply Hw|apply Hfree|nia].
    by rewrite Z.div_mul by lia.
  - split; [done|]. assert (b * FPB + FPB - 1 < cg_ndblk (v k)); [|lia].
    eapply free_range_inside; [apply Hw|apply Hfree|nia].
    symmetry. apply (Z.div_unique _ _ _ (FPB - 1)); lia.
Qed.

(** [block_allocate] asked for a block of the disk that is free returns it. *)
Lemma chosen_self v' b0 j x :
  alloc_inv f v' -> free_block FPB (v' k) (b * FPB) -> dtog f b0 = k -> dtogd f b0 = b * FPB ->
  chosen f v' b0 j x -> j = k /\ x = b * FPB.
Proof using Hi Hok.
  intros Hi' Hfb Ek Es (Hj & Hx & [[-> Hmin]|[Hno _]]).
  - split; [done|]. rewrite Ek in *. specialize (Hmin _ Hfb). rewrite Es in Hmin.
    assert (near_pref f (v' k) (b * FPB) = b * FPB) as Hn.
    { pose proof (frag_pos f Hg). unfold near_pref. rewrite blknum_eq, Z.div_mul by (done || lia).
      destruct Hfb as ((? & ?) & _). destruct (Z.ltb_spec (cg_ndblk (v' k)) (b * FPB)); lia. }
    rewrite Hn in Hmin. lia.
  - rewrite Ek in Hno. by destruct (Hno (b * FPB)).
Qed.

Lemma block_address :
  let b0 := d - s mod FPB in
  dtog f b0 = k /\ dtogd f b0 = b * FPB /\ u32 (b * FPB + cgbase f k) = b0.
Proof using Hi Hok.
  cbv zeta. destruct (block_start f v Hi d n Hok) as (H1 & H2 & H3 & H4).
  pose proof (Hk f v Hi d n Hok) as Hkr. pose proof (group_split f Hg d) as Hsp.
  pose proof (frag_pos f Hg).
  assert (d - s mod FPB = b * FPB + cgbase f k) as -> by (rewrite cgbase_eq by done; lia).
  assert (0 <= b) by (apply Z.div_pos; lia).
  destruct (group_join f Hg k (b * FPB) Hkr ltac:(nia)) as [-> ->].
  split; [done|]. split; [done|]. apply u32_small. rewrite cgbase_eq by done.
  pose proof (group_bound f Hg k Hkr). unfold in_u32. zify_pow. nia.
Qed.

(** The loops after the block is taken set the bits below and above the
    range again. *)
Lemma whole_taken (L H : list Z) :
  let c2 := taken f (split_groups 1 k) (b * FPB) in
  let map' := set_bits (set_bits (cg_blksfree c2) L) H in
  low + n + high = FPB -> (forall i, s <= i < s + n -> is_free map i = true) ->
  (forall i, i ∈ L <-> s - low <= i < s) -> (forall i, i ∈ H <-> s + n <= i < s + n + high) ->
  range_flipped map map' s n (-1) /\ Forall byte map' /\
  zlen map' = zlen (cg_blksfree c2) /\ zlen (cg_blksfree c2) = zlen map /\
  forall x, block_avail FPB map' (x * FPB) = block_avail FPB (cg_blksfree c2) (x * FPB).
Proof using Hi Hok.
  intros c2 map' HF Hfr HL HH.
  destruct (whole_free HF Hfr) as [Hfb Hgb]. pose proof (split_map 1) as [E1 E2].
  pose proof (Hk f v Hi d n Hok) as Hkr. pose proof (frag_pos f Hg) as Hp.
  pose proof (taken_range f (split_groups 1) (split_inv 1) k Hkr (b * FPB) Hfb) as [_ T1 T2].
  rewrite E1 in T1, T2. fold c2 in T2.
  destruct (whole_block f v Hi d n Hok HF) as [Hs Hall]. pose proof (low_high f v Hi d n Hok) as Hlh.
  destruct Hok as (_ & Hn & _).
  pose proof (wb_map f _ (Hblocks f v Hi d n Hok)) as [M1 M2 M3].
  assert (zlen (cg_blksfree c2) = zlen map) as El.
  { unfold c2, taken. destruct (block_step_rest f (split_groups 1 k)
      (block_alloc FPB (cg_blksfree (split_groups 1 k)) (b * FPB)) (b * FPB) (-1)) as (-> & _).
    by rewrite zlen_block_alloc, E1. }
  assert (Forall byte (cg_blksfree c2)) as Hby.
  { unfold c2, taken. destruct (block_step_rest f (split_groups 1 k)
      (block_alloc FPB (cg_blksfree (split_groups 1 k)) (b * FPB)) (b * FPB) (-1)) as (-> & _).
    apply bytes_block_alloc. by rewrite E1. }
  assert (forall i, b * FPB <= i < b * FPB + FPB -> in_map (cg_blksfree c2) i) as Hin.
  { intros i Hr. unfold in_map. rewrite El. destruct Hgb. nia. }
  assert (forall i, is_free map' i = if in_range s n i then false else is_free map i) as Hbits.
  { intros i. unfold map'. rewrite !set_bits_free; cycle 1.
    - intros x Hx%HL. apply Hin. lia.
    - intros x Hx%HH. unfold in_map. rewrite zlen_set_bits. apply Hin. lia.
    - rewrite T2. change (0 <? -1) with false. rewrite (bool_decide_ext _ _ (HL i)), (bool_decide_ext _ _ (HH i)).
      destruct (in_range s n i) eqn:E; [apply in_range_spec in E|].
      + rewrite (proj2 (in_range_spec (b * FPB) FPB i)) by lia.
        rewrite !bool_decide_eq_false_2 by lia. done.
      + assert (~ (s <= i < s + n)) as Hni by (rewrite <- in_range_spec, E; done).
        destruct (in_range (b * FPB) FPB i) eqn:E3; [apply in_range_spec in E3|].
        * destruct (Hall i) as [|Ht]; [by apply (block_window f Hg)|done|]. rewrite Ht. cbn.
          destruct (bool_decide_reflect (s - low <= i < s)), (bool_decide_reflect (s + n <= i < s + n + high)); try done. lia.
        * assert (~ (b * FPB <= i < b * FPB + FPB)) by (rewrite <- in_range_spec, E3; done).
          rewrite !bool_decide_eq_false_2 by lia. by rewrite !orb_false_r. }
  split; [by constructor; [right| |]|]. split; [by apply bytes_set_bits, bytes_set_bits|].
  split; [unfold map'; by rewrite !zlen_set_bits|]. split; [done|].
  assert (Forall byte map') as Hby' by by apply bytes_set_bits, bytes_set_bits.
  assert (in_range s n s = true /\ in_range (b * FPB) FPB s = true) as [Hr1 Hr2]
    by (rewrite !in_range_spec; lia).
  intros x. destruct (Z.eqb_spec x b) as [->|Hne].
  - assert (s / FPB = b) as Hsb by done.
    rewrite !(avail_false f Hg _ _ s) by first [done|by rewrite Hbits, Hr1|by rewrite T2, Hr2]. done.
  - apply (avail_ext f Hg); [done|done|]. intros i Hix. rewrite Hbits, T2.
    destruct (in_range (b * FPB) FPB i) eqn:E3;
      [apply in_range_spec, (block_window f Hg) in E3; congruence|].
    destruct (in_range s n i) eqn:E4; [|done]. apply in_range_spec in E4.
    assert (in_range (b * FPB) FPB i = true) by (apply in_range_spec; lia). congruence.
Qed.

(** A run that completes its block: giving the block back sets exactly the
    bits of the run. *)
Lemma whole_given :
  let c2 := given f (split_groups (-1) k) (b * FPB) in
  low + n + high = FPB -> (forall i, s <= i < s + n -> is_free map i = false) ->
  s + n <= cg_ndblk (v k) -> (k = 0 -> b <> 0) ->
  range_flipped map (cg_blksfree c2) s n 1 /\ Forall byte (cg_blksfree c2) /\
  zlen (cg_blksfree c2) = zlen map /\
  alloc_inv (super_blks f k 1) (vupd (split_groups (-1)) k c2).
Proof using Hi Hok.
  intros c2 HF Hu Hsn H0. pose proof (split_map (-1)) as [E1 E2].
  pose proof (Hk f v Hi d n Hok) as Hkr. pose proof (frag_pos f Hg) as Hp.
  pose proof (Hblocks f v Hi d n Hok) as Hw. pose proof (wb_map f _ Hw) as Hm.
  destruct (whole_block f v Hi d n Hok HF) as [Hs Hall]. pose proof (low_high f v Hi d n Hok) as Hlh.
  assert (1 <= n) as Hn by apply Hok.
  assert (0 <= b) as Hb0 by apply (block_in_group f v Hi d n Hok).
  assert (b * FPB / FPB = b) as Hd by (apply Z.div_mul; lia).
  assert (group_block f (v k) b) as Hgb.
  { split; [done|]. destruct (Z.eqb_spec high 0); [lia|].
    destruct (Hall (b * FPB + FPB - 1)) as [|Hf]; [|lia|].
    - symmetry. apply (Z.div_unique _ _ _ (FPB - 1)); lia.
    - apply free_range_inside in Hf as [_ ?]; [lia|done|nia]. }
  assert (group_block f (split_groups (-1) k) b) as Hgb' by (unfold group_block; rewrite E2; done).
  destruct (group_block_in_map f Hg (v k) b (b * FPB) Hm Hgb Hd) as [Hin _].
  destruct (block_step_rest f (split_groups (-1) k)
    (block_dealloc FPB (cg_blksfree (split_groups (-1) k)) (b * FPB)) (b * FPB) 1) as (E & _).
  fold (given f (split_groups (-1) k) (b * FPB)) in E. fold c2 in E. rewrite E1 in E.
  split; [|split; [|split]].
  - constructor; [by left|done|]. intros i.
    rewrite E, block_dealloc_free, Hd by (done || apply Hg).
    destruct (in_range s n i) eqn:Er; [apply in_range_spec in Er|].
    + replace (i / FPB) with b by (symmetry; apply (block_window f Hg); lia). by rewrite Z.eqb_refl.
    + destruct (Z.eqb_spec (i / FPB) b) as [Hib|]; [|done].
      destruct (Hall i Hib) as [Hr%in_range_spec|Ht]; [congruence|by rewrite Ht].
  - rewrite E. apply bytes_block_dealloc, Hm.
  - by rewrite E, zlen_block_dealloc.
  - apply alloc_inv_given; [apply split_inv|done|done|done|]. rewrite E1.
    apply (avail_false f Hg _ _ s); [apply Hm|done|]. apply Hu. lia.
Qed.

(** The group after [taken] or [given] on the split tables. *)
Lemma step_fields map' x y :
  let c2 := block_step f (split_groups x k) map' (b * FPB) y in
  cg_blksfree c2 = map' /\ cg_cgx c2 = cg_cgx (v k) /\
  cg_frsum c2 = cg_frsum (frsum_split f v d n x (v k)) /\
  cg_cs c2 = csum_add_nbfree (cg_cs (v k)) y /\
  cg_inosused c2 = cg_inosused (v k) /\ cg_ndblk c2 = cg_ndblk (v k).
Proof using Type.
  cbv zeta. rewrite block_step_cgx.
  destruct (block_step_rest f (split_groups x k) map' (b * FPB) y) as (-> & -> & -> & -> & ->).
  unfold split_groups. rewrite vupd_eq.
  destruct (frsum_split_fields f v d n x (v k)) as (-> & -> & -> & _ & _ & _ & _ & _ & _ & -> & _).
  done.
Qed.

Lemma alloc_whole_final (L H : list Z) :
  let c2 := taken f (split_groups 1 k) (b * FPB) in
  let map' := set_bits (set_bits (cg_blksfree c2) L) H in
  let c' := set_cs (set_blksfree c2 map') (csum_add_nffree (cg_cs c2) (FPB - n)) in
  let f' := super_frags (super_blks f k (-1)) k (FPB - n) in
  low + n + high = FPB -> (forall i, s <= i < s + n -> is_free map i = true) ->
  s + n <= cg_ndblk (v k) ->
  (forall i, i ∈ L <-> s - low <= i < s) -> (forall i, i ∈ H <-> s + n <= i < s + n + high) ->
  fs_inv f' (vupd v k c') /\ frags_moved f v f' (vupd v k c') k s n (-1).
Proof using Hi Hok.
  intros c2 map' c' f' HF Hfr Hsn HL HH. pose proof (Hk f v Hi d n Hok) as Hkr.
  destruct (whole_taken L H HF Hfr HL HH) as (W1 & W2 & W3 & W4 & W5).
  destruct (whole_free HF Hfr) as [Hfb Hgb].
  destruct (alloc_inv_taken f _ (split_inv 1) k Hkr _ Hfb) as [Hsi2 _].
  destruct (adjust_super_geo f (fun s => csum_add_nbfree s (-1)) k) as (G1 & G2 & _).
  destruct (step_fields (block_alloc FPB (cg_blksfree (split_groups 1 k)) (b * FPB)) 1 (-1))
    as (R1 & _ & R2 & R3 & R4 & R5).
  fold (taken f (split_groups 1 k) (b * FPB)) in R1, R2, R3, R4, R5. fold c2 in R1, R2, R3, R4, R5.
  pose proof (whole_inv f v Hi d n Hok (super_blks f k (-1)) c2 map' (-1) HF W1 W2 W3 W4 Hsn
    ltac:(done) G1 G2 Hsi2 R2 ltac:(by rewrite R3) R5 R4 ltac:(by rewrite R3) ltac:(by rewrite R3) W5) as HJ.
  by replace (-1 * (n - FPB)) with (FPB - n) in HJ by lia.
Qed.

Lemma give_whole_final :
  let c2 := given f (split_groups (-1) k) (b * FPB) in
  let c' := set_cs c2 (csum_add_nffree (cg_cs c2) (n - FPB)) in
  let f' := super_frags (super_blks f k 1) k (n - FPB) in
  low + n + high = FPB -> (forall i, s <= i < s + n -> is_free map i = false) ->
  s + n <= cg_ndblk (v k) -> (k = 0 -> b <> 0) ->
  fs_inv f' (vupd v k c') /\ frags_moved f v f' (vupd v k c') k s n 1.
Proof using Hi Hok.
  intros c2 c' f' HF Hu Hsn H0. pose proof (Hk f v Hi d n Hok) as Hkr.
  destruct (whole_given HF Hu Hsn H0) as (W1 & W2 & W3 & W4). fold c2 in W1, W2, W3, W4.
  destruct (adjust_super_geo f (fun s => csum_add_nbfree s 1) k) as (G1 & G2 & _).
  destruct (step_fields (block_dealloc FPB (cg_blksfree (split_groups (-1) k)) (b * FPB)) (-1) 1)
    as (R1 & _ & R2 & R3 & R4 & R5).
  fold (given f (split_groups (-1) k) (b * FPB)) in R1, R2, R3, R4, R5. fold c2 in R1, R2, R3, R4, R5.
  pose proof (whole_inv f v Hi d n Hok (super_blks f k 1) c2 (cg_blksfree c2) 1 HF W1 W2 eq_refl W3 Hsn
    ltac:(done) G1 G2 W4 R2 ltac:(by rewrite R3) R5 R4 ltac:(by rewrite R3) ltac:(by rewrite R3)
    ltac:(done)) as HJ.
  rewrite set_blksfree_id in HJ. by replace (1 * (n - FPB)) with (n - FPB) in HJ by lia.
Qed.

End Whole.

Section Wp.
Context {S : Type} `{CgStoreLaws S}.

Lemma clr_range map s n :
  (forall i, s <= i < s + n -> is_free map i = true /\ in_map map i) ->
  range_flipped map (clr_bits map ((fun x => s + x) <$> upto 0 n 1)) s n (-1).
Proof.
  intros Hr. constructor; [by right|intros i Hi; by apply Hr|]. intros i.
  rewrite clr_bits_free by (intros x Hx%elem_of_range_up; by apply Hr).
  destruct (in_range s n i) eqn:E.
  - apply in_range_spec in E. rewrite bool_decide_eq_true_2 by by apply elem_of_range_up.
    by rewrite andb_false_r.
  - rewrite bool_decide_eq_false_2; [by rewrite andb_true_r|].
    rewrite elem_of_range_up, <- in_range_spec. by rewrite E.
Qed.

Lemma set_range map s n :
  (forall i, s <= i < s + n -> is_free map i = false /\ in_map map i) ->
  range_flipped map (set_bits map ((fun x => s + x) <$> upto 0 n 1)) s n 1.
Proof.
  intros Hr. constructor; [by left|intros i Hi; by apply Hr|]. intros i.
  rewrite set_bits_free by (intros x Hx%elem_of_range_up; by apply Hr).
  destruct (in_range s n i) eqn:E.
  - apply in_range_spec in E. rewrite bool_decide_eq_true_2 by by apply elem_of_range_up.
    by rewrite orb_true_r.
  - rewrite bool_decide_eq_false_2; [by rewrite orb_false_r|].
    rewrite elem_of_range_up, <- in_range_spec. by rewrite E.
Qed.

Lemma wp_frsum_split {A} (h : unit -> M S A) (l hh a : Z) (Q : A -> S -> Prop) s (f : fs) v k p :
  holds_at s f v k p -> 0 <= k < fs_ncg f -> cg_cgx (v k) = k ->
  (forall s', holds_at s' f (vupd v k (adjust_frsum (adjust_frsum (v k) l a) hh a)) k p ->
     wp (h tt) Q s') ->
  wp (adjust_frsum_m p l a ;; adjust_frsum_m p hh a ;; h tt) Q s.
Proof.
  intros Hh Hk Hx HQ. unfold adjust_frsum_m. apply wp_bnd. eapply wp_upd_cg; [done|done|..].
  { by destruct (adjust_frsum_fields (v k) l a) as (-> & _). }
  intros s1 Hh1. apply wp_bnd. eapply wp_upd_cg; [done|done|..]; rewrite ?vupd_eq.
  { destruct (adjust_frsum_fields (adjust_frsum (v k) l a) hh a) as (-> & _).
    by destruct (adjust_frsum_fields (v k) l a) as (-> & _). }
  intros s2 Hh2. apply HQ. eapply holds_at_ext; [|done]. intros j. by rewrite vupd_vupd.
Qed.

Lemma wp_adjust_frags a (Q : unit -> S -> Prop) s (f : fs) v k p :
  holds_at s f v k p -> 0 <= k < fs_ncg f -> cg_cgx (v k) = k ->
  (forall s', holds_at s' (super_frags f k a)
     (vupd v k (set_cs (v k) (csum_add_nffree (cg_cs (v k)) a))) k p -> Q tt s') ->
  wp (adjust_frags_free_m p k a) Q s.
Proof.
  intros Hh Hk Hx HQ. unfold adjust_frags_free_m.
  destruct (adjust_super_geo f (fun s => csum_add_nffree s a) k) as (Eg & Er & _).
  eapply wp_upd_both; [done|done|done|exact Eg|exact Er|]. intros s' Hh'. by apply HQ.
Qed.

Lemma wp_mfor_set (h : Z -> Z) (l : list Z) (Q : unit -> S -> Prop) s (f : fs) v k p :
  holds_at s f v k p -> 0 <= k < fs_ncg f -> cg_cgx (v k) = k ->
  (forall s', holds_at s' f
     (vupd v k (set_blksfree (v k) (set_bits (cg_blksfree (v k)) (h <$> l)))) k p -> Q tt s') ->
  wp (mfor l (fun index => upd_cg p (fun c => set_blksfree c (bit_set (cg_blksfree c) (h index))))) Q s.
Proof.
  intros Hh Hk Hx HQ.
  eapply (wp_mfor_cg (fun i c => set_blksfree c (bit_set (cg_blksfree c) (h i)))); [done|done|done|done|].
  intros s' Hh'. apply HQ. by rewrite foldl_set in Hh'.
Qed.

Lemma wp_mfor_clr (h : Z -> Z) (l : list Z) (Q : unit -> S -> Prop) s (f : fs) v k p :
  holds_at s f v k p -> 0 <= k < fs_ncg f -> cg_cgx (v k) = k ->
  (forall s', holds_at s' f
     (vupd v k (set_blksfree (v k) (clr_bits (cg_blksfree (v k)) (h <$> l)))) k p -> Q tt s') ->
  wp (mfor l (fun index => upd_cg p (fun c => set_blksfree c (bit_clr (cg_blksfree c) (h index))))) Q s.
Proof.
  intros Hh Hk Hx HQ.
  eapply (wp_mfor_cg (fun i c => set_blksfree c (bit_clr (cg_blksfree c) (h i)))); [done|done|done|done|].
  intros s' Hh'. apply HQ. by rewrite foldl_clr in Hh'.
Qed.

Lemma frsum_split_cgx f v d n a c : cg_cgx (frsum_split f v d n a c) = cg_cgx c.
Proof. by destruct (frsum_split_fields f v d n a c) as (-> & _). Qed.

Lemma frsum_merge_cgx f v d n a c : cg_cgx (frsum_merge f v d n a c) = cg_cgx c.
Proof. unfold frsum_merge. by destruct (adjust_frsum_fields c (n + low f v d + high f v d n) a) as (-> & _). Qed.

Section Take.
Context (f : fs) (v : Z -> cg) (d n : Z) (Hi : fs_inv f v) (Hok : frags_ok f d n).
Context (Hfr : forall i, dtogd f d <= i < dtogd f d + n -> is_free (cg_blksfree (v (dtog f d))) i = true).
Context (Q : Z -> S -> Prop).
Context (HQ : forall s' f' v', holds s' f' v' -> fs_inv f' v' -> frags_moved f v f' v' (dtog f d) (dtogd f d) n (-1) -> Q 0 s').

Lemma take_inside i : dtogd f d <= i < dtogd f d + n ->
  in_map (cg_blksfree (v (dtog f d))) i /\ i < cg_ndblk (v (dtog f d)).
Proof using Hi Hok Hfr.
  intros Hr. pose proof (block_start f v Hi d n Hok) as Hbs.
  apply free_range_inside; [apply (wb_map f), (Hblocks f v Hi d n Hok)|by apply Hfr|lia].
Qed.

Lemma take_end : dtogd f d + n <= cg_ndblk (v (dtog f d)).
Proof using Hi Hok Hfr.
  destruct Hok as (_ & ? & _). destruct (take_inside (dtogd f d + n - 1)); lia.
Qed.

(** The fragments with those around them make a whole block: it is taken,
    and the others are given back. *)
Lemma wp_take_whole s p :
  holds_at s f (split_groups f v d n 1) (dtog f d) p -> cg_cgx (split_groups f v d n 1 (dtog f d)) = dtog f d ->
  low f v d + n + high f v d n = fs_frag f ->
  wp (got <- block_allocate (d - dtogd f d mod fs_frag f) ;;
      if negb (got =? d - dtogd f d mod fs_frag f) then
        (if negb (got =? 0) then block_deallocate got else ret tt) ;;
        adjust_frags_free_m p (dtog f d) n ;;
        adjust_frsum_m p (low f v d) (-1) ;;
        adjust_frsum_m p (high f v d n) (-1) ;;
        set_readonly ;;
        ret 1
      else
        mfor (upto 0 (low f v d) 1) (fun index =>
          upd_cg p (fun c => set_blksfree c (bit_set (cg_blksfree c) (dtogd f d - index - 1)))) ;;
        mfor (upto 0 (high f v d n) 1) (fun index =>
          upd_cg p (fun c => set_blksfree c (bit_set (cg_blksfree c) (dtogd f d + n + index)))) ;;
        adjust_frags_free_m p (dtog f d) (fs_frag f - n) ;;
        ret 0) Q s.
Proof using All.
  intros Hh2 Hx2 HF. pose proof (Hk f v Hi d n Hok) as Hkr.
  destruct (block_address f v Hi d n Hok) as (A1 & A2 & A3).
  destruct (whole_free f v Hi d n Hok HF Hfr) as [Hfb Hgb].
  pose proof (split_inv f v Hi d n Hok 1) as Hsi.
  apply wp_bnd. eapply wp_block_allocate; [apply Hh2|done|by rewrite A1|..].
  { intros Hfull. by destruct (Hfull (dtog f d) (dtogd f d / fs_frag f * fs_frag f) Hkr). }
  intros k' b' s3 p3 Hch Hh3 Hp3.
  destruct (chosen_self f v Hi d n Hok _ _ _ _ Hsi Hfb A1 A2 Hch) as [-> ->].
  rewrite (Hp3 p true) in * by (try done; apply Hh2). cbv beta. rewrite A3, Z.eqb_refl. cbn [negb].
  set (c2 := taken f (split_groups f v d n 1 (dtog f d)) (dtogd f d / fs_frag f * fs_frag f)) in *.
  assert (cg_cgx c2 = dtog f d) as Hx3 by (unfold c2, taken; by rewrite block_step_cgx).
  destruct (adjust_super_geo f (fun s => csum_add_nbfree s (-1)) (dtog f d)) as (G1 & G2 & _).
  fold (super_blks f (dtog f d) (-1)) in G1, G2.
  apply wp_bnd. eapply (wp_mfor_set (fun index => dtogd f d - index - 1));
    [done|by rewrite G1|by rewrite vupd_eq|]. intros s4 Hh4. cbv beta. rewrite vupd_eq in Hh4.
  apply wp_bnd. eapply (wp_mfor_set (fun index => dtogd f d + n + index));
    [done|by rewrite G1|by rewrite vupd_eq|]. intros s5 Hh5. cbv beta. rewrite vupd_eq in Hh5.
  apply wp_bnd. eapply wp_adjust_frags; [done|by rewrite G1|by rewrite vupd_eq|].
  intros s6 [Hh6 _]. cbv beta. apply wp_ret. rewrite vupd_eq in Hh6.
  destruct (alloc_whole_final f v Hi d n Hok _ _ HF Hfr take_end
    (elem_of_range_down (dtogd f d) (low f v d)) (elem_of_range_up (dtogd f d + n) (high f v d n)))
    as (J1 & J2). fold c2 in J1, J2.
  eapply HQ; [|exact J1|exact J2]. eapply holds_ext; [|exact Hh6]. intros j _.
  unfold split_groups. by rewrite !vupd_vupd.
Qed.

(** Part of a block: the run is split and its middle taken. *)
Lemma wp_take_part s p :
  holds_at s f (split_groups f v d n 1) (dtog f d) p -> cg_cgx (split_groups f v d n 1 (dtog f d)) = dtog f d ->
  low f v d + n + high f v d n <> fs_frag f ->
  wp (adjust_frsum_m p (n + low f v d + high f v d n) (-1) ;;
      mfor (upto 0 n 1) (fun index =>
        upd_cg p (fun c => set_blksfree c (bit_clr (cg_blksfree c) (dtogd f d + index)))) ;;
      adjust_frags_free_m p (dtog f d) (- n) ;;
      ret 0) Q s.
Proof using All.
  intros Hh2 Hx2 HF. pose proof (Hk f v Hi d n Hok) as Hkr. pose proof (wb_map f _ (Hblocks f v Hi d n Hok)) as Hm.
  apply wp_bnd. unfold adjust_frsum_m. eapply wp_upd_cg; [done|done|..].
  { by destruct (adjust_frsum_fields (split_groups f v d n 1 (dtog f d)) (n + low f v d + high f v d n) (-1)) as (-> & _). }
  intros s3 Hh3. cbv beta.
  fold (frsum_merge f v d n (-1) (split_groups f v d n 1 (dtog f d))) in Hh3.
  assert (cg_cgx (frsum_merge f v d n (-1) (split_groups f v d n 1 (dtog f d))) = dtog f d) as Hx3
    by by rewrite frsum_merge_cgx.
  apply wp_bnd. eapply (wp_mfor_clr (fun index => dtogd f d + index)); [done|done|by rewrite vupd_eq|].
  intros s4 Hh4. cbv beta. rewrite vupd_eq in Hh4.
  apply wp_bnd. eapply wp_adjust_frags; [done|done|by rewrite vupd_eq|].
  intros s5 Hh5. cbv beta. apply wp_ret. rewrite vupd_eq in Hh5.
  pose proof (split_map f v d n 1) as [M1 M2].
  destruct (adjust_frsum_fields (split_groups f v d n 1 (dtog f d)) (n + low f v d + high f v d n) (-1))
    as (_ & _ & P2 & _ & _ & P5 & _).
  fold (frsum_merge f v d n (-1) (split_groups f v d n 1 (dtog f d))) in P2, P5.
  rewrite P5, M1 in Hh5.
  pose proof (clr_range (cg_blksfree (v (dtog f d))) (dtogd f d) n
    ltac:(intros i Hr; split; [by apply Hfr|by apply take_inside])) as Hfl.
  destruct (partial_inv f v Hi d n Hok _ (-1) HF Hfl) as [J1 J2];
    [apply bytes_clr_bits, Hm|by rewrite zlen_clr_bits|apply take_end|done|].
  replace (-1 * n) with (- n) in J1, J2 by lia.
  eapply HQ; [|exact J1|exact J2]. destruct Hh5 as [Hh5 _]. eapply holds_ext; [|exact Hh5]. intros j _.
  cbn [set_blksfree set_cs cg_cs]. rewrite P2. unfold split_groups. rewrite vupd_eq, !vupd_vupd.
  by destruct (frsum_split_fields f v d n 1 (v (dtog f d))) as (_ & _ & -> & _).
Qed.

Lemma wp_frags_allocate s : holds s f v -> wp (frags_allocate d n) Q s.
Proof using All.
  intros Hh. pose proof (Hk f v Hi d n Hok) as Hkr. pose proof (holds_cgx _ _ _ _ Hh Hkr) as Hx.
  unfold frags_allocate. apply wp_bnd. eapply wp_superblock; [done|]. cbv beta zeta.
  apply wp_bnd. eapply wp_cache_cg_write; [done|done|]. intros p s1 Hh1 _. cbv beta iota.
  apply wp_bnd. eapply wp_superblock; [apply Hh1|]. cbv beta.
  apply wp_bnd. eapply wp_load; [apply Hh1|done|apply Hh1|]. cbv beta.
  fold (low f v d) (high f v d n).
  eapply (wp_frsum_split (fun _ => if n + low f v d + high f v d n =? fs_frag f then _ else _)); [done|done|done|].
  intros s2 Hh2. fold (frsum_split f v d n 1 (v (dtog f d))) in Hh2. fold (split_groups f v d n 1) in Hh2.
  assert (cg_cgx (split_groups f v d n 1 (dtog f d)) = dtog f d) as Hx2
    by (unfold split_groups; by rewrite vupd_eq, frsum_split_cgx).
  destruct (Z.eqb_spec (n + low f v d + high f v d n) (fs_frag f)) as [HF|HF].
  - apply wp_take_whole; [done|done|lia].
  - apply wp_take_part; [done|done|lia].
Qed.

End Take.

(** ** frags_deallocate *)

Section Give.
Context (f : fs) (v : Z -> cg) (d n : Z) (Hi : fs_inv f v) (Hok : frags_ok f d n).
Context (Hu : forall i, dtogd f d <= i < dtogd f d + n -> is_free (cg_blksfree (v (dtog f d))) i = false).
Context (Hsn : dtogd f d + n <= cg_ndblk (v (dtog f d))) (Hb0 : dtog f d = 0 -> dtogd f d / fs_frag f <> 0).
Context (Q : unit -> S -> Prop).
Context (HQ : forall s' f' v', holds s' f' v' -> fs_inv f' v' -> frags_moved f v f' v' (dtog f d) (dtogd f d) n 1 -> Q tt s').

(** The last fragments of a block: the whole block is given back. *)
Lemma wp_give_whole s p :
  holds_at s f (split_groups f v d n (-1)) (dtog f d) p -> cg_cgx (split_groups f v d n (-1) (dtog f d)) = dtog f d ->
  low f v d + n + high f v d n = fs_frag f ->
  wp (block_deallocate (d - dtogd f d mod fs_frag f) ;; adjust_frags_free_m p (dtog f d) (n - fs_frag f)) Q s.
Proof using All.
  intros Hh2 Hx2 HF. pose proof (Hk f v Hi d n Hok) as Hkr. destruct (block_address f v Hi d n Hok) as (A1 & A2 & _).
  destruct (adjust_super_geo f (fun s => csum_add_nbfree s 1) (dtog f d)) as (G1 & G2 & _).
  fold (super_blks f (dtog f d) 1) in G1, G2.
  apply wp_bnd. eapply wp_block_deallocate; [apply Hh2|by rewrite A1|]. rewrite A1, A2.
  intros s3 p3 Hh3 Hp3. rewrite (Hp3 p true) in * by apply Hh2. cbv beta.
  eapply wp_adjust_frags; [done|by rewrite G1|rewrite vupd_eq; unfold given; by rewrite block_step_cgx|].
  intros s4 [Hh4 _]. rewrite vupd_eq in Hh4.
  destruct (give_whole_final f v Hi d n Hok HF Hu Hsn Hb0) as [J1 J2].
  eapply HQ; [|exact J1|exact J2]. eapply holds_ext; [|exact Hh4]. intros j _.
  unfold split_groups. by rewrite !vupd_vupd.
Qed.

(** Part of a block: the runs around it become one. *)
Lemma wp_give_part s p :
  holds_at s f (split_groups f v d n (-1)) (dtog f d) p -> cg_cgx (split_groups f v d n (-1) (dtog f d)) = dtog f d ->
  low f v d + n + high f v d n <> fs_frag f ->
  wp (adjust_frsum_m p (n + low f v d + high f v d n) 1 ;;
      mfor (upto 0 n 1) (fun index =>
        upd_cg p (fun c => set_blksfree c (bit_set (cg_blksfree c) (dtogd f d + index)))) ;;
      adjust_frags_free_m p (dtog f d) n) Q s.
Proof using All.
  intros Hh2 Hx2 HF. pose proof (Hk f v Hi d n Hok) as Hkr. pose proof (wb_map f _ (Hblocks f v Hi d n Hok)) as Hm.
  pose proof (wm_len _ Hm) as Hml. pose proof (block_start f v Hi d n Hok) as Hbs.
  apply wp_bnd. unfold adjust_frsum_m. eapply wp_upd_cg; [done|done|..].
  { by destruct (adjust_frsum_fields (split_groups f v d n (-1) (dtog f d)) (n + low f v d + high f v d n) 1) as (-> & _). }
  intros s3 Hh3. cbv beta.
  fold (frsum_merge f v d n 1 (split_groups f v d n (-1) (dtog f d))) in Hh3.
  assert (cg_cgx (frsum_merge f v d n 1 (split_groups f v d n (-1) (dtog f d))) = dtog f d) as Hx3
    by by rewrite frsum_merge_cgx.
  apply wp_bnd. eapply (wp_mfor_set (fun index => dtogd f d + index)); [done|done|by rewrite vupd_eq|].
  intros s4 Hh4. cbv beta. rewrite vupd_eq in Hh4.
  eapply wp_adjust_frags; [done|done|by rewrite vupd_eq|].
  intros s5 [Hh5 _]. rewrite vupd_eq in Hh5.
  pose proof (split_map f v d n (-1)) as [M1 M2].
  destruct (adjust_frsum_fields (split_groups f v d n (-1) (dtog f d)) (n + low f v d + high f v d n) 1)
    as (_ & _ & P2 & _ & _ & P5 & _).
  fold (frsum_merge f v d n 1 (split_groups f v d n (-1) (dtog f d))) in P2, P5.
  rewrite P5, M1 in Hh5.
  pose proof (set_range (cg_blksfree (v (dtog f d))) (dtogd f d) n
    ltac:(intros i Hr; split; [by apply Hu|unfold in_map; lia])) as Hfl.
  destruct (partial_inv f v Hi d n Hok _ 1 HF Hfl) as [J1 J2];
    [apply bytes_set_bits, Hm|by rewrite zlen_set_bits|done|done|].
  rewrite Z.mul_1_l in J1, J2.
  eapply HQ; [|exact J1|exact J2]. eapply holds_ext; [|exact Hh5]. intros j _.
  cbn [set_blksfree set_cs cg_cs]. rewrite P2. unfold split_groups. rewrite vupd_eq, !vupd_vupd.
  by destruct (frsum_split_fields f v d n (-1) (v (dtog f d))) as (_ & _ & -> & _).
Qed.

Lemma wp_frags_deallocate s : holds s f v -> wp (frags_deallocate d n) Q s.
Proof using All.
  intros Hh. pose proof (Hk f v Hi d n Hok) as Hkr. pose proof (holds_cgx _ _ _ _ Hh Hkr) as Hx.
  assert (1 <= n) as Hn by apply Hok. unfold frags_deallocate. destruct (Z.eqb_spec n 0); [lia|].
  apply wp_bnd. eapply wp_superblock; [done|]. cbv beta zeta.
  apply wp_bnd. eapply wp_cache_cg_write; [done|done|]. intros p s1 Hh1 _. cbv beta iota.
  apply wp_bnd. eapply wp_superblock; [apply Hh1|]. cbv beta.
  apply wp_bnd. eapply wp_load; [apply Hh1|done|apply Hh1|]. cbv beta.
  fold (low f v d) (high f v d n).
  eapply (wp_frsum_split (fun _ => if n + low f v d + high f v d n =? fs_frag f then _ else _)); [done|done|done|].
  intros s2 Hh2. fold (frsum_split f v d n (-1) (v (dtog f d))) in Hh2.
  fold (split_groups f v d n (-1)) in Hh2.
  assert (cg_cgx (split_groups f v d n (-1) (dtog f d)) = dtog f d) as Hx2
    by (unfold split_groups; by rewrite vupd_eq, frsum_split_cgx).
  destruct (Z.eqb_spec (n + low f v d + high f v d n) (fs_frag f)) as [HF|HF].
  - apply wp_give_whole; [done|done|lia].
  - apply wp_give_part; [done|done|lia].
Qed.

End Give.

End Wp.
