(* ===== verification/CgCache.v ===== *)
(** The cylinder group cache of [cache.c]: [cache_cg], [cache_popup_cg],
    [cache_cg_write], [cache_cg_flush] and [cache_cg_adjust], over a disk
    with the [Storage] interface and the allocator of the operating system.
    Buffers live in a store indexed by their address, so that a pointer the
    caller keeps sees later changes. *)

From S2P Require Import Prelude Bitmap Superblock Cg CgStore.
Local Open Scope bffs_scope.

Definition CACHE_CG_MAX : Z := 16.

Record cgcache (D H : Type) := CgCache {
  cc_super : fs;                      (* *superblock *)
  cache_cg_data : list (option Z);    (* buffer addresses, [CACHE_CG_MAX] of them *)
  cache_cg_state : list Z;            (* 0 clean, 1 dirty *)
  cache_cg_size : Z;
  cc_mem : gmap Z cg;                 (* what the buffers hold *)
  cc_disk : D;
  cc_heap : H;
  receiving_packets : Z }.
Arguments CgCache {D H}.
Arguments cc_super {D H}.
Arguments cache_cg_data {D H}.
Arguments cache_cg_state {D H}.
Arguments cache_cg_size {D H}.
Arguments cc_mem {D H}.
Arguments cc_disk {D H}.
Arguments cc_heap {D H}.
Arguments receiving_packets {D H}.

Section CgCache.
Context {D H : Type} `{Storage D cg} `{Exec H}.
#[local] Abbreviation S := (cgcache D H).

Definition set_super (f : fs) (s : S) : S :=
  CgCache f (cache_cg_data s) (cache_cg_state s) (cache_cg_size s) (cc_mem s) (cc_disk s)
    (cc_heap s) (receiving_packets s).
Definition set_slots (data : list (option Z)) (state : list Z) (s : S) : S :=
  CgCache (cc_super s) data state (cache_cg_size s) (cc_mem s) (cc_disk s) (cc_heap s)
    (receiving_packets s).
Definition set_state (i v : Z) (s : S) : S :=
  set_slots (cache_cg_data s) (zset (cache_cg_state s) i v) s.
Definition set_size (v : Z) (s : S) : S :=
  CgCache (cc_super s) (cache_cg_data s) (cache_cg_state s) v (cc_mem s) (cc_disk s)
    (cc_heap s) (receiving_packets s).
Definition set_mem (m : gmap Z cg) (s : S) : S :=
  CgCache (cc_super s) (cache_cg_data s) (cache_cg_state s) (cache_cg_size s) m (cc_disk s)
    (cc_heap s) (receiving_packets s).
Definition set_disk (d : D) (s : S) : S :=
  CgCache (cc_super s) (cache_cg_data s) (cache_cg_state s) (cache_cg_size s) (cc_mem s) d
    (cc_heap s) (receiving_packets s).
Definition set_heap (h : H) (s : S) : S :=
  CgCache (cc_super s) (cache_cg_data s) (cache_cg_state s) (cache_cg_size s) (cc_mem s)
    (cc_disk s) h (receiving_packets s).
Definition set_receiving (v : Z) (s : S) : S :=
  CgCache (cc_super s) (cache_cg_data s) (cache_cg_state s) (cache_cg_size s) (cc_mem s)
    (cc_disk s) (cc_heap s) v.

(** data_read of a whole group into buffer [p]: 0 on success.  A transfer
    that fails leaves the buffer as it was. *)
Definition cg_data_read (p num : Z) : M S Z := fun s =>
  match st_read num (cc_disk s) with
  | (Some c, d) => Some (0, set_mem (<[p := c]> (cc_mem s)) (set_disk d s))
  | (None, d) => Some (1, set_disk d s)
  end.

(** data_write of buffer [p]; a read only file system refuses it. *)
Definition cg_data_write (p num : Z) : M S Z := fun s =>
  if negb (fs_ronly (cc_super s) =? 0) then Some (1, s)
  else match cc_mem s !! p with
       | None => None
       | Some c => let r := st_write num c (cc_disk s) in
                   Some (if r.1 then 0 else 1, set_disk r.2 s)
       end.

(** [cgp->cg_cgx], compared as an unsigned number. *)
Definition cg_at (s : S) (p : Z) : option cg := cc_mem s !! p.
Definition has_cgx (s : S) (p cgx : Z) : bool :=
  match cg_at s p with Some c => u32 (cg_cgx c) =? cgx | None => false end.

(** ** cache_popup_cg *)

(** The shifting loop; the result is [index] when it stops. *)
Fixpoint popup_loop (l : list Z) (index : Z) (data : list (option Z)) (state : list Z)
    : Z * list (option Z) * list Z :=
  match l with
  | [] => (index, data, state)
  | i :: l' =>
      match zget data i with
      | None => (i, data, state)
      | Some _ =>
          popup_loop l' (i + 1) (zset data (i - 1) (zget data i))
            (zset state (i - 1) (zget state i))
      end
  end.

Definition cache_popup_cg (pos : Z) (s : S) : S :=
  let data := cache_cg_data s in
  let state := cache_cg_state s in
  match zget data (pos + 1) with
  | None => s
  | Some _ =>
      let save_buf := zget data pos in
      let save_state := zget state pos in
      let '(index, data, state) :=
        popup_loop (upto (pos + 1) CACHE_CG_MAX 1) (pos + 1) data state in
      set_slots (zset data (index - 1) save_buf) (zset state (index - 1) save_state) s
  end.

(** ** cache_cg_flush *)

Fixpoint flush_loop (l : list Z) (count : Z) : M S Z :=
  match l with
  | [] => ret count
  | index :: l' =>
      state <- gets (fun s => zget (cache_cg_state s) index) ;;
      if state =? 0 then flush_loop l' count
      else
        data <- gets (fun s => zget (cache_cg_data s) index) ;;
        cgp <- deref data ;;
        o <- gets (fun s => cg_at s cgp) ;;
        c <- deref o ;;
        f <- gets cc_super ;;
        r <- cg_data_write cgp (cgtod f (u32 (cg_cgx c))) ;;
        if negb (r =? 0) then flush_loop l' count
        else modify (set_state index 0) ;; flush_loop l' (count + 1)
  end.

Definition cache_cg_flush : M S Z := flush_loop (upto 0 CACHE_CG_MAX 1) 0.

(** ** cache_cg *)

(** How the scan of the table ends. *)
Inductive scan : Type :=
  | ScanHit (index : Z)
  | ScanNull (index : Z)
  | ScanFull.

Fixpoint cg_scan (s : S) (cgx : Z) (l : list Z) : scan :=
  match l with
  | [] => ScanFull
  | index :: l' =>
      match zget (cache_cg_data s) index with
      | None => ScanNull index
      | Some p => if has_cgx s p cgx then ScanHit index else cg_scan s cgx l'
      end
  end.

(** From the end of a scan that missed. *)
Definition cg_fill (cgx index : Z) : M S (option Z) :=
  entry <- gets (fun s => zget (cache_cg_data s) index) ;;
  p <- deref entry ;;
  state <- gets (fun s => zget (cache_cg_state s) index) ;;
  (if negb (state =? 0) then cache_cg_flush else ret 0) ;;
  f <- gets cc_super ;;
  r <- cg_data_read p (cgtod f cgx) ;;
  if negb (r =? 0) then
    o <- gets (fun s => cg_at s p) ;;
    (match o with
     | Some c => modify (fun s => set_mem (<[p := set_cgx c (-1)]> (cc_mem s)) s)
     | None => ret tt
     end) ;;
    ret None
  else
    modify (set_state index 0) ;;
    modify (cache_popup_cg index) ;;
    ret (Some p).

Definition cc_cache_cg (cgx : Z) : M S (option Z) :=
  f <- gets cc_super ;;
  if fs_ncg f <? cgx then
    modify (fun s => set_super (set_ronly (cc_super s) 1) s) ;; ret None
  else
    size <- gets cache_cg_size ;;
    r <- gets (fun s => cg_scan s cgx (upto 0 size 1)) ;;
    match r with
    | ScanHit index =>
        entry <- gets (fun s => zget (cache_cg_data s) index) ;;
        modify (cache_popup_cg index) ;;
        ret entry
    | ScanNull index =>
        a <- gets (fun s => AllocMem (cc_heap s)) ;;
        modify (set_heap a.2) ;;
        match a.1 with
        | None => ret None
        | Some p =>
            modify (fun s => set_slots (zset (cache_cg_data s) index (Some p))
                                       (zset (cache_cg_state s) index 0) s) ;;
            cg_fill cgx index
        end
    | ScanFull => cg_fill cgx 0
    end.

(** ** cache_cg_write *)

(** The first slot that satisfies [test]. *)
Definition slot_find (test : option Z -> bool) (size : Z) (s : S) : option Z :=
  find_first (fun index => test (zget (cache_cg_data s) index)) (upto 0 size 1).

(** The retry loop of [cache_cg_write_top]. *)
Fixpoint cg_retry (cgx : Z) (tries : nat) : M S (option Z) :=
  entry <- cc_cache_cg cgx ;;
  match entry, tries with
  | None, O => ret None
  | None, Datatypes.S tries' => cg_retry cgx tries'
  | Some p, _ => ret (Some p)
  end.

Definition cc_cache_cg_write (cgx : Z) : M S (option Z) :=
  size <- gets cache_cg_size ;;
  hit <- gets (fun s => slot_find (fun e => match e with
                          | Some p => has_cgx s p cgx | None => false end) size s) ;;
  match hit with
  | Some index =>
      entry <- gets (fun s => zget (cache_cg_data s) index) ;;
      modify (set_state index 1) ;;
      ret entry
  | None =>
      entry <- cg_retry cgx 2 ;;
      match entry with
      | None => ret None
      | Some p =>
          found <- gets (fun s => slot_find (fun e => bool_decide (e = Some p)) (cache_cg_size s) s) ;;
          match found with
          | Some index => modify (set_state index 1) ;; ret (Some p)
          | None => modify (set_receiving 0) ;; ret None
          end
      end
  end.

(** ** cache_cg_adjust *)

Definition adjust_slot (index : Z) : M S unit :=
  entry <- gets (fun s => zget (cache_cg_data s) index) ;;
  match entry with
  | None => ret tt
  | Some p =>
      state <- gets (fun s => zget (cache_cg_state s) index) ;;
      (if negb (state =? 0) then
         o <- gets (fun s => cg_at s p) ;;
         c <- deref o ;;
         f <- gets cc_super ;;
         cg_data_write p (cgtod f (u32 (cg_cgx c))) ;; ret tt
       else ret tt) ;;
      modify (fun s => set_heap (FreeMem p (cc_heap s)) (set_mem (delete p (cc_mem s)) s)) ;;
      modify (fun s => set_slots (zset (cache_cg_data s) index None)
                                 (zset (cache_cg_state s) index 0) s)
  end.

Definition cache_cg_adjust : M S unit :=
  modify (fun s => if cache_cg_size s <? 3 then set_size 3 s else s) ;;
  modify (fun s => if CACHE_CG_MAX <=? cache_cg_size s then set_size (CACHE_CG_MAX - 1) s else s) ;;
  size <- gets cache_cg_size ;;
  mfor (upto size CACHE_CG_MAX 1) adjust_slot.

(** ** The instance *)

#[export] Instance cgcache_store : CgStore S := {
  cgs_fs := cc_super;
  cgs_set_fs := set_super;
  cache_cg := cc_cache_cg;
  cache_cg_write := cc_cache_cg_write;
  cgs_load := fun p s => cg_at s p;
  cgs_store := fun p c s => set_mem (<[p := c]> (cc_mem s)) s }.

End CgCache.
