(* ===== verification/CgCacheSpec.v ===== *)
(** The group cache keeps the contract [CgStoreLaws] on a healthy disk with
    memory to spare: whatever is cached or evicted, the contents of every
    group as the allocator sees them do not change, and a group marked for
    writing stays where it is until the next request. *)

From S2P Require Import Prelude Bitmap Superblock Cg CgSearch CgStore CgCache.
Local Open Scope bffs_scope.

(** ** Lists with a middle element *)

Lemma zget_mid {A} `{Dflt A} (l k : list A) x : zget (l ++ x :: k) (zlen l) = x.
Proof.
  unfold zget, zlen. destruct (Z.ltb_spec (Z.of_nat (length l)) 0); [lia|].
  by rewrite Nat2Z.id, list_lookup_middle.
Qed.

Lemma zset_mid {A} (l k : list A) x y : zset (l ++ x :: k) (zlen l) y = l ++ y :: k.
Proof.
  unfold zset, zlen. destruct (Z.ltb_spec (Z.of_nat (length l)) 0); [lia|].
  rewrite Nat2Z.id, insert_app_r_alt by lia. by rewrite Nat.sub_diag.
Qed.

Lemma zlen_cons {A} x (l : list A) : zlen (x :: l) = 1 + zlen l.
Proof. unfold zlen. cbn [length]. lia. Qed.

Lemma zlen_fmap {A B} (h : A -> B) (l : list A) : zlen (h <$> l) = zlen l.
Proof. unfold zlen. by rewrite length_fmap. Qed.

Lemma zlen_replicate {A} n (x : A) : zlen (replicate n x) = Z.of_nat n.
Proof. unfold zlen. by rewrite length_replicate. Qed.

Section Spec.
Context {D H : Type} `{StorageLaws D cg} `{ExecLaws H}.
#[local] Abbreviation S := (cgcache D H).

(** ** What the table holds *)

(** A slot in use: buffer address, state, contents. *)
Record entry := Entry { e_ptr : Z; e_state : Z; e_cg : cg }.

Definition slots_data (es : list entry) (free : nat) : list (option Z) :=
  ((fun e => Some (e_ptr e)) <$> es) ++ replicate free None.
Definition slots_state (es : list entry) (free : nat) : list Z :=
  (e_state <$> es) ++ replicate free 0.

Definition in_buffers (m : gmap Z cg) (es : list entry) : Prop :=
  forall e, e ∈ es -> m !! e_ptr e = Some (e_cg e).

Definition entry_ok (g : geometry) (disk : D) (heap : H) (e : entry) : Prop :=
  0 <= cg_cgx (e_cg e) < fs_ncg g /\ in_use heap (e_ptr e) /\
  (e_state e = 0 -> st_peek disk (cgtod g (cg_cgx (e_cg e))) = e_cg e).

Record table (s : S) (es : list entry) (free : nat) : Prop := {
  tb_data : cache_cg_data s = slots_data es free;
  tb_state : cache_cg_state s = slots_state es free;
  tb_free : (0 < free)%nat;
  tb_len : zlen es + Z.of_nat free = CACHE_CG_MAX;
  tb_size : 1 <= cache_cg_size s < CACHE_CG_MAX /\ zlen es <= cache_cg_size s;
  tb_mem : in_buffers (cc_mem s) es;
  tb_ptrs : NoDup (e_ptr <$> es);
  tb_groups : NoDup ((fun e => cg_cgx (e_cg e)) <$> es);
  tb_entries : Forall (entry_ok (cc_super s) (cc_disk s) (cc_heap s)) es;
  tb_geo : wf_geometry (cc_super s);
  tb_ronly : fs_ronly (cc_super s) = 0;
  tb_disk : forall k, 0 <= k < fs_ncg (cc_super s) ->
    cg_cgx (st_peek (cc_disk s) (cgtod (cc_super s) k)) = k }.

(** The cached contents of group [k]. *)
Fixpoint cc_lookup (s : S) (k : Z) (l : list (option Z)) : option cg :=
  match l with
  | [] => None
  | None :: l' => cc_lookup s k l'
  | Some p :: l' =>
      match cg_at s p with
      | Some c => if cg_cgx c =? k then Some c else cc_lookup s k l'
      | None => cc_lookup s k l'
      end
  end.

Definition no_cg : cg := Cg 0 0 0 csum0 0 [] [] [] [] [] [] [] 0.

Definition cc_view (s : S) (k : Z) : cg :=
  if (0 <=? k) && (k <? fs_ncg (cc_super s)) then
    default (st_peek (cc_disk s) (cgtod (cc_super s) k)) (cc_lookup s k (cache_cg_data s))
  else set_cgx no_cg k.

Definition cc_owns (s : S) (k p : Z) (w : bool) : Prop :=
  exists i c, 0 <= i /\ zget (cache_cg_data s) i = Some p /\
    (w = true -> zget (cache_cg_state s) i <> 0) /\ cg_at s p = Some c /\ cg_cgx c = k.

Definition cc_ok (s : S) : Prop := exists es free, table s es free.

(** ** Reading the table *)

Section Table.
Context (s : S) (es : list entry) (free : nat) (Ht : table s es free).

Lemma cc_lookup_none k l :
  (forall e, e ∈ l -> cg_cgx (e_cg e) <> k) -> in_buffers (cc_mem s) l -> forall n,
  cc_lookup s k (slots_data l n) = None.
Proof using Type.
  intros Hl Hm n. unfold slots_data. induction l as [|e l IH]; cbn.
  - induction n; done.
  - unfold cg_at. rewrite (Hm e) by by left. rewrite (proj2 (Z.eqb_neq _ _)) by (apply Hl; by left).
    apply IH; [intros x Hx; apply Hl; by right|intros x Hx; apply Hm; by right].
Qed.

Lemma cc_lookup_some e l n :
  e ∈ l -> in_buffers (cc_mem s) l -> NoDup ((fun e => cg_cgx (e_cg e)) <$> l) ->
  cc_lookup s (cg_cgx (e_cg e)) (slots_data l n) = Some (e_cg e).
Proof using Type.
  intros He Hm Hnd. unfold slots_data. induction l as [|x l IH]; [by apply not_elem_of_nil in He|].
  cbn in *. apply NoDup_cons in Hnd as [Hx Hnd]. unfold cg_at. rewrite (Hm x) by by left.
  apply elem_of_cons in He as [->|He]; [by rewrite Z.eqb_refl|].
  rewrite (proj2 (Z.eqb_neq _ _)).
  - apply IH; [done|intros y Hy; apply Hm; by right|done].
  - intros Heq. apply Hx. rewrite Heq. apply list_elem_of_fmap. by exists e.
Qed.

Lemma view_cached e : e ∈ es -> cc_view s (cg_cgx (e_cg e)) = e_cg e.
Proof using Ht.
  intros He. pose proof (tb_entries _ _ _ Ht) as Hf. rewrite Forall_forall in Hf.
  destruct (Hf e He) as (Hr & _). unfold cc_view.
  rewrite (proj2 (Z.leb_le _ _)), (proj2 (Z.ltb_lt _ _)) by lia. cbn [andb].
  rewrite (tb_data _ _ _ Ht), cc_lookup_some; [done|done|apply Ht|apply Ht].
Qed.

Lemma view_uncached k :
  0 <= k < fs_ncg (cc_super s) -> (forall e, e ∈ es -> cg_cgx (e_cg e) <> k) ->
  cc_view s k = st_peek (cc_disk s) (cgtod (cc_super s) k).
Proof using Ht.
  intros Hk He. unfold cc_view.
  rewrite (proj2 (Z.leb_le _ _)), (proj2 (Z.ltb_lt _ _)) by lia. cbn [andb].
  rewrite (tb_data _ _ _ Ht), cc_lookup_none; [done|done|apply Ht].
Qed.

Lemma cached_dec k :
  (exists e, e ∈ es /\ cg_cgx (e_cg e) = k) \/ (forall e, e ∈ es -> cg_cgx (e_cg e) <> k).
Proof using Type.
  clear. induction es as [|x l IH]; [right; intros e He; by apply not_elem_of_nil in He|].
  destruct (Z.eqb_spec (cg_cgx (e_cg x)) k) as [Hx|Hx]; [left; exists x; split; [by left|done]|].
  destruct IH as [(e & He & Hk)|Hn]; [left; exists e; split; [by right|done]|].
  right. intros e [->|He]%elem_of_cons; auto.
Qed.

Lemma view_cgx k : cg_cgx (cc_view s k) = k.
Proof using Ht.
  unfold cc_view. destruct ((0 <=? k) && (k <? fs_ncg (cc_super s))) eqn:E; [|done].
  apply andb_true_iff in E as [E1%Z.leb_le E2%Z.ltb_lt].
  destruct (cached_dec k) as [(e & He & Hk)|Hn].
  - subst k. rewrite (tb_data _ _ _ Ht), cc_lookup_some; [done|done|apply Ht|apply Ht].
  - rewrite (tb_data _ _ _ Ht), cc_lookup_none; [apply (tb_disk _ _ _ Ht); lia|done|apply Ht].
Qed.

Lemma slot_entry i p :
  0 <= i -> zget (cache_cg_data s) i = Some p ->
  exists l e l', es = l ++ e :: l' /\ zlen l = i /\ e_ptr e = p /\
    zget (cache_cg_state s) i = e_state e.
Proof using Ht.
  intros Hi Hp. rewrite (tb_data _ _ _ Ht) in Hp. rewrite (tb_state _ _ _ Ht).
  unfold zget, slots_data, slots_state in *. destruct (Z.ltb_spec i 0); [lia|].
  destruct (es !! Z.to_nat i) as [e|] eqn:E.
  - pose proof (lookup_lt_Some _ _ _ E).
    rewrite lookup_app_l, list_lookup_fmap, E in Hp by (rewrite length_fmap; lia).
    rewrite lookup_app_l, list_lookup_fmap, E by (rewrite length_fmap; lia). cbn in *.
    exists (take (Z.to_nat i) es), e, (drop (Datatypes.S (Z.to_nat i)) es).
    split; [symmetry; by apply take_drop_middle|]. split; [|split; [congruence|done]].
    unfold zlen. rewrite length_take. lia.
  - apply lookup_ge_None in E. rewrite lookup_app_r in Hp by (rewrite length_fmap; lia).
    destruct (replicate free None !! _) eqn:E2; [|done]. apply lookup_replicate in E2 as [-> _]. done.
Qed.

Lemma owns_entry k p w :
  cc_owns s k p w <-> exists e, e ∈ es /\ e_ptr e = p /\ cg_cgx (e_cg e) = k /\ (w = true -> e_state e <> 0).
Proof using Ht.
  split.
  - intros (i & c & Hi & Hp & Hw & Hc & Hk).
    destruct (slot_entry i p Hi Hp) as (l & e & l' & Hes & _ & Hep & Hst).
    assert (e ∈ es) as He by (rewrite Hes; set_solver).
    exists e. split; [done|]. split; [done|]. pose proof (tb_mem _ _ _ Ht e He) as Hm.
    rewrite Hep in Hm. unfold cg_at in Hc. rewrite Hc in Hm. injection Hm as ->.
    split; [done|]. by rewrite <- Hst.
  - intros (e & He & Hp & Hk & Hw). apply list_elem_of_split in He as (l & l' & Hes).
    exists (zlen l), (e_cg e). split; [apply zlen_nonneg|].
    rewrite (tb_data _ _ _ Ht), (tb_state _ _ _ Ht). unfold slots_data, slots_state.
    rewrite Hes, !fmap_app, !fmap_cons, <- !app_assoc, <- !app_comm_cons.
    rewrite <- (zlen_fmap (fun e => Some (e_ptr e)) l) at 1. rewrite zget_mid.
    rewrite <- (zlen_fmap e_state l). rewrite zget_mid.
    split; [by rewrite Hp|]. split; [done|]. split; [|done]. unfold cg_at. rewrite <- Hp.
    apply (tb_mem _ _ _ Ht). rewrite Hes. set_solver.
Qed.

Lemma has_cgx_entry e k : e ∈ es -> 0 <= k < fs_ncg (cc_super s) ->
  has_cgx s (e_ptr e) k = (cg_cgx (e_cg e) =? k).
Proof using Ht.
  intros He Hk. unfold has_cgx, cg_at. rewrite (tb_mem _ _ _ Ht e He).
  pose proof (tb_entries _ _ _ Ht) as Hf. rewrite Forall_forall in Hf. destruct (Hf e He) as (Hr & _).
  rewrite u32_small; [done|]. pose proof (tb_geo _ _ _ Ht) as Hg. pose proof (wg_size _ Hg).
  destruct (wg_fpg _ Hg). unfold in_u32. zify_pow. nia.
Qed.

End Table.
(** ** Steps that do not change what the groups hold *)

Definition cc_same (s s' : S) : Prop :=
  cc_super s' = cc_super s /\ forall k, cc_view s' k = cc_view s k.

Lemma cc_same_refl s : cc_same s s.
Proof using Type. done. Qed.

Lemma cc_same_trans s1 s2 s3 : cc_same s1 s2 -> cc_same s2 s3 -> cc_same s1 s3.
Proof using Type. intros [E1 V1] [E2 V2]. split; [congruence|]. intros k. by rewrite V2, V1. Qed.

(** Group [k] reads as [c]. *)
Definition content (s : S) (es : list entry) (k : Z) (c : cg) : Prop :=
  (exists e, e ∈ es /\ e_cg e = c /\ cg_cgx c = k) \/
  ((forall e, e ∈ es -> cg_cgx (e_cg e) <> k) /\ st_peek (cc_disk s) (cgtod (cc_super s) k) = c).

Lemma content_view s es free k c :
  table s es free -> 0 <= k < fs_ncg (cc_super s) -> content s es k c -> cc_view s k = c.
Proof using Type.
  intros Ht Hk [(e & He & <- & <-)|[Hn <-]]; [by eapply view_cached|by eapply view_uncached].
Qed.

Lemma view_content s es free k :
  table s es free -> 0 <= k < fs_ncg (cc_super s) -> content s es k (cc_view s k).
Proof using Type.
  intros Ht Hk. destruct (cached_dec es k) as [(e & He & <-)|Hn].
  - left. exists e. rewrite (view_cached s es free Ht e He). done.
  - right. split; [done|]. by rewrite (view_uncached s es free Ht).
Qed.

Lemma cc_same_content s es free s' es' free' :
  table s es free -> table s' es' free' -> cc_super s' = cc_super s ->
  (forall k c, 0 <= k < fs_ncg (cc_super s) -> content s es k c -> content s' es' k c) ->
  cc_same s s'.
Proof using Type.
  intros Ht Ht' Es Hc. split; [done|]. intros k.
  destruct (decide (0 <= k < fs_ncg (cc_super s))) as [Hk|Hk].
  - eapply content_view; [done|by rewrite Es|]. apply Hc; [done|]. by eapply view_content.
  - unfold cc_view. rewrite Es.
    destruct (Z.leb_spec 0 k), (Z.ltb_spec k (fs_ncg (cc_super s))); cbn [andb]; try done. lia.
Qed.

Lemma owns_same s es free s' es' free' k p w :
  table s es free -> table s' es' free' -> (forall e, e ∈ es -> e ∈ es') ->
  cc_owns s k p w -> cc_owns s' k p w.
Proof using Type.
  intros Ht Ht' Hin Ho. apply (owns_entry s es free Ht) in Ho as (e & He & Hr).
  apply (owns_entry s' es' free' Ht'). exists e. split; [by apply Hin|done].
Qed.

(** Two buffers of one group are one buffer. *)
Lemma entry_unique s es free e e' :
  table s es free -> e ∈ es -> e' ∈ es -> cg_cgx (e_cg e) = cg_cgx (e_cg e') -> e = e'.
Proof using Type.
  intros Ht He He' Heq. pose proof (tb_groups _ _ _ Ht) as Hnd.
  apply list_elem_of_lookup in He as [i Hi]. apply list_elem_of_lookup in He' as [j Hj].
  assert (i = j) as ->; [|congruence].
  eapply NoDup_lookup; [exact Hnd|by rewrite list_lookup_fmap, Hi|].
  rewrite list_lookup_fmap, Hj. cbn. by rewrite Heq.
Qed.

(** *** The order of the slots *)

Lemma table_perm s es es' free :
  table s es free -> es ≡ₚ es' ->
  table (set_slots (slots_data es' free) (slots_state es' free) s) es' free.
Proof using Type.
  intros [T1 T2 T3 T4 T5 T6 T7 T8 T9 T10 T11 T12] Hp.
  assert (zlen es' = zlen es) as Hl by (unfold zlen; by rewrite Hp).
  constructor; cbn; try done; try (by rewrite Hl).
  - intros e He. apply T6. by rewrite Hp.
  - by rewrite <- Hp.
  - by rewrite <- Hp.
  - by rewrite <- Hp.
Qed.

Lemma same_perm s es es' free :
  table s es free -> es ≡ₚ es' ->
  cc_same s (set_slots (slots_data es' free) (slots_state es' free) s).
Proof using Type.
  intros Ht Hp. apply (cc_same_content s es free _ es' free); [done|by apply (table_perm s es)|done|].
  intros k c Hk [(e & He & Hr)|[Hn Hr]]; [left; exists e; by rewrite <- Hp|right].
  split; [|done]. intros e He. apply Hn. by rewrite Hp.
Qed.

(** The shifting loop moves the slot below [B] to the end. *)
Lemma popup_loop_spec (A B : list entry) x free :
  (0 < free)%nat -> zlen A + 1 + zlen B + Z.of_nat free = CACHE_CG_MAX ->
  exists j data state,
    popup_loop (upto (zlen A + 1) CACHE_CG_MAX 1) (zlen A + 1)
      (slots_data (A ++ x :: B) free) (slots_state (A ++ x :: B) free) = (j, data, state) /\
    forall v w, zset data (j - 1) v =
      ((fun e => Some (e_ptr e)) <$> (A ++ B)) ++ v :: replicate free None /\
    zset state (j - 1) w = (e_state <$> (A ++ B)) ++ w :: replicate free 0.
Proof using Type.
  revert A x. induction B as [|b B IH]; intros A x Hf Hl.
  - unfold zlen in Hl. cbn in Hl. rewrite upto_cons by (unfold zlen; lia). cbn [popup_loop].
    destruct free as [|free]; [lia|].
    assert (zget (slots_data (A ++ [x]) (Datatypes.S free)) (zlen A + 1) = None) as ->.
    { unfold slots_data. cbn [replicate]. replace (zlen A + 1) with (zlen ((fun e => Some (e_ptr e)) <$> (A ++ [x]))).
      - apply zget_mid.
      - rewrite zlen_fmap, zlen_app. done. }
    eexists _, _, _. split; [done|]. intros v w.
    replace (zlen A + 1 - 1) with (zlen A) by lia. unfold slots_data, slots_state.
    rewrite !fmap_app, !app_nil_r, <- !app_assoc. cbn [fmap list_fmap app]. split.
    + rewrite <- (zlen_fmap (fun e => Some (e_ptr e)) A) at 1. apply zset_mid.
    + rewrite <- (zlen_fmap e_state A) at 1. apply zset_mid.
  - rewrite zlen_cons in Hl. pose proof (zlen_nonneg B).
    rewrite upto_cons by lia. cbn [popup_loop].
    assert (forall (T : Type) (d : Dflt T) (h : entry -> T) n y,
      zget ((h <$> (A ++ x :: b :: B)) ++ replicate n y) (zlen A + 1) = h b) as Hget.
    { intros T d h n y. replace (A ++ x :: b :: B) with ((A ++ [x]) ++ b :: B) by by rewrite <- app_assoc.
      rewrite fmap_app, fmap_cons, <- app_assoc, <- app_comm_cons.
      replace (zlen A + 1) with (zlen (h <$> (A ++ [x]))) by (by rewrite zlen_fmap, zlen_app).
      apply zget_mid. }
    unfold slots_data at 1. rewrite Hget.
    assert (forall (T : Type) (h : entry -> T) n y,
      zset ((h <$> (A ++ x :: b :: B)) ++ replicate n y) (zlen A + 1 - 1) (h b) =
      (h <$> ((A ++ [b]) ++ b :: B)) ++ replicate n y) as Hset.
    { intros T h n y. rewrite !fmap_app, !fmap_cons, <- !app_assoc. cbn [app fmap list_fmap].
      replace (zlen A + 1 - 1) with (zlen (h <$> A)) by (rewrite zlen_fmap; lia).
      apply zset_mid. }
    unfold slots_data, slots_state. rewrite !Hget, !Hset.
    replace (zlen A + 1) with (zlen (A ++ [b])) by (by rewrite zlen_app).
    destruct (IH (A ++ [b]) b Hf) as (j & data & state & E1 & E2).
    { rewrite zlen_app, zlen_cons. unfold zlen in *. cbn. lia. }
    exists j, data, state. split; [exact E1|]. intros v w. specialize (E2 v w).
    by rewrite <- !app_assoc in E2.
Qed.

Lemma popup_spec s A x B free :
  table s (A ++ x :: B) free ->
  cache_popup_cg (zlen A) s =
    set_slots (slots_data (A ++ B ++ [x]) free) (slots_state (A ++ B ++ [x]) free) s.
Proof using Type.
  intros Ht. pose proof (tb_len _ _ _ Ht) as Hl. rewrite zlen_app, zlen_cons in Hl.
  unfold cache_popup_cg. rewrite (tb_data _ _ _ Ht), (tb_state _ _ _ Ht).
  assert (forall (T : Type) (d : Dflt T) (h : entry -> T) n y,
    zget ((h <$> (A ++ x :: B)) ++ replicate n y) (zlen A) = h x) as Hget.
  { intros T d h n y. rewrite fmap_app, fmap_cons, <- app_assoc, <- app_comm_cons.
    rewrite <- (zlen_fmap h A). apply zget_mid. }
  destruct B as [|b B].
  - pose proof (tb_free _ _ _ Ht) as Hf. destruct free as [|free]; [lia|].
    assert (zget (slots_data (A ++ [x]) (Datatypes.S free)) (zlen A + 1) = None) as ->.
    { unfold slots_data. cbn [replicate].
      replace (zlen A + 1) with (zlen ((fun e => Some (e_ptr e)) <$> (A ++ [x]))); [apply zget_mid|].
      by rewrite zlen_fmap, zlen_app. }
    cbn [app]. rewrite <- (tb_data _ _ _ Ht), <- (tb_state _ _ _ Ht). by destruct s.
  - assert (zget (slots_data (A ++ x :: b :: B) free) (zlen A + 1) = Some (e_ptr b)) as ->.
    { unfold slots_data. replace (A ++ x :: b :: B) with ((A ++ [x]) ++ b :: B) by by rewrite <- app_assoc.
      rewrite fmap_app, fmap_cons, <- app_assoc, <- app_comm_cons.
      replace (zlen A + 1) with (zlen ((fun e => Some (e_ptr e)) <$> (A ++ [x]))); [apply zget_mid|].
      by rewrite zlen_fmap, zlen_app. }
    destruct (popup_loop_spec A (b :: B) x free) as (j & data & state & E1 & E2);
      [apply Ht|lia|]. rewrite E1. cbn zeta.
    unfold slots_data at 1, slots_state at 1. rewrite !Hget.
    destruct (E2 (Some (e_ptr x)) (e_state x)) as [-> ->].
    unfold slots_data, slots_state. rewrite (app_assoc A (b :: B) [x]).
    rewrite !(fmap_app _ (A ++ b :: B) [x]), <- !app_assoc. done.
Qed.

(** *** cache_cg_flush *)

Definition clean (e : entry) : entry := Entry (e_ptr e) 0 (e_cg e).

Lemma cg_cgx_u32 (g : geometry) c : wf_geometry g -> 0 <= cg_cgx c < fs_ncg g -> u32 (cg_cgx c) = cg_cgx c.
Proof using Type.
  intros Hg Hr. apply u32_small. pose proof (wg_size g Hg). destruct (wg_fpg g Hg).
  unfold in_u32. zify_pow. nia.
Qed.

Lemma zget_state_mid s A e B free :
  table s (A ++ e :: B) free ->
  zget (cache_cg_state s) (zlen A) = e_state e /\ zget (cache_cg_data s) (zlen A) = Some (e_ptr e).
Proof using Type.
  intros Ht. rewrite (tb_data _ _ _ Ht), (tb_state _ _ _ Ht). unfold slots_data, slots_state.
  rewrite !fmap_app, !fmap_cons, <- !app_assoc, <- !app_comm_cons.
  rewrite <- (zlen_fmap e_state A) at 1. rewrite zget_mid.
  rewrite <- (zlen_fmap (fun e => Some (e_ptr e)) A). by rewrite zget_mid.
Qed.

(** One slot marked clean (or dirty) with a disk that agrees. *)
Lemma table_restate s A e B free d st :
  table s (A ++ e :: B) free ->
  (forall k, 0 <= k < fs_ncg (cc_super s) -> k <> cg_cgx (e_cg e) ->
     st_peek d (cgtod (cc_super s) k) = st_peek (cc_disk s) (cgtod (cc_super s) k)) ->
  cg_cgx (st_peek d (cgtod (cc_super s) (cg_cgx (e_cg e)))) = cg_cgx (e_cg e) ->
  (st = 0 -> st_peek d (cgtod (cc_super s) (cg_cgx (e_cg e))) = e_cg e) ->
  let s' := set_state (zlen A) st (set_disk d s) in
  table s' (A ++ Entry (e_ptr e) st (e_cg e) :: B) free /\ cc_same s s'.
Proof using Type.
  intros Ht Hd Hid Hst. assert (table (set_state (zlen A) st (set_disk d s)) (A ++ Entry (e_ptr e) st (e_cg e) :: B) free) as Ht'.
  { destruct Ht as [T1 T2 T3 T4 T5 T6 T7 T8 T9 T10 T11 T12].
    constructor; cbn; try done.
    - rewrite T1. unfold slots_data. by rewrite !fmap_app, !fmap_cons.
    - rewrite T2. unfold slots_state. rewrite !fmap_app, !fmap_cons, <- !app_assoc, <- !app_comm_cons.
      rewrite <- (zlen_fmap e_state A). by rewrite zset_mid.
    - by rewrite zlen_app, zlen_cons in *.
    - by rewrite zlen_app, zlen_cons in *.
    - intros x [Hx|[->|Hx]%elem_of_cons]%elem_of_app; [apply T6; set_solver| |apply T6; set_solver].
      apply (T6 e). set_solver.
    - by rewrite fmap_app, fmap_cons in *.
    - by rewrite fmap_app, fmap_cons in *.
    - rewrite Forall_forall in *. intros x Hx.
      assert (x ∈ A ++ B -> cg_cgx (e_cg x) <> cg_cgx (e_cg e)) as Hne.
      { intros Hx' Heq. rewrite fmap_app, fmap_cons in T8.
        apply NoDup_app in T8 as (_ & Hnab & Hnb). apply NoDup_cons in Hnb as [Hnb _].
        apply elem_of_app in Hx' as [Hx'|Hx'].
        - apply (Hnab (cg_cgx (e_cg e))); [|by left]. rewrite <- Heq. apply list_elem_of_fmap. by exists x.
        - apply Hnb. rewrite <- Heq. apply list_elem_of_fmap. by exists x. }
      apply elem_of_app in Hx as [Hx|[->|Hx]%elem_of_cons].
      + destruct (T9 x ltac:(set_solver)) as (R1 & R2 & R3). split; [done|]. split; [done|].
        intros H0'. rewrite Hd by (done || apply Hne; set_solver). by apply R3.
      + destruct (T9 e ltac:(set_solver)) as (R1 & R2 & R3). split; [done|]. split; [done|done].
      + destruct (T9 x ltac:(set_solver)) as (R1 & R2 & R3). split; [done|]. split; [done|].
        intros H0'. rewrite Hd by (done || apply Hne; set_solver). by apply R3.
    - intros k Hk. destruct (Z.eqb_spec k (cg_cgx (e_cg e))) as [->|Hne]; [done|].
      rewrite Hd by done. by apply T12. }
  split; [done|]. eapply (cc_same_content s _ free _ _ free Ht Ht'); [done|].
  intros k c Hk [(x & Hx & Hc & Hkx)|[Hn Hp]].
  - left. apply elem_of_app in Hx as [Hx|[->|Hx]%elem_of_cons].
    + exists x. set_solver.
    + exists (Entry (e_ptr e) st (e_cg e)). split; [set_solver|done].
    + exists x. set_solver.
  - right. split.
    + intros x [Hx|[->|Hx]%elem_of_cons]%elem_of_app; [apply Hn; set_solver| |apply Hn; set_solver].
      apply (Hn e). set_solver.
    + cbn. rewrite Hd; [done|done|]. intros ->. apply (Hn e); [set_solver|done].
Qed.

Lemma flush_loop_zero l count (s : S) :
  (forall i, i ∈ l -> zget (cache_cg_state s) i = 0) -> flush_loop l count s = Some (count, s).
Proof using Type.
  induction l as [|i l IH]; intros Hl; [done|]. cbn [flush_loop]. unfold bnd at 1, gets at 1.
  rewrite (Hl i) by by left. cbn [Z.eqb]. apply IH. intros j Hj. apply Hl. by right.
Qed.

Lemma state_beyond s A free i :
  table s A free -> zlen A <= i -> zget (cache_cg_state s) i = 0.
Proof using Type.
  intros Ht Hi. rewrite (tb_state _ _ _ Ht). unfold zget, slots_state. pose proof (zlen_nonneg A).
  destruct (Z.ltb_spec i 0); [done|].
  rewrite lookup_app_r by (rewrite length_fmap; unfold zlen in Hi; lia).
  destruct (replicate free 0 !! _) as [v|] eqn:E; [|done]. by apply lookup_replicate in E as [-> _].
Qed.

Lemma wp_flush_loop (B A : list entry) count (Q : Z -> S -> Prop) s free :
  table s (A ++ B) free ->
  (forall s' n, table s' (A ++ (clean <$> B)) free -> cc_same s s' -> cc_mem s' = cc_mem s ->
     cache_cg_size s' = cache_cg_size s -> Q n s') ->
  wp (flush_loop (upto (zlen A) CACHE_CG_MAX 1) count) Q s.
Proof using Type.
  revert A count s. induction B as [|e B IH]; intros A count s Ht HQ.
  - rewrite app_nil_r in Ht. unfold wp. rewrite flush_loop_zero.
    + apply HQ; [by rewrite app_nil_r|apply cc_same_refl|done|done].
    + intros i Hi. apply elem_of_upto in Hi as (k & ? & -> & ?); [|lia].
      eapply state_beyond; [done|lia].
  - pose proof (tb_len _ _ _ Ht) as Hl. rewrite zlen_app, zlen_cons in Hl. pose proof (zlen_nonneg B).
    rewrite upto_cons by lia. cbn [flush_loop]. destruct (zget_state_mid s A e B free Ht) as [Es Ed].
    apply wp_bnd, wp_gets. cbv beta. rewrite Es.
    assert (e ∈ A ++ e :: B) as He by set_solver.
    pose proof (tb_entries _ _ _ Ht) as Hf. rewrite Forall_forall in Hf.
    destruct (Hf e He) as (R1 & R2 & R3). pose proof (tb_geo _ _ _ Ht) as Hg.
    assert (forall s1, table s1 (A ++ clean e :: B) free -> cc_same s s1 -> cc_mem s1 = cc_mem s ->
      cache_cg_size s1 = cache_cg_size s ->
      forall n, wp (flush_loop (upto (zlen A + 1) CACHE_CG_MAX 1) n) Q s1) as Hnext.
    { intros s1 Ht1 Hs1 Hm1 Hz1 n. replace (zlen A + 1) with (zlen (A ++ [clean e])) by (by rewrite zlen_app).
      apply (IH (A ++ [clean e])); [by rewrite <- app_assoc|]. intros s2 n2 Ht2 Hs2 Hm2 Hz2. apply HQ.
      - by rewrite <- app_assoc in Ht2.
      - by eapply cc_same_trans.
      - congruence.
      - congruence. }
    destruct (Z.eqb_spec (e_state e) 0) as [H0'|H0'].
    + apply Hnext; [|apply cc_same_refl|done|done]. replace (clean e) with e; [done|].
      unfold clean. rewrite <- H0'. by destruct e.
    + apply wp_bnd, wp_gets. cbv beta. rewrite Ed. cbn [deref]. apply wp_bnd, wp_ret.
      apply wp_bnd, wp_gets. cbv beta. unfold cg_at. rewrite (tb_mem _ _ _ Ht e He). cbn [deref].
      apply wp_bnd, wp_ret, wp_bnd, wp_gets. cbv beta. apply wp_bnd.
      unfold cg_data_write, wp at 1. rewrite (tb_ronly _ _ _ Ht). cbn [Z.eqb negb].
      rewrite (tb_mem _ _ _ Ht e He), (cg_cgx_u32 _ _ Hg R1).
      destruct (st_write_ok (cgtod (cc_super s) (cg_cgx (e_cg e))) (e_cg e) (cc_disk s))
        as (d' & -> & Hd'). cbn [fst snd Z.eqb negb]. apply wp_bnd, wp_modify.
      destruct (table_restate s A e B free d' 0 Ht) as [Ht1 Hs1].
      * intros k Hk Hne. rewrite Hd'. destruct (Z.eqb_spec (cgtod (cc_super s) k)
          (cgtod (cc_super s) (cg_cgx (e_cg e)))) as [Heq|]; [|done].
        by apply cgtod_inj in Heq; [|done..].
      * by rewrite Hd', Z.eqb_refl.
      * intros _. by rewrite Hd', Z.eqb_refl.
      * by apply Hnext.
Qed.

Lemma wp_cache_cg_flush (Q : Z -> S -> Prop) s es free :
  table s es free ->
  (forall s' n, table s' (clean <$> es) free -> cc_same s s' -> cc_mem s' = cc_mem s ->
     cache_cg_size s' = cache_cg_size s -> Q n s') ->
  wp cache_cg_flush Q s.
Proof using Type. intros Ht HQ. by apply (wp_flush_loop es [] 0 Q s free). Qed.

(** *** cache_cg *)

Lemma slots_len es free : zlen (slots_data es free) = zlen es + Z.of_nat free.
Proof using Type. unfold slots_data. by rewrite zlen_app, zlen_fmap, zlen_replicate. Qed.

(** A group read into a buffer that no other slot uses. *)
Lemma table_read s0 A B p k free h :
  let c := st_peek (cc_disk s0) (cgtod (cc_super s0) k) in
  let es := A ++ Entry p 0 c :: B in
  let s := CgCache (cc_super s0) (slots_data es free) (slots_state es free) (cache_cg_size s0)
             (<[p := c]> (cc_mem s0)) (cc_disk s0) h (receiving_packets s0) in
  table s0 (A ++ B) (Datatypes.S free) -> (0 < free)%nat -> zlen (A ++ B) < cache_cg_size s0 ->
  0 <= k < fs_ncg (cc_super s0) -> (forall e, e ∈ A ++ B -> cg_cgx (e_cg e) <> k) ->
  p ∉ e_ptr <$> (A ++ B) -> in_use h p -> (forall q, in_use (cc_heap s0) q -> in_use h q) ->
  table s es free /\ cc_same s0 s.
Proof using Type.
  intros c es s Ht Hf Hl Hk Hno Hp Hh Hhq. pose proof Ht as [T1 T2 T3 T4 T5 T6 T7 T8 T9 T10 T11 T12].
  assert (forall x, x ∈ es <-> x = Entry p 0 c \/ x ∈ A ++ B) as Hes by (intros x; unfold es; set_solver).
  assert (es ≡ₚ Entry p 0 c :: (A ++ B)) as Hperm by (unfold es; by rewrite Permutation_middle).
  assert (cg_cgx c = k) as Hc by by apply T12.
  assert (zlen es = zlen (A ++ B) + 1) as Hlen by (unfold zlen; rewrite Hperm; cbn [length]; lia).
  assert (table s es free) as Ht'.
  { constructor; cbn; try done.
    - rewrite Hlen. rewrite <- T4. lia.
    - rewrite Hlen. destruct T5. lia.
    - intros x [->|Hx]%Hes; [apply lookup_insert_eq|].
      cbn. rewrite lookup_insert_ne; [by apply T6|]. intros ->. apply Hp, list_elem_of_fmap. by exists x.
    - rewrite Hperm. cbn. by constructor.
    - rewrite Hperm. cbn. constructor; [|done]. intros (x & Hx & Hin)%list_elem_of_fmap.
      apply (Hno x Hin). congruence.
    - rewrite Forall_forall in *. intros x [->|Hx]%Hes.
      + split; [cbn; by rewrite Hc|]. split; [done|]. intros _. cbn. by rewrite Hc.
      + destruct (T9 x Hx) as (R1 & R2 & R3). split; [done|]. split; [by apply Hhq|done]. }
  split; [done|]. apply (cc_same_content s0 (A ++ B) _ s es free Ht Ht'); [done|].
  intros j c' Hj [(x & Hx & Hr)|[Hn Hr]].
  - left. exists x. split; [apply Hes; by right|done].
  - destruct (Z.eqb_spec j k) as [->|Hne].
    + left. exists (Entry p 0 c). split; [apply Hes; by left|]. split; [done|]. by rewrite <- Hr.
    + right. split; [|done]. intros x [->|Hx]%Hes; [cbn; congruence|by apply Hn].
Qed.

(** A clean slot forgotten. *)
Lemma table_drop s x B free :
  table s (x :: B) free -> e_state x = 0 ->
  let s' := set_slots (slots_data B (Datatypes.S free)) (slots_state B (Datatypes.S free)) s in
  table s' B (Datatypes.S free) /\ cc_same s s'.
Proof using Type.
  intros Ht Hx s'. pose proof Ht as [T1 T2 T3 T4 T5 T6 T7 T8 T9 T10 T11 T12].
  rewrite zlen_cons in T4, T5. cbn in T7, T8. apply NoDup_cons in T7 as [_ T7], T8 as [T8x T8].
  apply Forall_cons in T9 as [(R1 & R2 & R3) T9].
  assert (table s' B (Datatypes.S free)) as Ht'.
  { constructor; cbn; try done; try lia. intros e He. apply T6. by right. }
  split; [done|]. apply (cc_same_content s (x :: B) free s' B _ Ht Ht'); [done|].
  intros k c Hk [(e & [->|He]%elem_of_cons & <- & <-)|[Hn Hr]].
  - right. split; [|by apply R3]. intros e He Heq. apply T8x. rewrite <- Heq.
    apply list_elem_of_fmap. by exists e.
  - left. by exists e.
  - right. split; [|done]. intros e He. apply Hn. by right.
Qed.

Lemma cg_scan_spec s es free k :
  table s es free -> 0 <= k < fs_ncg (cc_super s) ->
  match cg_scan s k (upto 0 (cache_cg_size s) 1) with
  | ScanHit i => exists A e B, es = A ++ e :: B /\ i = zlen A /\ cg_cgx (e_cg e) = k
  | ScanNull i => i = zlen es /\ zlen es < cache_cg_size s /\
      forall e, e ∈ es -> cg_cgx (e_cg e) <> k
  | ScanFull => zlen es = cache_cg_size s /\ forall e, e ∈ es -> cg_cgx (e_cg e) <> k
  end.
Proof using Type.
  intros Ht Hk. pose proof (tb_size _ _ _ Ht) as [_ Hsz].
  assert (forall B A, es = A ++ B -> (forall e, e ∈ A -> cg_cgx (e_cg e) <> k) ->
    match cg_scan s k (upto (zlen A) (cache_cg_size s) 1) with
    | ScanHit i => exists A e B, es = A ++ e :: B /\ i = zlen A /\ cg_cgx (e_cg e) = k
    | ScanNull i => i = zlen es /\ zlen es < cache_cg_size s /\
        forall e, e ∈ es -> cg_cgx (e_cg e) <> k
    | ScanFull => zlen es = cache_cg_size s /\ forall e, e ∈ es -> cg_cgx (e_cg e) <> k
    end) as Hgen; [|by apply (Hgen es []); [|intros e He; apply not_elem_of_nil in He]].
  induction B as [|e B IH]; intros A Hes HA.
  - rewrite app_nil_r in Hes. subst A. destruct (Z.ltb_spec (zlen es) (cache_cg_size s)) as [Hlt|].
    + rewrite upto_cons by lia. cbn [cg_scan].
      assert (zget (cache_cg_data s) (zlen es) = None) as ->; [|done].
      rewrite (tb_data _ _ _ Ht). unfold slots_data. pose proof (tb_free _ _ _ Ht).
      destruct free as [|n]; [lia|]. cbn [replicate].
      rewrite <- (zlen_fmap (fun e => Some (e_ptr e)) es). apply zget_mid.
    + rewrite upto_nil by lia. cbn. split; [lia|done].
  - rewrite Hes, zlen_app, zlen_cons in Hsz. pose proof (zlen_nonneg B).
    rewrite upto_cons by lia. cbn [cg_scan]. rewrite Hes in Ht.
    destruct (zget_state_mid s A e B free Ht) as [_ ->]. rewrite <- Hes in Ht.
    assert (e ∈ es) as He by (rewrite Hes; set_solver).
    rewrite (has_cgx_entry s es free Ht e k He Hk).
    destruct (Z.eqb_spec (cg_cgx (e_cg e)) k) as [Heq|Hne]; [by exists A, e, B|].
    replace (zlen A + 1) with (zlen (A ++ [e])) by (by rewrite zlen_app). apply IH.
    + by rewrite <- app_assoc.
    + intros x [Hx|Hx]%elem_of_app; [by apply HA|]. apply list_elem_of_singleton in Hx as ->. done.
Qed.

(** The end of a miss, on a table whose slot [zlen A] is clean and about to
    hold group [k]. *)
Lemma wp_read_popup (Q : option Z -> S -> Prop) s s0 A e B k free h :
  table s0 (A ++ B) (Datatypes.S free) -> (0 < free)%nat -> zlen (A ++ B) < cache_cg_size s0 ->
  0 <= k < fs_ncg (cc_super s0) -> (forall x, x ∈ A ++ B -> cg_cgx (e_cg x) <> k) ->
  e_ptr e ∉ e_ptr <$> (A ++ B) -> in_use h (e_ptr e) ->
  (forall q, in_use (cc_heap s0) q -> in_use h q) ->
  s = CgCache (cc_super s0) (slots_data (A ++ e :: B) free) (slots_state (A ++ e :: B) free)
        (cache_cg_size s0) (cc_mem s0) (cc_disk s0) h (receiving_packets s0) ->
  (forall s' e', table s' (A ++ B ++ [e']) free -> cc_same s0 s' -> e_ptr e' = e_ptr e ->
     cg_cgx (e_cg e') = k -> Q (Some (e_ptr e)) s') ->
  wp (f <- gets cc_super ;;
      r <- cg_data_read (e_ptr e) (cgtod f k) ;;
      if negb (r =? 0) then
        o <- gets (fun s => cg_at s (e_ptr e)) ;;
        (match o with
         | Some c => modify (fun s => set_mem (<[e_ptr e := set_cgx c (-1)]> (cc_mem s)) s)
         | None => ret tt
         end) ;;
        ret None
      else
        modify (set_state (zlen A) 0) ;;
        modify (cache_popup_cg (zlen A)) ;;
        ret (Some (e_ptr e))) Q s.
Proof using Type.
  intros Ht Hf Hl Hk Hno Hp Hh Hhq -> HQ. apply wp_bnd, wp_gets. cbv beta. cbn [cc_super].
  apply wp_bnd. unfold cg_data_read, wp at 1. cbn [cc_disk]. rewrite st_read_ok.
  cbn [Z.eqb negb]. apply wp_bnd, wp_modify, wp_bnd, wp_modify, wp_ret.
  destruct (table_read s0 A B (e_ptr e) k free h Ht Hf Hl Hk Hno Hp Hh Hhq) as [Ht' Hs'].
  set (c := st_peek (cc_disk s0) (cgtod (cc_super s0) k)) in *.
  match type of Hs' with cc_same _ ?x => set (s1 := x) in * end.
  match goal with |- Q _ (cache_popup_cg _ ?x) => replace x with s1 end.
  - rewrite (popup_spec s1 A (Entry (e_ptr e) 0 c) B free Ht').
    assert (A ++ Entry (e_ptr e) 0 c :: B ≡ₚ A ++ B ++ [Entry (e_ptr e) 0 c]) as Hperm.
    { by rewrite (Permutation_app_comm B [_]). }
    apply (HQ _ (Entry (e_ptr e) 0 c)).
    + by apply (table_perm s1 (A ++ Entry (e_ptr e) 0 c :: B)).
    + eapply cc_same_trans; [exact Hs'|]. by eapply same_perm.
    + done.
    + by apply (tb_disk _ _ _ Ht).
  - unfold s1, set_state, set_slots, set_mem, set_disk. cbn. f_equal.
    all: try (unfold slots_data; by rewrite !fmap_app, !fmap_cons).
    unfold slots_state. rewrite !fmap_app, !fmap_cons, <- !app_assoc, <- !app_comm_cons.
      rewrite <- (zlen_fmap e_state A). by rewrite zset_mid.
Qed.

Lemma set_slots_id (s : S) es free :
  cache_cg_data s = slots_data es free -> cache_cg_state s = slots_state es free ->
  set_slots (slots_data es free) (slots_state es free) s = s.
Proof using Type. intros <- <-. by destruct s. Qed.

(** Eviction: the first slot is written back if dirty, then replaced. *)
Lemma wp_evict (Q : option Z -> S -> Prop) s x B k free :
  table s (x :: B) free -> 0 <= k < fs_ncg (cc_super s) ->
  (forall e, e ∈ x :: B -> cg_cgx (e_cg e) <> k) ->
  (forall s' es' e', table s' (es' ++ [e']) free -> cc_same s s' -> e_ptr e' = e_ptr x ->
     cg_cgx (e_cg e') = k -> Q (Some (e_ptr x)) s') ->
  wp (cg_fill k 0) Q s.
Proof using Type.
  intros Ht Hk Hno HQ. unfold cg_fill.
  destruct (zget_state_mid s [] x B free Ht) as [Es Ed]. change (zlen (@nil entry)) with 0 in *.
  apply wp_bnd, wp_gets. cbv beta. rewrite Ed. cbn [deref]. apply wp_bnd, wp_ret, wp_bnd, wp_gets.
  cbv beta. rewrite Es. apply wp_bnd.
  assert (forall s1 x' B', table s1 (x' :: B') free -> cc_same s s1 -> e_state x' = 0 ->
    e_ptr x' = e_ptr x -> cg_cgx (e_cg x') = cg_cgx (e_cg x) ->
    (forall e, e ∈ B' -> cg_cgx (e_cg e) <> k) ->
    wp (f <- gets cc_super ;; r <- cg_data_read (e_ptr x) (cgtod f k) ;;
        if negb (r =? 0) then
          o <- gets (fun s => cg_at s (e_ptr x)) ;;
          (match o with
           | Some c => modify (fun s => set_mem (<[e_ptr x := set_cgx c (-1)]> (cc_mem s)) s)
           | None => ret tt
           end) ;; ret None
        else modify (set_state 0 0) ;; modify (cache_popup_cg 0) ;; ret (Some (e_ptr x))) Q s1) as Hend.
  { intros s1 x' B' Ht1 Hs1 Hx0 Hxp Hxk HB. destruct (table_drop s1 x' B' free Ht1 Hx0) as [Htd Hsd].
    pose proof Ht1 as [T1 T2 T3 T4 T5 T6 T7 T8 T9 T10 T11 T12]. destruct Hs1 as [E1 V1].
    rewrite zlen_cons in T5. cbn in T7. apply NoDup_cons in T7 as [T7 _].
    apply Forall_cons in T9 as [(R1 & R2 & R3) _]. rewrite <- Hxp.
    eapply (wp_read_popup Q s1 _ [] x' B' k free (cc_heap s1) Htd); cbn; try done.
    - lia.
    - by rewrite E1.
    - rewrite <- (set_slots_id s1 (x' :: B') free T1 T2) at 1. by destruct s1.
    - intros s' e' Ht' Hs' Hpe Hke. rewrite Hxp. eapply HQ; [exact Ht'| |by rewrite Hpe|done].
      eapply cc_same_trans; [split; [exact E1|exact V1]|]. by eapply cc_same_trans. }
  destruct (Z.eqb_spec (e_state x) 0) as [Hx0|Hx0]; cbn [negb].
  - apply wp_ret. apply (Hend s x B); try done.
    intros e He. apply Hno. by right.
  - eapply wp_cache_cg_flush; [exact Ht|]. intros s1 n Ht1 Hs1 _ _.
    apply (Hend s1 (clean x) (clean <$> B)); try done.
    intros e (y & -> & Hy)%list_elem_of_fmap. cbn. apply Hno. by right.
Qed.

(** An empty slot filled from a new buffer. *)
Lemma wp_fill_new (Q : option Z -> S -> Prop) s es free k p h :
  table s es (Datatypes.S free) -> 0 <= k < fs_ncg (cc_super s) -> (forall e, e ∈ es -> cg_cgx (e_cg e) <> k) ->
  zlen es < cache_cg_size s -> (0 < free)%nat ->
  ~ in_use (cc_heap s) p -> (forall q, in_use (cc_heap s) q -> in_use h q) -> in_use h p ->
  (forall s' es' e, table s' es' free -> cc_same s s' -> e ∈ es' -> e_ptr e = p -> cg_cgx (e_cg e) = k -> Q (Some p) s') ->
  wp (cg_fill k (zlen es)) Q
    (set_slots (zset (cache_cg_data (set_heap h s)) (zlen es) (Some p)) (zset (cache_cg_state (set_heap h s)) (zlen es) 0)
       (set_heap h s)).
Proof using Type.
  intros Ht Hk Hno Hlt Hfree Hnu Hmono Hu HQ.
  set (e := Entry p 0 no_cg).
  assert (e_ptr e ∉ e_ptr <$> (es ++ [])) as Hp.
  { rewrite app_nil_r. intros (x & Hx & Hin)%list_elem_of_fmap. apply Hnu.
    pose proof (tb_entries _ _ _ Ht) as Hf. rewrite Forall_forall in Hf.
    change p with (e_ptr e). rewrite Hx. by apply Hf. }
  match goal with |- wp _ _ ?x => replace x with
    (CgCache (cc_super s) (slots_data (es ++ [e]) free) (slots_state (es ++ [e]) free)
      (cache_cg_size s) (cc_mem s) (cc_disk s) h (receiving_packets s)) end.
  - unfold cg_fill. apply wp_bnd, wp_gets. cbv beta. cbn [cache_cg_data].
    assert (zget (slots_data (es ++ [e]) free) (zlen es) = Some p) as ->.
    { unfold slots_data. rewrite fmap_app, <- app_assoc. cbn [fmap list_fmap app].
      rewrite <- (zlen_fmap (fun e => Some (e_ptr e)) es). apply zget_mid. }
    cbn [deref]. apply wp_bnd, wp_ret, wp_bnd, wp_gets. cbv beta. cbn [cache_cg_state].
    assert (zget (slots_state (es ++ [e]) free) (zlen es) = 0) as ->.
    { unfold slots_state. rewrite fmap_app, <- app_assoc. cbn [fmap list_fmap app].
      rewrite <- (zlen_fmap e_state es). apply zget_mid. }
    cbn [Z.eqb negb]. apply wp_bnd, wp_ret. change p with (e_ptr e).
    eapply (wp_read_popup Q _ s es e [] k free h); rewrite ?app_nil_r; try done.
    + by rewrite app_nil_r in Hp.
    + intros s' e' Ht' Hs' Hpe Hke. cbn [app] in Ht'. apply (HQ s' _ e' Ht' Hs'); [set_solver|exact Hpe|exact Hke].
  - unfold set_slots, set_heap. cbn. f_equal.
    + rewrite (tb_data _ _ _ Ht). unfold slots_data. rewrite fmap_app, <- app_assoc. cbn [replicate fmap list_fmap app].
      rewrite <- (zlen_fmap (fun e => Some (e_ptr e)) es). by rewrite zset_mid.
    + rewrite (tb_state _ _ _ Ht). unfold slots_state. rewrite fmap_app, <- app_assoc. cbn [replicate fmap list_fmap app].
      rewrite <- (zlen_fmap e_state es). by rewrite zset_mid.
Qed.

Lemma wp_cc_cache_cg (Q : option Z -> S -> Prop) s es free k :
  table s es free -> 0 <= k < fs_ncg (cc_super s) ->
  (forall s' es' free' e, table s' es' free' -> cc_same s s' -> e ∈ es' -> cg_cgx (e_cg e) = k ->
     (forall x, x ∈ es -> cg_cgx (e_cg x) = k -> x = e) -> Q (Some (e_ptr e)) s') ->
  wp (cc_cache_cg k) Q s.
Proof using Type.
  intros Ht Hk HQ. unfold cc_cache_cg. apply wp_bnd, wp_gets. cbv beta.
  destruct (Z.ltb_spec (fs_ncg (cc_super s)) k); [lia|].
  apply wp_bnd, wp_gets, wp_bnd, wp_gets. cbv beta.
  pose proof (cg_scan_spec s es free k Ht Hk) as Hscan.
  pose proof (tb_size _ _ _ Ht) as [Hsz1 Hsz2]. pose proof (tb_len _ _ _ Ht) as Hlen.
  destruct (cg_scan s k (upto 0 (cache_cg_size s) 1)) as [i|i|].
  - destruct Hscan as (A & e & B & Hes & -> & Hek). subst es.
    destruct (zget_state_mid s A e B free Ht) as [_ Ed].
    apply wp_bnd, wp_gets. cbv beta. rewrite Ed. apply wp_bnd, wp_modify, wp_ret.
    rewrite (popup_spec s A e B free Ht).
    assert (A ++ e :: B ≡ₚ A ++ B ++ [e]) as Hperm by by rewrite (Permutation_app_comm B [_]).
    eapply (HQ _ (A ++ B ++ [e]) free e).
    + by eapply table_perm.
    + by eapply same_perm.
    + set_solver.
    + done.
    + intros x Hx Hxk. eapply entry_unique; [exact Ht|done|set_solver|congruence].
  - destruct Hscan as (-> & Hlt & Hno).
    destruct (AllocMem_ok (cc_heap s)) as (p & h & Ea & Hnu & Hmono & Hu).
    apply wp_bnd, wp_gets. cbv beta. rewrite Ea. cbn [fst snd]. apply wp_bnd, wp_modify, wp_bnd, wp_modify.
    destruct free as [|free]; [pose proof (tb_free _ _ _ Ht); lia|].
    apply (wp_fill_new Q s es free k p h Ht Hk Hno Hlt ltac:(lia) Hnu Hmono Hu).
    intros s' es' e Ht' Hs' He Hpe Hke. rewrite <- Hpe. eapply (HQ _ _ free e Ht' Hs' He Hke).
    intros x Hx Hxk. by destruct (Hno x Hx).
  - destruct Hscan as (Hfull & Hno). destruct es as [|x B]; [unfold zlen in Hfull; cbn in Hfull; lia|].
    eapply wp_evict; [exact Ht|done|done|]. intros s' es' e' Ht' Hs' Hpe Hke. rewrite <- Hpe.
    eapply (HQ _ _ free e' Ht' Hs'); [set_solver|done|]. intros y Hy Hyk. by destruct (Hno y Hy).
Qed.

(** *** cache_cg_write *)

Lemma slot_index s A e B free :
  table s (A ++ e :: B) free -> 0 <= zlen A < cache_cg_size s.
Proof using Type.
  intros Ht. pose proof (tb_size _ _ _ Ht) as [_ Hl]. rewrite zlen_app, zlen_cons in Hl.
  pose proof (zlen_nonneg A). pose proof (zlen_nonneg B). lia.
Qed.

Lemma slot_find_spec (test : option Z -> bool) s es free :
  table s es free -> test None = false ->
  match slot_find test (cache_cg_size s) s with
  | Some i => exists A e B, es = A ++ e :: B /\ i = zlen A /\ test (Some (e_ptr e)) = true
  | None => forall e, e ∈ es -> test (Some (e_ptr e)) = false
  end.
Proof using Type.
  intros Ht Hnone. unfold slot_find. destruct (find_first _ _) as [i|] eqn:E.
  - apply find_first_upto in E as (Hi & Htest & _).
    destruct (zget (cache_cg_data s) i) as [p|] eqn:Ep; [|congruence].
    destruct (slot_entry s es free Ht i p ltac:(lia) Ep) as (A & e & B & Hes & Hl & Hp & _).
    exists A, e, B. split; [done|]. split; [done|]. by rewrite Hp.
  - pose proof (proj1 (find_first_upto_None _ _ _) E) as Hn.
    intros e He. apply list_elem_of_split in He as (A & B & ->).
    pose proof (slot_index s A e B free Ht) as Hi. specialize (Hn (zlen A) Hi). cbv beta in Hn.
    destruct (zget_state_mid s A e B free Ht) as [_ Ed]. by rewrite Ed in Hn.
Qed.

(** A slot marked dirty. *)
Lemma mark_dirty s A e B free :
  table s (A ++ e :: B) free ->
  let s' := set_state (zlen A) 1 s in
  table s' (A ++ Entry (e_ptr e) 1 (e_cg e) :: B) free /\ cc_same s s'.
Proof using Type.
  intros Ht. replace (set_state (zlen A) 1 s) with (set_state (zlen A) 1 (set_disk (cc_disk s) s))
    by by destruct s.
  apply table_restate; [done|done| |done]. apply (tb_disk _ _ _ Ht).
  pose proof (tb_entries _ _ _ Ht) as Hf. rewrite Forall_forall in Hf. apply (Hf e). set_solver.
Qed.

Lemma wp_cc_cache_cg_write (Q : option Z -> S -> Prop) s es free k :
  table s es free -> 0 <= k < fs_ncg (cc_super s) ->
  (forall s' es' e, (exists n, table s' es' n) -> cc_same s s' -> e ∈ es' ->
     cg_cgx (e_cg e) = k -> e_state e <> 0 ->
     (forall x, x ∈ es -> cg_cgx (e_cg x) = k -> e_ptr x = e_ptr e) -> Q (Some (e_ptr e)) s') ->
  wp (cc_cache_cg_write k) Q s.
Proof using Type.
  intros Ht Hk HQ. unfold cc_cache_cg_write. apply wp_bnd, wp_gets, wp_bnd, wp_gets. cbv beta.
  pose proof (slot_find_spec (fun e => match e with Some p => has_cgx s p k | None => false end)
    s es free Ht eq_refl) as Hfind.
  destruct (slot_find _ (cache_cg_size s) s) as [i|] eqn:Ef.
  - destruct Hfind as (A & e & B & -> & -> & Hhas).
    rewrite (has_cgx_entry s _ free Ht) in Hhas by (done || set_solver). apply Z.eqb_eq in Hhas.
    destruct (zget_state_mid s A e B free Ht) as [_ Ed].
    apply wp_bnd, wp_gets. cbv beta. rewrite Ed. apply wp_bnd, wp_modify, wp_ret.
    destruct (mark_dirty s A e B free Ht) as [Ht' Hs'].
    eapply (HQ _ _ (Entry (e_ptr e) 1 (e_cg e))); [by exists free|done|set_solver|done|done|].
    intros x Hx Hxk. cbn. f_equal. eapply entry_unique; [exact Ht|done|set_solver|congruence].
  - assert (forall e, e ∈ es -> cg_cgx (e_cg e) <> k) as Hno.
    { intros e He Heq. specialize (Hfind e He). cbn in Hfind.
      rewrite (has_cgx_entry s es free Ht e k He Hk), Heq, Z.eqb_refl in Hfind. done. }
    apply wp_bnd. cbn [cg_retry]. apply wp_bnd. eapply wp_cc_cache_cg; [exact Ht|done|].
    intros s1 es1 free1 e Ht1 Hs1 He Hek _. cbv beta. apply wp_ret, wp_bnd, wp_gets. cbv beta.
    assert (forall x, x ∈ es -> cg_cgx (e_cg x) = k -> e_ptr x = e_ptr e) as Hvac
      by (intros x Hx Hxk; by destruct (Hno x Hx)).
    pose proof (slot_find_spec (fun o => bool_decide (o = Some (e_ptr e))) s1 es1 free1 Ht1 eq_refl) as Hf1.
    destruct (slot_find _ (cache_cg_size s1) s1) as [i|].
    + destruct Hf1 as (A & e1 & B & -> & -> & Hpe). apply bool_decide_eq_true in Hpe.
      injection Hpe as Hpe.
      assert (e1 = e) as ->.
      { pose proof (tb_mem _ _ _ Ht1 e1 ltac:(set_solver)) as M1.
        pose proof (tb_mem _ _ _ Ht1 e He) as M2. rewrite Hpe, M2 in M1. injection M1 as M1.
        eapply entry_unique; [exact Ht1|set_solver|done|by rewrite M1]. }
      apply wp_bnd, wp_modify, wp_ret. destruct (mark_dirty s1 A e B free1 Ht1) as [Ht2 Hs2].
      eapply (HQ _ _ (Entry (e_ptr e) 1 (e_cg e)));
        [by exists free1|by eapply cc_same_trans|set_solver|done|done|done].
    + specialize (Hf1 e He). apply bool_decide_eq_false in Hf1. done.
Qed.

(** The allocator stores into a dirty buffer. *)
Lemma table_store s A e B free c :
  table s (A ++ e :: B) free -> e_state e <> 0 -> cg_cgx c = cg_cgx (e_cg e) ->
  table (set_mem (<[e_ptr e := c]> (cc_mem s)) s) (A ++ Entry (e_ptr e) (e_state e) c :: B) free.
Proof using Type.
  intros [T1 T2 T3 T4 T5 T6 T7 T8 T9 T10 T11 T12] Hst Hc. constructor; cbn; try done.
  - rewrite T1. unfold slots_data. by rewrite !fmap_app, !fmap_cons.
  - rewrite T2. unfold slots_state. by rewrite !fmap_app, !fmap_cons.
  - by rewrite zlen_app, zlen_cons in *.
  - by rewrite zlen_app, zlen_cons in *.
  - rewrite fmap_app, fmap_cons in T7. apply NoDup_app in T7 as (_ & N1 & N2).
    apply NoDup_cons in N2 as [N2 _].
    intros x [Hx|[->|Hx]%elem_of_cons]%elem_of_app.
    + rewrite lookup_insert_ne; [apply T6; set_solver|]. intros Heq. apply (N1 (e_ptr x)).
      * apply list_elem_of_fmap. by exists x.
      * rewrite <- Heq. by left.
    + apply lookup_insert_eq.
    + rewrite lookup_insert_ne; [apply T6; set_solver|]. intros Heq. apply N2. rewrite Heq.
      apply list_elem_of_fmap. by exists x.
  - by rewrite fmap_app, fmap_cons in *.
  - rewrite fmap_app, fmap_cons in *. cbn. by rewrite Hc.
  - rewrite Forall_app, Forall_cons in *. destruct T9 as (F1 & (R1 & R2 & R3) & F2).
    split; [done|]. split; [|done]. split; [by cbn; rewrite Hc|]. split; [done|]. done.
Qed.

Lemma view_store s A e B free c k :
  table s (A ++ e :: B) free -> e_state e <> 0 -> cg_cgx c = cg_cgx (e_cg e) ->
  cc_view (set_mem (<[e_ptr e := c]> (cc_mem s)) s) k = if k =? cg_cgx c then c else cc_view s k.
Proof using Type.
  intros Ht Hst Hc. pose proof (table_store s A e B free c Ht Hst Hc) as Ht'.
  set (s' := set_mem _ s) in *.
  destruct (Z.eqb_spec k (cg_cgx c)) as [->|Hne].
  - apply (view_cached s' _ free Ht' (Entry (e_ptr e) (e_state e) c)). set_solver.
  - destruct (decide (0 <= k < fs_ncg (cc_super s))) as [Hk|Hk].
    + apply (content_view s' _ free k _ Ht' Hk).
      destruct (view_content s _ free k Ht Hk) as [(x & Hx & Hv & Hxk)|[Hn Hv]].
      * left. apply elem_of_app in Hx as [Hx|[->|Hx]%elem_of_cons].
        -- exists x. split; [set_solver|done].
        -- congruence.
        -- exists x. split; [set_solver|done].
      * right. split; [|done]. intros x [Hx|[->|Hx]%elem_of_cons]%elem_of_app.
        -- apply Hn. set_solver.
        -- cbn. congruence.
        -- apply Hn. set_solver.
    + unfold cc_view. cbn. destruct (Z.leb_spec 0 k), (Z.ltb_spec k (fs_ncg (cc_super s))); cbn [andb]; try done. lia.
Qed.

(** ** The contract *)

#[export] Program Instance cgcache_laws : CgStoreLaws S := {
  cgs_ok := cc_ok;
  cgs_view := cc_view;
  cgs_owns := cc_owns }.
Next Obligation. intros s k (es & free & Ht) _. by eapply view_cgx. Qed.
Next Obligation. intros s (es & free & Ht). apply Ht. Qed.
Next Obligation.
  intros s k p w (es & free & Ht) Ho. apply (owns_entry s es free Ht) in Ho as (e & He & <- & <- & _).
  rewrite (view_cached s es free Ht e He). cbn. by apply (tb_mem _ _ _ Ht).
Qed.
Next Obligation.
  intros s k (es & free & Ht) Hk. cbn in Hk. eapply wp_cc_cache_cg; [exact Ht|done|].
  intros s' es' free' e Ht' [E V] He Hek Hx. exists (e_ptr e). split; [done|].
  split; [by exists es', free'|]. split; [done|]. split; [done|].
  assert (forall w, (w = true -> e_state e <> 0) -> cc_owns s' k (e_ptr e) w) as Ho.
  { intros w Hw. apply (owns_entry s' es' free' Ht'). by exists e. }
  split; [by apply Ho|]. intros p' w (x & Hxe & <- & Hxk & Hw)%(owns_entry s es free Ht).
  rewrite (Hx x Hxe Hxk) in *. split; [done|by apply Ho].
Qed.
Next Obligation.
  intros s k (es & free & Ht) Hk. cbn in Hk. eapply wp_cc_cache_cg_write; [exact Ht|done|].
  intros s' es' e (free' & Ht') [E V] He Hek Hst Hx. exists (e_ptr e). split; [done|].
  split; [by exists es', free'|]. split; [done|]. split; [done|].
  split; [apply (owns_entry s' es' free' Ht'); by exists e|].
  intros p' w (x & Hxe & <- & Hxk & Hw)%(owns_entry s es free Ht). by apply Hx.
Qed.
Next Obligation.
  intros s k p c (es & free & Ht) Ho Hc. cbn in *.
  apply (owns_entry s es free Ht) in Ho as (e & He & <- & <- & Hst). specialize (Hst eq_refl).
  apply list_elem_of_split in He as (A & B & ->).
  pose proof (table_store s A e B free c Ht Hst Hc) as Ht'.
  split; [by eexists _, _|]. split; [done|]. split.
  - intros k. rewrite (view_store s A e B free c k Ht Hst Hc). by rewrite Hc.
  - intros w Hw. apply (owns_entry _ _ free Ht'). exists (Entry (e_ptr e) (e_state e) c).
    split; [set_solver|]. split; [done|]. split; [done|]. by intros _.
Qed.
Next Obligation. done. Qed.
Next Obligation.
  intros s f Hf k. cbn in *. unfold cc_view. cbn. rewrite Hf.
  destruct (_ && _); [|done]. f_equal.
  generalize (cache_cg_data s). intros l. induction l as [|[p|] l IH]; cbn; [done|by rewrite IH|done].
Qed.
Next Obligation.
  intros s f Hg Hr (es & free & Ht). cbn in *. destruct Ht as [T1 T2 T3 T4 T5 T6 T7 T8 T9 T10 T11 T12].
  exists es, free. constructor; cbn; rewrite ?Hg; try done; by rewrite Hr.
Qed.
Next Obligation. intros s f k p w Ho. exact Ho. Qed.


End Spec.
