(* ===== verification/Sample.v ===== *)
(** A concrete file system on which the theorems are run: two groups of
    eight 8 kB blocks with 1 kB fragments, a healthy disk that holds their
    cylinder groups, and the group cache just after the mount. *)

From S2P Require Import Prelude Bitmap Superblock Cg CgSearch Runs Accounting Clusters Summary.
From S2P Require Import FragSummary CgStore Alloc AllocWp AllocSpec AllocInv CgCache.
From S2P Require Import CgCacheSpec.

(** ** Checking bounded properties by evaluation *)

Lemma forall_range (P : Z -> bool) lo n :
  forallb P (seqZ lo n) = true -> forall i, lo <= i < lo + n -> P i = true.
Proof.
  intros H i Hi. rewrite forallb_forall in H. apply H, list_elem_of_In, elem_of_seqZ. lia.
Qed.

(** ** The geometry *)

Definition sample_geo : geometry := {|
  fs_sblkno := 8; fs_cblkno := 16; fs_iblkno := 24; fs_dblkno := 32;
  fs_cgoffset := 0; fs_cgmask := -1; fs_ncg := 2; fs_bsize := 8192; fs_fsize := 1024;
  fs_frag := 8; fs_bshift := 13; fs_fshift := 10; fs_fragshift := 3; fs_nindir := 2048;
  fs_inopb := 64; fs_nspf := 2; fs_npsect := 32; fs_interleave := 1; fs_trackskew := 0;
  fs_nsect := 32; fs_spc := 64; fs_ipg := 64; fs_fpg := 64; fs_nrpos := 8;
  fs_contigsumsize := 7 |}.

Lemma sample_geo_wf : wf_geometry sample_geo.
Proof.
  constructor; try (vm_compute; intuition discriminate).
  - split; [done|]. by exists 8.
  - exists 3. by split.
  - split; [done|]. by exists 1.
Qed.

(** ** A group with consistent tables over a fragment map *)

Definition avail_map (g : geometry) (map : list Z) (ncl : Z) : list Z :=
  foldl (fun m b => if block_avail (fs_frag g) map (b * fs_frag g) then bit_set m b else m)
    (replicate (Z.to_nat ((ncl + 7) / 8)) 0) (upto 0 ncl 1).

Definition mk_cg (g : geometry) (cgx : Z) (map inos : list Z) (nifree ndir : Z) : cg :=
  let ncl := fs_fpg g / fs_frag g in
  let clusters := avail_map g map ncl in
  Cg cgx (fs_ipg g) (fs_fpg g)
    (Csum ndir (group_weight g (w_nb (fs_frag g)) map) nifree
          (group_weight g (w_nf (fs_frag g)) map))
    0
    ((fun k => group_weight g (w_fr k) map) <$> seqZ 0 8)
    (pos_weight g (cbtocylno g) map <$> seqZ 0 2)
    ((fun x => s16 (pos_weight g (rpos_index g) map x)) <$> seqZ 0 16)
    inos map
    ((fun k => run_weight (w_cl (fs_contigsumsize g) k) (is_free clusters) 0 ncl) <$> seqZ 0 8)
    clusters ncl.

Definition sample_map0 : list Z := [0; 0; 0; 0; 0xf0; 0xff; 0; 0x18].
Definition sample_map1 : list Z := [0; 0; 0; 0; 0; 0; 0xff; 0xff].
Definition sample_cg0 : cg := mk_cg sample_geo 0 sample_map0 [0x1f; 0; 0; 0; 0; 0; 0; 0] 59 1.
Definition sample_cg1 : cg := mk_cg sample_geo 1 sample_map1 [0; 0; 0; 0; 0; 0; 0; 0] 64 0.

Definition csum_add (a b : csum) : csum :=
  Csum (cs_ndir a + cs_ndir b) (cs_nbfree a + cs_nbfree b) (cs_nifree a + cs_nifree b)
       (cs_nffree a + cs_nffree b).

Definition sample_total : csum := csum_add (cg_cs sample_cg0) (cg_cs sample_cg1).
Definition sample_fs : fs :=
  Fs sample_geo sample_total sample_total [cg_cs sample_cg0; cg_cs sample_cg1] FS_FLAGS_UPDATED 0 0.

(** The tables of a group, checked entry by entry. *)
Definition check_cg (g : geometry) (c : cg) : bool :=
  let F := fs_frag g in
  forallb (fun b => (0 <=? cbtocylno g b) && (cbtocylno g b <? zlen (cg_blktot c)) &&
                    (0 <=? rpos_index g b) && (rpos_index g b <? zlen (cg_blks c)))
    (seqZ 0 (cg_ndblk c)) &&
  forallb (fun x => zget (cg_blktot c) x =? pos_weight g (cbtocylno g) (cg_blksfree c) x)
    (seqZ 0 (zlen (cg_blktot c))) &&
  forallb (fun x => zget (cg_blks c) x =? s16 (pos_weight g (rpos_index g) (cg_blksfree c) x))
    (seqZ 0 (zlen (cg_blks c))) &&
  forallb (fun b => eqb (is_free (cg_clustersfree c) b) (block_avail F (cg_blksfree c) (b * F)))
    (seqZ 0 (cg_nclusterblks c)) &&
  forallb (fun k => zget (cg_clustersum c) k =?
      run_weight (w_cl (fs_contigsumsize g) k) (is_free (cg_clustersfree c)) 0 (cg_nclusterblks c))
    (seqZ 1 (fs_contigsumsize g)) &&
  forallb (fun k => zget (cg_frsum c) k =? group_weight g (w_fr k) (cg_blksfree c))
    (seqZ 1 (F - 1)).

Lemma check_cg_wf g c :
  check_cg g c = true -> wf_map c -> cg_ndblk c <= fs_fpg g ->
  cs_nbfree (cg_cs c) = group_weight g (w_nb (fs_frag g)) (cg_blksfree c) ->
  cs_nffree (cg_cs c) = group_weight g (w_nf (fs_frag g)) (cg_blksfree c) ->
  zlen (cg_frsum c) = 8 -> cg_nclusterblks c = cg_ndblk c / fs_frag g ->
  cg_nclusterblks c <= 8 * zlen (cg_clustersfree c) ->
  fs_contigsumsize g < zlen (cg_clustersum c) ->
  wf_blocks g c /\ wf_frags g c.
Proof.
  unfold check_cg. rewrite !andb_true_iff. intros (((((C1 & C2) & C3) & C4) & C5) & C6) Hm ? ? ? ? ? ? ?.
  split; constructor; try done.
  - intros b Hb. pose proof (forall_range _ _ _ C1 b ltac:(lia)) as E.
    rewrite !andb_true_iff, !Z.leb_le, !Z.ltb_lt in E. lia.
  - intros x Hx. by apply Z.eqb_eq, (forall_range _ _ _ C2); lia.
  - intros x Hx. by apply Z.eqb_eq, (forall_range _ _ _ C3); lia.
  - intros _. constructor; try done.
    + intros b Hb. apply eqb_prop, (forall_range _ _ _ C4). lia.
    + intros k Hk. apply Z.eqb_eq, (forall_range _ _ _ C5). lia.
  - intros k Hk. apply Z.eqb_eq, (forall_range _ _ _ C6). lia.
Qed.

Lemma bytes_check (l : list Z) : forallb (fun b => (0 <=? b) && (b <? 256)) l = true -> Forall byte l.
Proof.
  intros H. apply Forall_forall. intros x Hx%list_elem_of_In. rewrite forallb_forall in H.
  specialize (H x Hx). rewrite andb_true_iff, Z.leb_le, Z.ltb_lt in H. exact H.
Qed.

Lemma map_wf c : forallb (fun b => (0 <=? b) && (b <? 256)) (cg_blksfree c) = true ->
  cg_ndblk c = 8 * zlen (cg_blksfree c) -> wf_map c.
Proof.
  intros Hb Hn. pose proof (zlen_nonneg (cg_blksfree c)). constructor; [by apply bytes_check|lia|].
  intros i Hi. unfold is_free. rewrite zget_out; [by apply Z.bits_0|].
  apply Z.div_le_lower_bound; lia.
Qed.

Lemma sample_cg_wf k : 0 <= k < 2 ->
  let c := if k =? 0 then sample_cg0 else sample_cg1 in
  wf_blocks sample_geo c /\ wf_frags sample_geo c.
Proof.
  intros Hk. assert (k = 0 \/ k = 1) as [-> | ->] by lia; cbv zeta; cbn [Z.eqb].
  all: apply check_cg_wf; try (vm_compute; done).
  all: apply map_wf; vm_compute; done.
Qed.

(** ** A disk, a heap and the mounted state *)

#[export] Instance sample_disk : Storage (Z -> cg) cg := {
  st_read := fun n d => (Some (d n), d);
  st_write := fun n c d => (true, fun k => if k =? n then c else d k) }.
#[export] Program Instance sample_disk_laws : StorageLaws (Z -> cg) cg := {
  st_peek := fun d => d }.
Next Obligation. done. Qed.
Next Obligation. intros n v d. by eexists. Qed.

#[export] Instance sample_exec : Exec Z := {
  AllocMem := fun h => (Some h, h + 1);
  FreeMem := fun _ h => h }.
#[export] Program Instance sample_exec_laws : ExecLaws Z := {
  in_use := fun h p => p < h }.
Next Obligation. intros h. exists h, (h + 1). cbn. repeat split; intros; lia. Qed.

Definition sample_store (d : Z) : cg := if d =? 16 then sample_cg0 else sample_cg1.

Definition sample_state : cgcache (Z -> cg) Z :=
  CgCache sample_fs (replicate 16 None) (replicate 16 0) 3 ∅ sample_store 4096 1.

Definition sample_view : Z -> cg := cgs_view sample_state.

Lemma sample_view_eq k : 0 <= k < 2 -> sample_view k = if k =? 0 then sample_cg0 else sample_cg1.
Proof. intros Hk. assert (k = 0 \/ k = 1) as [-> | ->] by lia; reflexivity. Qed.

Lemma sample_table : table sample_state [] 16.
Proof.
  constructor; try reflexivity; try apply sample_geo_wf; try by constructor.
  - lia.
  - intros e He. by apply not_elem_of_nil in He.
  - intros k Hk. cbn in Hk. assert (k = 0 \/ k = 1) as [-> | ->] by lia; reflexivity.
Qed.

Lemma sample_holds : holds sample_state sample_fs sample_view.
Proof. split; [by exists [], 16%nat; apply sample_table|]. by split. Qed.

Lemma sample_inv : fs_inv sample_fs sample_view.
Proof.
  constructor; [constructor|].
  - apply sample_geo_wf.
  - intros k Hk. rewrite sample_view_eq by done. by apply sample_cg_wf.
  - constructor; try done.
    intros k Hk. rewrite sample_view_eq by done. cbn in Hk.
    assert (k = 0 \/ k = 1) as [-> | ->] by lia; reflexivity.
  - done.
  - intros k Hk. rewrite sample_view_eq by done. by apply sample_cg_wf.
Qed.
