(* ===== verification/AllocTheorems.v ===== *)
(** What the allocator promises, on the set of free fragments of the disk:
    [block_allocate], [block_deallocate], [frags_allocate] and
    [frags_deallocate] over any group cache that keeps its contract, the
    searches they rest on, and the cluster summary. *)

From S2P Require Import Prelude Bitmap Superblock Addresses Cg CgSearch Runs CgStore Alloc AllocWp Accounting Clusters Summary FragSummary.
From S2P Require Import AllocSpec AllocInv FragAlloc CgCache CgCacheSpec Sample.
Local Open Scope bffs_scope.

(** Fragments [d], ..., [d+n-1] become free or used; no other one changes. *)
Definition free_set (f : fs) (v : Z -> cg) (f' : fs) (v' : Z -> cg) (d n : Z) (free : bool) : Prop :=
  forall x, on_disk f x -> frag_free f' v' x = if in_range d n x then free else frag_free f v x.

(** Every fragment of the range has that state. *)
Definition all_frags (f : fs) (v : Z -> cg) (d n : Z) (free : bool) : Prop :=
  forall x, d <= x < d + n -> frag_free f v x = free.

(** A whole block of the file system at address [d], other than block 0,
    which holds the boot block. *)
Definition disk_block (f : fs) (v : Z -> cg) (d : Z) : Prop :=
  on_disk f d /\ 0 < d /\ d mod fs_frag f = 0 /\
  dtogd f d + fs_frag f <= cg_ndblk (v (dtog f d)).

Section Facts.
Context (f : fs) (v : Z -> cg) (Hg : wf_geometry f).
#[local] Abbreviation FPB := (fs_frag f).

Lemma frag_free_at k i :
  0 <= k < fs_ncg f -> 0 <= i < fs_fpg f ->
  frag_free f v (i + cgbase f k) = is_free (cg_blksfree (v k)) i.
Proof using Hg. intros Hk Hi. unfold frag_free. by destruct (group_join f Hg k i Hk Hi) as [-> ->]. Qed.

Lemma address_split d : on_disk f d -> d = dtogd f d + cgbase f (dtog f d).
Proof using Hg.
  intros Hd. rewrite cgbase_eq by (done || by apply on_disk_group). 
  pose proof (group_split f Hg d). lia.
Qed.

Lemma dtogd_mod d : dtogd f d mod FPB = d mod FPB.
Proof using Hg.
  destruct (wg_fpg f Hg) as [Hp [q Hq]]. pose proof (frag_pos f Hg). unfold dtogd.
  rewrite Hq. rewrite (Z.mul_comm q), Z.rem_mul_r by nia.
  rewrite Z.mul_comm, Z.mod_add, Z.mod_mod by lia. done.
Qed.

(** A range of the disk inside one group, as a range of its map. *)
Lemma all_frags_group d n free :
  on_disk f d -> dtogd f d + n <= fs_fpg f -> all_frags f v d n free ->
  forall i, dtogd f d <= i < dtogd f d + n -> is_free (cg_blksfree (v (dtog f d))) i = free.
Proof using Hg.
  intros Hd Hn Ha i Hi. pose proof (on_disk_group f d Hg Hd) as Hk.
  destruct (wg_fpg f Hg) as [Hp _]. pose proof (Z.mod_pos_bound d (fs_fpg f) Hp).
  rewrite <- (frag_free_at (dtog f d) i) by (done || unfold dtogd in *; lia). apply Ha.
  pose proof (address_split d Hd). lia.
Qed.

Lemma moved_free_set f' v' d n a :
  on_disk f d -> dtogd f d + n <= fs_fpg f ->
  frags_moved f v f' v' (dtog f d) (dtogd f d) n a -> free_set f v f' v' d n (0 <? a).
Proof using Hg.
  intros Hd Hn Hm x Hx. pose proof (on_disk_group f d Hg Hd) as Hk.
  destruct (wg_fpg f Hg) as [Hp _]. pose proof (Z.mod_pos_bound d (fs_fpg f) Hp).
  rewrite (frags_moved_free f v f' v' _ _ _ _ x Hg Hm) by (done || unfold dtogd in *; lia).
  by rewrite <- address_split.
Qed.

Lemma frags_ok_inside d n : frags_ok f d n -> dtogd f d + n <= fs_fpg f.
Proof using Hg.
  intros (Hd & Hn & Hin). destruct (wg_fpg f Hg) as [Hp [q Hq]]. pose proof (frag_pos f Hg).
  pose proof (Z.mod_pos_bound d (fs_fpg f) Hp). pose proof (Z.div_mod (dtogd f d) FPB ltac:(lia)).
  unfold dtogd in *. set (b := d mod fs_fpg f / FPB) in *.
  assert (b < q); [|nia]. apply Z.div_lt_upper_bound; nia.
Qed.

Lemma free_block_bounds k b :
  0 <= k < fs_ncg f -> wf_blocks f (v k) -> free_block FPB (v k) b ->
  0 <= b /\ b + FPB <= fs_fpg f /\ forall i, b <= i < b + FPB -> is_free (cg_blksfree (v k)) i = true.
Proof using Hg.
  intros Hk Hw Hb. pose proof (frag_pos f Hg). destruct (free_block_group f Hg (v k) b Hw Hb) as [Hgb He].
  destruct Hgb as [H1 H2]. pose proof (wb_ndblk f _ Hw). split; [lia|]. split; [lia|].
  intros i Hi. apply Hb. apply (block_window f Hg). lia.
Qed.

End Facts.

Lemma fs_inv_taken (f : fs) v k b :
  fs_inv f v -> 0 <= k < fs_ncg f -> free_block (fs_frag f) (v k) b ->
  fs_inv (super_blks f k (-1)) (vupd v k (taken f (v k) b)).
Proof.
  intros [Ha Hf] Hk Hb. pose proof (ai_geo f v Ha) as Hg.
  destruct (alloc_inv_taken f v Ha k Hk b Hb) as [Ha' Hm]. constructor; [done|].
  rewrite (fm_geo _ _ _ _ _ _ _ _ Hm). intros j Hj. unfold vupd.
  destruct (Z.eqb_spec j k) as [->|]; [|by apply Hf].
  destruct (free_block_group f Hg (v k) b (ai_blocks f v Ha k Hk) Hb) as [Hgb He].
  destruct (block_step_rest f (v k) (block_alloc (fs_frag f) (cg_blksfree (v k)) b) b (-1))
    as (E1 & E2 & E3 & _).
  pose proof (taken_range f v Ha k Hk b Hb) as Hr. rewrite He in Hr at 2.
  eapply (wf_frags_block f v Ha k Hk); [by apply Hf|exact Hgb|exact Hr|exact E2|].
  unfold taken. by rewrite E3.
Qed.

Lemma fs_inv_given (f : fs) v k b :
  fs_inv f v -> 0 <= k < fs_ncg f -> group_block f (v k) b -> (k = 0 -> b <> 0) ->
  (forall i, i / fs_frag f = b -> is_free (cg_blksfree (v k)) i = false) ->
  fs_inv (super_blks f k 1) (vupd v k (given f (v k) (b * fs_frag f))) /\
  frags_moved f v (super_blks f k 1) (vupd v k (given f (v k) (b * fs_frag f))) k
    (b * fs_frag f) (fs_frag f) 1.
Proof.
  intros [Ha Hf] Hk Hgb H0 Hu. pose proof (ai_geo f v Ha) as Hg. pose proof (frag_pos f Hg).
  pose proof (given_range f v Ha k Hk b Hgb Hu) as Hr.
  destruct (block_step_rest f (v k) (block_dealloc (fs_frag f) (cg_blksfree (v k)) (b * fs_frag f))
    (b * fs_frag f) 1) as (E1 & E2 & E3 & E4 & E5).
  destruct (adjust_super_geo f (fun s => csum_add_nbfree s 1) k) as (G1 & G2 & _).
  assert (block_avail (fs_frag f) (cg_blksfree (v k)) (b * fs_frag f) = false) as Hav.
  { apply not_true_iff_false. rewrite block_avail_free, Z.div_mul by
      (apply (wg_frag f Hg) || lia || apply (wb_map f _ (ai_blocks f v Ha k Hk))).
    intros Hx. specialize (Hx (b * fs_frag f) ltac:(apply Z.div_mul; lia)).
    by rewrite Hu in Hx by (apply Z.div_mul; lia). }
  split; [constructor|constructor]; try done.
  - by apply alloc_inv_given.
  - unfold super_blks. rewrite G1. intros j Hj. unfold vupd. destruct (Z.eqb_spec j k) as [->|]; [|by apply Hf].
    eapply (wf_frags_block f v Ha k Hk); [by apply Hf|exact Hgb|exact Hr|exact E2|].
    unfold given. by rewrite E3.
  - intros j Hj. by apply vupd_ne.
  - rewrite vupd_eq. apply Hr.
  - rewrite vupd_eq. unfold given. by rewrite E3, E4, E5.
Qed.

(** ** The operations *)

Section Ops.
Context {S : Type} `{CgStoreLaws S}.

(** What a successful operation leaves: the invariant, with the fragments of
    the range, and only those, in their new state. *)
Definition moved (f : fs) (v : Z -> cg) (d n : Z) (free : bool) (s' : S) : Prop :=
  exists f' v', holds s' f' v' /\ fs_inv f' v' /\ fs_geo f' = fs_geo f /\
    free_set f v f' v' d n free.

(** block_allocate on the set of free fragments. *)
Lemma wp_block_allocate_moved (Q : Z -> S -> Prop) s (f : fs) v d :
  holds s f v -> fs_inv f v -> on_disk f d ->
  (disk_full f v -> forall s', holds s' f v -> Q 0 s') ->
  (forall k b r s', chosen f v d k b -> r = b + cgbase f k -> 0 < r -> on_disk f r ->
     r mod fs_frag f = 0 -> all_frags f v r (fs_frag f) true -> moved f v r (fs_frag f) false s' ->
     Q r s') ->
  wp (block_allocate d) Q s.
Proof.
  intros Hh Hi Hd Hnone Hsome. pose proof (ai_geo f v Hi) as Hg.
  eapply wp_block_allocate; [exact Hh|apply Hi|by apply on_disk_group|done|].
  intros k b s' p Hch [Hh' _] _. pose proof Hch as (Hk & Hb & _).
  destruct (free_block_bounds f v Hg k b Hk (ai_blocks f v Hi k Hk) Hb) as (B1 & B2 & B3).
  pose proof (frag_pos f Hg) as HF. destruct (group_join f Hg k b Hk ltac:(lia)) as [J1 J2].
  pose proof (group_bound f Hg k Hk). pose proof (cgbase_eq f Hg k Hk) as Ec.
  assert (u32 (b + cgbase f k) = b + cgbase f k) as ->
    by (apply u32_small; unfold in_u32; zify_pow; lia).
  assert (on_disk f (b + cgbase f k)) as Hr by (unfold on_disk; nia).
  apply (Hsome k b); [done|done| |done|..].
  - destruct (Z.ltb_spec 0 (b + cgbase f k)); [done|exfalso].
    assert (b = 0 /\ k = 0) as [-> ->] by (destruct (wg_fpg f Hg); nia).
    pose proof (ai_boot f v Hi) as Hboot. rewrite B3 in Hboot by lia. done.
  - rewrite <- (dtogd_mod f Hg), J2.
    destruct (free_block_group f Hg (v k) b (ai_blocks f v Hi k Hk) Hb) as [_ ->]. apply Z.mod_mul. lia.
  - intros x Hx. replace x with (x - cgbase f k + cgbase f k) by lia.
    rewrite frag_free_at by (done || lia). apply B3. lia.
  - destruct (alloc_inv_taken f v Hi k Hk b Hb) as [_ Hm].
    eexists _, _. split; [exact Hh'|]. split; [by apply fs_inv_taken|]. split; [apply Hm|].
    change false with (0 <? -1). apply moved_free_set; [done|done|by rewrite J2|by rewrite J1, J2].
Qed.

(** C1: block_allocate returns 0 exactly when no whole block is free anywhere
    on the disk.  Otherwise it returns the address of a block that was
    entirely free: the one nearest to the requested address in that address's
    group, or, when the group has none, one in a group with the most free
    blocks.  That block becomes used, no other fragment changes state, and
    every table and total of the file system stays consistent. *)
Theorem block_allocate_correct s (f : fs) v d :
  holds s f v -> fs_inv f v -> on_disk f d ->
  wp (block_allocate d) (fun r s' =>
    (r = 0 /\ disk_full f v /\ holds s' f v) \/
    (exists k b, chosen f v d k b /\ r = b + cgbase f k /\ 0 < r /\
       on_disk f r /\ all_frags f v r (fs_frag f) true /\
       moved f v r (fs_frag f) false s')) s.
Proof.
  intros Hh Hi Hd. apply (wp_block_allocate_moved _ s f v d Hh Hi Hd).
  - intros Hfull s' Hh'. by left.
  - intros k b r s' Hch Hr Hp Hod Hal Hfr Hm. right. by exists k, b.
Qed.

(** C2: block_deallocate of a block in use makes exactly its fragments free
    and keeps every table and total consistent. *)
Theorem block_deallocate_correct s (f : fs) v d :
  holds s f v -> fs_inv f v -> disk_block f v d -> all_frags f v d (fs_frag f) false ->
  wp (block_deallocate d) (fun _ s' => moved f v d (fs_frag f) true s') s.
Proof.
  intros Hh Hi (Hd & Hd0 & Hal & Hin) Hu. pose proof (ai_geo f v Hi) as Hg.
  pose proof (on_disk_group f d Hg Hd) as Hk. pose proof (frag_pos f Hg) as HF.
  destruct (wg_fpg f Hg) as [Hp _]. pose proof (Z.mod_pos_bound d (fs_fpg f) Hp) as Hdb.
  fold (dtogd f d) in Hdb. set (b := dtogd f d / fs_frag f).
  assert (dtogd f d = b * fs_frag f) as Eb.
  { rewrite <- (dtogd_mod f Hg) in Hal. pose proof (Z.div_mod (dtogd f d) (fs_frag f) ltac:(lia)). lia. }
  pose proof (wb_ndblk f _ (ai_blocks f v Hi _ Hk)) as Hnd.
  assert (group_block f (v (dtog f d)) b) as Hgb by (split; [apply Z.div_pos; lia|lia]).
  eapply wp_block_deallocate; [exact Hh|done|]. intros s' p [Hh' _] _. rewrite Eb in Hh'.
  destruct (fs_inv_given f v (dtog f d) b Hi Hk Hgb) as [Hi' Hm].
  - intros Ek ->. pose proof (group_split f Hg d). nia.
  - intros i Hib. apply (all_frags_group f v Hg d (fs_frag f)); [done|lia|done|].
    apply (block_window f Hg) in Hib. lia.
  - eexists _, _. split; [exact Hh'|]. split; [done|]. split; [apply Hm|].
    change true with (0 <? 1). apply moved_free_set; [done|done|lia|by rewrite Eb].
Qed.

(** C36: frags_allocate of free fragments inside one block always succeeds:
    it returns 0, makes exactly those fragments used, and keeps every table
    and total consistent, also when it has to break up a whole free block. *)
Theorem frags_allocate_correct s (f : fs) v d n :
  holds s f v -> fs_inv f v -> frags_ok f d n -> all_frags f v d n true ->
  wp (frags_allocate d n) (fun r s' => r = 0 /\ moved f v d n false s') s.
Proof.
  intros Hh Hi Hok Hfr. pose proof (ai_geo f v Hi) as Hg. pose proof Hok as (Hd & _).
  pose proof (frags_ok_inside f Hg d n Hok) as Hin.
  eapply (wp_frags_allocate f v); [done|done|by apply all_frags_group| |exact Hh].
  intros s' f' v' Hh' Hi' Hm. split; [done|]. exists f', v'. split; [done|]. split; [done|].
  split; [apply Hm|]. change false with (0 <? -1). by apply moved_free_set.
Qed.

(** C37: frags_deallocate of used fragments inside one block makes exactly
    those fragments free and keeps every table and total consistent, also
    when the block becomes a whole free block. *)
Theorem frags_deallocate_correct s (f : fs) v d n :
  holds s f v -> fs_inv f v -> frags_ok f d n -> all_frags f v d n false ->
  fs_frag f <= d -> dtogd f d + n <= cg_ndblk (v (dtog f d)) ->
  wp (frags_deallocate d n) (fun _ s' => moved f v d n true s') s.
Proof.
  intros Hh Hi Hok Hu Hd0 Hnd. pose proof (ai_geo f v Hi) as Hg. pose proof Hok as (Hd & _).
  pose proof (frags_ok_inside f Hg d n Hok) as Hin.
  eapply (wp_frags_deallocate f v); [done|done|by apply all_frags_group|done| | |exact Hh].
  - intros Ek. pose proof (group_split f Hg d). pose proof (frag_pos f Hg).
    assert (1 <= dtogd f d / fs_frag f); [|lia]. apply Z.div_le_lower_bound; nia.
  - intros s' f' v' Hh' Hi' Hm. exists f', v'. split; [done|]. split; [done|].
    split; [apply Hm|]. change true with (0 <? 1). by apply moved_free_set.
Qed.

(** Fragments allocated and given back: the set of free fragments of the
    whole disk is the one before, and the tables are consistent. *)
Theorem frags_roundtrip s (f : fs) v d n :
  holds s f v -> fs_inv f v -> frags_ok f d n -> all_frags f v d n true -> fs_frag f <= d ->
  wp (r <- frags_allocate d n ;; frags_deallocate d n ;; ret r) (fun r s' =>
    r = 0 /\ exists f' v', holds s' f' v' /\ fs_inv f' v' /\
      forall x, on_disk f x -> frag_free f' v' x = frag_free f v x) s.
Proof.
  intros Hh Hi Hok Hfr Hd0. pose proof (ai_geo f v Hi) as Hg. pose proof Hok as (Hd & Hn & Hfit).
  pose proof (frags_ok_inside f Hg d n Hok) as Hin.
  pose proof (on_disk_group f d Hg Hd) as Hk. destruct (wg_fpg f Hg) as [Hp _].
  pose proof (Z.mod_pos_bound d (fs_fpg f) Hp) as Hdb. fold (dtogd f d) in Hdb.
  assert (dtogd f d + n <= cg_ndblk (v (dtog f d))) as Hnd.
  { destruct (Z.le_gt_cases (dtogd f d + n) (cg_ndblk (v (dtog f d)))) as [|Hgt]; [done|exfalso].
    pose proof (wm_tail _ (wb_map f _ (ai_blocks f v Hi _ Hk)) (dtogd f d + n - 1) ltac:(lia)) as Ht.
    by rewrite (all_frags_group f v Hg d n true Hd Hin Hfr (dtogd f d + n - 1) ltac:(lia)) in Ht. }
  apply wp_bnd. eapply (wp_frags_allocate f v); [done|done|by apply all_frags_group| |exact Hh].
  intros s1 f1 v1 Hh1 Hi1 Hm1. pose proof (fm_geo _ _ _ _ _ _ _ _ Hm1) as E.
  pose proof (moved_free_set f v Hg f1 v1 d n (-1) Hd Hin Hm1) as Hf1.
  assert (frags_ok f1 d n) as Hok1 by (unfold frags_ok, on_disk; rewrite E; exact Hok).
  apply wp_bnd. eapply (wp_frags_deallocate f1 v1); [done|done|rewrite !E|rewrite !E|rewrite !E| |exact Hh1].
  - intros i Hr. rewrite (fm_bits _ _ _ _ _ _ _ _ Hm1).
    by rewrite (proj2 (in_range_spec _ _ _) Hr).
  - by destruct (fm_inodes _ _ _ _ _ _ _ _ Hm1) as (_ & -> & _).
  - intros Ek. pose proof (group_split f Hg d). pose proof (frag_pos f Hg).
    assert (1 <= dtogd f d / fs_frag f); [|lia]. apply Z.div_le_lower_bound; nia.
  - intros s2 f2 v2 Hh2 Hi2 Hm2. apply wp_ret. split; [done|]. exists f2, v2.
    split; [done|]. split; [done|]. intros x Hx.
    pose proof (ai_geo f1 v1 Hi1) as Hg1.
    assert (free_set f1 v1 f2 v2 d n true) as Hf2.
    { change true with (0 <? 1). apply moved_free_set; [done|apply Hok1|by rewrite E|done]. }
    rewrite Hf2 by (unfold on_disk; by rewrite E).
    destruct (in_range d n x) eqn:Ex.
    + symmetry. apply Hfr. by apply in_range_spec.
    + rewrite Hf1 by done. by rewrite Ex.
Qed.

End Ops.

(** ** The searches *)

(** Block_free_find returns the free block of the group nearest to the
    preferred position (rounded down to a block, 0 when past the end), or -1
    exactly when the group has no free block, for every number of fragments
    per block. *)
Theorem block_free_find_correct g c preferred :
  wf_geometry g -> wf_map c -> 0 <= preferred ->
  nearest (fs_frag g) c (near_pref g c preferred) (block_free_find g c preferred).
Proof. intros Hg Hm Hp. by apply block_free_find_nearest. Qed.

(** Block_fragblock_find for n fragments returns the first run of n free
    fragments inside one block at or after the preferred block; if there is
    none, the first such run of the nearest block before it; and -1 exactly
    when no block of the group has such a run. *)
Theorem block_fragblock_find_correct g c preferred n :
  wf_geometry g -> wf_map c -> 0 <= preferred -> 1 <= n <= fs_frag g ->
  time_policy (fs_frag g) c (near_pref g c preferred) n
    (block_fragblock_find OPT_TIME g c preferred n).
Proof. intros Hg Hm Hp Hn. by apply block_fragblock_find_policy. Qed.

(** ** On the sample file system *)

Lemma all_frags_check (f : fs) v d n b :
  forallb (fun x => eqb (frag_free f v x) b) (seqZ d n) = true -> all_frags f v d n b.
Proof. intros H x Hx. apply eqb_prop. by apply (forall_range _ _ _ H). Qed.

Lemma block_allocate_witness :
  wp (block_allocate 10) (fun r s' =>
    (r = 0 /\ disk_full sample_fs sample_view /\ holds s' sample_fs sample_view) \/
    (exists k b, chosen sample_fs sample_view 10 k b /\ r = b + cgbase sample_fs k /\ 0 < r /\
       on_disk sample_fs r /\ all_frags sample_fs sample_view r 8 true /\
       moved sample_fs sample_view r 8 false s')) sample_state.
Proof.
  apply (block_allocate_correct sample_state sample_fs sample_view 10).
  - apply sample_holds.
  - apply sample_inv.
  - by split.
Defined.

Lemma block_deallocate_witness :
  wp (block_deallocate 48) (fun _ s' => moved sample_fs sample_view 48 8 true s') sample_state.
Proof.
  apply (block_deallocate_correct sample_state sample_fs sample_view 48).
  - apply sample_holds.
  - apply sample_inv.
  - by repeat split.
  - apply all_frags_check. vm_compute. reflexivity.
Defined.

Lemma frags_allocate_witness :
  wp (frags_allocate 36 2) (fun r s' => r = 0 /\ moved sample_fs sample_view 36 2 false s')
    sample_state.
Proof.
  apply (frags_allocate_correct sample_state sample_fs sample_view 36 2).
  - apply sample_holds.
  - apply sample_inv.
  - by repeat split.
  - apply all_frags_check. vm_compute. reflexivity.
Defined.

Lemma frags_deallocate_witness :
  wp (frags_deallocate 34 2) (fun _ s' => moved sample_fs sample_view 34 2 true s') sample_state.
Proof.
  apply (frags_deallocate_correct sample_state sample_fs sample_view 34 2).
  - apply sample_holds.
  - apply sample_inv.
  - by repeat split.
  - apply all_frags_check. vm_compute. reflexivity.
  - done.
  - by vm_compute.
Defined.

Lemma frags_roundtrip_witness :
  wp (r <- frags_allocate 41 3 ;; frags_deallocate 41 3 ;; ret r) (fun r s' =>
    r = 0 /\ exists f' v', holds s' f' v' /\ fs_inv f' v' /\
      forall x, on_disk sample_fs x -> frag_free f' v' x = frag_free sample_fs sample_view x)
    sample_state.
Proof.
  apply (frags_roundtrip sample_state sample_fs sample_view 41 3).
  - apply sample_holds.
  - apply sample_inv.
  - by repeat split.
  - apply all_frags_check. vm_compute. reflexivity.
  - done.
Defined.

Lemma sample_map_wf : wf_map sample_cg0.
Proof. by apply map_wf. Qed.

Lemma block_free_find_witness :
  nearest 8 sample_cg0 (near_pref sample_geo sample_cg0 10) 40.
Proof. exact (block_free_find_correct sample_geo sample_cg0 10 sample_geo_wf sample_map_wf ltac:(done)). Defined.

Lemma block_fragblock_find_witness :
  time_policy 8 sample_cg0 (near_pref sample_geo sample_cg0 48) 2 59.
Proof.
  exact (block_fragblock_find_correct sample_geo sample_cg0 48 2 sample_geo_wf sample_map_wf
    ltac:(done) ltac:(done)).
Defined.

(** Ffs_clusteracct restores the cluster tables after a block was
    allocated or freed: the cluster map has the bit of every wholly free
    block and no other, and entry k of the summary counts the maximal runs of
    k free blocks (of k or more for the last entry), whatever runs the block
    joined or split. *)
Theorem ffs_clusteracct_correct g c map b a :
  wf_geometry g -> 0 < fs_contigsumsize g -> cg_nclusterblks c < 2 ^ 31 ->
  0 <= b < cg_nclusterblks c ->
  wf_clusters g (set_blksfree c map) -> block_flipped g map (cg_blksfree c) b a ->
  wf_clusters g (ffs_clusteracct g c (b * fs_frag g) a).
Proof. intros Hg HS Hn Hb Hw Hf. by eapply ffs_clusteracct_wf. Qed.

(** Block 6 of group 1 taken between the two free ones. *)
Lemma ffs_clusteracct_witness :
  let c := set_blksfree sample_cg1 (block_alloc 8 sample_map1 48) in
  wf_clusters sample_geo (ffs_clusteracct sample_geo c 48 (-1)).
Proof.
  apply (ffs_clusteracct_correct sample_geo (set_blksfree sample_cg1 (block_alloc 8 sample_map1 48))
    sample_map1 6 (-1)).
  - apply sample_geo_wf.
  - done.
  - by vm_compute.
  - by vm_compute.
  - change (wf_clusters sample_geo sample_cg1).
    apply (wb_clusters sample_geo sample_cg1); [|done]. by apply (sample_cg_wf 1).
  - apply (block_alloc_flips sample_geo sample_geo_wf sample_cg1 6).
    + by apply map_wf.
    + by split; vm_compute.
    + by vm_compute.
Defined.

Lemma group_layout_witness :
  64 <= 72 < 80 /\ 80 < 88 /\ 88 + 8 <= 96 <= 128.
Proof. exact (group_layout sample_geo sample_geo_wf 1 ltac:(done)). Defined.

Lemma inode_place_witness :
  (88 <= 89 < 96 /\ 0 <= 3 < 8 /\ 75 = 64 * 1 + (89 - 88) * 8 + 3) /\
  forall j, 0 <= j < 128 -> itod sample_geo j + itodo sample_geo j = 89 ->
    itofo sample_geo j = 3 -> j = 75.
Proof. exact (inode_place sample_geo sample_geo_wf 75 ltac:(done)). Defined.
