(* ===== verification/CgCacheTheorems.v ===== *)
(** What the cylinder group cache promises, on the concrete table of
    [cache.c] over a healthy disk with memory to spare. *)

From S2P Require Import Prelude Bitmap Superblock Cg CgSearch CgStore Alloc CgCache.
From S2P Require Import CgCacheSpec Sample.
Local Open Scope bffs_scope.

Section Theorems.
Context {D H : Type} `{StorageLaws D cg} `{ExecLaws H}.
#[local] Abbreviation S := (cgcache D H).

(** C38: cache_cg of a group of the file system returns a buffer that holds
    the current contents of that group.  Whatever it evicts or reorders, and
    whatever it has to write back for that, the contents of no group change,
    and the table stays well formed. *)
Theorem cache_cg_correct (s : S) k :
  cc_ok s -> 0 <= k < fs_ncg (cc_super s) ->
  wp (cc_cache_cg k) (fun r s' => exists p, r = Some p /\
    cg_at s' p = Some (cc_view s k) /\ cc_ok s' /\ cc_super s' = cc_super s /\
    forall j, cc_view s' j = cc_view s j) s.
Proof.
  intros (es & free & Ht) Hk. eapply wp_cc_cache_cg; [exact Ht|done|].
  intros s' es' free' e Ht' [Es Hv] He <- _. exists (e_ptr e). split; [done|].
  rewrite <- Hv, (view_cached s' es' free' Ht' e He).
  split; [by apply (tb_mem _ _ _ Ht')|]. split; [by exists es', free'|]. done.
Qed.

(** Cache_cg_write does the same and marks the group for writing, so
    that what the caller stores in the buffer is the group's contents from
    then on. *)
Theorem cache_cg_write_correct (s : S) k c :
  cc_ok s -> 0 <= k < fs_ncg (cc_super s) -> cg_cgx c = k ->
  wp (r <- cc_cache_cg_write k ;; p <- deref r ;; modify (cgs_store p c)) (fun _ s' =>
    cc_ok s' /\ cc_super s' = cc_super s /\
    forall j, cc_view s' j = if j =? k then c else cc_view s j) s.
Proof.
  intros (es & free & Ht) Hk Hc. apply wp_bnd. eapply wp_cc_cache_cg_write; [exact Ht|done|].
  intros s' es' e (n & Ht') [Es Hv] He Hek Hst _. cbn [deref]. apply wp_bnd, wp_ret, wp_modify.
  apply list_elem_of_split in He as (A & B & ->). assert (cg_cgx c = cg_cgx (e_cg e)) as Hce by congruence.
  pose proof (table_store s' A e B n c Ht' Hst Hce) as Ht2.
  split; [by eexists _, _|]. split; [done|]. intros j. cbn [cgs_store cgcache_store].
  rewrite (view_store s' A e B n c j Ht' Hst Hce), Hv. by rewrite Hc.
Qed.

(** C39: after cache_cg_flush no slot is dirty and the disk holds the current
    contents of every group. *)
Theorem cache_cg_flush_correct (s : S) :
  cc_ok s ->
  wp cache_cg_flush (fun _ s' =>
    cc_ok s' /\ (forall i, zget (cache_cg_state s') i = 0) /\
    (forall j, cc_view s' j = cc_view s j) /\
    forall k, 0 <= k < fs_ncg (cc_super s) ->
      st_peek (cc_disk s') (cgtod (cc_super s) k) = cc_view s k) s.
Proof.
  intros (es & free & Ht). eapply wp_cache_cg_flush; [exact Ht|].
  intros s' n Ht' [Es Hv] _ _. split; [by eexists _, _|]. split.
  - intros i. rewrite (tb_state _ _ _ Ht'). apply (zget_Forall (fun x => x = 0)); [|done].
    unfold slots_state. rewrite Forall_app. split; [|by apply Forall_replicate].
    rewrite <- list_fmap_compose. by apply Forall_fmap, Forall_true.
  - split; [done|]. intros k Hk. rewrite <- Hv.
    destruct (view_content s' (clean <$> es) free k Ht') as [(e & He & Hc & Hek)|[_ Hp]].
    + by rewrite Es.
    + rewrite <- Hc, <- Es, <- Hek, <- Hc. pose proof (tb_entries _ _ _ Ht') as Hf. rewrite Forall_forall in Hf.
      apply (Hf e He). by apply list_elem_of_fmap in He as (x & -> & _).
    + by rewrite <- Es.
Qed.

End Theorems.

(** ** On the sample file system *)

Lemma sample_ok : cc_ok sample_state.
Proof. exists [], 16%nat. apply sample_table. Qed.

Lemma cache_cg_witness :
  wp (cc_cache_cg 1) (fun r s' => exists p, r = Some p /\
    cg_at s' p = Some (cc_view sample_state 1) /\ cc_ok s' /\ cc_super s' = sample_fs /\
    forall j, cc_view s' j = cc_view sample_state j) sample_state.
Proof. apply (cache_cg_correct sample_state 1 sample_ok). by split. Defined.

Lemma cache_cg_write_witness :
  wp (r <- cc_cache_cg_write 0 ;; p <- deref r ;; modify (cgs_store p (set_irotor sample_cg0 7)))
    (fun _ s' => cc_ok s' /\ cc_super s' = sample_fs /\
      forall j, cc_view s' j = if j =? 0 then set_irotor sample_cg0 7 else cc_view sample_state j)
    sample_state.
Proof.
  apply (cache_cg_write_correct sample_state 0 (set_irotor sample_cg0 7) sample_ok); by repeat split.
Defined.

(** A state with a dirty group to flush. *)
Definition sample_dirty : cgcache (Z -> cg) Z :=
  match (r <- cc_cache_cg_write 0 ;; p <- deref r ;; modify (cgs_store p (set_irotor sample_cg0 7)))
    sample_state with
  | Some (_, s) => s
  | None => sample_state
  end.

Lemma sample_dirty_ok : cc_ok sample_dirty.
Proof.
  set (e := Entry 4096 1 (set_irotor sample_cg0 7)).
  exists [e], 15%nat. constructor; try reflexivity.
  - lia.
  - split; [by split|]. by vm_compute.
  - intros x ->%list_elem_of_singleton. reflexivity.
  - apply NoDup_singleton.
  - apply NoDup_singleton.
  - apply Forall_singleton. split; [by split|]. split; [by vm_compute|]. by intros [=].
  - apply sample_geo_wf.
  - intros k Hk. change (0 <= k < 2) in Hk. assert (k = 0 \/ k = 1) as [-> | ->] by lia; reflexivity.
Qed.

Lemma cache_cg_flush_witness :
  wp cache_cg_flush (fun _ s' =>
    cc_ok s' /\ (forall i, zget (cache_cg_state s') i = 0) /\
    (forall j, cc_view s' j = cc_view sample_dirty j) /\
    forall k, 0 <= k < fs_ncg (cc_super sample_dirty) ->
      st_peek (cc_disk s') (cgtod (cc_super sample_dirty) k) = cc_view sample_dirty k) sample_dirty.
Proof. apply (cache_cg_flush_correct sample_dirty sample_dirty_ok). Defined.
