(* ===== verification/FfsSubr.v ===== *)
(** The block and fragment primitives the tools share with BSD:
    [unix_support/ffs_subr.c] and the tables of [unix_support/ffs_tables.c].
    The handler has its own primitives ([Bitmap]); the theorems relate the
    two and show that the table-driven [ffs_fragacct] counts the maximal runs
    [Accounting] counts. *)

From S2P Require Import Prelude Bitmap Runs Accounting.

(** ** ffs_tables.c *)

Definition around : list Z := [0x3; 0x7; 0xf; 0x1f; 0x3f; 0x7f; 0xff; 0x1ff; 0x3ff].
Definition inside : list Z := [0x0; 0x2; 0x6; 0xe; 0x1e; 0x3e; 0x7e; 0xfe; 0x1fe].

Definition fragtbl124 : list Z :=
  [
     0x00; 0x16; 0x16; 0x2a; 0x16; 0x16; 0x26; 0x4e;
     0x16; 0x16; 0x16; 0x3e; 0x2a; 0x3e; 0x4e; 0x8a;
     0x16; 0x16; 0x16; 0x3e; 0x16; 0x16; 0x36; 0x5e;
     0x16; 0x16; 0x16; 0x3e; 0x3e; 0x3e; 0x5e; 0x9e;
     0x16; 0x16; 0x16; 0x3e; 0x16; 0x16; 0x36; 0x5e;
     0x16; 0x16; 0x16; 0x3e; 0x3e; 0x3e; 0x5e; 0x9e;
     0x2a; 0x3e; 0x3e; 0x2a; 0x3e; 0x3e; 0x2e; 0x6e;
     0x3e; 0x3e; 0x3e; 0x3e; 0x2a; 0x3e; 0x6e; 0xaa;
     0x16; 0x16; 0x16; 0x3e; 0x16; 0x16; 0x36; 0x5e;
     0x16; 0x16; 0x16; 0x3e; 0x3e; 0x3e; 0x5e; 0x9e;
     0x16; 0x16; 0x16; 0x3e; 0x16; 0x16; 0x36; 0x5e;
     0x16; 0x16; 0x16; 0x3e; 0x3e; 0x3e; 0x5e; 0x9e;
     0x26; 0x36; 0x36; 0x2e; 0x36; 0x36; 0x26; 0x6e;
     0x36; 0x36; 0x36; 0x3e; 0x2e; 0x3e; 0x6e; 0xae;
     0x4e; 0x5e; 0x5e; 0x6e; 0x5e; 0x5e; 0x6e; 0x4e;
     0x5e; 0x5e; 0x5e; 0x7e; 0x6e; 0x7e; 0x4e; 0xce;
     0x16; 0x16; 0x16; 0x3e; 0x16; 0x16; 0x36; 0x5e;
     0x16; 0x16; 0x16; 0x3e; 0x3e; 0x3e; 0x5e; 0x9e;
     0x16; 0x16; 0x16; 0x3e; 0x16; 0x16; 0x36; 0x5e;
     0x16; 0x16; 0x16; 0x3e; 0x3e; 0x3e; 0x5e; 0x9e;
     0x16; 0x16; 0x16; 0x3e; 0x16; 0x16; 0x36; 0x5e;
     0x16; 0x16; 0x16; 0x3e; 0x3e; 0x3e; 0x5e; 0x9e;
     0x3e; 0x3e; 0x3e; 0x3e; 0x3e; 0x3e; 0x3e; 0x7e;
     0x3e; 0x3e; 0x3e; 0x3e; 0x3e; 0x3e; 0x7e; 0xbe;
     0x2a; 0x3e; 0x3e; 0x2a; 0x3e; 0x3e; 0x2e; 0x6e;
     0x3e; 0x3e; 0x3e; 0x3e; 0x2a; 0x3e; 0x6e; 0xaa;
     0x3e; 0x3e; 0x3e; 0x3e; 0x3e; 0x3e; 0x3e; 0x7e;
     0x3e; 0x3e; 0x3e; 0x3e; 0x3e; 0x3e; 0x7e; 0xbe;
     0x4e; 0x5e; 0x5e; 0x6e; 0x5e; 0x5e; 0x6e; 0x4e;
     0x5e; 0x5e; 0x5e; 0x7e; 0x6e; 0x7e; 0x4e; 0xce;
     0x8a; 0x9e; 0x9e; 0xaa; 0x9e; 0x9e; 0xae; 0xce;
     0x9e; 0x9e; 0x9e; 0xbe; 0xaa; 0xbe; 0xce; 0x8a].

Definition fragtbl8 : list Z :=
  [
     0x00; 0x01; 0x01; 0x02; 0x01; 0x01; 0x02; 0x04;
     0x01; 0x01; 0x01; 0x03; 0x02; 0x03; 0x04; 0x08;
     0x01; 0x01; 0x01; 0x03; 0x01; 0x01; 0x03; 0x05;
     0x02; 0x03; 0x03; 0x02; 0x04; 0x05; 0x08; 0x10;
     0x01; 0x01; 0x01; 0x03; 0x01; 0x01; 0x03; 0x05;
     0x01; 0x01; 0x01; 0x03; 0x03; 0x03; 0x05; 0x09;
     0x02; 0x03; 0x03; 0x02; 0x03; 0x03; 0x02; 0x06;
     0x04; 0x05; 0x05; 0x06; 0x08; 0x09; 0x10; 0x20;
     0x01; 0x01; 0x01; 0x03; 0x01; 0x01; 0x03; 0x05;
     0x01; 0x01; 0x01; 0x03; 0x03; 0x03; 0x05; 0x09;
     0x01; 0x01; 0x01; 0x03; 0x01; 0x01; 0x03; 0x05;
     0x03; 0x03; 0x03; 0x03; 0x05; 0x05; 0x09; 0x11;
     0x02; 0x03; 0x03; 0x02; 0x03; 0x03; 0x02; 0x06;
     0x03; 0x03; 0x03; 0x03; 0x02; 0x03; 0x06; 0x0a;
     0x04; 0x05; 0x05; 0x06; 0x05; 0x05; 0x06; 0x04;
     0x08; 0x09; 0x09; 0x0a; 0x10; 0x11; 0x20; 0x40;
     0x01; 0x01; 0x01; 0x03; 0x01; 0x01; 0x03; 0x05;
     0x01; 0x01; 0x01; 0x03; 0x03; 0x03; 0x05; 0x09;
     0x01; 0x01; 0x01; 0x03; 0x01; 0x01; 0x03; 0x05;
     0x03; 0x03; 0x03; 0x03; 0x05; 0x05; 0x09; 0x11;
     0x01; 0x01; 0x01; 0x03; 0x01; 0x01; 0x03; 0x05;
     0x01; 0x01; 0x01; 0x03; 0x03; 0x03; 0x05; 0x09;
     0x03; 0x03; 0x03; 0x03; 0x03; 0x03; 0x03; 0x07;
     0x05; 0x05; 0x05; 0x07; 0x09; 0x09; 0x11; 0x21;
     0x02; 0x03; 0x03; 0x02; 0x03; 0x03; 0x02; 0x06;
     0x03; 0x03; 0x03; 0x03; 0x02; 0x03; 0x06; 0x0a;
     0x03; 0x03; 0x03; 0x03; 0x03; 0x03; 0x03; 0x07;
     0x02; 0x03; 0x03; 0x02; 0x06; 0x07; 0x0a; 0x12;
     0x04; 0x05; 0x05; 0x06; 0x05; 0x05; 0x06; 0x04;
     0x05; 0x05; 0x05; 0x07; 0x06; 0x07; 0x04; 0x0c;
     0x08; 0x09; 0x09; 0x0a; 0x09; 0x09; 0x0a; 0x0c;
     0x10; 0x11; 0x11; 0x12; 0x20; 0x21; 0x40; 0x80].

#[export] Instance dflt_table : Dflt (list Z) := [].

(** The entries 0, 3, 5, 6 and 7 are null pointers. *)
Definition fragtbl : list (list Z) :=
  [[]; fragtbl124; fragtbl124; []; fragtbl124; []; []; []; fragtbl8].

(** ** ffs_fragacct *)

(** The inner loop over [pos]; each match counts and skips [siz] further
    positions. *)
Fixpoint fragacct_pos (fuel : nat) (fs_frag siz fragmap field subfield pos : Z)
    (fraglist : list Z) (cnt : Z) : list Z :=
  match fuel with
  | O => fraglist
  | S fuel =>
      if pos <=? fs_frag then
        let hit := Z.land fragmap field =? subfield in
        let fraglist := if hit then tally fraglist siz cnt else fraglist in
        let k := if hit then siz else 0 in
        fragacct_pos fuel fs_frag siz fragmap
          (Z.shiftl (Z.shiftl field k) 1) (Z.shiftl (Z.shiftl subfield k) 1)
          (pos + k + 1) fraglist cnt
      else fraglist
  end.

Fixpoint fragacct_siz (fs_frag inblk fragmap : Z) (l : list Z) (fraglist : list Z) (cnt : Z)
    : list Z :=
  match l with
  | [] => fraglist
  | siz :: l' =>
      if Z.land inblk (Z.shiftl 1 (siz + fs_frag mod 8)) =? 0
      then fragacct_siz fs_frag inblk fragmap l' fraglist cnt
      else fragacct_siz fs_frag inblk fragmap l'
             (fragacct_pos 9 fs_frag siz fragmap (zget around siz) (zget inside siz) siz
                fraglist cnt) cnt
  end.

Definition ffs_fragacct (fs_frag fragmap : Z) (fraglist : list Z) (cnt : Z) : list Z :=
  let inblk := Z.shiftl (zget (zget fragtbl fs_frag) fragmap) 1 in
  let fragmap := Z.shiftl fragmap 1 in
  fragacct_siz fs_frag inblk fragmap (upto 1 fs_frag 1) fraglist cnt.

(** ** Block operations; [h] is a block number *)

Definition ffs_isblock (fs_frag : Z) (cp : list Z) (h : Z) : bool :=
  if fs_frag =? 8 then zget cp h =? 0xff
  else if fs_frag =? 4 then
    let mask := u8 (Z.shiftl 0x0f (Z.shiftl (Z.land h 0x1) 2)) in
    Z.land (zget cp (Z.shiftr h 1)) mask =? mask
  else if fs_frag =? 2 then
    let mask := u8 (Z.shiftl 0x03 (Z.shiftl (Z.land h 0x3) 1)) in
    Z.land (zget cp (Z.shiftr h 2)) mask =? mask
  else
    let mask := u8 (Z.shiftl 0x01 (Z.land h 0x7)) in
    Z.land (zget cp (Z.shiftr h 3)) mask =? mask.

Definition ffs_clrblock (fs_frag : Z) (cp : list Z) (h : Z) : list Z :=
  if fs_frag =? 8 then zset cp h 0
  else if fs_frag =? 4 then
    zset cp (Z.shiftr h 1) (u8 (Z.land (zget cp (Z.shiftr h 1))
      (Z.lnot (Z.shiftl 0x0f (Z.shiftl (Z.land h 0x1) 2)))))
  else if fs_frag =? 2 then
    zset cp (Z.shiftr h 2) (u8 (Z.land (zget cp (Z.shiftr h 2))
      (Z.lnot (Z.shiftl 0x03 (Z.shiftl (Z.land h 0x3) 1)))))
  else
    zset cp (Z.shiftr h 3) (u8 (Z.land (zget cp (Z.shiftr h 3))
      (Z.lnot (Z.shiftl 0x01 (Z.land h 0x7))))).

Definition ffs_setblock (fs_frag : Z) (cp : list Z) (h : Z) : list Z :=
  if fs_frag =? 8 then zset cp h 0xff
  else if fs_frag =? 4 then
    zset cp (Z.shiftr h 1) (u8 (Z.lor (zget cp (Z.shiftr h 1))
      (Z.shiftl 0x0f (Z.shiftl (Z.land h 0x1) 2))))
  else if fs_frag =? 2 then
    zset cp (Z.shiftr h 2) (u8 (Z.lor (zget cp (Z.shiftr h 2))
      (Z.shiftl 0x03 (Z.shiftl (Z.land h 0x3) 1))))
  else
    zset cp (Z.shiftr h 3) (u8 (Z.lor (zget cp (Z.shiftr h 3))
      (Z.shiftl 0x01 (Z.land h 0x7)))).

(** ** ffs_fragacct counts runs *)

(** Which positions the inner loop counts. *)
Fixpoint fragacct_hits (fuel : nat) (fs_frag siz fragmap field subfield pos : Z) : Z :=
  match fuel with
  | O => 0
  | S fuel =>
      if pos <=? fs_frag then
        let hit := Z.land fragmap field =? subfield in
        let k := if hit then siz else 0 in
        (if hit then 1 else 0) +
        fragacct_hits fuel fs_frag siz fragmap
          (Z.shiftl (Z.shiftl field k) 1) (Z.shiftl (Z.shiftl subfield k) 1) (pos + k + 1)
      else 0
  end.

Lemma fragacct_pos_get fuel F siz m field sub pos l cnt k X :
  0 <= siz < zlen l -> zget l k = s32 X ->
  let l' := fragacct_pos fuel F siz m field sub pos l cnt in
  zlen l' = zlen l /\
  zget l' k = s32 (X + if siz =? k then cnt * fragacct_hits fuel F siz m field sub pos else 0).
Proof.
  revert field sub pos l X. induction fuel as [|fuel IH]; intros field sub pos l X Hl HX; cbn.
  { split; [done|]. rewrite HX. f_equal. destruct (siz =? k); lia. }
  destruct (pos <=? F).
  2: { split; [done|]. rewrite HX. f_equal. destruct (siz =? k); lia. }
  destruct (Z.land m field =? sub).
  - destruct (IH (Z.shiftl (Z.shiftl field siz) 1) (Z.shiftl (Z.shiftl sub siz) 1)
      (pos + siz + 1) (tally l siz cnt) (X + if siz =? k then cnt else 0)) as [E1 E2];
      [by rewrite zlen_tally|by apply zget_tally|].
    rewrite E1, E2, zlen_tally. split; [done|]. f_equal. destruct (siz =? k); lia.
  - by destruct (IH (Z.shiftl (Z.shiftl field 0) 1) (Z.shiftl (Z.shiftl sub 0) 1) (pos + 0 + 1) l X)
      as [E1 E2].
Qed.

Definition siz_hits (F inblk m siz : Z) : Z :=
  if Z.land inblk (Z.shiftl 1 (siz + F mod 8)) =? 0 then 0
  else fragacct_hits 9 F siz m (zget around siz) (zget inside siz) siz.

Lemma fragacct_siz_get F inblk m l fl cnt k X :
  NoDup l -> (forall s, s ∈ l -> 0 <= s < zlen fl) -> zget fl k = s32 X ->
  let fl' := fragacct_siz F inblk m l fl cnt in
  zlen fl' = zlen fl /\
  zget fl' k = s32 (X + if bool_decide (k ∈ l) then cnt * siz_hits F inblk m k else 0).
Proof.
  revert fl X. induction l as [|s l IH]; intros fl X Hnd Hl HX; cbn [fragacct_siz].
  { split; [done|]. by rewrite HX, bool_decide_eq_false_2, Z.add_0_r by apply not_elem_of_nil. }
  apply NoDup_cons in Hnd as [Hs Hnd].
  assert (forall fl' X', zlen fl' = zlen fl -> zget fl' k = s32 X' ->
    X' = X + (if s =? k then cnt * siz_hits F inblk m s else 0) ->
    zlen (fragacct_siz F inblk m l fl' cnt) = zlen fl /\
    zget (fragacct_siz F inblk m l fl' cnt) k =
      s32 (X + (if bool_decide (k ∈ s :: l) then cnt * siz_hits F inblk m k else 0))) as Hgo.
  { intros fl' X' El EX ->. destruct (IH fl' _ Hnd ltac:(intros x Hx; rewrite El; apply Hl; by right) EX)
      as [E1 E2]. rewrite E1, E2. split; [done|]. f_equal.
    destruct (Z.eqb_spec s k) as [->|Hne].
    - rewrite (bool_decide_eq_false_2 (k ∈ l)) by done.
      rewrite bool_decide_eq_true_2 by by left. lia.
    - rewrite (bool_decide_ext (k ∈ s :: l) (k ∈ l)); [lia|].
      rewrite elem_of_cons. split; [intros [->|]; done|by right]. }
  unfold siz_hits at 1 in Hgo. destruct (Z.land inblk _ =? 0).
  - apply (Hgo fl X); [done|done|destruct (s =? k); lia].
  - destruct (fragacct_pos_get 9 F s m (zget around s) (zget inside s) s fl cnt k X
      ltac:(apply Hl; by left) HX) as [E1 E2]. by apply (Hgo _ _ E1 E2).
Qed.

(** The tables are right: checked for every map of every block size. *)
Definition hits_ok (F map : Z) : bool :=
  let inblk := Z.shiftl (zget (zget fragtbl F) map) 1 in
  forallb (fun k => siz_hits F inblk (Z.shiftl map 1) k =?
                    run_weight (w_fr k) (Z.testbit map) 0 F) (upto 1 F 1).

Lemma all_maps_ok :
  forallb (fun F => forallb (hits_ok F) (seqZ 0 (2 ^ F))) [1; 2; 4; 8] = true.
Proof. vm_compute. reflexivity. Qed.

Lemma hits_runs F map k :
  valid_fpb F -> 0 <= map < 2 ^ F -> 1 <= k < F ->
  siz_hits F (Z.shiftl (zget (zget fragtbl F) map) 1) (Z.shiftl map 1) k =
  run_weight (w_fr k) (Z.testbit map) 0 F.
Proof.
  intros HF Hm Hk. pose proof all_maps_ok as Ha. rewrite forallb_forall in Ha.
  assert (In F [1; 2; 4; 8]) as HIn by (destruct HF as [->|[->|[->| ->]]]; cbn; auto).
  specialize (Ha F HIn). rewrite forallb_forall in Ha.
  specialize (Ha map). rewrite <- list_elem_of_In, elem_of_seqZ in Ha. specialize (Ha ltac:(lia)).
  unfold hits_ok in Ha. rewrite forallb_forall in Ha. specialize (Ha k).
  rewrite <- list_elem_of_In in Ha. apply Z.eqb_eq, Ha. apply elem_of_upto; [lia|].
  exists (k - 1). lia.
Qed.

(** ** The BSD primitives are the handler's *)

Lemma fpb_eight F : valid_fpb F -> 0 < 8 / F /\ 8 / F * F = 8.
Proof. intros HF. by destruct HF as [->|[->|[->| ->]]]. Qed.

(** A block number as byte and place within the byte. *)
Lemma block_split F h :
  valid_fpb F -> exists q r, h = (8 / F) * q + r /\ 0 <= r < 8 / F /\
    h * F = 8 * q + r * F.
Proof.
  intros HF. exists (h / (8 / F)), (h mod (8 / F)).
  destruct (fpb_eight F HF) as [Hp H8]. generalize dependent (8 / F). intros p Hp H8.
  pose proof (Z.div_mod h p ltac:(lia)) as Hd. pose proof (Z.mod_pos_bound h p Hp).
  split; [done|]. split; [done|].
  transitivity ((p * (h / p) + h mod p) * F); [by rewrite <- Hd|]. rewrite <- H8. ring.
Qed.

Lemma shift3_split q x : 0 <= x < 8 -> Z.shiftr (8 * q + x) 3 = q.
Proof. intros Hx. rewrite shiftr3. symmetry. apply (Z.div_unique _ _ _ x); lia. Qed.

Lemma land_split q x m : 0 <= x < 8 -> 0 <= m < 8 -> Z.land (8 * q + x) m = Z.land x m.
Proof.
  intros Hx Hm. rewrite land_low3 by done. f_equal. symmetry. apply (Z.mod_unique _ _ q); lia.
Qed.

Lemma land_pow_split k q r m :
  0 <= k -> 0 <= r < 2 ^ k -> m = 2 ^ k - 1 -> Z.land (2 ^ k * q + r) m = r.
Proof.
  intros Hk Hr ->.
  replace (2 ^ k - 1) with (Z.ones k) by (rewrite Z.ones_equiv; lia). rewrite Z.land_ones by done.
  symmetry. apply (Z.mod_unique _ _ q); lia.
Qed.

Lemma shiftr_pow_split k q r : 0 <= k -> 0 <= r < 2 ^ k -> Z.shiftr (2 ^ k * q + r) k = q.
Proof.
  intros Hk Hr. rewrite Z.shiftr_div_pow2 by done. symmetry. apply (Z.div_unique _ _ _ r); lia.
Qed.

(** Cases on the place within the byte. *)
Ltac place_cases r Hr :=
  first [assert (r = 0) as -> by lia
    | assert (r = 0 \/ r = 1) as [-> | ->] by lia
    | assert (r = 0 \/ r = 1 \/ r = 2 \/ r = 3) as [->|[->|[->| ->]]] by lia
    | assert (r = 0 \/ r = 1 \/ r = 2 \/ r = 3 \/ r = 4 \/ r = 5 \/ r = 6 \/ r = 7)
        as [->|[->|[->|[->|[->|[->|[->| ->]]]]]]] by lia].

(** The byte and the places both sides use. *)
Lemma ffs_index F q r (h := 8 / F * q + r) :
  valid_fpb F -> 0 <= r < 8 / F ->
  Z.shiftr (h * F) 3 = q /\
  (F = 4 -> Z.shiftr h 1 = q /\ Z.land h 1 = r) /\
  (F = 2 -> Z.shiftr h 2 = q /\ Z.land h 3 = r) /\
  (F = 1 -> Z.shiftr h 3 = q /\ Z.land h 7 = r) /\ (F = 8 -> h = q) /\
  forall m, 0 <= m < 8 -> Z.land (h * F) m = Z.land (r * F) m.
Proof.
  intros HF Hr. destruct (fpb_eight F HF) as [Hp H8].
  assert (h * F = 8 * q + r * F) as He by (transitivity (8 / F * F * q + r * F); [unfold h; ring|by rewrite H8]).
  pose proof (valid_fpb_pos F HF).
  assert (r * F < 8 / F * F) by (apply Z.mul_lt_mono_pos_r; lia).
  assert (0 <= r * F < 8) by (split; [apply Z.mul_nonneg_nonneg; lia|lia]).
  split; [rewrite He; by apply shift3_split|].
  split; [|split; [|split; [|split]]].
  - intros ->. unfold h. change (8 / 4) with (2 ^ 1) in *. split; [by apply shiftr_pow_split|by apply land_pow_split].
  - intros ->. unfold h. change (8 / 2) with (2 ^ 2) in *. split; [by apply shiftr_pow_split|by apply land_pow_split].
  - intros ->. unfold h. change (8 / 1) with (2 ^ 3) in *. split; [by apply shiftr_pow_split|by apply land_pow_split].
  - intros ->. unfold h. change (8 / 8) with 1 in *. lia.
  - intros m Hm. rewrite He. by apply land_split.
Qed.

Lemma u8_land_land b m n : u8 (Z.land (u8 (Z.land b m)) n) = u8 (Z.land b (Z.land m n)).
Proof.
  apply byte_eq; [apply byte_u8..|]. intros j Hj.
  rewrite !u8_testbit, !Z.land_spec, u8_testbit, Z.land_spec by done. by rewrite andb_assoc.
Qed.

Lemma u8_lor_lor b m n : u8 (Z.lor (u8 (Z.lor b m)) n) = u8 (Z.lor b (Z.lor m n)).
Proof.
  apply byte_eq; [apply byte_u8..|]. intros j Hj.
  rewrite !u8_testbit, !Z.lor_spec, u8_testbit, Z.lor_spec by done. by rewrite orb_assoc.
Qed.

Lemma u8_land_mask b m n : u8 m = u8 n -> u8 (Z.land b m) = u8 (Z.land b n).
Proof.
  intros Hmn. apply byte_eq; [apply byte_u8..|]. intros j Hj.
  rewrite !u8_testbit, !Z.land_spec by done. f_equal.
  rewrite <- (u8_testbit m), <- (u8_testbit n) by done. by rewrite Hmn.
Qed.

Lemma clrblock_alloc F cp h :
  valid_fpb F -> Forall byte cp -> 0 <= h < 8 / F * zlen cp ->
  ffs_clrblock F cp h = block_alloc F cp (h * F).
Proof.
  intros HF Hb Hh. destruct (block_split F h HF) as (q & r & -> & Hr & _).
  destruct (fpb_eight F HF) as [Hp _].
  assert (0 <= q < zlen cp) as Hq by nia.
  destruct (ffs_index F q r HF Hr) as (I0 & I4 & I2 & I1 & I8 & Im).
  unfold ffs_clrblock, block_alloc. rewrite I0.
  destruct HF as [->|[->|[->| ->]]]; cbn [Z.eqb Pos.eqb].
  - destruct (I1 eq_refl) as [-> ->]. rewrite Im by lia. rewrite Z.mul_1_r.
    change (8 / 1) with 8 in Hr. by place_cases r Hr.
  - destruct (I2 eq_refl) as [-> ->]. rewrite Im by lia. rewrite zset_zset.
    rewrite zget_zset_eq, u8_land_land by done. f_equal. apply u8_land_mask.
    change (8 / 2) with 4 in Hr. by place_cases r Hr.
  - destruct (I4 eq_refl) as [-> ->]. rewrite Im by lia. f_equal. apply u8_land_mask.
    change (8 / 4) with 2 in Hr. by place_cases r Hr.
  - by rewrite (I8 eq_refl).
Qed.

Lemma setblock_dealloc F cp h :
  valid_fpb F -> Forall byte cp -> 0 <= h < 8 / F * zlen cp ->
  ffs_setblock F cp h = block_dealloc F cp (h * F).
Proof.
  intros HF Hb Hh. destruct (block_split F h HF) as (q & r & -> & Hr & _).
  destruct (fpb_eight F HF) as [Hp _].
  assert (0 <= q < zlen cp) as Hq by nia.
  destruct (ffs_index F q r HF Hr) as (I0 & I4 & I2 & I1 & I8 & Im).
  unfold ffs_setblock, block_dealloc. rewrite I0.
  destruct HF as [->|[->|[->| ->]]]; cbn [Z.eqb Pos.eqb].
  - destruct (I1 eq_refl) as [-> ->]. rewrite Im by lia. rewrite Z.mul_1_r.
    change (8 / 1) with 8 in Hr. by place_cases r Hr.
  - destruct (I2 eq_refl) as [-> ->]. rewrite Im by lia. rewrite zset_zset.
    rewrite zget_zset_eq, u8_lor_lor by done. f_equal. f_equal. f_equal.
    change (8 / 2) with 4 in Hr. by place_cases r Hr.
  - destruct (I4 eq_refl) as [-> ->]. rewrite Im by lia. f_equal. f_equal. f_equal.
    change (8 / 4) with 2 in Hr. by place_cases r Hr.
  - by rewrite (I8 eq_refl).
Qed.

Lemma cases8 j : 0 <= j < 8 ->
  j = 0 \/ j = 1 \/ j = 2 \/ j = 3 \/ j = 4 \/ j = 5 \/ j = 6 \/ j = 7.
Proof. lia. Qed.

(** A mask covers the share of one block exactly. *)
Definition mask_ok (F r mask : Z) : bool :=
  (0 <=? mask) && (mask <? 256) &&
  forallb (fun j => Bool.eqb (Z.testbit mask j) (j / F =? r)) (seqZ 0 8).

Lemma mask_block F q r mask b :
  valid_fpb F -> 0 <= r < 8 / F -> mask_ok F r mask = true ->
  (Z.land b mask =? mask) = true <->
  forall j, 0 <= j < 8 -> j / F = ((8 * q + r * F) mod 8) / F -> Z.testbit b j = true.
Proof.
  intros HF Hr Hok. unfold mask_ok in Hok.
  apply andb_true_iff in Hok as [[H1%Z.leb_le H2%Z.ltb_lt]%andb_true_iff Hall].
  rewrite forallb_forall in Hall.
  assert (forall j, 0 <= j < 8 -> Z.testbit mask j = (j / F =? r)) as Hbit.
  { intros j Hj. apply eqb_prop, Hall. rewrite <- list_elem_of_In. apply elem_of_seqZ. lia. }
  assert (((8 * q + r * F) mod 8) / F = r) as ->.
  { pose proof (valid_fpb_pos F HF). destruct (fpb_eight F HF) as [_ H8].
    replace ((8 * q + r * F) mod 8) with (r * F) by (apply (Z.mod_unique _ _ q); nia).
    apply Z.div_mul. lia. }
  rewrite Z.eqb_eq, land_mask_eq by done. split.
  - intros H j Hj Hjr. apply H; [lia|]. by rewrite Hbit, Hjr, Z.eqb_refl.
  - intros H j Hj Hm. destruct (Z.ltb_spec j 8).
    + apply H; [lia|]. rewrite Hbit in Hm by lia. by apply Z.eqb_eq.
    + rewrite byte_testbit_high in Hm; [done|unfold byte; lia|done].
Qed.

Lemma isblock_avail F cp h :
  valid_fpb F -> Forall byte cp -> ffs_isblock F cp h = block_avail F cp (h * F).
Proof.
  intros HF Hb. destruct (block_split F h HF) as (q & r & -> & Hr & He).
  destruct (ffs_index F q r HF Hr) as (I0 & I4 & I2 & I1 & I8 & Im).
  apply eq_true_iff_eq. rewrite block_avail_byte by done. rewrite <- shiftr3, I0, He.
  unfold ffs_isblock. pose proof HF as HF'. destruct HF as [->|[->|[->| ->]]]; cbn [Z.eqb Pos.eqb].
  - destruct (I1 eq_refl) as [-> ->]. apply mask_block; [done|done|].
    change (8 / 1) with 8 in Hr. by place_cases r Hr.
  - destruct (I2 eq_refl) as [-> ->]. apply mask_block; [done|done|].
    change (8 / 2) with 4 in Hr. by place_cases r Hr.
  - destruct (I4 eq_refl) as [-> ->]. apply mask_block; [done|done|].
    change (8 / 4) with 2 in Hr. by place_cases r Hr.
  - rewrite (I8 eq_refl). rewrite Z.eqb_eq, byte_full by (by apply zget_Forall).
    change (8 / 8) with 1 in Hr. assert (r = 0) as -> by lia. split; intros H j Hj; [intros _; by apply H|].
    apply H; [done|]. rewrite Z.div_small by lia. symmetry. apply Z.div_small.
    apply Z.mod_pos_bound. lia.
Qed.

(** ** Theorems *)

(** Ffs_fragacct adds cnt to the entry of each fragment size once for
    every maximal run of that length that is shorter than a block in the map,
    for every map and every block size: the byte tables, which newfs, fsck
    and the dump tools share, agree with counting runs. *)
Theorem ffs_fragacct_runs F map fraglist cnt k :
  valid_fpb F -> 0 <= map < 2 ^ F -> zlen fraglist = 8 -> in_s32 (zget fraglist k) ->
  zget (ffs_fragacct F map fraglist cnt) k =
  s32 (zget fraglist k +
       if (1 <=? k) && (k <? F) then cnt * run_weight (w_fr k) (Z.testbit map) 0 F else 0).
Proof.
  intros HF Hm Hl Hk. pose proof (valid_fpb_pos F HF) as HF8.
  assert (forall x, x ∈ upto 1 F 1 <-> 1 <= x < F) as Hin.
  { intros x. rewrite elem_of_upto by lia. split; [intros (? & ? & -> & ?); lia|].
    intros Hx. exists (x - 1). lia. }
  unfold ffs_fragacct.
  destruct (fragacct_siz_get F (Z.shiftl (zget (zget fragtbl F) map) 1) (Z.shiftl map 1)
    (upto 1 F 1) fraglist cnt k (zget fraglist k)) as [_ ->].
  - apply NoDup_fmap_2; [intros x y ?; lia|apply NoDup_seqZ].
  - intros x Hx%Hin. lia.
  - by rewrite s32_small.
  - f_equal. f_equal. destruct (Z.leb_spec 1 k), (Z.ltb_spec k F); cbn [andb].
    + rewrite bool_decide_eq_true_2 by (apply Hin; lia). by rewrite hits_runs.
    + by rewrite bool_decide_eq_false_2 by (rewrite Hin; lia).
    + by rewrite bool_decide_eq_false_2 by (rewrite Hin; lia).
    + by rewrite bool_decide_eq_false_2 by (rewrite Hin; lia).
Qed.

Lemma ffs_fragacct_witness :
  zget (ffs_fragacct 8 0x6d [0; 5; 0; 0; 0; 0; 0; 0] (-1)) 1 = 4.
Proof.
  rewrite (ffs_fragacct_runs 8 0x6d [0; 5; 0; 0; 0; 0; 0; 0] (-1) 1); [reflexivity|..].
  - by do 3 right.
  - by split.
  - done.
  - by split.
Defined.

(** C40: the block primitives of the tools and of the handler are the same
    functions, for every number of fragments per block: ffs_isblock is
    block_avail, ffs_clrblock is block_alloc and ffs_setblock is
    block_dealloc, with the block number in place of the fragment number. *)
Theorem ffs_block_equiv F map h :
  valid_fpb F -> Forall byte map -> 0 <= h < 8 / F * zlen map ->
  ffs_isblock F map h = block_avail F map (h * F) /\
  ffs_clrblock F map h = block_alloc F map (h * F) /\
  ffs_setblock F map h = block_dealloc F map (h * F).
Proof.
  intros HF Hb Hh. split; [by apply isblock_avail|]. split; [by apply clrblock_alloc|].
  by apply setblock_dealloc.
Qed.

Lemma ffs_block_equiv_witness :
  ffs_isblock 4 [0xf0; 0x0f] 1 = block_avail 4 [0xf0; 0x0f] 4 /\
  ffs_clrblock 4 [0xf0; 0x0f] 1 = block_alloc 4 [0xf0; 0x0f] 4 /\
  ffs_setblock 4 [0xf0; 0x0f] 1 = block_dealloc 4 [0xf0; 0x0f] 4.
Proof.
  apply (ffs_block_equiv 4 [0xf0; 0x0f] 1).
  - by do 2 right; left.
  - by repeat constructor.
  - by split.
Defined.
