(* ===== verification/UnixTime.v ===== *)
(** Time stamps: [unixtime.c].  Unix time is an unsigned 32 bit count of
    seconds from 1970, an AmigaDOS DateStamp counts days from 1978, minutes
    and ticks of one fiftieth of a second. *)

From S2P Require Import Prelude.

Definition TICKS_PER_SECOND : Z := 50.

Record DateStamp := DateStampOf { ds_Days : Z; ds_Minute : Z; ds_Tick : Z }.

Section Offset.
(** The global [GMT], in hours, set from the command line. *)
Context (GMT : Z).

Definition unix_time_to_amiga_ds (timeval : Z) : DateStamp :=
  let timeval := u32 (timeval + s32 (GMT * 3600)) in
  DateStampOf (s32 (timeval / 86400 - 2922)) ((timeval mod 86400) / 60)
    ((timeval mod 60) * TICKS_PER_SECOND).

Definition amiga_ds_to_unix_time (ds : DateStamp) : Z :=
  u32 (2922 * 86400 - s32 (GMT * 3600) + s32 (s32 (ds_Days ds * 24) * 3600)
       + s32 (ds_Minute ds * 60) + Z.quot (ds_Tick ds) 50).

(** [DateStamp] is the system call. *)
Definition unix_time (sys_DateStamp : DateStamp) : Z := amiga_ds_to_unix_time sys_DateStamp.

End Offset.

(** A stamp DateStamp() returns for a time the conversion can hold. *)
Definition valid_stamp (GMT : Z) (ds : DateStamp) : Prop :=
  0 <= ds_Days ds /\ 0 <= ds_Minute ds < 1440 /\ 0 <= ds_Tick ds < 60 * TICKS_PER_SECOND /\
  (ds_Days ds + 2922) * 86400 + 86400 <= 2 ^ 32 /\
  0 <= (ds_Days ds + 2922) * 86400 - GMT * 3600 /\
  (ds_Days ds + 2922) * 86400 + 86400 - GMT * 3600 <= 2 ^ 32.

Lemma u32_plus_u32 x y : u32 (x + u32 y) = u32 (x + y).
Proof. unfold u32. apply Zplus_mod_idemp_r. Qed.

Lemma u32_cong x y : (x - y) mod 2 ^ 32 = 0 -> u32 x = u32 y.
Proof.
  intros H. unfold u32. pose proof (Z.div_mod (x - y) (2 ^ 32) ltac:(done)) as Hd.
  rewrite H in Hd. replace x with (y + ((x - y) / 2 ^ 32) * 2 ^ 32) by lia. by rewrite Z.mod_add.
Qed.

Lemma s32_eqm x : exists k, s32 x = x + k * 2 ^ 32.
Proof.
  exists (- ((x + 2 ^ 31) / 2 ^ 32)). unfold s32.
  rewrite (Z.mod_eq (x + 2 ^ 31)) by done. lia.
Qed.

Lemma u32_eqm x : exists k, u32 x = x + k * 2 ^ 32.
Proof. exists (- (x / 2 ^ 32)). unfold u32. rewrite Z.mod_eq by done. lia. Qed.

(** Sums that differ by multiples of 2^32 are the same unsigned word. *)
Ltac eqm_all :=
  repeat match goal with
  | |- context [s32 ?x] => let k := fresh "k" in let E := fresh "E" in
      destruct (s32_eqm x) as [k E]; rewrite E; clear E
  end.

(** A Unix time converted to a DateStamp and back is unchanged, for
    every 32 bit time and every offset. *)
Theorem unix_time_roundtrip GMT t :
  in_u32 t -> amiga_ds_to_unix_time GMT (unix_time_to_amiga_ds GMT t) = t.
Proof.
  intros Ht. unfold amiga_ds_to_unix_time, unix_time_to_amiga_ds. cbn [ds_Days ds_Minute ds_Tick].
  set (g := s32 (GMT * 3600)). set (v := u32 (t + g)).
  assert (0 <= v < 2 ^ 32) as Hv by apply u32_range.
  unfold TICKS_PER_SECOND. rewrite Z.quot_mul by done.
  rewrite <- (u32_small t) by done. destruct (u32_eqm (t + g)) as [j Ej]. fold v in Ej.
  apply u32_cong. apply Z.mod_divide; [done|].
  assert (v = v / 86400 * 86400 + (v mod 86400) / 60 * 60 + v mod 60) as Hd by dlia.
  revert Hd. generalize (v / 86400) ((v mod 86400) / 60) (v mod 60). intros a b c Hd.
  eqm_all. change (2 ^ 32) with 4294967296 in *.
  exists (86400 * k1 + 3600 * k0 + k + k2 + j). lia.
Qed.

Lemma unix_time_roundtrip_witness :
  amiga_ds_to_unix_time (-8) (unix_time_to_amiga_ds (-8) 4000000000) = 4000000000.
Proof. apply unix_time_roundtrip. split; reflexivity || discriminate. Defined.

(** A DateStamp converted to Unix time and back keeps day and minute and
    loses the ticks below a second. *)
Theorem datestamp_roundtrip GMT ds :
  -24 <= GMT <= 24 -> valid_stamp GMT ds ->
  unix_time_to_amiga_ds GMT (amiga_ds_to_unix_time GMT ds) =
  DateStampOf (ds_Days ds) (ds_Minute ds) (ds_Tick ds / TICKS_PER_SECOND * TICKS_PER_SECOND).
Proof.
  destruct ds as [d m k]. unfold valid_stamp, TICKS_PER_SECOND. cbn [ds_Days ds_Minute ds_Tick].
  intros HG (Hd & Hm & Hk & H1 & H2 & H3).
  unfold unix_time_to_amiga_ds, amiga_ds_to_unix_time, TICKS_PER_SECOND. cbn [ds_Days ds_Minute ds_Tick].
  change (2 ^ 32) with 4294967296 in *.
  rewrite Z.quot_div_nonneg by lia.
  rewrite (s32_small (GMT * 3600)), (s32_small (m * 60)), (s32_small (d * 24))
    by (unfold in_s32; zify_pow; lia).
  set (w := 2922 * 86400 - GMT * 3600 + d * 24 * 3600 + m * 60 + k / 50).
  assert (u32 (2922 * 86400 - GMT * 3600 + s32 (d * 24 * 3600) + m * 60 + k / 50) = w) as ->.
  { rewrite <- (u32_small w) by (unfold in_u32, w; zify_pow; dlia).
    apply u32_cong. destruct (s32_eqm (d * 24 * 3600)) as [j ->]. unfold w.
    replace (2922 * 86400 - GMT * 3600 + (d * 24 * 3600 + j * 2 ^ 32) + m * 60 + k / 50 -
             (2922 * 86400 - GMT * 3600 + d * 24 * 3600 + m * 60 + k / 50)) with (j * 2 ^ 32) by ring.
    by apply Z.mod_mul. }
  assert (w + GMT * 3600 = (d + 2922) * 86400 + m * 60 + k / 50) as -> by (unfold w; ring).
  assert (0 <= k / 50 < 60) as Hs by dlia.
  rewrite u32_small by (unfold in_u32; zify_pow; lia). clear w.
  revert Hs. generalize (k / 50). intros s Hs.
  replace (((d + 2922) * 86400 + m * 60 + s) / 86400) with (d + 2922) by dlia.
  replace (((d + 2922) * 86400 + m * 60 + s) mod 86400) with (m * 60 + s) by dlia.
  replace ((m * 60 + s) / 60) with m by dlia.
  replace (((d + 2922) * 86400 + m * 60 + s) mod 60) with s by dlia.
  rewrite s32_small by (unfold in_s32; zify_pow; lia). f_equal. lia.
Qed.

Lemma datestamp_roundtrip_witness :
  unix_time_to_amiga_ds (-8) (amiga_ds_to_unix_time (-8) (DateStampOf 15000 1439 2999)) =
  DateStampOf 15000 1439 2950.
Proof.
  rewrite (datestamp_roundtrip (-8) (DateStampOf 15000 1439 2999)); [reflexivity|lia|].
  unfold valid_stamp, TICKS_PER_SECOND. cbn [ds_Days ds_Minute ds_Tick]. zify_pow. lia.
Defined.
