(* ===== verification/FragCache.v ===== *)
(** The fragment cache of [cache.c], at the level of its pointers: nodes on
    a doubly linked LRU list (oldest at [cache_stack]) and on doubly linked
    hash chains.  A node address is a [Z]; [None] is NULL, and following it
    is undefined behaviour.  [CACHE_LOCKED] is never set (its two functions
    are compiled out). *)

From S2P Require Import Prelude CgStore.
Local Open Scope bffs_scope.

Definition HASH_SIZE : Z := 16.
Definition CACHE_SIZE_MIN : Z := 8.
Definition CACHE_CLEAN : Z := 0.
Definition CACHE_DIRTY : Z := 1.

(** ** cache_hash *)

Definition cache_hash (blk : Z) : Z :=
  let blk := Z.lxor blk (Z.shiftr blk 16) in
  let blk := Z.lxor blk (Z.shiftr blk 8) in
  let blk := Z.lxor blk (Z.shiftr blk 4) in
  Z.land blk (HASH_SIZE - 1).

(** ** cache_set_t *)

Record node := Node {
  n_blk : Z;                  (* disk frag address of node *)
  n_flags : Z;
  n_buf : Z;                  (* memory buffer address *)
  stack_up : option Z;        (* older cache nodes *)
  stack_down : option Z;      (* newer cache nodes *)
  hash_up : option Z;
  hash_down : option Z;
  n_next : option Z }.

Definition set_blk (v : Z) (n : node) : node :=
  Node v (n_flags n) (n_buf n) (stack_up n) (stack_down n) (hash_up n) (hash_down n) (n_next n).
Definition set_nflags (v : Z) (n : node) : node :=
  Node (n_blk n) v (n_buf n) (stack_up n) (stack_down n) (hash_up n) (hash_down n) (n_next n).
Definition set_stack_up (v : option Z) (n : node) : node :=
  Node (n_blk n) (n_flags n) (n_buf n) v (stack_down n) (hash_up n) (hash_down n) (n_next n).
Definition set_stack_down (v : option Z) (n : node) : node :=
  Node (n_blk n) (n_flags n) (n_buf n) (stack_up n) v (hash_up n) (hash_down n) (n_next n).
Definition set_hash_up (v : option Z) (n : node) : node :=
  Node (n_blk n) (n_flags n) (n_buf n) (stack_up n) (stack_down n) v (hash_down n) (n_next n).
Definition set_hash_down (v : option Z) (n : node) : node :=
  Node (n_blk n) (n_flags n) (n_buf n) (stack_up n) (stack_down n) (hash_up n) v (n_next n).
Definition set_next (v : option Z) (n : node) : node :=
  Node (n_blk n) (n_flags n) (n_buf n) (stack_up n) (stack_down n) (hash_up n) (hash_down n) v.

Record fcache (D H : Type) := FCache {
  fc_nodes : gmap Z node;
  fc_bufs : gmap Z (list Z);          (* FSIZE bytes each *)
  cache_stack : option Z;
  cache_stack_tail : option Z;
  hashtable : list (option Z);
  cache_alloced : Z;
  cache_used : Z;
  cache_item_dirty : Z;
  cache_size : Z;
  fc_disk : D;
  fc_heap : H;
  fc_ronly : Z;                       (* superblock->fs_ronly *)
  fc_receiving : Z }.                 (* receiving_packets *)
Arguments FCache {D H}.
Arguments fc_nodes {D H}.
Arguments fc_bufs {D H}.
Arguments cache_stack {D H}.
Arguments cache_stack_tail {D H}.
Arguments hashtable {D H}.
Arguments cache_alloced {D H}.
Arguments cache_used {D H}.
Arguments cache_item_dirty {D H}.
Arguments cache_size {D H}.
Arguments fc_disk {D H}.
Arguments fc_heap {D H}.
Arguments fc_ronly {D H}.
Arguments fc_receiving {D H}.

Section FragCache.
Context {D H : Type} `{Storage D (list Z)} `{Exec H}.
#[local] Abbreviation S := (fcache D H).

(** ** Fields *)

Definition with_nodes (m : gmap Z node) (s : S) : S :=
  FCache m (fc_bufs s) (cache_stack s) (cache_stack_tail s) (hashtable s) (cache_alloced s)
    (cache_used s) (cache_item_dirty s) (cache_size s) (fc_disk s) (fc_heap s) (fc_ronly s) (fc_receiving s).
Definition with_bufs (m : gmap Z (list Z)) (s : S) : S :=
  FCache (fc_nodes s) m (cache_stack s) (cache_stack_tail s) (hashtable s) (cache_alloced s)
    (cache_used s) (cache_item_dirty s) (cache_size s) (fc_disk s) (fc_heap s) (fc_ronly s) (fc_receiving s).
Definition with_stack (head tail : option Z) (s : S) : S :=
  FCache (fc_nodes s) (fc_bufs s) head tail (hashtable s) (cache_alloced s)
    (cache_used s) (cache_item_dirty s) (cache_size s) (fc_disk s) (fc_heap s) (fc_ronly s) (fc_receiving s).
Definition with_hash (h : list (option Z)) (s : S) : S :=
  FCache (fc_nodes s) (fc_bufs s) (cache_stack s) (cache_stack_tail s) h (cache_alloced s)
    (cache_used s) (cache_item_dirty s) (cache_size s) (fc_disk s) (fc_heap s) (fc_ronly s) (fc_receiving s).
Definition with_counts (alloced used dirty size : Z) (s : S) : S :=
  FCache (fc_nodes s) (fc_bufs s) (cache_stack s) (cache_stack_tail s) (hashtable s) alloced
    used dirty size (fc_disk s) (fc_heap s) (fc_ronly s) (fc_receiving s).
Definition with_disk (d : D) (s : S) : S :=
  FCache (fc_nodes s) (fc_bufs s) (cache_stack s) (cache_stack_tail s) (hashtable s) (cache_alloced s)
    (cache_used s) (cache_item_dirty s) (cache_size s) d (fc_heap s) (fc_ronly s) (fc_receiving s).
Definition with_heap (h : H) (s : S) : S :=
  FCache (fc_nodes s) (fc_bufs s) (cache_stack s) (cache_stack_tail s) (hashtable s) (cache_alloced s)
    (cache_used s) (cache_item_dirty s) (cache_size s) (fc_disk s) h (fc_ronly s) (fc_receiving s).
Definition with_ronly (v : Z) (s : S) : S :=
  FCache (fc_nodes s) (fc_bufs s) (cache_stack s) (cache_stack_tail s) (hashtable s) (cache_alloced s)
    (cache_used s) (cache_item_dirty s) (cache_size s) (fc_disk s) (fc_heap s) v (fc_receiving s).
Definition with_receiving (v : Z) (s : S) : S :=
  FCache (fc_nodes s) (fc_bufs s) (cache_stack s) (cache_stack_tail s) (hashtable s) (cache_alloced s)
    (cache_used s) (cache_item_dirty s) (cache_size s) (fc_disk s) (fc_heap s) (fc_ronly s) v.

Definition set_used (v : Z) (s : S) : S :=
  with_counts (cache_alloced s) v (cache_item_dirty s) (cache_size s) s.
Definition set_dirty (v : Z) (s : S) : S :=
  with_counts (cache_alloced s) (cache_used s) v (cache_size s) s.
Definition set_alloced (v : Z) (s : S) : S :=
  with_counts v (cache_used s) (cache_item_dirty s) (cache_size s) s.
Definition set_csize (v : Z) (s : S) : S :=
  with_counts (cache_alloced s) (cache_used s) (cache_item_dirty s) v s.

(** [*node], and an assignment to a field of [*node]. *)
Definition load (p : Z) : M S node := o <- gets (fun s => fc_nodes s !! p) ;; deref o.
Definition upd (p : Z) (f : node -> node) : M S unit :=
  n <- load p ;; modify (fun s => with_nodes (<[p := f n]> (fc_nodes s)) s).

(** data_read and data_write of one fragment: 0 on success. *)
Definition frag_data_read (buf blk : Z) : M S Z := fun s =>
  match st_read blk (fc_disk s) with
  | (Some v, d) => Some (0, with_bufs (<[buf := v]> (fc_bufs s)) (with_disk d s))
  | (None, d) => Some (1, with_disk d s)
  end.
Definition frag_data_write (buf blk : Z) : M S Z := fun s =>
  if negb (fc_ronly s =? 0) then Some (1, s)
  else match fc_bufs s !! buf with
       | None => None
       | Some v => let r := st_write blk v (fc_disk s) in
                   Some (if r.1 then 0 else 1, with_disk r.2 s)
       end.

(** ** Lists *)

Definition cache_add (node : Z) : M S unit :=
  tail <- gets cache_stack_tail ;;
  upd node (set_stack_up tail) ;;
  upd node (set_stack_down None) ;;
  (match tail with
   | None => modify (fun s => with_stack (Some node) (cache_stack_tail s) s)
   | Some t => upd t (set_stack_down (Some node))
   end) ;;
  modify (fun s => with_stack (cache_stack s) (Some node) s) ;;
  n <- load node ;;
  let index := cache_hash (n_blk n) in
  first <- gets (fun s => zget (hashtable s) index) ;;
  (match first with
   | Some h => upd h (set_hash_up (Some node))
   | None => ret tt
   end) ;;
  upd node (set_hash_up None) ;;
  upd node (set_hash_down first) ;;
  modify (fun s => with_hash (zset (hashtable s) index (Some node)) s) ;;
  if n_blk n =? 0 then ret tt else modify (fun s => set_used (cache_used s + 1) s).

Definition cache_remove (node : Z) : M S unit :=
  n <- load node ;;
  (match stack_up n with
   | None => modify (fun s => with_stack (stack_down n) (cache_stack_tail s) s)
   | Some u => upd u (set_stack_down (stack_down n))
   end) ;;
  (match stack_down n with
   | None => modify (fun s => with_stack (cache_stack s) (stack_up n) s)
   | Some d => upd d (set_stack_up (stack_up n))
   end) ;;
  (match hash_up n with
   | None => modify (fun s => with_hash (zset (hashtable s) (cache_hash (n_blk n)) (hash_down n)) s)
   | Some u => upd u (set_hash_down (hash_down n))
   end) ;;
  (match hash_down n with
   | None => ret tt
   | Some d => upd d (set_hash_up (hash_up n))
   end) ;;
  if n_blk n =? 0 then ret tt else modify (fun s => set_used (cache_used s - 1) s).

Definition cache_refresh (node : Z) : M S unit :=
  tail <- gets cache_stack_tail ;;
  if bool_decide (tail = Some node) then ret tt
  else
    n <- load node ;;
    (match stack_up n with
     | None => modify (fun s => with_stack (stack_down n) (cache_stack_tail s) s)
     | Some u => upd u (set_stack_down (stack_down n))
     end) ;;
    d <- deref (stack_down n) ;;
    upd d (set_stack_up (stack_up n)) ;;
    tail <- gets cache_stack_tail ;;
    upd node (set_stack_up tail) ;;
    upd node (set_stack_down None) ;;
    t <- deref tail ;;
    upd t (set_stack_down (Some node)) ;;
    modify (fun s => with_stack (cache_stack s) (Some node) s).

(** ** cache_node: the chain of one bucket, [fuel] nodes at most *)

Fixpoint chain_find (fuel : nat) (temp : option Z) (blk : Z) : M S (option Z) :=
  match fuel, temp with
  | _, None => ret None
  | O, Some _ => undef
  | Datatypes.S fuel, Some p =>
      n <- load p ;;
      if n_blk n =? blk then ret (Some p) else chain_find fuel (hash_down n) blk
  end.

(** A chain has no more links than there are nodes. *)
Definition chain_fuel (s : S) : nat := Datatypes.S (size (fc_nodes s)).

Definition cache_node (blk : Z) : M S (option Z) :=
  fuel <- gets chain_fuel ;;
  temp <- gets (fun s => zget (hashtable s) (cache_hash blk)) ;;
  chain_find fuel temp blk.

(** ** cache_insert, into the list of nodes to flush linked by [next] *)

Fixpoint insert_walk (fuel : nat) (parent : Z) (current : option Z) (blk : Z)
    : M S (Z * option Z) :=
  match fuel, current with
  | _, None => ret (parent, None)
  | O, Some _ => undef
  | Datatypes.S fuel, Some c =>
      n <- load c ;;
      if blk <=? n_blk n then ret (parent, Some c)
      else insert_walk fuel c (n_next n) blk
  end.

(** The new value of [*head]. *)
Definition cache_insert (head : option Z) (node : Z) : M S (option Z) :=
  n <- load node ;;
  match head with
  | None => upd node (set_next None) ;; ret (Some node)
  | Some parent =>
      pn <- load parent ;;
      if n_blk n <=? n_blk pn then
        upd node (set_next (Some parent)) ;; ret (Some node)
      else
        fuel <- gets chain_fuel ;;
        r <- insert_walk fuel parent (n_next pn) (n_blk n) ;;
        upd node (set_next r.2) ;;
        upd r.1 (set_next (Some node)) ;;
        ret head
  end.

(** ** cache_flush *)

(** Collecting the dirty nodes of the stack into the sorted list. *)
Fixpoint flush_collect (fuel : nat) (temp head : option Z) (flushed : Z)
    : M S (option Z * Z) :=
  match fuel, temp with
  | _, None => ret (head, flushed)
  | O, Some _ => undef
  | Datatypes.S fuel, Some p =>
      n <- load p ;;
      if Z.land (n_flags n) CACHE_DIRTY =? 0 then flush_collect fuel (stack_down n) head flushed
      else if n_blk n =? 0 then
        modify (with_receiving 0) ;; flush_collect fuel (stack_down n) head flushed
      else
        head <- cache_insert head p ;;
        n <- load p ;;
        flush_collect fuel (stack_down n) head (flushed + 1)
  end.

Fixpoint flush_write (fuel : nat) (head : option Z) : M S unit :=
  match fuel, head with
  | _, None => ret tt
  | O, Some _ => undef
  | Datatypes.S fuel, Some p =>
      upd p (set_nflags CACHE_CLEAN) ;;
      n <- load p ;;
      frag_data_write (n_buf n) (n_blk n) ;;
      flush_write fuel (n_next n)
  end.

(** The value of an early return is not set by the code; it is 0 here. *)
Definition cache_flush : M S Z :=
  dirty <- gets cache_item_dirty ;;
  if dirty =? 0 then ret 0
  else
    fuel <- gets chain_fuel ;;
    temp <- gets cache_stack ;;
    r <- flush_collect fuel temp None 0 ;;
    dirty <- gets cache_item_dirty ;;
    (if negb (dirty =? r.2) then modify (with_receiving 0) else ret tt) ;;
    flush_write fuel r.1 ;;
    modify (set_dirty 0) ;;
    ret r.2.

(** ** cache_cycle_dirty *)

(** Refreshing the head until it is clean; [node] is the head the loop
    started from, at which it gives up. *)
Fixpoint cycle_loop (fuel : nat) (node : option Z) : M S unit :=
  head <- gets cache_stack ;;
  h <- deref head ;;
  n <- load h ;;
  if n_flags n =? CACHE_CLEAN then ret tt
  else
    match fuel with
    | O => undef
    | Datatypes.S fuel =>
        cache_refresh h ;;
        head <- gets cache_stack ;;
        if bool_decide (head = node) then ret tt else cycle_loop fuel node
    end.

(** The code at [do_cache_flush].  When it is reached by the goto, [node] is
    not initialised; no node is dirty after the flush, so the loop that
    compares with it ends at its first test. *)
Definition cycle_flush (node : option Z) : M S unit :=
  cache_flush ;;
  fuel <- gets chain_fuel ;;
  cycle_loop fuel node ;;
  head <- gets cache_stack ;;
  h <- deref head ;;
  n <- load h ;;
  if n_flags n =? CACHE_CLEAN then ret tt else modify (with_receiving 0).

Definition cache_cycle_dirty : M S unit :=
  head <- gets cache_stack ;;
  match head with
  | None => ret tt
  | Some _ =>
      dirty <- gets cache_item_dirty ;;
      csize <- gets cache_size ;;
      if Z.shiftr (csize * 3) 2 <? dirty then cycle_flush None
      else
        fuel <- gets chain_fuel ;;
        cycle_loop fuel head ;;
        h <- gets cache_stack ;;
        h <- deref h ;;
        n <- load h ;;
        if n_flags n =? CACHE_CLEAN then ret tt else cycle_flush head
  end.

(** ** cache_getnode *)

Definition cache_getnode (blk : Z) : M S (option Z) :=
  head <- gets cache_stack ;;
  match head with
  | None => ret None
  | Some p =>
      n <- load p ;;
      (if n_flags n =? CACHE_CLEAN then ret tt else cache_cycle_dirty) ;;
      head <- gets cache_stack ;;
      p <- deref head ;;
      n <- load p ;;
      if negb (Z.land (n_flags n) CACHE_DIRTY =? 0) then ret None
      else
        cache_remove p ;;
        upd p (set_blk blk) ;;
        upd p (set_nflags CACHE_CLEAN) ;;
        ret (Some p)
  end.

(** ** The operations other files call; a buffer address, or NULL *)

Definition cache_frag (blk : Z) : M S (option Z) :=
  hit <- cache_node blk ;;
  match hit with
  | Some p => cache_refresh p ;; n <- load p ;; ret (Some (n_buf n))
  | None =>
      got <- cache_getnode blk ;;
      p <- deref got ;;
      n <- load p ;;
      r <- frag_data_read (n_buf n) (n_blk n) ;;
      if negb (r =? 0) then ret None
      else cache_add p ;; ret (Some (n_buf n))
  end.

Definition cache_available (blk : Z) : M S (option Z) :=
  hit <- cache_node blk ;;
  match hit with
  | Some p => cache_refresh p ;; n <- load p ;; ret (Some (n_buf n))
  | None => ret None
  end.

(** Marking a node dirty. *)
Definition make_dirty (p : Z) : M S unit :=
  n <- load p ;;
  if Z.land (n_flags n) CACHE_DIRTY =? 0 then
    upd p (fun n => set_nflags (Z.lor (n_flags n) CACHE_DIRTY) n) ;;
    modify (fun s => set_dirty (cache_item_dirty s + 1) s)
  else ret tt.

Definition cache_frag_write (blk readflag : Z) : M S (option Z) :=
  hit <- cache_node blk ;;
  match hit with
  | Some p => cache_refresh p ;; make_dirty p ;; n <- load p ;; ret (Some (n_buf n))
  | None =>
      got <- cache_getnode blk ;;
      p <- deref got ;;
      n <- load p ;;
      r <- (if readflag =? 0 then ret 0 else frag_data_read (n_buf n) (n_blk n)) ;;
      if negb (r =? 0) then ret None
      else cache_add p ;; make_dirty p ;; ret (Some (n_buf n))
  end.

Definition cache_invalidate (blk : Z) : M S unit :=
  hit <- cache_node blk ;;
  match hit with
  | None => ret tt
  | Some p =>
      cache_remove p ;;
      upd p (set_blk 0) ;;
      n <- load p ;;
      (if negb (n_flags n =? CACHE_CLEAN) then
         (if negb (Z.land (n_flags n) CACHE_DIRTY =? 0)
          then modify (fun s => set_dirty (cache_item_dirty s - 1) s) else ret tt) ;;
         upd p (set_nflags CACHE_CLEAN)
       else ret tt) ;;
      cache_add p
  end.

Fixpoint invalidate_loop (fuel : nat) (node : option Z) : M S unit :=
  match fuel, node with
  | _, None => ret tt
  | O, Some _ => undef
  | Datatypes.S fuel, Some p =>
      upd p (set_nflags CACHE_CLEAN) ;;
      upd p (set_blk 0) ;;
      n <- load p ;;
      invalidate_loop fuel (stack_down n)
  end.

Definition cache_full_invalidate : M S unit :=
  fuel <- gets chain_fuel ;;
  head <- gets cache_stack ;;
  invalidate_loop fuel head ;;
  modify (set_dirty 0).

Definition cache_frag_move (to_blk from_blk : Z) : M S unit :=
  hit <- cache_node from_blk ;;
  got <- (match hit with
          | Some p => cache_remove p ;; ret (Some p)
          | None =>
              got <- cache_getnode from_blk ;;
              match got with
              | None => modify (with_ronly 1) ;; ret None
              | Some p =>
                  n <- load p ;;
                  frag_data_read (n_buf n) (n_blk n) ;;
                  ret (Some p)
              end
          end) ;;
  match got with
  | None => ret tt
  | Some p =>
      upd p (set_blk to_blk) ;;
      n <- load p ;;
      (if Z.land (n_flags n) CACHE_DIRTY =? 0 then
         upd p (set_nflags CACHE_DIRTY) ;;
         modify (fun s => set_dirty (cache_item_dirty s + 1) s)
       else ret tt) ;;
      cache_add p
  end.

(** ** Allocation *)

(** The bytes new memory happens to hold. *)
Context (stale : list Z).

Definition cache_alloc : M S (option Z) :=
  a <- gets (fun s => AllocMem (fc_heap s)) ;;
  modify (with_heap a.2) ;;
  match a.1 with
  | None => ret None
  | Some p =>
      b <- gets (fun s => AllocMem (fc_heap s)) ;;
      modify (with_heap b.2) ;;
      match b.1 with
      | None => modify (fun s => with_heap (FreeMem p (fc_heap s)) s) ;; ret None
      | Some buf =>
          modify (fun s => with_nodes
            (<[p := Node 0 CACHE_CLEAN buf None None None None None]> (fc_nodes s)) s) ;;
          modify (fun s => with_bufs (<[buf := stale]> (fc_bufs s)) s) ;;
          modify (fun s => set_alloced (cache_alloced s + 1) s) ;;
          ret (Some p)
      end
  end.

Definition cache_free (p : Z) : M S unit :=
  modify (fun s => set_alloced (cache_alloced s - 1) s) ;;
  n <- load p ;;
  modify (fun s => with_heap (FreeMem p (FreeMem (n_buf n) (fc_heap s)))
    (with_nodes (delete p (fc_nodes s)) (with_bufs (delete (n_buf n) (fc_bufs s)) s))).

(** The first loop of cache_adjust, [fuel] allocations at most; [tries] as in
    the code.  The result is [true] when the function returns there. *)
Fixpoint adjust_grow (fuel : nat) (tries : Z) : M S bool :=
  alloced <- gets cache_alloced ;;
  csize <- gets cache_size ;;
  if alloced <? csize then
    match fuel with
    | O => undef
    | Datatypes.S fuel =>
        got <- cache_alloc ;;
        match got with
        | Some p => cache_add p ;; adjust_grow fuel 0
        | None =>
            alloced <- gets cache_alloced ;;
            if alloced <=? CACHE_SIZE_MIN then
              if tries + 1 <? 2 then adjust_grow fuel (tries + 1)
              else
                (if alloced =? 0 then modify (with_receiving 0) else ret tt) ;;
                modify (with_ronly 1) ;;
                ret true
            else ret false
        end
    end
  else ret false.

(** Rotating the stack to a clean head; all dirty, everything is flushed. *)
Fixpoint shrink_rotate (fuel : nat) (node : option Z) : M S unit :=
  head <- gets cache_stack ;;
  h <- deref head ;;
  n <- load h ;;
  if n_flags n =? CACHE_CLEAN then ret tt
  else
    match fuel with
    | O => undef
    | Datatypes.S fuel =>
        cache_refresh h ;;
        head <- gets cache_stack ;;
        if bool_decide (head = node) then cache_flush ;; ret tt else shrink_rotate fuel node
    end.

Fixpoint adjust_shrink (fuel : nat) : M S unit :=
  alloced <- gets cache_alloced ;;
  csize <- gets cache_size ;;
  if csize <? alloced then
    match fuel with
    | O => undef
    | Datatypes.S fuel =>
        node <- gets cache_stack ;;
        match node with
        | None => ret tt
        | Some _ =>
            cfuel <- gets chain_fuel ;;
            shrink_rotate cfuel node ;;
            node <- gets cache_stack ;;
            match node with
            | None => ret tt
            | Some p => cache_remove p ;; cache_free p ;; adjust_shrink fuel
            end
        end
    end
  else ret tt.

Definition cache_adjust : M S unit :=
  modify (fun s => if cache_size s <? CACHE_SIZE_MIN then set_csize CACHE_SIZE_MIN s else s) ;;
  grow <- gets (fun s => Z.to_nat (2 * (cache_size s - cache_alloced s) + 2)) ;;
  stop <- adjust_grow grow 0 ;;
  if stop then ret tt
  else
    shrink <- gets (fun s => Z.to_nat (cache_alloced s - cache_size s)) ;;
    adjust_shrink shrink.

(** [de_NumBuffers] is the number of buffers of the mount entry. *)
Definition open_cache (de_NumBuffers : Z) : M S unit :=
  modify (fun s => with_hash (replicate (Z.to_nat HASH_SIZE) None) s) ;;
  modify (with_stack None None) ;;
  modify (with_counts 0 0 0 (if de_NumBuffers <? CACHE_SIZE_MIN then CACHE_SIZE_MIN
                             else de_NumBuffers)) ;;
  cache_adjust.

Fixpoint close_loop (fuel : nat) : M S unit :=
  head <- gets cache_stack ;;
  match fuel, head with
  | _, None => ret tt
  | O, Some _ => undef
  | Datatypes.S fuel, Some p =>
      n <- load p ;;
      cache_free p ;;
      modify (fun s => with_stack (stack_down n) (cache_stack_tail s) s) ;;
      close_loop fuel
  end.

Definition close_cache : M S unit :=
  fuel <- gets chain_fuel ;;
  close_loop fuel ;;
  modify (fun s => with_hash (replicate (Z.to_nat HASH_SIZE) None) s) ;;
  modify (fun s => with_stack (cache_stack s) None (set_used 0 (set_dirty 0 s))).

End FragCache.
