(* ===== verification/Chain.v ===== *)
(** Doubly linked lists: the links [up] and [down] of nodes as functions of
    their addresses, and the list of nodes they thread.  The LRU stack and the
    hash chains of [cache.c] are both such lists, over different fields of the
    same nodes. *)

From S2P Require Import Prelude.

(** An assignment to a link. *)
Definition fupd {A} (f : Z -> A) (x : Z) (v : A) : Z -> A := fun y => if y =? x then v else f y.

Lemma fupd_eq {A} (f : Z -> A) x v : fupd f x v x = v.
Proof. unfold fupd. by rewrite Z.eqb_refl. Qed.
Lemma fupd_ne {A} (f : Z -> A) x v y : y <> x -> fupd f x v y = f y.
Proof. intros H. unfold fupd. by destruct (Z.eqb_spec y x). Qed.

(** Every node points to its neighbours. *)
Definition dll (up down : Z -> option Z) (l : list Z) : Prop :=
  forall l1 x l2, l = l1 ++ x :: l2 -> up x = last l1 /\ down x = head l2.

Lemma dll_nil up down : dll up down [].
Proof. intros l1 x l2 E. by destruct l1. Qed.

Lemma dll_ext up down up' down' l :
  (forall x, x ∈ l -> up' x = up x /\ down' x = down x) -> dll up down l -> dll up' down' l.
Proof.
  intros Hx Hd l1 x l2 ->. destruct (Hx x) as [-> ->]; [set_solver|]. by apply Hd.
Qed.

Lemma last_snoc_is {A} (l : list A) x y : last (l ++ [x]) = Some y -> y = x.
Proof. rewrite last_snoc. congruence. Qed.

Lemma NoDup_last_ne {A} (l1 : list A) x l2 y : NoDup (l1 ++ x :: l2) -> last l1 = Some y -> y <> x /\ y ∉ l2.
Proof.
  intros Hn Hl. apply last_Some in Hl as [l' ->]. rewrite <- app_assoc in Hn. cbn in Hn.
  apply NoDup_app in Hn as (_ & _ & Hn). apply NoDup_cons in Hn as [Hn _]. set_solver.
Qed.

Lemma NoDup_head_ne {A} (l1 : list A) x l2 y : NoDup (l1 ++ x :: l2) -> head l2 = Some y -> y <> x /\ y ∉ l1.
Proof.
  intros Hn Hl. destruct l2 as [|z l2]; [done|]. injection Hl as ->.
  apply NoDup_app in Hn as (_ & Hd & Hn). apply NoDup_cons in Hn as [Hn _].
  split; [set_solver|]. intros Hy. apply (Hd y Hy). set_solver.
Qed.

Lemma last_app_cons {A} (l1 l2 : list A) x : last (l1 ++ x :: l2) = last (x :: l2).
Proof.
  destruct (exists_last (l := x :: l2)) as (k & y & ->); [done|]. by rewrite app_assoc, !last_snoc.
Qed.

(** Unlinking a node. *)
Lemma dll_unlink up down up' down' l1 x l2 :
  NoDup (l1 ++ x :: l2) -> dll up down (l1 ++ x :: l2) ->
  (forall y, y ∈ l1 ++ l2 -> up' y = if bool_decide (head l2 = Some y) then last l1 else up y) ->
  (forall y, y ∈ l1 ++ l2 -> down' y = if bool_decide (last l1 = Some y) then head l2 else down y) ->
  dll up' down' (l1 ++ l2).
Proof.
  intros Hn Hd Hu Hw m1 y m2 E.
  rewrite Hu, Hw by (rewrite E; set_solver). clear Hu Hw.
  assert (NoDup (l1 ++ l2)) as Hn'.
  { apply NoDup_app in Hn as (A & B & C). apply NoDup_cons in C as [_ C]. apply NoDup_app.
    split; [done|]. split; [|done]. intros z Hz Hz2. apply (B z Hz). set_solver. }
  apply app_eq_inv in E as [(k & -> & E)|(k & -> & E)].
  - (* the node is among [l1], or first of [l2] *)
    destruct k as [|z k].
    + cbn in E. subst l2. rewrite app_nil_r in *. destruct (Hd (m1 ++ [x]) y m2) as [E1 E2].
      { by rewrite <- app_assoc. }
      rewrite bool_decide_eq_true_2 by done.
      rewrite bool_decide_eq_false_2; [done|]. intros E. apply last_Some in E as [l' ->].
      apply NoDup_app in Hn' as (_ & B & _). apply (B y); set_solver.
    + injection E as -> ->. destruct (Hd m1 z (k ++ x :: l2)) as [E1 E2]; [by rewrite <- app_assoc|].
      rewrite bool_decide_eq_false_2.
      2: { intros E. apply (NoDup_head_ne _ _ _ _ Hn) in E as [_ E]. set_solver. }
      split; [done|]. destruct k as [|w k].
      * rewrite bool_decide_eq_true_2 by by rewrite last_snoc. done.
      * rewrite bool_decide_eq_false_2; [done|]. rewrite last_app_cons. intros E.
        change (last (w :: k) = Some z) in E. apply last_Some_elem_of in E.
        rewrite <- app_assoc in Hn'. apply NoDup_app in Hn' as (_ & _ & Hn').
        cbn in Hn'. apply NoDup_cons in Hn' as [Hn' _]. set_solver.
  - subst. destruct (Hd (l1 ++ x :: k) y m2) as [E1 E2]; [by rewrite <- app_assoc|].
    rewrite (bool_decide_eq_false_2 (last l1 = Some y)).
    2: { intros E. apply (NoDup_last_ne _ _ _ _ Hn) in E as [_ E]. set_solver. }
    split; [|done]. destruct k as [|w k].
    + rewrite bool_decide_eq_true_2 by done. by rewrite app_nil_r.
    + rewrite bool_decide_eq_false_2.
      * rewrite E1, !last_app_cons. destruct k; done.
      * intros [= ->]. apply NoDup_app in Hn' as (_ & _ & Hn'). cbn in Hn'.
        apply NoDup_cons in Hn' as [Hn' _]. set_solver.
Qed.

(** Linking a node at the end, or at the front. *)
Lemma dll_snoc up down up' down' l x :
  x ∉ l -> dll up down l ->
  (forall y, y ∈ l -> up' y = up y) ->
  (forall y, y ∈ l -> down' y = if bool_decide (last l = Some y) then Some x else down y) ->
  up' x = last l -> down' x = None -> NoDup l -> dll up' down' (l ++ [x]).
Proof.
  intros Hx Hd Hu Hw Ux Dx Hn l1 y l2 E. destruct l2 as [|z l2 _] using rev_ind.
  - apply app_inj_tail in E as [-> ->]. done.
  - rewrite app_comm_cons, app_assoc in E. apply app_inj_tail in E as [-> ->].
    rewrite Hu, Hw by set_solver. destruct (Hd l1 y l2 eq_refl) as [-> ->]. split; [done|].
    destruct l2 as [|w l2].
    + by rewrite bool_decide_eq_true_2 by by rewrite last_snoc.
    + rewrite bool_decide_eq_false_2; [done|]. rewrite last_app_cons. intros E.
      change (last (w :: l2) = Some y) in E. apply last_Some_elem_of in E.
      rewrite NoDup_app, NoDup_cons in Hn. destruct Hn as (_ & _ & Hn & _). set_solver.
Qed.

Lemma dll_cons up down up' down' l x :
  x ∉ l -> dll up down l ->
  (forall y, y ∈ l -> down' y = down y) ->
  (forall y, y ∈ l -> up' y = if bool_decide (head l = Some y) then Some x else up y) ->
  down' x = head l -> up' x = None -> NoDup l -> dll up' down' (x :: l).
Proof.
  intros Hx Hd Hw Hu Dx Ux Hn l1 y l2 E. destruct l1 as [|z l1].
  - injection E as -> ->. done.
  - injection E as -> ->. rewrite Hu, Hw by set_solver. destruct (Hd l1 y l2 eq_refl) as [-> ->]. split; [|done].
    destruct l1 as [|w l1].
    + by rewrite bool_decide_eq_true_2 by done.
    + rewrite bool_decide_eq_false_2; [done|]. intros [= ->].
      cbn in Hn. rewrite NoDup_cons in Hn. destruct Hn as [Hn _]. set_solver.
Qed.

(** The first and the last node. *)
Lemma dll_head up down x l : dll up down (x :: l) -> up x = None /\ down x = head l.
Proof. intros Hd. by apply (Hd []). Qed.

Lemma dll_at up down l1 x l2 : dll up down (l1 ++ x :: l2) -> up x = last l1 /\ down x = head l2.
Proof. intros Hd. by apply Hd. Qed.
