(* ===== verification/FragList.v ===== *)
(** The fragment cache as a list: the nodes in the order of the LRU stack,
    oldest first, each with its fragment, flags and buffer.  Every list
    operation of [cache.c] is an operation on this list; the links of the
    stack and of the hash chains stay consistent. *)

From S2P Require Import Prelude CgStore FragCache Chain.
Local Open Scope bffs_scope.

(** ** Nodes as their contents and their links *)

Record stat := Stat { t_blk : Z; t_flags : Z; t_buf : Z }.

Record links := Links {
  l_su : Z -> option Z;
  l_sd : Z -> option Z;
  l_hu : Z -> option Z;
  l_hd : Z -> option Z;
  l_nx : Z -> option Z }.

Definition node_of (x : stat) (L : links) (q : Z) : node :=
  Node (t_blk x) (t_flags x) (t_buf x) (l_su L q) (l_sd L q) (l_hu L q) (l_hd L q) (l_nx L q).

Definition nodes_are (m : gmap Z node) (T : Z -> option stat) (L : links) : Prop :=
  forall q, m !! q = (fun x => node_of x L q) <$> T q.

Definition lk_su p v (L : links) := Links (fupd (l_su L) p v) (l_sd L) (l_hu L) (l_hd L) (l_nx L).
Definition lk_sd p v (L : links) := Links (l_su L) (fupd (l_sd L) p v) (l_hu L) (l_hd L) (l_nx L).
Definition lk_hu p v (L : links) := Links (l_su L) (l_sd L) (fupd (l_hu L) p v) (l_hd L) (l_nx L).
Definition lk_hd p v (L : links) := Links (l_su L) (l_sd L) (l_hu L) (fupd (l_hd L) p v) (l_nx L).
Definition lk_nx p v (L : links) := Links (l_su L) (l_sd L) (l_hu L) (l_hd L) (fupd (l_nx L) p v).

(** ** Entries *)

Record entry := Entry { e_node : Z; e_blk : Z; e_flags : Z; e_buf : Z }.

Definition e_stat (e : entry) : stat := Stat (e_blk e) (e_flags e) (e_buf e).
Definition entry_of (p : Z) (x : stat) : entry := Entry p (t_blk x) (t_flags x) (t_buf x).
Definition e_dirty (e : entry) : bool := negb (Z.land (e_flags e) CACHE_DIRTY =? 0).
Definition used_count (l : list entry) : Z := zlen (filter (fun e => e_blk e <> 0) l).

#[export] Instance entry_eq_dec : EqDecision entry.
Proof. solve_decision. Defined.

Lemma cache_hash_range blk : 0 <= cache_hash blk < 16.
Proof.
  unfold cache_hash, HASH_SIZE. change (16 - 1) with (Z.ones 4). rewrite Z.land_ones by lia.
  apply Z.mod_pos_bound. lia.
Qed.

Section List.
Context {D H : Type} {ST : Storage D (list Z)} {EX : Exec H}.
#[local] Abbreviation S := (fcache D H).

(** The links of the hash chains [ch], one for each value of the hash. *)
Record chains (hu hd : Z -> option Z) (tbl : list (option Z)) (ch : Z -> list Z) (l : list entry) : Prop := {
  cn_len : zlen tbl = HASH_SIZE;
  cn_tbl : forall b, 0 <= b < 16 -> zget tbl b = head (ch b) /\ NoDup (ch b) /\ dll hu hd (ch b);
  cn_in : forall b p, 0 <= b < 16 -> p ∈ ch b <->
    exists e, e ∈ l /\ e_node e = p /\ cache_hash (e_blk e) = b }.

(** The links of the stack. *)
Record stacked (su sd : Z -> option Z) (first final : option Z) (l : list entry) : Prop := {
  sk_nodup : NoDup (e_node <$> l);
  sk_head : first = head (e_node <$> l);
  sk_tail : final = last (e_node <$> l);
  sk_dll : dll su sd (e_node <$> l) }.

(** The links thread the entries [l] and, by hash value, the chains [ch]. *)
Record shape (T : Z -> option stat) (L : links) (ch : Z -> list Z) (l : list entry) (s : S) : Prop := {
  sh_nodes : nodes_are (fc_nodes s) T L;
  sh_stat : forall e, e ∈ l -> T (e_node e) = Some (e_stat e);
  sh_stack : stacked (l_su L) (l_sd L) (cache_stack s) (cache_stack_tail s) l;
  sh_chains : chains (l_hu L) (l_hd L) (hashtable s) ch l;
  sh_used : cache_used s = used_count l }.

(** [T] also gives the contents of nodes that are in no list for the moment. *)
Definition listed (T : Z -> option stat) (l : list entry) (s : S) : Prop :=
  exists L ch, shape T L ch l s.

(** What the list operations leave alone. *)
Definition core (s : S) :=
  (fc_bufs s, cache_alloced s, cache_item_dirty s, cache_size s, fc_disk s, fc_heap s, fc_ronly s, fc_receiving s).

(** ** Reading and assigning fields *)

Lemma wp_fc_load (Q : node -> S -> Prop) p s T L x :
  nodes_are (fc_nodes s) T L -> T p = Some x -> Q (node_of x L p) s -> wp (load p) Q s.
Proof.
  intros Hm Hx HQ. unfold load. apply wp_bnd, wp_gets. rewrite (Hm p), Hx. exact HQ.
Qed.

Lemma wp_upd (Q : unit -> S -> Prop) p f s T L x :
  nodes_are (fc_nodes s) T L -> T p = Some x ->
  Q tt (with_nodes (<[p := f (node_of x L p)]> (fc_nodes s)) s) -> wp (upd p f) Q s.
Proof. intros Hm Hx HQ. unfold upd. apply wp_bnd. by eapply wp_fc_load. Qed.

Lemma nodes_put m T L p x x' L' :
  nodes_are m T L -> T p = Some x -> (forall q, q <> p -> node_of x L q = node_of x L' q) ->
  nodes_are (<[p := node_of x' L' p]> m) (fupd T p (Some x')) L'.
Proof.
  intros Hm Hx HL q. destruct (Z.eqb_spec q p) as [->|Hne].
  - by rewrite lookup_insert_eq, fupd_eq.
  - rewrite lookup_insert_ne, fupd_ne by done. rewrite Hm. destruct (T q) as [y|]; [|done]. cbn. f_equal.
    specialize (HL q Hne). unfold node_of in *. congruence.
Qed.

Lemma nodes_same m T T' L : nodes_are m T' L -> (forall q, T q = T' q) -> nodes_are m T L.
Proof. intros Hm HT q. by rewrite HT. Qed.

Lemma fupd_same {A} (f : Z -> A) p v : f p = v -> forall q, f q = fupd f p v q.
Proof. intros E q. unfold fupd. by destruct (Z.eqb_spec q p) as [->|]. Qed.

(** ** Links *)

Lemma wp_link (Q : unit -> S -> Prop) p f s T L L' :
  nodes_are (fc_nodes s) T L -> is_Some (T p) ->
  (forall x, f (node_of x L p) = node_of x L' p) ->
  (forall x q, q <> p -> node_of x L q = node_of x L' q) ->
  (forall m, nodes_are m T L' -> Q tt (with_nodes m s)) -> wp (upd p f) Q s.
Proof.
  intros Hm [x Hx] Hf Ho HQ. eapply wp_upd; [done|done|]. apply HQ. rewrite Hf.
  eapply nodes_same; [|by apply (fupd_same T p (Some x))]. eapply nodes_put; [done|done|]. intros q Hq. by apply Ho.
Qed.

Ltac links_differ := intros; unfold node_of; cbn; rewrite ?fupd_eq, ?fupd_ne by done; reflexivity.

Lemma wp_su (Q : unit -> S -> Prop) p v s T L :
  nodes_are (fc_nodes s) T L -> is_Some (T p) ->
  (forall m, nodes_are m T (lk_su p v L) -> Q tt (with_nodes m s)) -> wp (upd p (set_stack_up v)) Q s.
Proof. intros Hm Hx HQ. apply (wp_link Q p _ s T L (lk_su p v L) Hm Hx); [links_differ|links_differ|exact HQ]. Qed.
Lemma wp_sd (Q : unit -> S -> Prop) p v s T L :
  nodes_are (fc_nodes s) T L -> is_Some (T p) ->
  (forall m, nodes_are m T (lk_sd p v L) -> Q tt (with_nodes m s)) -> wp (upd p (set_stack_down v)) Q s.
Proof. intros Hm Hx HQ. apply (wp_link Q p _ s T L (lk_sd p v L) Hm Hx); [links_differ|links_differ|exact HQ]. Qed.
Lemma wp_hu (Q : unit -> S -> Prop) p v s T L :
  nodes_are (fc_nodes s) T L -> is_Some (T p) ->
  (forall m, nodes_are m T (lk_hu p v L) -> Q tt (with_nodes m s)) -> wp (upd p (set_hash_up v)) Q s.
Proof. intros Hm Hx HQ. apply (wp_link Q p _ s T L (lk_hu p v L) Hm Hx); [links_differ|links_differ|exact HQ]. Qed.
Lemma wp_hd (Q : unit -> S -> Prop) p v s T L :
  nodes_are (fc_nodes s) T L -> is_Some (T p) ->
  (forall m, nodes_are m T (lk_hd p v L) -> Q tt (with_nodes m s)) -> wp (upd p (set_hash_down v)) Q s.
Proof. intros Hm Hx HQ. apply (wp_link Q p _ s T L (lk_hd p v L) Hm Hx); [links_differ|links_differ|exact HQ]. Qed.
Lemma wp_nx (Q : unit -> S -> Prop) p v s T L :
  nodes_are (fc_nodes s) T L -> is_Some (T p) ->
  (forall m, nodes_are m T (lk_nx p v L) -> Q tt (with_nodes m s)) -> wp (upd p (set_next v)) Q s.
Proof. intros Hm Hx HQ. apply (wp_link Q p _ s T L (lk_nx p v L) Hm Hx); [links_differ|links_differ|exact HQ]. Qed.

(** An assignment to the neighbour when there is one, to the end of the list
    otherwise. *)
Definition opt_lk (f : Z -> option Z -> links -> links) (o v : option Z) (L : links) : links :=
  match o with Some t => f t v L | None => L end.

(** The links after such an assignment. *)
Definition ofupd (f : Z -> option Z) (o v : option Z) : Z -> option Z :=
  match o with Some t => fupd f t v | None => f end.

Lemma ofupd_at f o v y : ofupd f o v y = if bool_decide (o = Some y) then v else f y.
Proof.
  unfold ofupd, fupd. destruct o as [t|]; [|done].
  destruct (Z.eqb_spec y t); case_bool_decide; congruence.
Qed.

Lemma opt_sd_links o v L :
  opt_lk lk_sd o v L = Links (l_su L) (ofupd (l_sd L) o v) (l_hu L) (l_hd L) (l_nx L).
Proof. by destruct o, L. Qed.
Lemma opt_su_links o v L :
  opt_lk lk_su o v L = Links (ofupd (l_su L) o v) (l_sd L) (l_hu L) (l_hd L) (l_nx L).
Proof. by destruct o, L. Qed.
Lemma opt_hu_links o v L :
  opt_lk lk_hu o v L = Links (l_su L) (l_sd L) (ofupd (l_hu L) o v) (l_hd L) (l_nx L).
Proof. by destruct o, L. Qed.
Lemma opt_hd_links o v L :
  opt_lk lk_hd o v L = Links (l_su L) (l_sd L) (l_hu L) (ofupd (l_hd L) o v) (l_nx L).
Proof. by destruct o, L. Qed.

Lemma wp_stack_head (Q : unit -> S -> Prop) o v s T L :
  nodes_are (fc_nodes s) T L -> (forall t, o = Some t -> is_Some (T t)) ->
  (forall m, nodes_are m T (opt_lk lk_sd o v L) ->
     Q tt (with_stack (match o with None => v | Some _ => cache_stack s end) (cache_stack_tail s) (with_nodes m s))) ->
  wp (match o with
      | None => modify (fun s => with_stack v (cache_stack_tail s) s)
      | Some u => upd u (set_stack_down v)
      end) Q s.
Proof.
  intros Hm Ho HQ. destruct o as [u|].
  - eapply wp_sd; [done|by apply Ho|]. intros m Hm'. exact (HQ m Hm').
  - apply wp_modify. specialize (HQ _ Hm). by destruct s.
Qed.

Lemma wp_stack_tail (Q : unit -> S -> Prop) o v s T L :
  nodes_are (fc_nodes s) T L -> (forall t, o = Some t -> is_Some (T t)) ->
  (forall m, nodes_are m T (opt_lk lk_su o v L) ->
     Q tt (with_stack (cache_stack s) (match o with None => v | Some _ => cache_stack_tail s end) (with_nodes m s))) ->
  wp (match o with
      | None => modify (fun s => with_stack (cache_stack s) v s)
      | Some d => upd d (set_stack_up v)
      end) Q s.
Proof.
  intros Hm Ho HQ. destruct o as [u|].
  - eapply wp_su; [done|by apply Ho|]. intros m Hm'. exact (HQ m Hm').
  - apply wp_modify. specialize (HQ _ Hm). by destruct s.
Qed.

Lemma wp_hash_head (Q : unit -> S -> Prop) o i v s T L :
  nodes_are (fc_nodes s) T L -> (forall t, o = Some t -> is_Some (T t)) ->
  (forall m, nodes_are m T (opt_lk lk_hd o v L) ->
     Q tt (with_hash (match o with None => zset (hashtable s) i v | Some _ => hashtable s end) (with_nodes m s))) ->
  wp (match o with
      | None => modify (fun s => with_hash (zset (hashtable s) i v) s)
      | Some u => upd u (set_hash_down v)
      end) Q s.
Proof.
  intros Hm Ho HQ. destruct o as [u|].
  - eapply wp_hd; [done|by apply Ho|]. intros m Hm'. exact (HQ m Hm').
  - apply wp_modify. specialize (HQ _ Hm). by destruct s.
Qed.

Lemma wp_hash_up (Q : unit -> S -> Prop) o v s T L :
  nodes_are (fc_nodes s) T L -> (forall t, o = Some t -> is_Some (T t)) ->
  (forall m, nodes_are m T (opt_lk lk_hu o v L) -> Q tt (with_nodes m s)) ->
  wp (match o with Some d => upd d (set_hash_up v) | None => ret tt end) Q s.
Proof.
  intros Hm Ho HQ. destruct o as [u|].
  - eapply wp_hu; [done|by apply Ho|]. intros m Hm'. exact (HQ m Hm').
  - apply wp_ret. specialize (HQ _ Hm). by destruct s.
Qed.

Lemma wp_used (Q : unit -> S -> Prop) blk (g : Z -> Z) s :
  Q tt (set_used (if blk =? 0 then cache_used s else g (cache_used s)) s) ->
  wp (if blk =? 0 then ret tt else modify (fun s => set_used (g (cache_used s)) s)) Q s.
Proof. destruct (blk =? 0); [|done]. destruct s. done. Qed.

(** ** Facts about shapes *)

Lemma shape_node T L ch l s p : shape T L ch l s -> p ∈ e_node <$> l -> is_Some (T p).
Proof.
  intros Hs Hp. apply list_elem_of_fmap in Hp as (e & -> & He). by rewrite (sh_stat _ _ _ _ _ Hs e He).
Qed.

Lemma nodup_same_node (l : list entry) e1 e2 :
  NoDup (e_node <$> l) -> e1 ∈ l -> e2 ∈ l -> e_node e1 = e_node e2 -> e1 = e2.
Proof.
  intros Hn H1 H2 E. apply list_elem_of_lookup in H1 as [i1 H1]. apply list_elem_of_lookup in H2 as [i2 H2].
  assert (i1 = i2) as ->; [|congruence].
  eapply NoDup_lookup; [exact Hn|rewrite list_lookup_fmap, H1; done|rewrite list_lookup_fmap, H2; cbn; congruence].
Qed.

Lemma chain_listed hu hd tbl ch l b p :
  chains hu hd tbl ch l -> 0 <= b < 16 -> p ∈ ch b -> p ∈ e_node <$> l.
Proof.
  intros Hc Hb Hp. apply (cn_in _ _ _ _ _ Hc b p Hb) in Hp as (e & He & <- & _). by apply list_elem_of_fmap_2.
Qed.

Lemma chain_apart hu hd tbl ch l b b' p :
  chains hu hd tbl ch l -> NoDup (e_node <$> l) ->
  0 <= b < 16 -> 0 <= b' < 16 -> p ∈ ch b -> p ∈ ch b' -> b = b'.
Proof.
  intros Hc Hn Hb Hb' H1 H2. apply (cn_in _ _ _ _ _ Hc b p Hb) in H1 as (e1 & H1 & E1 & <-).
  apply (cn_in _ _ _ _ _ Hc b' p Hb') in H2 as (e2 & H2 & E2 & <-).
  f_equal. f_equal. eapply nodup_same_node; [exact Hn|done|done|congruence].
Qed.

Lemma chain_has hu hd tbl ch l e :
  chains hu hd tbl ch l -> e ∈ l -> e_node e ∈ ch (cache_hash (e_blk e)).
Proof. intros Hc He. apply (cn_in _ _ _ _ _ Hc); [apply cache_hash_range|by exists e]. Qed.

End List.
