(* ===== verification/FragOps.v ===== *)
(** The list operations of [cache.c] on the list of entries: [cache_add]
    appends, [cache_remove] deletes, [cache_refresh] moves to the end,
    [cache_node] finds. *)

From S2P Require Import Prelude CgStore FragCache Chain FragList.
Local Open Scope bffs_scope.

Section Ops.
Context {D H : Type} {ST : Storage D (list Z)} {EX : Exec H}.
#[local] Abbreviation S := (fcache D H).

(** Links after a sequence of assignments. *)
Ltac links := rewrite ?opt_sd_links, ?opt_su_links, ?opt_hu_links, ?opt_hd_links; cbn.
Ltac link_at :=
  intros; repeat (rewrite ofupd_at || rewrite fupd_eq || rewrite fupd_ne by congruence); try done.

Lemma used_count_app l k : used_count (l ++ k) = used_count l + used_count k.
Proof. unfold used_count, zlen. rewrite filter_app, length_app. lia. Qed.

Lemma used_count_one e : used_count [e] = if e_blk e =? 0 then 0 else 1.
Proof.
  unfold used_count. rewrite filter_cons, filter_nil. destruct (Z.eqb_spec (e_blk e) 0); case_decide; done.
Qed.

Lemma used_count_cons e l : used_count (e :: l) = (if e_blk e =? 0 then 0 else 1) + used_count l.
Proof. rewrite <- used_count_one. apply (used_count_app [e]). Qed.

(** ** cache_add *)

Lemma stacked_add su sd first final l e :
  stacked su sd first final l -> e_node e ∉ e_node <$> l ->
  stacked (fupd su (e_node e) final) (ofupd (fupd sd (e_node e) None) final (Some (e_node e)))
    (match final with None => Some (e_node e) | Some _ => first end) (Some (e_node e)) (l ++ [e]).
Proof.
  intros [Hn -> -> Hd] Hp. constructor; rewrite fmap_app; cbn.
  - apply NoDup_app. split; [done|]. split; [set_solver|apply NoDup_singleton].
  - destruct (last (e_node <$> l)) eqn:E; [by destruct (e_node <$> l)|]. apply last_None in E. by rewrite E.
  - by rewrite last_snoc.
  - eapply (dll_snoc _ _ _ _ _ _ Hp Hd); [link_at|link_at|link_at| |done].
    rewrite ofupd_at, fupd_eq, bool_decide_eq_false_2; [done|]. by intros E%last_Some_elem_of.
Qed.

Lemma chains_add hu hd tbl ch l e :
  chains hu hd tbl ch l -> NoDup (e_node <$> l) -> e_node e ∉ e_node <$> l ->
  let i := cache_hash (e_blk e) in
  chains (fupd (ofupd hu (head (ch i)) (Some (e_node e))) (e_node e) None) (fupd hd (e_node e) (head (ch i)))
    (zset tbl i (Some (e_node e))) (fun b => if b =? i then e_node e :: ch b else ch b) (l ++ [e]).
Proof.
  intros Hc Hn Hp i. pose proof (cache_hash_range (e_blk e)) as Hi. fold i in Hi. constructor.
  - rewrite zlen_zset. apply Hc.
  - intros b Hb. destruct (cn_tbl _ _ _ _ _ Hc b Hb) as (B1 & B2 & B3).
    rewrite zget_zset by (rewrite (cn_len _ _ _ _ _ Hc); unfold HASH_SIZE; lia).
    rewrite (Z.eqb_sym i b). destruct (Z.eqb_spec b i) as [->|Hne].
    + assert (e_node e ∉ ch i) as Hpc by (intros Hpc; by apply Hp, (chain_listed _ _ _ _ _ i _ Hc Hi)).
      split; [done|]. split; [by constructor|]. apply (dll_cons _ _ _ _ _ _ Hpc B3); [link_at| | |link_at|done].
      * intros y Hy. assert (y <> e_node e) by congruence. by link_at.
      * by rewrite fupd_eq.
    + split; [done|]. split; [done|]. eapply dll_ext; [|exact B3]. intros y Hy.
      assert (y <> e_node e) by (intros ->; by apply Hp, (chain_listed _ _ _ _ _ b _ Hc Hb)).
      link_at. rewrite bool_decide_eq_false_2; [done|].
      intros E%head_Some_elem_of. by apply Hne, (chain_apart _ _ _ _ _ b i y Hc).
  - intros b q Hb. pose proof (cn_in _ _ _ _ _ Hc b q Hb) as Hin.
    assert (q ∈ (if b =? i then e_node e :: ch b else ch b) <-> q ∈ ch b \/ (q = e_node e /\ b = i)) as ->.
    { destruct (Z.eqb_spec b i) as [->|]; [rewrite elem_of_cons|]; naive_solver. }
    rewrite Hin. setoid_rewrite elem_of_app. setoid_rewrite list_elem_of_singleton. split.
    + intros [(e' & He & E)|[-> ->]]; [exists e'; tauto|exists e; tauto].
    + intros (e' & [He| ->] & E1 & E2); [left; by exists e'|right; by subst].
Qed.

Lemma wp_cache_add (Q : unit -> S -> Prop) T l s p x :
  listed T l s -> T p = Some x -> p ∉ e_node <$> l ->
  (forall s', listed T (l ++ [entry_of p x]) s' -> core s' = core s -> Q tt s') -> wp (cache_add p) Q s.
Proof.
  intros (L & ch & Hs) Hx Hp HQ. pose proof Hs as [Hm Hst Hsk Hc Hus].
  assert (is_Some (T p)) as Hsome by by rewrite Hx.
  assert (forall t, cache_stack_tail s = Some t -> is_Some (T t)) as Hlast.
  { intros t Ht. rewrite (sk_tail _ _ _ _ _ Hsk) in Ht. apply (shape_node _ _ _ _ _ _ Hs). by apply last_Some_elem_of. }
  set (i := cache_hash (t_blk x)). pose proof (cache_hash_range (t_blk x)) as Hi.
  destruct (cn_tbl _ _ _ _ _ Hc i Hi) as (Hfirst & _).
  assert (forall t, head (ch i) = Some t -> is_Some (T t)) as Hh.
  { intros t Ht%head_Some_elem_of. by apply (shape_node _ _ _ _ _ _ Hs), (chain_listed _ _ _ _ _ i _ Hc Hi). }
  unfold cache_add. apply wp_bnd, wp_gets, wp_bnd.
  eapply wp_su; [done|done|]. intros m1 H1. apply wp_bnd.
  eapply wp_sd; [done|done|]. intros m2 H2. apply wp_bnd.
  eapply wp_stack_head; [exact H2|exact Hlast|]. intros m3 H3.
  apply wp_bnd, wp_modify, wp_bnd. eapply wp_fc_load; [exact H3|done|].
  apply wp_bnd, wp_gets. cbv zeta. cbn [n_blk node_of hashtable with_stack with_nodes]. fold i. rewrite Hfirst.
  apply wp_bnd. eapply wp_hash_up; [exact H3|exact Hh|]. intros m4 H4.
  apply wp_bnd. eapply wp_hu; [exact H4|done|]. intros m5 H5.
  apply wp_bnd. eapply wp_hd; [exact H5|done|]. intros m6 H6.
  apply wp_bnd, wp_modify, (wp_used _ _ (fun u => u + 1)), HQ; [|done].
  eexists _, _. constructor; [exact H6| | | |].
  - intros e He. apply elem_of_app in He as [He|He%list_elem_of_singleton]; [by apply Hst|]. subst e.
    cbn. rewrite Hx. by destruct x.
  - links. by apply (stacked_add _ _ _ _ _ (entry_of p x)).
  - links. apply (chains_add _ _ _ _ _ (entry_of p x) Hc); [apply Hsk|done].
  - rewrite used_count_app, used_count_one, <- Hus. cbn. destruct (t_blk x =? 0); lia.
Qed.

(** ** cache_remove *)

Lemma stacked_del su sd first final l1 e l2 :
  stacked su sd first final (l1 ++ e :: l2) ->
  su (e_node e) = last (e_node <$> l1) /\ sd (e_node e) = head (e_node <$> l2) /\
  stacked (ofupd su (sd (e_node e)) (su (e_node e))) (ofupd sd (su (e_node e)) (sd (e_node e)))
    (match su (e_node e) with None => sd (e_node e) | Some _ => first end)
    (match sd (e_node e) with None => su (e_node e) | Some _ => final end) (l1 ++ l2).
Proof.
  intros [Hn -> -> Hd]. rewrite fmap_app, fmap_cons in Hn, Hd. destruct (dll_at _ _ _ _ _ Hd) as [E1 E2].
  split; [done|]. split; [done|]. rewrite E1, E2. constructor; rewrite fmap_app, ?fmap_app, ?fmap_cons.
  - apply NoDup_app in Hn as (A & B & C). apply NoDup_cons in C as [_ C]. apply NoDup_app. set_solver.
  - destruct l1 as [|e1 l1]; [done|]. cbn [fmap list_fmap app head]. by destruct (last _) eqn:E; [|apply last_None in E].
  - destruct l2 as [|e2 l2]; [by rewrite app_nil_r|]. rewrite !fmap_cons, !last_app_cons. done.
  - eapply (dll_unlink _ _ _ _ _ _ _ Hn Hd); intros y _; apply ofupd_at.
Qed.

Lemma in_split_nodes (l : list entry) e : e ∈ l -> exists l1 l2, l = l1 ++ e :: l2.
Proof. apply list_elem_of_split. Qed.

Lemma chains_del hu hd tbl ch l1 e l2 :
  chains hu hd tbl ch (l1 ++ e :: l2) -> NoDup (e_node <$> l1 ++ e :: l2) ->
  let p := e_node e in let i := cache_hash (e_blk e) in
  (forall t, hu p = Some t \/ hd p = Some t -> t ∈ e_node <$> l1 ++ e :: l2) /\
  exists ch', chains (ofupd hu (hd p) (hu p)) (ofupd hd (hu p) (hd p))
    (match hu p with None => zset tbl i (hd p) | Some _ => tbl end) ch' (l1 ++ l2).
Proof.
  intros Hc Hn p i. assert (0 <= i < 16) as Hi by apply cache_hash_range.
  assert (p ∈ ch i) as Hp by (apply (chain_has _ _ _ _ _ e Hc); set_solver).
  apply list_elem_of_split in Hp as (c1 & c2 & Ec). destruct (cn_tbl _ _ _ _ _ Hc i Hi) as (B1 & B2 & B3).
  rewrite Ec in B1, B2, B3. destruct (dll_at _ _ _ _ _ B3) as [E1 E2]. rewrite E1, E2.
  assert (forall t, last c1 = Some t \/ head c2 = Some t -> t ∈ ch i) as Hin.
  { intros t [Ht%last_Some_elem_of|Ht%head_Some_elem_of]; rewrite Ec; set_solver. }
  split; [intros t Ht; by apply (chain_listed _ _ _ _ _ i _ Hc Hi), Hin|].
  exists (fun b => if b =? i then c1 ++ c2 else ch b). constructor.
  - destruct (last c1); [|rewrite zlen_zset]; apply Hc.
  - intros b Hb. destruct (cn_tbl _ _ _ _ _ Hc b Hb) as (D1 & D2 & D3).
    destruct (Z.eqb_spec b i) as [->|Hne].
    + split; [|split].
      * destruct c1 as [|z c1]; cbn in *.
        { by rewrite zget_zset_eq by (rewrite (cn_len _ _ _ _ _ Hc); unfold HASH_SIZE; lia). }
        by destruct (last (z :: c1)) eqn:E; [|apply last_None in E].
      * apply NoDup_app in B2 as (A & B & C). apply NoDup_cons in C as [_ C]. apply NoDup_app. set_solver.
      * apply (dll_unlink _ _ _ _ _ _ _ B2 B3); intros y _; apply ofupd_at.
    + split; [|split; [done|]].
      * by destruct (last c1); [|rewrite zget_zset_ne by done].
      * eapply dll_ext; [|exact D3]. intros y Hy. rewrite !ofupd_at.
        rewrite !bool_decide_eq_false_2; [done|..]; intros E; apply Hne, (chain_apart _ _ _ _ _ b i y Hc Hn Hb Hi Hy), Hin; auto.
  - intros b q Hb.
    assert (q ∈ (if b =? i then c1 ++ c2 else ch b) <-> q ∈ ch b /\ q <> p) as ->.
    { destruct (Z.eqb_spec b i) as [->|Hne].
      - rewrite Ec. apply NoDup_app in B2 as (A & B & C). apply NoDup_cons in C as [C _]. set_solver.
      - split; [|tauto]. intros Hq. split; [done|]. intros ->.
        apply Hne, (chain_apart _ _ _ _ _ b i p Hc Hn Hb Hi Hq). rewrite Ec. set_solver. }
    rewrite (cn_in _ _ _ _ _ Hc b q Hb). rewrite fmap_app, fmap_cons in Hn.
    apply NoDup_app in Hn as (_ & Hx & Hn). apply NoDup_cons in Hn as [Hn _]. split.
    + intros [(e' & He & <- & E) Hq]. exists e'. split; [|done].
      apply elem_of_app in He as [He|He]; [set_solver|]. apply elem_of_cons in He as [-> |He]; [done|set_solver].
    + intros (e' & He & <- & E). split; [exists e'; set_solver|]. intros Ep.
      apply elem_of_app in He as [He|He]; apply (list_elem_of_fmap_2 e_node) in He; rewrite Ep in He; [|done].
      apply (Hx _ He). set_solver.
Qed.

Lemma wp_cache_remove (Q : unit -> S -> Prop) T l1 e l2 s :
  listed T (l1 ++ e :: l2) s ->
  (forall s', listed T (l1 ++ l2) s' -> core s' = core s -> Q tt s') -> wp (cache_remove (e_node e)) Q s.
Proof.
  intros (L & ch & Hs) HQ. pose proof Hs as [Hm Hst Hsk Hc Hus].
  assert (T (e_node e) = Some (e_stat e)) as He by (apply Hst; set_solver).
  assert (forall t, t ∈ e_node <$> l1 ++ e :: l2 -> is_Some (T t)) as Hin.
  { intros t. by apply (shape_node _ _ _ _ _ _ Hs). }
  destruct (stacked_del _ _ _ _ _ _ _ Hsk) as (E1 & E2 & Hsk').
  destruct (chains_del _ _ _ _ _ _ _ Hc (sk_nodup _ _ _ _ _ Hsk)) as (Hh & ch' & Hc').
  unfold cache_remove. apply wp_bnd. eapply wp_fc_load; [exact Hm|exact He|].
  cbn [stack_up stack_down hash_up hash_down n_blk node_of e_stat t_blk].
  apply wp_bnd. eapply wp_stack_head; [exact Hm| |].
  { intros t Ht. apply Hin. rewrite E1 in Ht. apply last_Some_elem_of in Ht. rewrite fmap_app. set_solver. }
  intros m1 H1. apply wp_bnd. eapply wp_stack_tail; [exact H1| |].
  { intros t Ht. apply Hin. rewrite E2 in Ht. apply head_Some_elem_of in Ht. rewrite fmap_app, fmap_cons. set_solver. }
  intros m2 H2. apply wp_bnd. eapply wp_hash_head; [exact H2|intros t Ht; apply Hin, Hh; by left|].
  intros m3 H3. apply wp_bnd. eapply wp_hash_up; [exact H3|intros t Ht; apply Hin, Hh; by right|].
  intros m4 H4. apply (wp_used _ _ (fun u => u - 1)), HQ; [|done].
  eexists _, _. constructor; [exact H4| | | |].
  - intros e' He'. apply Hst. set_solver.
  - links. exact Hsk'.
  - links. exact Hc'.
  - cbn. rewrite Hus, (cons_middle e), !used_count_app, used_count_one. destruct (e_blk e =? 0); lia.
Qed.

(** ** cache_refresh *)

Lemma chains_perm hu hd tbl ch l l' :
  (forall e, e ∈ l' <-> e ∈ l) -> chains hu hd tbl ch l -> chains hu hd tbl ch l'.
Proof.
  intros Hl [A B C]. constructor; [done|done|]. intros b p Hb. rewrite (C b p Hb). by setoid_rewrite Hl.
Qed.

Lemma used_count_perm l l' : l ≡ₚ l' -> used_count l = used_count l'.
Proof. intros E. unfold used_count, zlen. by rewrite E. Qed.

Lemma wp_cache_refresh (Q : unit -> S -> Prop) T l1 e l2 s :
  listed T (l1 ++ e :: l2) s ->
  (forall s', listed T (l1 ++ l2 ++ [e]) s' -> core s' = core s -> Q tt s') -> wp (cache_refresh (e_node e)) Q s.
Proof.
  intros (L & ch & Hs) HQ. pose proof Hs as [Hm Hst Hsk Hc Hus].
  assert (T (e_node e) = Some (e_stat e)) as He by (apply Hst; set_solver).
  assert (forall t, t ∈ e_node <$> l1 ++ e :: l2 -> is_Some (T t)) as Hin.
  { intros t. by apply (shape_node _ _ _ _ _ _ Hs). }
  destruct (stacked_del _ _ _ _ _ _ _ Hsk) as (E1 & E2 & Hsk').
  pose proof (sk_nodup _ _ _ _ _ Hsk) as Hn. pose proof (sk_tail _ _ _ _ _ Hsk) as Ht.
  rewrite fmap_app, fmap_cons in Hn, Ht. rewrite last_app_cons in Ht.
  unfold cache_refresh. apply wp_bnd, wp_gets. case_bool_decide as Hlast.
  - apply wp_ret, HQ; [|done]. destruct l2 as [|e2 l2]; [by exists L, ch|]. exfalso.
    rewrite Ht in Hlast. change (last (e_node <$> e2 :: l2) = Some (e_node e)) in Hlast.
    apply last_Some_elem_of in Hlast. apply NoDup_app in Hn as (_ & _ & Hn). by apply NoDup_cons in Hn as [Hn _].
  - destruct l2 as [|e2 l2]; [done|].
    assert (e_node e ∉ e_node <$> l1 ++ e2 :: l2) as Hnew.
    { rewrite fmap_app. apply NoDup_app in Hn as (_ & Hx & Hn). apply NoDup_cons in Hn as [Hn _].
      intros [Hi|Hi]%elem_of_app; [|done]. apply (Hx _ Hi). set_solver. }
    apply wp_bnd. eapply wp_fc_load; [exact Hm|exact He|]. cbn [stack_up stack_down node_of].
    apply wp_bnd. eapply wp_stack_head; [exact Hm| |].
    { intros t Ht'. apply Hin. rewrite E1 in Ht'. apply last_Some_elem_of in Ht'. rewrite fmap_app. set_solver. }
    intros m1 H1. rewrite E2. apply wp_bnd, wp_ret, wp_bnd.
    eapply wp_su; [exact H1|apply Hin; rewrite fmap_app; set_solver|]. intros m2 H2.
    apply wp_bnd, wp_gets. cbn [cache_stack_tail with_nodes with_stack].
    apply wp_bnd. eapply wp_su; [exact H2|by eexists|]. intros m3 H3.
    apply wp_bnd. eapply wp_sd; [exact H3|by eexists|]. intros m4 H4.
    assert (exists t, cache_stack_tail s = Some t /\ t ∈ e_node <$> e2 :: l2) as (t & Et & Hti).
    { rewrite Ht. cbn. destruct (last (e_node e2 :: _)) eqn:E; [|by apply last_None in E].
      exists z. split; [done|by apply last_Some_elem_of]. }
    rewrite Et. apply wp_bnd, wp_ret, wp_bnd.
    eapply wp_sd; [exact H4|apply Hin; rewrite fmap_app; set_solver|]. intros m5 H5.
    apply wp_modify, HQ; [|done]. eexists _, ch. constructor; [exact H5| | | |].
    + intros e' He'. apply Hst. set_solver.
    + rewrite E2, Et in Hsk'. apply (stacked_add _ _ _ _ _ e) in Hsk'; [|done].
      rewrite <- app_assoc in Hsk'. rewrite opt_sd_links. cbn in Hsk' |- *. rewrite E2, Et. exact Hsk'.
    + cbn. eapply chains_perm; [|rewrite opt_sd_links; exact Hc]. intros e'. set_solver.
    + cbn. rewrite Hus. apply used_count_perm, Permutation_app_head. by rewrite Permutation_cons_append.
Qed.

(** ** cache_node *)

Lemma nodup_size (m : gmap Z node) (c : list Z) :
  NoDup c -> (forall p, p ∈ c -> is_Some (m !! p)) -> (length c <= size m)%nat.
Proof.
  intros Hn Hc. rewrite <- size_dom, <- (size_list_to_set (C := gset Z)) by done.
  apply subseteq_size. intros p Hp. apply elem_of_dom, Hc. set_solver.
Qed.

Lemma nodes_has m T L p : nodes_are m T L -> is_Some (T p) -> is_Some (m !! p).
Proof. intros Hm [x Hx]. rewrite (Hm p), Hx. done. Qed.

Lemma wp_chain_find (Q : option Z -> S -> Prop) T L c blk fuel s :
  nodes_are (fc_nodes s) T L -> (forall c1 y c2, c = c1 ++ y :: c2 -> l_hd L y = head c2) ->
  (forall p, p ∈ c -> is_Some (T p)) -> (length c < fuel)%nat ->
  (forall r, (forall p, r = Some p -> p ∈ c /\ exists x, T p = Some x /\ t_blk x = blk) ->
     (r = None -> forall p x, p ∈ c -> T p = Some x -> t_blk x <> blk) -> Q r s) ->
  wp (chain_find fuel (head c) blk) Q s.
Proof.
  intros Hm. revert fuel. induction c as [|p c IH]; intros fuel Hd Hc Hf HQ.
  - destruct fuel; [lia|]. apply HQ; [done|]. set_solver.
  - destruct fuel as [|fuel]; [cbn in Hf; lia|]. cbn [chain_find head].
    destruct (Hc p) as [x Hx]; [set_solver|].
    apply wp_bnd. eapply wp_fc_load; [exact Hm|exact Hx|]. cbn [n_blk node_of hash_down].
    rewrite (Hd [] p c eq_refl). destruct (Z.eqb_spec (t_blk x) blk) as [E|E].
    + apply wp_ret, HQ; [|done]. intros q [= <-]. split; [set_solver|by exists x].
    + cbn in Hf. apply IH; [|set_solver|lia|].
      * intros c1 y c2 ->. by apply (Hd (p :: c1)).
      * intros r H1 H2. apply HQ; [set_solver|]. intros Hr q y Hq Hy.
        apply elem_of_cons in Hq as [->|Hq]; [congruence|by eapply H2].
Qed.

(** The fragment is found when, and where, there is an entry for it. *)
Lemma wp_cache_node (Q : option Z -> S -> Prop) T l blk s :
  listed T l s ->
  (forall r, (forall p, r = Some p -> exists e, e ∈ l /\ e_node e = p /\ e_blk e = blk) ->
     (r = None -> forall e, e ∈ l -> e_blk e <> blk) -> Q r s) ->
  wp (cache_node blk) Q s.
Proof.
  intros (L & ch & Hs) HQ. pose proof Hs as [Hm Hst Hsk Hc Hus].
  unfold cache_node. apply wp_bnd, wp_gets, wp_bnd, wp_gets.
  set (i := cache_hash blk). assert (0 <= i < 16) as Hi by apply cache_hash_range.
  destruct (cn_tbl _ _ _ _ _ Hc i Hi) as (-> & Hn & Hd).
  assert (forall p, p ∈ ch i -> is_Some (T p)) as Hin.
  { intros p Hp. by apply (shape_node _ _ _ _ _ _ Hs), (chain_listed _ _ _ _ _ i _ Hc Hi). }
  apply (wp_chain_find _ T L (ch i)); [done|intros c1 y c2 E; by apply (Hd c1 y c2)|done| |].
  - unfold chain_fuel. apply Nat.lt_succ_r, nodup_size; [done|]. intros p Hp. eapply nodes_has; [done|by apply Hin].
  - intros r H1 H2. apply HQ.
    + intros p ->. destruct (H1 p eq_refl) as (Hp & x & Hx & <-).
      apply (cn_in _ _ _ _ _ Hc i p Hi) in Hp as (e & He & <- & _). exists e. split; [done|]. split; [done|].
      rewrite (Hst e He) in Hx. by injection Hx as <-.
    + intros Hr e He <-. apply (H2 Hr (e_node e) (e_stat e)); [by apply (chain_has _ _ _ _ _ e Hc)|by apply Hst|done].
Qed.

End Ops.
