(* ===== verification/FragFlush.v ===== *)
(** Flushing the fragment cache and finding a clean node: [cache_insert],
    [cache_flush], [cache_cycle_dirty] and [cache_getnode] of [cache.c] on the
    list of entries. *)

From S2P Require Import Prelude CgStore FragCache Chain FragList FragOps.
Local Open Scope bffs_scope.

(** The entry of node [p] gets other contents. *)
Definition retag (p : Z) (x : stat) (l : list entry) : list entry :=
  (fun e => if e_node e =? p then entry_of p x else e) <$> l.

Lemma retag_node p x l : e_node <$> retag p x l = e_node <$> l.
Proof.
  unfold retag. rewrite <- list_fmap_compose. apply list_fmap_ext. intros _ e _. cbn.
  destruct (Z.eqb_spec (e_node e) p); done.
Qed.

Lemma retag_out p x l : p ∉ e_node <$> l -> retag p x l = l.
Proof.
  intros Hp. unfold retag. rewrite <- (list_fmap_id l) at 2. apply list_fmap_ext. intros i e He.
  destruct (Z.eqb_spec (e_node e) p) as [E|]; [|done]. exfalso. apply Hp, list_elem_of_fmap. exists e.
  split; [done|]. by eapply list_elem_of_lookup_2.
Qed.

(** The sorted list [cache_insert] keeps. *)
Fixpoint insert_entry (e : entry) (sl : list entry) : list entry :=
  match sl with
  | [] => [e]
  | x :: r => if e_blk e <=? e_blk x then e :: sl else x :: insert_entry e r
  end.

Definition sort_entries (l sl : list entry) : list entry := foldl (fun sl e => insert_entry e sl) sl l.

Lemma insert_entry_perm e sl : insert_entry e sl ≡ₚ e :: sl.
Proof.
  induction sl as [|x r IH]; cbn; [done|]. destruct (e_blk e <=? e_blk x); [done|].
  rewrite IH. apply Permutation_swap.
Qed.

Lemma sort_entries_perm l sl : sort_entries l sl ≡ₚ l ++ sl.
Proof.
  revert sl. induction l as [|e l IH]; intros sl; cbn; [done|]. unfold sort_entries in IH |- *.
  cbn. rewrite IH, insert_entry_perm. apply Permutation_sym, Permutation_middle.
Qed.

(** The dirty entries. *)
Definition dirties (l : list entry) : list entry := filter (fun e => e_dirty e = true) l.

Lemma dirties_cons e l : dirties (e :: l) = if e_dirty e then e :: dirties l else dirties l.
Proof. unfold dirties. rewrite filter_cons. by destruct (e_dirty e). Qed.

Definition by_blk (e1 e2 : entry) : Prop := e_blk e1 <= e_blk e2.

Lemma insert_entry_sorted e sl : Sorted by_blk sl -> Sorted by_blk (insert_entry e sl).
Proof.
  induction sl as [|x r IH]; intros Hs; cbn; [by repeat constructor|].
  destruct (Z.leb_spec (e_blk e) (e_blk x)) as [Hle|Hgt].
  { constructor; [done|]. by constructor. }
  apply Sorted_inv in Hs as [Hs Hx]. constructor; [by apply IH|]. destruct r as [|y r]; cbn.
  - constructor. unfold by_blk. lia.
  - destruct (e_blk e <=? e_blk y); constructor; unfold by_blk; [lia|]. by inversion Hx.
Qed.

Lemma sort_entries_sorted l sl : Sorted by_blk sl -> Sorted by_blk (sort_entries l sl).
Proof.
  revert sl. induction l as [|e l IH]; intros sl Hs; cbn; [done|]. by apply IH, insert_entry_sorted.
Qed.

Section Flush.
Context {D H : Type} {ST : Storage D (list Z)} {EX : Exec H}.
#[local] Abbreviation S := (fcache D H).

(** ** Changing the contents of a node *)

Lemma chains_retag hu hd tbl ch l p x :
  (forall e, e ∈ l -> e_node e = p -> e_blk e = t_blk x) ->
  chains hu hd tbl ch l -> chains hu hd tbl ch (retag p x l).
Proof.
  intros Hx [A B C]. constructor; [done|done|]. intros b q Hb. rewrite (C b q Hb). unfold retag. split.
  - intros (e & He & E1 & E2). exists (if e_node e =? p then entry_of p x else e).
    split; [by apply (list_elem_of_fmap_2 (fun e => if e_node e =? p then _ else e))|].
    destruct (Z.eqb_spec (e_node e) p) as [E|]; [|done]. cbn. rewrite <- (Hx e He E). split; [congruence|done].
  - intros (e' & He' & E1 & E2). apply list_elem_of_fmap in He' as (e & -> & He). exists e.
    split; [done|]. destruct (Z.eqb_spec (e_node e) p) as [E|]; [|done]. cbn in E1, E2.
    rewrite (Hx e He E). split; [congruence|done].
Qed.

Lemma used_count_retag l p x :
  (forall e, e ∈ l -> e_node e = p -> e_blk e = t_blk x) -> used_count (retag p x l) = used_count l.
Proof.
  intros Hx. induction l as [|e l IH]; [done|]. unfold retag in *. rewrite fmap_cons.
  rewrite !used_count_cons, IH by set_solver.
  f_equal. destruct (Z.eqb_spec (e_node e) p) as [E|]; [|done]. cbn. by rewrite <- (Hx e) by set_solver.
Qed.

Lemma wp_stat_shape (Q : unit -> S -> Prop) T L ch l p f x x' s :
  shape T L ch l s -> T p = Some x -> f (node_of x L p) = node_of x' L p ->
  (p ∈ e_node <$> l -> t_blk x' = t_blk x) ->
  (forall m, shape (fupd T p (Some x')) L ch (retag p x' l) (with_nodes m s) -> Q tt (with_nodes m s)) ->
  wp (upd p f) Q s.
Proof.
  intros Hs Hx Hf Hb HQ. pose proof Hs as [Hm Hst Hsk Hc Hus].
  eapply wp_upd; [done|exact Hx|]. apply HQ.
  assert (forall e, e ∈ l -> e_node e = p -> e_blk e = t_blk x') as Hblk.
  { intros e He E. rewrite Hb by (apply list_elem_of_fmap; by exists e).
    specialize (Hst e He). rewrite E, Hx in Hst. by injection Hst as ->. }
  constructor.
  - rewrite Hf. by eapply nodes_put.
  - intros e' He'. unfold retag in He'. apply list_elem_of_fmap in He' as (e & -> & He).
    destruct (Z.eqb_spec (e_node e) p) as [E|E]; cbn.
    + rewrite fupd_eq. by destruct x'.
    + rewrite fupd_ne by done. by apply Hst.
  - destruct Hsk as [A B C E]. constructor; by rewrite retag_node.
  - by apply chains_retag.
  - cbn. by rewrite used_count_retag.
Qed.

Lemma wp_stat (Q : unit -> S -> Prop) T l p f x x' s :
  listed T l s -> T p = Some x -> (forall L, f (node_of x L p) = node_of x' L p) ->
  (p ∈ e_node <$> l -> t_blk x' = t_blk x) ->
  (forall s', listed (fupd T p (Some x')) (retag p x' l) s' -> core s' = core s -> Q tt s') ->
  wp (upd p f) Q s.
Proof.
  intros (L & ch & Hs) Hx Hf Hb HQ. eapply wp_stat_shape; [exact Hs|exact Hx|apply Hf|exact Hb|].
  intros m Hs'. apply HQ; [by exists L, ch|done].
Qed.

(** ** cache_insert *)

(** [next] threads the nodes of [sl]. *)
Fixpoint threaded (L : links) (sl : list entry) : Prop :=
  match sl with
  | [] => True
  | x :: r => l_nx L (e_node x) = e_node <$> head r /\ threaded L r
  end.

Lemma threaded_ext L L' sl :
  (forall e, e ∈ sl -> l_nx L' (e_node e) = l_nx L (e_node e)) -> threaded L sl -> threaded L' sl.
Proof.
  induction sl as [|x r IH]; [done|]. intros Hx [H1 H2].
  split; [rewrite Hx by set_solver; done|]. apply IH; [set_solver|done].
Qed.

Lemma threaded_insert L e c1 y c2 :
  NoDup (e_node <$> c1 ++ y :: c2) -> e_node e ∉ e_node <$> c1 ++ y :: c2 -> threaded L (c1 ++ y :: c2) ->
  threaded (lk_nx (e_node y) (Some (e_node e)) (lk_nx (e_node e) (e_node <$> head c2) L)) (c1 ++ y :: e :: c2).
Proof.
  induction c1 as [|z c1 IH]; intros Hn He [H1 H2].
  - rewrite app_nil_l, fmap_cons in Hn, He. apply NoDup_cons in Hn as [Hn _].
    apply not_elem_of_cons in He as [Hey He]. cbn. split; [by rewrite fupd_eq|].
    split; [by rewrite fupd_ne, fupd_eq|].
    eapply threaded_ext; [|exact H2]. intros x Hx%(list_elem_of_fmap_2 e_node). cbn.
    rewrite !fupd_ne; [done|congruence|congruence].
  - rewrite <- app_comm_cons, fmap_cons in Hn, He. apply NoDup_cons in Hn as [Hz Hn].
    apply not_elem_of_cons in He as [Hez He]. cbn. split; [|by apply IH].
    rewrite !fupd_ne, H1; [by destruct c1|done|]. rewrite fmap_app in Hz. set_solver.
Qed.

Lemma shape_nx T L ch l (s : S) m L' :
  shape T L ch l s -> nodes_are m T L' -> l_su L' = l_su L -> l_sd L' = l_sd L -> l_hu L' = l_hu L -> l_hd L' = l_hd L ->
  shape T L' ch l (with_nodes m s).
Proof. intros [A B C E F] Hm E1 E2 E3 E4. constructor; cbn; try done; congruence. Qed.

(** Walking to the place: the entries passed, the one before the place. *)
Lemma wp_insert_walk (Q : Z * option Z -> S -> Prop) T L e sl parent fuel s :
  nodes_are (fc_nodes s) T L -> (forall e, e ∈ sl -> T (e_node e) = Some (e_stat e)) -> threaded L (parent :: sl) ->
  (length sl < fuel)%nat ->
  (forall c1 y c2, parent :: sl = c1 ++ y :: c2 -> insert_entry e sl = drop 1 (c1 ++ y :: e :: c2) ->
     Q (e_node y, e_node <$> head c2) s) ->
  wp (insert_walk fuel (e_node parent) (e_node <$> head sl) (e_blk e)) Q s.
Proof.
  intros Hm. revert parent fuel Q. induction sl as [|x r IH]; intros parent fuel Q Hst Ht Hf HQ;
    (destruct fuel as [|fuel]; [cbn in Hf; lia|]).
  - apply wp_ret. by apply (HQ [] parent []).
  - cbn [insert_walk head fmap option_fmap option_map]. apply wp_bnd.
    eapply wp_fc_load; [exact Hm|apply Hst; set_solver|]. cbn [n_blk node_of e_stat t_blk n_next].
    destruct (e_blk e <=? e_blk x) eqn:E.
    + apply wp_ret, (HQ [] parent (x :: r)); [done|]. cbn. by rewrite E.
    + rewrite (proj1 (proj2 Ht)). apply IH; [set_solver|apply Ht|cbn in Hf; lia|].
      intros c1 y c2 E1 E2. apply (HQ (parent :: c1) y c2); [cbn; by rewrite E1|].
      cbn [insert_entry]. rewrite E, E2. cbn. rewrite drop_0. destruct c1 as [|z c1]; injection E1 as -> ->; done.
Qed.

Lemma wp_cache_insert (Q : option Z -> S -> Prop) T L ch l e sl s :
  shape T L ch l s -> T (e_node e) = Some (e_stat e) -> (forall x, x ∈ sl -> T (e_node x) = Some (e_stat x)) ->
  NoDup (e_node <$> sl) -> e_node e ∉ e_node <$> sl -> threaded L sl ->
  (forall L' m, shape T L' ch l (with_nodes m s) -> threaded L' (insert_entry e sl) ->
     Q (e_node <$> head (insert_entry e sl)) (with_nodes m s)) ->
  wp (cache_insert (e_node <$> head sl) (e_node e)) Q s.
Proof.
  intros Hs He Hst Hn Hne Ht HQ. pose proof (sh_nodes _ _ _ _ _ Hs) as Hm.
  unfold cache_insert. apply wp_bnd. eapply wp_fc_load; [exact Hm|exact He|]. cbn [n_blk node_of e_stat t_blk].
  destruct sl as [|x r]; cbn [head fmap option_fmap option_map].
  - apply wp_bnd. eapply wp_nx; [exact Hm|by eexists|]. intros m Hm'. apply wp_ret.
    eapply (HQ _ m); [by eapply shape_nx|]. split; [|done]. cbn. by rewrite fupd_eq.
  - apply wp_bnd. eapply wp_fc_load; [exact Hm|apply Hst; set_solver|]. cbn [n_blk node_of e_stat t_blk n_next].
    destruct (e_blk e <=? e_blk x) eqn:E.
    + apply wp_bnd. eapply wp_nx; [exact Hm|by eexists|]. intros m Hm'. apply wp_ret.
      cbn [insert_entry] in HQ. rewrite E in HQ. eapply (HQ _ m); [by eapply shape_nx|].
      split; [cbn; by rewrite fupd_eq|]. eapply threaded_ext; [|exact Ht].
      intros y Hy%(list_elem_of_fmap_2 e_node). cbn. rewrite fupd_ne; [done|congruence].
    + apply wp_bnd, wp_gets, wp_bnd. rewrite (proj1 Ht).
      eapply wp_insert_walk; [exact Hm|set_solver|exact Ht| |].
      { unfold chain_fuel. apply Nat.lt_succ_r. transitivity (length (e_node <$> x :: r)).
        { rewrite length_fmap. cbn. lia. }
        apply nodup_size; [done|]. intros q Hq. eapply nodes_has; [exact Hm|].
        apply list_elem_of_fmap in Hq as (y & -> & Hy). by rewrite (Hst y Hy). }
      intros c1 y c2 E1 E2.
      assert (insert_entry e (x :: r) = c1 ++ y :: e :: c2) as Ei.
      { cbn [insert_entry]. rewrite E, E2. destruct c1 as [|z c1]; injection E1 as -> ->; done. }
      assert (T (e_node y) = Some (e_stat y)) as Hy by (apply Hst; rewrite E1; set_solver).
      rewrite E1 in Hn, Hne, Ht. rewrite Ei in HQ. cbn [fst snd].
      apply wp_bnd. eapply wp_nx; [exact Hm|by eexists|]. intros m1 Hm1.
      apply wp_bnd. eapply wp_nx; [exact Hm1|by eexists|]. intros m2 Hm2. apply wp_ret.
      replace (Some (e_node x)) with (e_node <$> head (c1 ++ y :: e :: c2)) by (by destruct c1; injection E1 as -> ->).
      apply (HQ _ m2 (shape_nx _ _ _ _ _ _ _ Hs Hm2 eq_refl eq_refl eq_refl eq_refl)).
      by apply threaded_insert.
Qed.

(** ** cache_flush *)

(** Collecting: the dirty entries from [temp] on are sorted into [sl]. *)
Lemma wp_flush_collect (Q : option Z * Z -> S -> Prop) T l2 fuel s L ch l1 sl count :
  shape T L ch (l1 ++ l2) s -> (forall e, e ∈ l2 -> e_dirty e = true -> e_blk e <> 0) ->
  (forall x, x ∈ sl -> x ∈ l1) -> NoDup (e_node <$> sl) -> threaded L sl -> (length l2 < fuel)%nat ->
  (forall L' m, shape T L' ch (l1 ++ l2) (with_nodes m s) ->
     threaded L' (sort_entries (dirties l2) sl) ->
     Q (e_node <$> head (sort_entries (dirties l2) sl), count + zlen (dirties l2)) (with_nodes m s)) ->
  wp (flush_collect fuel (e_node <$> head l2) (e_node <$> head sl) count) Q s.
Proof.
  revert fuel s L l1 sl count. induction l2 as [|e l2 IH]; intros fuel s L l1 sl count Hs Hd Hsl Hn Ht Hf HQ;
    (destruct fuel as [|fuel]; [cbn in Hf; lia|]).
  - apply wp_ret. specialize (HQ L (fc_nodes s)). cbn in HQ. unfold zlen in HQ. cbn in HQ. rewrite Z.add_0_r in HQ.
    destruct s. by apply HQ.
  - assert (T (e_node e) = Some (e_stat e)) as He by (apply (sh_stat _ _ _ _ _ Hs); set_solver).
    cbn [flush_collect head fmap option_fmap option_map]. apply wp_bnd.
    eapply wp_fc_load; [apply Hs|exact He|]. cbn [n_flags n_blk node_of e_stat t_flags t_blk stack_down].
    destruct (stacked_del _ _ _ _ _ _ _ (sh_stack _ _ _ _ _ Hs)) as (_ & Hsd & _).
    assert (e_node <$> head l2 = head (e_node <$> l2)) as Eh by by destruct l2.
    rewrite Hsd, <- Eh. rewrite dirties_cons in HQ. assert (l1 ++ e :: l2 = (l1 ++ [e]) ++ l2) as El by by rewrite <- app_assoc.
    assert ((Z.land (e_flags e) CACHE_DIRTY =? 0) = negb (e_dirty e)) as -> by (unfold e_dirty; by rewrite negb_involutive).
    destruct (e_dirty e) eqn:Ed; cbn [negb].
    + destruct (Z.eqb_spec (e_blk e) 0) as [E0|_]; [exfalso; by apply (Hd e); [set_solver| |]|].
      assert (e_node e ∉ e_node <$> sl) as Hne.
      { intros Hi. apply list_elem_of_fmap in Hi as (x & Ex & Hx). apply Hsl in Hx.
        pose proof (sk_nodup _ _ _ _ _ (sh_stack _ _ _ _ _ Hs)) as Hnd. rewrite fmap_app, fmap_cons in Hnd.
        apply NoDup_app in Hnd as (_ & Hnd & _). apply (Hnd (e_node e)); [|set_solver].
        rewrite Ex. by apply list_elem_of_fmap_2. }
      assert (forall x, x ∈ insert_entry e sl -> x = e \/ x ∈ sl) as Hins.
      { intros x Hx. rewrite insert_entry_perm in Hx. set_solver. }
      apply wp_bnd. eapply wp_cache_insert; [exact Hs|exact He| |exact Hn|exact Hne|exact Ht|].
      { intros x Hx. apply (sh_stat _ _ _ _ _ Hs). set_solver. }
      intros L1 m1 Hs1 Ht1. apply wp_bnd.
      destruct (stacked_del _ _ _ _ _ _ _ (sh_stack _ _ _ _ _ Hs1)) as (_ & Hsd1 & _).
      eapply wp_fc_load; [apply Hs1|exact He|]. cbn [stack_down node_of]. rewrite Hsd1, <- Eh.
      rewrite El in Hs1. eapply IH; [exact Hs1|set_solver| | |exact Ht1|cbn in Hf; lia|].
      * intros x [-> |Hx]%Hins; set_solver.
      * rewrite insert_entry_perm, fmap_cons. by constructor.
      * intros L2 m2 Hs2 Ht2. rewrite <- El in Hs2.
        replace (count + 1 + zlen (dirties l2)) with (count + zlen (e :: dirties l2)) by (unfold zlen; cbn; lia).
        exact (HQ L2 m2 Hs2 Ht2).
    + rewrite El in Hs. eapply IH; [exact Hs|set_solver|set_solver|exact Hn|exact Ht|cbn in Hf; lia|].
      intros L2 m2 Hs2. rewrite <- El in Hs2. by apply HQ.
Qed.

(** Writing: the entries of [sl] in order, each marked clean first. *)
Definition write_all (ronly : Z) (bufs : gmap Z (list Z)) (sl : list entry) (d : D) : D :=
  foldl (fun d e => if ronly =? 0 then (st_write (e_blk e) (default [] (bufs !! e_buf e)) d).2 else d) d sl.

Definition clean (e : entry) : entry := Entry (e_node e) (e_blk e) CACHE_CLEAN (e_buf e).

Definition clean_in (sl : list entry) (e : entry) : entry :=
  if bool_decide (e_node e ∈ e_node <$> sl) then clean e else e.

Lemma clean_in_cons e sl l :
  (forall x, x ∈ l -> e_node x = e_node e -> x = e) ->
  clean_in sl <$> retag (e_node e) (e_stat (clean e)) l = clean_in (e :: sl) <$> l.
Proof.
  intros Hx. unfold retag. rewrite <- list_fmap_compose. apply list_fmap_ext. intros i x Hi. cbn.
  apply list_elem_of_lookup_2 in Hi. destruct (Z.eqb_spec (e_node x) (e_node e)) as [E|E].
  - rewrite (Hx x Hi E). unfold clean_in. rewrite fmap_cons.
    rewrite (bool_decide_eq_true_2 (e_node e ∈ e_node e :: _)) by apply list_elem_of_here. by case_bool_decide.
  - unfold clean_in. rewrite fmap_cons. assert (e_node x ∈ e_node e :: (e_node <$> sl) <-> e_node x ∈ e_node <$> sl) as Ei.
    { rewrite elem_of_cons. tauto. }
    by rewrite (bool_decide_ext _ _ Ei).
Qed.

Lemma wp_frag_write (Q : Z -> S -> Prop) buf blk s :
  is_Some (fc_bufs s !! buf) ->
  (forall r, Q r (with_disk (if fc_ronly s =? 0 then (st_write blk (default [] (fc_bufs s !! buf)) (fc_disk s)).2
                             else fc_disk s) s)) ->
  wp (frag_data_write buf blk) Q s.
Proof.
  intros [v Hv] HQ. unfold wp, frag_data_write. rewrite Hv in *. cbn in HQ.
  destruct (fc_ronly s =? 0); cbn [negb]; [apply HQ|]. specialize (HQ 1). by destruct s.
Qed.

Lemma wp_flush_write (Q : unit -> S -> Prop) sl fuel s T L ch l :
  shape T L ch l s -> (forall e, e ∈ sl -> e ∈ l) -> NoDup (e_node <$> sl) -> threaded L sl ->
  (forall e, e ∈ sl -> is_Some (fc_bufs s !! e_buf e)) -> (length sl < fuel)%nat ->
  (forall T' s', listed T' (clean_in sl <$> l) s' -> (forall p, p ∉ e_node <$> sl -> T' p = T p) ->
     core s' = core (with_disk (write_all (fc_ronly s) (fc_bufs s) sl (fc_disk s)) s) -> Q tt s') ->
  wp (flush_write fuel (e_node <$> head sl)) Q s.
Proof.
  revert fuel s T l. induction sl as [|e sl IH]; intros fuel s T l Hs Hin Hn Ht Hb Hf HQ;
    (destruct fuel as [|fuel]; [cbn in Hf; lia|]).
  - apply wp_ret, (HQ T); [|done|by destruct s]. exists L, ch. by rewrite list_fmap_id.
  - rewrite fmap_cons in Hn. apply NoDup_cons in Hn as [Hne Hn]. destruct Ht as [Hnx Ht].
    assert (e ∈ l) as Hel by (apply Hin; set_solver).
    assert (T (e_node e) = Some (e_stat e)) as He by by apply (sh_stat _ _ _ _ _ Hs).
    cbn [flush_write head fmap option_fmap option_map]. apply wp_bnd.
    eapply (wp_stat_shape _ _ _ _ _ _ _ _ (e_stat (clean e))); [exact Hs|exact He|done|done|].
    intros m Hs1. apply wp_bnd. eapply wp_fc_load; [apply Hs1|by rewrite fupd_eq|].
    cbn [n_buf n_blk n_next node_of e_stat t_buf t_blk clean e_buf e_blk].
    apply wp_bnd, wp_frag_write; [apply Hb; set_solver|]. intros r. rewrite Hnx.
    assert (forall x, x ∈ l -> e_node x = e_node e -> x = e) as Hsame.
    { intros x Hx E. eapply nodup_same_node; [apply (sh_stack _ _ _ _ _ Hs)|done|done|done]. }
    eapply IH; [| |exact Hn|exact Ht|cbn; set_solver|cbn in Hf; lia|].
    + destruct Hs1 as [S1 S2 S3 S4 S5]. constructor; [exact S1|exact S2|exact S3|exact S4|exact S5].
    + intros x Hx. unfold retag. apply list_elem_of_fmap. exists x. split; [|apply Hin; set_solver].
      destruct (Z.eqb_spec (e_node x) (e_node e)) as [E|]; [|done].
      exfalso. apply Hne. rewrite <- E. by apply list_elem_of_fmap_2.
    + intros T' s' Hl HT Hc. apply (HQ T').
      * by rewrite <- clean_in_cons.
      * intros p Hp. rewrite fmap_cons in Hp. apply not_elem_of_cons in Hp as [Hp1 Hp2].
        rewrite HT, fupd_ne by done. done.
      * rewrite Hc. done.
Qed.

Lemma core_eq (s s' : S) : core s = core s' ->
  fc_bufs s = fc_bufs s' /\ cache_alloced s = cache_alloced s' /\ cache_item_dirty s = cache_item_dirty s' /\
  cache_size s = cache_size s' /\ fc_disk s = fc_disk s' /\ fc_heap s = fc_heap s' /\ fc_ronly s = fc_ronly s' /\
  fc_receiving s = fc_receiving s'.
Proof. unfold core. intros [= -> -> -> -> -> -> -> ->]. done. Qed.

(** What the entries of a cache obey, apart from the links. *)
Record entries_ok (l : list entry) (bufs : gmap Z (list Z)) : Prop := {
  eo_flags : forall e, e ∈ l -> e_flags e = CACHE_CLEAN \/ e_flags e = CACHE_DIRTY;
  eo_dirty : forall e, e ∈ l -> e_dirty e = true -> e_blk e <> 0;
  eo_blks : forall e e', e ∈ l -> e' ∈ l -> e_blk e = e_blk e' -> e_blk e <> 0 -> e = e';
  eo_bufs : NoDup (e_buf <$> l);
  eo_has : forall e, e ∈ l -> is_Some (bufs !! e_buf e) }.

Lemma dirty_flags l bufs e : entries_ok l bufs -> e ∈ l -> e_dirty e = false -> clean e = e.
Proof.
  intros Ho He. unfold e_dirty, clean. destruct e as [p b f u]. cbn.
  destruct (eo_flags _ _ Ho _ He) as [E|E]; cbn in E; rewrite E; done.
Qed.

Lemma clean_in_dirties l bufs :
  entries_ok l bufs -> NoDup (e_node <$> l) -> clean_in (sort_entries (dirties l) []) <$> l = clean <$> l.
Proof.
  intros Ho Hn. apply list_fmap_ext. intros i e Hi%list_elem_of_lookup_2. unfold clean_in.
  case_bool_decide as Hd; [done|]. symmetry. eapply dirty_flags; [done|done|]. apply not_true_is_false. intros E.
  apply Hd, list_elem_of_fmap. exists e. split; [done|]. rewrite sort_entries_perm, app_nil_r.
  by apply list_elem_of_filter.
Qed.

(** Every dirty fragment is written, in ascending order; the entries stay. *)
Definition flushed (l : list entry) (s : S) : S :=
  set_dirty 0 (with_disk (write_all (fc_ronly s) (fc_bufs s) (sort_entries (dirties l) []) (fc_disk s)) s).

Lemma wp_cache_flush (Q : Z -> S -> Prop) T l s :
  listed T l s -> entries_ok l (fc_bufs s) -> cache_item_dirty s = zlen (dirties l) ->
  (forall T' s', listed T' (clean <$> l) s' -> (forall p, p ∉ e_node <$> l -> T' p = T p) ->
     core s' = core (flushed l s) -> Q (zlen (dirties l)) s') ->
  wp cache_flush Q s.
Proof.
  intros (L & ch & Hs) Ho Hd HQ. pose proof (sk_nodup _ _ _ _ _ (sh_stack _ _ _ _ _ Hs)) as Hn.
  pose proof (clean_in_dirties l _ Ho Hn) as Hcl.
  unfold cache_flush. apply wp_bnd, wp_gets. destruct (Z.eqb_spec (cache_item_dirty s) 0) as [E0|E0].
  - rewrite Hd in E0. assert (dirties l = []) as En by (destruct (dirties l); [done|unfold zlen in E0; cbn in E0; lia]).
    rewrite En in *. apply wp_ret, (HQ T).
    + rewrite <- Hcl. change (clean_in [] <$> l) with (clean_in [] <$> l). exists L, ch. by rewrite list_fmap_id.
    + done.
    + unfold flushed. rewrite En, <- E0, <- Hd. by destruct s.
  - assert (forall e, e ∈ sort_entries (dirties l) [] -> e ∈ l) as Hin.
    { intros e He. rewrite sort_entries_perm, app_nil_r in He. by apply list_elem_of_filter in He as [_ He]. }
    assert (length l <= size (fc_nodes s))%nat as Hsz.
    { rewrite <- (length_fmap e_node). apply nodup_size; [done|]. intros p Hp.
      eapply nodes_has; [apply Hs|by eapply shape_node]. }
    apply wp_bnd, wp_gets, wp_bnd, wp_gets, wp_bnd. rewrite (sk_head _ _ _ _ _ (sh_stack _ _ _ _ _ Hs)).
    replace (head (e_node <$> l)) with (e_node <$> head l) by by destruct l.
    eapply (wp_flush_collect _ _ l _ _ _ _ [] []); [exact Hs|apply Ho|done|constructor|done|unfold chain_fuel; lia|].
    intros L1 m1 Hs1 Ht1. cbn [app] in Hs1. apply wp_bnd, wp_gets. cbn [fst snd]. apply wp_bnd.
    replace (cache_item_dirty (with_nodes m1 s)) with (0 + zlen (dirties l)) by by rewrite <- Hd.
    rewrite Z.eqb_refl. cbn [negb]. apply wp_ret, wp_bnd.
    assert (sort_entries (dirties l) [] ≡ₚ dirties l) as Hp by by rewrite sort_entries_perm, app_nil_r.
    assert (NoDup (e_node <$> sort_entries (dirties l) [])) as Hns.
    { rewrite Hp. eapply sublist_NoDup; [exact Hn|]. apply fmap_sublist, sublist_filter. }
    eapply wp_flush_write; [exact Hs1|exact Hin|exact Hns|exact Ht1| | |].
    { intros e He. apply (eo_has _ _ Ho). by apply Hin. }
    { unfold chain_fuel. rewrite Hp. pose proof (length_filter (fun e => e_dirty e = true) l).
      unfold dirties. lia. }
    intros T' s' Hl HT Hc. rewrite Hcl in Hl. apply wp_bnd, wp_modify, wp_ret, (HQ T').
    + destruct Hl as (L2 & ch2 & Hl). exists L2, ch2. destruct Hl as [S1 S2 S3 S4 S5].
      constructor; [exact S1|exact S2|exact S3|exact S4|exact S5].
    + intros p Hpn. apply HT. intros Hi. apply Hpn. rewrite list_elem_of_fmap in Hi |- *. set_solver.
    + apply core_eq in Hc as (C1 & C2 & _ & C4 & C5 & C6 & C7 & C8). unfold core, flushed. cbn in *. congruence.
Qed.

End Flush.
