(* ===== verification/FragGet.v ===== *)
(** Finding a node for a new fragment: [cache_cycle_dirty] and
    [cache_getnode] of [cache.c], and the operations other files call, on the
    list of entries. *)

From S2P Require Import Prelude CgStore FragCache Chain FragList FragOps FragFlush.
Local Open Scope bffs_scope.

Section Get.
Context {D H : Type} {ST : Storage D (list Z)} {EX : Exec H}.
#[local] Abbreviation S := (fcache D H).

Lemma wp_head {A} (k : Z -> M S A) (R : A -> S -> Prop) T e l s :
  listed T (e :: l) s -> wp (k (e_node e)) R s ->
  wp (h <- gets cache_stack ;; h <- deref h ;; k h) R s.
Proof.
  intros (L & ch & Hs) HQ. apply wp_bnd, wp_gets. rewrite (sk_head _ _ _ _ _ (sh_stack _ _ _ _ _ Hs)).
  apply wp_bnd, wp_ret. exact HQ.
Qed.

Lemma listed_load (Q : node -> S -> Prop) T l e s :
  listed T l s -> e ∈ l ->
  (forall n, n_blk n = e_blk e -> n_flags n = e_flags e -> n_buf n = e_buf e -> Q n s) -> wp (load (e_node e)) Q s.
Proof.
  intros (L & ch & Hs) He HQ. eapply wp_fc_load; [apply Hs|by apply (sh_stat _ _ _ _ _ Hs)|]. by apply HQ.
Qed.

Lemma listed_nodup T l (s : S) : listed T l s -> NoDup (e_node <$> l).
Proof. intros (L & ch & Hs). apply (sh_stack _ _ _ _ _ Hs). Qed.

Lemma listed_length T l (s : S) : listed T l s -> (length l < chain_fuel s)%nat.
Proof.
  intros (L & ch & Hs). unfold chain_fuel. apply Nat.lt_succ_r. rewrite <- (length_fmap e_node).
  apply nodup_size; [apply (sh_stack _ _ _ _ _ Hs)|]. intros p Hp. eapply nodes_has; [apply Hs|by eapply shape_node].
Qed.

Lemma listed_stat T l (s : S) e : listed T l s -> e ∈ l -> T (e_node e) = Some (e_stat e).
Proof. intros (L & ch & Hs). apply Hs. Qed.

(** ** The loops over the head of the stack *)

(** Some entry is clean: the dirty ones before it go to the end. *)
Lemma wp_cycle_clean (Q : unit -> S -> Prop) T stop c d fuel r s :
  listed T (d ++ c :: r) s -> (forall e, e ∈ d -> e_flags e <> CACHE_CLEAN) -> e_flags c = CACHE_CLEAN ->
  (forall e, e ∈ drop 1 (d ++ [c]) -> stop <> Some (e_node e)) -> (length d < fuel)%nat ->
  (forall s', listed T (c :: r ++ d) s' -> core s' = core s -> Q tt s') -> wp (cycle_loop fuel stop) Q s.
Proof.
  revert fuel r s. induction d as [|e d IH]; intros fuel r s Hl Hd Hc Hstop Hf HQ; (destruct fuel as [|fuel]; [lia|]);
    cbn [cycle_loop].
  - eapply wp_head; [exact Hl|]. apply wp_bnd. eapply (listed_load _ _ _ c); [exact Hl|set_solver|].
    intros n _ -> _. rewrite Hc. apply wp_ret, HQ; [by rewrite app_nil_r|done].
  - eapply wp_head; [exact Hl|]. apply wp_bnd. eapply (listed_load _ _ _ e); [exact Hl|set_solver|].
    intros n _ -> _. destruct (Z.eqb_spec (e_flags e) CACHE_CLEAN) as [E|_]; [by destruct (Hd e); [set_solver|]|].
    apply wp_bnd. eapply (wp_cache_refresh _ T [] e (d ++ c :: r)); [exact Hl|]. intros s1 Hl1 Hc1.
    cbn [app] in Hl1. rewrite <- app_assoc in Hl1. cbn [app] in Hl1.
    assert (exists e1 l1, d ++ c :: r ++ [e] = e1 :: l1 /\ e1 ∈ d ++ [c]) as (e1 & l1 & E1 & He1).
    { destruct d as [|e1 d]; [by exists c, (r ++ [e]); set_solver|]. exists e1, (d ++ c :: r ++ [e]). set_solver. }
    apply wp_bnd, wp_gets. pose proof Hl1 as (L & ch & Hs).
    rewrite (sk_head _ _ _ _ _ (sh_stack _ _ _ _ _ Hs)), E1. cbn [fmap list_fmap head].
    rewrite bool_decide_eq_false_2 by (intros E; apply (Hstop e1); [done|by symmetry]).
    apply (IH fuel (r ++ [e])); [exact Hl1|set_solver|done| |cbn in Hf; lia|].
    + intros x Hx. apply Hstop. cbn. rewrite drop_0. by apply (subseteq_drop 1).
    + intros s2 Hl2 Hc2. apply HQ; [by rewrite <- app_assoc in Hl2|congruence].
Qed.

(** No entry is clean: back to where it started. *)
Lemma wp_cycle_full (Q : unit -> S -> Prop) T d fuel k s :
  listed T (d ++ k) s -> d <> [] -> (forall e, e ∈ d -> e_flags e <> CACHE_CLEAN) ->
  (length d <= fuel)%nat ->
  (forall s', listed T (k ++ d) s' -> core s' = core s -> Q tt s') ->
  wp (cycle_loop fuel (head (e_node <$> k ++ d))) Q s.
Proof.
  revert fuel k s. induction d as [|e d IH]; intros fuel k s Hl Hne Hd Hf HQ; [done|].
  destruct fuel as [|fuel]; [cbn in Hf; lia|]. cbn [cycle_loop].
  eapply wp_head; [exact Hl|]. apply wp_bnd. eapply (listed_load _ _ _ e); [exact Hl|set_solver|].
  intros n _ -> _. destruct (Z.eqb_spec (e_flags e) CACHE_CLEAN) as [E|_]; [by destruct (Hd e); [set_solver|]|].
  apply wp_bnd. eapply (wp_cache_refresh _ T [] e (d ++ k)); [exact Hl|]. intros s1 Hl1 Hc1.
  cbn [app] in Hl1. rewrite <- app_assoc in Hl1. pose proof Hl1 as (L & ch & Hs).
  apply wp_bnd, wp_gets. rewrite (sk_head _ _ _ _ _ (sh_stack _ _ _ _ _ Hs)).
  destruct d as [|e1 d].
  - cbn [app]. rewrite bool_decide_eq_true_2 by done. by apply wp_ret, HQ.
  - rewrite bool_decide_eq_false_2.
    + replace (k ++ e :: e1 :: d) with ((k ++ [e]) ++ e1 :: d) by by rewrite <- app_assoc.
      apply (IH fuel (k ++ [e])); [exact Hl1|done|set_solver|cbn in Hf |- *; lia|].
      intros s2 Hl2 Hc2. rewrite <- app_assoc in Hl2. apply HQ; [done|congruence].
    + pose proof (listed_nodup _ _ _ Hl1) as Hn. cbn [app] in Hn |- *. rewrite fmap_cons in Hn.
      apply NoDup_cons in Hn as [Hn _]. intros E. apply Hn. cbn in E. destruct k as [|z k]; cbn in E;
        injection E as E; rewrite E; apply list_elem_of_fmap_2; set_solver.
Qed.

(** ** cache_cycle_dirty *)

Record cache_ok (T : Z -> option stat) (l : list entry) (s : S) : Prop := {
  co_listed : listed T l s;
  co_entries : entries_ok l (fc_bufs s);
  co_dirty : cache_item_dirty s = zlen (dirties l) }.

(** The list and the state with a clean entry in front: the dirty ones before
    the oldest clean one moved to the end, or everything flushed, when more
    than three quarters are dirty or nothing is clean. *)
Inductive settled (l : list entry) (s : S) : list entry -> S -> Prop :=
  | settled_turn d c r s' :
      l = d ++ c :: r -> (forall e, e ∈ d -> e_flags e <> CACHE_CLEAN) -> e_flags c = CACHE_CLEAN ->
      core s' = core s -> settled l s (c :: r ++ d) s'
  | settled_flush s' :
      Z.shiftr (cache_size s * 3) 2 < cache_item_dirty s \/ (forall e, e ∈ l -> e_flags e <> CACHE_CLEAN) ->
      core s' = core (flushed l s) -> settled l s (clean <$> l) s'.

Lemma core_flushed l (s s' : S) : core s = core s' -> core (flushed l s) = core (flushed l s').
Proof.
  intros (C1 & C2 & C3 & C4 & C5 & C6 & C7 & C8)%core_eq. unfold core, flushed. cbn.
  by rewrite C1, C2, C4, C5, C6, C7, C8.
Qed.

Lemma wp_cycle_flush (Q : unit -> S -> Prop) T l s stop :
  cache_ok T l s -> l <> [] ->
  (forall T' s', listed T' (clean <$> l) s' -> core s' = core (flushed l s) -> Q tt s') ->
  wp (cycle_flush stop) Q s.
Proof.
  intros [Hl Ho Hd] Hne HQ. unfold cycle_flush. apply wp_bnd.
  eapply wp_cache_flush; [exact Hl|exact Ho|exact Hd|]. intros T' s1 Hl1 _ Hc1.
  destruct l as [|e l]; [done|]. apply wp_bnd, wp_gets, wp_bnd.
  eapply (wp_cycle_clean _ T' _ (clean e) []); [exact Hl1|set_solver|done|set_solver|unfold chain_fuel; cbn; lia|].
  intros s2 Hl2 Hc2. rewrite app_nil_r in Hl2. eapply wp_head; [exact Hl2|]. apply wp_bnd.
  eapply (listed_load _ _ _ (clean e)); [exact Hl2|set_solver|]. intros n _ -> _.
  apply wp_ret, (HQ T'); [exact Hl2|congruence].
Qed.

Lemma first_clean (l : list entry) :
  (exists d c r, l = d ++ c :: r /\ (forall e, e ∈ d -> e_flags e <> CACHE_CLEAN) /\ e_flags c = CACHE_CLEAN) \/
  (forall e, e ∈ l -> e_flags e <> CACHE_CLEAN).
Proof.
  induction l as [|e l IH]; [right; set_solver|]. destruct (Z.eq_dec (e_flags e) CACHE_CLEAN) as [E|E].
  - left. exists [], e, l. set_solver.
  - destruct IH as [(d & c & r & -> & Hd & Hc)|Hd]; [left; exists (e :: d), c, r|right]; set_solver.
Qed.

Lemma cache_ok_core T l (s s' : S) : cache_ok T l s -> listed T l s' -> core s' = core s -> cache_ok T l s'.
Proof. intros [_ Ho Hd] Hl (C1 & _ & C3 & _)%core_eq. constructor; [done|by rewrite C1|by rewrite C3]. Qed.

Lemma wp_cache_cycle_dirty (Q : unit -> S -> Prop) T l s :
  cache_ok T l s -> l <> [] ->
  (forall T' l' s', settled l s l' s' -> listed T' l' s' -> Q tt s') -> wp cache_cycle_dirty Q s.
Proof.
  intros Hok Hne HQ. pose proof (co_listed _ _ _ Hok) as Hl. unfold cache_cycle_dirty.
  pose proof Hl as (L & ch & Hs). pose proof (sk_head _ _ _ _ _ (sh_stack _ _ _ _ _ Hs)) as Hh.
  apply wp_bnd, wp_gets. destruct (cache_stack s) as [h|] eqn:Eh; [|by destruct l].
  apply wp_bnd, wp_gets, wp_bnd, wp_gets.
  destruct (Z.ltb_spec (Z.shiftr (cache_size s * 3) 2) (cache_item_dirty s)) as [Hlt|Hge].
  { eapply wp_cycle_flush; [exact Hok|done|]. intros T' s' Hl' Hc'. eapply HQ; [|exact Hl'].
    apply settled_flush; [by left|done]. }
  apply wp_bnd, wp_gets, wp_bnd. rewrite Hh. pose proof (listed_length _ _ _ Hl) as Hlen.
  destruct (first_clean l) as [(d & c & r & -> & Hd & Hc)|Hd].
  - assert (forall e, e ∈ drop 1 (d ++ [c]) -> head (e_node <$> d ++ c :: r) <> Some (e_node e)) as Hstop.
    { pose proof (listed_nodup _ _ _ Hl) as Hn. destruct d as [|e d]; [set_solver|].
      cbn [app] in Hn. rewrite fmap_cons in Hn. apply NoDup_cons in Hn as [Hn _].
      intros x Hx E. cbn in E. injection E as E. apply Hn. rewrite E. apply list_elem_of_fmap_2. cbn in Hx. rewrite drop_0 in Hx. set_solver. }
    rewrite length_app in Hlen. eapply wp_cycle_clean; [exact Hl|exact Hd|exact Hc|exact Hstop|lia|].
    intros s1 Hl1 Hc1. eapply wp_head; [exact Hl1|]. apply wp_bnd.
    eapply (listed_load _ _ _ c); [exact Hl1|set_solver|]. intros n _ -> _. rewrite Hc.
    apply wp_ret. eapply HQ; [|exact Hl1]. by apply (settled_turn _ _ d c r).
  - rewrite <- (app_nil_l l), <- (app_nil_r l) in Hl at 1. rewrite app_nil_r in Hl.
    rewrite <- (app_nil_l l) at 1. eapply (wp_cycle_full _ T l); [by rewrite app_nil_r|done|exact Hd|lia|].
    intros s1 Hl1 Hc1. cbn [app] in Hl1. destruct l as [|e l]; [done|]. eapply wp_head; [exact Hl1|].
    apply wp_bnd. eapply (listed_load _ _ _ e); [exact Hl1|set_solver|]. intros n _ -> _.
    destruct (Z.eqb_spec (e_flags e) CACHE_CLEAN) as [E|_]; [by destruct (Hd e); [set_solver|]|].
    eapply wp_cycle_flush; [by eapply cache_ok_core|done|]. intros T' s' Hl' Hc'. eapply HQ; [|exact Hl'].
    apply settled_flush; [by right|]. rewrite Hc'. by apply core_flushed.
Qed.

(** ** cache_getnode *)

Lemma settled_head l s l' s' : settled l s l' s' -> l <> [] -> exists e rest, l' = e :: rest /\ e_flags e = CACHE_CLEAN.
Proof.
  intros [d c r s1 -> _ Hc _|s1 _ _] Hne; [by exists c, (r ++ d)|].
  destruct l as [|e l]; [done|]. by exists (clean e), (clean <$> l).
Qed.

Lemma settled_core l s l' s1 s2 : settled l s l' s1 -> core s2 = core s1 -> settled l s l' s2.
Proof.
  intros [d c r s1' El Hd Hc H1|s1' Hcond H1] E; [eapply settled_turn|apply settled_flush]; try done; congruence.
Qed.

Lemma wp_cache_getnode (Q : option Z -> S -> Prop) T l blk s :
  cache_ok T l s -> l <> [] ->
  (forall T' e rest s', settled l s (e :: rest) s' -> e_flags e = CACHE_CLEAN -> listed T' rest s' ->
     e_node e ∉ e_node <$> rest -> T' (e_node e) = Some (Stat blk CACHE_CLEAN (e_buf e)) ->
     Q (Some (e_node e)) s') ->
  wp (cache_getnode blk) Q s.
Proof.
  intros Hok Hne HQ. pose proof (co_listed _ _ _ Hok) as Hl. unfold cache_getnode.
  pose proof Hl as (L & ch & Hs). pose proof (sk_head _ _ _ _ _ (sh_stack _ _ _ _ _ Hs)) as Hh.
  apply wp_bnd, wp_gets. rewrite Hh. destruct l as [|e0 l]; [done|]. cbn [fmap list_fmap head].
  apply wp_bnd. eapply (listed_load _ _ _ e0); [exact Hl|set_solver|]. intros n _ -> _. apply wp_bnd.
  assert (forall T' l' s', settled (e0 :: l) s l' s' -> listed T' l' s' ->
    wp (head <- gets cache_stack ;; p <- deref head ;; n <- load p ;;
        if negb (Z.land (n_flags n) CACHE_DIRTY =? 0) then ret None
        else cache_remove p ;; upd p (set_blk blk) ;; upd p (set_nflags CACHE_CLEAN) ;; ret (Some p)) Q s') as Htake.
  { intros T' l' s' Hset Hl'. destruct (settled_head _ _ _ _ Hset Hne) as (e & rest & -> & Hcl).
    eapply wp_head; [exact Hl'|]. apply wp_bnd. eapply (listed_load _ _ _ e); [exact Hl'|set_solver|].
    intros n' _ -> _. rewrite Hcl. cbn [negb Z.eqb Z.land CACHE_CLEAN CACHE_DIRTY].
    pose proof (listed_nodup _ _ _ Hl') as Hnd. rewrite fmap_cons in Hnd. apply NoDup_cons in Hnd as [Hnd _].
    pose proof (listed_stat _ _ _ e Hl' ltac:(set_solver)) as He.
    apply wp_bnd. eapply (wp_cache_remove _ T' [] e rest); [exact Hl'|]. intros s1 Hl1 Hc1.
    apply wp_bnd. eapply (wp_stat _ _ _ _ _ _ (Stat blk (e_flags e) (e_buf e))); [exact Hl1|exact He|done|done|].
    intros s2 Hl2 Hc2. rewrite retag_out in Hl2 by done.
    apply wp_bnd. eapply (wp_stat _ _ _ _ _ _ (Stat blk CACHE_CLEAN (e_buf e))); [exact Hl2|by rewrite fupd_eq|done|done|].
    intros s3 Hl3 Hc3. rewrite retag_out in Hl3 by done.
    apply wp_ret. eapply HQ; [|exact Hcl|exact Hl3|done|by rewrite fupd_eq].
    eapply settled_core; [exact Hset|congruence]. }
  destruct (Z.eqb_spec (e_flags e0) CACHE_CLEAN) as [E|E].
  - apply wp_ret. eapply Htake; [|exact Hl]. rewrite <- (app_nil_r l) at 2.
    by apply (settled_turn _ _ [] e0 l); [|set_solver| |].
  - eapply wp_cache_cycle_dirty; [exact Hok|done|]. intros T' l' s' Hset Hl'. by eapply Htake.
Qed.

End Get.
