(* ===== verification/FragView.v ===== *)
(** The fragments as a user of the cache sees them: an entry's buffer when the
    fragment is cached, the disk otherwise.  What the cache does on its own
    (reordering, flushing, giving clean nodes away) does not change the view. *)

From S2P Require Import Prelude CgStore FragCache Chain FragList FragOps FragFlush FragGet.
Local Open Scope bffs_scope.

Definition entry_for (k : Z) (l : list entry) : option entry := head (filter (fun e => e_blk e = k) l).

Lemma entry_for_Some k l e : entry_for k l = Some e -> e ∈ l /\ e_blk e = k.
Proof.
  unfold entry_for. intros Hh%head_Some_elem_of. by apply list_elem_of_filter in Hh as [H1 H2].
Qed.

Lemma entry_for_None k l : entry_for k l = None <-> forall e, e ∈ l -> e_blk e <> k.
Proof.
  unfold entry_for. split.
  - intros Hh%head_None e He E. assert (e ∈ filter (fun e => e_blk e = k) l) as Hf by by apply list_elem_of_filter.
    rewrite Hh in Hf. by apply not_elem_of_nil in Hf.
  - intros Hn. destruct (head _) as [e|] eqn:E; [|done]. apply head_Some_elem_of, list_elem_of_filter in E as [E He].
    by destruct (Hn e).
Qed.

Definition unique_blks (l : list entry) : Prop :=
  forall e e', e ∈ l -> e' ∈ l -> e_blk e = e_blk e' -> e_blk e <> 0 -> e = e'.

Lemma entry_for_in k l e : unique_blks l -> k <> 0 -> e ∈ l -> e_blk e = k -> entry_for k l = Some e.
Proof.
  intros Hu Hk He E. destruct (entry_for k l) as [e'|] eqn:Ef.
  - apply entry_for_Some in Ef as [He' E']. f_equal. apply Hu; [done|done|congruence|congruence].
  - by destruct (proj1 (entry_for_None k l) Ef e He).
Qed.

Lemma entry_for_perm k l l' : unique_blks l -> k <> 0 -> (forall e, e ∈ l' <-> e ∈ l) -> entry_for k l' = entry_for k l.
Proof.
  intros Hu Hk Hl. assert (unique_blks l') as Hu' by (intros e e' He He'; apply Hu; by apply Hl).
  destruct (entry_for k l) as [e|] eqn:E.
  - apply entry_for_Some in E as [He E]. apply entry_for_in; [done|done|by apply Hl|done].
  - apply entry_for_None. intros e He. by apply (proj1 (entry_for_None k l) E), Hl.
Qed.

Section View.
Context {D H : Type} {ST : Storage D (list Z)} {SL : StorageLaws D (list Z)} {EX : Exec H}.
#[local] Abbreviation S := (fcache D H).

Definition frag_data (l : list entry) (s : S) (k : Z) : list Z :=
  match entry_for k l with
  | Some e => default [] (fc_bufs s !! e_buf e)
  | None => st_peek (fc_disk s) k
  end.

(** Clean entries hold what is on the disk. *)
Definition agree (l : list entry) (s : S) : Prop :=
  forall e, e ∈ l -> e_flags e = CACHE_CLEAN -> e_blk e <> 0 ->
    fc_bufs s !! e_buf e = Some (st_peek (fc_disk s) (e_blk e)).

(** The cache in use: its nodes in LRU order are [l], it is consistent with
    the disk, and the disk may be written. *)
Record cache_inv (l : list entry) (s : S) : Prop := {
  ci_listed : exists T, listed T l s;
  ci_entries : entries_ok l (fc_bufs s);
  ci_dirty : cache_item_dirty s = zlen (dirties l);
  ci_agree : agree l s;
  ci_ronly : fc_ronly s = 0 }.

Lemma dirties_app l k : dirties (l ++ k) = dirties l ++ dirties k.
Proof. unfold dirties. apply filter_app. Qed.

Lemma ok_unique l bufs : entries_ok l bufs -> unique_blks l.
Proof. intros Ho e e'. apply (eo_blks _ _ Ho). Qed.

(** ** Writing everything back *)

Lemma write_all_peek bufs sl (d : D) k :
  NoDup (e_blk <$> sl) ->
  st_peek (write_all 0 bufs sl d) k =
    match entry_for k sl with Some e => default [] (bufs !! e_buf e) | None => st_peek d k end.
Proof.
  revert d. induction sl as [|e sl IH]; intros d Hn; [done|]. rewrite fmap_cons in Hn. apply NoDup_cons in Hn as [Hne Hn].
  cbn [write_all foldl Z.eqb]. change (foldl _ ?x sl) with (write_all 0 bufs sl x). rewrite IH by done.
  destruct (st_write_ok (e_blk e) (default [] (bufs !! e_buf e)) d) as (d' & -> & Hp). cbn [snd].
  unfold entry_for. rewrite filter_cons. destruct (decide (e_blk e = k)) as [E|E]; cbn [head].
  - destruct (head (filter _ sl)) as [x|] eqn:Ex.
    + exfalso. apply head_Some_elem_of, list_elem_of_filter in Ex as [Ex Hx]. apply Hne. rewrite E, <- Ex.
      by apply list_elem_of_fmap_2.
    + rewrite Hp. by destruct (Z.eqb_spec k (e_blk e)).
  - destruct (head _); [done|]. rewrite Hp. by destruct (Z.eqb_spec k (e_blk e)).
Qed.

Lemma flushed_blks l bufs :
  entries_ok l bufs -> NoDup (e_node <$> l) -> NoDup (e_blk <$> sort_entries (dirties l) []).
Proof.
  intros Ho Hn. rewrite sort_entries_perm, app_nil_r. apply NoDup_fmap_2_strong.
  - intros x y Hx Hy E. apply list_elem_of_filter in Hx as [Dx Hx], Hy as [Dy Hy].
    by apply (eo_blks _ _ Ho); [..|apply (eo_dirty _ _ Ho)].
  - apply NoDup_filter. by eapply NoDup_fmap_1.
Qed.

(** The fragments after flushing, on the disk itself. *)
Lemma flushed_peek l s k :
  entries_ok l (fc_bufs s) -> NoDup (e_node <$> l) -> agree l s -> fc_ronly s = 0 -> k <> 0 ->
  st_peek (fc_disk (flushed l s)) k = frag_data l s k.
Proof.
  intros Ho Hn Ha Hr Hk. cbn. rewrite Hr, write_all_peek by by eapply flushed_blks. unfold frag_data.
  pose proof (ok_unique _ _ Ho) as Hu.
  destruct (entry_for k (sort_entries _ _)) as [e|] eqn:E.
  - apply entry_for_Some in E as [He E]. rewrite sort_entries_perm, app_nil_r in He.
    apply list_elem_of_filter in He as [_ He]. by rewrite (entry_for_in k l e).
  - destruct (entry_for k l) as [e|] eqn:E'; [|done]. apply entry_for_Some in E' as [He <-].
    rewrite (Ha e He); [done| |done]. destruct (e_dirty e) eqn:Ed.
    + exfalso. apply (proj1 (entry_for_None _ _) E e); [|done].
      rewrite sort_entries_perm, app_nil_r. by apply list_elem_of_filter.
    + rewrite <- (dirty_flags _ _ _ Ho He Ed). done.
Qed.

Lemma entry_for_clean k l : entry_for k (clean <$> l) = clean <$> entry_for k l.
Proof.
  unfold entry_for. induction l as [|e l IH]; [done|]. rewrite fmap_cons, !filter_cons. cbn.
  by destruct (decide (e_blk e = k)).
Qed.

Lemma entries_ok_perm l l' bufs : (l' ≡ₚ l) -> entries_ok l bufs -> entries_ok l' bufs.
Proof.
  intros Hp [A B C E F]. constructor.
  - intros e. rewrite Hp. apply A.
  - intros e. rewrite Hp. apply B.
  - intros e e'. rewrite !Hp. apply C.
  - by rewrite Hp.
  - intros e. rewrite Hp. apply F.
Qed.

Lemma entries_ok_clean l bufs : entries_ok l bufs -> entries_ok (clean <$> l) bufs.
Proof.
  intros [A B C E F].
  assert (forall e, e ∈ clean <$> l -> exists e', e = clean e' /\ e' ∈ l) as Hc by (intros e; apply list_elem_of_fmap).
  constructor.
  - intros e (e' & -> & _)%Hc. by left.
  - intros e (e' & -> & _)%Hc. done.
  - intros e1 e2 (x1 & -> & H1)%Hc (x2 & -> & H2)%Hc Eb Hb. cbn in Eb, Hb. by rewrite (C x1 x2).
  - rewrite <- list_fmap_compose. exact E.
  - intros e (e' & -> & He)%Hc. exact (F e' He).
Qed.

(** Flushing keeps the invariant and the view. *)
Lemma settled_clean l (s s' : S) :
  cache_inv l s -> core s' = core (flushed l s) ->
  entries_ok (clean <$> l) (fc_bufs s') /\ cache_item_dirty s' = zlen (dirties (clean <$> l)) /\
  agree (clean <$> l) s' /\ fc_ronly s' = 0 /\ fc_bufs s' = fc_bufs s /\
  (forall k, k <> 0 -> frag_data (clean <$> l) s' k = frag_data l s k).
Proof.
  intros [[T Hl] Ho Hd Ha Hr] Hc. pose proof (listed_nodup _ _ _ Hl) as Hn. pose proof (ok_unique _ _ Ho) as Hu.
  assert (forall k, k <> 0 -> st_peek (fc_disk s') k = frag_data l s k) as Hpk.
  { intros k Hk. apply core_eq in Hc as (_ & _ & _ & _ & -> & _). by apply flushed_peek. }
  apply core_eq in Hc as (C1 & _ & C3 & _ & C5 & _ & C7 & _). cbn in C1, C3, C7.
  rewrite C1, C3, C7. split; [by apply entries_ok_clean|]. split.
  { assert (dirties (clean <$> l) = []) as ->; [|done].
    clear. induction l as [|e l IH]; [done|]. rewrite fmap_cons, dirties_cons. exact IH. }
  split; [|split; [done|split; [done|]]].
  - intros e He _ Hb. apply list_elem_of_fmap in He as (x & -> & Hx). cbn in Hb |- *. rewrite C1, Hpk by done.
    destruct (eo_has _ _ Ho x Hx) as [v Hv]. unfold frag_data. rewrite (entry_for_in _ _ x Hu Hb Hx eq_refl).
    by rewrite Hv.
  - intros k Hk. unfold frag_data at 1. rewrite entry_for_clean, C1, Hpk by done. unfold frag_data.
    by destruct (entry_for k l).
Qed.

(** What the cache does to make room keeps the invariant and the view. *)
Lemma settled_keeps l (s : S) l' s' :
  cache_inv l s -> settled l s l' s' ->
  entries_ok l' (fc_bufs s') /\ cache_item_dirty s' = zlen (dirties l') /\ agree l' s' /\ fc_ronly s' = 0 /\
  fc_bufs s' = fc_bufs s /\ (forall k, k <> 0 -> frag_data l' s' k = frag_data l s k).
Proof.
  intros Hi Hset. destruct Hset as [d c r s' -> _ _ Hc|s' _ Hc]; [|by apply settled_clean].
  destruct Hi as [_ Ho Hd Ha Hr]. assert (c :: r ++ d ≡ₚ d ++ c :: r) as Hp by (rewrite (Permutation_app_comm d); done).
  apply core_eq in Hc as (C1 & _ & C3 & _ & C5 & _ & C7 & _). rewrite C1, C3, C7.
  split; [by apply (entries_ok_perm _ _ _ Hp)|]. split.
  { rewrite Hd. unfold zlen, dirties. by rewrite Hp. }
  split; [intros e; rewrite Hp, C1, C5; apply Ha|]. split; [done|]. split; [done|].
  intros k Hk. unfold frag_data. rewrite C1, C5, (entry_for_perm k (d ++ c :: r)); [done|by eapply ok_unique|done|].
  intros e. by rewrite Hp.
Qed.

Lemma settled_same l (s : S) l' s' x :
  settled l s l' s' -> x ∈ l' -> exists y, y ∈ l /\ e_node y = e_node x /\ e_blk y = e_blk x /\ e_buf y = e_buf x.
Proof.
  intros [d c r s1 -> _ _ _|s1 _ _] Hx; [exists x; split; [set_solver|done]|].
  apply list_elem_of_fmap in Hx as (y & -> & Hy). by exists y.
Qed.

End View.
