(* ===== verification/FragCacheTheorems.v ===== *)
(** What the fragment cache promises: the theorems about [cache_frag],
    [cache_frag_write], [cache_flush] and the rest of the fragment half of
    [cache.c], over a healthy disk. [open_cache]
    and [cache_adjust], with memory to spare, leave a cache of the size asked
    for. *)

From S2P Require Import Prelude CgStore Sample FragCache Chain FragList FragOps FragFlush FragGet FragView.
Local Open Scope bffs_scope.

Section Open.
Context {D H : Type} {ST : Storage D (list Z)} {SL : StorageLaws D (list Z)} {EX : Exec H} {EL : ExecLaws H}.
#[local] Abbreviation S := (fcache D H).

Context (stale : list Z).

(** A new node: unused, with a buffer of its own. *)
Definition fresh (e : entry) : Prop := e_blk e = 0 /\ e_flags e = CACHE_CLEAN.

(** The cache under construction. *)
Record growing (l : list entry) (s : S) : Prop := {
  gr_listed : exists T, listed T l s /\ (forall p, is_Some (T p) -> in_use (fc_heap s) p);
  gr_fresh : forall e, e ∈ l -> fresh e;
  gr_bufs : NoDup (e_buf <$> l);
  gr_has : forall e, e ∈ l -> is_Some (fc_bufs s !! e_buf e) /\ in_use (fc_heap s) (e_buf e);
  gr_alloced : cache_alloced s = zlen l }.

Lemma shape_fresh T L ch l (s : S) p x n :
  shape T L ch l s -> T p = None -> p ∉ e_node <$> l -> n = Node (t_blk x) (t_flags x) (t_buf x) None None None None None ->
  listed (fupd T p (Some x)) l (with_nodes (<[p := n]> (fc_nodes s)) s).
Proof.
  intros [Hm Hst [A B C E] Hc Hu] Hp Hnp ->.
  exists (Links (fupd (l_su L) p None) (fupd (l_sd L) p None) (fupd (l_hu L) p None) (fupd (l_hd L) p None)
            (fupd (l_nx L) p None)), ch. constructor; cbn.
  - intros q. destruct (Z.eqb_spec q p) as [->|Hq].
    + rewrite lookup_insert_eq, fupd_eq. unfold node_of. cbn. by rewrite !fupd_eq.
    + rewrite lookup_insert_ne, fupd_ne, Hm by done. destruct (T q); [|done]. unfold node_of. cbn.
      by rewrite !fupd_ne.
  - intros e He. rewrite fupd_ne; [by apply Hst|]. intros <-. by apply Hnp, list_elem_of_fmap_2.
  - constructor; [done|done|done|]. eapply dll_ext; [|exact E]. intros y Hy.
    rewrite !fupd_ne; [done|congruence|congruence].
  - destruct Hc as [C1 C2 C3]. constructor; [done| |done]. intros b Hb. destruct (C2 b Hb) as (D1 & D2 & D3).
    split; [done|]. split; [done|]. eapply dll_ext; [|exact D3]. intros y Hy.
    assert (y <> p) by (intros ->; apply Hnp; by eapply chain_listed; [by constructor|..]).
    by rewrite !fupd_ne.
  - done.
Qed.

(** cache_alloc and cache_add: one more entry. *)
Lemma wp_grow (Q : option Z -> S -> Prop) l s :
  growing l s ->
  (forall p e s', e_node e = p -> growing (l ++ [e]) s' -> fc_disk s' = fc_disk s -> cache_size s' = cache_size s ->
     cache_item_dirty s' = cache_item_dirty s -> fc_ronly s' = fc_ronly s -> Q (Some p) s') ->
  wp (got <- cache_alloc stale ;; match got with Some p => cache_add p ;; ret (Some p) | None => ret None end) Q s.
Proof.
  intros [[T [Hl HT]] Hf Hb Hh Ha] HQ. unfold cache_alloc.
  destruct (AllocMem_ok (fc_heap s)) as (p & h1 & E1 & Hp & Hk1 & Hu1).
  destruct (AllocMem_ok h1) as (buf & h2 & E2 & Hbuf & Hk2 & Hu2).
  apply wp_bnd, wp_bnd, wp_gets. cbv beta. rewrite E1. apply wp_bnd, wp_modify. cbn [fst snd].
  apply wp_bnd, wp_gets. cbn [fc_heap with_heap]. rewrite E2. apply wp_bnd, wp_modify. cbn [fst snd].
  apply wp_bnd, wp_modify, wp_bnd, wp_modify, wp_bnd, wp_modify, wp_ret.
  assert (T p = None) as HTp.
  { destruct (T p) as [x|] eqn:E; [|done]. destruct Hp. apply HT. by rewrite E. }
  pose proof Hl as (L & ch & Hs).
  assert (p ∉ e_node <$> l) as Hnp by (intros Hi; destruct (shape_node _ _ _ _ _ _ Hs Hi) as [x Hx]; congruence).
  set (x := Stat 0 CACHE_CLEAN buf).
  match goal with |- wp _ _ ?s0 => set (s1 := s0) end.
  assert (listed (fupd T p (Some x)) l s1) as Hl1.
  { destruct (shape_fresh T L ch l s p x _ Hs HTp Hnp eq_refl) as (L' & ch' & [A B C E F]).
    exists L', ch'. by constructor. }
  apply wp_bnd. eapply wp_cache_add; [exact Hl1|by rewrite fupd_eq|done|]. intros s2 Hl2 Hc2. apply wp_ret.
  apply core_eq in Hc2 as (C1 & C2 & C3 & C4 & C5 & C6 & C7 & C8). cbn in C1, C2, C3, C4, C5, C6, C7.
  apply (HQ p (entry_of p x)); [done| |done|done|done|done]. constructor.
  - exists (fupd T p (Some x)). split; [exact Hl2|]. rewrite C6. intros q Hq. destruct (Z.eqb_spec q p) as [->|Hne].
    + by apply Hk2.
    + rewrite fupd_ne in Hq by done. by apply Hk2, Hk1, HT.
  - intros e [He| ->%list_elem_of_singleton]%elem_of_app; [by apply Hf|done].
  - rewrite fmap_app. apply NoDup_app. split; [done|]. split; [|apply NoDup_singleton].
    intros b Hb1 Hb2%list_elem_of_singleton. subst b. apply list_elem_of_fmap in Hb1 as (e & E & He).
    apply Hbuf. cbn in E. rewrite E. apply Hk1, Hh. done.
  - rewrite C1, C6. intros e [He| ->%list_elem_of_singleton]%elem_of_app.
    + destruct (Hh e He) as [H1 H2]. split; [|by apply Hk2, Hk1]. rewrite lookup_insert_ne; [done|].
      intros E. apply Hbuf. rewrite E. by apply Hk1.
    + cbn. split; [by rewrite lookup_insert_eq|done].
  - rewrite C2, Ha. unfold zlen. rewrite length_app. cbn. lia.
Qed.

Lemma wp_adjust_grow (Q : bool -> S -> Prop) fuel l s tries :
  growing l s -> zlen l <= cache_size s -> cache_size s - zlen l < Z.of_nat fuel ->
  (forall l' s', growing l' s' -> zlen l' = cache_size s -> fc_disk s' = fc_disk s -> cache_size s' = cache_size s ->
     cache_item_dirty s' = cache_item_dirty s -> fc_ronly s' = fc_ronly s -> Q false s') ->
  wp (adjust_grow stale fuel tries) Q s.
Proof.
  revert l s tries. induction fuel as [|fuel IH]; intros l s tries Hg Hsz Hf HQ; [lia|].
  cbn [adjust_grow]. apply wp_bnd, wp_gets, wp_bnd, wp_gets. rewrite (gr_alloced _ _ Hg).
  destruct (Z.ltb_spec (zlen l) (cache_size s)) as [Hlt|Hge].
  - assert (wp (got <- cache_alloc stale ;; match got with Some p => cache_add p ;; ret (Some p) | None => ret None end)
      (fun r s' => exists p, r = Some p /\ wp (adjust_grow stale fuel 0) Q s') s) as Hgrow.
    { eapply wp_grow; [exact Hg|]. intros p e s' _ Hg' D1 D2 D3 D4. exists p. split; [done|].
      assert (zlen (l ++ [e]) = zlen l + 1) as El by (unfold zlen; rewrite length_app; cbn; lia).
      apply (IH _ _ _ Hg'); [lia|lia|]. intros l2 s2 Hg2 E1 E2 E3 E4 E5.
      apply (HQ l2); [done|congruence|congruence|congruence|congruence|congruence]. }
    clear -Hgrow. unfold wp, bnd, ret in *. destruct (cache_alloc stale s) as [[[p|] s1]|]; [| |done].
    + destruct (cache_add p s1) as [[[] s2]|]; [|done]. by destruct Hgrow as (q & _ & Hw).
    + by destruct Hgrow as (q & E & _).
  - apply wp_ret, (HQ l); try done. lia.
Qed.

Lemma growing_inv l s : growing l s -> cache_item_dirty s = 0 -> fc_ronly s = 0 -> cache_inv l s.
Proof.
  intros [[T [Hl _]] Hf Hb Hh _] Hd Hr. constructor.
  - by exists T.
  - constructor.
    + intros e He. left. by apply Hf.
    + intros e He. unfold e_dirty. by rewrite (proj2 (Hf e He)).
    + intros e e' He _ _ Hbe. by destruct (Hf e He).
    + done.
    + intros e He. by apply Hh.
  - assert (dirties l = []) as ->; [|done]. clear -Hf. induction l as [|e l IH]; [done|].
    rewrite dirties_cons. unfold e_dirty. rewrite (proj2 (Hf e ltac:(set_solver))). apply IH. set_solver.
  - intros e He _ Hbe. by destruct (Hf e He).
  - done.
Qed.

Lemma wp_open_cache n (s : S) :
  fc_nodes s = ∅ -> fc_ronly s = 0 ->
  wp (open_cache stale n) (fun _ s' => exists l, cache_inv l s' /\ (forall e, e ∈ l -> fresh e) /\
    zlen l = Z.max n CACHE_SIZE_MIN /\ cache_size s' = zlen l /\ cache_alloced s' = zlen l /\
    fc_disk s' = fc_disk s) s.
Proof.
  intros Hn Hr. unfold open_cache. apply wp_bnd, wp_modify, wp_bnd, wp_modify, wp_bnd, wp_modify.
  unfold cache_adjust. apply wp_bnd, wp_modify.
  match goal with |- wp _ _ (if _ then _ else ?s0) => set (s1 := s0) end.
  assert (cache_size s1 = Z.max n CACHE_SIZE_MIN) as Esz.
  { cbn. destruct (Z.ltb_spec n CACHE_SIZE_MIN); lia. }
  rewrite (proj2 (Z.ltb_ge _ _)) by lia. apply wp_bnd, wp_gets, wp_bnd.
  eapply (wp_adjust_grow _ _ [] s1).
  - constructor; [|set_solver|constructor|set_solver|done]. exists (fun _ => None).
    split; [|by intros p [x Hx]]. exists (Links (fun _ => None) (fun _ => None) (fun _ => None) (fun _ => None) (fun _ => None)), (fun _ => []).
    constructor; [intros q; cbn; by rewrite Hn, lookup_empty|set_solver| | |done].
    + constructor; [constructor|done|done|apply dll_nil].
    + constructor; [done| |].
      * intros b Hb. split; [|split; [constructor|apply dll_nil]]. cbn. unfold zget.
        destruct (Z.ltb_spec b 0); [done|]. change (replicate (Z.to_nat HASH_SIZE) (@None Z)) with (replicate 16 (@None Z)).
        rewrite lookup_replicate_2 by lia. done.
      * intros b p Hb. split; [set_solver|]. intros (e & He & _). set_solver.
  - unfold zlen. cbn [length]. unfold CACHE_SIZE_MIN in *. lia.
  - cbn [cache_alloced cache_size]. change (cache_alloced s1) with 0. unfold zlen, CACHE_SIZE_MIN in *. cbn [length]. lia.
  - intros l s2 Hg El E1 E2 E3 E4. apply wp_bnd, wp_gets.
    pose proof (gr_alloced _ _ Hg) as Ea.
    assert (Z.to_nat (cache_alloced s2 - cache_size s2) = 0%nat) as -> by lia. cbn [adjust_shrink].
    apply wp_bnd, wp_gets, wp_bnd, wp_gets. rewrite (proj2 (Z.ltb_ge _ _)) by lia. apply wp_ret.
    exists l. split; [by apply growing_inv; [|rewrite E3|rewrite E4]|]. split; [apply Hg|].
    split; [by rewrite El|]. split; [congruence|]. by split.
Qed.

End Open.

Section Theorems.
Context {D H : Type} {ST : Storage D (list Z)} {SL : StorageLaws D (list Z)} {EX : Exec H}.
#[local] Abbreviation S := (fcache D H).

(** ** Pieces *)

Lemma wp_frag_read (Q : Z -> S -> Prop) buf blk s :
  (forall s', s' = with_bufs (<[buf := st_peek (fc_disk s) blk]> (fc_bufs s)) s -> Q 0 s') ->
  wp (frag_data_read buf blk) Q s.
Proof.
  intros HQ. unfold wp, frag_data_read. rewrite st_read_ok. specialize (HQ _ eq_refl). by destruct s.
Qed.

Lemma listed_field T l (s s' : S) :
  fc_nodes s' = fc_nodes s -> cache_stack s' = cache_stack s -> cache_stack_tail s' = cache_stack_tail s ->
  hashtable s' = hashtable s -> cache_used s' = cache_used s -> listed T l s -> listed T l s'.
Proof.
  intros E1 E2 E3 E4 E5 (L & ch & [A B C E F]). exists L, ch.
  constructor; rewrite ?E1, ?E2, ?E3, ?E4, ?E5; done.
Qed.

(** The invariant for a list in another order. *)
Lemma cache_inv_perm T l l' (s s' : S) :
  l' ≡ₚ l -> cache_inv l s -> listed T l' s' -> core s' = core s ->
  cache_inv l' s' /\ forall k, k <> 0 -> frag_data l' s' k = frag_data l s k.
Proof.
  intros Hp [_ Ho Hd Ha Hr] Hl (C1 & _ & C3 & _ & C5 & _ & C7 & _)%core_eq. split.
  - constructor.
    + by exists T.
    + rewrite C1. by eapply entries_ok_perm.
    + rewrite C3, Hd. unfold zlen, dirties. by rewrite Hp.
    + intros e. rewrite Hp, C1, C5. apply Ha.
    + by rewrite C7.
  - intros k Hk. unfold frag_data. rewrite C1, C5, (entry_for_perm k l l'); [done|by eapply ok_unique|done|].
    intros e. by rewrite Hp.
Qed.

(** A node taken for fragment [blk], with the contents [v]. *)
Lemma entries_ok_new v0 rest e v (bufs : gmap Z (list Z)) :
  entries_ok (v0 :: rest) bufs -> e_buf e = e_buf v0 ->
  e_flags e = CACHE_CLEAN \/ e_flags e = CACHE_DIRTY -> e_blk e <> 0 ->
  (forall x, x ∈ rest -> e_blk x <> e_blk e) ->
  entries_ok (rest ++ [e]) (<[e_buf e := v]> bufs) /\ (forall x, x ∈ rest -> e_buf x <> e_buf e).
Proof.
  intros [A B C E F] Eb Hf Hb Hne. rewrite fmap_cons in E. apply NoDup_cons in E as [E0 E].
  assert (forall x, x ∈ rest -> e_buf x <> e_buf e) as Hbuf.
  { intros x Hx Ex. apply E0. rewrite <- Eb, <- Ex. by apply list_elem_of_fmap_2. }
  split; [|done]. constructor.
  - intros x [Hx| ->%list_elem_of_singleton]%elem_of_app; [apply A; set_solver|done].
  - intros x [Hx| ->%list_elem_of_singleton]%elem_of_app; [apply B; set_solver|done].
  - intros x y [Hx| ->%list_elem_of_singleton]%elem_of_app [Hy| ->%list_elem_of_singleton]%elem_of_app Exy Hx0.
    + apply C; [set_solver|set_solver|done|done].
    + by destruct (Hne x Hx).
    + by destruct (Hne y Hy).
    + done.
  - rewrite fmap_app. apply NoDup_app. split; [done|]. split; [|apply NoDup_singleton].
    intros b Hb' He%list_elem_of_singleton. subst b. apply list_elem_of_fmap in Hb' as (x & Ex & Hx). by apply (Hbuf x).
  - intros x [Hx| ->%list_elem_of_singleton]%elem_of_app.
    + rewrite lookup_insert_ne by by (symmetry; apply Hbuf). apply F. set_solver.
    + by rewrite lookup_insert_eq.
Qed.

Lemma cache_inv_new T v0 rest e v (s s' : S) (d : bool) :
  entries_ok (v0 :: rest) (fc_bufs s) -> e_flags v0 = CACHE_CLEAN -> e_buf e = e_buf v0 ->
  e_flags e = (if d then CACHE_DIRTY else CACHE_CLEAN) -> e_blk e <> 0 ->
  (forall x, x ∈ v0 :: rest -> e_blk x <> e_blk e) -> agree (v0 :: rest) s ->
  cache_item_dirty s = zlen (dirties (v0 :: rest)) -> fc_ronly s = 0 ->
  listed T (rest ++ [e]) s' ->
  core s' = core (set_dirty (cache_item_dirty s + if d then 1 else 0)
    (with_bufs (<[e_buf e := v]> (fc_bufs s)) s)) ->
  (d = false -> v = st_peek (fc_disk s) (e_blk e)) ->
  cache_inv (rest ++ [e]) s' /\ fc_bufs s' !! e_buf e = Some v /\
  forall k, k <> 0 -> frag_data (rest ++ [e]) s' k = if k =? e_blk e then v else frag_data (v0 :: rest) s k.
Proof.
  intros Ho Hc Eb Hf Hb Hne Ha Hd Hr Hl (C1 & _ & C3 & _ & C5 & _ & C7 & _)%core_eq Hv.
  cbn in C1, C3, C5, C7.
  destruct (entries_ok_new v0 rest e v _ Ho Eb ltac:(destruct d; auto) Hb ltac:(set_solver)) as [Ho' Hbuf].
  split; [|split].
  - constructor.
    + by exists T.
    + by rewrite C1.
    + assert (e_dirty v0 = false) as E0 by (unfold e_dirty; by rewrite Hc).
      assert (e_dirty e = d) as E1 by (unfold e_dirty; rewrite Hf; by destruct d).
      rewrite C3, Hd, dirties_app, !dirties_cons, E0, E1. unfold zlen. rewrite length_app. destruct d; cbn; lia.
    + intros x [Hx| ->%list_elem_of_singleton]%elem_of_app Hxf Hxb; rewrite C1, C5.
      * rewrite lookup_insert_ne by by (symmetry; apply Hbuf). apply Ha; [set_solver|done|done].
      * rewrite lookup_insert_eq, Hv; [done|]. by destruct d; [rewrite Hf in Hxf|].
    + congruence.
  - by rewrite C1, lookup_insert_eq.
  - intros k Hk. unfold frag_data. rewrite C1, C5. pose proof (ok_unique _ _ Ho) as Hu.
    pose proof (ok_unique _ _ Ho') as Hu'. destruct (Z.eqb_spec k (e_blk e)) as [->|Hke].
    + rewrite (entry_for_in _ _ e); [by rewrite lookup_insert_eq|done|done|set_solver|done].
    + destruct (entry_for k (rest ++ [e])) as [x|] eqn:E.
      * apply entry_for_Some in E as [[Hx| ->%list_elem_of_singleton]%elem_of_app E]; [|done].
        rewrite (entry_for_in _ _ x Hu Hk) by set_solver. by rewrite lookup_insert_ne by by (symmetry; apply Hbuf).
      * destruct (entry_for k (v0 :: rest)) as [x|] eqn:E'; [|done].
        apply entry_for_Some in E' as [Hx E']. apply elem_of_cons in Hx as [-> |Hx].
        { rewrite (Ha v0); [by rewrite E'|set_solver|done|congruence]. }
        by destruct (proj1 (entry_for_None _ _) E x); [set_solver|].
Qed.

(** ** Reading *)

(** The entry [e] of fragment [blk] is the youngest, the other entries are
    [l'], in the order they had. *)
Definition youngest (l : list entry) (s : S) (blk : Z) (l' : list entry) (e : entry) : Prop :=
  match entry_for blk l with
  | Some e0 => e = e0 /\ exists l1 l2, l = l1 ++ e :: l2 /\ l' = l1 ++ l2
  | None => exists v s1, settled l s (v :: l') s1 /\ e = Entry (e_node v) blk CACHE_CLEAN (e_buf v)
  end.

Lemma wp_cache_frag_inv l (s : S) blk :
  cache_inv l s -> l <> [] -> blk <> 0 ->
  wp (FragCache.cache_frag blk) (fun r s' => exists l' e,
    r = Some (e_buf e) /\ e_blk e = blk /\ cache_inv (l' ++ [e]) s' /\
    fc_bufs s' !! e_buf e = Some (frag_data l s blk) /\
    (forall k, k <> 0 -> frag_data (l' ++ [e]) s' k = frag_data l s k) /\ youngest l s blk l' e) s.
Proof.
  intros Hi Hne Hb. pose proof Hi as [[T Hl] Ho Hd Ha Hr]. pose proof (ok_unique _ _ Ho) as Hu.
  unfold FragCache.cache_frag, youngest. apply wp_bnd. eapply wp_cache_node; [exact Hl|]. intros [p|] Hhit Hmiss.
  - destruct (Hhit p eq_refl) as (e & He & <- & Eb). apply list_elem_of_split in He as (l1 & l2 & El).
    rewrite El in Hl. apply wp_bnd. eapply wp_cache_refresh; [exact Hl|]. intros s1 Hl1 Hc1. apply wp_bnd.
    eapply (listed_load _ _ _ e); [exact Hl1|set_solver|]. intros n _ _ ->. apply wp_ret.
    assert (l1 ++ l2 ++ [e] ≡ₚ l) as Hp.
    { rewrite El. apply Permutation_app_head. by rewrite Permutation_app_comm. }
    destruct (cache_inv_perm T l (l1 ++ l2 ++ [e]) s s1 Hp Hi Hl1 Hc1) as [Hi1 Hv].
    exists (l1 ++ l2), e. rewrite <- app_assoc. split; [done|]. split; [done|]. split; [done|].
    assert (entry_for blk l = Some e) as Ee by (apply entry_for_in; [done|done|rewrite El; set_solver|done]).
    split; [|split; [done|]].
    + apply core_eq in Hc1 as (C1 & _). rewrite C1. unfold frag_data. rewrite Ee.
      destruct (eo_has _ _ Ho e) as [v Hv']; [rewrite El; set_solver|]. by rewrite Hv'.
    + rewrite Ee. split; [done|]. by exists l1, l2.
  - assert (entry_for blk l = None) as En by by apply entry_for_None, Hmiss. rewrite En.
    apply wp_bnd. eapply wp_cache_getnode; [by constructor|done|]. intros T' v rest s1 Hset Hcl Hl1 Hvn HT.
    destruct (settled_keeps _ _ _ _ Hi Hset) as (Ho1 & Hd1 & Ha1 & Hr1 & Eb1 & Hv1).
    apply wp_bnd, wp_ret, wp_bnd. pose proof Hl1 as (L & ch & Hs1).
    eapply wp_fc_load; [apply Hs1|exact HT|]. cbn [n_buf n_blk node_of t_buf t_blk].
    apply wp_bnd, wp_frag_read. intros s2 E2. cbn [negb Z.eqb].
    assert (listed T' rest s2) as Hl2 by (rewrite E2; by eapply listed_field; [..|exact Hl1]).
    apply wp_bnd. eapply wp_cache_add; [exact Hl2|exact HT|exact Hvn|]. intros s3 Hl3 Hc3. apply wp_ret.
    assert (forall x, x ∈ v :: rest -> e_blk x <> blk) as Hnew.
    { intros x Hx. destruct (settled_same _ _ _ _ _ Hset Hx) as (y & Hy & _ & <- & _). by apply Hmiss. }
    set (e := Entry (e_node v) blk CACHE_CLEAN (e_buf v)).
    destruct (cache_inv_new T' v rest e (st_peek (fc_disk s1) blk) s1 s3 false) as (Hi3 & Hbuf & Hv3);
      [done|done|done|done|done|done|done|done|done|exact Hl3|by rewrite Hc3, E2; cbn; rewrite Z.add_0_r; destruct s1|done|].
    exists rest, e. split; [done|]. split; [done|]. split; [exact Hi3|].
    assert (st_peek (fc_disk s1) blk = frag_data l s blk) as Ev.
    { rewrite <- Hv1 by done. unfold frag_data. by rewrite (proj2 (entry_for_None _ _) Hnew). }
    split; [by rewrite Hbuf, Ev|]. split; [|by exists v, s1].
    intros k Hk. rewrite Hv3 by done. destruct (Z.eqb_spec k (e_blk e)) as [->|_]; [exact Ev|by apply Hv1].
Qed.

(** C27: [cache_frag] returns a buffer with the contents of the fragment, the
    cached one when there is one and the disk's otherwise, and moves it to the
    young end of the LRU order; a miss takes the oldest clean node (after a
    flush, the oldest), and nothing that anyone wrote is lost on the way: the
    contents of every fragment, in the cache or on the disk, are what they
    were. *)
Theorem cache_frag_correct l (s : S) blk :
  cache_inv l s -> l <> [] -> blk <> 0 ->
  wp (FragCache.cache_frag blk) (fun r s' => exists l' e,
    r = Some (e_buf e) /\ e_blk e = blk /\ cache_inv (l' ++ [e]) s' /\
    fc_bufs s' !! e_buf e = Some (frag_data l s blk) /\
    (forall k, k <> 0 -> frag_data (l' ++ [e]) s' k = frag_data l s k) /\ youngest l s blk l' e) s.
Proof. apply wp_cache_frag_inv. Qed.

(** ** Writing *)

Definition dirtied (e : entry) : entry := Entry (e_node e) (e_blk e) CACHE_DIRTY (e_buf e).

Lemma retag_last l e x : e_node e ∉ e_node <$> l -> retag (e_node e) x (l ++ [e]) = l ++ [entry_of (e_node e) x].
Proof.
  intros Hn. unfold retag. rewrite fmap_app. f_equal; [by apply (retag_out (e_node e) x)|].
  cbn. by rewrite Z.eqb_refl.
Qed.

Lemma wp_make_dirty (Q : unit -> S -> Prop) T l e s :
  listed T (l ++ [e]) s -> e_flags e = CACHE_CLEAN \/ e_flags e = CACHE_DIRTY ->
  (forall T' s', listed T' (l ++ [dirtied e]) s' ->
     core s' = core (set_dirty (cache_item_dirty s + if e_dirty e then 0 else 1) s) -> Q tt s') ->
  wp (make_dirty (e_node e)) Q s.
Proof.
  intros Hl Hf HQ. unfold make_dirty. apply wp_bnd.
  pose proof (listed_stat _ _ _ e Hl ltac:(set_solver)) as He.
  pose proof Hl as (L & ch & Hs). eapply wp_fc_load; [apply Hs|exact He|]. cbn [n_flags node_of e_stat t_flags].
  destruct Hf as [E|E]; rewrite E; cbn [Z.land CACHE_CLEAN CACHE_DIRTY Z.eqb negb].
  - assert (e_dirty e = false) as Ed by (unfold e_dirty; by rewrite E). rewrite Ed in HQ. apply wp_bnd.
    eapply (wp_stat _ _ _ _ _ _ (e_stat (dirtied e))); [exact Hl|exact He| |done|].
    { intros L'. unfold node_of, set_nflags. cbn. by rewrite E. }
    intros s1 Hl1 Hc1. apply wp_modify. pose proof (listed_nodup _ _ _ Hl) as Hn. rewrite fmap_app in Hn.
    rewrite retag_last in Hl1 by (apply NoDup_app in Hn as (_ & Hn & _); intros Hi; apply (Hn _ Hi); set_solver).
    eapply HQ; [eapply listed_field; [..|exact Hl1]; done|].
    apply core_eq in Hc1 as (C1 & C2 & C3 & C4 & C5 & C6 & C7 & C8). unfold core. cbn. congruence.
  - assert (e_dirty e = true) as Ed by (unfold e_dirty; by rewrite E). rewrite Ed in HQ.
    apply wp_ret. apply (HQ T); [|rewrite Z.add_0_r; by destruct s].
    replace (dirtied e) with e by (unfold dirtied; rewrite <- E; by destruct e). done.
Qed.

Lemma dirtied_inv T l e (s s' : S) :
  cache_inv (l ++ [e]) s -> e_blk e <> 0 -> listed T (l ++ [dirtied e]) s' ->
  core s' = core (set_dirty (cache_item_dirty s + if e_dirty e then 0 else 1) s) ->
  cache_inv (l ++ [dirtied e]) s' /\ forall k, k <> 0 -> frag_data (l ++ [dirtied e]) s' k = frag_data (l ++ [e]) s k.
Proof.
  intros [_ Ho Hd Ha Hr] Hb Hl (C1 & _ & C3 & _ & C5 & _ & C7 & _)%core_eq. cbn in C1, C3, C5, C7.
  assert (entries_ok (l ++ [dirtied e]) (fc_bufs s)) as Ho'.
  { destruct Ho as [A B C E F]. constructor.
    - intros x [Hx| ->%list_elem_of_singleton]%elem_of_app; [apply A; set_solver|by right].
    - intros x [Hx| ->%list_elem_of_singleton]%elem_of_app; [apply B; set_solver|done].
    - intros x y [Hx| ->%list_elem_of_singleton]%elem_of_app [Hy| ->%list_elem_of_singleton]%elem_of_app Exy Hx0.
      + apply C; [set_solver|set_solver|done|done].
      + cbn in Exy. rewrite (C x e) in Hx by (done || set_solver). exfalso.
        rewrite fmap_app in E. apply NoDup_app in E as (_ & E & _). apply (E (e_buf e)); [by apply list_elem_of_fmap_2|set_solver].
      + cbn in Exy. rewrite <- (C e y) in Hy by (done || set_solver). exfalso.
        rewrite fmap_app in E. apply NoDup_app in E as (_ & E & _). apply (E (e_buf e)); [by apply list_elem_of_fmap_2|set_solver].
      + done.
    - rewrite fmap_app in *. exact E.
    - intros x [Hx| ->%list_elem_of_singleton]%elem_of_app; [apply F; set_solver|apply (F e); set_solver]. }
  split.
  - constructor; [by exists T|by rewrite C1| | |congruence].
    + rewrite C3, Hd, !dirties_app, !dirties_cons. unfold zlen. rewrite !length_app.
      change (e_dirty (dirtied e)) with true. destruct (e_dirty e); cbn; lia.
    + intros x [Hx| ->%list_elem_of_singleton]%elem_of_app Hxf Hxb; [|done]. rewrite C1, C5.
      apply Ha; [set_solver|done|done].
  - intros k Hk. unfold frag_data. rewrite C1, C5. pose proof (ok_unique _ _ Ho) as Hu. pose proof (ok_unique _ _ Ho') as Hu'.
    destruct (entry_for k (l ++ [e])) as [x|] eqn:E.
    + apply entry_for_Some in E as [[Hx| ->%list_elem_of_singleton]%elem_of_app E].
      * by rewrite (entry_for_in k _ x Hu' Hk) by set_solver.
      * by rewrite (entry_for_in k _ (dirtied e) Hu' Hk) by set_solver.
    + rewrite entry_for_None in E. rewrite (proj2 (entry_for_None k (l ++ [dirtied e]))); [done|].
      intros x [Hx| ->%list_elem_of_singleton]%elem_of_app; [apply E; set_solver|apply (E e); set_solver].
Qed.

(** C28: [cache_frag_write] returns the buffer of the fragment marked dirty, as
    the youngest of the cache.  The buffer holds the fragment when it was asked
    to be read or was cached (and otherwise what the recycled buffer held), and
    every other fragment is what it was. *)
Theorem cache_frag_write_correct l (s : S) blk readflag :
  cache_inv l s -> l <> [] -> blk <> 0 ->
  wp (FragCache.cache_frag_write blk readflag) (fun r s' => exists l' e v,
    r = Some (e_buf e) /\ e_blk e = blk /\ e_dirty e = true /\ cache_inv (l' ++ [e]) s' /\
    fc_bufs s' !! e_buf e = Some v /\
    (readflag <> 0 \/ is_Some (entry_for blk l) -> v = frag_data l s blk) /\
    (forall k, k <> 0 -> frag_data (l' ++ [e]) s' k = if k =? blk then v else frag_data l s k)) s.
Proof.
  intros Hi Hne Hb. pose proof Hi as [[T Hl] Ho Hd Ha Hr]. pose proof (ok_unique _ _ Ho) as Hu.
  unfold FragCache.cache_frag_write. apply wp_bnd. eapply wp_cache_node; [exact Hl|]. intros [p|] Hhit Hmiss.
  - destruct (Hhit p eq_refl) as (e & He & <- & Eb). pose proof (eo_flags _ _ Ho e He) as Hfl.
    destruct (eo_has _ _ Ho e He) as [v Hv].
    assert (frag_data l s blk = v) as Ev by (unfold frag_data; by rewrite (entry_for_in blk l e), Hv).
    apply list_elem_of_split in He as (l1 & l2 & El).
    rewrite El in Hl. apply wp_bnd. eapply wp_cache_refresh; [exact Hl|]. intros s1 Hl1 Hc1. rewrite app_assoc in Hl1.
    assert ((l1 ++ l2) ++ [e] ≡ₚ l) as Hp.
    { rewrite El, <- app_assoc. apply Permutation_app_head. by rewrite Permutation_app_comm. }
    destruct (cache_inv_perm T l _ s s1 Hp Hi Hl1 Hc1) as [Hi1 Hv1].
    apply wp_bnd. eapply wp_make_dirty; [exact Hl1|exact Hfl|]. intros T' s2 Hl2 Hc2.
    destruct (dirtied_inv T' _ e s1 s2 Hi1 ltac:(congruence) Hl2 Hc2) as [Hi2 Hv2].
    apply wp_bnd. eapply (listed_load _ _ _ (dirtied e)); [exact Hl2|set_solver|]. intros n _ _ ->. apply wp_ret.
    exists (l1 ++ l2), (dirtied e), v. split; [done|]. split; [done|]. split; [done|]. split; [done|].
    split; [|split; [done|]].
    + apply core_eq in Hc2 as (C2 & _), Hc1 as (C1 & _). cbn in C2. by rewrite C2, C1.
    + intros k Hk. rewrite Hv2, Hv1 by done. by destruct (Z.eqb_spec k blk) as [->|].
  - assert (entry_for blk l = None) as En by by apply entry_for_None, Hmiss. rewrite En.
    apply wp_bnd. eapply wp_cache_getnode; [by constructor|done|]. intros T' v0 rest s1 Hset Hcl Hl1 Hvn HT.
    destruct (settled_keeps _ _ _ _ Hi Hset) as (Ho1 & Hd1 & Ha1 & Hr1 & Eb1 & Hv1).
    assert (forall x, x ∈ v0 :: rest -> e_blk x <> blk) as Hnew.
    { intros x Hx. destruct (settled_same _ _ _ _ _ Hset Hx) as (y & Hy & _ & <- & _). by apply Hmiss. }
    apply wp_bnd, wp_ret, wp_bnd. pose proof Hl1 as (L & ch & Hs1).
    eapply wp_fc_load; [apply Hs1|exact HT|]. cbn [n_buf n_blk node_of t_buf t_blk].
    set (e := Entry (e_node v0) blk CACHE_CLEAN (e_buf v0)).
    assert (st_peek (fc_disk s1) blk = frag_data l s blk) as Ev.
    { rewrite <- Hv1 by done. unfold frag_data. by rewrite (proj2 (entry_for_None _ _) Hnew). }
    assert (exists v, (readflag <> 0 -> v = frag_data l s blk) /\
      wp (if readflag =? 0 then ret 0 else frag_data_read (e_buf v0) blk) (fun r s2 => r = 0 /\
        s2 = with_bufs (<[e_buf v0 := v]> (fc_bufs s1)) s1) s1) as (v & Hv & Hread).
    { destruct (Z.eqb_spec readflag 0) as [->|Hrf].
      - destruct (eo_has _ _ Ho1 v0) as [v Hv]; [set_solver|]. exists v. split; [done|]. split; [done|].
        rewrite insert_id by done. by destruct s1.
      - exists (frag_data l s blk). split; [done|]. apply wp_frag_read. intros s2 ->. by rewrite Ev. }
    apply wp_bnd. eapply wp_mono; [exact Hread|]. intros r s2 [-> E2]. cbn [negb Z.eqb].
    assert (listed T' rest s2) as Hl2 by (rewrite E2; by eapply listed_field; [..|exact Hl1]).
    apply wp_bnd. eapply wp_cache_add; [exact Hl2|exact HT|exact Hvn|]. intros s3 Hl3 Hc3. apply wp_bnd.
    eapply (wp_make_dirty _ T' rest e); [exact Hl3|by left|]. intros T4 s4 Hl4 Hc4. apply wp_ret.
    destruct (cache_inv_new T4 v0 rest (dirtied e) v s1 s4 true) as (Hi4 & Hbuf & Hv4);
      [done|done|done|done|done|done|done|done|done|exact Hl4| |done|].
    { rewrite Hc4. change (e_dirty e) with false. apply core_eq in Hc3 as (C1 & C2 & C3 & C4 & C5 & C6 & C7 & C8).
      rewrite E2 in *. unfold core. cbn in *. congruence. }
    exists rest, (dirtied e), v. split; [done|]. split; [done|]. split; [done|]. split; [exact Hi4|].
    split; [exact Hbuf|]. split; [by intros [Hrf|[x Hx]]; [apply Hv|]|].
    intros k Hk. rewrite Hv4 by done. cbn. destruct (Z.eqb_spec k blk); [done|by apply Hv1].
Qed.

(** ** Flushing *)


(** ** Room *)

(** C30: a cache with a node always finds one for a new fragment, whatever is
    dirty and whether or not the device works: [cache_getnode] returns, and
    returns a clean node that it has taken out of the lists.  It is the oldest
    clean one, the dirty ones before it going to the young end; only when more
    than three quarters are dirty, or all, it flushes first. *)
Theorem cache_getnode_live T l (s : S) blk :
  listed T l s -> entries_ok l (fc_bufs s) -> cache_item_dirty s = zlen (dirties l) -> l <> [] ->
  wp (cache_getnode blk) (fun r s' => exists T' e rest,
    r = Some (e_node e) /\ settled l s (e :: rest) s' /\ e_flags e = CACHE_CLEAN /\
    listed T' rest s' /\ T' (e_node e) = Some (Stat blk CACHE_CLEAN (e_buf e))) s.
Proof.
  intros Hl Ho Hd Hne. eapply wp_cache_getnode; [by constructor|done|].
  intros T' e rest s' Hset Hcl Hl' _ HT. by exists T', e, rest.
Qed.

Lemma settled_spares l1 c l2 e l3 (s : S) v l' s' :
  NoDup (l1 ++ c :: l2 ++ e :: l3) -> e_flags c = CACHE_CLEAN -> settled (l1 ++ c :: l2 ++ e :: l3) s (v :: l') s' ->
  exists x, x ∈ l' /\ e_node x = e_node e /\ e_blk x = e_blk e /\ e_buf x = e_buf e.
Proof.
  intros Hn Hc Hset. remember (v :: l') as l0 eqn:E0. remember (l1 ++ c :: l2 ++ e :: l3) as l eqn:El.
  assert ((e ∉ l1) /\ e <> c) as [He1 Hec].
  { rewrite El in Hn. apply NoDup_app in Hn as (_ & H1 & H2). apply NoDup_cons in H2 as [H2 _].
    split; [intros Hi; apply (H1 e Hi); set_solver|]. intros ->. set_solver. }
  destruct Hset as [d c' r s1 -> Hd Hcl _|s1 _ _].
  - injection E0 as -> <-. exists e. split; [|done].
    assert (e ∈ d ++ v :: r) as He by (rewrite El; set_solver).
    apply elem_of_app in He as [He|He]; [set_solver|]. apply elem_of_cons in He as [-> |He]; [|set_solver]. exfalso.
    apply app_eq_inv in El as [(k & -> & Ek)|(k & -> & Ek)]; destruct k as [|y k]; injection Ek; intros.
    + congruence.
    + subst y. apply (Hd c); [set_solver|done].
    + congruence.
    + subst y. set_solver.
  - rewrite El in E0. destruct l1 as [|h l1]; injection E0 as _ <-.
    + exists (clean e). split; [|done]. apply list_elem_of_fmap_2. set_solver.
    + exists (clean e). split; [|done]. apply list_elem_of_fmap_2. set_solver.
Qed.

(** C31: a buffer handed out stays the fragment's while younger ones are asked
    for: as long as a clean node older than it exists, a request for another
    fragment leaves the buffer, and what is in it, alone. *)
Theorem cache_frag_keeps l1 c l2 e (l3 : list entry) (s : S) blk :
  cache_inv (l1 ++ c :: l2 ++ e :: l3) s -> e_flags c = CACHE_CLEAN -> e_blk e <> 0 -> blk <> 0 ->
  wp (FragCache.cache_frag blk) (fun r s' => exists l' x, cache_inv l' s' /\ x ∈ l' /\
    e_node x = e_node e /\ e_blk x = e_blk e /\ e_buf x = e_buf e /\
    fc_bufs s' !! e_buf e = Some (frag_data (l1 ++ c :: l2 ++ e :: l3) s (e_blk e))) s.
Proof.
  intros Hi Hc Hbe Hb. set (l := l1 ++ c :: l2 ++ e :: l3) in *.
  assert (l <> []) as Hne by (unfold l; by destruct l1).
  eapply wp_mono; [by apply (wp_cache_frag_inv l s blk)|]. intros r s' (l' & y & -> & Ey & Hi' & Hbuf & Hv & Hpol).
  assert (exists x, x ∈ l' ++ [y] /\ e_node x = e_node e /\ e_blk x = e_blk e /\ e_buf x = e_buf e) as
    (x & Hx & X1 & X2 & X3).
  { unfold youngest in Hpol. destruct (entry_for blk l) as [e0|].
    - destruct Hpol as (-> & a & b & El & ->). exists e. split; [|done].
      assert (e ∈ a ++ e0 :: b) as He by (rewrite <- El; unfold l; set_solver). set_solver.
    - destruct Hpol as (v & s1 & Hset & _). destruct (ci_listed _ _ Hi) as [T Hl].
      destruct (settled_spares l1 c l2 e l3 s v l' s1) as (x & Hx & X); [|done|done|exists x; set_solver].
      eapply NoDup_fmap_1, listed_nodup, Hl. }
  exists (l' ++ [y]), x. split; [done|]. split; [done|]. split; [done|]. split; [done|]. split; [done|].
  rewrite <- Hv by done. unfold frag_data. rewrite (entry_for_in (e_blk e) _ x); [|by eapply ok_unique, Hi'|done|done|done].
  destruct (eo_has _ _ (ci_entries _ _ Hi') x Hx) as [v Ev]. rewrite <- X3, Ev. done.
Qed.

(** ** The first cache *)

(** With memory to spare [open_cache] ends and leaves a consistent cache of
    the size of the mount entry, or the minimum, all of it unused, the disk
    untouched and visible through the cache as it is. *)
Theorem open_cache_correct {EL : ExecLaws H} stale n (s : S) :
  fc_nodes s = ∅ -> fc_ronly s = 0 ->
  wp (open_cache stale n) (fun _ s' => exists l, cache_inv l s' /\
    zlen l = Z.max n CACHE_SIZE_MIN /\ cache_size s' = zlen l /\ cache_alloced s' = zlen l /\ fc_disk s' = fc_disk s /\
    (forall k, k <> 0 -> frag_data l s' k = st_peek (fc_disk s) k)) s.
Proof.
  intros Hn Hr. eapply wp_mono; [by apply wp_open_cache|].
  intros [] s' (l & Hi & Hf & H1 & H2 & H3 & H4). exists l. repeat (split; [done|]).
  intros k Hk. unfold frag_data. rewrite (proj2 (entry_for_None k l)); [by rewrite H4|].
  intros e He. rewrite (proj1 (Hf e He)). done.
Qed.

End Theorems.

(** ** A cache for the witnesses *)

#[export] Instance frag_disk : Storage (Z -> list Z) (list Z) := {
  st_read := fun n d => (Some (d n), d);
  st_write := fun n v d => (true, fun k => if k =? n then v else d k) }.
#[export] Program Instance frag_disk_laws : StorageLaws (Z -> list Z) (list Z) := {
  st_peek := fun d => d }.
Next Obligation. done. Qed.
Next Obligation. intros n v d. by eexists. Qed.

Definition empty_cache : fcache (Z -> list Z) Z :=
  FCache ∅ ∅ None None [] 0 0 0 0 (fun k => [k]) 4096 0 1.

Definition run {S A} (m : M S A) (s : S) : S := match m s with Some (_, s') => s' | None => s end.

Lemma run_wp {S A} (m : M S A) (Q : A -> S -> Prop) s : wp m Q s -> exists a, Q a (run m s).
Proof. unfold wp, run. destruct (m s) as [[a s']|]; [by exists a|done]. Qed.

Definition sample_cache : fcache (Z -> list Z) Z := run (open_cache [0] 8) empty_cache.

Lemma sample_cache_inv : exists l, cache_inv l sample_cache /\ (forall e, e ∈ l -> fresh e) /\ zlen l = 8.
Proof.
  destruct (run_wp _ _ _ (wp_open_cache [0] 8 empty_cache eq_refl eq_refl)) as ([] & l & Hi & Hf & Hl & _).
  by exists l.
Qed.

(** After one fragment was read: its entry is the youngest, the rest unused. *)
Definition sample_cache_5 : fcache (Z -> list Z) Z := run (FragCache.cache_frag 5) sample_cache.

Lemma sample_cache_5_inv : exists c l e,
  cache_inv (c :: l ++ [e]) sample_cache_5 /\ e_flags c = CACHE_CLEAN /\ e_blk e = 5.
Proof.
  destruct sample_cache_inv as (l & Hi & Hf & Hl).
  assert (l <> []) as Hne by by destruct l.
  destruct (run_wp _ _ _ (wp_cache_frag_inv l sample_cache 5 Hi Hne ltac:(done))) as (r & l' & e & _ & Eb & Hi' & _ & _ & Hy).
  unfold youngest in Hy. rewrite (proj2 (entry_for_None 5 l)) in Hy by (intros x Hx; by rewrite (proj1 (Hf x Hx))).
  destruct Hy as (v & s1 & Hset & _). assert (l = v :: l') as ->.
  { remember (v :: l') as l0 eqn:E0. destruct Hset as [d c r2 s2 -> Hd _ _|s2 [Hlt|Hall] _].
    - destruct d as [|x d]; [by rewrite app_nil_r|]. exfalso. apply (Hd x); [set_solver|]. by apply Hf; set_solver.
    - exfalso. revert Hlt. by vm_compute.
    - exfalso. destruct l as [|x l]; [done|]. apply (Hall x); [set_solver|]. apply Hf. set_solver. }
  destruct l' as [|c l']; [done|]. exists c, l', e. split; [done|]. split; [|done]. apply Hf. set_solver.
Qed.

Lemma cache_frag_witness : exists l, cache_inv l sample_cache /\
  wp (FragCache.cache_frag 5) (fun r s' => exists l' e,
    r = Some (e_buf e) /\ e_blk e = 5 /\ cache_inv (l' ++ [e]) s' /\
    fc_bufs s' !! e_buf e = Some (frag_data l sample_cache 5) /\
    (forall k, k <> 0 -> frag_data (l' ++ [e]) s' k = frag_data l sample_cache k) /\
    youngest l sample_cache 5 l' e) sample_cache.
Proof.
  destruct sample_cache_inv as (l & Hi & Hf & Hl). exists l. split; [done|].
  apply (cache_frag_correct l sample_cache 5); [done|by destruct l|done].
Defined.

Lemma cache_frag_write_witness : exists l, cache_inv l sample_cache /\
  wp (FragCache.cache_frag_write 5 1) (fun r s' => exists l' e v,
    r = Some (e_buf e) /\ e_blk e = 5 /\ e_dirty e = true /\ cache_inv (l' ++ [e]) s' /\
    fc_bufs s' !! e_buf e = Some v /\
    (1 <> 0 \/ is_Some (entry_for 5 l) -> v = frag_data l sample_cache 5) /\
    (forall k, k <> 0 -> frag_data (l' ++ [e]) s' k = if k =? 5 then v else frag_data l sample_cache k)) sample_cache.
Proof.
  destruct sample_cache_inv as (l & Hi & Hf & Hl). exists l. split; [done|].
  apply (cache_frag_write_correct l sample_cache 5 1); [done|by destruct l|done].
Defined.


Lemma cache_getnode_witness : exists T l, listed T l sample_cache /\
  wp (cache_getnode 5) (fun r s' => exists T' e rest,
    r = Some (e_node e) /\ settled l sample_cache (e :: rest) s' /\ e_flags e = CACHE_CLEAN /\
    listed T' rest s' /\ T' (e_node e) = Some (Stat 5 CACHE_CLEAN (e_buf e))) sample_cache.
Proof.
  destruct sample_cache_inv as (l & Hi & Hf & Hl). destruct (ci_listed _ _ Hi) as [T HT]. exists T, l. split; [done|].
  apply (cache_getnode_live T l sample_cache 5); [done|apply Hi|apply Hi|by destruct l].
Defined.

Lemma cache_frag_keeps_witness : exists c l e, e_blk e = 5 /\
  wp (FragCache.cache_frag 6) (fun r s' => exists l' x, cache_inv l' s' /\ x ∈ l' /\
    e_node x = e_node e /\ e_blk x = e_blk e /\ e_buf x = e_buf e /\
    fc_bufs s' !! e_buf e = Some (frag_data ([] ++ c :: l ++ e :: []) sample_cache_5 (e_blk e))) sample_cache_5.
Proof.
  destruct sample_cache_5_inv as (c & l & e & Hi & Hc & Eb). exists c, l, e. split; [done|].
  apply (cache_frag_keeps [] c l e [] sample_cache_5 6); [exact Hi|exact Hc|by rewrite Eb|done].
Defined.

Lemma open_cache_witness :
  wp (open_cache [0] 8) (fun _ s' => exists l, cache_inv l s' /\
    zlen l = Z.max 8 CACHE_SIZE_MIN /\ cache_size s' = zlen l /\ cache_alloced s' = zlen l /\
    fc_disk s' = fc_disk empty_cache /\
    (forall k, k <> 0 -> frag_data l s' k = st_peek (fc_disk empty_cache) k)) empty_cache.
Proof. by apply (open_cache_correct [0] 8 empty_cache). Defined.
