(* ===== verification/FileEnv.v ===== *)
(** The surroundings of the file layer: the interface [FileEnv] through
    which [inode.c], [file.c], [fread.c], [fwrite.c] and [dir.c] use the
    fragment cache, the device, the system's memory and the globals; the
    big endian access to memory; and the layout of the on-disk inode and of
    a directory entry.

    Memory is flat: an address is a [Z], [ld8] reads the byte there.  The
    buffers the cache hands out and the buffers of callers are areas of this
    memory, so that a pointer kept across cache operations reads whatever
    that memory holds by then. *)

From S2P Require Import Prelude Bitmap Superblock Cg CgStore Alloc.
Local Open Scope bffs_scope.

(** ** Globals of handler.c, file.c, inode.c and ufs.c *)

Record globals := Globals {
  Res2 : Z;                 (* global.Res2 *)
  Pinum : Z;                (* global.Pinum *)
  Poffset : Z;              (* global.Poffset *)
  linkname : option Z;
  read_link : Z;
  unix_paths : Z;
  resolve_symlinks : Z;
  case_dependent : Z;
  bsd44fs : Z;
  tranmask : Z;
  pfragshift : Z;
  pfragmask : Z;
  fblkshift : Z;
  fblkmask : Z;
  fs_lfmask : Z;
  level_buffer : list (option Z) }.

Definition set_Res2 (v : Z) (g : globals) : globals :=
  Globals v (Pinum g) (Poffset g) (linkname g) (read_link g) (unix_paths g)
    (resolve_symlinks g) (case_dependent g) (bsd44fs g) (tranmask g) (pfragshift g)
    (pfragmask g) (fblkshift g) (fblkmask g) (fs_lfmask g) (level_buffer g).
Definition set_Pinum (v : Z) (g : globals) : globals :=
  Globals (Res2 g) v (Poffset g) (linkname g) (read_link g) (unix_paths g)
    (resolve_symlinks g) (case_dependent g) (bsd44fs g) (tranmask g) (pfragshift g)
    (pfragmask g) (fblkshift g) (fblkmask g) (fs_lfmask g) (level_buffer g).
Definition set_Poffset (v : Z) (g : globals) : globals :=
  Globals (Res2 g) (Pinum g) v (linkname g) (read_link g) (unix_paths g)
    (resolve_symlinks g) (case_dependent g) (bsd44fs g) (tranmask g) (pfragshift g)
    (pfragmask g) (fblkshift g) (fblkmask g) (fs_lfmask g) (level_buffer g).
Definition set_linkname (v : option Z) (g : globals) : globals :=
  Globals (Res2 g) (Pinum g) (Poffset g) v (read_link g) (unix_paths g)
    (resolve_symlinks g) (case_dependent g) (bsd44fs g) (tranmask g) (pfragshift g)
    (pfragmask g) (fblkshift g) (fblkmask g) (fs_lfmask g) (level_buffer g).
Definition set_read_link (v : Z) (g : globals) : globals :=
  Globals (Res2 g) (Pinum g) (Poffset g) (linkname g) v (unix_paths g)
    (resolve_symlinks g) (case_dependent g) (bsd44fs g) (tranmask g) (pfragshift g)
    (pfragmask g) (fblkshift g) (fblkmask g) (fs_lfmask g) (level_buffer g).
Definition set_level_buffer (v : list (option Z)) (g : globals) : globals :=
  Globals (Res2 g) (Pinum g) (Poffset g) (linkname g) (read_link g) (unix_paths g)
    (resolve_symlinks g) (case_dependent g) (bsd44fs g) (tranmask g) (pfragshift g)
    (pfragmask g) (fblkshift g) (fblkmask g) (fs_lfmask g) v.

(** AmigaDOS error codes of dos/dos.h. *)
Definition ERROR_NO_FREE_STORE : Z := 103.
Definition ERROR_OBJECT_NOT_FOUND : Z := 205.
Definition ERROR_TOO_MANY_LEVELS : Z := 217.
Definition ERROR_DIRECTORY_NOT_EMPTY : Z := 216.
Definition ERROR_DISK_FULL : Z := 221.
Definition ERROR_IS_SOFT_LINK : Z := 233.

(** ** Memory *)

Class Memory (S : Type) := {
  ld8 : Z -> S -> Z;
  st8 : Z -> Z -> S -> S }.

Section Mem.
Context {S : Type} `{Memory S}.

Definition get16 (p : Z) (s : S) : Z := ld8 p s * 2 ^ 8 + ld8 (p + 1) s.
Definition get32 (p : Z) (s : S) : Z := get16 p s * 2 ^ 16 + get16 (p + 2) s.
Definition put16 (p v : Z) (s : S) : S := st8 (p + 1) (u8 v) (st8 p (u8 (Z.shiftr v 8)) s).
Definition put32 (p v : Z) (s : S) : S := put16 (p + 2) v (put16 p (Z.shiftr v 16) s).

(** [uint8_t], [uint16_t] and [uint32_t] behind a pointer, and the signed [long]. *)
Definition rd8 (p : Z) : M S Z := gets (ld8 p).
Definition rd16 (p : Z) : M S Z := gets (get16 p).
Definition rd32 (p : Z) : M S Z := gets (get32 p).
Definition rds32 (p : Z) : M S Z := gets (fun s => s32 (get32 p s)).
Definition wr8 (p v : Z) : M S unit := modify (st8 p (u8 v)).
Definition wr16 (p v : Z) : M S unit := modify (put16 p v).
Definition wr32 (p v : Z) : M S unit := modify (put32 p v).

Definition memset (p v n : Z) : M S unit := mfor (upto 0 n 1) (fun i => wr8 (p + i) v).

(** CopyMem and CopyMemQuick of exec.library between areas that do not
    overlap. *)
Definition CopyMem (from to n : Z) : M S unit :=
  mfor (upto 0 n 1) (fun i => v <- rd8 (from + i) ;; wr8 (to + i) v).

(** C strings.  A string argument that is only read is the list of its
    characters without the NUL. *)
Fixpoint strcpy (p : Z) (str : list Z) : M S unit :=
  match str with
  | [] => wr8 p 0
  | c :: str' => wr8 p c ;; strcpy (p + 1) str'
  end.

(** The string at [p]; one that is not ended within [fuel] characters runs
    out of its buffer. *)
Fixpoint c_str (fuel : nat) (p : Z) : M S (list Z) :=
  match fuel with
  | O => undef
  | Datatypes.S fuel =>
      c <- rd8 p ;;
      if c =? 0 then ret [] else str <- c_str fuel (p + 1) ;; ret (c :: str)
  end.

(** The first [n] characters of the string at [p]. *)
Fixpoint c_str_n (n : nat) (p : Z) : M S (list Z) :=
  match n with
  | O => ret []
  | Datatypes.S n =>
      c <- rd8 p ;;
      if c =? 0 then ret [] else str <- c_str_n n (p + 1) ;; ret (c :: str)
  end.

(** [strcmp(p, str) == 0]: stops at the first difference. *)
Fixpoint str_same (p : Z) (str : list Z) : M S bool :=
  match str with
  | [] => c <- rd8 p ;; ret (c =? 0)
  | a :: str' => c <- rd8 p ;; if c =? a then str_same (p + 1) str' else ret false
  end.

End Mem.

(** ** The interface

    A buffer the cache returns is [Some] address, or [None] for NULL.
    [data_read buf num size] and [data_write buf num size] return 0 on
    success.  [AllocMem] and [FreeMem] are exec.library's, [unix_time] reads
    the clock, [strnicmp] is the C library's, and [junk] is what an
    uninitialised local variable holds. *)

Class FileEnv (S : Type) := {
  fe_cg :: CgStore S;
  fe_globals : S -> globals;
  fe_set_globals : globals -> S -> S;
  fe_mem :: Memory S;
  cache_frag : Z -> M S (option Z);
  cache_available : Z -> M S (option Z);
  cache_frag_write : Z -> Z -> M S (option Z);
  cache_invalidate : Z -> M S unit;
  cache_frag_move : Z -> Z -> M S unit;
  data_read : Z -> Z -> Z -> M S Z;
  data_write : Z -> Z -> Z -> M S Z;
  AllocMem : Z -> M S (option Z);
  FreeMem : option Z -> Z -> M S unit;
  unix_time : M S Z;
  strnicmp : list Z -> list Z -> Z -> Z;
  junk : Z }.

Section Globals.
Context {S : Type} `{FileEnv S}.

Definition glob {A} (f : globals -> A) : M S A := gets (fun s => f (fe_globals s)).
Definition upd_glob (f : globals -> globals) : M S unit :=
  modify (fun s => fe_set_globals (f (fe_globals s)) s).
Definition FSIZE : M S Z := f <- superblock ;; ret (fs_fsize f).
Definition FBSIZE : M S Z := f <- superblock ;; ret (fs_bsize f).
Definition FRAGS_PER_BLK : M S Z := f <- superblock ;; ret (fs_frag f).

End Globals.

(** ** ufs/inode.h: struct icommon, 128 bytes *)

Definition NDADDR : Z := 12.
Definition NIADDR : Z := 3.
Definition sizeof_icommon : Z := 128.
Definition ic_mode (p : Z) : Z := p.
Definition ic_nlink (p : Z) : Z := p + 2.
Definition ic_size (p : Z) : Z := p + 12.        (* ic_size.val[1], IC_SIZE *)
Definition ic_atime (p : Z) : Z := p + 16.
Definition ic_mtime (p : Z) : Z := p + 24.
Definition ic_ctime (p : Z) : Z := p + 32.
Definition ic_db (p i : Z) : Z := p + 40 + 4 * i.
Definition ic_ib (p i : Z) : Z := p + 88 + 4 * i.
Definition ic_blocks (p : Z) : Z := p + 104.
Definition ic_gen (p : Z) : Z := p + 108.

Definition IFMT : Z := 0xf000.       (* 0170000 *)
Definition IFCHR : Z := 0x2000.      (* 0020000 *)
Definition IFDIR : Z := 0x4000.      (* 0040000 *)
Definition IFREG : Z := 0x8000.      (* 0100000 *)
Definition IFLNK : Z := 0xa000.      (* 0120000 *)
Definition IREAD : Z := 0x100.       (* 0400 *)
Definition IWRITE : Z := 0x80.       (* 0200 *)
Definition mode_755 : Z := 0x1ed.    (* 0755 *)

Definition I_DIR : Z := 0.
Definition I_FILE : Z := 1.

(** The macro (12 + 3) * 4 - 1 of ufs.h, in the comparisons it is used in. *)
Definition MAXSYMLINKLEN : Z := (12 + 3) * 4 - 1.

Section Icommon.
Context {S : Type} `{FileEnv S}.

Definition IC_SIZE (inode : Z) : M S Z := rds32 (ic_size inode).
Definition SET_IC_SIZE (inode size : Z) : M S unit := wr32 (ic_size inode) size.
Definition ADJUST_IC_SIZE (inode adjust : Z) : M S unit :=
  v <- rds32 (ic_size inode) ;; wr32 (ic_size inode) (v + adjust).
Definition ADJUST_IC_BLKS (inode adjust : Z) : M S unit :=
  v <- rds32 (ic_blocks inode) ;; wr32 (ic_blocks inode) (v + adjust).

End Icommon.

(** ** ufs/dir.h: struct direct *)

Definition DIRBLKSIZ : Z := 512.
Definition MAXNAMLEN : Z := 255.
Definition sizeof_direct : Z := 8 + (MAXNAMLEN + 1).
Definition d_ino (p : Z) : Z := p.
Definition d_reclen (p : Z) : Z := p + 4.
Definition d_type (p : Z) : Z := p + 6.
Definition d_namlen (p : Z) : Z := p + 7.
Definition d_name (p : Z) : Z := p + 8.

(** UFS_DIRECTSIZ: the bytes an entry with a name of [namlen] characters needs. *)
Definition UFS_DIRECTSIZ (namlen : Z) : Z :=
  (sizeof_direct - (MAXNAMLEN + 1)) + Z.land (namlen + 1 + 3) (Z.lnot 3).
