(* ===== verification/Inode.v ===== *)
(** [inode.c]: the block map of a file ([ridisk_frag], [cidisk_frag],
    [widisk_frag]), the inodes in the fragment cache ([inode_read],
    [inode_modify]) and their allocation ([inum_new], [inum_sane],
    [inum_free]).  Inode numbers are below 2^31, where the [int] and [ULONG]
    parameters of the code agree; a group buffer holds a cylinder group of
    the new format, so that cg_chkmagic succeeds. *)

From S2P Require Import Prelude Bitmap Superblock Cg CgStore Alloc FileEnv.
Local Open Scope bffs_scope.

(** ** The index path of a file block

    The loop that fills [ptrnum] and [fragno]: one pair for each level, the
    data level first.  [None] when more than NIADDR levels are needed, where
    the code writes beyond its arrays. *)
Fixpoint index_path (fuel : nat) (gl : globals) (level ind : Z) : option (list (Z * Z)) :=
  match fuel with
  | O => None
  | Datatypes.S fuel =>
      let ind := if level =? 0 then ind else s32 (ind - 1) in
      let ptrnum := Z.land ind (pfragmask gl) in
      let ind := Z.shiftr ind (pfragshift gl) in
      let fragno := Z.land ind (fblkmask gl) in
      let ind := Z.shiftr ind (fblkshift gl) in
      if 0 <? ind then
        match index_path fuel gl (level + 1) ind with
        | None => None
        | Some path => Some ((ptrnum, fragno) :: path)
        end
      else Some [(ptrnum, fragno)]
  end.

(** [file_blk_num - NDADDR] as an [int]. *)
Definition block_ind (file_blk_num : Z) : Z := s32 (u32 (file_blk_num - NDADDR)).

Section InodeAlloc.
Context {S : Type} `{CgStore S}.

(** ** Inode accounting *)

Definition adjust_nifree (s : fs) (mycg : cg) (cgx adjust : Z) : fs * cg :=
  let mycg := set_cs mycg (csum_add_nifree (cg_cs mycg) adjust) in
  let s := set_csp s (zset (fs_csp s) cgx (csum_add_nifree (zget (fs_csp s) cgx) adjust)) in
  let s := set_cstotal s (csum_add_nifree (fs_cstotal s) adjust) in
  let s := if fs_updated s
           then set_new_cstotal s (csum_add_nifree (fs_new_cstotal s) adjust) else s in
  (fmod_inc s, mycg).

Definition adjust_ndir (s : fs) (mycg : cg) (cgx adjust : Z) : fs * cg :=
  let mycg := set_cs mycg (csum_add_ndir (cg_cs mycg) adjust) in
  let s := set_csp s (zset (fs_csp s) cgx (csum_add_ndir (zget (fs_csp s) cgx) adjust)) in
  let s := set_cstotal s (csum_add_ndir (fs_cstotal s) adjust) in
  let s := if fs_updated s
           then set_new_cstotal s (csum_add_ndir (fs_new_cstotal s) adjust) else s in
  (s, mycg).

(** ** inum_new *)

Definition no_inodes (f : fs) : bool :=
  if fs_updated f then cs_nifree (fs_new_cstotal f) =? 0
  else cs_nifree (fs_cstotal f) =? 0.

(** The group for a directory: the first one with the most free inodes among
    those that have free space; [best] is the pair of ifree and cgx. *)
Fixpoint most_inodes (csp : list csum) (l : list Z) (best : Z * Z) : Z * Z :=
  match l with
  | [] => best
  | index :: l =>
      let c := zget csp index in
      let temp := u32 (cs_nifree c) in
      most_inodes csp l
        (if (best.1 <? temp) && (negb (cs_nbfree c =? 0) || negb (cs_nffree c =? 0))
         then (temp, index) else best)
  end.

(** The group for a file when the parent's has no inode left: the next one
    up, else the next one down. *)
Definition other_group (f : fs) (cgx : Z) : option Z :=
  let has (index : Z) := negb (cs_nifree (zget (fs_csp f) index) =? 0) in
  match find_first has (upto cgx (fs_ncg f) 1) with
  | Some index => Some index
  | None => find_first has (downto (cgx - 1) 0 1)
  end.

(** The free inode of a group from the rotor on, then from the start.  In
    group 0 the search starts at inode 3. *)
Definition free_inode (c : cg) (cgx : Z) : option Z :=
  let first := if cgx =? 0 then 3 else 0 in
  let inum := if cg_irotor c <? cg_niblk c then cg_irotor c else 0 in
  let inum := if inum =? 0 then first else inum in
  let clear (i : Z) := bit_chk (cg_inosused c) i =? 0 in
  match find_first clear (upto inum (cg_niblk c) 1) with
  | Some i => Some i
  | None => find_first clear (upto first inum 1)
  end.

(** The choice of the group: [None] when the totals are inconsistent. *)
Definition inum_group (f : fs) (c : cg) (cgx type : Z) : option Z :=
  if type =? I_DIR then
    let best := most_inodes (fs_csp f) (upto 0 (fs_ncg f) 1) (0, cgx) in
    if best.1 =? 0 then None else Some best.2
  else if cs_nifree (cg_cs c) =? 0 then other_group f cgx
  else Some cgx.

Definition inum_take (cgx inum type : Z) : M S Z :=
  mycg <- cache_cg_write cgx ;;
  match mycg with
  | None => ret 0
  | Some mycg =>
      upd_cg mycg (fun c => set_irotor c inum) ;;
      upd_cg mycg (fun c => set_inosused c (bit_set (cg_inosused c) inum)) ;;
      upd_both mycg (fun f c => adjust_nifree f c cgx (-1)) ;;
      (if type =? I_DIR then upd_both mycg (fun f c => adjust_ndir f c cgx 1) else ret tt) ;;
      f <- superblock ;;
      ret (s32 (inum + cgx * fs_ipg f))
  end.

Definition inum_new (parent type : Z) : M S Z :=
  f <- superblock ;;
  if no_inodes f then ret 0
  else if u32 (fs_ipg f * fs_ncg f) <? u32 parent then ret 0
  else
    let cgx := itog f parent in
    mycg <- cache_cg cgx ;;
    p <- deref mycg ;;
    c <- load_cg p ;;
    f <- superblock ;;
    match inum_group f c cgx type with
    | None => set_readonly ;; ret 0
    | Some index =>
        (* the group is fetched again unless it is the parent's by the last branch *)
        mycg <- (if (type =? I_DIR) || (cs_nifree (cg_cs c) =? 0)
                 then cache_cg index else ret mycg) ;;
        p <- deref mycg ;;
        c <- load_cg p ;;
        match free_inode c index with
        | None => set_readonly ;; ret 0
        | Some inum => inum_take index inum type
        end
    end.

End InodeAlloc.

Section Inode.
Context {S : Type} `{FileEnv S}.

Definition inode_addr (f : fs) (inum : Z) : Z := u32 (itod f inum + itodo f inum).

Definition inode_read (inum : Z) : M S (option Z) :=
  let inum := if inum =? 0 then 2 else inum in
  f <- superblock ;;
  buf <- cache_frag (inode_addr f inum) ;;
  match buf with
  | None => ret None
  | Some buf => ret (Some (buf + sizeof_icommon * itofo f inum))
  end.

Definition inode_modify (inum : Z) : M S (option Z) :=
  let inum := if inum =? 0 then 2 else inum in
  f <- superblock ;;
  buf <- cache_frag_write (inode_addr f inum) 1 ;;
  match buf with
  | None => ret None
  | Some buf => ret (Some (buf + sizeof_icommon * itofo f inum))
  end.

Definition path_of (ind : Z) : M S (list (Z * Z)) :=
  gl <- glob id ;; deref (index_path (Z.to_nat NIADDR) gl 0 ind).

(** The descent of ridisk_frag, from the top level down. *)
Fixpoint ridisk_walk (path : list (Z * Z)) (curblk : Z) : M S Z :=
  match path with
  | [] => ret curblk
  | (ptrnum, fragno) :: path =>
      temp <- cache_frag (u32 (curblk + fragno)) ;;
      match temp with
      | None => ret 0
      | Some temp =>
          curblk <- rd32 (temp + 4 * ptrnum) ;;
          if curblk =? 0 then ret 0 else ridisk_walk path curblk
      end
  end.

Definition ridisk_frag (file_frag_num inum : Z) : M S Z :=
  inode <- inode_read inum ;;
  match inode with
  | None => ret 0
  | Some inode =>
      FPB <- FRAGS_PER_BLK ;;
      let file_blk_num := file_frag_num / FPB in
      let frac := file_frag_num - file_blk_num * FPB in
      let ind := block_ind file_blk_num in
      curblk <- (if ind <? 0 then rd32 (ic_db inode file_blk_num)
                 else
                   path <- path_of ind ;;
                   curblk <- rd32 (ic_ib inode (zlen path - 1)) ;;
                   if curblk =? 0 then ret 0 else ridisk_walk (rev path) curblk) ;;
      if curblk =? 0 then ret 0 else ret (u32 (curblk + frac))
  end.

(** ** Index blocks *)

Fixpoint erase_loop (l : list Z) (fsblock : Z) : M S unit :=
  match l with
  | [] => ret tt
  | index :: l =>
      ptr <- cache_frag_write (u32 (fsblock + index)) 0 ;;
      match ptr with
      | None => ret tt
      | Some ptr => fsize <- FSIZE ;; memset ptr 0 fsize ;; erase_loop l fsblock
      end
  end.

Definition block_erase (fsblock : Z) : M S unit :=
  FPB <- FRAGS_PER_BLK ;; erase_loop (upto 0 FPB 1) fsblock.

(** The last value assigned to [prev_frag] by the search loop. *)
Fixpoint prev_loop (l : list Z) (inum prev_frag : Z) : M S Z :=
  match l with
  | [] => ret prev_frag
  | index :: l =>
      prev_frag <- ridisk_frag index inum ;;
      if negb (prev_frag =? 0) then ret prev_frag else prev_loop l inum prev_frag
  end.

(** For fragment 0 the loop does not run and [prev_frag] is not initialised. *)
Definition prev_frag_addr (file_frag_num inum : Z) : M S Z :=
  prev_frag <- prev_loop (downto (s32 (file_frag_num - 1)) 0 1) inum junk ;;
  if prev_frag =? 0 then f <- superblock ;; ret (itod f inum) else ret prev_frag.

(** ** cidisk_frag: 0, or 1 on failure *)

Fixpoint cidisk_walk (path : list (Z * Z)) (curblk inum newblk : Z) : M S Z :=
  match path with
  | [] => ret 0
  | [(ptrnum, fragno)] =>                       (* level = 0 *)
      temp <- cache_frag_write (u32 (curblk + fragno)) 1 ;;
      match temp with
      | None => ret 1
      | Some temp => wr32 (temp + 4 * ptrnum) newblk ;; ret 0
      end
  | (ptrnum, fragno) :: path =>
      let ocurblk := curblk in
      temp <- cache_frag (u32 (curblk + fragno)) ;;
      match temp with
      | None => ret 1
      | Some temp =>
          curblk <- rd32 (temp + 4 * ptrnum) ;;
          if negb (curblk =? 0) then cidisk_walk path curblk inum newblk
          else
            curblk <- block_allocate ocurblk ;;
            if curblk =? 0 then ret 1
            else
              block_erase curblk ;;
              inode <- inode_modify inum ;;
              match inode with
              | None => ret 1
              | Some inode =>
                  f <- superblock ;;
                  ADJUST_IC_BLKS inode (NDSPB f) ;;
                  temp <- cache_frag_write (u32 (ocurblk + fragno)) 1 ;;
                  match temp with
                  | None => ret 1
                  | Some temp =>
                      wr32 (temp + 4 * ptrnum) curblk ;;
                      cidisk_walk path curblk inum newblk
                  end
              end
      end
  end.

Definition cidisk_frag (file_frag_num inum newblk : Z) : M S Z :=
  inode <- inode_read inum ;;
  match inode with
  | None => ret 0
  | Some inode =>
      FPB <- FRAGS_PER_BLK ;;
      let file_blk_num := file_frag_num / FPB in
      let ind := block_ind file_blk_num in
      if ind <? 0 then
        inode <- inode_modify inum ;;
        match inode with
        | None => ret 1
        | Some inode => wr32 (ic_db inode file_blk_num) newblk ;; ret 0
        end
      else
        path <- path_of ind ;;
        curblk <- rd32 (ic_ib inode (zlen path - 1)) ;;
        if negb (curblk =? 0) then cidisk_walk (rev path) curblk inum newblk
        else
          prev_frag <- prev_frag_addr file_frag_num inum ;;
          curblk <- block_allocate prev_frag ;;
          if curblk =? 0 then ret 1
          else
            block_erase curblk ;;
            inode <- inode_modify inum ;;
            match inode with
            | None => ret 1
            | Some inode =>
                f <- superblock ;;
                wr32 (ic_ib inode (zlen path - 1)) curblk ;;
                ADJUST_IC_BLKS inode (NDSPB f) ;;
                cidisk_walk (rev path) curblk inum newblk
            end
  end.

(** ** widisk_frag: the fragment address, or 0 *)

(** The descent that fills holes; 0 stands for the early returns of 0. *)
Fixpoint widisk_walk (path : list (Z * Z)) (curblk inum prev_frag : Z) : M S Z :=
  match path with
  | [] => ret curblk
  | (ptrnum, fragno) :: path =>
      let ocurblk := curblk in
      temp <- cache_frag (u32 (curblk + fragno)) ;;
      match temp with
      | None => ret 0
      | Some temp =>
          curblk <- rd32 (temp + 4 * ptrnum) ;;
          if negb (curblk =? 0) then widisk_walk path curblk inum prev_frag
          else
            curblk <- block_allocate prev_frag ;;
            if curblk =? 0 then ret 0
            else
              temp <- cache_frag_write (u32 (ocurblk + fragno)) 1 ;;
              match temp with
              | None => ret 0
              | Some temp =>
                  wr32 (temp + 4 * ptrnum) curblk ;;
                  inode <- inode_modify inum ;;
                  match inode with
                  | None => ret 0
                  | Some inode =>
                      f <- superblock ;;
                      ADJUST_IC_BLKS inode (NDSPB f) ;;
                      (match path with [] => ret tt | _ :: _ => block_erase curblk end) ;;
                      widisk_walk path curblk inum prev_frag
                  end
              end
      end
  end.

(** A direct block: the address in the inode, allocated when it is a hole. *)
Definition widisk_direct (inode file_frag_num file_blk_num inum : Z) : M S Z :=
  curblk <- rd32 (ic_db inode file_blk_num) ;;
  if negb (curblk =? 0) then ret curblk
  else
    prev_frag <- prev_frag_addr file_frag_num inum ;;
    curblk <- block_allocate prev_frag ;;
    if curblk =? 0 then ret 0
    else
      inode <- inode_modify inum ;;
      match inode with
      | None => ret 0
      | Some inode =>
          f <- superblock ;;
          ADJUST_IC_BLKS inode (NDSPB f) ;;
          wr32 (ic_db inode file_blk_num) curblk ;;
          ret curblk
      end.

(** The top index block and [prev_frag]; [None] for the early returns. *)
Definition widisk_top (inode level file_frag_num inum : Z) : M S (option (Z * Z)) :=
  curblk <- rd32 (ic_ib inode (level - 1)) ;;
  if negb (curblk =? 0) then ret (Some (curblk, 0))
  else
    prev_frag <- prev_frag_addr file_frag_num inum ;;
    curblk <- block_allocate prev_frag ;;
    if curblk =? 0 then ret None
    else
      inode <- inode_modify inum ;;
      match inode with
      | None => ret None
      | Some inode =>
          f <- superblock ;;
          ADJUST_IC_BLKS inode (NDSPB f) ;;
          wr32 (ic_ib inode (level - 1)) curblk ;;
          block_erase curblk ;;
          ret (Some (curblk, prev_frag))
      end.

Definition widisk_frag (file_frag_num inum : Z) : M S Z :=
  inode <- inode_read inum ;;
  match inode with
  | None => ret 0
  | Some inode =>
      FPB <- FRAGS_PER_BLK ;;
      let file_blk_num := file_frag_num / FPB in
      let frac := file_frag_num - file_blk_num * FPB in
      let ind := block_ind file_blk_num in
      curblk <- (if ind <? 0 then widisk_direct inode file_frag_num file_blk_num inum
                 else
                   path <- path_of ind ;;
                   top <- widisk_top inode (zlen path) file_frag_num inum ;;
                   match top with
                   | None => ret 0
                   | Some (curblk, prev_frag) =>
                       prev_frag <- (if prev_frag =? 0 then prev_frag_addr file_frag_num inum
                                     else ret prev_frag) ;;
                       widisk_walk (rev path) curblk inum prev_frag
                   end) ;;
      if curblk =? 0 then ret 0 else ret (u32 (curblk + frac))
  end.

(** ** inum_sane, inum_free *)

Definition inum_sane (inum type : Z) : M S unit :=
  inode <- inode_modify inum ;;
  match inode with
  | None => ret tt
  | Some inode =>
      gen <- rds32 (ic_gen inode) ;;
      memset inode 0 sizeof_icommon ;;
      (if type =? I_DIR then
         wr16 (ic_mode inode) (Z.lor IFDIR mode_755) ;; wr16 (ic_nlink inode) 2
       else
         wr16 (ic_mode inode) (Z.lor IFREG mode_755) ;; wr16 (ic_nlink inode) 1) ;;
      wr32 (ic_gen inode) (gen + 1) ;;
      timeval <- unix_time ;;
      wr32 (ic_mtime inode) timeval ;;
      wr32 (ic_atime inode) timeval ;;
      wr32 (ic_ctime inode) timeval
  end.

Definition inum_free (inum : Z) : M S unit :=
  inode <- inode_modify inum ;;
  match inode with
  | None => ret tt
  | Some inode =>
      f <- superblock ;;
      let cgx := itog f inum in
      mycg <- cache_cg_write cgx ;;
      match mycg with
      | None => ret tt
      | Some mycg =>
          f <- superblock ;;
          upd_cg mycg (fun c => set_irotor c (inum mod fs_ipg f)) ;;
          upd_cg mycg (fun c => set_inosused c (bit_clr (cg_inosused c) (cg_irotor c))) ;;
          upd_both mycg (fun f c => adjust_nifree f c cgx 1) ;;
          mode <- rd16 (ic_mode inode) ;;
          (if Z.land mode IFMT =? IFDIR
           then upd_both mycg (fun f c => adjust_ndir f c cgx (-1)) else ret tt) ;;
          gen <- rd32 (ic_gen inode) ;;
          memset inode 0 sizeof_icommon ;;
          wr32 (ic_gen inode) gen
      end
  end.

Definition is_writable (inum : Z) : M S Z :=
  inode <- inode_read inum ;;
  match inode with
  | None => ret 0
  | Some inode => mode <- rd16 (ic_mode inode) ;; ret (Z.land mode IWRITE)
  end.

Definition is_readable (inum : Z) : M S Z :=
  inode <- inode_read inum ;;
  match inode with
  | None => ret 0
  | Some inode => mode <- rd16 (ic_mode inode) ;; ret (Z.land mode IREAD)
  end.

End Inode.
