(* ===== verification/FileAlloc.v ===== *)
(** The space of a file, the allocating half of [file.c]:
    [file_deallocate], [file_blocks_add], [file_block_extend],
    [file_blocks_deallocate], [file_block_retract], [file_frag_expand] and
    [symlink_delete]. *)

From S2P Require Import Prelude Bitmap Superblock Cg CgStore Alloc FileEnv Inode.
Local Open Scope bffs_scope.

(** The macros fragroundup and numfrags composed: fragments that hold [size] bytes. *)
Definition size_frags (f : fs) (gl : globals) (size : Z) : Z :=
  Z.shiftr (Z.land (u32 (size + fs_fsize f - 1)) (Z.lnot (fs_lfmask gl))) (fs_fshift f).

Section FileAlloc.
Context {S : Type} `{FileEnv S}.

(** An [inode_modify] whose result the code follows without a check. *)
Definition inode_modify_ptr (inum : Z) : M S Z := inode <- inode_modify inum ;; deref inode.

(** ** iblock_deallocate: the number of blocks below an index block, freed *)

Definition level_buf (level : Z) : M S Z :=
  lb <- glob level_buffer ;; deref (zget lb level).

Fixpoint iblock_deallocate (level : nat) (fragaddr : Z) : M S Z :=
  f <- superblock ;;
  mfor (upto 0 (fs_frag f) 1) (fun index => cache_invalidate (u32 (fragaddr + index))) ;;
  buf <- level_buf (Z.of_nat level) ;;
  failed <- data_read buf fragaddr (fs_bsize f) ;;
  if negb (failed =? 0) then set_readonly ;; ret 0
  else
    mfold (upto 0 (fs_nindir f) 1) 0 (fun index deallocated =>
      iblock <- rd32 (buf + 4 * index) ;;
      if iblock =? 0 then ret deallocated
      else
        sub <- (match level with
                | O => ret 0
                | Datatypes.S below => iblock_deallocate below iblock
                end) ;;
        block_deallocate iblock ;;
        ret (s32 (deallocated + sub + 1))).

(** ** file_deallocate: 0, or 1 on failure *)

(** The partial block at the end of a small file. *)
Definition tail_deallocate (inode inum : Z) : M S unit :=
  f <- superblock ;;
  gl <- glob id ;;
  size <- IC_SIZE inode ;;
  let totfrags := size_frags f gl size in
  if totfrags / fs_frag f <? NDADDR then
    let ffrags := fragnum f totfrags in
    block <- ridisk_frag (u32 (totfrags - ffrags)) inum ;;
    inode <- inode_modify inum ;;
    if negb (ffrags =? 0) && negb (block =? 0) then
      inode <- deref inode ;;
      wr32 (ic_db inode (totfrags / fs_frag f)) 0 ;;
      frags_deallocate block ffrags
    else ret tt
  else ret tt.

(** The direct blocks; the result is the last inode pointer. *)
Definition direct_deallocate (inode inum : Z) : M S Z :=
  mfold (upto 0 NDADDR 1) inode (fun index inode =>
    db <- rd32 (ic_db inode index) ;;
    if db =? 0 then ret inode
    else
      block_deallocate db ;;
      inode <- inode_modify_ptr inum ;;
      wr32 (ic_db inode index) 0 ;;
      ret inode).

(** The loop over the index trees; the result is rc. *)
Fixpoint trees_deallocate (l : list (Z * Z)) : M S Z :=
  match l with
  | [] => ret 0
  | (index, ib) :: l =>
      f <- superblock ;;
      buf <- AllocMem (fs_bsize f) ;;
      upd_glob (fun gl => set_level_buffer (zset (level_buffer gl) index buf) gl) ;;
      match buf with
      | None => ret 1
      | Some _ =>
          (if negb (ib =? 0) then
             iblock_deallocate (Z.to_nat index) ib ;; block_deallocate ib
           else ret tt) ;;
          trees_deallocate l
      end
  end.

(** Freeing the buffers of the index levels. *)
Definition free_levels : M S unit :=
  mfor (upto 0 NIADDR 1) (fun index =>
    f <- superblock ;;
    lb <- glob level_buffer ;;
    match zget lb index with
    | None => ret tt
    | Some buf =>
        FreeMem (Some buf) (fs_bsize f) ;;
        upd_glob (fun gl => set_level_buffer (zset (level_buffer gl) index None) gl)
    end).

(** [ibs]: the index blocks of the inode, in order, each cleared when read. *)
Fixpoint take_ibs (l : list Z) (inode : Z) : M S (list (Z * Z)) :=
  match l with
  | [] => ret []
  | index :: l =>
      ib <- rd32 (ic_ib inode index) ;;
      wr32 (ic_ib inode index) 0 ;;
      ibs <- take_ibs l inode ;;
      ret ((index, ib) :: ibs)
  end.

Definition file_deallocate (inum : Z) : M S Z :=
  inode <- inode_modify inum ;;
  match inode with
  | None => ret 1
  | Some inode =>
      tail_deallocate inode inum ;;
      inode <- inode_modify_ptr inum ;;
      inode <- direct_deallocate inode inum ;;
      ibs <- take_ibs (upto 0 NIADDR 1) inode ;;
      rc <- trees_deallocate ibs ;;
      free_levels ;;
      ret rc
  end.

(** ** file_blocks_add: the number of blocks added *)

Fixpoint add_loop (l : list Z) (inum startfrag prev_frag blocks : Z) : M S Z :=
  match l with
  | [] => ret blocks
  | index :: l =>
      there <- ridisk_frag startfrag inum ;;
      if negb (there =? 0) then add_loop l inum startfrag prev_frag blocks
      else
        blockgot <- block_allocate prev_frag ;;
        if blockgot =? 0 then ret index
        else
          f <- superblock ;;
          inode <- inode_modify_ptr inum ;;
          ADJUST_IC_BLKS inode (NDSPB f) ;;
          cidisk_frag startfrag inum blockgot ;;
          add_loop l inum (u32 (startfrag + fs_frag f)) blockgot blocks
  end.

Definition file_blocks_add (inode inum startfrag blocks : Z) : M S Z :=
  prev_frag <- prev_loop (downto (startfrag - 1) 0 1) inum 0 ;;
  f <- superblock ;;
  let prev_frag := if prev_frag =? 0 then itod f inum else prev_frag in
  mycg <- cache_cg_write (dtog f prev_frag) ;;
  match mycg with
  | None => ret 0
  | Some _ => add_loop (upto 0 blocks 1) inum startfrag prev_frag blocks
  end.

(** ** file_block_extend *)

(** Moving [count] fragments of data in the cache. *)
Definition move_frags (to_ from count : Z) : M S unit :=
  mfor (upto 0 count 1) (fun index => cache_frag_move (u32 (to_ + index)) (u32 (from + index))).

Definition file_block_extend (inum : Z) : M S Z :=
  inode <- inode_read inum ;;
  match inode with
  | None => ret 1
  | Some inode =>
      f <- superblock ;;
      let FPB := fs_frag f in
      blocks <- rds32 (ic_blocks inode) ;;
      let frags := u32 (Z.quot blocks (NDSPF f)) in
      let fspill := frags mod FPB in
      if fspill =? 0 then ret 0
      else
        let fblk := frags - fspill in
        dblk <- ridisk_frag fblk inum ;;
        mycg <- cache_cg (dtog f dblk) ;;
        in_place <- (if dblk mod FPB =? 0 then
                       p <- deref mycg ;;
                       c <- load_cg p ;;
                       ret (frags_left_are_free FPB (cg_blksfree c) (dtogd f (u32 (dblk + fspill))))
                     else ret false) ;;
        rc <- (if (in_place : bool) then frags_allocate (u32 (dblk + fspill)) (FPB - fspill)
               else
                 newblk <- (if negb (fblk =? 0) then
                              near <- ridisk_frag (fblk - 1) inum ;; block_allocate near
                            else block_allocate (itod f inum)) ;;
                 if newblk =? 0 then ret 1
                 else
                   move_frags newblk dblk fspill ;;
                   cidisk_frag fblk inum newblk ;;
                   frags_deallocate dblk fspill ;;
                   ret 0) ;;
        if negb (rc =? 0) then ret 1
        else
          f <- superblock ;;
          inode <- inode_modify_ptr inum ;;
          ADJUST_IC_BLKS inode ((FPB - fspill) * NDSPF f) ;;
          ret 0
  end.

(** ** file_blocks_deallocate *)

(** The direct blocks from [blkstart] on. *)
Definition fbd_direct (inode startblk : Z) : M S Z :=
  mfold (upto startblk NDADDR 1) 0 (fun blk deallocated =>
    db <- rd32 (ic_db inode blk) ;;
    if db =? 0 then ret deallocated
    else
      block_deallocate db ;;
      wr32 (ic_db inode blk) 0 ;;
      ret (deallocated + 1)).

(** The first loop over the level buffers; [false] when memory ran out and
    the buffers allocated so far are freed again. *)
Fixpoint alloc_levels (l : list Z) : M S bool :=
  match l with
  | [] => ret true
  | index :: l =>
      f <- superblock ;;
      buf <- AllocMem (fs_bsize f) ;;
      upd_glob (fun gl => set_level_buffer (zset (level_buffer gl) index buf) gl) ;;
      match buf with
      | Some _ => alloc_levels l
      | None =>
          mfor (downto (index - 1) 0 1) (fun index =>
            lb <- glob level_buffer ;;
            FreeMem (zget lb index) (fs_bsize f) ;;
            upd_glob (fun gl => set_level_buffer (zset (level_buffer gl) index None) gl)) ;;
          ret false
      end
  end.

(** The pointers after [ptrcur] in the fragments [l] of an index block at
    level [index]; [None] for the return on a NULL buffer. *)
Fixpoint fbd_frags (l : list Z) (index : nat) (curblk ptrcur deallocated : Z) : M S (option Z) :=
  match l with
  | [] => ret (Some deallocated)
  | fragcur :: l =>
      f <- superblock ;;
      temp <- cache_frag_write (u32 (curblk + fragcur)) 1 ;;
      match temp with
      | None => ret None
      | Some temp =>
          deallocated <- mfold (upto ptrcur (Z.quot (fs_nindir f) (fs_frag f)) 1) deallocated
            (fun ptrcur deallocated =>
               curdelblk <- rd32 (temp + 4 * ptrcur) ;;
               if curdelblk =? 0 then ret deallocated
               else
                 sub <- (match index with
                         | O => ret 0
                         | Datatypes.S below => iblock_deallocate below curdelblk
                         end) ;;
                 block_deallocate curdelblk ;;
                 wr32 (temp + 4 * ptrcur) 0 ;;
                 ret (u32 (deallocated + sub + 1))) ;;
          fbd_frags l index curblk 0 deallocated
      end
  end.

(** The descent to the last block, [path] from the top level down. *)
Fixpoint fbd_walk (path : list (Z * Z)) (curblk deallocated : Z) : M S (option Z) :=
  match path with
  | [] => ret (Some deallocated)
  | (ptrnum, fragno) :: path =>
      f <- superblock ;;
      r <- fbd_frags (upto fragno (fs_frag f) 1) (length path) curblk (ptrnum + 1) deallocated ;;
      match r with
      | None => ret None
      | Some deallocated =>
          temp <- cache_frag_write (u32 (curblk + fragno)) 1 ;;
          match temp with
          | None => ret None
          | Some temp =>
              curblk <- rd32 (temp + 4 * ptrnum) ;;
              if curblk =? 0 then ret (Some deallocated)
              else
                match path with
                | [] =>
                    block_deallocate curblk ;;
                    wr32 (temp + 4 * ptrnum) 0 ;;
                    ret (Some (deallocated + 1))
                | _ :: _ => fbd_walk path curblk deallocated
                end
          end
      end
  end.

(** deallocate_trees, from the index tree of [level] on, and the end of the
    function. *)
Definition fbd_trees (inode inum level deallocated : Z) : M S unit :=
  deallocated <- mfold (upto level NIADDR 1) deallocated (fun index deallocated =>
    iblock <- rd32 (ic_ib inode index) ;;
    if iblock =? 0 then ret deallocated
    else
      sub <- iblock_deallocate (Z.to_nat index) iblock ;;
      block_deallocate iblock ;;
      wr32 (ic_ib inode index) 0 ;;
      ret (u32 (deallocated + sub + 1))) ;;
  mfor (upto 0 NIADDR 1) (fun index =>
    f <- superblock ;;
    lb <- glob level_buffer ;;
    FreeMem (zget lb index) (fs_bsize f) ;;
    upd_glob (fun gl => set_level_buffer (zset (level_buffer gl) index None) gl)) ;;
  f <- superblock ;;
  inode <- inode_modify_ptr inum ;;
  ADJUST_IC_BLKS inode (- NDSPB f * deallocated).

Definition file_blocks_deallocate (inum : Z) : M S unit :=
  inode <- inode_modify_ptr inum ;;
  f <- superblock ;;
  size <- IC_SIZE inode ;;
  let startblk := u32 (Z.quot (size + fs_bsize f - 1) (fs_bsize f)) in
  deallocated <- fbd_direct inode startblk ;;
  path <- path_of (Z.max startblk NDADDR - NDADDR) ;;
  ok <- alloc_levels (upto 0 NIADDR 1) ;;
  if negb ok then ret tt
  else if startblk <? NDADDR then fbd_trees inode inum 0 deallocated
  else
    curblk <- rd32 (ic_ib inode (zlen path - 1)) ;;
    if curblk =? 0 then fbd_trees inode inum (zlen path) deallocated
    else
      r <- fbd_walk (rev path) curblk deallocated ;;
      match r with
      | None => ret tt
      | Some deallocated => fbd_trees inode inum (zlen path) deallocated
      end.

(** ** file_block_retract *)

Definition OPT : Z := OPT_TIME.       (* the static variable optimization *)

(** The label dealloc_extra. *)
Definition dealloc_extra (FPB fdblk reqfrags : Z) : M S Z :=
  frags_deallocate (u32 (fdblk + reqfrags)) (FPB - reqfrags) ;; ret 0.

(** The part after the group buffer is known: relocation of the tail. *)
Definition retract_tail (f : fs) (mycg cgx fdblk pblk reqfrags totfrags inum : Z) : M S Z :=
  let FPB := fs_frag f in
  c <- load_cg mycg ;;
  let newblk := u32 (block_fragblock_find OPT f c pblk reqfrags) in
  if newblk =? u32 (-1) then dealloc_extra FPB fdblk reqfrags
  else
    let newblkfrags := newblk mod FPB in
    let newdblk := u32 (newblk + cgbase f cgx) in
    if (newblkfrags =? 0) && block_avail FPB (cg_blksfree c) newblk
    then dealloc_extra FPB fdblk reqfrags
    else if u32 (newdblk - newblkfrags) =? fdblk - fdblk mod FPB then set_readonly ;; ret 0
    else
      failed <- frags_allocate newdblk reqfrags ;;
      if negb (failed =? 0) then ret 1
      else
        move_frags newdblk fdblk reqfrags ;;
        block_deallocate fdblk ;;
        cidisk_frag (totfrags - reqfrags) inum newdblk ;;
        ret 0.

Definition file_block_retract (inum : Z) : M S Z :=
  inode <- inode_modify_ptr inum ;;
  f <- superblock ;;
  gl <- glob id ;;
  let FPB := fs_frag f in
  size <- IC_SIZE inode ;;
  blocks <- rds32 (ic_blocks inode) ;;
  let totfrags := size_frags f gl size in
  let reqfrags := fragnum f totfrags in
  let curfrags := fragnum f (u32 (Z.quot blocks (NDSPF f))) in
  if (reqfrags =? 0) || (FPB * NDADDR <? totfrags) then ret 0
  else if u32 (blocks * NDSPF f) <? totfrags then ret 1
  else if reqfrags =? curfrags then ret 1
  else
    fdblk <- ridisk_frag (blknum f totfrags) inum ;;
    if fdblk =? 0 then ret 0
    else
      inode <- inode_modify_ptr inum ;;
      ADJUST_IC_BLKS inode (- NDSPF f * (FPB - reqfrags)) ;;
      let cgx := dtog f fdblk in
      mycg <- cache_cg_write cgx ;;
      match mycg with
      | None => ret 1
      | Some mycg =>
          pblk <- (if totfrags <? FPB then ret (dtogd f (itod f inum))
                   else prev <- ridisk_frag (u32 (fdblk - FPB)) inum ;; ret (dtogd f prev)) ;;
          retract_tail f mycg cgx fdblk pblk reqfrags totfrags inum
      end.

(** ** file_frag_expand: the new fragment address, or 0 *)

(** One more fragment for the inode: ADJUST_IC_BLKS and ADJUST_IC_SIZE. *)
Definition grow_inode (inum : Z) : M S unit :=
  f <- superblock ;;
  inode <- inode_modify_ptr inum ;;
  ADJUST_IC_BLKS inode (NDSPF f) ;;
  ADJUST_IC_SIZE inode (fs_fsize f).

(** fspill = 0: the last block of the file is full. *)
Definition expand_full (f : fs) (mycg cgx dblk fblk cgblk inum : Z) : M S Z :=
  let FPB := fs_frag f in
  c <- load_cg mycg ;;
  let count := if negb (fblk =? 0) then block_fragblock_find OPT f c cgblk 1
               else block_fragblock_find OPT f c (u32 (itod f inum - cgbase f cgx)) 1 in
  newblk <- (if negb (count =? -1) then
               failed <- frags_allocate (u32 (count + cgbase f cgx)) 1 ;;
               ret (if negb (failed =? 0) then 0 else u32 (count + cgbase f cgx))
             else
               newblk <- (if negb (dblk =? 0) then block_allocate dblk
                          else block_allocate (itod f inum)) ;;
               (if negb (newblk =? 0) then frags_deallocate (u32 (newblk + 1)) (FPB - 1)
                else ret tt) ;;
               ret newblk) ;;
  if newblk =? 0 then ret 0
  else
    grow_inode inum ;;
    (if negb (fblk =? 0) then cidisk_frag fblk inum newblk else cidisk_frag 0 inum newblk) ;;
    ret newblk.

(** The tail shares a full block with other files: it moves to a larger run. *)
Definition expand_move (f : fs) (mycg cgx dblk fblk fspill cgblk inum : Z) : M S Z :=
  let FPB := fs_frag f in
  if dblk =? 0 then ret 0
  else
    c <- load_cg mycg ;;
    let count := if fspill + 1 =? FPB then -1
                 else block_fragblock_find OPT f c cgblk (fspill + 1) in
    newblk <- (if negb (count =? -1) then
                 failed <- frags_allocate (u32 (count + cgbase f cgx)) (fspill + 1) ;;
                 ret (if negb (failed =? 0) then 0 else u32 (count + cgbase f cgx))
               else
                 newblk <- block_allocate dblk ;;
                 (if negb (newblk =? 0)
                  then frags_deallocate (u32 (newblk + fspill + 1)) (FPB - fspill - 1)
                  else ret tt) ;;
                 ret newblk) ;;
    if newblk =? 0 then ret 0
    else
      grow_inode inum ;;
      move_frags newblk dblk fspill ;;
      frags_deallocate dblk fspill ;;
      cidisk_frag fblk inum newblk ;;
      ret (u32 (newblk + fspill)).

Definition file_frag_expand (inum : Z) : M S Z :=
  inode <- inode_modify_ptr inum ;;
  f <- superblock ;;
  let FPB := fs_frag f in
  blocks <- rds32 (ic_blocks inode) ;;
  let frags := u32 (Z.quot blocks (NDSPF f)) in
  let fspill := frags mod FPB in
  let fblk := frags - fspill in
  dblk <- ridisk_frag fblk inum ;;
  let cgx := dtog f dblk in
  mycg <- cache_cg_write cgx ;;
  match mycg with
  | None => ret 0
  | Some mycg =>
      let startoff := dblk mod FPB in
      let cgblk := u32 (dblk - cgbase f cgx) in
      if fspill =? 0 then expand_full f mycg cgx dblk fblk cgblk inum
      else
        c <- load_cg mycg ;;
        if (startoff + fspill <? FPB) && negb (bit_val (cg_blksfree c) (cgblk + fspill) =? 0) then
          failed <- frags_allocate (u32 (dblk + fspill)) 1 ;;
          if negb (failed =? 0) then ret 0
          else grow_inode inum ;; ret (u32 (dblk + fspill))
        else expand_move f mycg cgx dblk fblk fspill cgblk inum
  end.

Definition symlink_delete (inum size : Z) : M S unit :=
  v44 <- glob bsd44fs ;;
  if (v44 =? 0) || (MAXSYMLINKLEN <=? size) then file_deallocate inum ;; ret tt else ret tt.

End FileAlloc.
