(* ===== verification/Fread.v ===== *)
(** [fread.c]: reading file data.  A whole range of fragments is read
    through the cache, or gathered into runs of consecutive fragments that
    are read straight into the caller's memory. *)

From S2P Require Import Prelude Bitmap Superblock Cg CgStore Alloc FileEnv Inode.
Local Open Scope bffs_scope.

Section Fread.
Context {S : Type} `{FileEnv S}.

(** ** file_ua_frags_read: bytes read, 0 on failure *)

Fixpoint ua_read_loop (l : list Z) (sfrag current inum : Z) : M S (option Z) :=
  match l with
  | [] => ret (Some current)
  | frag :: l =>
      fsize <- FSIZE ;;
      lfrag <- ridisk_frag (u32 (sfrag + frag)) inum ;;
      if lfrag =? 0 then
        memset current 0 fsize ;;
        ua_read_loop l sfrag (current + fsize) inum
      else
        fragbuf <- cache_frag lfrag ;;
        match fragbuf with
        | None => ret None
        | Some fragbuf =>
            CopyMem fragbuf current fsize ;;
            ua_read_loop l sfrag (current + fsize) inum
        end
  end.

Definition file_ua_frags_read (sfrag nfrags buf inum : Z) : M S Z :=
  r <- ua_read_loop (upto 0 nfrags 1) sfrag buf inum ;;
  match r with
  | None => ret 0
  | Some current => ret (current - buf)
  end.

(** ** file_frags_read: bytes read, 0 on failure *)

(** The data_read of a pending run [csfrag .. cefrag], if there is one;
    [true] when it fails. *)
Definition read_run (bstart csfrag cefrag : Z) : M S bool :=
  if csfrag =? 0 then ret false
  else
    fsize <- FSIZE ;;
    failed <- data_read bstart csfrag (u32 (fsize * (cefrag - csfrag + 1))) ;;
    ret (negb (failed =? 0)).

(** The loop over the fragments; [bstart] is where the pending run goes. *)
Fixpoint gather_reads (l : list Z) (sfrag buf inum csfrag cefrag bstart : Z) : M S bool :=
  match l with
  | [] => read_run bstart csfrag cefrag
  | frag :: l =>
      fsize <- FSIZE ;;
      lfrag <- ridisk_frag (u32 (sfrag + frag)) inum ;;
      if lfrag =? 0 then
        failed <- read_run bstart csfrag cefrag ;;
        if (failed : bool) then ret true
        else
          memset (buf + frag * fsize) 0 fsize ;;
          (if csfrag =? 0 then gather_reads l sfrag buf inum csfrag cefrag bstart
           else gather_reads l sfrag buf inum 0 0 bstart)
      else
        caddr <- cache_available lfrag ;;
        match caddr with
        | Some caddr =>
            failed <- read_run bstart csfrag cefrag ;;
            if (failed : bool) then ret true
            else
              CopyMem caddr (buf + frag * fsize) fsize ;;
              (if csfrag =? 0 then gather_reads l sfrag buf inum csfrag cefrag bstart
               else gather_reads l sfrag buf inum 0 0 bstart)
        | None =>
            if lfrag =? u32 (cefrag + 1) then gather_reads l sfrag buf inum csfrag lfrag bstart
            else
              failed <- read_run bstart csfrag cefrag ;;
              if (failed : bool) then ret true
              else gather_reads l sfrag buf inum lfrag lfrag (buf + frag * fsize)
        end
  end.

Definition file_frags_read (sfrag nfrags buf inum : Z) : M S Z :=
  if nfrags =? 0 then ret 0
  else
    mask <- glob tranmask ;;
    if (nfrags <? 4) || negb (Z.land (u32 buf) mask =? 0)
    then file_ua_frags_read sfrag nfrags buf inum
    else
      failed <- gather_reads (upto 0 nfrags 1) sfrag buf inum 0 0 0 ;;
      if (failed : bool) then ret 0
      else fsize <- FSIZE ;; ret (s32 (nfrags * fsize)).

(** ** file_read *)

Definition partial_frag_read (frag offset size buf : Z) : M S Z :=
  fragbuf <- cache_frag frag ;;
  match fragbuf with
  | None => ret 0
  | Some fragbuf => CopyMem (fragbuf + offset) buf (u32 size) ;; ret size
  end.

(** The three phases of a read that spans fragments: the tail of the first
    fragment, whole fragments, the head of the last one. *)
Definition read_phases (sfrag spos efrag epos nbytes inum buf : Z) : M S Z :=
  fsize <- FSIZE ;;
  head <- (if negb (spos =? 0) then
             frag <- ridisk_frag sfrag inum ;;
             partial_frag_read frag spos (fsize - spos) buf
           else ret 1) ;;
  if head =? 0 then ret 0
  else
    let skip := if spos =? 0 then 0 else 1 in
    let buf := if spos =? 0 then buf else buf + (fsize - spos) in
    let sfrag := sfrag + skip in
    let nffrags := u32 (efrag - sfrag) in
    main <- (if 0 <? nffrags then file_frags_read sfrag nffrags buf inum else ret 1) ;;
    if main =? 0 then ret 0
    else
      let buf := if 0 <? nffrags then buf + nffrags * fsize else buf in
      if negb (epos =? 0) then
        frag <- ridisk_frag efrag inum ;;
        r <- partial_frag_read frag 0 epos buf ;;
        ret (u32 (nbytes - epos + r))
      else ret nbytes.

Definition file_read (inum sbyte nbytes buf : Z) : M S Z :=
  inode <- inode_read inum ;;
  match inode with
  | None => ret (u32 (-1))
  | Some inode =>
      f <- superblock ;;
      gl <- glob id ;;
      size <- IC_SIZE inode ;;
      let filesize := u32 size in
      if filesize <? sbyte then ret (u32 (-1))
      else
        let nbytes := if filesize <? u32 (nbytes + sbyte) then filesize - sbyte else nbytes in
        let spos := Z.land sbyte (fs_lfmask gl) in
        let epos := Z.land (u32 (sbyte + nbytes)) (fs_lfmask gl) in
        let sfrag := Z.shiftr sbyte (fs_fshift f) in
        let efrag := Z.shiftr (u32 (sbyte + nbytes)) (fs_fshift f) in
        if sfrag =? efrag then
          frag <- ridisk_frag sfrag inum ;;
          partial_frag_read frag spos nbytes buf
        else read_phases sfrag spos efrag epos nbytes inum buf
  end.

End Fread.
