(* ===== verification/Fwrite.v ===== *)
(** [fwrite.c]: writing file data.  Blocks are added first when the file
    grows; whole fragments go through the cache or are gathered into runs
    written straight to the device, and the partial fragments at both ends
    go through the cache. *)

From S2P Require Import Prelude Bitmap Superblock Cg CgStore Alloc FileEnv Inode FileAlloc.
Local Open Scope bffs_scope.

Section Fwrite.
Context {S : Type} `{FileEnv S}.

(** ** Fragments through the cache

    The loop of file_ua_frags_write, which is also the short loop of
    file_frags_write: the number of fragments written, 0 on a NULL buffer. *)
Fixpoint cached_writes (l : list Z) (sfrag nfrags buf inum : Z) : M S Z :=
  match l with
  | [] => ret nfrags
  | frag :: l =>
      lfrag <- widisk_frag (u32 (sfrag + frag)) inum ;;
      if lfrag =? 0 then ret frag
      else
        ptr <- cache_frag_write lfrag 0 ;;
        match ptr with
        | None => ret 0
        | Some ptr =>
            fsize <- FSIZE ;;
            CopyMem (buf + frag * fsize) ptr fsize ;;
            cached_writes l sfrag nfrags buf inum
        end
  end.

Definition file_ua_frags_write (sfrag nfrags buf inum : Z) : M S Z :=
  cached_writes (upto 0 nfrags 1) sfrag nfrags buf inum.

(** ** file_frags_write *)

(** A fragment to write directly: its address, no longer in the cache. *)
Definition claim_frag (file_frag_num inum : Z) : M S Z :=
  lfrag <- widisk_frag file_frag_num inum ;;
  (if negb (lfrag =? 0) then cache_invalidate lfrag else ret tt) ;;
  ret lfrag.

(** The do loop that extends a run; the result is frag, lfrag and cefrag. *)
Fixpoint gather_run (fuel : nat) (sfrag nfrags inum frag lfrag : Z) : M S (Z * Z * Z) :=
  match fuel with
  | O => undef
  | Datatypes.S fuel =>
      let cefrag := lfrag in
      let frag := frag + 1 in
      if nfrags <=? frag then ret (frag, lfrag, cefrag)
      else
        lfrag <- claim_frag (u32 (sfrag + frag)) inum ;;
        if lfrag =? cefrag + 1 then gather_run fuel sfrag nfrags inum frag lfrag
        else ret (frag, lfrag, cefrag)
  end.

(** The while loop: one data_write for each run.  A write fault is reported
    to the debug log only. *)
Fixpoint gather_writes (fuel : nat) (sfrag nfrags buf inum frag lfrag : Z) : M S Z :=
  match fuel with
  | O => undef
  | Datatypes.S fuel' =>
      if (frag <? nfrags) && negb (lfrag =? 0) then
        let csfrag := lfrag in
        fsize <- FSIZE ;;
        r <- gather_run fuel sfrag nfrags inum frag lfrag ;;
        let '(frag, lfrag, cefrag) := r in
        let bfrags := cefrag - csfrag + 1 in
        data_write (buf + (frag - bfrags) * fsize) csfrag (fsize * bfrags) ;;
        gather_writes fuel' sfrag nfrags buf inum frag lfrag
      else ret frag
  end.

Definition file_frags_write (sfrag nfrags buf inum : Z) : M S Z :=
  if nfrags <? 4 then cached_writes (upto 0 nfrags 1) sfrag nfrags buf inum
  else
    mask <- glob tranmask ;;
    if negb (Z.land (u32 buf) mask =? 0) then file_ua_frags_write sfrag nfrags buf inum
    else
      lfrag <- claim_frag sfrag inum ;;
      gather_writes (Z.to_nat nfrags + 1) sfrag nfrags buf inum 0 lfrag.

(** ** file_write *)

Definition partial_frag_write (frag offset size buf readcache : Z) : M S Z :=
  ptr <- cache_frag_write frag readcache ;;
  match ptr with
  | None => ret 0
  | Some ptr => CopyMem buf (ptr + offset) (u32 size) ;; ret size
  end.

(** The expansion at the start: [inl] the return value of an early return,
    or [inr] of nbytes, filesize and read_last_frag. *)
Definition write_expand (inode inum sbyte nbytes : Z) : M S (Z + Z * Z * Z) :=
  f <- superblock ;;
  let FSIZE := fs_fsize f in
  let FBSIZE := fs_bsize f in
  size <- IC_SIZE inode ;;
  let filesize := u32 size in
  if u32 (sbyte + nbytes) <=? filesize then ret (inr (nbytes, filesize, 1))
  else
    let start := filesize / FSIZE in
    let blocks := u32 (sbyte + nbytes + FBSIZE - 1 - filesize) / FBSIZE in
    ablocks <- file_blocks_add inode inum start blocks ;;
    if ablocks =? 0 then upd_glob (set_Res2 ERROR_DISK_FULL) ;; ret (inl (u32 (-1)))
    else
      let nbytes := if ablocks <? blocks then u32 (ablocks * FBSIZE + filesize - sbyte)
                    else nbytes in
      let filesize := u32 (sbyte + nbytes) in
      size <- IC_SIZE inode ;;
      if u32 size <? filesize then
        inode <- inode_modify inum ;;
        match inode with
        | None => ret (inl (u32 (-1)))
        | Some inode => SET_IC_SIZE inode filesize ;; ret (inr (nbytes, filesize, 0))
        end
      else ret (inr (nbytes, filesize, 1)).

(** The three phases of a write that spans fragments. *)
Definition write_phases (sfrag spos efrag epos nbytes read_last_frag inum buf : Z) : M S Z :=
  fsize <- FSIZE ;;
  head <- (if negb (spos =? 0) then
             faddr <- widisk_frag sfrag inum ;;
             if faddr =? 0 then upd_glob (set_Res2 ERROR_DISK_FULL) ;; ret false
             else partial_frag_write faddr spos (fsize - spos) buf 1 ;; ret true
           else ret true) ;;
  if negb head then ret (u32 (-1))
  else
    let skip := if spos =? 0 then 0 else 1 in
    let buf := if spos =? 0 then buf else buf + (fsize - spos) in
    let sfrag := sfrag + skip in
    let nffrags := u32 (efrag - sfrag) in
    main <- (if 0 <? nffrags then file_frags_write sfrag nffrags buf inum else ret nffrags) ;;
    if negb (main =? nffrags) then ret (u32 (fsize - spos + main * fsize))
    else
      let buf := if 0 <? nffrags then buf + nffrags * fsize else buf in
      if negb (epos =? 0) then
        faddr <- widisk_frag efrag inum ;;
        if faddr =? 0 then ret (u32 (fsize - spos + nffrags * fsize))
        else partial_frag_write faddr 0 epos buf read_last_frag ;; ret nbytes
      else ret nbytes.

Definition file_write (inum sbyte nbytes buf : Z) : M S Z :=
  inode <- inode_read inum ;;
  match inode with
  | None => ret (u32 (-1))
  | Some inode =>
      r <- write_expand inode inum sbyte nbytes ;;
      match r with
      | inl rc => ret rc
      | inr (nbytes, filesize, read_last_frag) =>
          fsize <- FSIZE ;;
          let end_ := u32 (sbyte + nbytes) in
          let spos := sbyte mod fsize in
          let epos := end_ mod fsize in
          let sfrag := sbyte / fsize in
          let efrag := end_ / fsize in
          if sfrag =? efrag then
            faddr <- widisk_frag sfrag inum ;;
            if faddr =? 0 then upd_glob (set_Res2 ERROR_DISK_FULL) ;; ret (u32 (-1))
            else
              partial_frag_write faddr spos (epos - spos) buf
                (if nbytes =? filesize then 0 else 1) ;;
              ret nbytes
          else write_phases sfrag spos efrag epos nbytes read_last_frag inum buf
      end
  end.

(** symlink_create of file.c: the target in the inode of a 4.4BSD file
    system when it is short, else in a block of its own. *)
Definition symlink_create (inum : Z) (contents : list Z) (contents_buf : Z) : M S Z :=
  let namelen := zlen contents in
  v44 <- glob bsd44fs ;;
  if negb (v44 =? 0) && (namelen <? MAXSYMLINKLEN) then
    inode <- inode_modify_ptr inum ;;
    strcpy (ic_db inode 0) contents ;;
    SET_IC_SIZE inode namelen ;;
    ret 1
  else
    written <- file_write inum 0 (namelen + 1) contents_buf ;;
    if written =? namelen + 1 then file_block_retract inum ;; ret 1 else ret 0.

End Fwrite.
