(* ===== verification/Dir.v ===== *)
(** [dir.c]: directories.  A directory is a file of [direct_t] entries; each
    fragment is scanned from entry to entry by [d_reclen].  A scan that does
    not advance (a zero [d_reclen] the code does not test for) never ends,
    and is undefined here. *)

From S2P Require Import Prelude Bitmap Superblock Cg CgStore Alloc FileEnv Inode FileAlloc.
Local Open Scope bffs_scope.

Definition DIRNAMELEN : Z := 107.

(** dir_name_is_illegal *)

Definition illegal_char (c : Z) : bool := (c =? 0x2f) || (c =? 0x3a) || (c =? 0x22).

Definition dir_name_is_illegal (name : list Z) : Z :=
  match name with
  | [] => 1
  | _ =>
      if bool_decide (name = [0x2e]) || bool_decide (name = [0x2e; 0x2e]) then 1
      else if existsb illegal_char name then 1 else 0
  end.

(** The scan of one fragment stops at an entry, or reaches the end, or the
    function returns in the middle. *)
Inductive scan (A : Type) :=
  | Found (current : A)
  | Finished
  | Returns.
Arguments Found {A}.
Arguments Finished {A}.
Arguments Returns {A}.

Section Dir.
Context {S : Type} `{FileEnv S}.

(** The name at [p]: strnicmp looks at DIRNAMELEN characters of it at most. *)
Definition streqv (p : Z) (str2 : list Z) : M S Z :=
  str1 <- c_str_n (Z.to_nat DIRNAMELEN) p ;;
  ret (if strnicmp str1 str2 DIRNAMELEN =? 0 then 1 else 0).

(** The length of a fragment in minimum entries bounds the entries of a scan. *)
Definition scan_fuel (len : Z) : nat := Z.to_nat len + 1.

(** while (current < bend): [visit current] says to stop there, to leave the
    function or to go on. *)
Fixpoint scan_entries (fuel : nat) (current bend : Z) (visit : Z -> M S (scan Z)) : M S (scan Z) :=
  if bend <=? current then ret Finished
  else
    match fuel with
    | O => undef
    | Datatypes.S fuel =>
        r <- visit current ;;
        match r with
        | Finished => reclen <- rd16 (d_reclen current) ;;
                      scan_entries fuel (current + reclen) bend visit
        | r => ret r
        end
    end.

(** The end of the entries in fragment [blk]. *)
Definition frag_end (fsize spill blk fblks : Z) : Z :=
  if negb (spill =? 0) && (blk =? fblks - 1) then spill else fsize.

(** The loop over fragments; an entry is found with its fragment number, the
    buffer and its address.  A NULL buffer ends the function. *)
Fixpoint scan_frags (l : list Z) (pinum spill fblks : Z) (visit : Z -> M S (scan Z))
    : M S (scan (Z * Z * Z)) :=
  match l with
  | [] => ret Finished
  | blk :: l =>
      fsize <- FSIZE ;;
      frag <- ridisk_frag blk pinum ;;
      buf <- cache_frag frag ;;
      match buf with
      | None => ret Returns
      | Some buf =>
          let len := frag_end fsize spill blk fblks in
          r <- scan_entries (scan_fuel len) buf (buf + len) visit ;;
          match r with
          | Finished => scan_frags l pinum spill fblks visit
          | Returns => ret Returns
          | Found current => ret (Found (blk, buf, current))
          end
      end
  end.

(** fblks and spill of a directory inode. *)
Definition dir_extent (pinode : Z) : M S (Z * Z) :=
  f <- superblock ;;
  size <- IC_SIZE pinode ;;
  ret (Z.quot (size + fs_fsize f - 1) (fs_fsize f), Z.rem size (fs_fsize f)).

Definition is_dir (inode : Z) : M S bool :=
  mode <- rd16 (ic_mode inode) ;; ret (Z.land mode IFMT =? IFDIR).

(** An [inode_read] whose result the code follows without a check. *)
Definition inode_read_ptr (inum : Z) : M S Z := inode <- inode_read inum ;; deref inode.

(** The consistency check that makes the file system read-only. *)
Definition check_reclen (current : Z) : M S (scan Z) :=
  reclen <- rd16 (d_reclen current) ;;
  if DIRBLKSIZ <? reclen then set_readonly ;; ret Returns else ret Finished.

(** ** dir_create: the offset of the new entry, or 0 *)

Definition dir_fragfill (spill buf : Z) : M S unit :=
  fsize <- FSIZE ;;
  mfor (upto spill fsize DIRBLKSIZ) (fun index =>
    let ptr := buf + index in
    wr32 (d_ino ptr) 0 ;;
    wr8 (d_namlen ptr) 0 ;;
    wr8 (d_type ptr) 0 ;;
    wr16 (d_reclen ptr) DIRBLKSIZ ;;
    wr8 (d_name ptr) 0).

(** Bytes the new entry is taken to need. *)
Definition entry_needed (name : list Z) : Z :=
  Z.land (zlen name + sizeof_direct - MAXNAMLEN - 1 + 3) (Z.lnot 3).

(** UFS_DIRSIZ of an entry, as a UWORD. *)
Definition entry_size (current : Z) : M S Z :=
  namlen <- rd8 (d_namlen current) ;; ret (u16 (UFS_DIRECTSIZ namlen)).

Definition create_visit (needed current : Z) : M S (scan Z) :=
  dirsize <- entry_size current ;;
  reclen <- rd16 (d_reclen current) ;;
  if needed <? reclen - dirsize then ret (Found current) else check_reclen current.

(** finish_success: filling in the entry. *)
Definition fill_entry (current : Z) (name : list Z) (inum oldsize type : Z) : M S unit :=
  strcpy (d_name current) name ;;
  wr32 (d_ino current) inum ;;
  wr16 (d_reclen current) oldsize ;;
  wr8 (d_namlen current) (zlen name) ;;
  v44 <- glob bsd44fs ;;
  if negb (v44 =? 0) then wr8 (d_type current) type else wr8 (d_type current) 0.

(** Splitting the entry at [current]: what is left of its record, and where. *)
Definition split_entry (current : Z) : M S (Z * Z) :=
  dirsize <- entry_size current ;;
  oldsize <- rd16 (d_reclen current) ;;
  wr16 (d_reclen current) dirsize ;;
  reclen <- rd16 (d_reclen current) ;;
  ret (oldsize - reclen, current + reclen).

(** A new directory block: at the end of the last fragment, or in a new one;
    the fragment number and the buffer. *)
Definition create_space (pinum fblks spill : Z) : M S (option (Z * Z)) :=
  fsize <- FSIZE ;;
  if negb (spill =? 0) then
    pinode <- inode_modify_ptr pinum ;;
    ADJUST_IC_SIZE pinode (fsize - spill) ;;
    newfrag <- ridisk_frag (u32 (fblks - 1)) pinum ;;
    buf <- cache_frag_write newfrag 1 ;;
    match buf with None => ret None | Some buf => ret (Some (fblks - 1, buf)) end
  else
    newfrag <- file_frag_expand pinum ;;
    if newfrag =? 0 then ret None
    else
      buf <- cache_frag_write newfrag 0 ;;
      match buf with None => ret None | Some buf => ret (Some (fblks, buf)) end.

Definition dir_create (pinum : Z) (name : list Z) (inum type : Z) : M S Z :=
  if pinum <? 2 then ret 0
  else
    pinode <- inode_read_ptr pinum ;;
    dir <- is_dir pinode ;;
    if negb dir then ret 0
    else
      let needed := entry_needed name in
      if needed <? 0 then ret 0
      else
        fsize <- FSIZE ;;
        ext <- dir_extent pinode ;;
        let '(fblks, spill) := ext in
        r <- scan_frags (upto 0 fblks 1) pinum spill fblks (create_visit needed) ;;
        match r with
        | Returns => ret 0
        | Found (blk, _, current) =>
            frag <- ridisk_frag blk pinum ;;
            buf <- cache_frag_write frag 1 ;;
            match buf with
            | None => ret 0
            | Some buf =>
                e <- split_entry current ;;
                fill_entry e.2 name inum e.1 type ;;
                ret (s32 (fsize * blk + e.2 - buf))
            end
        | Finished =>
            space <- create_space pinum fblks spill ;;
            match space with
            | None => ret 0
            | Some (blk, buf) =>
                dir_fragfill spill buf ;;
                fill_entry (buf + spill) name inum DIRBLKSIZ type ;;
                ret (s32 (fsize * blk + (buf + spill) - buf))
            end
        end.

(** ** dir_is_not_empty: 1 when more than two entries are in use

    The scan keeps a count, and a corrupt entry makes the function return 0. *)
Fixpoint count_entries (fuel : nat) (current bend count : Z) : M S (Z + Z) :=
  if bend <=? current then ret (inr count)
  else
    match fuel with
    | O => undef
    | Datatypes.S fuel =>
        ino <- rd32 (d_ino current) ;;
        let count := if negb (ino =? 0) then count + 1 else count in
        if negb (ino =? 0) && (2 <? count) then ret (inl 1)
        else
          reclen <- rd16 (d_reclen current) ;;
          if (DIRBLKSIZ <? reclen) || (reclen =? 0) then ret (inl 0)
          else count_entries fuel (current + reclen) bend count
    end.

Fixpoint count_frags (l : list Z) (pinum spill fblks count : Z) : M S Z :=
  match l with
  | [] => ret 0
  | blk :: l =>
      fsize <- FSIZE ;;
      frag <- ridisk_frag blk pinum ;;
      buf <- cache_frag frag ;;
      match buf with
      | None => ret 1
      | Some buf =>
          let len := frag_end fsize spill blk fblks in
          r <- count_entries (scan_fuel len) buf (buf + len) count ;;
          match r with
          | inl rc => ret rc
          | inr count => count_frags l pinum spill fblks count
          end
      end
  end.

Definition dir_is_not_empty (pinum : Z) : M S Z :=
  pinode <- inode_read pinum ;;
  match pinode with
  | None => ret 1
  | Some pinode =>
      dir <- is_dir pinode ;;
      if negb dir then ret 0
      else
        ext <- dir_extent pinode ;;
        count_frags (upto 0 ext.1 1) pinum ext.2 ext.1 0
  end.

(** ** dir_offset_delete: the inode number of the deleted entry, or 0 *)

(** The scan of one fragment for the entry at [offset]: the entry and the
    one before it in its directory block, or the new roffset at the end. *)
Fixpoint delete_scan (fuel : nat) (current bend pos : Z) (last : option Z) (offset roffset : Z)
    : M S (scan (Z * option Z) * Z) :=
  if bend <=? current then ret (Finished, roffset)
  else
    match fuel with
    | O => undef
    | Datatypes.S fuel =>
        let last := if pos =? DIRBLKSIZ then None else last in
        let pos := if pos =? DIRBLKSIZ then 0 else pos in
        if offset =? roffset then ret (Found (current, last), roffset)
        else
          reclen <- rd16 (d_reclen current) ;;
          if DIRBLKSIZ <? reclen then set_readonly ;; ret (Returns, roffset)
          else
            delete_scan fuel (current + reclen) bend (u32 (pos + reclen)) (Some current)
              offset (u32 (roffset + reclen))
    end.

Fixpoint delete_frags (l : list Z) (pinum spill fblks offset roffset : Z)
    : M S (scan (Z * Z * Z * option Z)) :=
  match l with
  | [] => ret Finished
  | blk :: l =>
      fsize <- FSIZE ;;
      dirblk <- ridisk_frag blk pinum ;;
      buf <- cache_frag dirblk ;;
      match buf with
      | None => ret Returns
      | Some buf =>
          let len := frag_end fsize spill blk fblks in
          r <- delete_scan (scan_fuel len) buf (buf + len) 0 None offset roffset ;;
          match r.1 with
          | Finished => delete_frags l pinum spill fblks offset r.2
          | Returns => ret Returns
          | Found (current, last) => ret (Found (dirblk, buf, current, last))
          end
      end
  end.

(** Unlinking the entry: the first of its block loses its inode, another is
    joined to the one before it. *)
Definition unlink_entry (current : Z) (last : option Z) (inum : Z) : M S Z :=
  match last with
  | None => wr32 (d_ino current) 0 ;; ret inum
  | Some last =>
      reclen <- rd16 (d_reclen current) ;;
      if DIRBLKSIZ <? reclen then ret 0
      else
        lastlen <- rd16 (d_reclen last) ;;
        wr16 (d_reclen last) (lastlen + reclen) ;;
        ret inum
  end.

Definition dir_offset_delete (pinum offset check : Z) : M S Z :=
  pinode <- inode_read pinum ;;
  match pinode with
  | None => ret 0
  | Some pinode =>
      size <- IC_SIZE pinode ;;
      if (offset =? 0) || (u32 size <? offset) then set_readonly ;; ret 0
      else
        fsize <- FSIZE ;;
        ext <- dir_extent pinode ;;
        let fblks := u32 ext.1 in
        let spill := u32 ext.2 in
        let first := offset / fsize in
        r <- delete_frags (upto first fblks 1) pinum spill fblks offset (first * fsize) ;;
        match r with
        | Returns => ret 0
        | Finished => upd_glob (set_Res2 ERROR_OBJECT_NOT_FOUND) ;; ret 0
        | Found (dirblk, obuf, current, last) =>
            inum <- rd32 (d_ino current) ;;
            full <- (if negb (check =? 0) then dir_is_not_empty inum else ret 0) ;;
            if negb (full =? 0) then
              upd_glob (set_Res2 ERROR_DIRECTORY_NOT_EMPTY) ;; ret 0
            else
              buf <- cache_frag_write dirblk 1 ;;
              match buf with
              | None => ret 0
              | Some buf =>
                  (* the buffer may have moved *)
                  unlink_entry (current + (buf - obuf))
                    (option_map (fun last => last + (buf - obuf)) last) inum
              end
        end
  end.

(** ** dir_inum_change *)

Definition inum_visit (finum current : Z) : M S (scan Z) :=
  ino <- rd32 (d_ino current) ;;
  if ino =? finum then ret (Found current) else check_reclen current.

Definition dir_inum_change (pinum finum tinum : Z) : M S Z :=
  if pinum <? 2 then ret 0
  else
    pinode <- inode_read_ptr pinum ;;
    ext <- dir_extent pinode ;;
    r <- scan_frags (upto 0 ext.1 1) pinum ext.2 ext.1 (inum_visit finum) ;;
    match r with
    | Found (blk, _, current) =>
        frag <- ridisk_frag blk pinum ;;
        cache_frag_write frag 1 ;;
        wr32 (d_ino current) tinum ;;
        ret 1
    | _ => ret 0
    end.

(** ** dir_name_search: the inode number, or 0; Poffset is where it is *)

Definition name_visit (name : list Z) (current : Z) : M S (scan Z) :=
  ino <- rd32 (d_ino current) ;;
  same <- (if negb (ino =? 0) then str_same (d_name current) name else ret false) ;;
  if (same : bool) then ret (Found current)
  else
    reclen <- rd16 (d_reclen current) ;;
    if DIRBLKSIZ <? reclen then ret Returns
    else if reclen =? 0 then ret Returns
    else ret Finished.

Definition case_visit (name : list Z) (current : Z) : M S (scan Z) :=
  same <- streqv (d_name current) name ;;
  if negb (same =? 0) then ret (Found current) else ret Finished.

(** The second pass follows the result of cache_frag without a check. *)
Fixpoint case_frags (l : list Z) (pinum spill fblks : Z) (name : list Z) : M S (scan (Z * Z * Z)) :=
  match l with
  | [] => ret Finished
  | blk :: l =>
      fsize <- FSIZE ;;
      frag <- ridisk_frag blk pinum ;;
      got <- cache_frag frag ;;
      buf <- deref got ;;
      let len := frag_end fsize spill blk fblks in
      r <- scan_entries (scan_fuel len) buf (buf + len) (case_visit name) ;;
      match r with
      | Found current => ret (Found (blk, buf, current))
      | _ => case_frags l pinum spill fblks name
      end
  end.

(** The label breakloop, with the entry at which a loop stopped. *)
Definition name_result (r : scan (Z * Z * Z)) : M S Z :=
  match r with
  | Found (blk, buf, current) =>
      fsize <- FSIZE ;;
      inum <- rd32 (d_ino current) ;;
      (if negb (inum =? 0) then upd_glob (set_Poffset (u32 (blk * fsize + (current - buf))))
       else ret tt) ;;
      ret inum
  | _ => ret 0
  end.

Definition dir_name_search (pinum : Z) (name : list Z) : M S Z :=
  pinode <- inode_read_ptr pinum ;;
  dir <- is_dir pinode ;;
  if negb dir then set_readonly ;; ret 0
  else
    ext <- dir_extent pinode ;;
    let '(fblks, spill) := ext in
    r <- scan_frags (upto 0 fblks 1) pinum spill fblks (name_visit name) ;;
    match r with
    | Returns => ret 0
    | Found e => name_result (Found e)
    | Finished =>
        dependent <- glob case_dependent ;;
        if dependent =? 0 then
          r <- case_frags (downto (fblks - 1) 0 1) pinum spill fblks name ;; name_result r
        else ret 0
    end.

(** ** dir_inum_search *)

Definition inum_search_visit (inum current : Z) : M S (scan Z) :=
  ino <- rd32 (d_ino current) ;;
  if ino =? inum then ret (Found current)
  else
    reclen <- rd16 (d_reclen current) ;;
    if DIRBLKSIZ <? reclen then ret Returns else ret Finished.

Definition dir_inum_search (pinum inum : Z) : M S Z :=
  pinode <- inode_read_ptr pinum ;;
  dir <- is_dir pinode ;;
  if negb dir then ret 0
  else
    ext <- dir_extent pinode ;;
    r <- scan_frags (upto 0 ext.1 1) pinum ext.2 ext.1 (inum_search_visit inum) ;;
    match r with
    | Found (blk, buf, current) => ret (u32 (blk * DIRBLKSIZ + (current - buf)))
    | _ => ret 0
    end.

(** ** dir_next: the address of the entry, or NULL *)

Definition dir_next (inum offset : Z) : M S (option Z) :=
  fsize <- FSIZE ;;
  frag <- ridisk_frag (offset / fsize) inum ;;
  if frag =? 0 then ret None
  else
    ptr <- cache_frag frag ;;
    match ptr with
    | None => ret None
    | Some ptr => ret (Some (ptr + offset mod fsize))
    end.

(** ** dir_rename: the inode number, or 0 *)

(** The walk from the destination up to the root, which refuses to put a
    directory below itself; [None] when the walk does not reach the root
    within [fuel] steps. *)
Fixpoint rename_loop (fuel : nat) (inum inumfrom : Z) : M S bool :=
  if inum =? 2 then ret true
  else
    match fuel with
    | O => undef
    | Datatypes.S fuel =>
        inum <- dir_name_search inum [0x2e; 0x2e] ;;
        if inum =? inumfrom then ret false else rename_loop fuel inum inumfrom
    end.

Definition dir_rename (frominum : Z) (fromname : list Z) (toinum : Z) (toname : list Z)
    (isdir type : Z) : M S Z :=
  inumfrom <- dir_name_search frominum fromname ;;
  offsetfrom <- glob Poffset ;;
  if inumfrom =? 0 then ret 0
  else
    inode <- inode_read_ptr frominum ;;
    dir <- is_dir inode ;;
    if negb dir then ret 0
    else
      inode <- inode_read_ptr toinum ;;
      dir <- is_dir inode ;;
      if negb dir then ret 0
      else if toinum =? inumfrom then ret 0
      else
        f <- superblock ;;
        clear <- (if negb (isdir =? 0)
                  then rename_loop (Z.to_nat (fs_ncg f * fs_ipg f) + 1) toinum inumfrom
                  else ret true) ;;
        if negb clear then ret 0
        else
          offsetto <- dir_create toinum toname inumfrom type ;;
          if offsetto =? 0 then ret 0
          else
            inum <- dir_offset_delete frominum offsetfrom 0 ;;
            if inum =? 0 then dir_offset_delete toinum offsetto 1 ;; ret 0
            else ret inum.

End Dir.
