(* ===== verification/Lookup.v ===== *)
(** Path lookup of [file.c]: [dir_name_find] and [file_find], which follows
    symbolic links. *)

From S2P Require Import Prelude Bitmap Superblock Cg CgStore Alloc FileEnv Inode Fread Dir.
Local Open Scope bffs_scope.

Definition MAX_PATH_LEVEL_LEN : Z := 8191.

Section Lookup.
Context {S : Type} `{FileEnv S}.

(** ** dir_name_find *)

Definition dot_name (name : list Z) : bool :=
  bool_decide (name = []) || bool_decide (name = [0x2e]).

Definition dir_name_find (pinum : Z) (name : list Z) : M S Z :=
  inum <- (if dot_name name then ret pinum else dir_name_search pinum name) ;;
  upd_glob (set_Pinum pinum) ;;
  (if dot_name name || bool_decide (name = [0x2e; 0x2e]) then
     parent <- dir_name_search inum [0x2e; 0x2e] ;;
     upd_glob (set_Pinum parent) ;;
     offset <- dir_inum_search parent inum ;;
     upd_glob (set_Poffset offset)
   else ret tt) ;;
  ret inum.

(** ** file_find

    The path is in an allocated buffer of [namelen] bytes at [filename]; the
    string at an address inside it ends within the buffer. *)
Definition path_str (p filename namelen : Z) : M S (list Z) :=
  c_str (Z.to_nat (filename + namelen - p)) p.

(** nextslash: ends the component at [str] and returns the next one. *)
Fixpoint nextslash (chars : list Z) (str : Z) : M S Z :=
  match chars with
  | [] => ret str
  | c :: chars =>
      if c =? 0x2f then wr8 str 0 ;; ret (str + 1) else nextslash chars (str + 1)
  end.

(** The variables of the loop. *)
Record walk := Walk {
  w_finum : Z;
  w_pinum : Z;
  w_filename : Z;
  w_namelen : Z;
  w_next : Z;
  w_strend : Z }.

(** A symbolic link at [finum]: the path becomes the link's target and the
    rest of the path.  [inl] is the return value of a return inside the loop;
    [inr (true, w)] leaves the loop by a break. *)
Definition follow_link (inode : Z) (w : walk) : M S (Z + bool * walk) :=
  gl <- glob id ;;
  if (resolve_symlinks gl =? 0) && (read_link gl =? 0) then
    FreeMem (Some (w_filename w)) (w_namelen w) ;;
    upd_glob (set_Res2 ERROR_IS_SOFT_LINK) ;;
    ret (inl 0)
  else
    inosize <- IC_SIZE inode ;;
    next <- path_str (w_next w) (w_filename w) (w_namelen w) ;;
    let templen := inosize + zlen next + 2 in
    if MAX_PATH_LEVEL_LEN <? templen then
      FreeMem (Some (w_filename w)) (w_namelen w) ;;
      upd_glob (set_Res2 ERROR_IS_SOFT_LINK) ;;
      ret (inl 0)
    else
      buf <- AllocMem templen ;;
      match buf with
      | None => upd_glob (set_Res2 ERROR_NO_FREE_STORE) ;; ret (inr (true, w))
      | Some buf =>
          (if negb (bsd44fs gl =? 0) && (inosize <? MAXSYMLINKLEN) then
             target <- c_str (Z.to_nat (sizeof_icommon - 40)) (ic_db inode 0) ;;
             strcpy buf target
           else file_read (w_finum w) 0 inosize buf ;; ret tt) ;;
          wr8 (buf + inosize) 0x2f ;;
          strcpy (buf + inosize + 1) next ;;
          FreeMem (Some (w_filename w)) (w_namelen w) ;;
          if negb (read_link gl =? 0) then
            wr8 (buf + templen - 2) 0 ;;
            upd_glob (set_linkname (Some buf)) ;;
            ret (inl (w_finum w))
          else
            c <- rd8 buf ;;
            r <- (if c =? 0x2f then
                    finum <- (if negb (unix_paths gl =? 0) then ret 2
                              else dir_name_find (w_pinum w) [0x2e; 0x2e]) ;;
                    ret (finum, buf + 1)
                  else if c =? 0x3a then ret (2, buf + 1)
                  else ret (w_pinum w, buf)) ;;
            path <- path_str buf buf templen ;;
            ret (inr (false, Walk r.1 (w_pinum w) buf templen r.2 (buf + zlen path)))
      end.

(** The loop and the end of the function; at most 129 passes are made.  The
    result is the inode number. *)
Definition find_end (w : walk) : M S Z :=
  FreeMem (Some (w_filename w)) (w_namelen w) ;; ret (w_finum w).

Fixpoint find_loop (fuel : nat) (passes current : Z) (w : walk) : M S Z :=
  if w_strend w <=? current then find_end w
  else
    match fuel with
    | O => undef
    | Datatypes.S fuel =>
        gl <- glob id ;;
        rest <- path_str current (w_filename w) (w_namelen w) ;;
        next <- nextslash rest current ;;
        name <- path_str current (w_filename w) (w_namelen w) ;;
        let up := (unix_paths gl =? 0) && bool_decide (name = []) in
        finum <- (if up then dir_name_find (w_pinum w) [0x2e; 0x2e]
                  else dir_name_find (w_pinum w) name) ;;
        let w := Walk finum (w_pinum w) (w_filename w) (w_namelen w) next (w_strend w) in
        if negb up && (finum =? 0) then find_end w
        else
          inode <- inode_read finum ;;
          match inode with
          | None => ret 0
          | Some inode =>
              mode <- rd16 (ic_mode inode) ;;
              if negb (Z.land mode IFMT =? IFLNK) && negb (Z.land mode IFCHR =? 0)
              then find_end w
              else
                r <- (if Z.land mode IFMT =? IFLNK then follow_link inode w
                      else ret (inr (false, w))) ;;
                match r with
                | inl rc => ret rc
                | inr (true, w) => find_end w
                | inr (false, w) =>
                    if 127 <? passes then
                      upd_glob (set_Res2 ERROR_TOO_MANY_LEVELS) ;;
                      find_end (Walk 0 (w_pinum w) (w_filename w) (w_namelen w) (w_next w)
                                  (w_strend w))
                    else
                      find_loop fuel (passes + 1) (w_next w)
                        (Walk (w_finum w) (w_finum w) (w_filename w) (w_namelen w) (w_next w)
                           (w_strend w))
                end
          end
    end.

Definition file_find (pinum : Z) (name : list Z) : M S Z :=
  let namelen := zlen name + 1 in
  got <- AllocMem namelen ;;
  match got with
  | None => upd_glob (set_Res2 ERROR_NO_FREE_STORE) ;; ret 0
  | Some filename =>
      strcpy filename name ;;
      gl <- glob id ;;
      c <- rd8 filename ;;
      let absolute := negb (unix_paths gl =? 0) && (c =? 0x2f) in
      let finum := if absolute then 2 else pinum in
      let current := if absolute then filename + 1 else filename in
      rest <- path_str current filename namelen ;;
      let strend := current + zlen rest in
      finum <- (if current =? strend then dir_name_find finum [0x2e] else ret finum) ;;
      find_loop 129 0 current (Walk finum pinum filename namelen current strend)
  end.

End Lookup.
