(* ===== verification/Handler.v ===== *)
(** The handler process as the packet code sees it: its globals, the packet
    at hand, locks and file handles in memory, and the interface
    [HandlerEnv] to the parts of ufs.c and cache.c that packets use.

    C pointers are addresses in the flat memory of [FileEnv], NULL is 0, and
    following NULL is undefined.  A BCPL pointer is an address divided by
    four.  Packet arguments are signed longs. *)

From Stdlib Require Import String.
From S2P Require Import Prelude Bitmap Superblock Cg CgStore Alloc FileEnv.
Local Open Scope bffs_scope.

(** ** Data *)

(** struct DosPacket. *)
Record packet := Packet {
  dp_Type : Z;
  dp_Arg1 : Z;
  dp_Arg2 : Z;
  dp_Arg3 : Z;
  dp_Arg4 : Z }.

(** Globals the command line sets. *)
Record options := Options {
  link_comments : Z;
  inode_comments : Z;
  og_perm_invert : Z;
  GMT : Z;
  minfree : Z;
  phys_sectorsize : Z;
  physical_ro : Z;
  fs_partition : Z;
  timer_loops : Z }.

(** Fields of the superblock that only packets and system.c use.  The bytes
    of [fs_fsmnt] are followed by the first byte of [fs_cgrotor], the next
    field, which one of the writes reaches. *)
Record super_rest := SuperRest {
  fs_dsize : Z;
  fs_new_dsize : Z;        (* the low word *)
  fs_minfree : Z;
  fs_time : Z;
  fs_fsmnt : list Z;       (* char fs_fsmnt[MAXMNTLEN], and one byte *)
  fs_clean : Z }.

Record handler := Handler {
  Res1 : Z;                (* global.Res1 *)
  pack : packet;
  opts : options;
  super : super_rest;
  VolNode : Z;
  volumename : Z;
  di_DevInfo : Z;          (* the list of DOS devices and volumes *)
  DosPort : Z;
  handler_name : list Z;
  stat : Z;
  dn_Startup : Z;          (* DevNode->dn_Startup *)
  inhibited : Z;
  dev_openfail : Z;
  receiving_packets : Z;
  timing : Z;
  write_items : Z;
  write_delay : Z }.

Definition set_Res1 (v : Z) (h : handler) : handler :=
  Handler (u32 v) (pack h) (opts h) (super h) (VolNode h) (volumename h) (di_DevInfo h) (DosPort h)
    (handler_name h) (stat h) (dn_Startup h) (inhibited h) (dev_openfail h) (receiving_packets h)
    (timing h) (write_items h) (write_delay h).
Definition set_pack (v : packet) (h : handler) : handler :=
  Handler (Res1 h) v (opts h) (super h) (VolNode h) (volumename h) (di_DevInfo h) (DosPort h)
    (handler_name h) (stat h) (dn_Startup h) (inhibited h) (dev_openfail h) (receiving_packets h)
    (timing h) (write_items h) (write_delay h).
Definition set_super (v : super_rest) (h : handler) : handler :=
  Handler (Res1 h) (pack h) (opts h) v (VolNode h) (volumename h) (di_DevInfo h) (DosPort h)
    (handler_name h) (stat h) (dn_Startup h) (inhibited h) (dev_openfail h) (receiving_packets h)
    (timing h) (write_items h) (write_delay h).
Definition set_VolNode (v : Z) (h : handler) : handler :=
  Handler (Res1 h) (pack h) (opts h) (super h) v (volumename h) (di_DevInfo h) (DosPort h)
    (handler_name h) (stat h) (dn_Startup h) (inhibited h) (dev_openfail h) (receiving_packets h)
    (timing h) (write_items h) (write_delay h).
Definition set_volumename (v : Z) (h : handler) : handler :=
  Handler (Res1 h) (pack h) (opts h) (super h) (VolNode h) v (di_DevInfo h) (DosPort h)
    (handler_name h) (stat h) (dn_Startup h) (inhibited h) (dev_openfail h) (receiving_packets h)
    (timing h) (write_items h) (write_delay h).
Definition set_di_DevInfo (v : Z) (h : handler) : handler :=
  Handler (Res1 h) (pack h) (opts h) (super h) (VolNode h) (volumename h) v (DosPort h)
    (handler_name h) (stat h) (dn_Startup h) (inhibited h) (dev_openfail h) (receiving_packets h)
    (timing h) (write_items h) (write_delay h).
Definition set_stat (v : Z) (h : handler) : handler :=
  Handler (Res1 h) (pack h) (opts h) (super h) (VolNode h) (volumename h) (di_DevInfo h) (DosPort h)
    (handler_name h) v (dn_Startup h) (inhibited h) (dev_openfail h) (receiving_packets h)
    (timing h) (write_items h) (write_delay h).
Definition set_handler_name (v : list Z) (h : handler) : handler :=
  Handler (Res1 h) (pack h) (opts h) (super h) (VolNode h) (volumename h) (di_DevInfo h) (DosPort h)
    v (stat h) (dn_Startup h) (inhibited h) (dev_openfail h) (receiving_packets h)
    (timing h) (write_items h) (write_delay h).
Definition set_inhibited (v : Z) (h : handler) : handler :=
  Handler (Res1 h) (pack h) (opts h) (super h) (VolNode h) (volumename h) (di_DevInfo h) (DosPort h)
    (handler_name h) (stat h) (dn_Startup h) (s32 v) (dev_openfail h) (receiving_packets h)
    (timing h) (write_items h) (write_delay h).
Definition set_dev_openfail (v : Z) (h : handler) : handler :=
  Handler (Res1 h) (pack h) (opts h) (super h) (VolNode h) (volumename h) (di_DevInfo h) (DosPort h)
    (handler_name h) (stat h) (dn_Startup h) (inhibited h) v (receiving_packets h)
    (timing h) (write_items h) (write_delay h).
Definition set_receiving_packets (v : Z) (h : handler) : handler :=
  Handler (Res1 h) (pack h) (opts h) (super h) (VolNode h) (volumename h) (di_DevInfo h) (DosPort h)
    (handler_name h) (stat h) (dn_Startup h) (inhibited h) (dev_openfail h) v
    (timing h) (write_items h) (write_delay h).
Definition set_timer (t items delay : Z) (h : handler) : handler :=
  Handler (Res1 h) (pack h) (opts h) (super h) (VolNode h) (volumename h) (di_DevInfo h) (DosPort h)
    (handler_name h) (stat h) (dn_Startup h) (inhibited h) (dev_openfail h) (receiving_packets h)
    t items delay.

(** ** The interface *)

(** [room] bounds the nodes of a list and the characters of a string that
    fit in memory.  [superblock_read] says that [superblock] is not NULL.
    [stat_values] are the addresses and values ACTION_FS_STATS publishes. *)
Class HandlerEnv (S : Type) `{FileEnv S} := {
  he_handler : S -> handler;
  he_set_handler : handler -> S -> S;
  room : nat;
  superblock_read : S -> bool;
  motor_is_on : S -> Z;
  cache_item_dirty : S -> Z;
  cache_size : S -> Z;
  set_cache_size : Z -> S -> S;
  cache_cg_size : S -> Z;
  set_cache_cg_size : Z -> S -> S;
  stat_values : S -> list Z;
  open_device : M S Z;
  close_device : M S unit;
  motor_on : M S unit;
  motor_off : M S unit;
  find_superblock : M S Z;
  superblock_flush : M S Z;
  superblock_destroy : M S unit;
  open_cache : M S unit;
  close_cache : M S unit;
  cache_flush : M S Z;
  cache_cg_flush : M S Z;
  cache_full_invalidate : M S unit;
  cache_adjust : M S unit;
  cache_cg_adjust : M S unit }.

(** ** Constants of the system: dos/dos.h, dos/dosextens.h *)

Definition DOSTRUE : Z := -1.
Definition DOSFALSE : Z := 0.
Definition EXCLUSIVE_LOCK : Z := -1.
Definition ACCESS_WRITE : Z := -1.
Definition SHARED_LOCK : Z := -2.
Definition ACCESS_READ : Z := -2.
Definition OFFSET_END : Z := 1.
Definition OFFSET_CURRENT : Z := 0.
Definition LOCK_DIFFERENT : Z := -1.
Definition LOCK_SAME : Z := 0.
Definition LOCK_SAME_HANDLER : Z := 1.
Definition ERROR_BAD_TEMPLATE : Z := 114.
Definition ERROR_BAD_NUMBER : Z := 115.
Definition ERROR_OBJECT_IN_USE : Z := 202.
Definition ERROR_OBJECT_EXISTS : Z := 203.
Definition ERROR_DIR_NOT_FOUND : Z := 204.
Definition ERROR_OBJECT_TOO_LARGE : Z := 207.
Definition ERROR_ACTION_NOT_KNOWN : Z := 209.
Definition ERROR_INVALID_COMPONENT_NAME : Z := 210.
Definition ERROR_OBJECT_WRONG_TYPE : Z := 212.
Definition ERROR_DISK_NOT_VALIDATED : Z := 213.
Definition ERROR_DISK_WRITE_PROTECTED : Z := 214.
Definition ERROR_DEVICE_NOT_MOUNTED : Z := 218.
Definition ERROR_SEEK_ERROR : Z := 219.
Definition ERROR_DELETE_PROTECTED : Z := 222.
Definition ERROR_WRITE_PROTECTED : Z := 223.
Definition ERROR_READ_PROTECTED : Z := 224.
Definition ERROR_NOT_A_DOS_DISK : Z := 225.
Definition ERROR_NO_MORE_ENTRIES : Z := 232.

(** struct DeviceList: a node of the list of volumes. *)
Definition sizeof_DeviceList : Z := 44.
Definition dl_Next (p : Z) : Z := p.
Definition dl_Type (p : Z) : Z := p + 4.
Definition dl_Task (p : Z) : Z := p + 8.
Definition dl_Lock (p : Z) : Z := p + 12.
Definition dl_VolumeDate (p : Z) : Z := p + 16.
Definition dl_LockList (p : Z) : Z := p + 28.
Definition dl_DiskType (p : Z) : Z := p + 32.
Definition dl_unused (p : Z) : Z := p + 36.
Definition dl_Name (p : Z) : Z := p + 40.
Definition DLT_VOLUME : Z := 2.
Definition fh_Arg1 (p : Z) : Z := p + 36.          (* struct FileHandle *)

(** ** packets.h *)

(** BFFSLock_t *)
Definition sizeof_lock : Z := 32.
Definition fl_Link (p : Z) : Z := p.
Definition fl_Key (p : Z) : Z := p + 4.
Definition fl_Access (p : Z) : Z := p + 8.
Definition fl_Task (p : Z) : Z := p + 12.
Definition fl_Volume (p : Z) : Z := p + 16.
Definition fl_Pinum (p : Z) : Z := p + 20.
Definition fl_Poffset (p : Z) : Z := p + 24.
Definition fl_Fileh (p : Z) : Z := p + 28.

(** BFFSfh_t *)
Definition sizeof_fh : Z := 24.
Definition fh_lock (p : Z) : Z := p.
Definition current_position (p : Z) : Z := p + 4.
Definition maximum_position (p : Z) : Z := p + 8.
Definition access_mode (p : Z) : Z := p + 12.
Definition truncate_mode (p : Z) : Z := p + 16.
Definition real_inum (p : Z) : Z := p + 20.

Definition MODE_READ : Z := 0.
Definition MODE_WRITE : Z := 1.
Definition MODE_UPDATE : Z := 0.
Definition MODE_TRUNCATE : Z := 1.
Definition MSb : Z := Z.shiftl 1 31.

(** The macros CTOB and BTOC. *)
Definition CTOB (x : Z) : Z := Z.shiftr x 2.
Definition BTOC (x : Z) : Z := u32 (Z.shiftl x 2).

(** bffs_dosextens.h *)
Definition ACTION_SET_OWNER : Z := 1036.
Definition ACTION_CREATE_OBJECT : Z := 2346.
Definition ACTION_GET_PERMS : Z := 2995.
Definition ACTION_SET_PERMS : Z := 2996.
Definition ACTION_SET_TIMES : Z := 2997.
Definition ACTION_SET_DATES : Z := 2998.
Definition ACTION_FS_STATS : Z := 2999.
Definition ACTION_GET_DISK_FSSM : Z := 4201.
Definition ACTION_FREE_DISK_FSSM : Z := 4202.
Definition ACTION_EX_OBJECT : Z := 50.
Definition ACTION_EX_NEXT : Z := 51.

(** ufs/inode.h, ufs/fs.h and ufs/dir.h *)
Definition ROOTINO : Z := 2.
Definition MAXMNTLEN : Z := 512.
Definition IFIFO : Z := 0x1000.
Definition IFBLK : Z := 0x6000.
Definition IFSOCK : Z := 0xc000.
Definition IFWHT : Z := 0xe000.
Definition ISUID : Z := 0x800.
Definition ISGID : Z := 0x400.
Definition ISVTX : Z := 0x200.
Definition IEXEC : Z := 0x40.
Definition ic_ouid (p : Z) : Z := p + 4.
Definition ic_ogid (p : Z) : Z := p + 6.
Definition ic_size_high (p : Z) : Z := p + 8.      (* ic_size.val[0] *)
Definition ic_atime_ns (p : Z) : Z := p + 20.
Definition ic_mtime_ns (p : Z) : Z := p + 28.
Definition ic_ctime_ns (p : Z) : Z := p + 36.
Definition ic_nuid (p : Z) : Z := p + 112.
Definition ic_ngid (p : Z) : Z := p + 116.
Definition DT_FIFO : Z := 1.
Definition DT_CHR : Z := 2.
Definition DT_DIR : Z := 4.
Definition DT_BLK : Z := 6.
Definition DT_REG : Z := 8.
Definition DT_LNK : Z := 10.
Definition DT_WHT : Z := 16.

(** ** Access *)

Section Handler.
Context {S : Type} `{HandlerEnv S}.

Definition hv {A} (f : handler -> A) : M S A := gets (fun s => f (he_handler s)).
Definition upd_hv (f : handler -> handler) : M S unit :=
  modify (fun s => he_set_handler (f (he_handler s)) s).

Definition TYPE : M S Z := hv (fun h => dp_Type (pack h)).
Definition ARG1 : M S Z := hv (fun h => dp_Arg1 (pack h)).
Definition ARG2 : M S Z := hv (fun h => dp_Arg2 (pack h)).
Definition ARG3 : M S Z := hv (fun h => dp_Arg3 (pack h)).
Definition ARG4 : M S Z := hv (fun h => dp_Arg4 (pack h)).
Definition opt {A} (f : options -> A) : M S A := hv (fun h => f (opts h)).

Definition res1 (v : Z) : M S unit := upd_hv (set_Res1 v).
Definition res2 (v : Z) : M S unit := upd_glob (set_Res2 (u32 v)).
(** The two assignments of a failed packet. *)
Definition fail (v : Z) : M S unit := res1 DOSFALSE ;; res2 v.
(** if (global.Res2 == 0) global.Res2 = v; *)
Definition res2_default (v : Z) : M S unit :=
  r <- glob Res2 ;; if r =? 0 then res2 v else ret tt.

(** Following a C pointer. *)
Definition ptr (p : Z) : M S Z := if p =? 0 then undef else ret p.

(** The C string at an address. *)
Definition str_at (p : Z) : M S (list Z) := c_str room p.
Definition strlen (p : Z) : M S Z := str <- str_at p ;; ret (zlen str).

(** strncpy: at most [n] characters of the source, then zeros up to [n]. *)
Fixpoint strncpy (n : nat) (dst src : Z) : M S unit :=
  match n with
  | O => ret tt
  | Datatypes.S n' =>
      c <- rd8 src ;;
      if c =? 0 then memset dst 0 (Z.of_nat n)
      else wr8 dst c ;; strncpy n' (dst + 1) (src + 1)
  end.

(** Whether the superblock says read only. *)
Definition fs_is_ronly : M S bool := f <- superblock ;; ret (negb (fs_ronly f =? 0)).
(** superblock->fs_fmod++ *)
Definition fs_fmod_inc : M S unit := upd_superblock fmod_inc.

End Handler.

(** ** Text *)

(** The characters of a string constant. *)
Definition chars (str : String.string) : list Z :=
  map (fun a => Z.of_N (Ascii.N_of_ascii a)) (String.list_ascii_of_string str).

(** Digits of a natural number below base^fuel, most significant first. *)
Fixpoint digits (fuel : nat) (base n : Z) : list Z :=
  match fuel with
  | O => []
  | Datatypes.S fuel =>
      if n <? base then [0x30 + n] else digits fuel base (n / base) ++ [0x30 + n mod base]
  end.

(** The conversions of sprintf the handler uses: %u and %d of a 32 bit
    value, %-<w>u and %0<w>o. *)
Definition fmt_u (n : Z) : list Z := digits 12 10 (u32 n).
Definition fmt_d (n : Z) : list Z :=
  if s32 n <? 0 then 0x2d :: digits 12 10 (- s32 n) else digits 12 10 (s32 n).
Definition fmt_left (w n : Z) : list Z :=
  fmt_u n ++ repeat 0x20 (Z.to_nat (w - zlen (fmt_u n))).
Definition fmt_octal (w n : Z) : list Z :=
  repeat 0x30 (Z.to_nat (w - zlen (digits 12 8 (u32 n)))) ++ digits 12 8 (u32 n).
