(* ===== verification/System.v ===== *)
(** [system.c]: the volume node, locks, the two path parsers, and mounting
    and unmounting.  Forbid and Permit keep other tasks away from the system
    lists; the handler is the only task here. *)

From Stdlib Require Import String.
From S2P Require Import Prelude Bitmap Superblock Cg CgStore Alloc UnixTime FileEnv Inode FileAlloc Dir Lookup Handler.
Local Open Scope bffs_scope.

Definition ACCESS_INVISIBLE : Z := 0.
Definition ID_BFFS_DISK : Z := 0x42464653.
Definition sizeof_stat : Z := 276.
Definition disk_type (p : Z) : Z := p + 240.

Section System.
Context {S : Type} `{HandlerEnv S}.

(** ** Locks *)

(** The loop of CreateLock: the first lock on the list with this key, and
    its access. *)
Fixpoint find_lock (fuel : nat) (lock key : Z) : M S (Z * Z) :=
  if lock =? 0 then ret (0, 0)
  else
    match fuel with
    | O => undef
    | Datatypes.S fuel =>
        k <- rd32 (fl_Key lock) ;;
        if k =? key then access <- rds32 (fl_Access lock) ;; ret (lock, access)
        else link <- rd32 (fl_Link lock) ;; find_lock fuel (BTOC link) key
    end.

(** Whether the switch of CreateLock refuses the lock. *)
Definition lock_refused (mode access : Z) : bool :=
  if mode =? EXCLUSIVE_LOCK then negb (access =? 0)
  else if mode =? ACCESS_INVISIBLE then false
  else access =? EXCLUSIVE_LOCK.

Definition CreateLock (key mode pinum poffset : Z) : M S Z :=
  vol <- hv VolNode ;;
  if vol =? 0 then res2 ERROR_DEVICE_NOT_MOUNTED ;; ret 0
  else
    head <- rd32 (dl_LockList vol) ;;
    found <- find_lock room (BTOC head) key ;;
    if lock_refused mode found.2 then res2 ERROR_OBJECT_IN_USE ;; ret 0
    else
      got <- AllocMem sizeof_lock ;;
      match got with
      | None => res2 ERROR_NO_FREE_STORE ;; ret 0
      | Some lock =>
          port <- hv DosPort ;;
          wr32 (fl_Key lock) key ;;
          wr32 (fl_Access lock) mode ;;
          wr32 (fl_Task lock) port ;;
          wr32 (fl_Volume lock) (CTOB vol) ;;
          wr32 (fl_Pinum lock) pinum ;;
          wr32 (fl_Poffset lock) poffset ;;
          wr32 (fl_Fileh lock) 0 ;;
          head <- rd32 (dl_LockList vol) ;;
          wr32 (fl_Link lock) head ;;
          wr32 (dl_LockList vol) (CTOB lock) ;;
          ret lock
      end.

(** ** Files left open *)

Definition truncate_file (fileh : Z) : M S unit :=
  mode <- rds32 (access_mode fileh) ;;
  if negb (mode =? MODE_WRITE) then ret tt
  else
    inum <- rds32 (real_inum fileh) ;;
    inode <- inode_modify_ptr (u32 inum) ;;
    now <- unix_time ;;
    wr32 (ic_mtime inode) now ;;
    trunc <- rds32 (truncate_mode fileh) ;;
    (if trunc =? MODE_TRUNCATE then
       size <- rd32 (ic_size inode) ;;
       top <- rd32 (maximum_position fileh) ;;
       (if top <? size then
          SET_IC_SIZE inode top ;;
          inum <- rds32 (real_inum fileh) ;;
          file_blocks_deallocate (u32 inum)
        else ret tt) ;;
       wr32 (truncate_mode fileh) MODE_UPDATE
     else ret tt) ;;
    inum <- rds32 (real_inum fileh) ;;
    file_block_retract (u32 inum) ;;
    wr32 (access_mode fileh) MODE_READ.

Fixpoint close_locks (fuel : nat) (lock : Z) : M S unit :=
  if lock =? 0 then ret tt
  else
    match fuel with
    | O => undef
    | Datatypes.S fuel =>
        fileh <- rd32 (fl_Fileh lock) ;;
        mode <- (if fileh =? 0 then ret MODE_READ else rds32 (access_mode fileh)) ;;
        (if mode =? MODE_WRITE then
           truncate_file fileh ;;
           fileh <- rd32 (fl_Fileh lock) ;;
           fileh <- ptr fileh ;;
           wr32 (access_mode fileh) MODE_READ
         else ret tt) ;;
        link <- rd32 (fl_Link lock) ;;
        close_locks fuel (BTOC link)
    end.

Definition close_files : M S unit :=
  vol <- hv VolNode ;;
  if vol =? 0 then ret tt
  else head <- rd32 (dl_LockList vol) ;; close_locks room (BTOC head).

(** ** The volume node *)

(** The first loop of fsname: the index of the terminator of fs_fsmnt, or
    [None] for the jump to invalid_last_mount.  A name without terminator
    is read past its array. *)
Fixpoint fsmnt_scan (l : list Z) (i : Z) : M S (option Z) :=
  match l with
  | [] => undef
  | c :: l =>
      if c =? 0 then ret (Some i)
      else if s8 c <? 0x20 then ret None
      else fsmnt_scan l (i + 1)
  end.

(** The loop that steps back over slashes and the terminator. *)
Fixpoint skip_slashes (fuel : nat) (fsmnt : list Z) (i : Z) : Z :=
  match fuel with
  | O => i
  | Datatypes.S fuel =>
      if ((zget fsmnt i =? 0x2f) || (zget fsmnt i =? 0)) && (0 <? i)
      then skip_slashes fuel fsmnt (i - 1) else i
  end.

(** The loop that steps back to a slash. *)
Fixpoint back_to_slash (fuel : nat) (fsmnt : list Z) (i : Z) : Z :=
  match fuel with
  | O => i
  | Datatypes.S fuel =>
      if (0 <? i) && negb (zget fsmnt i =? 0x2f) then back_to_slash fuel fsmnt (i - 1) else i
  end.

(** The characters from index [i] up to the terminator. *)
Fixpoint until_nul (l : list Z) : list Z :=
  match l with
  | [] => []
  | c :: l => if c =? 0 then [] else c :: until_nul l
  end.

Definition last_component (fsmnt : list Z) (i : Z) : list Z :=
  let i := skip_slashes (length fsmnt) fsmnt i in
  let i := back_to_slash (length fsmnt) fsmnt i in
  let i := if zget fsmnt i =? 0x2f then i + 1 else i in
  until_nul (drop (Z.to_nat i) fsmnt).

(** Whether a node of the system's list has the name of the volume. *)
Fixpoint name_taken (fuel : nat) (tmp : Z) (name : list Z) : M S bool :=
  if tmp =? 0 then ret false
  else
    match fuel with
    | O => undef
    | Datatypes.S fuel =>
        n <- rd32 (dl_Name tmp) ;;
        same <- streqv (BTOC n + 1) name ;;
        if negb (same =? 0) then ret true
        else next <- rd32 (dl_Next tmp) ;; name_taken fuel (BTOC next) name
    end.

(** search_again: a number is appended until the name is free. *)
Fixpoint unique_name (fuel : nat) (volname len count : Z) : M S unit :=
  match fuel with
  | O => undef
  | Datatypes.S fuel =>
      head <- hv di_DevInfo ;;
      name <- str_at (volname + 1) ;;
      taken <- name_taken room (BTOC head) name ;;
      if taken then
        strcpy (volname + len) (fmt_u count) ;;
        unique_name fuel volname len (u32 (count + 1))
      else ret tt
  end.

Definition invalid_last_mount (volname : Z) : M S unit :=
  strcpy (volname + 1) (chars "BFFS0"%string) ;;
  n <- strlen (volname + 1) ;;
  part <- opt fs_partition ;;
  wr8 (volname + n) (0x61 + part) ;;
  n <- strlen (volname + 1) ;;
  unique_name room volname (n + 1) 0.

Definition fsname : M S unit :=
  volname <- hv volumename ;;
  present <- gets superblock_read ;;
  if negb present then wr8 volname 4 ;; strcpy (volname + 1) (chars "NULL"%string)
  else
    sb <- hv super ;;
    last <- fsmnt_scan (take (Z.to_nat MAXMNTLEN) (fs_fsmnt sb)) 0 ;;
    (match last with
     | None => invalid_last_mount volname
     | Some i =>
         let name := last_component (fs_fsmnt sb) i in
         strcpy (volname + 1) name ;;
         if bool_decide (name = []) then invalid_last_mount volname else ret tt
     end) ;;
    n <- strlen (volname + 1) ;;
    wr8 volname n.

Definition wr_date (p : Z) (ds : DateStamp) : M S unit :=
  wr32 p (ds_Days ds) ;; wr32 (p + 4) (ds_Minute ds) ;; wr32 (p + 8) (ds_Tick ds).

Definition NewVolNode : M S unit :=
  vol <- hv VolNode ;;
  if negb (vol =? 0) then ret tt
  else
    got <- AllocMem sizeof_DeviceList ;;
    match got with
    | None => ret tt
    | Some vol =>
        upd_hv (set_VolNode vol) ;;
        got <- AllocMem MAXMNTLEN ;;
        upd_hv (set_volumename (match got with Some name => name | None => 0 end)) ;;
        match got with
        | None => FreeMem (Some vol) sizeof_DeviceList ;; upd_hv (set_VolNode 0)
        | Some name =>
            fsname ;;
            sb <- hv super ;;
            gmt <- opt GMT ;;
            wr_date (dl_VolumeDate vol) (unix_time_to_amiga_ds gmt (fs_time sb)) ;;
            wr32 (dl_Type vol) DLT_VOLUME ;;
            port <- hv DosPort ;;
            wr32 (dl_Task vol) port ;;
            wr32 (dl_Lock vol) 0 ;;
            wr32 (dl_LockList vol) 0 ;;
            wr32 (dl_DiskType vol) ID_BFFS_DISK ;;
            wr32 (dl_unused vol) 0 ;;
            wr32 (dl_Name vol) (CTOB name) ;;
            head <- hv di_DevInfo ;;
            wr32 (dl_Next vol) head ;;
            upd_hv (set_di_DevInfo (CTOB vol))
        end
    end.

(** The loop of RemoveVolNode, which goes on after the node is unlinked. *)
Fixpoint unlink_volume (fuel : nat) (vol current parent : Z) : M S unit :=
  if current =? 0 then ret tt
  else
    match fuel with
    | O => undef
    | Datatypes.S fuel =>
        parent <- (if current =? vol then
                     wr32 (dl_Task current) 0 ;;
                     next <- rd32 (dl_Next current) ;;
                     (if parent =? 0 then upd_hv (set_di_DevInfo next)
                      else wr32 (dl_Next parent) next) ;;
                     ret parent
                   else ret current) ;;
        next <- rd32 (dl_Next current) ;;
        unlink_volume fuel vol (BTOC next) parent
    end.

Definition RemoveVolNode : M S unit :=
  vol <- hv VolNode ;;
  if vol =? 0 then ret tt
  else
    head <- hv di_DevInfo ;;
    unlink_volume room vol (BTOC head) 0 ;;
    name <- rd32 (dl_Name vol) ;;
    FreeMem (Some (BTOC name)) MAXMNTLEN ;;
    FreeMem (Some vol) sizeof_DeviceList ;;
    upd_hv (set_VolNode 0).

(** ** Statistics *)

Definition stats_init : M S unit :=
  p <- hv stat ;;
  got <- (if p =? 0 then AllocMem sizeof_stat else ret (Some p)) ;;
  upd_hv (set_stat (match got with Some p => p | None => 0 end)) ;;
  match got with
  | None => ret tt
  | Some p =>
      mfor (upto 0 (sizeof_stat / 4) 1) (fun i => wr32 (p + 4 * i) 0) ;;
      wr32 (p + 4) (sizeof_stat / 4) ;;
      wr32 p 0x42464600
  end.

(** ** Paths *)

(** [pos p path] is strchr(path, ':'). *)
Fixpoint colon_at (chars : list Z) (p : Z) : Z :=
  match chars with
  | [] => 0
  | c :: chars => if c =? 0x3a then p else colon_at chars (p + 1)
  end.

(** The loop of ResolveColon over the list of devices and volumes. *)
Fixpoint assign_find (fuel : nat) (tmp : Z) (name : list Z) : M S Z :=
  if tmp =? 0 then ret 0
  else
    match fuel with
    | O => undef
    | Datatypes.S fuel =>
        type <- rd32 (dl_Type tmp) ;;
        same <- (if type =? 1 then
                   n <- rd32 (dl_Name tmp) ;;
                   len <- rd8 (BTOC n) ;;
                   str <- c_str_n (Z.to_nat (s8 len)) (BTOC n + 1) ;;
                   ret (strnicmp str name (s8 len) =? 0)
                 else ret false) ;;
        if same then ret tmp
        else next <- rd32 (dl_Next tmp) ;; assign_find fuel (BTOC next) name
    end.

(** ResolveColon(name): the inode number the part before a colon stands for,
    or 0 when there is no colon. *)
Definition ResolveColon (name : Z) : M S Z :=
  str <- str_at name ;;
  let pos := colon_at str name in
  if pos =? 0 then ret 0
  else if pos =? name then ret 2
  else
    wr8 pos 0 ;;
    vname <- hv volumename ;;
    dev <- str_at name ;;
    same <- streqv (vname + 1) dev ;;
    hname <- hv handler_name ;;
    if negb (same =? 0) || (strnicmp hname dev DIRNAMELEN =? 0) then wr8 pos 0x3a ;; ret 2
    else
      head <- hv di_DevInfo ;;
      tmp <- assign_find room (BTOC head) dev ;;
      wr8 pos 0x3a ;;
      if tmp =? 0 then ret 2
      else
        l <- rd32 (dl_Lock tmp) ;;
        fl <- ptr (BTOC l) ;;
        p <- rd32 (fl_Pinum fl) ;;
        upd_glob (set_Pinum p) ;;
        o <- rd32 (fl_Poffset fl) ;;
        upd_glob (set_Poffset o) ;;
        rd32 (fl_Key fl).

(** The backward loop of parent_parse from the end of the string at [sname]:
    the offset of the part after the last separator, and the separator (0
    when there is none).  Only separators after the first character count. *)
Fixpoint last_part (fuel : nat) (str : list Z) (i : Z) : Z * Z :=
  match fuel with
  | O => (i, 0)
  | Datatypes.S fuel =>
      if i <=? 0 then (i, 0)
      else
        let c := zget str i in
        if (c =? 0x2f) || (c =? 0x3a) then (i + 1, c) else last_part fuel str (i - 1)
  end.

Definition parent_parse (lock path : Z) : M S (Z * Z) :=
  pinum <- ResolveColon path ;;
  start <- (if negb (pinum =? 0) then
              str <- str_at path ;;
              let pos := colon_at str path in
              if pos =? 0 then ret (2, 0) else ret (pinum, pos + 1)
            else
              p <- (if lock =? 0 then ret 2 else rd32 (fl_Key lock)) ;; ret (p, path)) ;;
  let '(pinum, sname) := start in
  sname <- ptr sname ;;
  str <- str_at sname ;;
  let '(off, sep) := last_part (length str + 1) str (zlen str) in
  let part := sname + off in
  (if sep =? 0 then ret tt else wr8 (part - 1) 0) ;;
  gl <- glob id ;;
  c <- rd8 part ;;
  r <- (if negb (sname =? part) then
          dir <- str_at sname ;;
          pinum <- file_find pinum dir ;;
          back <- (if sname + 1 <? part then rd8 (part - 2) else ret 0) ;;
          if (unix_paths gl =? 0) && (sname + 1 <? part) && (back =? 0x2f)
          then p <- dir_name_search pinum [0x2e; 0x2e] ;; ret (p, part)
          else ret (pinum, part)
        else if c =? 0x2f then
          p <- (if negb (unix_paths gl =? 0) then ret 2 else dir_name_search pinum [0x2e; 0x2e]) ;;
          ret (p, part + 1)
        else ret (pinum, part)) ;;
  let '(pinum, part) := r in
  (if sep =? 0 then ret tt else wr8 (part - 1) sep) ;;
  ret (pinum, part).

Definition path_parse (lock path : Z) : M S Z :=
  inum <- ResolveColon path ;;
  start <- (if negb (inum =? 0) then
              str <- str_at path ;;
              let pos := colon_at str path in
              if pos =? 0 then ret (2, path) else ret (inum, pos + 1)
            else if lock =? 0 then ret (2, path)
            else
              inum <- rd32 (fl_Key lock) ;;
              p <- rd32 (fl_Pinum lock) ;;
              upd_glob (set_Pinum p) ;;
              o <- rd32 (fl_Poffset lock) ;;
              upd_glob (set_Poffset o) ;;
              ret (inum, path)) ;;
  str <- str_at start.2 ;;
  file_find start.1 str.

(** ** Mounting *)

(** strcpy(stat->disk_type, str) *)
Definition stat_disk_type (str : String.string) : M S unit :=
  p <- hv stat ;; p <- ptr p ;; strcpy (disk_type p) (chars str).

Definition open_filesystem : M S Z :=
  n <- hv inhibited ;;
  if negb (n =? 0) then fail ERROR_DEVICE_NOT_MOUNTED ;; ret 1
  else
    bad <- hv dev_openfail ;;
    (if bad =? 1 then r <- open_device ;; upd_hv (set_dev_openfail r) else ret tt) ;;
    bad <- hv dev_openfail ;;
    (if negb (bad =? 1) then
       r <- find_superblock ;;
       upd_hv (set_dev_openfail r) ;;
       if negb (r =? 0) then stat_disk_type "No fs"%string else ret tt
     else res2 ERROR_DEVICE_NOT_MOUNTED) ;;
    bad <- hv dev_openfail ;;
    (if negb (bad =? 0) then fail ERROR_NOT_A_DOS_DISK
     else open_cache ;; RemoveVolNode ;; NewVolNode) ;;
    motor_off ;;
    ret 0.

Definition set_clean (v : Z) (sb : super_rest) : super_rest :=
  SuperRest (fs_dsize sb) (fs_new_dsize sb) (fs_minfree sb) (fs_time sb) (fs_fsmnt sb) v.

Definition close_filesystem : M S unit :=
  n <- hv inhibited ;;
  if negb (n =? 0) then ret tt
  else
    present <- gets superblock_read ;;
    (if present then
       cache_flush ;;
       cache_cg_flush ;;
       upd_hv (fun h => set_super (set_clean 1 (super h)) h) ;;
       fs_fmod_inc ;;
       superblock_flush ;;
       close_cache ;;
       superblock_destroy ;;
       stat_disk_type "Unmounted"%string
     else ret tt) ;;
    on <- gets motor_is_on ;;
    (if on =? 0 then ret tt else motor_off) ;;
    close_device ;;
    upd_hv (set_dev_openfail 1) ;;
    RemoveVolNode.

End System.
