(* ===== verification/InodeSpec.v ===== *)
(** Inode allocation against its specification: the invariant of the inode
    maps and counts, the choice of a group and of an inode, and the effect of
    taking one. *)

From S2P Require Import Prelude Bitmap Superblock Addresses Cg CgSearch Runs Accounting.
From S2P Require Import Clusters Summary FragSummary CgStore Alloc AllocWp AllocSpec AllocInv.
From S2P Require Import FileEnv Inode.
Local Open Scope bffs_scope.

(** A set bit is an inode in use. *)
Definition ino_used (c : cg) (i : Z) : bool := is_free (cg_inosused c) i.

Definition free_inodes (c : cg) : Z :=
  zsum (fun i => if ino_used c i then 0 else 1) (seqZ 0 (cg_niblk c)).

Record ino_ok (g : geometry) (k : Z) (c : cg) : Prop := {
  io_niblk : cg_niblk c = fs_ipg g;
  io_len : cg_niblk c <= 8 * zlen (cg_inosused c);
  io_rotor : 0 <= cg_irotor c;
  io_count : cs_nifree (cg_cs c) = free_inodes c;
  io_reserved : k = 0 -> forall i, 0 <= i < 3 -> ino_used c i = true }.

Record inode_inv (f : fs) (v : Z -> cg) : Prop := {
  ii_groups : forall k, 0 <= k < fs_ncg f -> ino_ok f k (v k);
  ii_size : fs_ipg f * fs_ncg f < 2 ^ 31 }.

(** The abstract state: inode [i] of the file system is in use. *)
Definition inode_used (f : fs) (v : Z -> cg) (i : Z) : bool :=
  ino_used (v (itog f i)) (i mod fs_ipg f).

(** ** One group *)

Section Group.
Context (g : geometry) (k : Z) (c : cg) (Hc : ino_ok g k c).

Lemma free_inodes_bounds : 0 <= free_inodes c <= Z.max 0 (cg_niblk c).
Proof using Type.
  split.
  - apply zsum_nonneg. intros x _. by destruct (ino_used c x).
  - assert (free_inodes c <= 1 * Z.of_nat (length (seqZ 0 (cg_niblk c)))) as H.
    { apply zsum_le. intros x _. by destruct (ino_used c x). }
    rewrite length_seqZ in H. lia.
Qed.

Lemma free_inodes_pos :
  0 < free_inodes c <-> exists i, 0 <= i < cg_niblk c /\ ino_used c i = false.
Proof using Type.
  split.
  - intros H. apply zsum_exists in H as (i & Hi%elem_of_seqZ & Hp). exists i.
    split; [lia|]. by destruct (ino_used c i).
  - intros (i & Hi & Hu).
    assert ((if ino_used c i then 0 else 1) <= free_inodes c); [|rewrite Hu in *; lia].
    apply (zsum_pos_elem (fun i => if ino_used c i then 0 else 1)); [|apply elem_of_seqZ; lia].
    intros x _. by destruct (ino_used c x).
Qed.

Lemma clear_bit i : (bit_chk (cg_inosused c) i =? 0) = negb (ino_used c i).
Proof using Type. apply bit_chk_free. Qed.

(** The search finds a free inode whenever the count says there is one. *)
Lemma free_inode_some :
  0 < free_inodes c ->
  exists i, free_inode c k = Some i /\ 0 <= i < cg_niblk c /\ ino_used c i = false.
Proof using Hc.
  intros Hp. apply free_inodes_pos in Hp as (j & Hj & Hu).
  pose proof (io_rotor g k c Hc) as Hr. pose proof (io_reserved g k c Hc) as Hres.
  assert (k = 0 -> 3 <= j) as Hj3.
  { intros Hk. destruct (Z.le_gt_cases 3 j) as [|Hlt]; [done|exfalso].
    by rewrite (Hres Hk j ltac:(lia)) in Hu. }
  unfold free_inode. set (first := if k =? 0 then 3 else 0).
  set (inum := if cg_irotor c <? cg_niblk c then cg_irotor c else 0).
  assert (first <= j) as Hfj by (unfold first; destruct (Z.eqb_spec k 0); lia).
  assert (0 <= inum) as Hi0 by (unfold inum; destruct (cg_irotor c <? cg_niblk c); lia).
  assert (0 <= first) as Hf0 by (unfold first; destruct (k =? 0); lia).
  set (start := if inum =? 0 then first else inum).
  assert (0 <= start) as Hs0 by (unfold start; destruct (inum =? 0); lia).
  destruct (find_first _ (upto start (cg_niblk c) 1)) as [i|] eqn:E1.
  - apply find_first_Some in E1 as [(x & Hx & -> & Hlt)%elem_of_upto Hcl]; [|lia].
    rewrite clear_bit, negb_true_iff in Hcl. exists (start + 1 * x). split; [done|]. split; [lia|done].
  - destruct (find_first _ (upto first start 1)) as [i|] eqn:E2.
    + apply find_first_Some in E2 as [(x & Hx & -> & Hlt)%elem_of_upto Hcl]; [|lia].
      rewrite clear_bit, negb_true_iff in Hcl. exists (first + 1 * x). split; [done|]. split; [|done].
      split; [lia|]. unfold start, inum in Hlt. destruct (Z.ltb_spec (cg_irotor c) (cg_niblk c)).
      * destruct (cg_irotor c =? 0); lia.
      * cbn in Hlt. lia.
    + exfalso. rewrite find_first_None in E1, E2.
      assert ((bit_chk (cg_inosused c) j =? 0) = false) as Hn; [|by rewrite clear_bit, Hu in Hn].
      destruct (Z.le_gt_cases start j).
      * apply E1, elem_of_upto; [lia|]. exists (j - start). lia.
      * apply E2, elem_of_upto; [lia|]. exists (j - first). lia.
Qed.

(** The group after the map bit of [i] became [u] and the count followed. *)
Definition ino_set (i : Z) (u : bool) : cg :=
  set_cs (set_inosused (set_irotor c i)
    (if u then bit_set (cg_inosused c) i else bit_clr (cg_inosused c) i))
    (csum_add_nifree (cg_cs c) (if u then -1 else 1)).

Lemma ino_set_used i u j :
  0 <= i < cg_niblk c -> ino_used (ino_set i u) j = if j =? i then u else ino_used c j.
Proof using Hc.
  intros Hi. pose proof (io_len g k c Hc). unfold ino_used, ino_set. cbn [cg_inosused set_cs set_inosused].
  assert (in_map (cg_inosused c) i) by (unfold in_map; lia).
  destruct u; [rewrite bit_set_free by done|rewrite bit_clr_free by done]; by destruct (j =? i).
Qed.

Lemma ino_set_ok i u :
  fs_ipg g < 2 ^ 31 -> 0 <= i < cg_niblk c -> ino_used c i = negb u ->
  (k = 0 -> u = false -> 3 <= i) -> ino_ok g k (ino_set i u).
Proof using Hc.
  intros Hs Hi Hu H3. pose proof Hc as [C1 C2 C3 C4 C5]. constructor.
  - done.
  - unfold ino_set. cbn [cg_niblk cg_inosused set_cs set_inosused set_irotor].
    destruct u; rewrite ?zlen_bit_set, ?zlen_bit_clr; done.
  - cbn. lia.
  - assert (free_inodes (ino_set i u) = free_inodes c + if u then -1 else 1) as E.
    { unfold free_inodes. cbn [cg_niblk ino_set set_cs set_inosused set_irotor].
      rewrite (zsum_update (fun i => if ino_used c i then 0 else 1)
        (fun j => if ino_used (ino_set i u) j then 0 else 1) _ i).
      - rewrite ino_set_used, Z.eqb_refl, Hu by done. destruct u; cbn; lia.
      - apply NoDup_seqZ.
      - apply elem_of_seqZ. lia.
      - intros y _ Hy. rewrite ino_set_used by done. by rewrite (proj2 (Z.eqb_neq y i)). }
    pose proof free_inodes_bounds as B.
    assert (0 <= free_inodes c + (if u then -1 else 1) <= fs_ipg g) as B'.
    { rewrite <- E. split; [apply zsum_nonneg; intros x _; by destruct (ino_used _ x)|].
      destruct u; [lia|]. rewrite E.
      assert (free_inodes (ino_set i false) <= 1 * Z.of_nat (length (seqZ 0 (cg_niblk c)))) as Hle.
      { apply zsum_le. intros x _. by destruct (ino_used _ x). }
      rewrite length_seqZ in Hle. lia. }
    rewrite E. cbn. rewrite C4. apply s32_small. unfold in_s32. zify_pow. lia.
  - intros Hk j Hj. rewrite ino_set_used by done.
    destruct (Z.eqb_spec j i) as [->|]; [|by apply C5].
    destruct u; [done|]. specialize (H3 Hk eq_refl). lia.
Qed.

End Group.

(** ** The whole file system *)

(** Groups with the same block tables. *)
Record same_blocks (c c' : cg) : Prop := {
  sb_ndblk : cg_ndblk c' = cg_ndblk c;
  sb_frsum : cg_frsum c' = cg_frsum c;
  sb_blktot : cg_blktot c' = cg_blktot c;
  sb_blks : cg_blks c' = cg_blks c;
  sb_blksfree : cg_blksfree c' = cg_blksfree c;
  sb_clustersum : cg_clustersum c' = cg_clustersum c;
  sb_clustersfree : cg_clustersfree c' = cg_clustersfree c;
  sb_ncluster : cg_nclusterblks c' = cg_nclusterblks c;
  sb_nbfree : cs_nbfree (cg_cs c') = cs_nbfree (cg_cs c);
  sb_nffree : cs_nffree (cg_cs c') = cs_nffree (cg_cs c) }.

Lemma fs_inv_step (f : fs) v k c' h :
  fs_inv f v -> 0 <= k < fs_ncg f -> csum_adder h -> cg_cs c' = h (cg_cs (v k)) ->
  same_blocks (v k) c' -> fs_inv (adjust_super f h k) (vupd v k c').
Proof.
  intros [Ha Hf] Hk Hh Hc [B1 B2 B3 B4 B5 B6 B7 B8 B9 B10].
  destruct (adjust_super_geo f h k) as (E & _). constructor.
  - apply alloc_inv_step; [done|done|done|done|..].
    + eapply (wf_blocks_ext f (v k)); try done. by apply (ai_blocks f v Ha).
    + intros ->. rewrite B5. apply (ai_boot f v Ha).
  - rewrite E. intros j Hj. unfold vupd. destruct (Z.eqb_spec j k) as [->|]; [|by apply Hf].
    eapply (wf_frags_ext f (v k)); try done. by apply Hf.
Qed.

(** The modified flag is not part of the invariant. *)
Lemma fs_inv_fmod (f : fs) v m : fs_inv f v -> fs_inv (set_fmod f m) v.
Proof. intros [[A1 A2 A3 A4] Hf]. constructor; [constructor|]; try done. by destruct A3. Qed.

Lemma adjust_nifree_eq f c k a :
  adjust_nifree f c k a =
  (adjust_super f (fun s => csum_add_nifree s a) k, set_cs c (csum_add_nifree (cg_cs c) a)).
Proof. done. Qed.

Lemma adjust_ndir_eq f c k a :
  adjust_ndir f c k a =
  (set_fmod (adjust_super f (fun s => csum_add_ndir s a) k) (fs_fmod f),
   set_cs c (csum_add_ndir (cg_cs c) a)).
Proof.
  unfold adjust_ndir, adjust_super. cbv zeta. f_equal.
  change (fs_updated (set_cstotal (set_csp f _) _)) with (fs_updated f). by destruct (fs_updated f), f.
Qed.

(** Taking ([u = true]) or giving back inode [i] of group [k], a directory
    ([dir]) or not. *)
Definition super_ino (f : fs) (k : Z) (u dir : bool) : fs :=
  let f1 := adjust_super f (fun s => csum_add_nifree s (if u then -1 else 1)) k in
  if dir
  then set_fmod (adjust_super f1 (fun s => csum_add_ndir s (if u then 1 else -1)) k) (fs_fmod f1)
  else f1.
Definition group_ino (c : cg) (i : Z) (u dir : bool) : cg :=
  let c1 := ino_set c i u in
  if dir then set_cs c1 (csum_add_ndir (cg_cs c1) (if u then 1 else -1)) else c1.

Lemma super_ino_geo f k u dir :
  fs_geo (super_ino f k u dir) = fs_geo f /\ fs_ronly (super_ino f k u dir) = fs_ronly f.
Proof.
  unfold super_ino. cbv zeta. set (f1 := adjust_super f _ k).
  destruct (adjust_super_geo f (fun s => csum_add_nifree s (if u then -1 else 1)) k) as (E1 & E2 & _).
  fold f1 in E1, E2. destruct dir; [|done].
  destruct (adjust_super_geo f1 (fun s => csum_add_ndir s (if u then 1 else -1)) k) as (E3 & E4 & _).
  split; [exact (eq_trans E3 E1)|exact (eq_trans E4 E2)].
Qed.

Lemma ndir_adder a : csum_adder (fun s => csum_add_ndir s a).
Proof. exists a. by left. Qed.
Lemma nifree_adder a : csum_adder (fun s => csum_add_nifree s a).
Proof. exists a. auto. Qed.

Lemma fs_inv_ino (f : fs) v k i u dir :
  fs_inv f v -> 0 <= k < fs_ncg f ->
  fs_inv (super_ino f k u dir) (vupd v k (group_ino (v k) i u dir)).
Proof.
  intros Hi Hk. set (h := fun s => csum_add_nifree s (if u then -1 else 1)).
  assert (fs_inv (adjust_super f h k) (vupd v k (ino_set (v k) i u))) as H1.
  { apply fs_inv_step; [done|done|apply nifree_adder|done|]. by constructor. }
  unfold super_ino, group_ino. cbv zeta. fold h. destruct dir; [|done].
  set (h2 := fun s => csum_add_ndir s (if u then 1 else -1)).
  apply fs_inv_fmod. destruct (adjust_super_geo f h k) as (E & _).
  assert (fs_inv (adjust_super (adjust_super f h k) h2 k)
    (vupd (vupd v k (ino_set (v k) i u)) k
       (set_cs (ino_set (v k) i u) (h2 (cg_cs (ino_set (v k) i u)))))) as H2.
  { apply fs_inv_step; [done|by rewrite E|apply ndir_adder|by rewrite vupd_eq|].
    rewrite vupd_eq. by constructor. }
  destruct H2 as [[A1 A2 A3 A4] Hf].
  assert (forall j, vupd (vupd v k (ino_set (v k) i u)) k
      (set_cs (ino_set (v k) i u) (h2 (cg_cs (ino_set (v k) i u)))) j =
    vupd v k (set_cs (ino_set (v k) i u) (h2 (cg_cs (ino_set (v k) i u)))) j) as Hv
    by (intros j; apply vupd_vupd).
  constructor; [constructor|]; try done.
  - intros j Hj. rewrite <- Hv. by apply A2.
  - eapply wf_totals_ext; [|exact A3]. intros j Hj. by rewrite Hv.
  - by rewrite <- Hv.
  - intros j Hj. rewrite <- Hv. by apply Hf.
Qed.

Lemma inode_inv_ino (f : fs) v k i u dir :
  wf_geometry f -> inode_inv f v -> 0 <= k < fs_ncg f -> 0 <= i < fs_ipg f ->
  ino_used (v k) i = negb u -> (k = 0 -> u = false -> 3 <= i) ->
  inode_inv (super_ino f k u dir) (vupd v k (group_ino (v k) i u dir)).
Proof.
  intros Hg [Hg' Hs] Hk Hi Hu H3. destruct (super_ino_geo f k u dir) as [E _].
  pose proof (Hg' k Hk) as Hok. pose proof (io_niblk f k _ Hok) as Hn.
  constructor; rewrite E; [|done]. intros j Hj. unfold vupd.
  destruct (Z.eqb_spec j k) as [->|]; [|by apply Hg'].
  assert (ino_ok f k (ino_set (v k) i u)) as H1.
  { apply ino_set_ok; [done| |lia|done|done]. destruct (wg_ipg f Hg). nia. }
  unfold group_ino. cbv zeta. destruct dir; [|done]. by destruct H1 as [C1 C2 C3 C4 C5].
Qed.

Lemma inode_used_ino (f : fs) v k i u dir x :
  wf_geometry f -> inode_inv f v -> 0 <= k < fs_ncg f -> 0 <= i < fs_ipg f ->
  0 <= x < fs_ipg f * fs_ncg f ->
  inode_used (super_ino f k u dir) (vupd v k (group_ino (v k) i u dir)) x =
  if x =? i + k * fs_ipg f then u else inode_used f v x.
Proof.
  intros Hg [Hg' Hs] Hk Hi Hx. destruct (super_ino_geo f k u dir) as [E _].
  destruct (wg_ipg f Hg) as [Hp _]. pose proof (Hg' k Hk) as Hok.
  unfold inode_used. rewrite E. unfold itog. pose proof (Z.div_mod x (fs_ipg f) ltac:(lia)) as Hd.
  pose proof (Z.mod_pos_bound x (fs_ipg f) Hp) as Hm. unfold vupd.
  destruct (Z.eqb_spec (x / fs_ipg f) k) as [Ek|Hne].
  - assert (ino_used (group_ino (v k) i u dir) (x mod fs_ipg f) =
      ino_used (ino_set (v k) i u) (x mod fs_ipg f)) as -> by (unfold group_ino; by destruct dir).
    rewrite (ino_set_used f k) by (rewrite ?(io_niblk f k _ Hok); done || lia). rewrite Ek in *.
    destruct (Z.eqb_spec (x mod fs_ipg f) i), (Z.eqb_spec x (i + k * fs_ipg f)); nia || done.
  - destruct (Z.eqb_spec x (i + k * fs_ipg f)) as [->|]; [|done]. exfalso. apply Hne.
    symmetry. apply (Z.div_unique _ _ _ i); lia.
Qed.

(** ** Totals and the choice of a group *)

(** A group with space for the first fragment of a directory. *)
Definition has_room (c : cg) : Prop := cs_nbfree (cg_cs c) <> 0 \/ cs_nffree (cg_cs c) <> 0.

Section Choice.
Context (f : fs) (v : Z -> cg) (Hi : fs_inv f v) (Hino : inode_inv f v).

Lemma nifree_bounds k : 0 <= k < fs_ncg f -> 0 <= cs_nifree (cg_cs (v k)) <= fs_ipg f.
Proof using Hi Hino.
  intros Hk. pose proof (ii_groups f v Hino k Hk) as Hok. destruct (wg_ipg f (ai_geo f v Hi)).
  rewrite (io_count f k _ Hok). pose proof (free_inodes_bounds (v k)) as B.
  rewrite (io_niblk f k _ Hok) in B. lia.
Qed.

(** The total count is zero exactly when every inode is in use. *)
Lemma no_inodes_spec :
  no_inodes f = true <-> forall k, 0 <= k < fs_ncg f -> cs_nifree (cg_cs (v k)) = 0.
Proof using Hi Hino.
  pose proof (ai_geo f v Hi) as Hg. pose proof (ai_totals f v Hi) as [T1 T2 T3 T4].
  assert (0 <= total f v cs_nifree < 2 ^ 31) as Hb.
  { unfold total. split; [apply zsum_nonneg; intros k Hk%elem_of_seqZ; apply nifree_bounds; lia|].
    assert (zsum (fun k => cs_nifree (cg_cs (v k))) (cg_ids f) <= fs_ipg f * Z.of_nat (length (cg_ids f))) as Hle.
    { apply zsum_le. intros k Hk%elem_of_seqZ. apply nifree_bounds. lia. }
    unfold cg_ids in Hle. rewrite length_seqZ in Hle. pose proof (wg_ncg f Hg).
    rewrite Z2Nat.id in Hle by lia. pose proof (ii_size f v Hino). unfold cg_ids in *. lia. }
  assert (cs_nifree (fs_cstotal f) = total f v cs_nifree) as Ht.
  { rewrite T3. apply s32_small. unfold in_s32. zify_pow. lia. }
  assert (no_inodes f = (total f v cs_nifree =? 0)) as ->.
  { unfold no_inodes. destruct (fs_updated f) eqn:E; [rewrite T4 by done|]; by rewrite Ht. }
  rewrite Z.eqb_eq. split.
  - intros H0 k Hk.
    apply (zsum_zero (fun k => cs_nifree (cg_cs (v k))) (cg_ids f)); [|done|apply elem_of_seqZ; lia].
    intros y Hy%elem_of_seqZ. apply nifree_bounds. lia.
  - intros H0. unfold total. rewrite (zsum_ext _ (fun _ => 0)); [|intros x Hx%elem_of_seqZ; apply H0; lia].
    generalize (cg_ids f). intros l. unfold zsum. by induction l.
Qed.

(** [k] is the group the code picks for a new inode of a parent in group
    [cgx]: for a directory a group with the most free inodes among those with
    free space; for a file the parent's, else the next one above with a free
    inode, else the next one below. *)
Definition ino_group (cgx type k : Z) : Prop :=
  0 <= k < fs_ncg f /\ 0 < cs_nifree (cg_cs (v k)) /\
  if type =? I_DIR then
    has_room (v k) /\
    forall j, 0 <= j < fs_ncg f -> has_room (v j) -> cs_nifree (cg_cs (v j)) <= cs_nifree (cg_cs (v k))
  else
    (forall j, cgx <= j < k -> cs_nifree (cg_cs (v j)) = 0) /\
    (k < cgx -> forall j, k < j < fs_ncg f -> cs_nifree (cg_cs (v j)) = 0).

(** No group can take a new object of that type. *)
Definition ino_full (type : Z) : Prop :=
  forall k, 0 <= k < fs_ncg f ->
  cs_nifree (cg_cs (v k)) = 0 \/ (type = I_DIR /\ ~ has_room (v k)).

Lemma csp_eq k : 0 <= k < fs_ncg f -> zget (fs_csp f) k = cg_cs (v k).
Proof using Hi. apply (wt_csp f v), Hi. Qed.

Lemma elem_of_groups k : k ∈ upto 0 (fs_ncg f) 1 <-> 0 <= k < fs_ncg f.
Proof using Type. rewrite elem_of_upto by lia. split; [intros (? & ? & -> & ?); lia|]. intros. exists k. lia. Qed.

Lemma has_room_dec c :
  negb (cs_nbfree (cg_cs c) =? 0) || negb (cs_nffree (cg_cs c) =? 0) = true <-> has_room c.
Proof using Type. unfold has_room. rewrite orb_true_iff, !negb_true_iff, !Z.eqb_neq. done. Qed.

(** The group [most_inodes] picks. *)
Lemma most_inodes_spec l best :
  (forall k, k ∈ l -> 0 <= k < fs_ncg f) ->
  let r := most_inodes (fs_csp f) l best in
  best.1 <= r.1 /\
  (forall k, k ∈ l -> has_room (v k) -> cs_nifree (cg_cs (v k)) <= r.1) /\
  (r = best \/ (r.2 ∈ l /\ r.1 = cs_nifree (cg_cs (v r.2)) /\ has_room (v r.2))).
Proof using Hi Hino.
  revert best. induction l as [|x l IH]; intros best Hl; simpl.
  - split; [lia|]. split; [|by left]. intros k Hk. by apply not_elem_of_nil in Hk.
  - assert (0 <= x < fs_ncg f) as Hx by (apply Hl; by left).
    pose proof (nifree_bounds x Hx) as Hb. pose proof (wg_ipg f (ai_geo f v Hi)) as [Hp _].
    pose proof (ii_size f v Hino). pose proof (wg_ncg f (ai_geo f v Hi)).
    rewrite csp_eq by done. rewrite u32_small by (unfold in_u32; zify_pow; nia).
    set (t := (best.1 <? cs_nifree (cg_cs (v x))) &&
              (negb (cs_nbfree (cg_cs (v x)) =? 0) || negb (cs_nffree (cg_cs (v x)) =? 0))).
    destruct (IH (if t then (cs_nifree (cg_cs (v x)), x) else best)) as (H1 & H2 & H3);
      [intros k Hk; apply Hl; by right|].
    destruct t eqn:E; cbn [fst snd] in *.
    + apply andb_true_iff in E as [Elt%Z.ltb_lt Er%has_room_dec]. split; [lia|]. split.
      * intros k [->|Hk]%elem_of_cons Hr; [done|by apply H2].
      * right. destruct H3 as [->|(H3 & H4 & H5)]; [split; [by left|done]|split; [by right|done]].
    + split; [done|]. split.
      * intros k [->|Hk]%elem_of_cons Hr; [|by apply H2]. apply has_room_dec in Hr.
        unfold t in E. rewrite Hr, andb_true_r, Z.ltb_ge in E. lia.
      * destruct H3 as [->|(H3 & H4)]; [by left|right; split; [by right|done]].
Qed.

(** The choice of the group, or none when nothing is free. *)
Lemma inum_group_spec cgx type :
  0 <= cgx < fs_ncg f ->
  match inum_group f (v cgx) cgx type with
  | Some k => ino_group cgx type k
  | None => ino_full type
  end.
Proof using Hi Hino.
  intros Hc. unfold inum_group, ino_group, ino_full. destruct (Z.eqb_spec type I_DIR) as [Et|Et].
  - destruct (most_inodes_spec (upto 0 (fs_ncg f) 1) (0, cgx)) as (H1 & H2 & H3);
      [by intros k ?%elem_of_groups|].
    revert H1 H2 H3. generalize (most_inodes (fs_csp f) (upto 0 (fs_ncg f) 1) (0, cgx)).
    intros [n k] H1 H2 H3; cbn [fst snd] in *. destruct (Z.eqb_spec n 0) as [->|Hn].
    + intros j Hj. destruct (decide (has_room (v j))) as [Hr|Hr]; [left|by right].
      pose proof (nifree_bounds j Hj). specialize (H2 j ltac:(by apply elem_of_groups) Hr). lia.
    + destruct H3 as [[= -> ->]|(Hk%elem_of_groups & -> & Hr)]; [done|].
      split; [done|]. split; [lia|]. split; [done|]. intros j Hj Hrj.
      apply H2; [by apply elem_of_groups|done].
  - assert (forall j, 0 <= j < fs_ncg f -> negb (cs_nifree (zget (fs_csp f) j) =? 0) = false ->
      cs_nifree (cg_cs (v j)) = 0) as Hz.
    { intros j Hj. rewrite csp_eq by done. by rewrite negb_false_iff, Z.eqb_eq. }
    destruct (Z.eqb_spec (cs_nifree (cg_cs (v cgx))) 0) as [E|E].
    + unfold other_group. destruct (find_first _ (upto cgx (fs_ncg f) 1)) as [k|] eqn:E1.
      * apply find_first_upto in E1 as (H1 & H2 & H3). rewrite csp_eq, negb_true_iff, Z.eqb_neq in H2 by lia.
        pose proof (nifree_bounds k ltac:(lia)). split; [lia|]. split; [lia|].
        split; [|lia]. intros j Hj. apply Hz; [lia|by apply H3].
      * rewrite find_first_upto_None in E1.
        assert (forall j, cgx <= j < fs_ncg f -> cs_nifree (cg_cs (v j)) = 0) as Hup.
        { intros j Hj. apply Hz; [lia|]. by apply E1. }
        destruct (find_first _ (downto (cgx - 1) 0 1)) as [k|] eqn:E2.
        -- apply find_first_downto in E2 as (H1 & H2 & H3).
           rewrite csp_eq, negb_true_iff, Z.eqb_neq in H2 by lia.
           pose proof (nifree_bounds k ltac:(lia)). split; [lia|]. split; [lia|].
           split; [lia|]. intros _ j Hj. destruct (Z.le_gt_cases cgx j); [apply Hup; lia|].
           apply Hz; [lia|apply H3; lia].
        -- intros j Hj. left. destruct (Z.le_gt_cases cgx j); [apply Hup; lia|].
           rewrite find_first_downto_None in E2. apply Hz; [lia|]. apply E2. lia.
    + pose proof (nifree_bounds cgx Hc). split; [done|]. split; [lia|]. split; lia.
Qed.

End Choice.

(** ** The operations over the group cache *)

Section Wp.
Context {S : Type} `{CgStoreLaws S}.

Lemma super_ino_file (f : fs) k : super_ino f k true false = adjust_super f (fun s => csum_add_nifree s (-1)) k.
Proof using Type. done. Qed.

Lemma wp_inum_take (Q : Z -> S -> Prop) s (f : fs) v k i type :
  holds s f v -> 0 <= k < fs_ncg f ->
  (forall s', holds s' (super_ino f k true (type =? I_DIR))
      (vupd v k (group_ino (v k) i true (type =? I_DIR))) -> Q (s32 (i + k * fs_ipg f)) s') ->
  wp (inum_take k i type) Q s.
Proof.
  intros Hh Hk HQ. pose proof (holds_cgx _ _ _ k Hh Hk) as Hx.
  unfold inum_take. apply wp_bnd. eapply wp_cache_cg_write; [done|done|].
  intros p s1 Hh1 _. cbv beta iota.
  apply wp_bnd. eapply wp_upd_cg; [done|done|done|]. intros s2 Hh2. cbv beta.
  apply wp_bnd. eapply wp_upd_cg; [done|done|by rewrite vupd_eq|]. intros s3 Hh3. cbv beta.
  rewrite vupd_eq in Hh3. apply wp_bnd.
  destruct (adjust_super_geo f (fun s => csum_add_nifree s (-1)) k) as (G1 & G2 & _).
  eapply wp_upd_both; [done|done|..]; rewrite ?vupd_eq, ?adjust_nifree_eq; [done|exact G1|exact G2|].
  intros s4 Hh4. cbv beta. cbn [fst snd] in Hh4.
  apply wp_bnd. destruct (type =? I_DIR).
  - set (f1 := adjust_super f (fun s => csum_add_nifree s (-1)) k) in *.
    destruct (adjust_super_geo f1 (fun s => csum_add_ndir s 1) k) as (G3 & G4 & _).
    eapply wp_upd_both; [done|by rewrite G1|..]; rewrite ?vupd_eq, ?adjust_ndir_eq;
      [done|exact G3|exact G4|].
    intros s5 Hh5. cbv beta. cbn [fst snd] in Hh5. apply wp_bnd.
    eapply wp_superblock; [apply Hh5|]. apply wp_ret.
    change (fs_ipg (set_fmod _ _)) with (fs_ipg (adjust_super f1 (fun s => csum_add_ndir s 1) k)).
    rewrite G3, G1. apply HQ. eapply holds_ext; [|apply Hh5]. intros j _.
    rewrite !vupd_vupd. done.
  - apply wp_ret, wp_bnd. eapply wp_superblock; [apply Hh4|]. apply wp_ret. rewrite G1.
    apply HQ. eapply holds_ext; [|apply Hh4]. intros j _. rewrite !vupd_vupd. done.
Qed.

Lemma wp_set_readonly (Q : Z -> S -> Prop) s (f : fs) v r :
  holds s f v ->
  (forall s', cgs_fs s' = set_ronly f 1 ->
     (forall k, 0 <= k < fs_ncg f -> cgs_view s' k = v k) -> Q r s') ->
  wp (set_readonly ;; ret r) Q s.
Proof.
  intros (Hok & Hf & Hv) HQ. unfold set_readonly, upd_superblock. apply wp_bnd, wp_modify, wp_ret.
  rewrite Hf. apply HQ; [apply cgs_set_fs_fs|]. intros k Hk.
  rewrite cgs_set_fs_view by (by rewrite Hf). by apply Hv.
Qed.

Lemma wp_inum_new (Q : Z -> S -> Prop) s (f : fs) v parent type :
  holds s f v -> fs_inv f v -> inode_inv f v -> 0 <= parent < fs_ipg f * fs_ncg f ->
  ((forall k, 0 <= k < fs_ncg f -> cs_nifree (cg_cs (v k)) = 0) ->
     forall s', holds s' f v -> Q 0 s') ->
  (type = I_DIR -> ino_full f v type ->
     forall s', cgs_fs s' = set_ronly f 1 ->
     (forall k, 0 <= k < fs_ncg f -> cgs_view s' k = v k) -> Q 0 s') ->
  (forall k i s', ino_group f v (itog f parent) type k -> 0 <= i < fs_ipg f ->
     ino_used (v k) i = false ->
     holds s' (super_ino f k true (type =? I_DIR))
       (vupd v k (group_ino (v k) i true (type =? I_DIR))) -> Q (i + k * fs_ipg f) s') ->
  wp (inum_new parent type) Q s.
Proof.
  intros Hh Hi Hino Hp Hnone Hro Hsome. pose proof (ai_geo f v Hi) as Hg.
  destruct (wg_ipg f Hg) as [Hipg _]. pose proof (ii_size f v Hino) as Hsz.
  assert (0 <= itog f parent < fs_ncg f) as Hc.
  { unfold itog. split; [apply Z.div_pos; lia|]. apply Z.div_lt_upper_bound; lia. }
  unfold inum_new. apply wp_bnd. eapply wp_superblock; [done|]. cbv beta.
  pose proof (no_inodes_spec f v Hi Hino) as Hn. destruct (no_inodes f).
  { apply wp_ret, Hnone; [|done]. by apply Hn. }
  rewrite !u32_small by (unfold in_u32; zify_pow; lia).
  rewrite (proj2 (Z.ltb_ge _ _)) by lia. cbv zeta.
  apply wp_bnd. eapply wp_cache_cg; [done|done|]. intros p s1 Hh1 Ho1 _. cbv beta. cbn [deref].
  apply wp_bnd, wp_ret, wp_bnd. eapply wp_load; [done|done|done|]. cbv beta.
  apply wp_bnd. eapply wp_superblock; [done|]. cbv beta.
  pose proof (inum_group_spec f v Hi Hino (itog f parent) type Hc) as Hgr.
  destruct (inum_group f (v (itog f parent)) (itog f parent) type) as [k|] eqn:Ek.
  2: { destruct (Z.eqb_spec type I_DIR) as [Et|Et]; [by eapply wp_set_readonly; [done|]; eauto|].
       exfalso. assert (false = true) as E; [|done]. apply Hn. intros j Hj.
       by destruct (Hgr j Hj) as [|[? _]]. }
  pose proof Hgr as (Hk & Hpos & _). apply wp_bnd.
  assert (forall q s2, holds s2 f v -> cgs_owns s2 k q false ->
    wp (p <- deref (Some q) ;; c <- load_cg p ;;
        match free_inode c k with
        | None => set_readonly ;; ret 0
        | Some inum => inum_take k inum type
        end) Q s2) as Hrest.
  { intros q s2 Hh2 Ho2. cbn [deref]. apply wp_bnd, wp_ret, wp_bnd.
    eapply wp_load; [done|done|done|]. cbv beta.
    pose proof (ii_groups f v Hino k Hk) as Hok.
    destruct (free_inode_some f k (v k) Hok) as (i & -> & Hir & Hu);
      [by rewrite <- (io_count f k _ Hok)|].
    rewrite (io_niblk f k _ Hok) in Hir.
    eapply wp_inum_take; [done|done|]. intros s3 Hh3.
    rewrite s32_small by (unfold in_s32; zify_pow; nia). by apply Hsome. }
  destruct ((type =? I_DIR) || (cs_nifree (cg_cs (v (itog f parent))) =? 0)) eqn:Ec.
  - eapply wp_cache_cg; [done|done|]. intros q s2 Hh2 Ho2 _. by apply Hrest.
  - apply wp_ret. apply orb_false_iff in Ec as [E1 E2]. unfold inum_group in Ek. rewrite E1, E2 in Ek.
    injection Ek as <-. by apply Hrest.
Qed.

End Wp.
