(* ===== verification/InodeTheorems.v ===== *)
(** What inode allocation promises, on the set of inodes in use and over any
    group cache that keeps its contract: [inum_new], and its effect on the
    sample file system. *)

From S2P Require Import Prelude Bitmap Superblock Addresses Cg CgSearch Runs Accounting.
From S2P Require Import Clusters Summary FragSummary CgStore Alloc AllocWp AllocSpec AllocInv.
From S2P Require Import FileEnv Inode InodeSpec CgCache CgCacheSpec Sample.
Local Open Scope bffs_scope.

(** The state after inode [r] of group [k] was taken: that inode is in use,
    no other inode and no fragment changed, group [k] counts one directory
    more when [dir], and the tables are consistent. *)
Record inode_taken {S} `{CgStoreLaws S} (f : fs) (v : Z -> cg) (k r : Z) (dir : bool) (s' : S)
    (f' : fs) (v' : Z -> cg) : Prop := {
  it_holds : holds s' f' v';
  it_blocks : fs_inv f' v';
  it_inodes : inode_inv f' v';
  it_geo : fs_geo f' = fs_geo f;
  it_used : forall x, 0 <= x < fs_ipg f * fs_ncg f ->
    inode_used f' v' x = if x =? r then true else inode_used f v x;
  it_free : forall d, frag_free f' v' d = frag_free f v d;
  it_ndir : forall j, cs_ndir (cg_cs (v' j)) =
    if (j =? k) && dir then s32 (cs_ndir (cg_cs (v j)) + 1) else cs_ndir (cg_cs (v j)) }.

Section Taken.
Context {S : Type} `{CgStoreLaws S} (s' : S) (f : fs) (v : Z -> cg) (k i : Z) (dir : bool).

Lemma inode_taken_intro :
  fs_inv f v -> inode_inv f v -> 0 <= k < fs_ncg f -> 0 <= i < fs_ipg f ->
  ino_used (v k) i = false ->
  holds s' (super_ino f k true dir) (vupd v k (group_ino (v k) i true dir)) ->
  inode_taken f v k (i + k * fs_ipg f) dir s'
    (super_ino f k true dir) (vupd v k (group_ino (v k) i true dir)).
Proof.
  intros Hi Hino Hk Hr Hu Hh. pose proof (ai_geo f v Hi) as Hg.
  destruct (super_ino_geo f k true dir) as [E _]. constructor; [done|..].
  - by apply fs_inv_ino.
  - by apply inode_inv_ino.
  - done.
  - intros x Hx. by rewrite inode_used_ino.
  - intros d. unfold frag_free. rewrite E. unfold vupd.
    destruct (Z.eqb_spec (dtog f d) k) as [->|]; [|done]. unfold group_ino. by destruct dir.
  - intros j. unfold vupd. destruct (Z.eqb_spec j k) as [->|]; [|done].
    unfold group_ino. by destruct dir.
Qed.

End Taken.

(** The number of a free inode is not 0, the result of a failure. *)
Lemma group_inode (f : fs) v k i :
  wf_geometry f -> inode_inv f v -> 0 <= k < fs_ncg f -> 0 <= i < fs_ipg f ->
  ino_used (v k) i = false ->
  0 < i + k * fs_ipg f < fs_ipg f * fs_ncg f /\ inode_used f v (i + k * fs_ipg f) = false.
Proof.
  intros Hg Hino Hk Hi Hu. destruct (wg_ipg f Hg) as [Hp _]. pose proof (ii_groups f v Hino k Hk) as Hok.
  assert (k = 0 -> 3 <= i) as H3.
  { intros Hk0. destruct (Z.le_gt_cases 3 i) as [|Hlt]; [done|].
    by rewrite (io_reserved f k _ Hok Hk0 i ltac:(lia)) in Hu. }
  split.
  - split; [|nia]. destruct (Z.eq_dec k 0) as [->|]; [lia|nia].
  - unfold inode_used, itog. rewrite (Z.div_add i k) by lia. rewrite (Z.div_small i) by lia.
    rewrite Z.mod_add, Z.mod_small by lia. done.
Qed.

Section New.
Context {S : Type} `{CgStoreLaws S}.


End New.

(** ** On the sample file system *)

Lemma sample_inode_inv : inode_inv sample_fs sample_view.
Proof.
  constructor; [|by vm_compute]. intros k Hk. cbn in Hk. rewrite sample_view_eq by done.
  assert (k = 0 \/ k = 1) as [-> | ->] by lia; (constructor; [by vm_compute..|]).
  - intros _ i Hi. assert (i = 0 \/ i = 1 \/ i = 2) as [-> | [-> | ->]] by lia; by vm_compute.
  - done.
Qed.

