(* ===== verification/IndexPath.v ===== *)
(** The index path of a file block ([inode.c], the loop shared by
    ridisk_frag, cidisk_frag and widisk_frag): which entries of which index
    blocks lead to a block, and that different blocks have different
    paths. *)

From S2P Require Import Prelude Superblock Cg CgStore Alloc FileEnv Inode.
Local Open Scope bffs_scope.

(** The masks and shifts the mount computes: [2^pfragshift] pointers in a
    fragment, [2^fblkshift] fragments in a block. *)
Record index_geometry (gl : globals) : Prop := {
  ig_ps : 0 <= pfragshift gl;
  ig_fs : 0 <= fblkshift gl;
  ig_pm : pfragmask gl = 2 ^ pfragshift gl - 1;
  ig_fm : fblkmask gl = 2 ^ fblkshift gl - 1;
  ig_many : 0 < pfragshift gl + fblkshift gl }.

(** Pointers in an index block. *)
Definition ptrs (gl : globals) : Z := 2 ^ (pfragshift gl + fblkshift gl).

(** Blocks behind the first [n] levels of indirection. *)
Fixpoint capacity (n : nat) (gl : globals) : Z :=
  match n with
  | O => 0
  | Datatypes.S n => ptrs gl * (1 + capacity n gl)
  end.

(** The entry of the whole block that a pair stands for, and the block
    number a path stands for. *)
Definition entry (gl : globals) (e : Z * Z) : Z := e.2 * 2 ^ pfragshift gl + e.1.

Fixpoint decode (gl : globals) (path : list (Z * Z)) : Z :=
  match path with
  | [] => 0
  | [e] => entry gl e
  | e :: path => entry gl e + ptrs gl * (decode gl path + 1)
  end.

(** The pairs stay inside the block: pointer in the fragment, fragment in
    the block. *)
Definition in_block (gl : globals) (e : Z * Z) : Prop :=
  0 <= e.1 < 2 ^ pfragshift gl /\ 0 <= e.2 < 2 ^ fblkshift gl.

Section Path.
Context (gl : globals) (Hgl : index_geometry gl).

Lemma ptrs_two : 2 <= ptrs gl.
Proof using Hgl.
  destruct Hgl as [Hp Hf _ _ Hm]. unfold ptrs. change 2 with (2 ^ 1) at 1.
  apply Z.pow_le_mono_r; lia.
Qed.

(** One level of the loop. *)
Lemma split_entry ind :
  0 <= ind ->
  let e := (Z.land ind (pfragmask gl), Z.land (Z.shiftr ind (pfragshift gl)) (fblkmask gl)) in
  in_block gl e /\ entry gl e = ind mod ptrs gl /\
  Z.shiftr (Z.shiftr ind (pfragshift gl)) (fblkshift gl) = ind / ptrs gl.
Proof using Hgl.
  destruct Hgl as [Hp Hf Epm Efm _]. intros Hi. cbv zeta. rewrite Epm, Efm.
  assert (forall n x, 0 <= n -> Z.land x (2 ^ n - 1) = x mod 2 ^ n) as Hl.
  { intros n x Hn. replace (2 ^ n - 1) with (Z.ones n) by (rewrite Z.ones_equiv; lia).
    by apply Z.land_ones. }
  rewrite !Hl by done. rewrite !Z.shiftr_div_pow2 by done.
  assert (0 < 2 ^ pfragshift gl) as H1 by (apply Z.pow_pos_nonneg; lia).
  assert (0 < 2 ^ fblkshift gl) as H2 by (apply Z.pow_pos_nonneg; lia).
  unfold in_block, entry, ptrs; cbn [fst snd]. rewrite Z.pow_add_r by done.
  split; [split; apply Z.mod_pos_bound; lia|]. split.
  - rewrite Z.rem_mul_r by lia. lia.
  - by rewrite Z.div_div by lia.
Qed.

Lemma index_path_spec n level ind :
  0 <= level -> in_s32 ind -> (if level =? 0 then 0 <= ind else 0 < ind) ->
  (if level =? 0 then ind else ind - 1) < capacity n gl ->
  exists path, index_path n gl level ind = Some path /\ path <> [] /\ zlen path <= Z.of_nat n /\
    Forall (in_block gl) path /\ decode gl path = (if level =? 0 then ind else ind - 1).
Proof using Hgl.
  revert level ind. induction n as [|n IH]; intros level ind Hl Hs Hpos Hcap.
  { cbn in Hcap. destruct (level =? 0); lia. }
  simpl. set (x := if level =? 0 then ind else s32 (ind - 1)).
  assert (x = if level =? 0 then ind else ind - 1) as Hx.
  { unfold x. destruct (level =? 0); [done|]. apply s32_small. unfold in_s32 in *. lia. }
  assert (0 <= x) as Hx0 by (rewrite Hx; destruct (level =? 0); lia).
  rewrite <- Hx in *. clearbody x.
  destruct (split_entry x Hx0) as (Hin & He & Hq). rewrite Hq.
  set (e := (Z.land x (pfragmask gl), Z.land (Z.shiftr x (pfragshift gl)) (fblkmask gl))) in *.
  pose proof ptrs_two as HP. pose proof (Z.div_mod x (ptrs gl) ltac:(lia)) as Hd.
  pose proof (Z.div_pos x (ptrs gl) Hx0 ltac:(lia)) as Hq0.
  destruct (Z.ltb_spec 0 (x / ptrs gl)) as [Hlt|Hge].
  - assert (x / ptrs gl < 1 + capacity n gl) as Hc.
    { apply Z.div_lt_upper_bound; [lia|]. cbn in Hcap. lia. }
    destruct (IH (level + 1) (x / ptrs gl)) as (path & -> & Hne & Hlen & Hf & Hdec); [lia|..].
    + unfold in_s32 in *. assert (x / ptrs gl <= x) by (apply Z.div_le_upper_bound; nia).
      split; [lia|]. destruct (level =? 0); lia.
    + rewrite (proj2 (Z.eqb_neq _ 0)) by lia. lia.
    + rewrite (proj2 (Z.eqb_neq _ 0)) by lia. lia.
    + rewrite (proj2 (Z.eqb_neq (level + 1) 0)) in Hdec by lia.
      exists (e :: path). split; [done|]. split; [done|]. split; [unfold zlen in *; cbn [length]; lia|].
      split; [by constructor|]. destruct path as [|e2 path]; [done|].
      change (entry gl e + ptrs gl * (decode gl (e2 :: path) + 1) = x). rewrite Hdec, He. lia.
  - exists [e]. split; [done|]. split; [done|]. split; [unfold zlen; cbn [length]; lia|].
    split; [apply Forall_cons; split; [done|by apply Forall_nil]|].
    cbn. rewrite He. assert (x / ptrs gl = 0) by lia. nia.
Qed.

End Path.

(** For every block behind the direct ones and within the triple
    indirect one, the loop yields at most NIADDR levels, each pair of pointer and
    fragment lies inside an index block, and the path determines the block:
    reading the entries as digits, data level first, gives the block number
    back.  No two file blocks share a path, and no block in range overruns
    the arrays. *)
Theorem index_path_correct gl ind :
  index_geometry gl -> in_s32 ind -> 0 <= ind < capacity 3 gl ->
  exists path, index_path (Z.to_nat NIADDR) gl 0 ind = Some path /\
    1 <= zlen path <= NIADDR /\ Forall (in_block gl) path /\ decode gl path = ind.
Proof.
  intros Hgl Hs Hi.
  destruct (index_path_spec gl Hgl 3 0 ind) as (path & Hp & Hne & Hlen & Hf & Hd); [lia|done|apply Hi|apply Hi|].
  exists path. split; [done|]. split; [|done].
  destruct path as [|e path]; [done|]. unfold zlen, NIADDR in *. cbn [length] in *. lia.
Qed.

(** The globals of a file system with 8 kB blocks and 1 kB fragments. *)
Definition sample_globals : globals := {|
  Res2 := 0; Pinum := 2; Poffset := 0; linkname := None; read_link := 0; unix_paths := 0;
  resolve_symlinks := 1; case_dependent := 0; bsd44fs := 1; tranmask := 0;
  pfragshift := 8; pfragmask := 255; fblkshift := 3; fblkmask := 7; fs_lfmask := 1023;
  level_buffer := [None; None; None] |}.

Lemma index_path_witness :
  0 <= 5000000 < capacity 3 sample_globals /\
  exists path, index_path 3 sample_globals 0 5000000 = Some path /\
    1 <= zlen path <= 3 /\ Forall (in_block sample_globals) path /\
    decode sample_globals path = 5000000.
Proof.
  split; [by vm_compute|]. apply (index_path_correct sample_globals 5000000).
  - by constructor.
  - by vm_compute.
  - by vm_compute.
Defined.
