(* ===== verification/FileSpec.v ===== *)
(** The contract of the fragment cache towards the file layer, and the
    plumbing on top of it: the disk as a function from fragment and offset to
    byte, seen through whatever buffers hold it, beside the cylinder groups
    of [CgStoreLaws]. *)

From S2P Require Import Prelude Bitmap Superblock Cg CgStore Alloc AllocWp FileEnv.
Local Open Scope bffs_scope.

(** [frag_view s b i] is byte [i] of fragment [b], wherever it is held;
    [frag_owns s b p w] says that [p] is the buffer of fragment [b], and with
    [w] that the fragment is marked for writing; [user_mem s a] that the byte
    at [a] belongs to a caller of the file system. *)
Class FileView (S : Type) `{FileEnv S} := {
  fe_ok : S -> Prop;
  frag_view : S -> Z -> Z -> Z;
  frag_owns : S -> Z -> Z -> bool -> Prop;
  user_mem : S -> Z -> Prop }.

Section Sides.
Context {S : Type} `{FileView S} `{!CgStoreLaws S}.

(** What the operations on groups leave alone. *)
Record file_side (s s' : S) : Prop := {
  fd_ok : fe_ok s -> fe_ok s';
  fd_globals : fe_globals s' = fe_globals s;
  fd_view : forall b i, frag_view s' b i = frag_view s b i;
  fd_owns : forall b p w, frag_owns s b p w -> frag_owns s' b p w;
  fd_user : forall a, user_mem s a -> user_mem s' a /\ ld8 a s' = ld8 a s }.

(** What the operations on fragments and on memory leave alone. *)
Record cg_side (s s' : S) : Prop := {
  gd_ok : cgs_ok s -> cgs_ok s';
  gd_fs : cgs_fs s' = cgs_fs s;
  gd_view : forall k, cgs_view s' k = cgs_view s k;
  gd_owns : forall k p w, cgs_owns s k p w -> cgs_owns s' k p w }.

#[export] Instance file_side_preorder : PreOrder file_side.
Proof.
  split.
  - by constructor.
  - intros s1 s2 s3 [A1 A2 A3 A4 A5] [B1 B2 B3 B4 B5]. constructor.
    + auto.
    + congruence.
    + intros b i. by rewrite B3.
    + auto.
    + intros a Ha. destruct (A5 a Ha) as [H1 E1]. destruct (B5 a H1) as [H2 E2]. split; [done|congruence].
Qed.

#[export] Instance cg_side_preorder : PreOrder cg_side.
Proof.
  split.
  - by constructor.
  - intros s1 s2 s3 [A1 A2 A3 A4] [B1 B2 B3 B4]. constructor; [auto|congruence| |auto].
    intros k. by rewrite B3.
Qed.

End Sides.

(** The laws.  A buffer stays the fragment's own until the next operation on
    fragments; operations on groups do not move fragments.  A fragment
    fetched for writing without being read has any contents. *)
Class FileEnvLaws (S : Type) `{FileView S} `{!CgStoreLaws S} := {
  fe_byte : forall s b i, fe_ok s -> 0 <= frag_view s b i < 256;
  fe_user_byte : forall s a, fe_ok s -> user_mem s a -> 0 <= ld8 a s < 256;
  fe_load : forall s b p w i,
    fe_ok s -> frag_owns s b p w -> 0 <= i < fs_fsize (cgs_fs s) -> ld8 (p + i) s = frag_view s b i;
  fe_store : forall s b p i x,
    fe_ok s -> frag_owns s b p true -> 0 <= i < fs_fsize (cgs_fs s) -> 0 <= x < 256 ->
    let s' := st8 (p + i) x s in
    cg_side s s' /\ fe_ok s' /\ fe_globals s' = fe_globals s /\
    (forall b' j, frag_view s' b' j = if (b' =? b) && (j =? i) then x else frag_view s b' j) /\
    (forall b' p' w, frag_owns s b' p' w -> frag_owns s' b' p' w) /\
    (forall a, user_mem s a -> user_mem s' a /\ ld8 a s' = ld8 a s);
  fe_user_store : forall s a x,
    fe_ok s -> user_mem s a -> 0 <= x < 256 ->
    let s' := st8 a x s in
    cg_side s s' /\ fe_ok s' /\ fe_globals s' = fe_globals s /\
    (forall b j, frag_view s' b j = frag_view s b j) /\
    (forall b p w, frag_owns s b p w -> frag_owns s' b p w) /\
    (forall a', user_mem s a' -> user_mem s' a' /\ ld8 a' s' = if a' =? a then x else ld8 a' s);
  fe_cache_frag : forall s b,
    fe_ok s -> in_u32 b ->
    wp (cache_frag b) (fun r s' => exists p, r = Some p /\ cg_side s s' /\ fe_ok s' /\
      fe_globals s' = fe_globals s /\ (forall b' i, frag_view s' b' i = frag_view s b' i) /\
      (forall a, user_mem s a -> user_mem s' a /\ ld8 a s' = ld8 a s) /\
      frag_owns s' b p false) s;
  fe_cache_frag_write : forall s b rd,
    fe_ok s -> in_u32 b ->
    wp (cache_frag_write b rd) (fun r s' => exists p, r = Some p /\ cg_side s s' /\ fe_ok s' /\
      fe_globals s' = fe_globals s /\
      (forall b' i, (b' = b -> rd <> 0) -> frag_view s' b' i = frag_view s b' i) /\
      (forall a, user_mem s a -> user_mem s' a /\ ld8 a s' = ld8 a s) /\
      frag_owns s' b p true) s;
  fe_cache_cg : forall s k,
    cgs_ok s -> fe_ok s -> 0 <= k < fs_ncg (cgs_fs s) ->
    wp (cache_cg k) (fun _ s' => file_side s s') s;
  fe_cache_cg_write : forall s k,
    cgs_ok s -> fe_ok s -> 0 <= k < fs_ncg (cgs_fs s) ->
    wp (cache_cg_write k) (fun _ s' => file_side s s') s;
  fe_cgs_store : forall s k p c,
    cgs_ok s -> fe_ok s -> cgs_owns s k p true -> cg_cgx c = k -> file_side s (cgs_store p c s);
  fe_set_fs : forall s f,
    fe_ok s -> fs_geo f = fs_geo (cgs_fs s) -> fs_ronly f = fs_ronly (cgs_fs s) ->
    file_side s (cgs_set_fs f s);
  fe_put_globals : forall s g, fe_ok s ->
    let s' := fe_set_globals g s in
    cg_side s s' /\ fe_ok s' /\ fe_globals s' = g /\
    (forall b i, frag_view s' b i = frag_view s b i) /\
    (forall b p w, frag_owns s b p w -> frag_owns s' b p w) /\
    (forall a, user_mem s a -> user_mem s' a /\ ld8 a s' = ld8 a s);
  fe_unix_time : forall s, fe_ok s ->
    wp unix_time (fun t s' => in_u32 t /\ cg_side s s' /\ file_side s s') s }.

Lemma wp_and {S A} (m : M S A) (P Q : A -> S -> Prop) s :
  wp m P s -> wp m Q s -> wp m (fun a s' => P a s' /\ Q a s') s.
Proof. unfold wp. by destruct (m s) as [[a s']|]. Qed.

(** ** The allocator does not touch files

    At any state [s0], "well formed and with the files of [s0]" is itself
    an invariant the group cache keeps its contract with, so every theorem
    about the allocator also says that it leaves the files alone. *)
Section Frame.
Context {S : Type} {FE : FileEnv S} {FV : FileView S} {CL : CgStoreLaws S} {FL : FileEnvLaws S}.

#[local] Obligation Tactic := idtac.

Program Definition framed_laws (s0 : S) : CgStoreLaws S := {|
  cgs_ok := fun s => cgs_ok s /\ fe_ok s /\ file_side s0 s;
  cgs_view := cgs_view;
  cgs_owns := cgs_owns |}.
Next Obligation. intros s0 s k [Hok _]. by apply cgs_view_cgx. Qed.
Next Obligation. intros s0 s [Hok _]. by apply cgs_writable. Qed.
Next Obligation. intros s0 s k p w [Hok _]. by apply cgs_load_view. Qed.
Next Obligation.
  intros s0 s k (Hok & Hfe & Hs) Hk. eapply wp_mono.
  { apply wp_and; [by apply (cgs_cache_cg s k)|by apply (fe_cache_cg s k)]. }
  intros r s' [(p & Hr & Hok' & Hrest) Hf]. exists p. split; [done|]. split; [|done].
  split; [done|]. split; [by apply (fd_ok _ _ Hf)|by etrans].
Qed.
Next Obligation.
  intros s0 s k (Hok & Hfe & Hs) Hk. eapply wp_mono.
  { apply wp_and; [by apply (cgs_cache_cg_write s k)|by apply (fe_cache_cg_write s k)]. }
  intros r s' [(p & Hr & Hok' & Hrest) Hf]. exists p. split; [done|]. split; [|done].
  split; [done|]. split; [by apply (fd_ok _ _ Hf)|by etrans].
Qed.
Next Obligation.
  intros s0 s k p c (Hok & Hfe & Hs) Ho Hc. cbv zeta.
  pose proof (fe_cgs_store s k p c Hok Hfe Ho Hc) as Hf.
  destruct (cgs_store_view s k p c Hok Ho Hc) as (Hok' & Hrest). split; [|done].
  split; [done|]. split; [by apply (fd_ok _ _ Hf)|by etrans].
Qed.
Next Obligation. intros s0 s f. apply cgs_set_fs_fs. Qed.
Next Obligation. intros s0 s f Hg k. by apply cgs_set_fs_view. Qed.
Next Obligation.
  intros s0 s f Hg Hr (Hok & Hfe & Hs). pose proof (fe_set_fs s f Hfe Hg Hr) as Hf.
  split; [by apply cgs_set_fs_ok|]. split; [by apply (fd_ok _ _ Hf)|by etrans].
Qed.
Next Obligation. intros s0 s f k p w. apply cgs_set_fs_owns. Qed.

End Frame.

(** ** The abstract state of the file layer *)

Record world := World {
  w_fs : fs;
  w_cg : Z -> cg;
  w_globals : globals;
  w_disk : Z -> Z -> Z;                (* fragment, offset: byte *)
  w_user : Z -> option Z }.            (* what is known of callers' memory *)

Definition w_set_disk (V : Z -> Z -> Z) (w : world) : world :=
  World (w_fs w) (w_cg w) (w_globals w) V (w_user w).
Definition w_set_user (U : Z -> option Z) (w : world) : world :=
  World (w_fs w) (w_cg w) (w_globals w) (w_disk w) U.
Definition w_set_globals (g : globals) (w : world) : world :=
  World (w_fs w) (w_cg w) g (w_disk w) (w_user w).
Definition w_set_cg (f : fs) (v : Z -> cg) (w : world) : world :=
  World f v (w_globals w) (w_disk w) (w_user w).

(** Words of a fragment, most significant byte first. *)
Definition v16 (V : Z -> Z -> Z) (b i : Z) : Z := V b i * 2 ^ 8 + V b (i + 1).
Definition v32 (V : Z -> Z -> Z) (b i : Z) : Z := v16 V b i * 2 ^ 16 + v16 V b (i + 2).

Definition vput (V : Z -> Z -> Z) (b i x : Z) : Z -> Z -> Z :=
  fun b' j => if (b' =? b) && (j =? i) then x else V b' j.
Definition vput16 (V : Z -> Z -> Z) (b i x : Z) : Z -> Z -> Z :=
  vput (vput V b i (u8 (Z.shiftr x 8))) b (i + 1) (u8 x).
Definition vput32 (V : Z -> Z -> Z) (b i x : Z) : Z -> Z -> Z :=
  vput16 (vput16 V b i (Z.shiftr x 16)) b (i + 2) x.

Lemma vput_ne V b i x b' j : b' <> b \/ j <> i -> vput V b i x b' j = V b' j.
Proof.
  intros H. unfold vput. destruct (Z.eqb_spec b' b), (Z.eqb_spec j i); try done. by destruct H.
Qed.
Lemma vput_eq V b i x : vput V b i x b i = x.
Proof. unfold vput. by rewrite !Z.eqb_refl. Qed.

Lemma vput32_ne V b i x b' j : b' <> b \/ j < i \/ i + 4 <= j -> vput32 V b i x b' j = V b' j.
Proof. intros H. unfold vput32, vput16. rewrite !vput_ne by lia. done. Qed.
Lemma vput16_ne V b i x b' j : b' <> b \/ j < i \/ i + 2 <= j -> vput16 V b i x b' j = V b' j.
Proof. intros H. unfold vput16. rewrite !vput_ne by lia. done. Qed.

Lemma bytes16 x : u8 (Z.shiftr x 8) * 2 ^ 8 + u8 x = u16 x.
Proof. rewrite Z.shiftr_div_pow2 by lia. unfold u8, u16. dlia. Qed.
Lemma bytes32 x : u16 (Z.shiftr x 16) * 2 ^ 16 + u16 x = u32 x.
Proof. rewrite Z.shiftr_div_pow2 by lia. unfold u32, u16. dlia. Qed.

Lemma v16_vput16 V b i x : v16 (vput16 V b i x) b i = u16 x.
Proof.
  unfold v16, vput16. rewrite vput_eq, vput_ne, vput_eq by lia. apply bytes16.
Qed.
Lemma v16_vput16_ne V b i x b' j :
  b' <> b \/ j + 2 <= i \/ i + 2 <= j -> v16 (vput16 V b i x) b' j = v16 V b' j.
Proof. intros H. unfold v16. rewrite !vput16_ne by lia. done. Qed.
Lemma v32_vput32 V b i x : v32 (vput32 V b i x) b i = u32 x.
Proof.
  unfold v32, vput32. rewrite v16_vput16_ne, !v16_vput16 by lia. apply bytes32.
Qed.
Lemma v32_vput32_ne V b i x b' j :
  b' <> b \/ j + 4 <= i \/ i + 4 <= j -> v32 (vput32 V b i x) b' j = v32 V b' j.
Proof. intros H. unfold v32, v16. rewrite !vput32_ne by lia. done. Qed.
Lemma v32_vput16_ne V b i x b' j :
  b' <> b \/ j + 4 <= i \/ i + 2 <= j -> v32 (vput16 V b i x) b' j = v32 V b' j.
Proof. intros H. unfold v32, v16. rewrite !vput16_ne by lia. done. Qed.
Lemma v16_vput32_ne V b i x b' j :
  b' <> b \/ j + 2 <= i \/ i + 4 <= j -> v16 (vput32 V b i x) b' j = v16 V b' j.
Proof. intros H. unfold v16. rewrite !vput32_ne by lia. done. Qed.
Lemma v32_ext V V' b i : (forall j, i <= j < i + 4 -> V' b j = V b j) -> v32 V' b i = v32 V b i.
Proof. intros H. unfold v32, v16. rewrite !H by lia. done. Qed.

Section Rep.
Context {S : Type} {FE : FileEnv S} {FV : FileView S} {CL : CgStoreLaws S} {FL : FileEnvLaws S}.

Record rep (s : S) (w : world) : Prop := {
  rp_holds : holds s (w_fs w) (w_cg w);
  rp_ok : fe_ok s;
  rp_globals : fe_globals s = w_globals w;
  rp_disk : forall b i, frag_view s b i = w_disk w b i;
  rp_user : forall a x, w_user w a = Some x -> user_mem s a /\ ld8 a s = x }.

(** The buffers that stay valid. *)
Definition keeps (s s' : S) : Prop :=
  forall b p rw, frag_owns s b p rw -> frag_owns s' b p rw.

Lemma rep_super s w : rep s w -> cgs_fs s = w_fs w.
Proof. intros Hr. apply (rp_holds s w Hr). Qed.

Lemma holds_cg_side s s' (f : fs) v : cg_side s s' -> holds s f v -> holds s' f v.
Proof.
  intros [G1 G2 G3 G4] (Hok & Hf & Hv). split; [auto|]. split; [congruence|].
  intros k Hk. by rewrite G3, Hv.
Qed.

Lemma rep_byte s w b i : rep s w -> 0 <= w_disk w b i < 256.
Proof. intros Hr. rewrite <- (rp_disk s w Hr). by apply fe_byte, (rp_ok s w). Qed.

Lemma rep_u16 s w b i : rep s w -> 0 <= v16 (w_disk w) b i < 65536.
Proof.
  intros Hr. unfold v16. pose proof (rep_byte s w b i Hr). pose proof (rep_byte s w b (i + 1) Hr). lia.
Qed.

Lemma rep_u32 s w b i : rep s w -> in_u32 (v32 (w_disk w) b i).
Proof.
  intros Hr. unfold v32, in_u32. pose proof (rep_u16 s w b i Hr). pose proof (rep_u16 s w b (i + 2) Hr).
  zify_pow. lia.
Qed.

(** ** Reading *)

Lemma wp_fs (Q : fs -> S -> Prop) s w : rep s w -> Q (w_fs w) s -> wp superblock Q s.
Proof. intros Hr HQ. eapply wp_superblock; [apply Hr|done]. Qed.

Lemma wp_glob {A} (h : globals -> A) (Q : A -> S -> Prop) s w :
  rep s w -> Q (h (w_globals w)) s -> wp (glob h) Q s.
Proof. intros Hr HQ. unfold glob. apply wp_gets. by rewrite (rp_globals s w Hr). Qed.

Lemma wp_FPB (Q : Z -> S -> Prop) s w : rep s w -> Q (fs_frag (w_fs w)) s -> wp FRAGS_PER_BLK Q s.
Proof. intros Hr HQ. unfold FRAGS_PER_BLK. apply wp_bnd. eapply wp_fs; [done|]. by apply wp_ret. Qed.
Lemma wp_FSIZE (Q : Z -> S -> Prop) s w : rep s w -> Q (fs_fsize (w_fs w)) s -> wp FSIZE Q s.
Proof. intros Hr HQ. unfold FSIZE. apply wp_bnd. eapply wp_fs; [done|]. by apply wp_ret. Qed.
Lemma wp_FBSIZE (Q : Z -> S -> Prop) s w : rep s w -> Q (fs_bsize (w_fs w)) s -> wp FBSIZE Q s.
Proof. intros Hr HQ. unfold FBSIZE. apply wp_bnd. eapply wp_fs; [done|]. by apply wp_ret. Qed.

Lemma rep_load s w b p rw i :
  rep s w -> frag_owns s b p rw -> 0 <= i < fs_fsize (w_fs w) -> ld8 (p + i) s = w_disk w b i.
Proof.
  intros Hr Ho Hi. rewrite <- (rp_disk s w Hr). eapply fe_load; [apply Hr|done|by rewrite (rep_super s w)].
Qed.

Lemma wp_rd8 (Q : Z -> S -> Prop) s w b p rw i a :
  rep s w -> frag_owns s b p rw -> a = p + i -> 0 <= i -> i < fs_fsize (w_fs w) ->
  Q (w_disk w b i) s -> wp (rd8 a) Q s.
Proof. intros Hr Ho -> H1 H2 HQ. unfold rd8. apply wp_gets. by erewrite rep_load. Qed.

Lemma wp_rd16 (Q : Z -> S -> Prop) s w b p rw i a :
  rep s w -> frag_owns s b p rw -> a = p + i -> 0 <= i -> i + 2 <= fs_fsize (w_fs w) ->
  Q (v16 (w_disk w) b i) s -> wp (rd16 a) Q s.
Proof.
  intros Hr Ho -> H1 H2 HQ. unfold rd16. apply wp_gets. unfold get16.
  replace (p + i + 1) with (p + (i + 1)) by lia. by erewrite !rep_load by (done || lia).
Qed.

Lemma wp_rd32 (Q : Z -> S -> Prop) s w b p rw i a :
  rep s w -> frag_owns s b p rw -> a = p + i -> 0 <= i -> i + 4 <= fs_fsize (w_fs w) ->
  Q (v32 (w_disk w) b i) s -> wp (rd32 a) Q s.
Proof.
  intros Hr Ho -> H1 H2 HQ. unfold rd32. apply wp_gets. unfold get32, get16.
  replace (p + i + 1) with (p + (i + 1)) by lia. replace (p + i + 2) with (p + (i + 2)) by lia.
  replace (p + (i + 2) + 1) with (p + (i + 2 + 1)) by lia. by erewrite !rep_load by (done || lia).
Qed.

Lemma wp_rds32 (Q : Z -> S -> Prop) s w b p rw i a :
  rep s w -> frag_owns s b p rw -> a = p + i -> 0 <= i -> i + 4 <= fs_fsize (w_fs w) ->
  Q (s32 (v32 (w_disk w) b i)) s -> wp (rds32 a) Q s.
Proof.
  intros Hr Ho Ha H1 H2 HQ. unfold rds32. apply wp_gets.
  assert (wp (rd32 a) (fun x s' => Q (s32 x) s') s) as Hw by (by eapply wp_rd32). exact Hw.
Qed.

(** ** Writing *)

Lemma rep_store s w b p i x :
  rep s w -> frag_owns s b p true -> 0 <= i < fs_fsize (w_fs w) -> 0 <= x < 256 ->
  rep (st8 (p + i) x s) (w_set_disk (vput (w_disk w) b i x) w) /\ keeps s (st8 (p + i) x s).
Proof.
  intros Hr Ho Hi Hx. pose proof Hr as [R1 R2 R3 R4 R5].
  destruct (fe_store s b p i x R2 Ho) as (G & Hok & Hg & Hv & Hk & Hu);
    [by rewrite (rep_super s w)|done|]. split; [|exact Hk].
  constructor; cbn.
  - by eapply holds_cg_side.
  - done.
  - congruence.
  - intros b' j. rewrite Hv. unfold vput. by rewrite R4.
  - intros a y Ha. destruct (R5 a y Ha) as [Hm <-]. by apply Hu.
Qed.

Lemma wp_wr8 (Q : unit -> S -> Prop) s w b p i a x :
  rep s w -> frag_owns s b p true -> a = p + i -> 0 <= i -> i < fs_fsize (w_fs w) ->
  (forall s', rep s' (w_set_disk (vput (w_disk w) b i (u8 x)) w) -> keeps s s' -> Q tt s') ->
  wp (wr8 a x) Q s.
Proof.
  intros Hr Ho -> H1 H2 HQ. unfold wr8. apply wp_modify.
  destruct (rep_store s w b p i (u8 x) Hr Ho) as [Hr' Hk]; [lia|apply u8_range|]. by apply HQ.
Qed.

Lemma rep_store16 s w b p i x :
  rep s w -> frag_owns s b p true -> 0 <= i -> i + 2 <= fs_fsize (w_fs w) ->
  rep (put16 (p + i) x s) (w_set_disk (vput16 (w_disk w) b i x) w) /\ keeps s (put16 (p + i) x s).
Proof.
  intros Hr Ho H1 H2. unfold put16.
  destruct (rep_store s w b p i (u8 (Z.shiftr x 8)) Hr Ho) as [Hr1 Hk1]; [lia|apply u8_range|].
  destruct (rep_store (st8 (p + i) (u8 (Z.shiftr x 8)) s)
    (w_set_disk (vput (w_disk w) b i (u8 (Z.shiftr x 8))) w) b p (i + 1) (u8 x) Hr1) as [Hr2 Hk2];
    [by apply Hk1|cbn; lia|apply u8_range|].
  rewrite Z.add_assoc in Hr2, Hk2. split; [exact Hr2|]. intros b' q rw Hq. by apply Hk2, Hk1.
Qed.

Lemma rep_store32 s w b p i x :
  rep s w -> frag_owns s b p true -> 0 <= i -> i + 4 <= fs_fsize (w_fs w) ->
  rep (put32 (p + i) x s) (w_set_disk (vput32 (w_disk w) b i x) w) /\ keeps s (put32 (p + i) x s).
Proof.
  intros Hr Ho H1 H2. unfold put32.
  destruct (rep_store16 s w b p i (Z.shiftr x 16) Hr Ho) as [Hr1 Hk1]; [lia|lia|].
  destruct (rep_store16 (put16 (p + i) (Z.shiftr x 16) s)
    (w_set_disk (vput16 (w_disk w) b i (Z.shiftr x 16)) w) b p (i + 2) x Hr1) as [Hr2 Hk2];
    [by apply Hk1|lia|cbn; lia|].
  rewrite Z.add_assoc in Hr2, Hk2. split; [exact Hr2|]. intros b' q rw Hq. by apply Hk2, Hk1.
Qed.

Lemma wp_wr16 (Q : unit -> S -> Prop) s w b p i a x :
  rep s w -> frag_owns s b p true -> a = p + i -> 0 <= i -> i + 2 <= fs_fsize (w_fs w) ->
  (forall s', rep s' (w_set_disk (vput16 (w_disk w) b i x) w) -> keeps s s' -> Q tt s') ->
  wp (wr16 a x) Q s.
Proof.
  intros Hr Ho -> H1 H2 HQ. unfold wr16. apply wp_modify.
  destruct (rep_store16 s w b p i x Hr Ho) as [Hr' Hk]; [lia|lia|]. by apply HQ.
Qed.

Lemma wp_wr32 (Q : unit -> S -> Prop) s w b p i a x :
  rep s w -> frag_owns s b p true -> a = p + i -> 0 <= i -> i + 4 <= fs_fsize (w_fs w) ->
  (forall s', rep s' (w_set_disk (vput32 (w_disk w) b i x) w) -> keeps s s' -> Q tt s') ->
  wp (wr32 a x) Q s.
Proof.
  intros Hr Ho -> H1 H2 HQ. unfold wr32. apply wp_modify.
  destruct (rep_store32 s w b p i x Hr Ho) as [Hr' Hk]; [lia|lia|]. by apply HQ.
Qed.

(** ** Fragments *)

Lemma wp_cache_frag (Q : option Z -> S -> Prop) s w b :
  rep s w -> in_u32 b ->
  (forall p s', rep s' w -> frag_owns s' b p false -> Q (Some p) s') -> wp (cache_frag b) Q s.
Proof.
  intros [R1 R2 R3 R4 R5] Hb HQ. eapply wp_mono; [by apply fe_cache_frag|].
  intros r s' (p & -> & G & Hok & Hg & Hv & Hu & Ho). apply HQ; [|done]. constructor.
  - by eapply holds_cg_side.
  - done.
  - congruence.
  - intros b' j. by rewrite Hv.
  - intros a y Ha. destruct (R5 a y Ha) as [Hm <-]. by apply Hu.
Qed.

Lemma wp_cache_frag_write0 (Q : option Z -> S -> Prop) s w b rd :
  rep s w -> in_u32 b ->
  (forall p s' V, rep s' (w_set_disk V w) -> frag_owns s' b p true ->
     (forall b' i, (b' = b -> rd <> 0) -> V b' i = w_disk w b' i) -> Q (Some p) s') ->
  wp (cache_frag_write b rd) Q s.
Proof.
  intros [R1 R2 R3 R4 R5] Hb HQ. eapply wp_mono; [by apply fe_cache_frag_write|].
  intros r s' (p & -> & G & Hok & Hg & Hv & Hu & Ho). apply (HQ p s' (frag_view s')).
  - constructor; cbn; [by eapply holds_cg_side|done|congruence|done|].
    intros a y Ha. destruct (R5 a y Ha) as [Hm <-]. by apply Hu.
  - done.
  - intros b' i Hbi. by rewrite Hv.
Qed.

Lemma rep_ext s w V :
  (forall b i, V b i = w_disk w b i) -> rep s (w_set_disk V w) -> rep s w.
Proof. intros Hv [R1 R2 R3 R4 R5]. constructor; try done. intros b i. by rewrite R4, <- Hv. Qed.

Lemma wp_cache_frag_write (Q : option Z -> S -> Prop) s w b rd :
  rep s w -> in_u32 b -> rd <> 0 ->
  (forall p s', rep s' w -> frag_owns s' b p true -> Q (Some p) s') ->
  wp (cache_frag_write b rd) Q s.
Proof.
  intros Hr Hb Hrd HQ. eapply wp_cache_frag_write0; [done|done|].
  intros p s' V Hr' Ho Hv. apply HQ; [|done]. eapply rep_ext; [|done]. intros b' i. by apply Hv.
Qed.

(** The globals. *)
Lemma wp_upd_glob (Q : unit -> S -> Prop) h s w :
  rep s w -> (forall s', rep s' (w_set_globals (h (w_globals w)) w) -> keeps s s' -> Q tt s') ->
  wp (upd_glob h) Q s.
Proof.
  intros [R1 R2 R3 R4 R5] HQ. unfold upd_glob. apply wp_modify.
  destruct (fe_put_globals s (h (fe_globals s)) R2) as (G & Hok & Hg & Hv & Hk & Hu). apply HQ; [|exact Hk].
  constructor; cbn.
  - by eapply holds_cg_side.
  - done.
  - by rewrite Hg, R3.
  - intros b i. by rewrite Hv.
  - intros a x Ha. destruct (R5 a x Ha) as [Hm <-]. by apply Hu.
Qed.

(** The clock. *)
Lemma wp_unix_time (Q : Z -> S -> Prop) s w :
  rep s w -> (forall t s', in_u32 t -> rep s' w -> keeps s s' -> Q t s') -> wp unix_time Q s.
Proof.
  intros [R1 R2 R3 R4 R5] HQ. eapply wp_mono; [by apply fe_unix_time|].
  intros t s' (Ht & G & [F1 F2 F3 F4 F5]). apply HQ; [done| |exact F4]. constructor.
  - by eapply holds_cg_side.
  - auto.
  - congruence.
  - intros b i. by rewrite F3.
  - intros a x Ha. destruct (R5 a x Ha) as [Hm <-]. by apply F5.
Qed.

End Rep.
