(* ===== verification/HandlerSpec.v ===== *)
(** The contract between the packet code and its surroundings: the laws of
    the system's memory and of the handler's globals ([HandlerLaws]), and
    the words of memory the handler and its callers own. *)

From S2P Require Import Prelude Bitmap Superblock Cg CgStore Alloc AllocWp FileEnv FileSpec Handler.
Local Open Scope bffs_scope.

(** ** Words of known memory

    [w_user] of a world is a partial map from addresses to bytes. *)

Abbreviation umem := (Z -> option Z).

Definition uword (U : umem) (p : Z) : option Z :=
  match U p, U (p + 1), U (p + 2), U (p + 3) with
  | Some a, Some b, Some c, Some d => Some ((a * 2 ^ 8 + b) * 2 ^ 16 + (c * 2 ^ 8 + d))
  | _, _, _, _ => None
  end.

Definition uput (U : umem) (p x : Z) : umem := fun a => if a =? p then Some x else U a.
Definition uput16 (U : umem) (p x : Z) : umem := uput (uput U p (u8 (Z.shiftr x 8))) (p + 1) (u8 x).
Definition uput32 (U : umem) (p x : Z) : umem := uput16 (uput16 U p (Z.shiftr x 16)) (p + 2) x.

(** [n] bytes from [p] on are known. *)
Definition ublock (U : umem) (p n : Z) : Prop := forall a, p <= a < p + n -> is_Some (U a).

Lemma uput_ne U p x a : a <> p -> uput U p x a = U a.
Proof. intros H. unfold uput. by rewrite (proj2 (Z.eqb_neq a p)). Qed.
Lemma uput_eq U p x : uput U p x p = Some x.
Proof. unfold uput. by rewrite Z.eqb_refl. Qed.
Lemma uput32_ne U p x a : a < p \/ p + 4 <= a -> uput32 U p x a = U a.
Proof. intros H. unfold uput32, uput16. rewrite !uput_ne by lia. done. Qed.

Lemma uput32_some U p x a : is_Some (U a) -> is_Some (uput32 U p x a).
Proof. intros H. unfold uput32, uput16, uput. repeat case_match; first [done|by eexists]. Qed.
Lemma uput32_block U p x q n : ublock U q n -> ublock (uput32 U p x) q n.
Proof. intros H a Ha. by apply uput32_some, H. Qed.

Lemma uword_ext U U' p : (forall a, p <= a < p + 4 -> U' a = U a) -> uword U' p = uword U p.
Proof. intros H. unfold uword. by rewrite !H by lia. Qed.

Lemma uword_uput32 U p x : uword (uput32 U p x) p = Some (u32 x).
Proof.
  unfold uword, uput32, uput16.
  rewrite (uput_ne _ (p + 2 + 1)), (uput_ne _ (p + 2)), (uput_ne _ (p + 1)), uput_eq by lia.
  rewrite (uput_ne _ (p + 2 + 1) _ (p + 1)), (uput_ne _ (p + 2) _ (p + 1)), uput_eq by lia.
  rewrite (uput_ne _ (p + 2 + 1) _ (p + 2)), uput_eq by lia.
  replace (p + 2 + 1) with (p + 3) by lia. rewrite uput_eq. f_equal. rewrite !bytes16. apply bytes32.
Qed.

Lemma uword_uput32_ne U p x q : q + 4 <= p \/ p + 4 <= q -> uword (uput32 U p x) q = uword U q.
Proof. intros H. apply uword_ext. intros a Ha. apply uput32_ne. lia. Qed.

Lemma uword_block U p : is_Some (uword U p) -> ublock U p 4.
Proof.
  unfold uword. intros [x Hx] a Ha.
  destruct (U p) eqn:E0, (U (p + 1)) eqn:E1, (U (p + 2)) eqn:E2, (U (p + 3)) eqn:E3; try done.
  assert (a = p \/ a = p + 1 \/ a = p + 2 \/ a = p + 3) as [-> | [-> | [-> | ->]]] by lia; by eexists.
Qed.

Lemma ublock_word U p n q : ublock U p n -> p <= q -> q + 4 <= p + n -> is_Some (uword U q).
Proof.
  intros H H1 H2. unfold uword.
  destruct (H q) as [a ->]; [lia|]. destruct (H (q + 1)) as [b ->]; [lia|].
  destruct (H (q + 2)) as [c ->]; [lia|]. destruct (H (q + 3)) as [d ->]; [lia|]. by eexists.
Qed.

Lemma ublock_sub U p n q m : ublock U p n -> p <= q -> q + m <= p + n -> ublock U q m.
Proof. intros H H1 H2 a Ha. apply H. lia. Qed.

(** ** The laws

    [HV h] is the view of the file layer while the globals of the handler
    are [h].  AllocMem gives memory that nobody owns, aligned to longwords
    and below 4 GB; FreeMem takes nothing but the block it is given. *)

Class HandlerLaws (S : Type) `{HE : HandlerEnv S} {CL : CgStoreLaws S} (HV : handler -> FileView S) := {
  hl_laws :: forall h, @FileEnvLaws S _ (HV h) CL;
  hl_handler : forall h s, @fe_ok S _ (HV h) s -> he_handler s = h;
  hl_set_handler : forall h h' s,
    @fe_ok S _ (HV h) s ->
    let s' := he_set_handler h' s in
    cg_side s s' /\ @fe_ok S _ (HV h') s' /\ fe_globals s' = fe_globals s /\
    (forall b i, @frag_view S _ (HV h') s' b i = @frag_view S _ (HV h) s b i) /\
    (forall b p w, @frag_owns S _ (HV h) s b p w -> @frag_owns S _ (HV h') s' b p w) /\
    (forall a, @user_mem S _ (HV h) s a -> @user_mem S _ (HV h') s' a /\ ld8 a s' = ld8 a s);
  hl_motor : forall h s, motor_is_on (he_set_handler h s) = motor_is_on s;
  hl_dirty : forall h s, cache_item_dirty (he_set_handler h s) = cache_item_dirty s;
  hl_motor_globals : forall g s, motor_is_on (fe_set_globals g s) = motor_is_on s;
  hl_dirty_globals : forall g s, cache_item_dirty (fe_set_globals g s) = cache_item_dirty s;
  hl_AllocMem : forall h s n,
    @fe_ok S _ (HV h) s -> 0 < n ->
    wp (FileEnv.AllocMem n) (fun r s' => cg_side s s' /\ @file_side S _ (HV h) s s' /\
      match r with
      | None => True
      | Some p => 0 < p /\ p mod 4 = 0 /\ p + n <= 2 ^ 32 /\
          forall a, p <= a < p + n -> @user_mem S _ (HV h) s' a /\ ~ @user_mem S _ (HV h) s a
      end) s;
  hl_FreeMem : forall h s p n,
    @fe_ok S _ (HV h) s ->
    (forall a, p <= a < p + n -> @user_mem S _ (HV h) s a) ->
    wp (FileEnv.FreeMem (Some p) n) (fun _ s' => cg_side s s' /\ @fe_ok S _ (HV h) s' /\
      fe_globals s' = fe_globals s /\
      (forall b i, @frag_view S _ (HV h) s' b i = @frag_view S _ (HV h) s b i) /\
      (forall b q w, @frag_owns S _ (HV h) s b q w -> @frag_owns S _ (HV h) s' b q w) /\
      (forall a, a < p \/ p + n <= a -> @user_mem S _ (HV h) s a ->
         @user_mem S _ (HV h) s' a /\ ld8 a s' = ld8 a s)) s }.

(** ** Memory of callers *)

Section UserMem.
Context {S : Type} {FE : FileEnv S} {FV : FileView S} {CL : CgStoreLaws S} {FL : FileEnvLaws S}.

Lemma rep_user_byte s w a x : rep s w -> w_user w a = Some x -> 0 <= x < 256.
Proof.
  intros Hr Ha. destruct (rp_user s w Hr a x Ha) as [Hm <-].
  apply (fe_user_byte s a); [by apply (rp_ok s w)|done].
Qed.

Lemma rep_uword s w p x : rep s w -> uword (w_user w) p = Some x -> get32 p s = x /\ in_u32 x.
Proof.
  intros Hr Hx. unfold uword in Hx.
  destruct (w_user w p) as [a|] eqn:E0; [|done]. destruct (w_user w (p + 1)) as [b|] eqn:E1; [|done].
  destruct (w_user w (p + 2)) as [c|] eqn:E2; [|done]. destruct (w_user w (p + 3)) as [d|] eqn:E3; [|done].
  pose proof (rep_user_byte s w _ _ Hr E0). pose proof (rep_user_byte s w _ _ Hr E1).
  pose proof (rep_user_byte s w _ _ Hr E2). pose proof (rep_user_byte s w _ _ Hr E3).
  pose proof (rp_user s w Hr) as Hu.
  destruct (Hu _ _ E0) as [_ L0]. destruct (Hu _ _ E1) as [_ L1].
  destruct (Hu _ _ E2) as [_ L2]. destruct (Hu _ _ E3) as [_ L3].
  injection Hx as <-. unfold get32, get16, in_u32. replace (p + 2 + 1) with (p + 3) by lia.
  rewrite L0, L1, L2, L3. zify_pow. split; [lia|lia].
Qed.

Lemma wp_urd32 (Q : Z -> S -> Prop) s w p x :
  rep s w -> uword (w_user w) p = Some x -> (in_u32 x -> Q x s) -> wp (rd32 p) Q s.
Proof.
  intros Hr Hx HQ. unfold rd32. apply wp_gets. destruct (rep_uword s w p x Hr Hx) as [-> Hin]. auto.
Qed.

Lemma wp_urds32 (Q : Z -> S -> Prop) s w p x :
  rep s w -> uword (w_user w) p = Some x -> (in_u32 x -> Q (s32 x) s) -> wp (rds32 p) Q s.
Proof.
  intros Hr Hx HQ. unfold rds32. apply wp_gets. destruct (rep_uword s w p x Hr Hx) as [-> Hin]. auto.
Qed.

Lemma wp_urd8 (Q : Z -> S -> Prop) s w p x :
  rep s w -> w_user w p = Some x -> Q x s -> wp (rd8 p) Q s.
Proof. intros Hr Hx HQ. unfold rd8. apply wp_gets. by destruct (rp_user s w Hr p x Hx) as [_ ->]. Qed.

Lemma rep_user_store s w p x :
  rep s w -> is_Some (w_user w p) -> 0 <= x < 256 ->
  rep (st8 p x s) (w_set_user (uput (w_user w) p x) w) /\ keeps s (st8 p x s).
Proof.
  intros [R1 R2 R3 R4 R5] [y Hy] Hx. destruct (R5 p y Hy) as [Hm _].
  destruct (fe_user_store s p x R2 Hm Hx) as (G & Hok & Hg & Hv & Hk & Hu). split; [|exact Hk].
  constructor; cbn.
  - by eapply holds_cg_side.
  - done.
  - congruence.
  - intros b i. by rewrite Hv.
  - intros a z Ha. unfold uput in Ha. destruct (Z.eqb_spec a p) as [->|Hn].
    + injection Ha as <-. destruct (Hu p Hm) as [H1 H2]. by rewrite Z.eqb_refl in H2.
    + destruct (R5 a z Ha) as [H1 <-]. destruct (Hu a H1) as [H2 ->]. split; [done|].
      by rewrite (proj2 (Z.eqb_neq a p)).
Qed.

Lemma wp_uwr8 (Q : unit -> S -> Prop) s w p x :
  rep s w -> is_Some (w_user w p) ->
  (forall s', rep s' (w_set_user (uput (w_user w) p (u8 x)) w) -> keeps s s' -> Q tt s') ->
  wp (wr8 p x) Q s.
Proof.
  intros Hr Hp HQ. unfold wr8. apply wp_modify.
  destruct (rep_user_store s w p (u8 x) Hr Hp (u8_range x)) as [H1 H2]. by apply HQ.
Qed.

Lemma uput_some U p x a : is_Some (U a) -> is_Some (uput U p x a).
Proof. intros H. unfold uput. by destruct (a =? p). Qed.

Lemma rep_user_store16 s w p x :
  rep s w -> ublock (w_user w) p 2 ->
  rep (put16 p x s) (w_set_user (uput16 (w_user w) p x) w) /\ keeps s (put16 p x s).
Proof.
  intros Hr Hb. unfold put16.
  destruct (rep_user_store s w p (u8 (Z.shiftr x 8)) Hr) as [H1 K1]; [apply Hb; lia|apply u8_range|].
  destruct (rep_user_store _ _ (p + 1) (u8 x) H1) as [H2 K2]; [apply uput_some, Hb; lia|apply u8_range|].
  split; [exact H2|]. intros b q rw Hq. by apply K2, K1.
Qed.

Lemma rep_user_store32 s w p x :
  rep s w -> ublock (w_user w) p 4 ->
  rep (put32 p x s) (w_set_user (uput32 (w_user w) p x) w) /\ keeps s (put32 p x s).
Proof.
  intros Hr Hb. unfold put32.
  destruct (rep_user_store16 s w p (Z.shiftr x 16) Hr) as [H1 K1]; [eapply ublock_sub; [done|lia|lia]|].
  destruct (rep_user_store16 _ _ (p + 2) x H1) as [H2 K2].
  { intros a Ha. cbn. unfold uput16. do 2 apply uput_some. apply Hb. lia. }
  split; [exact H2|]. intros b q rw Hq. by apply K2, K1.
Qed.

Lemma wp_uwr32 (Q : unit -> S -> Prop) s w p x :
  rep s w -> ublock (w_user w) p 4 ->
  (forall s', rep s' (w_set_user (uput32 (w_user w) p x) w) -> keeps s s' -> Q tt s') ->
  wp (wr32 p x) Q s.
Proof.
  intros Hr Hb HQ. unfold wr32. apply wp_modify.
  destruct (rep_user_store32 s w p x Hr Hb) as [H1 H2]. by apply HQ.
Qed.

End UserMem.

(** Memory given back. *)
Definition uforget (U : umem) (p n : Z) : umem :=
  fun a => if (p <=? a) && (a <? p + n) then None else U a.

Lemma uforget_out U p n a : a < p \/ p + n <= a -> uforget U p n a = U a.
Proof. intros H. unfold uforget. destruct (Z.leb_spec p a), (Z.ltb_spec a (p + n)); try done. lia. Qed.
Lemma uforget_in U p n a : p <= a < p + n -> uforget U p n a = None.
Proof. intros H. unfold uforget. by rewrite (proj2 (Z.leb_le _ _)), (proj2 (Z.ltb_lt _ _)) by lia. Qed.

(** ** The globals of the handler and the system's memory *)

Section HandlerWp.
Context {S : Type} {FE : FileEnv S} {HE : HandlerEnv S} {CL : CgStoreLaws S}.
Context {HV : handler -> FileView S} {HL : HandlerLaws S HV}.

(** The file layer at [w] while the globals of the handler are [h]. *)
Definition hrep (h : handler) (s : S) (w : world) : Prop := @rep S FE (HV h) CL s w.

Lemma hrep_handler h s w : hrep h s w -> he_handler s = h.
Proof. intros Hr. apply hl_handler. apply (rp_ok (FV := HV h) s w Hr). Qed.

Lemma wp_hv {A} (f : handler -> A) (Q : A -> S -> Prop) h s w :
  hrep h s w -> Q (f h) s -> wp (hv f) Q s.
Proof. intros Hr HQ. unfold hv. apply wp_gets. by rewrite (hrep_handler h s w Hr). Qed.

Lemma wp_upd_hv (f : handler -> handler) (Q : unit -> S -> Prop) h s w :
  hrep h s w -> (forall s', hrep (f h) s' w -> Q tt s') -> wp (upd_hv f) Q s.
Proof.
  intros Hr HQ. unfold upd_hv. apply wp_modify. rewrite (hrep_handler h s w Hr). apply HQ.
  destruct Hr as [R1 R2 R3 R4 R5].
  destruct (hl_set_handler h (f h) s R2) as (G & Hok & Hg & Hv & _ & Hu). constructor.
  - by eapply holds_cg_side.
  - done.
  - congruence.
  - intros b i. by rewrite Hv.
  - intros a x Ha. destruct (R5 a x Ha) as [Hm <-]. by apply Hu.
Qed.

Lemma wp_AllocMem (Q : option Z -> S -> Prop) h s w n :
  hrep h s w -> 0 < n ->
  (forall s', hrep h s' w -> Q None s') ->
  (forall p s' U', hrep h s' (w_set_user U' w) -> 0 < p -> p mod 4 = 0 -> p + n <= 2 ^ 32 ->
     (forall a, a < p \/ p + n <= a -> U' a = w_user w a) ->
     (forall a, p <= a < p + n -> w_user w a = None) -> ublock U' p n -> Q (Some p) s') ->
  wp (FileEnv.AllocMem n) Q s.
Proof.
  intros Hr Hn HN HS. pose proof Hr as [R1 R2 R3 R4 R5].
  eapply wp_mono; [by apply (hl_AllocMem h)|]. intros r s' (G & [F1 F2 F3 F4 F5] & Hp).
  assert (forall U', (forall a x, U' a = Some x -> user_mem (FileView := HV h) s' a /\ ld8 a s' = x) ->
    hrep h s' (w_set_user U' w)) as Hrep.
  { intros U' HU. constructor; cbn.
    - by eapply holds_cg_side.
    - auto.
    - congruence.
    - intros b i. by rewrite F3.
    - done. }
  assert (forall a x, w_user w a = Some x -> user_mem (FileView := HV h) s' a /\ ld8 a s' = x) as Hold.
  { intros a x Ha. destruct (R5 a x Ha) as [Hm <-]. by apply F5. }
  destruct r as [p|].
  - destruct Hp as (H1 & H2 & H3 & H4).
    apply (HS p s' (fun a => if (p <=? a) && (a <? p + n) then Some (ld8 a s') else w_user w a)); try done.
    + apply Hrep. intros a x. destruct (Z.leb_spec p a), (Z.ltb_spec a (p + n)); cbn [andb]; try apply Hold.
      intros [= <-]. split; [|done]. by apply H4.
    + intros a Ha. destruct (Z.leb_spec p a), (Z.ltb_spec a (p + n)); try done. lia.
    + intros a Ha. destruct (w_user w a) as [x|] eqn:E; [|done]. destruct (H4 a Ha) as [_ []]. by apply (R5 a x).
    + intros a Ha. rewrite (proj2 (Z.leb_le _ _)), (proj2 (Z.ltb_lt _ _)) by lia. by eexists.
  - apply HN. specialize (Hrep (w_user w) Hold). by destruct w.
Qed.

Lemma wp_FreeMem (Q : unit -> S -> Prop) h s w p n :
  hrep h s w -> ublock (w_user w) p n ->
  (forall s', hrep h s' (w_set_user (uforget (w_user w) p n) w) -> Q tt s') ->
  wp (FileEnv.FreeMem (Some p) n) Q s.
Proof.
  intros Hr Hb HQ. pose proof Hr as [R1 R2 R3 R4 R5].
  eapply wp_mono.
  { apply (hl_FreeMem h); [done|]. intros a Ha. destruct (Hb a Ha) as [x Hx]. by apply (R5 a x). }
  intros [] s' (G & Hok & Hg & Hv & _ & Hu). apply HQ. constructor; cbn.
  - by eapply holds_cg_side.
  - done.
  - congruence.
  - intros b i. by rewrite Hv.
  - intros a x. unfold uforget. destruct (Z.leb_spec p a), (Z.ltb_spec a (p + n)); cbn [andb]; try done;
      intros Ha; destruct (R5 a x Ha) as [Hm <-]; (apply Hu; [lia|done]).
Qed.

(** Res1 and Res2. *)
Lemma wp_res1 (Q : unit -> S -> Prop) h s w v :
  hrep h s w -> (forall s', hrep (set_Res1 v h) s' w -> Q tt s') -> wp (res1 v) Q s.
Proof. intros Hr HQ. by eapply wp_upd_hv. Qed.

Lemma wp_res2 (Q : unit -> S -> Prop) h s w v :
  hrep h s w -> (forall s', hrep h s' (w_set_globals (set_Res2 (u32 v) (w_globals w)) w) -> Q tt s') ->
  wp (res2 v) Q s.
Proof. intros Hr HQ. unfold res2. eapply (wp_upd_glob (FV := HV h)); [exact Hr|]. intros s' Hr' _. by apply HQ. Qed.

Lemma wp_fail (Q : unit -> S -> Prop) h s w v :
  hrep h s w ->
  (forall s', hrep (set_Res1 DOSFALSE h) s' (w_set_globals (set_Res2 (u32 v) (w_globals w)) w) -> Q tt s') ->
  wp (fail v) Q s.
Proof.
  intros Hr HQ. unfold fail. apply wp_bnd. eapply wp_res1; [done|]. intros s1 Hr1.
  eapply wp_res2; [done|]. exact HQ.
Qed.

End HandlerWp.
