(* ===== verification/BlockMap.v ===== *)
(** The block map of files ([inode.c]): the address of a file fragment as a
    function of the disk, [ridisk_frag] computes it, and the trees of index
    blocks behind it. *)

From S2P Require Import Prelude Bitmap Superblock Addresses Cg CgStore Alloc AllocWp AllocSpec.
From S2P Require Import AllocInv AllocTheorems FileEnv Inode IndexPath FileSpec.
Local Open Scope bffs_scope.

(** ** block_allocate seen from the file layer *)

Section FAlloc.
Context {S : Type} {FE : FileEnv S} {FV : FileView S} {CL : CgStoreLaws S} {FL : FileEnvLaws S}.

(** The files and the memory of [w] with other groups. *)
Lemma rep_framed s s' w (f : fs) v :
  rep s w -> @holds S _ (framed_laws s) s' f v -> rep s' (w_set_cg f v w) /\ keeps s s'.
Proof.
  intros [R1 R2 R3 R4 R5] [(Hok & Hfe & [F1 F2 F3 F4 F5]) [Hf Hv]]. split; [|exact F4].
  constructor; cbn; [done|done|congruence|intros b i; by rewrite F3|].
  intros a x Ha. destruct (R5 a x Ha) as [Hm <-]. by apply F5.
Qed.

Lemma holds_framed s w : rep s w -> @holds S _ (framed_laws s) s (w_fs w) (w_cg w).
Proof.
  intros [(Hok & Hf & Hv) R2 R3 R4 R5]. split; [|by split]. split; [done|]. split; [done|]. reflexivity.
Qed.

Lemma wp_falloc (Q : Z -> S -> Prop) s w d :
  rep s w -> fs_inv (w_fs w) (w_cg w) -> on_disk (w_fs w) d ->
  (disk_full (w_fs w) (w_cg w) -> forall s', rep s' w -> Q 0 s') ->
  (forall r s' f' v', 0 < r -> on_disk (w_fs w) r -> r mod fs_frag (w_fs w) = 0 ->
     all_frags (w_fs w) (w_cg w) r (fs_frag (w_fs w)) true ->
     fs_inv f' v' -> fs_geo f' = fs_geo (w_fs w) ->
     free_set (w_fs w) (w_cg w) f' v' r (fs_frag (w_fs w)) false ->
     rep s' (w_set_cg f' v' w) -> Q r s') ->
  wp (block_allocate d) Q s.
Proof.
  intros Hr Hi Hd Hnone Hsome.
  apply (@wp_block_allocate_moved S _ (framed_laws s) Q s (w_fs w) (w_cg w) d);
    [by apply holds_framed|done|done|..].
  - intros Hfull s' Hh. destruct (rep_framed s s' w _ _ Hr Hh) as [Hr' _]. apply Hnone; [done|].
    by destruct w.
  - intros k b r s' _ _ Hp Hod Hal Hfr (f' & v' & Hh & Hi' & Hg & Hfs).
    destruct (rep_framed s s' w _ _ Hr Hh) as [Hr' _]. by eapply Hsome.
Qed.

End FAlloc.

(** ** Where things are *)

(** The block size, the size of an inode and the pointers in a fragment fit
    together, as newfs makes them and the mount computes the masks. *)
Record wf_files (f : fs) (gl : globals) : Prop := {
  wf_geo : wf_geometry f;
  wf_index : index_geometry gl;
  wf_inode : INOPF f * sizeof_icommon = fs_fsize f;
  wf_ptrs : 2 ^ pfragshift gl * 4 = fs_fsize f;
  wf_blk : fs_frag f = 2 ^ fblkshift gl }.

(** Inode 0 stands for the root. *)
Definition inum_of (inum : Z) : Z := if inum =? 0 then 2 else inum.
Definition ino_frag (f : fs) (inum : Z) : Z := inode_addr f (inum_of inum).
Definition ino_off (f : fs) (inum : Z) : Z := sizeof_icommon * itofo f (inum_of inum).

(** A pointer of an inode: its offset in the inode, and the entries of index
    blocks from there on, the top level first. *)
Definition slot_path (gl : globals) (blk : Z) : Z * list (Z * Z) :=
  let ind := block_ind blk in
  if ind <? 0 then (40 + 4 * blk, [])
  else match index_path (Z.to_nat NIADDR) gl 0 ind with
       | Some path => (88 + 4 * (zlen path - 1), rev path)
       | None => (0, [])
       end.

(** Following entries from a block; 0 is a hole. *)
Fixpoint follow (V : Z -> Z -> Z) (path : list (Z * Z)) (cur : Z) : Z :=
  match path with
  | [] => cur
  | (p, fr) :: path =>
      if cur =? 0 then 0 else follow V path (v32 V (u32 (cur + fr)) (4 * p))
  end.

Definition ino_ptr (f : fs) (V : Z -> Z -> Z) (inum off : Z) : Z :=
  v32 V (ino_frag f inum) (ino_off f inum + off).

(** The address of block [blk] of file [inum], and of its fragment [n]. *)
Definition block_of (f : fs) (gl : globals) (V : Z -> Z -> Z) (inum blk : Z) : Z :=
  let sp := slot_path gl blk in follow V sp.2 (ino_ptr f V inum sp.1).

Definition frag_of (f : fs) (gl : globals) (V : Z -> Z -> Z) (inum n : Z) : Z :=
  let cur := block_of f gl V inum (n / fs_frag f) in
  if cur =? 0 then 0 else u32 (cur + n mod fs_frag f).

(** Fragment numbers a file can have. *)
Definition file_frag (f : fs) (gl : globals) (n : Z) : Prop :=
  0 <= n < 2 ^ 31 /\ n / fs_frag f - NDADDR < capacity 3 gl.

Section Places.
Context (f : fs) (gl : globals) (Hw : wf_files f gl).

Lemma ino_off_bounds inum : 0 <= ino_off f inum /\ ino_off f inum + sizeof_icommon <= fs_fsize f.
Proof using Hw.
  pose proof (wf_geo f gl Hw) as Hg. destruct (inopf_pos f Hg) as [HP _].
  pose proof (wf_inode f gl Hw) as E. unfold ino_off. rewrite (itofo_eq f Hg).
  pose proof (Z.mod_pos_bound (inum_of inum) (INOPF f) HP). unfold sizeof_icommon in *. lia.
Qed.

Lemma ino_frag_u32 inum : in_u32 (ino_frag f inum).
Proof using Type. apply u32_range. Qed.

Lemma block_ind_eq blk : 0 <= blk < 2 ^ 31 -> block_ind blk = blk - NDADDR.
Proof using Type.
  intros Hb. unfold block_ind, NDADDR. unfold u32, s32. dlia.
Qed.

Lemma file_frag_block n : file_frag f gl n ->
  0 <= n / fs_frag f < 2 ^ 31 /\ n - n / fs_frag f * fs_frag f = n mod fs_frag f.
Proof using Hw.
  intros [Hn _]. pose proof (frag_pos f (wf_geo f gl Hw)) as HF.
  split; [split; [apply Z.div_pos; lia|apply Z.div_lt_upper_bound; nia]|].
  pose proof (Z.div_mod n (fs_frag f) ltac:(lia)). lia.
Qed.

(** The shape of a path. *)
Lemma slot_path_spec blk :
  0 <= blk < 2 ^ 31 -> blk - NDADDR < capacity 3 gl ->
  let sp := slot_path gl blk in
  40 <= sp.1 /\ sp.1 + 4 <= 100 /\ Forall (in_block gl) sp.2 /\
  (if blk <? NDADDR then sp = (40 + 4 * blk, [])
   else exists path, index_path (Z.to_nat NIADDR) gl 0 (blk - NDADDR) = Some path /\
     sp = (88 + 4 * (zlen path - 1), rev path) /\ 1 <= zlen path <= NIADDR /\
     decode gl path = blk - NDADDR).
Proof using Hw.
  intros Hb Hc. unfold slot_path. rewrite block_ind_eq by done. unfold NDADDR in *.
  destruct (Z.ltb_spec (blk - 12) 0), (Z.ltb_spec blk 12); try lia.
  - cbn. split; [lia|]. split; [lia|]. split; [by apply Forall_nil|done].
  - destruct (index_path_spec gl (wf_index f gl Hw) 3 0 (blk - 12)) as (path & Hp & Hne & Hlen & Hf & Hd).
    + lia.
    + unfold in_s32. zify_pow. lia.
    + change (0 <= blk - 12). lia.
    + change (blk - 12 < capacity 3 gl). lia.
    + change (Z.to_nat NIADDR) with 3%nat. rewrite Hp. cbn [fst snd].
      assert (1 <= zlen path) by (destruct path; [done|unfold zlen; cbn [length]; lia]).
      unfold NIADDR. split; [lia|]. split; [lia|]. split; [by apply Forall_rev|].
      exists path. split; [done|]. split; [done|]. split; [lia|done].
Qed.

(** Different blocks have different paths. *)
Lemma slot_path_inj blk blk' :
  0 <= blk < 2 ^ 31 -> blk - NDADDR < capacity 3 gl ->
  0 <= blk' < 2 ^ 31 -> blk' - NDADDR < capacity 3 gl ->
  slot_path gl blk = slot_path gl blk' -> blk = blk'.
Proof using Hw.
  intros H1 H2 H3 H4 E.
  destruct (slot_path_spec blk H1 H2) as (A1 & A2 & A3 & A4).
  destruct (slot_path_spec blk' H3 H4) as (B1 & B2 & B3 & B4). rewrite E in *.
  revert A4 B4. destruct (Z.ltb_spec blk NDADDR), (Z.ltb_spec blk' NDADDR).
  - intros -> [= ?]. lia.
  - intros -> (path & _ & [= ? Hr] & Hl & _). apply (f_equal length) in Hr.
    rewrite length_rev in Hr. unfold zlen in Hl. cbn in Hr. lia.
  - intros (path & _ & Hp & Hl & _) Hq. rewrite Hq in Hp. injection Hp as _ Hr.
    apply (f_equal length) in Hr. rewrite length_rev in Hr. unfold zlen in Hl. cbn in Hr. lia.
  - intros (path & _ & Hp & Hl & Hd) (path' & _ & Hp' & Hl' & Hd'). rewrite Hp in Hp'.
    injection Hp' as _ Hr. apply (f_equal (@rev _)) in Hr. rewrite !rev_involutive in Hr.
    rewrite Hr in Hd. lia.
Qed.

End Places.

(** ** ridisk_frag *)

Section Read.
Context {S : Type} {FE : FileEnv S} {FV : FileView S} {CL : CgStoreLaws S} {FL : FileEnvLaws S}.

(** Reads keep whatever every request for a fragment keeps. *)
Definition read_stable (X : S -> Prop) : Prop := forall s b,
  fe_ok s -> in_u32 b -> X s -> wp (cache_frag b) (fun _ s' => X s') s.

Lemma stable_true : read_stable (fun _ => True).
Proof.
  intros s b Hok Hb _. eapply wp_mono; [by apply fe_cache_frag|]. done.
Qed.

Lemma wp_cache_frag_with X (Q : option Z -> S -> Prop) s w b :
  read_stable X -> X s -> rep s w -> in_u32 b ->
  (forall p s', X s' -> rep s' w -> frag_owns s' b p false -> Q (Some p) s') -> wp (cache_frag b) Q s.
Proof.
  intros HX Hx Hr Hb HQ. eapply wp_mono.
  - apply wp_and; [by apply (HX s b); [apply Hr|..]|].
    eapply (wp_cache_frag (fun r s' => exists p, r = Some p /\ rep s' w /\ frag_owns s' b p false)); [exact Hr|done|].
    intros p s' Hr' Ho. by exists p.
  - intros r s' [Hk (p & -> & Hr' & Ho)]. by apply HQ.
Qed.

Lemma wp_inode_read_with X (Q : option Z -> S -> Prop) s w inum :
  read_stable X -> X s -> rep s w ->
  (forall p s', X s' -> rep s' w -> frag_owns s' (ino_frag (w_fs w) inum) p false ->
     Q (Some (p + ino_off (w_fs w) inum)) s') ->
  wp (inode_read inum) Q s.
Proof.
  intros HX Hx Hr HQ. unfold inode_read. fold (inum_of inum). cbv zeta. apply wp_bnd.
  eapply wp_fs; [done|]. apply wp_bnd. eapply wp_cache_frag_with; [done|done|done|apply u32_range|].
  intros p s' Hx' Hr' Ho. apply wp_ret. by apply HQ.
Qed.

Lemma wp_inode_read (Q : option Z -> S -> Prop) s w inum :
  rep s w ->
  (forall p s', rep s' w -> frag_owns s' (ino_frag (w_fs w) inum) p false ->
     Q (Some (p + ino_off (w_fs w) inum)) s') ->
  wp (inode_read inum) Q s.
Proof. intros Hr HQ. eapply wp_inode_read_with; [apply stable_true|done|done|]. intros p s' _. apply HQ. Qed.

Lemma wp_inode_modify (Q : option Z -> S -> Prop) s w inum :
  rep s w ->
  (forall p s', rep s' w -> frag_owns s' (ino_frag (w_fs w) inum) p true ->
     Q (Some (p + ino_off (w_fs w) inum)) s') ->
  wp (inode_modify inum) Q s.
Proof.
  intros Hr HQ. unfold inode_modify. fold (inum_of inum). cbv zeta. apply wp_bnd.
  eapply wp_fs; [done|]. apply wp_bnd. eapply wp_cache_frag_write; [done|apply u32_range|done|].
  intros p s' Hr' Ho. apply wp_ret. by apply HQ.
Qed.

(** A pointer of the inode, at an offset below ic_flags. *)
Lemma wp_ino_ptr (Q : Z -> S -> Prop) s w inum p rw off a :
  wf_files (w_fs w) (w_globals w) -> rep s w -> frag_owns s (ino_frag (w_fs w) inum) p rw ->
  a = p + ino_off (w_fs w) inum + off -> 0 <= off -> off + 4 <= sizeof_icommon ->
  Q (ino_ptr (w_fs w) (w_disk w) inum off) s -> wp (rd32 a) Q s.
Proof.
  intros Hw Hr Ho -> H1 H2 HQ. pose proof (ino_off_bounds _ _ Hw inum).
  eapply (wp_rd32 Q s w _ p rw (ino_off (w_fs w) inum + off)); [done|done|lia|lia|lia|done].
Qed.

(** An entry of an index block. *)
Lemma wp_entry (Q : Z -> S -> Prop) s w b p rw e :
  wf_files (w_fs w) (w_globals w) -> rep s w -> in_block (w_globals w) e ->
  frag_owns s b p rw -> Q (v32 (w_disk w) b (4 * e.1)) s -> wp (rd32 (p + 4 * e.1)) Q s.
Proof.
  intros Hw Hr [He _] Ho HQ. pose proof (wf_ptrs _ _ Hw).
  eapply (wp_rd32 Q s w _ p rw (4 * e.1)); [done|done|done|lia|lia|done].
Qed.

Lemma wp_path_of (Q : list (Z * Z) -> S -> Prop) s w ind path :
  rep s w -> index_path (Z.to_nat NIADDR) (w_globals w) 0 ind = Some path -> Q path s ->
  wp (path_of ind) Q s.
Proof.
  intros Hr Hp HQ. unfold path_of. apply wp_bnd. eapply wp_glob; [done|]. unfold id.
  by apply (wp_deref _ path).
Qed.

Lemma wp_ridisk_walk X (Q : Z -> S -> Prop) path s w cur :
  read_stable X -> wf_files (w_fs w) (w_globals w) -> X s -> rep s w -> Forall (in_block (w_globals w)) path -> cur <> 0 ->
  (forall s', X s' -> rep s' w -> Q (follow (w_disk w) path cur) s') -> wp (ridisk_walk path cur) Q s.
Proof.
  intros HX Hw. revert s cur. induction path as [|[p fr] path IH]; intros s cur Hx Hr Hin Hc HQ.
  - by apply wp_ret, HQ.
  - apply Forall_cons in Hin as [He Hin]. cbn [ridisk_walk]. apply wp_bnd.
    eapply wp_cache_frag_with; [done|done|done|apply u32_range|]. intros q s1 Hx1 Hr1 Ho1. cbv beta iota. apply wp_bnd.
    eapply (wp_entry _ s1 w _ q false (p, fr)); [done|done|done|done|]. cbv beta.
    cbn [follow fst snd] in *. rewrite (proj2 (Z.eqb_neq cur 0)) in HQ by done.
    destruct (Z.eqb_spec (v32 (w_disk w) (u32 (cur + fr)) (4 * p)) 0) as [E|E].
    + apply wp_ret. rewrite E in HQ. specialize (HQ s1 Hx1 Hr1). by destruct path as [|[? ?] ?].
    + by apply IH.
Qed.

Lemma wp_ridisk_frag_with X (Q : Z -> S -> Prop) s w n inum :
  read_stable X -> wf_files (w_fs w) (w_globals w) -> X s -> rep s w -> file_frag (w_fs w) (w_globals w) n ->
  (forall s', X s' -> rep s' w -> Q (frag_of (w_fs w) (w_globals w) (w_disk w) inum n) s') ->
  wp (ridisk_frag n inum) Q s.
Proof.
  intros HX Hw Hx Hr Hn HQ. destruct (file_frag_block _ _ Hw n Hn) as [Hb Hm].
  unfold ridisk_frag. apply wp_bnd. eapply wp_inode_read_with; [done|done|done|]. intros p s1 Hx1 Hr1 Ho1. cbv beta iota.
  apply wp_bnd. eapply wp_FPB; [done|]. cbv beta zeta. rewrite Hm.
  destruct (slot_path_spec _ _ Hw (n / fs_frag (w_fs w)) Hb (proj2 Hn)) as (P1 & P2 & P3 & P4).
  unfold frag_of, block_of in HQ. cbv zeta in HQ. rewrite block_ind_eq by done.
  apply wp_bnd. destruct (Z.ltb_spec (n / fs_frag (w_fs w)) NDADDR) as [Hlt|Hge].
  - rewrite (proj2 (Z.ltb_lt _ 0)) by lia. unfold ic_db.
    eapply (wp_ino_ptr _ s1 w inum p false (40 + 4 * (n / fs_frag (w_fs w)))); [done|done|done|lia| |..].
    { lia. }
    { unfold NDADDR, sizeof_icommon in *. lia. }
    rewrite P4 in HQ. cbn [fst snd follow] in HQ. specialize (HQ s1 Hx1 Hr1).
    by destruct (_ =? 0); apply wp_ret.
  - rewrite (proj2 (Z.ltb_ge _ 0)) by lia. destruct P4 as (path & Hp & Hsp & Hl & _).
    rewrite Hsp in *. cbn [fst snd] in *. apply wp_bnd. eapply wp_path_of; [done|done|]. cbv beta.
    apply wp_bnd. unfold ic_ib.
    eapply (wp_ino_ptr _ s1 w inum p false (88 + 4 * (zlen path - 1))); [done|done|done|lia| |..].
    { lia. }
    { unfold sizeof_icommon in *. lia. }
    destruct (Z.eqb_spec (ino_ptr (w_fs w) (w_disk w) inum (88 + 4 * (zlen path - 1))) 0) as [E|E].
    + apply wp_ret. cbv beta. cbn [Z.eqb]. apply wp_ret. rewrite E in HQ. specialize (HQ s1 Hx1 Hr1).
      by destruct (rev path) as [|[? ?] ?].
    + eapply wp_ridisk_walk; [done|done|done|done|done|done|]. intros s2 Hx2 Hr2. specialize (HQ s2 Hx2 Hr2).
      by destruct (_ =? 0); apply wp_ret.
Qed.

Lemma wp_ridisk_frag (Q : Z -> S -> Prop) s w n inum :
  wf_files (w_fs w) (w_globals w) -> rep s w -> file_frag (w_fs w) (w_globals w) n ->
  (forall s', rep s' w -> Q (frag_of (w_fs w) (w_globals w) (w_disk w) inum n) s') ->
  wp (ridisk_frag n inum) Q s.
Proof.
  intros Hw Hr Hn HQ. eapply wp_ridisk_frag_with; [apply stable_true|done|done|done|done|]. intros s' _. apply HQ.
Qed.

End Read.
