(* ===== verification/BlockTree.v ===== *)
(** The trees of index blocks of all files together: no index block is shared
    or lies over an inode, and what changing one pointer does to the block
    map of every file. *)

From S2P Require Import Prelude Bitmap Superblock Addresses Cg CgStore Alloc AllocSpec AllocInv.
From S2P Require Import AllocTheorems FileEnv Inode IndexPath FileSpec BlockMap.
Local Open Scope bffs_scope.

(** Levels of index blocks behind the pointer at offset [off] of an inode. *)
Definition levels (off : Z) : Z := if off <? 88 then 0 else (off - 88) / 4 + 1.

(** The pointers of an inode: 12 direct and 3 indirect ones. *)
Definition ptr_off (off : Z) : Prop := 40 <= off /\ off + 4 <= 100 /\ off mod 4 = 0.

(** A place in the trees: a file, a pointer of its inode, entries from there. *)
Definition place : Type := Z * Z * list (Z * Z).

Section Trees.
Context (f : fs) (gl : globals).

(** What the place holds: a block address or 0. *)
Definition pval (V : Z -> Z -> Z) (x : place) : Z :=
  follow V x.2 (ino_ptr f V x.1.1 x.1.2).

Definition place_ok (live : Z -> Prop) (x : place) : Prop :=
  live x.1.1 /\ ptr_off x.1.2 /\ Forall (in_block gl) x.2 /\ zlen x.2 <= levels x.1.2.

(** The place holds the address of an index block. *)
Definition index_place (live : Z -> Prop) (x : place) : Prop :=
  place_ok live x /\ zlen x.2 < levels x.1.2.

(** A whole aligned block of the disk. *)
Definition block_addr (b : Z) : Prop := 0 < b /\ on_disk f b /\ b mod fs_frag f = 0.
Definition in_blk (b x : Z) : Prop := b <= x < b + fs_frag f.

Definition used (free : Z -> bool) (x : Z) : Prop := on_disk f x /\ free x = false.

Record trees (live : Z -> Prop) (free : Z -> bool) (V : Z -> Z -> Z) : Prop := {
  tr_live : forall i, live i -> 0 < i < fs_ipg f * fs_ncg f;
  tr_inode : forall i, live i -> used free (ino_frag f i);
  tr_block : forall x, index_place live x -> pval V x <> 0 -> block_addr (pval V x);
  tr_used : forall x y, index_place live x -> pval V x <> 0 -> in_blk (pval V x) y -> used free y;
  tr_apart : forall x i, index_place live x -> pval V x <> 0 -> live i ->
    ~ in_blk (pval V x) (ino_frag f i);
  tr_inj : forall x y, index_place live x -> index_place live y ->
    pval V x <> 0 -> pval V x = pval V y -> x = y;
  tr_data : forall x, place_ok live x -> pval V x <> 0 -> on_disk f (pval V x) }.

Lemma follow_snoc V q e cur :
  follow V (q ++ [e]) cur =
  if follow V q cur =? 0 then 0 else v32 V (u32 (follow V q cur + e.2)) (4 * e.1).
Proof using Type.
  revert cur. induction q as [|[p fr] q IH]; intros cur; cbn [app follow].
  - destruct e as [p fr]. cbn. done.
  - destruct (Z.eqb_spec cur 0); [done|]. apply IH.
Qed.

Lemma pval_snoc V i off q e :
  pval V (i, off, q ++ [e]) =
  if pval V (i, off, q) =? 0 then 0
  else v32 V (u32 (pval V (i, off, q) + e.2)) (4 * e.1).
Proof using Type. unfold pval. cbn [fst snd]. apply follow_snoc. Qed.

Lemma place_ok_prefix live i off q e :
  place_ok live (i, off, q ++ [e]) ->
  place_ok live (i, off, q) /\ in_block gl e /\ zlen q < levels off.
Proof using Type.
  intros (H1 & H2 & H3 & H4). cbn [fst snd] in *. apply Forall_app in H3 as [H3 H5]. rewrite Forall_singleton in H5.
  unfold zlen in *. rewrite length_app in H4. cbn in H4. split; [|split; [done|lia]].
  split; [done|]. split; [done|]. split; [done|]. unfold zlen. cbn [snd fst]. lia.
Qed.

(** Entries of an index block. *)
Definition entry_val (V : Z -> Z -> Z) (c : Z) (e : Z * Z) : Z := v32 V (u32 (c + e.2)) (4 * e.1).

(** ** One pointer changes

    [V'] differs from [V], as far as the trees are concerned, in what the
    place [slot] holds, which is now [x]; a new index block is empty. *)
Record slot_update (live : Z -> Prop) (V V' : Z -> Z -> Z) (slot : place) (x : Z) : Prop := {
  su_inode : forall i off, live i -> ptr_off off ->
    ino_ptr f V' i off = if decide ((i, off, []) = slot) then x else ino_ptr f V i off;
  su_entry : forall i off q e, index_place live (i, off, q) -> pval V (i, off, q) <> 0 ->
    in_block gl e -> entry_val V' (pval V (i, off, q)) e =
      if decide ((i, off, q ++ [e]) = slot) then x else entry_val V (pval V (i, off, q)) e;
  su_parent : forall i off q e, slot = (i, off, q ++ [e]) -> pval V (i, off, q) <> 0;
  su_below : zlen slot.2 = levels slot.1.2 \/
    (pval V slot = 0 /\ (x = 0 \/ forall e, in_block gl e -> entry_val V' x e = 0)) }.

Lemma pval_update live V V' slot x y :
  slot_update live V V' slot x -> place_ok live y ->
  pval V' y = if decide (y = slot) then x else pval V y.
Proof using Type.
  intros [U1 U2 U3 U4]. destruct y as [[i off] q]. induction q as [|e q IH] using rev_ind; intros Hy.
  - unfold pval at 1. cbn [fst snd follow]. rewrite U1; [|apply Hy|apply Hy]. done.
  - apply place_ok_prefix in Hy as (Hq & He & Hlt). specialize (IH Hq). rewrite !pval_snoc.
    destruct (decide ((i, off, q) = slot)) as [Es|Ns].
    + rewrite decide_False by (intros E; rewrite <- Es in E; injection E as E;
        apply (f_equal length) in E; rewrite length_app in E; cbn in E; lia).
      destruct U4 as [Ul|[Uz Ub]]; [rewrite <- Es in Ul; cbn in Ul; lia|].
      rewrite decide_True in IH by done. rewrite IH, Es, Uz.
      destruct (Z.eqb_spec x 0) as [|Hx]; [done|]. destruct Ub as [|Ub]; [done|].
      by apply (Ub e).
    + rewrite decide_False in IH by done. rewrite IH. destruct (Z.eqb_spec (pval V (i, off, q)) 0) as [E0|N0].
      * rewrite decide_False; [done|]. intros E. symmetry in E. by apply (U3 _ _ _ _ E).
      * by apply (U2 i off q e).
Qed.

(** Nothing changes as far as the trees are concerned. *)
Record same_ptrs (live : Z -> Prop) (V V' : Z -> Z -> Z) : Prop := {
  sp_inode : forall i off, live i -> ptr_off off -> ino_ptr f V' i off = ino_ptr f V i off;
  sp_entry : forall x e, index_place live x -> pval V x <> 0 -> in_block gl e ->
    entry_val V' (pval V x) e = entry_val V (pval V x) e }.

Lemma pval_same live V V' y : same_ptrs live V V' -> place_ok live y -> pval V' y = pval V y.
Proof using Type.
  intros [U1 U2]. destruct y as [[i off] q]. induction q as [|e q IH] using rev_ind; intros Hy.
  - unfold pval. cbn [fst snd follow]. by apply U1; apply Hy.
  - apply place_ok_prefix in Hy as (Hq & He & Hlt). rewrite !pval_snoc, (IH Hq).
    destruct (Z.eqb_spec (pval V (i, off, q)) 0) as [E0|N0]; [done|].
    by apply (U2 (i, off, q)).
Qed.

Lemma trees_same live free free' V V' :
  same_ptrs live V V' -> (forall b, used free b -> free' b = false) ->
  trees live free V -> trees live free' V'.
Proof using Type.
  intros Hs Hf [T1 T2 T3 T4 T5 T6 T7].
  assert (forall y, place_ok live y -> pval V' y = pval V y) as Hv by (intros y; by apply pval_same).
  constructor.
  - done.
  - intros i Hi. split; [by apply T2|by apply Hf, T2].
  - intros x Hx. rewrite (Hv x (proj1 Hx)). by apply T3.
  - intros x y Hx. rewrite (Hv x (proj1 Hx)). intros Hn Hb.
    split; [by apply (T4 x)|by apply Hf, (T4 x)].
  - intros x i Hx. rewrite (Hv x (proj1 Hx)). by apply T5.
  - intros x y Hx Hy. rewrite (Hv x (proj1 Hx)), (Hv y (proj1 Hy)). by apply T6.
  - intros x Hx. rewrite (Hv x Hx). by apply T7.
Qed.

(** The new pointer is a data block, or the address of a block that was
    free and is now an index block. *)
Lemma trees_update live free V V' slot x :
  slot_update live V V' slot x -> trees live free V -> place_ok live slot ->
  (if zlen slot.2 <? levels slot.1.2
   then block_addr x /\ (forall y, in_blk x y -> used free y) /\
        (forall i, live i -> ~ in_blk x (ino_frag f i)) /\
        (forall y, index_place live y -> pval V y <> x)
   else x <> 0 -> on_disk f x) ->
  trees live free V'.
Proof using Type.
  intros Hs [T1 T2 T3 T4 T5 T6 T7] Hok Hx.
  pose proof (fun y Hy => pval_update live V V' slot x y Hs Hy) as Hv.
  assert (forall y, index_place live y -> y = slot -> (zlen slot.2 <? levels slot.1.2) = true) as Hi.
  { intros y [_ Hl] ->. by apply Z.ltb_lt. }
  constructor; [done|done|..].
  - intros y Hy. rewrite (Hv y (proj1 Hy)). destruct (decide (y = slot)) as [E|]; [|by apply T3].
    rewrite (Hi y Hy E) in Hx. intros _. apply Hx.
  - intros y z Hy. rewrite (Hv y (proj1 Hy)). destruct (decide (y = slot)) as [E|]; [|intros Hn Hb; by apply (T4 y)].
    rewrite (Hi y Hy E) in Hx. intros _. apply Hx.
  - intros y i Hy. rewrite (Hv y (proj1 Hy)). destruct (decide (y = slot)) as [E|]; [|by apply T5].
    rewrite (Hi y Hy E) in Hx. intros _. apply Hx.
  - intros y z Hy Hz. rewrite (Hv y (proj1 Hy)), (Hv z (proj1 Hz)).
    destruct (decide (y = slot)) as [Ey|], (decide (z = slot)) as [Ez|]; [congruence|..].
    + rewrite (Hi y Hy Ey) in Hx. intros _ E. by destruct Hx as (_ & _ & _ & Hx); destruct (Hx z Hz).
    + rewrite (Hi z Hz Ez) in Hx. intros _ E. by destruct Hx as (_ & _ & _ & Hx); destruct (Hx y Hy).
    + by apply T6.
  - intros y Hy. rewrite (Hv y Hy). destruct (decide (y = slot)) as [E|]; [|by apply T7].
    destruct (zlen slot.2 <? levels slot.1.2); [|done]. intros _. destruct Hx as [(_ & Hd & _) _]. exact Hd.
Qed.

End Trees.

(** ** The writes of the block map as updates of the trees *)

Section Writes.
Context (f : fs) (gl : globals) (Hw : wf_files f gl) (live : Z -> Prop) (free : Z -> bool).
Context (V : Z -> Z -> Z) (Ht : trees f gl live free V).

Let Hg : wf_geometry f := wf_geo f gl Hw.

Lemma block_addr_end b : block_addr f b -> b + fs_frag f <= fs_fpg f * fs_ncg f.
Proof using Hw.
  intros (H0 & Hd & Ha). pose proof (frag_pos f Hg) as HF. unfold on_disk in Hd.
  destruct (wg_fpg f Hg) as [_ [q Hq]]. rewrite Hq in *.
  pose proof (Z.div_mod b (fs_frag f) ltac:(lia)) as Hm. rewrite Ha, Z.add_0_r in Hm.
  assert (b / fs_frag f < q * fs_ncg f) as Hl by (apply Z.div_lt_upper_bound; lia).
  assert (fs_frag f * (b / fs_frag f + 1) <= fs_frag f * (q * fs_ncg f))
    by (apply Z.mul_le_mono_nonneg_l; lia). lia.
Qed.

Lemma in_blk_disk b x : block_addr f b -> in_blk f b x -> on_disk f x.
Proof using Hw.
  intros Hb Hx. pose proof (block_addr_end b Hb). destruct Hb. unfold in_blk, on_disk in *. lia.
Qed.

Lemma block_addr_in b e :
  block_addr f b -> in_block gl e -> u32 (b + e.2) = b + e.2 /\ in_blk f b (b + e.2).
Proof using Hw.
  intros Hb [_ He]. pose proof (block_addr_end b Hb) as Hbe. destruct Hb as (H0 & Hd & Ha).
  rewrite <- (wf_blk f gl Hw) in He. pose proof (wg_size f Hg) as Hs.
  split; [|unfold in_blk; lia]. apply u32_small. unfold in_u32. zify_pow. lia.
Qed.

Lemma in_blk_apart b c x :
  b mod fs_frag f = 0 -> c mod fs_frag f = 0 -> in_blk f b x -> in_blk f c x -> b = c.
Proof using Hw.
  intros Hb Hc [H1 H2] [H3 H4]. pose proof (frag_pos f Hg) as HF.
  pose proof (Z.div_mod b (fs_frag f) ltac:(lia)). pose proof (Z.div_mod c (fs_frag f) ltac:(lia)).
  rewrite Hb, Hc in *. revert H H0. generalize (b / fs_frag f) (c / fs_frag f). intros m n E1 E2.
  assert (m = n); [|congruence]. destruct (Z.lt_trichotomy m n) as [|[|]]; nia.
Qed.

Lemma live_place i : live i ->
  ino_frag f i = itod f i + itodo f i /\ ino_off f i = sizeof_icommon * itofo f i /\
  0 <= i < fs_ipg f * fs_ncg f.
Proof using Hw Ht.
  intros Hi. pose proof (tr_live _ _ _ _ _ Ht i Hi) as Hr.
  unfold ino_frag, ino_off, inum_of, inode_addr. rewrite (proj2 (Z.eqb_neq i 0)) by lia.
  split; [|split; [done|lia]]. destruct (ino_place_bound f Hg i) as [H1 H2]; [lia|].
  apply u32_small. unfold in_u32. pose proof (wg_size f Hg). zify_pow. lia.
Qed.

(** Two inodes in use do not overlap. *)
Lemma inodes_apart i j : live i -> live j -> ino_frag f i = ino_frag f j -> i <> j ->
  ino_off f i + sizeof_icommon <= ino_off f j \/ ino_off f j + sizeof_icommon <= ino_off f i.
Proof using Hw Ht.
  intros Hi Hj E Hne. destruct (live_place i Hi) as (E1 & -> & R1). destruct (live_place j Hj) as (E2 & -> & R2).
  rewrite E1, E2 in E. assert (itofo f i <> itofo f j) as Hn; [|unfold sizeof_icommon; lia].
  intros Hs. apply Hne. by apply (ino_place_inj f Hg).
Qed.

Lemma levels_ptr off : ptr_off off -> 0 <= levels off <= 3.
Proof using Type.
  intros (H1 & H2 & H3). unfold levels. destruct (Z.ltb_spec off 88); [lia|]. dlia.
Qed.

(** An entry of an index block is not in an inode. *)
Lemma entry_apart x e i : index_place gl live x -> pval f V x <> 0 -> in_block gl e -> live i ->
  u32 (pval f V x + e.2) <> ino_frag f i.
Proof using Hw Ht.
  intros Hx Hn He Hi E. destruct (block_addr_in _ _ (tr_block _ _ _ _ _ Ht x Hx Hn) He) as [Eu Hb].
  apply (tr_apart _ _ _ _ _ Ht x i Hx Hn Hi). by rewrite <- E, Eu.
Qed.

(** Writing a pointer of an inode. *)
Lemma update_inode i off x :
  live i -> ptr_off off -> in_u32 x ->
  (levels off = 0 \/ (ino_ptr f V i off = 0 /\ (x = 0 \/ forall e, in_block gl e ->
     entry_val (vput32 V (ino_frag f i) (ino_off f i + off) x) x e = 0))) ->
  slot_update f gl live V (vput32 V (ino_frag f i) (ino_off f i + off) x) (i, off, []) x.
Proof using Hw Ht.
  intros Hi Ho Hx Hb. constructor.
  - intros j off' Hj Ho'. unfold ino_ptr. case_decide as E.
    + injection E as -> ->. rewrite v32_vput32. by apply u32_small.
    + apply v32_vput32_ne. destruct (Z.eq_dec (ino_frag f j) (ino_frag f i)) as [Ef|]; [right|by left].
      destruct Ho as (O1 & O2 & O3), Ho' as (P1 & P2 & P3). destruct (Z.eq_dec i j) as [->|Hij].
      * assert (off <> off') by congruence. dlia.
      * destruct (inodes_apart i j Hi Hj (eq_sym Ef) Hij); unfold sizeof_icommon in *; lia.
  - intros j off' q e Hj Hn He. rewrite decide_False by (intros E; by destruct q).
    unfold entry_val. apply v32_vput32_ne. left. by apply (entry_apart (j, off', q)).
  - intros j off' q e E. by destruct q.
  - cbn [fst snd]. destruct Hb as [->|[Hz Hb]]; [by left|right]. split; [|done]. exact Hz.
Qed.

(** Writing an entry of an index block. *)
Lemma update_entry i off q e x (N := pval f V (i, off, q)) :
  index_place gl live (i, off, q) -> N <> 0 -> in_block gl e -> in_u32 x ->
  (zlen q + 1 = levels off \/ (entry_val V N e = 0 /\ (x = 0 \/ forall e', in_block gl e' ->
     entry_val (vput32 V (N + e.2) (4 * e.1) x) x e' = 0))) ->
  slot_update f gl live V (vput32 V (N + e.2) (4 * e.1) x) (i, off, q ++ [e]) x.
Proof using Hw Ht.
  intros Hq HN He Hx Hb. destruct (block_addr_in _ _ (tr_block _ _ _ _ _ Ht _ Hq HN) He) as [Eu HbN].
  fold N in Eu, HbN. constructor.
  - intros j off' Hj Ho'. rewrite decide_False by (intros E; by destruct q).
    unfold ino_ptr. apply v32_vput32_ne. left. rewrite <- Eu. intros E. symmetry in E. revert E.
    by apply (entry_apart (i, off, q)).
  - intros j off' q' e' Hj Hn He'. unfold entry_val.
    destruct (block_addr_in _ _ (tr_block _ _ _ _ _ Ht _ Hj Hn) He') as [Eu' Hb']. rewrite Eu'.
    case_decide as E.
    + injection E as -> -> E. apply app_inj_tail in E as [-> ->]. fold N. rewrite v32_vput32.
      by apply u32_small.
    + apply v32_vput32_ne. destruct (Z.eq_dec (pval f V (j, off', q') + e'.2) (N + e.2)) as [Ef|]; [right|by left].
      assert (pval f V (j, off', q') = N) as EN.
      { apply (in_blk_apart _ _ (N + e.2)); [by apply Ht|by apply Ht| |done]. by rewrite <- Ef. }
      pose proof (tr_inj _ _ _ _ _ Ht _ _ Hj Hq Hn EN) as [= -> -> ->].
      destruct e as [p fr], e' as [p' fr']; cbn in *. fold N in Ef.
      assert (fr = fr') as <- by lia. assert (p <> p') by (intros ->; by apply E). lia.
  - intros j off' q' e' E. injection E as <- <- E. apply app_inj_tail in E as [<- <-]. exact HN.
  - cbn [fst snd]. destruct Hb as [Hl|[Hz Hb]]; [left; unfold zlen in *; rewrite length_app; cbn; lia|right].
    split; [|done]. rewrite pval_snoc. fold N. by rewrite (proj2 (Z.eqb_neq N 0)).
Qed.

(** Writing elsewhere in an inode. *)
Lemma same_inode_field i o x :
  live i -> 100 <= o -> o + 4 <= sizeof_icommon ->
  same_ptrs f gl live V (vput32 V (ino_frag f i) (ino_off f i + o) x).
Proof using Hw Ht.
  intros Hi H1 H2. constructor.
  - intros j off Hj (O1 & O2 & O3). unfold ino_ptr. apply v32_vput32_ne.
    destruct (Z.eq_dec (ino_frag f j) (ino_frag f i)) as [Ef|]; [right|by left].
    destruct (Z.eq_dec i j) as [->|Hij]; [lia|].
    destruct (inodes_apart i j Hi Hj (eq_sym Ef) Hij); unfold sizeof_icommon in *; lia.
  - intros y e Hy Hn He. unfold entry_val. apply v32_vput32_ne. left. by apply (entry_apart y).
Qed.

(** A free block holds no inode and no index block. *)
Definition fresh (W : Z -> Z -> Z) (b : Z) : Prop :=
  block_addr f b /\ (forall i, live i -> ~ in_blk f b (ino_frag f i)) /\
  (forall y, index_place gl live y -> pval f W y <> b).

Lemma free_fresh b : block_addr f b -> (forall x, in_blk f b x -> free x = true) -> fresh V b.
Proof using Hw Ht.
  intros Hb Hf. pose proof (frag_pos f Hg) as HF. split; [done|]. split.
  - intros i Hi Hin. destruct (tr_inode _ _ _ _ _ Ht i Hi) as [_ E]. by rewrite Hf in E.
  - intros y Hy E. assert (pval f V y <> 0) as Hn by (rewrite E; destruct Hb; lia).
    assert (in_blk f b b) as Hin by (unfold in_blk; lia).
    destruct (tr_used _ _ _ _ _ Ht y b Hy Hn) as [_ Hu]; [by rewrite E|]. by rewrite Hf in Hu.
Qed.

Lemma fresh_same V' b : same_ptrs f gl live V V' -> fresh V b -> fresh V' b.
Proof using Type.
  intros Hs (H1 & H2 & H3). split; [done|]. split; [done|]. intros y Hy.
  rewrite (pval_same _ _ _ _ _ _ Hs (proj1 Hy)). by apply H3.
Qed.

(** Clearing a fresh block. *)
Lemma same_erase b V' :
  fresh V b -> (forall x i, ~ in_blk f b x -> V' x i = V x i) -> same_ptrs f gl live V V'.
Proof using Hw Ht.
  intros (Hb & Hi & Hn) Hv. constructor.
  - intros i off Hl _. unfold ino_ptr. apply v32_ext. intros j _. apply Hv. by apply Hi.
  - intros y e Hy Hny He. unfold entry_val. apply v32_ext. intros j _. apply Hv.
    pose proof (tr_block _ _ _ _ _ Ht y Hy Hny) as Hby.
    destruct (block_addr_in _ _ Hby He) as [-> Hin]. intros Hin'. apply (Hn y Hy).
    by apply (in_blk_apart _ _ (pval f V y + e.2)); [apply Hby|apply Hb|..].
Qed.

End Writes.
