(* ===== verification/BlockWrite.v ===== *)
(** [cidisk_frag] on the trees of all files: it changes the address of one
    block of one file, allocating and clearing the index blocks on the way,
    and no other block of any file moves. *)

From S2P Require Import Prelude Bitmap Superblock Addresses Cg CgStore Alloc AllocWp AllocSpec.
From S2P Require Import FragSummary AllocInv AllocTheorems FileEnv Inode IndexPath FileSpec.
From S2P Require Import BlockMap BlockTree.
Local Open Scope bffs_scope.

(** ** The invariant of the file layer *)

(** The files in [live] on a consistent file system. *)
Record file_inv (live : Z -> Prop) (w : world) : Prop := {
  fv_wf : wf_files (w_fs w) (w_globals w);
  fv_fs : fs_inv (w_fs w) (w_cg w);
  fv_trees : trees (w_fs w) (w_globals w) live (frag_free (w_fs w) (w_cg w)) (w_disk w) }.

(** What no operation on the block map changes. *)
Record same_world (w w' : world) : Prop := {
  sw_geo : fs_geo (w_fs w') = fs_geo (w_fs w);
  sw_globals : w_globals w' = w_globals w;
  sw_user : w_user w' = w_user w }.

#[export] Instance same_world_preorder : PreOrder same_world.
Proof.
  split; [by constructor|]. intros w1 w2 w3 [A1 A2 A3] [B1 B2 B3]. constructor; congruence.
Qed.

(** What a place holds in a world. *)
Definition wval (w : world) (y : place) : Z := pval (w_fs w) (w_disk w) y.
Definition wplace (live : Z -> Prop) (w : world) (y : place) : Prop := place_ok (w_globals w) live y.

(** Places that hold addresses of data. *)
Definition leaf (live : Z -> Prop) (w : world) (y : place) : Prop :=
  wplace live w y /\ zlen y.2 = levels y.1.2.

(** Geometry decides where things are. *)
Section Geo.
Context (f f' : fs) (E : fs_geo f' = fs_geo f).

Lemma pval_geo V y : pval f' V y = pval f V y.
Proof using E. unfold pval, ino_ptr, ino_frag, inode_addr, ino_off. by rewrite E. Qed.

Lemma wf_files_geo gl : wf_files f gl -> wf_files f' gl.
Proof using E. intros [H1 H2 H3 H4 H5]. by constructor; rewrite ?E. Qed.

Lemma trees_geo gl live free V : trees f gl live free V -> trees f' gl live free V.
Proof using E.
  intros [T1 T2 T3 T4 T5 T6 T7]. unfold used, block_addr, in_blk, ino_frag, inode_addr, on_disk in *.
  constructor; unfold used, block_addr, in_blk, ino_frag, inode_addr, on_disk; rewrite ?E; intros *;
    rewrite ?pval_geo; eauto.
Qed.

End Geo.

(** ** Clearing memory and blocks *)

Section Erase.
Context {S : Type} {FE : FileEnv S} {FV : FileView S} {CL : CgStoreLaws S} {FL : FileEnvLaws S}.

Lemma wp_memset (Q : unit -> S -> Prop) s w b p o a x n :
  rep s w -> frag_owns s b p true -> a = p + o -> 0 <= o -> 0 <= n -> o + n <= fs_fsize (w_fs w) ->
  (forall s' V, rep s' (w_set_disk V w) -> keeps s s' ->
     (forall b' i, V b' i = if (b' =? b) && ((o <=? i) && (i <? o + n)) then u8 x else w_disk w b' i) ->
     Q tt s') ->
  wp (memset a x n) Q s.
Proof.
  intros Hr Ho -> H1 H2 H3 HQ. unfold memset.
  apply (wp_mfor_upto _ (fun k s' => keeps s s' /\ exists V, rep s' (w_set_disk V w) /\
    forall b' i, V b' i = if (b' =? b) && ((o <=? i) && (i <? o + k)) then u8 x else w_disk w b' i)).
  - done.
  - split; [by intros b' q rw|]. exists (w_disk w). split; [by destruct w|]. intros b' i.
    destruct (Z.leb_spec o i), (Z.ltb_spec i (o + 0)); try lia; cbn; by rewrite ?andb_false_r.
  - intros k s1 Hk [Hk1 (V & Hr1 & HV)].
    eapply (wp_wr8 _ s1 (w_set_disk V w) b p (o + k)); [done|by apply Hk1|lia|lia|cbn; lia|].
    intros s2 Hr2 Hk2. cbn in Hr2. split; [intros b' q rw Hq; by apply Hk2, Hk1|].
    eexists. split; [exact Hr2|]. intros b' i. unfold vput. rewrite HV.
    destruct (Z.eqb_spec b' b); cbn [andb]; [|done].
    destruct (Z.eqb_spec i (o + k)), (Z.leb_spec o i), (Z.ltb_spec i (o + k)), (Z.ltb_spec i (o + (k + 1)));
      cbn; try done; lia.
  - intros s' [Hk (V & Hr' & HV)]. by apply (HQ s' V).
Qed.

Lemma wp_erase_loop (Q : unit -> S -> Prop) l s w b :
  rep s w -> (forall k, k ∈ l -> u32 (b + k) = b + k) -> 0 <= fs_fsize (w_fs w) ->
  (forall s' V, rep s' (w_set_disk V w) ->
     (forall x i, x - b ∉ l -> V x i = w_disk w x i) ->
     (forall x i, x - b ∈ l -> 0 <= i < fs_fsize (w_fs w) -> V x i = 0) -> Q tt s') ->
  wp (erase_loop l b) Q s.
Proof.
  revert s w. induction l as [|k l IH]; intros s w Hr Hu Hf HQ.
  - apply wp_ret, (HQ s (w_disk w)); [by destruct w|done|]. intros x i Hx. by apply not_elem_of_nil in Hx.
  - cbn [erase_loop]. assert (u32 (b + k) = b + k) as Hbk by (apply Hu; by left).
    apply wp_bnd. eapply wp_cache_frag_write0; [done|apply u32_range|]. rewrite Hbk.
    intros p s1 V1 Hr1 Ho1 HV1. cbv beta iota. apply wp_bnd. eapply wp_FSIZE; [done|]. cbv beta.
    apply wp_bnd. eapply (wp_memset _ s1 (w_set_disk V1 w) (b + k) p 0); [done|done|lia|lia|done|cbn; lia|].
    intros s2 V2 Hr2 _ HV2. cbn in Hr2, HV2. apply (IH s2 (w_set_disk V2 w)); [done| |done|].
    + intros j Hj. apply Hu. by right.
    + intros s3 V3 Hr3 H1 H2. cbn in Hr3, H1, H2. apply (HQ s3 V3); [done|..].
      * intros x i Hx. apply not_elem_of_cons in Hx as [Hx1 Hx2]. rewrite H1 by done. rewrite HV2.
        rewrite (proj2 (Z.eqb_neq x (b + k))) by lia. cbn. apply HV1. lia.
      * intros x i Hx Hi. destruct (decide (x - b ∈ l)) as [Hin|Hn]; [by apply H2|].
        apply elem_of_cons in Hx as [Hx|]; [|done]. rewrite H1 by done. rewrite HV2.
        rewrite (proj2 (Z.eqb_eq x (b + k))) by lia.
        rewrite (proj2 (Z.leb_le 0 i)), (proj2 (Z.ltb_lt i (0 + fs_fsize (w_fs w)))) by lia. done.
Qed.

Lemma wp_block_erase (Q : unit -> S -> Prop) s w b :
  wf_files (w_fs w) (w_globals w) -> rep s w -> block_addr (w_fs w) b ->
  (forall s' V, rep s' (w_set_disk V w) ->
     (forall x i, ~ in_blk (w_fs w) b x -> V x i = w_disk w x i) ->
     (forall x i, in_blk (w_fs w) b x -> 0 <= i < fs_fsize (w_fs w) -> V x i = 0) -> Q tt s') ->
  wp (block_erase b) Q s.
Proof.
  intros Hw Hr Hb HQ. unfold block_erase. apply wp_bnd. eapply wp_FPB; [done|]. cbv beta.
  pose proof (wf_ptrs _ _ Hw). pose proof (wf_geo _ _ Hw) as Hg.
  assert (forall k, k ∈ upto 0 (fs_frag (w_fs w)) 1 <-> 0 <= k < fs_frag (w_fs w)) as Hin.
  { intros k. rewrite elem_of_upto by lia. split; [intros (? & ? & -> & ?); lia|]. intros. exists k. lia. }
  assert (0 <= fs_fsize (w_fs w)) as Hfz.
  { assert (0 < 2 ^ pfragshift (w_globals w)); [|lia].
    apply Z.pow_pos_nonneg; [lia|apply (ig_ps _ (wf_index _ _ Hw))]. }
  eapply wp_erase_loop; [done| |done|].
  - intros k Hk%Hin. assert (in_block (w_globals w) (0, k)) as He.
    { split; cbn; [|by rewrite <- (wf_blk _ _ Hw)].
      split; [done|]. apply Z.pow_pos_nonneg; [lia|apply (ig_ps _ (wf_index _ _ Hw))]. }
    apply (block_addr_in _ _ Hw b (0, k) Hb He).
  - intros s' V Hr' H1 H2. apply (HQ s' V); [done|..].
    + intros x i Hx. apply H1. rewrite Hin. unfold in_blk in Hx. lia.
    + intros x i Hx. apply H2. rewrite Hin. unfold in_blk in Hx. lia.
Qed.

End Erase.

(** ** Steps on worlds *)

Section Steps.
Context (live : Z -> Prop).

Definition wfresh (w : world) (b : Z) : Prop := fresh (w_fs w) (w_globals w) live (w_disk w) b.
Definition zeroed (w : world) (b : Z) : Prop :=
  forall e, in_block (w_globals w) e -> entry_val (w_disk w) b e = 0.

(** A cleared block in use that is in no file. *)
Record new_block (w : world) (b : Z) : Prop := {
  nb_fresh : wfresh w b;
  nb_zero : zeroed w b;
  nb_used : forall x, in_blk (w_fs w) b x -> used (w_fs w) (frag_free (w_fs w) (w_cg w)) x }.

(** A step that keeps what every place holds. *)
Record quiet (w w' : world) : Prop := {
  qt_inv : file_inv live w';
  qt_same : same_world w w';
  qt_val : forall y, wplace live w y -> wval w' y = wval w y }.

Lemma same_world_place w w' y : same_world w w' -> wplace live w y -> wplace live w' y.
Proof using Type. intros [_ E _]. unfold wplace. by rewrite E. Qed.

Lemma quiet_refl w : file_inv live w -> quiet w w.
Proof using Type. intros Hi. by constructor. Qed.

Lemma quiet_trans w1 w2 w3 : quiet w1 w2 -> quiet w2 w3 -> quiet w1 w3.
Proof using Type.
  intros [A1 A2 A3] [B1 B2 B3]. constructor; [done|by etrans|]. intros y Hy.
  rewrite B3 by by eapply same_world_place. by apply A3.
Qed.

(** New groups in which more is used. *)
Lemma quiet_cg w (f' : fs) v' :
  file_inv live w -> fs_inv f' v' -> fs_geo f' = fs_geo (w_fs w) ->
  (forall x, on_disk (w_fs w) x -> frag_free (w_fs w) (w_cg w) x = false -> frag_free f' v' x = false) ->
  quiet w (w_set_cg f' v' w).
Proof using Type.
  intros [H1 H2 H3] Hi E Hf. constructor.
  - constructor; [by eapply wf_files_geo|done|]. eapply trees_geo; [exact E|].
    eapply trees_same; [by constructor| |exact H3]. intros b [Hb1 Hb2]. by apply Hf.
  - by constructor.
  - intros y _. by apply pval_geo.
Qed.

Lemma wfresh_cg w (f' : fs) v' b :
  fs_geo f' = fs_geo (w_fs w) -> wfresh w b -> wfresh (w_set_cg f' v' w) b.
Proof using Type.
  intros E (H1 & H2 & H3). unfold wfresh, fresh, block_addr, in_blk, ino_frag, inode_addr, on_disk in *.
  cbn. rewrite !E. split; [done|]. split; [done|]. intros y Hy. rewrite (pval_geo _ _ E). by apply H3.
Qed.

(** New contents that agree on pointers. *)
Lemma quiet_disk w V :
  file_inv live w -> same_ptrs (w_fs w) (w_globals w) live (w_disk w) V -> quiet w (w_set_disk V w).
Proof using Type.
  intros [H1 H2 H3] Hs. constructor.
  - constructor; [done|done|]. eapply trees_same; [exact Hs| |exact H3]. by intros b [_ ?].
  - done.
  - intros y Hy. by eapply pval_same.
Qed.

(** The state after one pointer changed. *)
Record pointed (w w' : world) (slot : place) (x : Z) : Prop := {
  pt_inv : file_inv live w';
  pt_same : same_world w w';
  pt_val : forall y, wplace live w y -> wval w' y = if decide (y = slot) then x else wval w y }.

Lemma pointed_disk w V slot x :
  file_inv live w -> slot_update (w_fs w) (w_globals w) live (w_disk w) V slot x ->
  wplace live w slot ->
  (if zlen slot.2 <? levels slot.1.2
   then wfresh w x /\ (forall y, in_blk (w_fs w) x y -> used (w_fs w) (frag_free (w_fs w) (w_cg w)) y)
   else x <> 0 -> on_disk (w_fs w) x) ->
  pointed w (w_set_disk V w) slot x.
Proof using Type.
  intros [H1 H2 H3] Hs Hok Hx. constructor.
  - constructor; [done|done|]. eapply trees_update; [exact Hs|done|done|].
    destruct (zlen slot.2 <? levels slot.1.2); [|done].
    destruct Hx as ((F1 & F2 & F3) & Hu). split; [done|]. split; [done|]. by split.
  - done.
  - intros y Hy. by eapply pval_update.
Qed.

End Steps.

(** ** The operations *)

Section Ops.
Context {S : Type} {FE : FileEnv S} {FV : FileView S} {CL : CgStoreLaws S} {FL : FileEnvLaws S}.
Context (live : Z -> Prop).

(** A new, cleared block that is in use and in no file yet. *)
Lemma wp_new_block {A} (k : Z -> M S A) (fail : M S A) (Q : A -> S -> Prop) s w d :
  rep s w -> file_inv live w -> on_disk (w_fs w) d ->
  (disk_full (w_fs w) (w_cg w) -> forall s', rep s' w -> wp fail Q s') ->
  (forall b s' w', rep s' w' -> quiet live w w' -> new_block live w' b -> wp (k b) Q s') ->
  wp (b <- block_allocate d ;; if b =? 0 then fail else block_erase b ;; k b) Q s.
Proof.
  intros Hr Hi Hd Hnone Hsome. pose proof Hi as [Hw Hfs Ht]. apply wp_bnd.
  eapply wp_falloc; [done|done|done|..].
  - intros Hfull s' Hr'. cbv beta. cbn [Z.eqb]. by apply Hnone.
  - intros b s1 f1 v1 Hb0 Hbd Hba Hfr Hi1 Eg Hfs1 Hr1. cbv beta. rewrite (proj2 (Z.eqb_neq b 0)) by lia.
    assert (wfresh live w b) as Hfresh.
    { apply (free_fresh _ _ Hw _ _ _ Ht); [by split|]. intros x Hx. apply Hfr. exact Hx. }
    assert (quiet live w (w_set_cg f1 v1 w)) as Hq1.
    { apply quiet_cg; [done|done|done|]. intros x Hx Hxf. rewrite Hfs1 by done.
      by destruct (in_range b (fs_frag (w_fs w)) x). }
    apply (wfresh_cg live w f1 v1 b Eg) in Hfresh as Hfresh1.
    apply wp_bnd. eapply wp_block_erase; [apply Hq1|done|apply Hfresh1|].
    intros s2 V Hr2 HV1 HV2. apply (Hsome b s2 _ Hr2).
    + eapply quiet_trans; [exact Hq1|]. apply quiet_disk; [apply Hq1|].
      destruct Hq1 as [[Hw1 _ Ht1] _ _]. by apply (same_erase _ _ Hw1 _ _ _ Ht1 b).
    + destruct Hq1 as [[Hw1 _ Ht1] _ _]. constructor.
      * apply fresh_same with (V := w_disk w); [|exact Hfresh1].
        by apply (same_erase _ _ Hw1 _ _ _ Ht1 b).
      * intros e He. cbn. destruct (block_addr_in _ _ Hw1 b e (proj1 Hfresh1) He) as [Eu Hin].
        unfold entry_val. rewrite Eu. pose proof (wf_ptrs _ _ Hw1) as Hp. destruct He as [He _]. cbn in *.
        unfold v32, v16. rewrite !HV2 by (done || lia). done.
      * intros x Hx. pose proof (in_blk_disk _ _ Hw1 b x (proj1 Hfresh1) Hx) as Hdx.
        split; [exact Hdx|]. cbn in *. unfold on_disk, in_blk in *. rewrite Eg in Hdx, Hx.
        rewrite Hfs1 by exact Hdx. by rewrite (proj2 (in_range_spec _ _ _) Hx).
Qed.

(** ic_blocks is not a pointer. *)
Lemma wp_adjust_blks (Q : unit -> S -> Prop) s w inum p a :
  rep s w -> file_inv live w -> live inum -> frag_owns s (ino_frag (w_fs w) inum) p true ->
  (forall s' w', rep s' w' -> quiet live w w' -> keeps s s' ->
     (forall b, new_block live w b -> new_block live w' b) -> w_fs w' = w_fs w -> Q tt s') ->
  wp (ADJUST_IC_BLKS (p + ino_off (w_fs w) inum) a) Q s.
Proof.
  intros Hr Hi Hl Ho HQ. pose proof Hi as [Hw Hfs Ht]. pose proof (ino_off_bounds _ _ Hw inum) as Hb.
  unfold ADJUST_IC_BLKS, ic_blocks. apply wp_bnd. unfold sizeof_icommon in *.
  eapply (wp_rds32 _ s w _ p true (ino_off (w_fs w) inum + 104)); [done|done|lia|lia|lia|]. cbv beta.
  set (x := s32 _ + a). clearbody x.
  eapply (wp_wr32 _ s w _ p (ino_off (w_fs w) inum + 104)); [done|done|lia|lia|lia|].
  intros s' Hr' Hk.
  pose proof (same_inode_field _ _ Hw _ _ _ Ht inum 104 x Hl ltac:(lia) ltac:(done)) as Hs.
  apply (HQ s' _ Hr'); [by apply quiet_disk|done| |done].
  intros b [N1 N2 N3]. constructor; [by eapply fresh_same| |done].
  intros e He. cbn in *. unfold entry_val. rewrite v32_vput32_ne; [by apply N2|]. left.
  destruct (block_addr_in _ _ Hw b e (proj1 N1) He) as [-> Hin]. intros E.
  apply (proj1 (proj2 N1) inum Hl). by rewrite <- E.
Qed.

(** A new index block below an entry that was a hole. *)
Lemma link_entry w i off q e b (N := wval w (i, off, q)) :
  file_inv live w -> new_block live w b -> wplace live w (i, off, q) -> zlen q + 1 < levels off ->
  N <> 0 -> in_block (w_globals w) e -> entry_val (w_disk w) N e = 0 ->
  pointed live w (w_set_disk (vput32 (w_disk w) (N + e.2) (4 * e.1) b) w) (i, off, q ++ [e]) b.
Proof.
  intros Hi [N1 N2 N3] Hq Hl HN He Hz. pose proof Hi as [Hw Hfs Ht].
  assert (index_place (w_globals w) live (i, off, q)) as Hip by (split; [exact Hq|cbn [fst snd]; lia]).
  pose proof (tr_block _ _ _ _ _ Ht _ Hip HN) as HbN.
  destruct (block_addr_in _ _ Hw _ _ HbN He) as [Eu Hin].
  destruct (block_addr_in _ _ Hw b e (proj1 N1) He) as [Eb _].
  assert (in_u32 b) as Hbu.
  { destruct (proj1 N1) as (Hb0 & Hbd & _). pose proof (wg_size _ (wf_geo _ _ Hw)).
    unfold on_disk, in_u32 in *. zify_pow. lia. }
  apply pointed_disk; [done|..].
  - apply (update_entry _ _ Hw _ _ _ Ht i off q e b); [done|done|done|done|]. right. split; [done|].
    right. intros e' He'. unfold entry_val. rewrite v32_vput32_ne; [by apply N2|]. left.
    destruct (block_addr_in _ _ Hw b e' (proj1 N1) He') as [-> Hin']. intros E.
    apply (proj2 (proj2 N1) _ Hip).
    apply (in_blk_apart _ _ Hw _ _ (N + e.2)); [apply HbN|apply N1|exact Hin|]. rewrite E in Hin'. exact Hin'.
  - destruct Hq as (Q1 & Q2 & Q3 & Q4). split; [done|]. split; [done|].
    split; [cbn [fst snd] in *; apply Forall_app; split; [done|by apply Forall_singleton]|].
    cbn [fst snd]. unfold zlen in *. rewrite length_app. cbn [length]. lia.
  - cbn [fst snd]. rewrite (proj2 (Z.ltb_lt _ _)); [by split|].
    unfold zlen in *. rewrite length_app. cbn [length]. lia.
Qed.

(** The block map after the address of one block became [x]. *)
Record remapped (w w' : world) (target : place) (x : Z) : Prop := {
  rm_inv : file_inv live w';
  rm_same : same_world w w';
  rm_val : forall y, leaf live w y -> wval w' y = if decide (y = target) then x else wval w y }.

(** ... and after a failure: no address of data changed. *)
Record unmapped (w w' : world) : Prop := {
  um_inv : file_inv live w';
  um_same : same_world w w';
  um_val : forall y, leaf live w y -> wval w' y = wval w y }.

Lemma quiet_unmapped w w' : quiet live w w' -> unmapped w w'.
Proof. intros [H1 H2 H3]. constructor; [done|done|]. intros y [Hy _]. by apply H3. Qed.

Lemma pointed_unmapped w w' slot x :
  pointed live w w' slot x -> zlen slot.2 < levels slot.1.2 -> unmapped w w'.
Proof.
  intros [H1 H2 H3] Hl. constructor; [done|done|]. intros y [Hy Hlf]. rewrite H3 by done.
  rewrite decide_False; [done|]. intros ->. lia.
Qed.

Lemma leaf_same w w' y : same_world w w' -> leaf live w y -> leaf live w' y.
Proof. intros Hs [Hy Hl]. split; [by eapply same_world_place|done]. Qed.

Lemma unmapped_trans w1 w2 w3 : unmapped w1 w2 -> unmapped w2 w3 -> unmapped w1 w3.
Proof.
  intros [A1 A2 A3] [B1 B2 B3]. constructor; [done|by etrans|]. intros y Hy.
  rewrite B3 by by eapply leaf_same. by apply A3.
Qed.

Lemma unmapped_remapped w1 w2 w3 t x : unmapped w1 w2 -> remapped w2 w3 t x -> remapped w1 w3 t x.
Proof.
  intros [A1 A2 A3] [B1 B2 B3]. constructor; [done|by etrans|]. intros y Hy.
  rewrite B3 by by eapply leaf_same. by rewrite A3.
Qed.

(** A data address of the file system, or 0. *)
Definition data_addr (w : world) (x : Z) : Prop := x = 0 \/ on_disk (w_fs w) x.

Lemma data_addr_same w w' x : same_world w w' -> data_addr w x -> data_addr w' x.
Proof. intros [E _ _]. unfold data_addr, on_disk. by rewrite E. Qed.

Lemma data_addr_u32 w x : file_inv live w -> data_addr w x -> in_u32 x.
Proof.
  intros [Hw _ _] [->|Hx]; [by vm_compute|]. pose proof (wg_size _ (wf_geo _ _ Hw)).
  unfold on_disk, in_u32 in *. zify_pow. lia.
Qed.

(** The last level: the address of the data block. *)
Lemma wp_put_leaf (Q : Z -> S -> Prop) s w inum off q e x (N := wval w (inum, off, q)) :
  rep s w -> file_inv live w -> leaf live w (inum, off, q ++ [e]) -> N <> 0 -> data_addr w x ->
  (forall s' w', rep s' w' -> remapped w w' (inum, off, q ++ [e]) x -> Q 0 s') ->
  wp (temp <- cache_frag_write (u32 (N + e.2)) 1 ;;
      match temp with
      | None => ret 1
      | Some temp => wr32 (temp + 4 * e.1) x ;; ret 0
      end) Q s.
Proof.
  intros Hr Hi [Hok Hl] HN Hx HQ. pose proof Hi as [Hw Hfs Ht].
  pose proof (data_addr_u32 w x Hi Hx) as Hxu.
  destruct (place_ok_prefix _ _ _ _ _ _ Hok) as (Hq & He & Hlt).
  assert (index_place (w_globals w) live (inum, off, q)) as Hip by (split; [exact Hq|exact Hlt]).
  destruct (block_addr_in _ _ Hw _ _ (tr_block _ _ _ _ _ Ht _ Hip HN) He) as [Eu Hin].
  apply wp_bnd. eapply wp_cache_frag_write; [done|apply u32_range|done|].
  intros p s1 Hr1 Ho1. cbv beta iota. apply wp_bnd. pose proof (wf_ptrs _ _ Hw) as Hp.
  pose proof He as [He1 _].
  eapply (wp_wr32 _ s1 w _ p (4 * e.1)); [done|done|done|lia|lia|]. intros s2 Hr2 _.
  apply wp_ret, (HQ s2 _ Hr2). unfold N in *. unfold wval in *. rewrite Eu.
  assert (zlen q + 1 = levels off) as Hz.
  { cbn [fst snd] in Hl. unfold zlen in *. rewrite length_app in Hl. cbn [length] in Hl. lia. }
  assert (pointed live w (w_set_disk (vput32 (w_disk w) (pval (w_fs w) (w_disk w) (inum, off, q) + e.2)
    (4 * e.1) x) w) (inum, off, q ++ [e]) x) as [P1 P2 P3].
  { apply pointed_disk; [done| |done|].
    - apply (update_entry _ _ Hw _ _ _ Ht inum off q e x); [done|done|done|done|by left].
    - cbn [fst snd] in *. rewrite Hl, Z.ltb_irrefl. intros Hn. by destruct Hx. }
  constructor; [done|done|]. intros y [Hy _]. by apply P3.
Qed.

(** A hole in the index blocks is filled with a new one. *)
Lemma wp_grow_entry (k : Z -> M S Z) (Q : Z -> S -> Prop) s w inum off q p fr (N := wval w (inum, off, q)) :
  rep s w -> file_inv live w -> wplace live w (inum, off, q ++ [(p, fr)]) -> zlen q + 1 < levels off ->
  N <> 0 -> wval w (inum, off, q ++ [(p, fr)]) = 0 ->
  (forall s', rep s' w -> Q 1 s') ->
  (forall b s' w', rep s' w' -> unmapped w w' -> b <> 0 -> wval w' (inum, off, q ++ [(p, fr)]) = b ->
     wp (k b) Q s') ->
  wp (b <- block_allocate N ;;
      if b =? 0 then ret 1
      else
        block_erase b ;;
        inode <- inode_modify inum ;;
        match inode with
        | None => ret 1
        | Some inode =>
            f <- superblock ;;
            ADJUST_IC_BLKS inode (NDSPB f) ;;
            temp <- cache_frag_write (u32 (N + fr)) 1 ;;
            match temp with
            | None => ret 1
            | Some temp => wr32 (temp + 4 * p) b ;; k b
            end
        end) Q s.
Proof.
  intros Hr Hi Hok Hlt HN Hz H1 Hk. pose proof Hi as [Hw Hfs Ht].
  destruct (place_ok_prefix _ _ _ _ _ _ Hok) as (Hq & He & Hlt2).
  assert (index_place (w_globals w) live (inum, off, q)) as Hip by (split; [exact Hq|exact Hlt2]).
  pose proof (tr_block _ _ _ _ _ Ht _ Hip HN) as HbN.
  assert (u32 (N + fr) = N + fr) as Eu by apply (block_addr_in _ _ Hw _ _ HbN He).
  apply (wp_new_block _ _ Q s w N); [done|done|apply HbN|by intros _|].
  intros b s2 w2 Hr2 Hq2 Hb2. apply wp_bnd. eapply wp_inode_modify; [done|].
  intros t2 s3 Hr3 Ho3. cbv beta iota. apply wp_bnd. eapply wp_fs; [done|]. apply wp_bnd.
  eapply wp_adjust_blks; [done|apply Hq2|apply Hok|done|].
  intros s4 w4 Hr4 Hq4 _ Hb4 _. apply wp_bnd. specialize (Hb4 b Hb2).
  assert (quiet live w w4) as Hq04 by (eapply quiet_trans; [exact Hq2|exact Hq4]).
  pose proof Hq04 as [Hi4 Hs4 V4]. pose proof Hi4 as [Hw4 _ Ht4]. pose proof (sw_globals _ _ Hs4) as G4.
  eapply wp_cache_frag_write; [done|apply u32_range|done|]. intros t5 s5 Hr5 Ho5. cbv beta iota.
  apply wp_bnd. pose proof (wf_ptrs _ _ Hw4) as Hp4.
  assert (in_block (w_globals w4) (p, fr)) as He4 by (by rewrite G4).
  pose proof (proj1 He4) as He41. cbn [fst] in He41.
  eapply (wp_wr32 _ s5 w4 _ t5 (4 * p)); [done|done|done|lia|lia|]. intros s6 Hr6 _.
  assert (wval w4 (inum, off, q) = N) as EN by (by apply V4).
  assert (wval w4 (inum, off, q ++ [(p, fr)]) = 0) as Ez by (rewrite V4; done).
  rewrite Eu, <- EN in Hr6.
  assert (pointed live w4 (w_set_disk (vput32 (w_disk w4) (wval w4 (inum, off, q) + fr) (4 * p) b) w4)
    (inum, off, q ++ [(p, fr)]) b) as Hpt.
  { apply (link_entry w4 inum off q (p, fr) b); try done.
    - by eapply same_world_place.
    - by rewrite EN.
    - unfold wval in Ez. rewrite pval_snoc in Ez. fold (wval w4 (inum, off, q)) in Ez.
      rewrite EN in *. by rewrite (proj2 (Z.eqb_neq N 0)) in Ez. }
  apply (Hk b s6 _ Hr6).
  - eapply unmapped_trans; [by apply quiet_unmapped|]. eapply pointed_unmapped; [exact Hpt|].
    cbn [fst snd]. unfold zlen in *. rewrite length_app. cbn [length]. lia.
  - destruct (proj1 (nb_fresh _ _ _ Hb4)). lia.
  - rewrite (pt_val _ _ _ _ _ Hpt); [by rewrite decide_True|]. by eapply same_world_place.
Qed.

Lemma wp_cidisk_walk (Q : Z -> S -> Prop) rem q s w inum off x :
  rep s w -> file_inv live w -> rem <> [] -> leaf live w (inum, off, q ++ rem) ->
  wval w (inum, off, q) <> 0 -> data_addr w x ->
  (forall s' w', rep s' w' -> remapped w w' (inum, off, q ++ rem) x -> Q 0 s') ->
  (forall s' w', rep s' w' -> unmapped w w' -> Q 1 s') ->
  wp (cidisk_walk rem (wval w (inum, off, q)) inum x) Q s.
Proof.
  revert q s w. induction rem as [|[p fr] rem IH]; intros q s w Hr Hi Hne Hleaf HN Hx H0 H1; [done|].
  destruct rem as [|e2 rem].
  { cbn [cidisk_walk]. by apply (wp_put_leaf Q s w inum off q (p, fr) x). }
  pose proof Hi as [Hw Hfs Ht]. pose proof Hleaf as [Hok Hz].
  assert (q ++ (p, fr) :: e2 :: rem = (q ++ [(p, fr)]) ++ e2 :: rem) as Eq by (by rewrite <- app_assoc).
  assert (zlen q + 1 < levels off) as Hlt.
  { cbn [fst snd] in Hz. unfold zlen in *. rewrite length_app in Hz. cbn [length] in Hz. lia. }
  assert (wplace live w (inum, off, q ++ [(p, fr)])) as Hqe.
  { destruct Hok as (O1 & O2 & O3 & O4). cbn [fst snd] in *. rewrite Eq in O3.
    apply Forall_app in O3 as [O3 _]. split; [done|]. split; [done|]. split; [done|].
    cbn [fst snd]. unfold zlen in *. rewrite length_app. cbn [length]. lia. }
  destruct (place_ok_prefix _ _ _ _ _ _ Hqe) as (Hq & He & Hlt2).
  cbn [cidisk_walk]. apply wp_bnd.
  eapply wp_cache_frag; [done|apply u32_range|]. intros t s1 Hr1 Ho1. cbv beta iota. apply wp_bnd.
  eapply (wp_entry _ s1 w _ t false (p, fr)); [done|done|done|exact Ho1|]. cbv beta. cbn [fst snd].
  assert (v32 (w_disk w) (u32 (wval w (inum, off, q) + fr)) (4 * p) =
    wval w (inum, off, q ++ [(p, fr)])) as Ev.
  { unfold wval. rewrite pval_snoc. by rewrite (proj2 (Z.eqb_neq _ 0)). }
  rewrite Ev. destruct (Z.eqb_spec (wval w (inum, off, q ++ [(p, fr)])) 0) as [Ez|Nz]; cbn [negb].
  - apply (wp_grow_entry (fun b => cidisk_walk (e2 :: rem) b inum x) Q s1 w inum off q p fr); try done.
    + intros s2 Hr2. apply (H1 s2 w Hr2). by apply quiet_unmapped, quiet_refl.
    + intros b s2 w2 Hr2 Hu2 Hb <-. pose proof Hu2 as [Hi2 Hs2 Hv2]. rewrite Eq in *.
      apply IH; [done|done|done|by eapply leaf_same|done|by eapply data_addr_same|..].
      * intros s3 w3 Hr3 Hm3. apply (H0 s3 w3 Hr3). by eapply unmapped_remapped.
      * intros s3 w3 Hr3 Hm3. apply (H1 s3 w3 Hr3). by eapply unmapped_trans.
  - rewrite Eq in *. by apply IH.
Qed.

(** ** The place of a file block *)

Definition block_place (w : world) (inum blk : Z) : place :=
  let sp := slot_path (w_globals w) blk in (inum, sp.1, sp.2).

Lemma block_leaf w inum n :
  file_inv live w -> live inum -> file_frag (w_fs w) (w_globals w) n ->
  leaf live w (block_place w inum (n / fs_frag (w_fs w))).
Proof.
  intros [Hw _ _] Hl Hn. destruct (file_frag_block _ _ Hw n Hn) as [Hb _].
  destruct (slot_path_spec _ _ Hw _ Hb (proj2 Hn)) as (P1 & P2 & P3 & P4).
  unfold block_place. destruct (Z.ltb_spec (n / fs_frag (w_fs w)) NDADDR) as [Hlt|Hge].
  - rewrite P4 in *. unfold leaf, wplace, place_ok, ptr_off, levels, NDADDR in *. cbn [fst snd] in *.
    rewrite (proj2 (Z.ltb_lt _ 88)) by lia. split; [|done]. split; [done|].
    split; [|by split]. split; [lia|]. split; [lia|]. dlia.
  - destruct P4 as (path & _ & E & Hlen & _). rewrite E in *.
    unfold leaf, wplace, place_ok, ptr_off, levels, NIADDR in *. cbn [fst snd] in *.
    rewrite (proj2 (Z.ltb_ge _ 88)) by lia.
    assert ((88 + 4 * (zlen path - 1) - 88) / 4 + 1 = zlen path) as -> by dlia.
    assert (zlen (rev path) = zlen path) as Er by (unfold zlen; by rewrite length_rev).
    split; [|done]. split; [done|]. split; [split; [lia|split; [lia|dlia]]|]. split; [done|lia].
Qed.

Lemma frag_of_place w inum n :
  frag_of (w_fs w) (w_globals w) (w_disk w) inum n =
  let cur := wval w (block_place w inum (n / fs_frag (w_fs w))) in
  if cur =? 0 then 0 else u32 (cur + n mod fs_frag (w_fs w)).
Proof. done. Qed.

(** Every block of the file is a whole block of the disk, as in a file with
    index blocks. *)
Definition whole_blocks (w : world) (inum : Z) : Prop :=
  forall y, leaf live w y -> y.1.1 = inum -> wval w y <> 0 ->
    wval w y + fs_frag (w_fs w) <= fs_fpg (w_fs w) * fs_ncg (w_fs w).

Lemma frag_of_disk w inum n :
  file_inv live w -> live inum -> whole_blocks w inum -> file_frag (w_fs w) (w_globals w) n ->
  data_addr w (frag_of (w_fs w) (w_globals w) (w_disk w) inum n).
Proof.
  intros Hi Hl Hb Hn. pose proof Hi as [Hw Hfs Ht]. rewrite frag_of_place. cbv zeta.
  pose proof (block_leaf w inum n Hi Hl Hn) as Hleaf. unfold data_addr.
  set (y := block_place w inum (n / fs_frag (w_fs w))) in *.
  destruct (Z.eqb_spec (wval w y) 0) as [E|E]; [by left|right].
  pose proof (tr_data _ _ _ _ _ Ht y (proj1 Hleaf) E) as Hd. specialize (Hb y Hleaf eq_refl E).
  pose proof (wf_geo _ _ Hw) as Hg. pose proof (frag_pos _ Hg). pose proof (wg_size _ Hg).
  pose proof (Z.mod_pos_bound n (fs_frag (w_fs w)) ltac:(lia)). unfold on_disk in *.
  fold (wval w y) in Hd. rewrite u32_small by (unfold in_u32; zify_pow; lia). lia.
Qed.

Lemma file_frag_le (f : fs) gl m n :
  wf_geometry f -> file_frag f gl n -> 0 <= m <= n -> file_frag f gl m.
Proof.
  intros Hg [Hn Hc] Hm. pose proof (frag_pos f Hg). split; [lia|].
  assert (m / fs_frag f <= n / fs_frag f) by (apply Z.div_le_mono; lia). lia.
Qed.

Lemma wp_prev_loop (Q : Z -> S -> Prop) l s w inum pf :
  rep s w -> file_inv live w -> live inum -> whole_blocks w inum ->
  Forall (file_frag (w_fs w) (w_globals w)) l -> l <> [] \/ data_addr w pf ->
  (forall r s', rep s' w -> data_addr w r -> Q r s') -> wp (prev_loop l inum pf) Q s.
Proof.
  intros Hr Hi Hl Hb Hf Hne HQ. revert s pf Hr Hf Hne. induction l as [|m l IH]; intros s pf Hr Hf Hne.
  - apply wp_ret, HQ; [done|]. by destruct Hne.
  - apply Forall_cons in Hf as [Hm Hf]. cbn [prev_loop]. apply wp_bnd.
    eapply wp_ridisk_frag; [apply Hi|done|done|]. intros s1 Hr1. cbv beta.
    pose proof (frag_of_disk w inum m Hi Hl Hb Hm) as Hd.
    case_match; [by apply wp_ret, HQ|]. apply IH; [done|done|by right].
Qed.

Lemma wp_prev_frag_addr (Q : Z -> S -> Prop) s w inum n :
  rep s w -> file_inv live w -> live inum -> whole_blocks w inum ->
  file_frag (w_fs w) (w_globals w) n -> 0 < n ->
  (forall r s', rep s' w -> on_disk (w_fs w) r -> Q r s') -> wp (prev_frag_addr n inum) Q s.
Proof.
  intros Hr Hi Hl Hb Hn Hn0 HQ. pose proof Hi as [Hw Hfs Ht]. pose proof (wf_geo _ _ Hw) as Hg.
  unfold prev_frag_addr. rewrite s32_small by (destruct Hn; unfold in_s32; zify_pow; lia).
  apply wp_bnd. eapply wp_prev_loop; [done|done|done|done| |left; by rewrite downto_cons by lia|].
  - apply Forall_forall. intros m Hm. apply elem_of_downto in Hm as (k & Hk & -> & Hk2); [|lia].
    eapply file_frag_le; [done|exact Hn|lia].
  - intros r s1 Hr1 Hd. cbv beta. destruct (Z.eqb_spec r 0) as [->|E].
    + apply wp_bnd. eapply wp_fs; [done|]. apply wp_ret, HQ; [done|].
      destruct (ino_place_bound _ Hg inum) as [B1 B2]; [pose proof (tr_live _ _ _ _ _ Ht inum Hl); lia|].
      assert (0 <= itodo (w_fs w) inum).
      { unfold itodo, itoo. destruct (inopf_pos _ Hg) as [HP _]. apply Z.div_pos; [|lia].
        apply Z.mod_pos_bound. rewrite (wg_inopb _ Hg). pose proof (frag_pos _ Hg). nia. }
      unfold on_disk. split; [apply u32_range|lia].
    + apply wp_ret, HQ; [done|]. by destruct Hd.
Qed.

(** ** cidisk_frag *)

(** Writing a direct pointer. *)
Lemma put_direct w inum off x :
  file_inv live w -> leaf live w (inum, off, []) -> data_addr w x ->
  remapped w (w_set_disk (vput32 (w_disk w) (ino_frag (w_fs w) inum) (ino_off (w_fs w) inum + off) x) w)
    (inum, off, []) x.
Proof.
  intros Hi [Hok Hl] Hx. pose proof Hi as [Hw Hfs Ht]. pose proof Hok as (O1 & O2 & _).
  cbn [fst snd] in *. change (zlen []) with 0 in Hl.
  assert (pointed live w (w_set_disk (vput32 (w_disk w) (ino_frag (w_fs w) inum)
    (ino_off (w_fs w) inum + off) x) w) (inum, off, []) x) as [P1 P2 P3].
  { apply pointed_disk; [done| |done|].
    - apply (update_inode _ _ Hw _ _ _ Ht); [done|done|by eapply data_addr_u32|by left].
    - cbn [fst snd]. change (zlen []) with 0. rewrite (proj2 (Z.ltb_ge _ _)) by lia.
      intros Hn. by destruct Hx. }
  constructor; [done|done|]. intros y [Hy _]. by apply P3.
Qed.

(** A new index block below a pointer of the inode. *)
Lemma link_inode w inum off b :
  file_inv live w -> new_block live w b -> wplace live w (inum, off, []) -> 0 < levels off ->
  wval w (inum, off, []) = 0 ->
  pointed live w (w_set_disk (vput32 (w_disk w) (ino_frag (w_fs w) inum) (ino_off (w_fs w) inum + off) b) w)
    (inum, off, []) b.
Proof.
  intros Hi [N1 N2 N3] Hok Hl Hz. pose proof Hi as [Hw Hfs Ht]. pose proof Hok as (O1 & O2 & _).
  assert (in_u32 b) as Hbu.
  { destruct (proj1 N1) as (Hb0 & Hbd & _). pose proof (wg_size _ (wf_geo _ _ Hw)).
    unfold on_disk, in_u32 in *. zify_pow. lia. }
  apply pointed_disk; [done| |done|].
  - apply (update_inode _ _ Hw _ _ _ Ht); [done|done|done|]. right. split; [exact Hz|]. right.
    intros e He. unfold entry_val. rewrite v32_vput32_ne; [by apply N2|]. left.
    destruct (block_addr_in _ _ Hw b e (proj1 N1) He) as [-> Hin]. intros E.
    apply (proj1 (proj2 N1) inum O1). by rewrite <- E.
  - cbn [fst snd]. change (zlen []) with 0. rewrite (proj2 (Z.ltb_lt _ _)) by done. by split.
Qed.

Lemma wp_cidisk_indirect (Q : Z -> S -> Prop) s w inum n path x (L := zlen path) :
  rep s w -> file_inv live w -> live inum -> file_frag (w_fs w) (w_globals w) n -> 0 < n ->
  whole_blocks w inum -> data_addr w x -> path <> [] ->
  leaf live w (inum, 88 + 4 * (L - 1), rev path) -> wval w (inum, 88 + 4 * (L - 1), []) = 0 ->
  (forall s' w', rep s' w' -> remapped w w' (inum, 88 + 4 * (L - 1), rev path) x -> Q 0 s') ->
  (forall s' w', rep s' w' -> unmapped w w' -> Q 1 s') ->
  wp (prev_frag <- prev_frag_addr n inum ;;
      curblk <- block_allocate prev_frag ;;
      if curblk =? 0 then ret 1
      else
        block_erase curblk ;;
        inode <- inode_modify inum ;;
        match inode with
        | None => ret 1
        | Some inode =>
            f <- superblock ;;
            wr32 (ic_ib inode (L - 1)) curblk ;;
            ADJUST_IC_BLKS inode (NDSPB f) ;;
            cidisk_walk (rev path) curblk inum x
        end) Q s.
Proof.
  intros Hr Hi Hl Hn Hn0 Hwb Hx Hne Hleaf Hz H0 H1. pose proof Hleaf as [Hok Hlv].
  set (off := 88 + 4 * (L - 1)) in *.
  assert (0 < levels off) as Hlev.
  { cbn [fst snd] in Hlv. rewrite <- Hlv. unfold zlen. rewrite length_rev.
    destruct path; [done|cbn [length]; lia]. }
  assert (wplace live w (inum, off, [])) as Hok0.
  { destruct Hok as (O1 & O2 & _). split; [done|]. split; [done|]. split; [by apply Forall_nil|].
    cbn [fst snd]. unfold zlen. cbn [length]. lia. }
  apply wp_bnd. eapply wp_prev_frag_addr; [done|done|done|done|done|done|].
  intros d s1 Hr1 Hd. cbv beta. apply (wp_new_block _ _ Q s1 w d); [done|done|done|..].
  { intros _ s2 Hr2. apply wp_ret, (H1 s2 w Hr2). by apply quiet_unmapped, quiet_refl. }
  intros b s2 w2 Hr2 Hq2 Hb2. apply wp_bnd. eapply wp_inode_modify; [done|].
  intros t s3 Hr3 Ho3. cbv beta iota. apply wp_bnd. eapply wp_fs; [done|]. apply wp_bnd.
  pose proof Hq2 as [Hi2 Hs2 V2]. pose proof Hi2 as [Hw2 _ Ht2].
  pose proof (ino_off_bounds _ _ Hw2 inum) as Hio. unfold sizeof_icommon in Hio.
  pose proof Hok0 as (_ & (P1 & P2 & P3) & _). cbn [fst snd] in P1, P2, P3. unfold ic_ib.
  eapply (wp_wr32 _ s3 w2 _ t (ino_off (w_fs w2) inum + off)); [done|done|lia|lia|lia|].
  intros s4 Hr4 Hk4. apply wp_bnd.
  assert (pointed live w2 (w_set_disk (vput32 (w_disk w2) (ino_frag (w_fs w2) inum)
    (ino_off (w_fs w2) inum + off) b) w2) (inum, off, []) b) as Hpt.
  { apply link_inode; [done|done|by eapply same_world_place|done|by rewrite V2]. }
  set (w4 := w_set_disk _ w2) in *.
  eapply (wp_adjust_blks _ s4 w4); [done|apply Hpt|done|by apply Hk4|].
  intros s5 w5 Hr5 Hq5 _ _ _.
  assert (unmapped w w5) as Hu5.
  { eapply unmapped_trans; [by apply quiet_unmapped|].
    eapply unmapped_trans; [by eapply pointed_unmapped|by apply quiet_unmapped]. }
  assert (wval w5 (inum, off, []) = b) as Hv5.
  { assert (wplace live w2 (inum, off, [])) as Hp2 by (by eapply same_world_place).
    rewrite (qt_val _ _ _ Hq5); [|by eapply same_world_place; [apply (pt_same _ _ _ _ _ Hpt)|]].
    rewrite (pt_val _ _ _ _ _ Hpt) by done. by rewrite decide_True. }
  rewrite <- Hv5. pose proof Hu5 as [Hi5 Hs5 _].
  apply (wp_cidisk_walk Q (rev path) []); [done|done| |by eapply leaf_same| |by eapply data_addr_same|..].
  - intros E. apply (f_equal (@rev _)) in E. rewrite rev_involutive in E. by rewrite E in Hne.
  - rewrite Hv5. destruct (proj1 (nb_fresh _ _ _ Hb2)). lia.
  - intros s6 w6 Hr6 Hm6. apply (H0 s6 w6 Hr6). by eapply unmapped_remapped.
  - intros s6 w6 Hr6 Hm6. apply (H1 s6 w6 Hr6). by eapply unmapped_trans.
Qed.

End Ops.
