(* ===== verification/ReadSpec.v ===== *)
(** What reading file data relies on: which fragments the device holds
    ([DirectLaws], the contract of cache_available and data_read), and how
    a caller's buffer fills up. *)

From S2P Require Import Prelude Bitmap Superblock Cg CgStore Alloc AllocWp FileEnv Inode IndexPath FileSpec HandlerSpec BlockMap.
Local Open Scope bffs_scope.

(** ** Filling memory *)

(** From [U] to [U'] the [n] bytes at [p] became those of [g]. *)
Definition fills (U U' : umem) (p n : Z) (g : Z -> Z) : Prop :=
  forall a, U' a = if (p <=? a) && (a <? p + n) then Some (g (a - p)) else U a.

(** The first [d] of the [t] bytes at [p] are those of [g], and nothing
    outside them is other than in [U]. *)
Record filled (U U' : umem) (p t d : Z) (g : Z -> Z) : Prop := {
  fd_in : forall k, 0 <= k < d -> U' (p + k) = Some (g k);
  fd_out : forall a, a < p \/ p + t <= a -> U' a = U a;
  fd_block : ublock U' p t }.

Lemma fills_in U U' p n g a : fills U U' p n g -> p <= a < p + n -> U' a = Some (g (a - p)).
Proof. intros H Ha. rewrite H. by rewrite (proj2 (Z.leb_le _ _)), (proj2 (Z.ltb_lt _ _)) by lia. Qed.
Lemma fills_out U U' p n g a : fills U U' p n g -> a < p \/ p + n <= a -> U' a = U a.
Proof. intros H Ha. rewrite H. destruct (Z.leb_spec p a), (Z.ltb_spec a (p + n)); done || lia. Qed.

Lemma fills_block U U' p n g q m : fills U U' p n g -> ublock U q m -> ublock U' q m.
Proof. intros H Hb a Ha. rewrite H. case_match; [by eexists|by apply Hb]. Qed.

Lemma fills_nil U p g : fills U U p 0 g.
Proof. intros a. destruct (Z.leb_spec p a), (Z.ltb_spec a (p + 0)); cbn; done || lia. Qed.

Lemma fills_snoc U U' p k g : 0 <= k -> fills U U' p k g -> fills U (uput U' (p + k) (g k)) p (k + 1) g.
Proof.
  intros Hk H a. unfold uput. destruct (Z.eqb_spec a (p + k)) as [->|Hn].
  - rewrite (proj2 (Z.leb_le _ _)), (proj2 (Z.ltb_lt _ _)) by lia. cbn. do 2 f_equal. lia.
  - rewrite H. destruct (Z.leb_spec p a), (Z.ltb_spec a (p + (k + 1))), (Z.ltb_spec a (p + k)); cbn; done || lia.
Qed.

Lemma filled_start U p t g : ublock U p t -> filled U U p t 0 g.
Proof. intros H. constructor; [lia|done|done]. Qed.

Lemma filled_less U U' p t d d' g : d' <= d -> filled U U' p t d g -> filled U U' p t d' g.
Proof. intros Hd [H1 H2 H3]. constructor; [|done..]. intros k Hk. apply H1. lia. Qed.

Lemma filled_step U U1 U2 p t d n g h q :
  filled U U1 p t d g -> fills U1 U2 q n h -> q = p + d -> 0 <= d -> 0 <= n -> d + n <= t ->
  (forall k, 0 <= k < n -> h k = g (d + k)) -> filled U U2 p t (d + n) g.
Proof.
  intros [H1 H2 H3] Hf -> Hd Hn Ht Hg. constructor.
  - intros k Hk. destruct (Z.lt_ge_cases k d) as [Hl|Hl].
    + rewrite (fills_out _ _ _ _ _ _ Hf) by lia. apply H1. lia.
    + rewrite (fills_in _ _ _ _ _ _ Hf) by lia. f_equal. rewrite Hg by lia. f_equal. lia.
  - intros a Ha. rewrite (fills_out _ _ _ _ _ _ Hf) by lia. by apply H2.
  - by eapply fills_block.
Qed.

(** Inside a filled buffer an operation wrote anything after the first [d] bytes. *)
Lemma filled_scribble U U1 U2 p t d g q n :
  filled U U1 p t d g -> (forall a, a < q \/ q + n <= a -> U2 a = U1 a) -> ublock U2 q n ->
  0 <= d -> 0 <= n -> p + d <= q -> q + n <= p + t -> filled U U2 p t d g.
Proof.
  intros [H1 H2 H3] Ho Hb Hd Hn Hq Ht. constructor.
  - intros k Hk. rewrite Ho by lia. by apply H1.
  - intros a Ha. rewrite Ho by lia. by apply H2.
  - intros a Ha. destruct (Z.lt_ge_cases a q); [rewrite Ho by lia; by apply H3|].
    destruct (Z.lt_ge_cases a (q + n)); [by apply Hb|rewrite Ho by lia; by apply H3].
Qed.

(** Part of the buffer filled by another operation. *)
Lemma filled_sub U U1 U2 p t d m e g h :
  filled U U1 p t d g -> filled U1 U2 (p + d) m e h -> 0 <= d -> 0 <= m -> e <= m -> d + m <= t ->
  (forall k, 0 <= k < e -> h k = g (d + k)) -> filled U U2 p t (d + e) g.
Proof.
  intros [H1 H2 H3] [G1 G2 G3] Hd Hm He Ht Hg. constructor.
  - intros k Hk. destruct (Z.lt_ge_cases k d) as [Hl|Hl].
    + rewrite G2 by lia. apply H1. lia.
    + replace (p + k) with (p + d + (k - d)) by lia. rewrite G1, Hg by lia. do 2 f_equal. lia.
  - intros a Ha. rewrite G2 by lia. apply H2. lia.
  - intros a Ha. destruct (Z.lt_ge_cases a (p + d)); [rewrite G2 by lia; apply H3; lia|].
    destruct (Z.lt_ge_cases a (p + d + m)); [by apply G3|rewrite G2 by lia; by apply H3].
Qed.

(** ** The laws

    [frag_direct s b]: the device holds the contents of fragment [b].  That
    is so when the cache has no buffer for it, and stays so until the
    fragment is written. *)
Class DirectLaws (S : Type) `{FileEnvLaws S} := {
  frag_direct : S -> Z -> Prop;
  dl_cache_frag : forall s b, fe_ok s -> in_u32 b ->
    wp (cache_frag b) (fun _ s' => forall b', frag_direct s b' -> frag_direct s' b') s;
  dl_user_store : forall s a x b,
    fe_ok s -> user_mem s a -> 0 <= x < 256 -> frag_direct s b -> frag_direct (st8 a x s) b;
  dl_available : forall s b, fe_ok s -> in_u32 b ->
    wp (cache_available b) (fun r s' => cg_side s s' /\ file_side s s' /\
      (forall b', frag_direct s b' -> frag_direct s' b') /\
      match r with
      | Some p => frag_owns s' b p false
      | None => frag_direct s' b
      end) s;
  dl_data_read : forall s p b k,
    fe_ok s -> 0 < k -> 0 <= b -> b + k <= 2 ^ 32 -> (forall i, b <= i < b + k -> frag_direct s i) ->
    (forall a, p <= a < p + k * fs_fsize (cgs_fs s) -> user_mem s a) ->
    wp (data_read p b (k * fs_fsize (cgs_fs s))) (fun r s' => cg_side s s' /\ fe_ok s' /\
      fe_globals s' = fe_globals s /\ (forall b i, frag_view s' b i = frag_view s b i) /\
      (forall b', frag_direct s b' -> frag_direct s' b') /\
      (forall b' q w, frag_owns s b' q w -> frag_owns s' b' q w) /\
      (forall a, user_mem s a -> user_mem s' a) /\
      (forall a, user_mem s a -> a < p \/ p + k * fs_fsize (cgs_fs s) <= a -> ld8 a s' = ld8 a s) /\
      (r = 0 -> forall i j, 0 <= i < k -> 0 <= j < fs_fsize (cgs_fs s) ->
         ld8 (p + i * fs_fsize (cgs_fs s) + j) s' = frag_view s (b + i) j)) s }.

Section Direct.
Context {S : Type} {FE : FileEnv S} {FV : FileView S} {CL : CgStoreLaws S} {FL : FileEnvLaws S} {DL : DirectLaws S}.

(** The fragments of [D] are on the device. *)
Definition drep (D : Z -> Prop) (s : S) (w : world) : Prop :=
  rep s w /\ forall b, D b -> frag_direct s b.

Lemma drep_mono (D D' : Z -> Prop) s w : (forall b, D' b -> D b) -> drep D s w -> drep D' s w.
Proof. intros H [Hr Hd]. split; [done|]. eauto. Qed.

Lemma drep_none s w : rep s w -> drep (fun _ => False) s w.
Proof. by split. Qed.

Lemma rep_side s s' w : cg_side s s' -> file_side s s' -> rep s w -> rep s' w.
Proof.
  intros G [F1 F2 F3 F4 F5] [R1 R2 R3 R4 R5]. constructor.
  - by eapply holds_cg_side.
  - auto.
  - congruence.
  - intros b i. by rewrite F3.
  - intros a x Ha. destruct (R5 a x Ha) as [Hm <-]. by apply F5.
Qed.

Lemma rep_user_ext s w U U' :
  (forall a, U' a = U a) -> rep s (w_set_user U w) -> rep s (w_set_user U' w).
Proof.
  intros He [R1 R2 R3 R4 R5]. constructor; try done. intros a x Ha. apply R5. cbn in *. by rewrite <- He.
Qed.

Lemma wp_uwr8_direct D (Q : unit -> S -> Prop) s w p x :
  drep D s w -> is_Some (w_user w p) ->
  (forall s', drep D s' (w_set_user (uput (w_user w) p (u8 x)) w) -> keeps s s' -> Q tt s') ->
  wp (wr8 p x) Q s.
Proof.
  intros [Hr Hd] Hp HQ. unfold wr8. apply wp_modify.
  destruct (rep_user_store s w p (u8 x) Hr Hp (u8_range x)) as [H1 H2]. apply HQ; [|done]. split; [done|].
  intros b Hb. destruct Hp as [y Hy]. apply dl_user_store; [apply Hr|by eapply (rp_user s w Hr)|apply u8_range|by apply Hd].
Qed.

(** Copying out of a buffer of the cache, and clearing. *)
Lemma wp_fill_loop D (body : Z -> M S unit) (g : Z -> Z) (Q : unit -> S -> Prop) s w to n :
  drep D s w -> ublock (w_user w) to n -> 0 <= n ->
  (forall k s' U (R : unit -> S -> Prop), 0 <= k < n -> drep D s' (w_set_user U w) -> keeps s s' -> ublock U to n ->
     (forall s'', drep D s'' (w_set_user (uput U (to + k) (g k)) w) -> keeps s' s'' -> R tt s'') -> wp (body k) R s') ->
  (forall s' U', drep D s' (w_set_user U' w) -> keeps s s' -> fills (w_user w) U' to n g -> Q tt s') ->
  wp (mfor (upto 0 n 1) body) Q s.
Proof.
  intros Hr Hb Hn Hbody HQ.
  apply (wp_mfor_upto _ (fun k s' => keeps s s' /\ exists U', drep D s' (w_set_user U' w) /\ fills (w_user w) U' to k g)).
  - done.
  - split; [by intros b q rw|]. exists (w_user w). split; [by destruct w|]. apply fills_nil.
  - intros k s1 Hk [Hk1 (U1 & Hr1 & Hf)]. apply (Hbody k s1 U1); [done|done|done|by eapply fills_block|].
    intros s2 Hr2 Hk2. split; [intros b q rw Hq; by apply Hk2, Hk1|]. eexists. split; [exact Hr2|].
    apply fills_snoc; [lia|done].
  - intros s1 [Hk1 (U1 & Hr1 & Hf)]. by apply (HQ s1 U1).
Qed.

Lemma wp_CopyMem_out D (Q : unit -> S -> Prop) s w b p rw o a to n :
  drep D s w -> frag_owns s b p rw -> a = p + o -> 0 <= o -> 0 <= n -> o + n <= fs_fsize (w_fs w) ->
  ublock (w_user w) to n ->
  (forall s' U', drep D s' (w_set_user U' w) -> fills (w_user w) U' to n (fun k => w_disk w b (o + k)) -> Q tt s') ->
  wp (CopyMem a to n) Q s.
Proof.
  intros Hr Ho -> H1 H2 H3 Hb HQ. unfold CopyMem. eapply wp_fill_loop; [exact Hr|exact Hb|done| |intros s' U' H _; apply HQ, H].
  intros k s1 U R Hk Hr1 Hk1 Hb1 HR. apply wp_bnd.
  eapply (wp_rd8 _ s1 (w_set_user U w) b p rw (o + k)); [apply Hr1|by apply Hk1|lia|lia|cbn; lia|].
  eapply wp_uwr8_direct; [exact Hr1|apply Hb1; lia|]. intros s2 Hr2 Hk2. apply HR; [|done]. cbn in Hr2.
  by rewrite u8_small in Hr2 by exact (rep_byte s w b (o + k) (proj1 Hr)).
Qed.

Lemma wp_memset_out D (Q : unit -> S -> Prop) s w to x n :
  drep D s w -> 0 <= n -> 0 <= x < 256 -> ublock (w_user w) to n ->
  (forall s' U', drep D s' (w_set_user U' w) -> fills (w_user w) U' to n (fun _ => x) -> Q tt s') ->
  wp (memset to x n) Q s.
Proof.
  intros Hr Hn Hx Hb HQ. unfold memset. eapply wp_fill_loop; [exact Hr|exact Hb|done| |intros s' U' H _; apply HQ, H].
  intros k s1 U R Hk Hr1 Hk1 Hb1 HR. eapply wp_uwr8_direct; [exact Hr1|apply Hb1; lia|].
  intros s2 Hr2 Hk2. apply HR; [|done]. cbn in Hr2. by rewrite u8_small in Hr2.
Qed.

Lemma wp_available D (Q : option Z -> S -> Prop) s w b :
  drep D s w -> in_u32 b ->
  (forall p s', drep D s' w -> frag_owns s' b p false -> Q (Some p) s') ->
  (forall s', drep (fun x => D x \/ x = b) s' w -> Q None s') -> wp (cache_available b) Q s.
Proof.
  intros [Hr Hd] Hb HS HN. eapply wp_mono; [by apply dl_available; [apply Hr|]|].
  intros r s' (G & F & Hk & Hp). pose proof (rep_side s s' w G F Hr) as Hr'. destruct r as [p|].
  - apply HS; [|done]. split; [done|]. auto.
  - apply HN. split; [done|]. intros x [Hx| ->]; auto.
Qed.

Lemma wp_data_read_direct (D : Z -> Prop) (Q : Z -> S -> Prop) s w p b k :
  drep D s w -> 0 < k -> 0 <= b -> b + k <= 2 ^ 32 -> 0 < fs_fsize (w_fs w) ->
  (forall i, b <= i < b + k -> D i) ->
  ublock (w_user w) p (k * fs_fsize (w_fs w)) ->
  (forall s' U', drep D s' (w_set_user U' w) -> keeps s s' ->
     fills (w_user w) U' p (k * fs_fsize (w_fs w))
       (fun i => w_disk w (b + i / fs_fsize (w_fs w)) (i mod fs_fsize (w_fs w))) -> Q 0 s') ->
  (forall r s' U', r <> 0 -> drep D s' (w_set_user U' w) ->
     (forall a, a < p \/ p + k * fs_fsize (w_fs w) <= a -> U' a = w_user w a) ->
     ublock U' p (k * fs_fsize (w_fs w)) -> Q r s') ->
  wp (data_read p b (k * fs_fsize (w_fs w))) Q s.
Proof.
  intros [Hr Hd] Hk Hb Hbk Hfs HD Hu H0 H1. pose proof Hr as [R1 R2 R3 R4 R5].
  pose proof (rep_super s w Hr) as Ef. rewrite <- Ef in Hfs, Hu, H0, H1 |- *. set (F := fs_fsize (cgs_fs s)) in *.
  assert (forall a, p <= a < p + k * F -> user_mem s a) as Hmem.
  { intros a Ha. destruct (Hu a Ha) as [x Hx]. by eapply R5. }
  eapply wp_mono; [apply (dl_data_read s p b k); try done; intros i Hi; by apply Hd, HD|].
  intros r s' (G & Hok & Hg & Hv & Hdir & Hkeep & Hm & Ho & Hin). fold F in Ho, Hin.
  assert (forall U', (forall a x, U' a = Some x -> user_mem s' a /\ ld8 a s' = x) ->
    drep D s' (w_set_user U' w)) as Hrep.
  { intros U' HU. split; [|intros x Hx; by apply Hdir, Hd]. constructor; cbn; [by eapply holds_cg_side|done|congruence| |done].
    intros x i. by rewrite Hv. }
  destruct (Z.eq_dec r 0) as [->|Hr0].
  - set (g := fun i => w_disk w (b + i / F) (i mod F)).
    apply (H0 s' (fun a => if (p <=? a) && (a <? p + k * F) then Some (g (a - p)) else w_user w a)); [|exact Hkeep|done].
    apply Hrep. intros a x. destruct (Z.leb_spec p a), (Z.ltb_spec a (p + k * F)); cbn; intros Hx.
    2-4: by (destruct (R5 a x Hx) as [Hma <-]; split; [by apply Hm|apply Ho; [done|lia]]).
    injection Hx as <-. split; [by apply Hm, Hmem|]. unfold g. rewrite <- R4.
    assert (0 <= (a - p) / F < k /\ 0 <= (a - p) mod F < F /\ (a - p) = (a - p) / F * F + (a - p) mod F) as (E1 & E2 & E3).
    { pose proof (Z.div_mod (a - p) F ltac:(lia)). pose proof (Z.mod_pos_bound (a - p) F ltac:(lia)).
      split; [split; [apply Z.div_pos; lia|apply Z.div_lt_upper_bound; lia]|]. lia. }
    rewrite <- (Hin eq_refl _ _ E1 E2). f_equal. lia.
  - apply (H1 r s' (fun a => if (p <=? a) && (a <? p + k * F) then Some (ld8 a s') else w_user w a)); [done|..].
    + apply Hrep. intros a x. destruct (Z.leb_spec p a), (Z.ltb_spec a (p + k * F)); cbn; intros Hx.
      2-4: by (destruct (R5 a x Hx) as [Hma <-]; split; [by apply Hm|apply Ho; [done|lia]]).
      injection Hx as <-. split; [by apply Hm, Hmem|done].
    + intros a Ha. destruct (Z.leb_spec p a), (Z.ltb_spec a (p + k * F)); cbn; done || lia.
    + intros a Ha. rewrite (proj2 (Z.leb_le _ _)), (proj2 (Z.ltb_lt _ _)) by lia. by eexists.
Qed.

(** The lookup in the block map only reads. *)
Lemma direct_stable (D : Z -> Prop) : read_stable (fun s => forall b, D b -> frag_direct s b).
Proof.
  intros s b Hok Hb Hd. eapply wp_mono; [by apply dl_cache_frag|]. intros r s' Hk x Hx. auto.
Qed.

Lemma wp_ridisk_direct D (Q : Z -> S -> Prop) s w n inum :
  wf_files (w_fs w) (w_globals w) -> drep D s w -> file_frag (w_fs w) (w_globals w) n ->
  (forall s', drep D s' w -> Q (frag_of (w_fs w) (w_globals w) (w_disk w) inum n) s') ->
  wp (ridisk_frag n inum) Q s.
Proof.
  intros Hw [Hr Hd] Hn HQ. eapply (wp_ridisk_frag_with (fun s => forall b, D b -> frag_direct s b));
    [apply direct_stable|done|done|done|done|]. intros s' Hd' Hr'. by apply HQ.
Qed.

End Direct.
