(* ===== verification/FileSample.v ===== *)
(** A concrete system under the file layer: the sample file system with its
    group cache, a memory in which every fragment of the disk is resident,
    and one file with a direct block and an index block. *)

From S2P Require Import Prelude Bitmap Superblock Addresses Cg CgStore Alloc AllocWp AllocSpec.
From S2P Require Import AllocInv AllocTheorems CgCache CgCacheSpec Sample FileEnv Handler Inode IndexPath.
From S2P Require Import FileSpec BlockMap BlockTree BlockWrite.
Local Open Scope bffs_scope.

Record machine := Machine {
  m_cg : cgcache (Z -> cg) Z;
  m_globals : globals;
  m_mem : Z -> Z;
  m_heap : Z;                           (* the next address AllocMem gives *)
  m_handler : handler }.

Definition m_set_cg (c : cgcache (Z -> cg) Z) (s : machine) : machine :=
  Machine c (m_globals s) (m_mem s) (m_heap s) (m_handler s).
Definition m_set_globals (g : globals) (s : machine) : machine :=
  Machine (m_cg s) g (m_mem s) (m_heap s) (m_handler s).
Definition m_set_mem (m : Z -> Z) (s : machine) : machine :=
  Machine (m_cg s) (m_globals s) m (m_heap s) (m_handler s).
Definition m_set_heap (h : Z) (s : machine) : machine :=
  Machine (m_cg s) (m_globals s) (m_mem s) h (m_handler s).
Definition m_set_handler (h : handler) (s : machine) : machine :=
  Machine (m_cg s) (m_globals s) (m_mem s) (m_heap s) h.

Definition lift {A} (m : M (cgcache (Z -> cg) Z) A) : M machine A := fun s =>
  match m (m_cg s) with Some (a, c) => Some (a, m_set_cg c s) | None => None end.

Lemma wp_lift {A} (m : M (cgcache (Z -> cg) Z) A) (Q : A -> machine -> Prop) s :
  wp m (fun a c => Q a (m_set_cg c s)) (m_cg s) -> wp (lift m) Q s.
Proof. unfold wp, lift. by destruct (m (m_cg s)) as [[a c]|]. Qed.

#[export] Instance machine_cg : CgStore machine := {
  cgs_fs := fun s => cgs_fs (m_cg s);
  cgs_set_fs := fun f s => m_set_cg (cgs_set_fs f (m_cg s)) s;
  cache_cg := fun k => lift (CgStore.cache_cg k);
  cache_cg_write := fun k => lift (CgStore.cache_cg_write k);
  cgs_load := fun p s => cgs_load p (m_cg s);
  cgs_store := fun p c s => m_set_cg (cgs_store p c (m_cg s)) s }.

#[local] Obligation Tactic := idtac.

#[export] Program Instance machine_cg_laws : CgStoreLaws machine := {
  cgs_ok := fun s => cgs_ok (m_cg s);
  cgs_view := fun s => cgs_view (m_cg s);
  cgs_owns := fun s => cgs_owns (m_cg s) }.
Next Obligation. intros s k. apply (cgs_view_cgx (m_cg s)). Qed.
Next Obligation. intros s. apply (cgs_writable (m_cg s)). Qed.
Next Obligation. intros s k p w. apply (cgs_load_view (m_cg s)). Qed.
Next Obligation. intros s k Hok Hk. apply wp_lift. by apply (cgs_cache_cg (m_cg s)). Qed.
Next Obligation. intros s k Hok Hk. apply wp_lift. by apply (cgs_cache_cg_write (m_cg s)). Qed.
Next Obligation. intros s k p c. apply (cgs_store_view (m_cg s)). Qed.
Next Obligation. intros s f. apply (cgs_set_fs_fs (m_cg s)). Qed.
Next Obligation. intros s f. apply (cgs_set_fs_view (m_cg s)). Qed.
Next Obligation. intros s f. apply (cgs_set_fs_ok (m_cg s)). Qed.
Next Obligation. intros s f k p w. apply (cgs_set_fs_owns (m_cg s)). Qed.

(** Fragment [b] is resident above 4 GB; memory of the handler and its
    callers is below [m_heap], where AllocMem goes on. *)
Definition frag_addr (b : Z) : Z := 2 ^ 32 + 1024 * b.

Definition mem_copy (from to n : Z) (m : Z -> Z) : Z -> Z :=
  fun a => if (to <=? a) && (a <? to + n) then m (from + (a - to)) else m a.

Definition fold_case (c : Z) : Z := if (97 <=? c) && (c <=? 122) then c - 32 else c.

#[export] Instance machine_mem : Memory machine := {
  ld8 := fun a s => m_mem s a;
  st8 := fun a x s => m_set_mem (fun a' => if a' =? a then x else m_mem s a') s }.

#[export] Instance machine_env : FileEnv machine := {
  fe_globals := m_globals;
  fe_set_globals := m_set_globals;
  cache_frag := fun b => ret (Some (frag_addr b));
  cache_available := fun b => ret (if Z.even (b / 2) then Some (frag_addr b) else None);
  cache_frag_write := fun b _ => ret (Some (frag_addr b));
  cache_invalidate := fun _ => ret tt;
  cache_frag_move := fun to from =>
    modify (fun s => m_set_mem (mem_copy (frag_addr from) (frag_addr to) 1024 (m_mem s)) s);
  data_read := fun buf num n =>
    modify (fun s => m_set_mem (mem_copy (frag_addr num) buf n (m_mem s)) s) ;; ret 0;
  data_write := fun buf num n =>
    modify (fun s => m_set_mem (mem_copy buf (frag_addr num) n (m_mem s)) s) ;; ret 0;
  FileEnv.AllocMem := fun n s =>
    let top := m_heap s + 4 * ((n + 3) / 4) in
    if top <=? 2 ^ 32 then Some (Some (m_heap s), m_set_heap top s) else Some (None, s);
  FileEnv.FreeMem := fun _ _ => ret tt;
  unix_time := ret 0;
  strnicmp := fun a b n =>
    if decide (fold_case <$> take (Z.to_nat n) a = fold_case <$> take (Z.to_nat n) b) then 0 else 1;
  junk := 0 }.

Definition in_frag (b i : Z) : bool := (0 <=? b) && (b <? 2 ^ 32) && (0 <=? i) && (i <? 1024).

Lemma in_frag_spec b i : in_frag b i = true <-> in_u32 b /\ 0 <= i < 1024.
Proof. unfold in_frag, in_u32. rewrite !andb_true_iff, !Z.leb_le, !Z.ltb_lt. zify_pow. lia. Qed.

Record machine_ok (s : machine) : Prop := {
  mo_bytes : forall a, 0 <= m_mem s a < 256;
  mo_fsize : fs_fsize (cgs_fs s) = 1024;
  mo_heap : 0 < m_heap s <= 2 ^ 32 /\ m_heap s mod 4 = 0 }.

#[export] Instance machine_view : FileView machine := {
  fe_ok := machine_ok;
  frag_view := fun s b i => if in_frag b i then m_mem s (frag_addr b + i) else 0;
  frag_owns := fun s b p _ => p = frag_addr b /\ in_u32 b;
  user_mem := fun s a => a < m_heap s }.

Lemma machine_side s c :
  fs_fsize (cgs_fs (m_set_cg c s)) = fs_fsize (cgs_fs s) -> file_side s (m_set_cg c s).
Proof.
  intros E. constructor; try done. intros [Hb Hf Hh]. constructor; [done| |done]. by rewrite E.
Qed.

Lemma machine_store s a x : machine_ok s -> 0 <= x < 256 -> machine_ok (st8 a x s).
Proof. intros [Hm Hf Hh] Hx. constructor; [|done|done]. intros a'. cbn. case_match; [done|apply Hm]. Qed.

#[export] Program Instance machine_laws : FileEnvLaws machine.
Next Obligation. intros s b i [Hb _ _]. cbn. case_match; [apply Hb|lia]. Qed.
Next Obligation. intros s a [Hb _ _] _. apply Hb. Qed.
Next Obligation.
  intros s b p w i [_ Hf _] [-> Hb] Hi. assert (0 <= i < 1024) as Hi' by (rewrite <- Hf; exact Hi).
  cbn. by rewrite (proj2 (in_frag_spec b i)).
Qed.
Next Obligation.
  intros s b p i x Hok [-> Hb] Hi Hx. pose proof Hok as [Hm Hf Hh].
  assert (0 <= i < 1024) as Hi' by (rewrite <- Hf; exact Hi). clear Hi. cbv zeta. split; [by constructor|].
  split; [by apply machine_store|]. split; [done|]. split; [|split; [done|]].
  - intros b' j. cbn. destruct (in_frag b' j) eqn:E.
    + apply in_frag_spec in E as [E1 E2]. unfold frag_addr.
      destruct (Z.eqb_spec (2 ^ 32 + 1024 * b' + j) (2 ^ 32 + 1024 * b + i)), (Z.eqb_spec b' b), (Z.eqb_spec j i); try done; lia.
    + destruct (Z.eqb_spec b' b) as [->|], (Z.eqb_spec j i) as [->|]; try done.
      by rewrite (proj2 (in_frag_spec b i)) in E.
  - intros a Ha. split; [done|]. cbn in *. rewrite (proj2 (Z.eqb_neq _ _)); [done|]. unfold in_u32, frag_addr in *. lia.
Qed.
Next Obligation.
  intros s a x Hok Ha Hx. pose proof Hok as [Hm Hf Hh]. cbv zeta. split; [by constructor|].
  split; [by apply machine_store|]. split; [done|]. split; [|split; [done|]].
  - intros b j. cbn in *. destruct (in_frag b j) eqn:E; [|done]. apply in_frag_spec in E as [E1 E2].
    rewrite (proj2 (Z.eqb_neq _ _)); [done|]. unfold in_u32, frag_addr in *. lia.
  - done.
Qed.
Next Obligation.
  intros s b Hok Hb. apply wp_ret. exists (frag_addr b). split; [done|]. split; [done|]. split; [done|].
  split; [done|]. split; [done|]. by split.
Qed.
Next Obligation.
  intros s b rd Hok Hb. apply wp_ret. exists (frag_addr b). split; [done|]. split; [done|]. split; [done|].
  split; [done|]. split; [done|]. by split.
Qed.
Next Obligation.
  intros s k Hok Hfe Hk. apply wp_lift. eapply wp_mono; [by apply (cgs_cache_cg (m_cg s) k)|].
  intros r c (p & _ & _ & E & _). apply machine_side. exact (f_equal (fun f : fs => fs_fsize f) E).
Qed.
Next Obligation.
  intros s k Hok Hfe Hk. apply wp_lift. eapply wp_mono; [by apply (cgs_cache_cg_write (m_cg s) k)|].
  intros r c (p & _ & _ & E & _). apply machine_side. exact (f_equal (fun f : fs => fs_fsize f) E).
Qed.
Next Obligation.
  intros s k p c Hok Hfe Ho Hc. apply machine_side.
  destruct (cgs_store_view (m_cg s) k p c Hok Ho Hc) as (_ & E & _). exact (f_equal (fun f : fs => fs_fsize f) E).
Qed.
Next Obligation. intros s f Hfe Hg Hr. apply machine_side. exact (f_equal fs_fsize Hg). Qed.
Next Obligation. intros s g [Hm Hf Hh]. cbv zeta. split; [by constructor|]. split; [by constructor|]. done. Qed.
Next Obligation.
  intros s Hok. apply wp_ret. split; [by vm_compute|]. split; reflexivity.
Qed.

(** ** A file *)

(** Inode 4 has block 48 as its first block and block 96 as its first index
    block, whose first entry is block 104. *)
Definition sample_files : Z -> Z -> Z :=
  vput32 (vput32 (vput32 (fun _ _ => 0) 24 552 48) 24 600 96) 96 0 104.

(** The handler before a volume is mounted. *)
Definition sample_handler : handler :=
  Handler 0 (Packet 0 0 0 0 0) (Options 0 0 0 0 0 512 0 0 12) (SuperRest 0 0 0 0 (repeat 0 513) 0)
    0 0 0 100 [0x62] 200 0 0 0 1 0 0 0.

Definition machine_of (V : Z -> Z -> Z) : machine :=
  Machine sample_state sample_globals
    (fun a => if (2 ^ 32 <=? a) && (a <? 2 ^ 32 + 2 ^ 32 * 1024)
              then V ((a - 2 ^ 32) / 1024) ((a - 2 ^ 32) mod 1024) else 0)
    4096 sample_handler.

Definition world_of (V : Z -> Z -> Z) : world :=
  World sample_fs sample_view sample_globals V (fun _ => None).

Definition sample_machine : machine := machine_of sample_files.
Definition sample_world : world := world_of sample_files.

Definition sample_live (i : Z) : Prop := i = 4.

Lemma sample_files_range b i : 0 <= sample_files b i < 256.
Proof.
  unfold sample_files, vput32, vput16, vput. repeat case_match; try apply u8_range; lia.
Qed.

Lemma sample_files_out b i : in_frag b i = false -> sample_files b i = 0.
Proof.
  intros E. assert (forall b' j V x, in_frag b' j = true -> vput V b' j x b i = V b i) as Hp.
  { intros b' j V x E'. apply vput_ne. destruct (Z.eq_dec b b') as [->|]; [|by left].
    right. intros ->. by rewrite E in E'. }
  unfold sample_files, vput32, vput16. by rewrite !Hp by by vm_compute.
Qed.

(** A disk of bytes in the fragments there are. *)
Definition disk_bytes (V : Z -> Z -> Z) : Prop :=
  (forall b i, 0 <= V b i < 256) /\ (forall b i, in_frag b i = false -> V b i = 0).

Lemma rep_of V : disk_bytes V -> rep (machine_of V) (world_of V).
Proof.
  intros [Hr Ho]. constructor; try done.
  - destruct sample_holds as (Hok & Hf & Hv). by split.
  - constructor; [|done|done]. intros a. cbn [m_mem machine_of]. destruct (_ && _); [apply Hr|lia].
  - intros b i. cbn [frag_view machine_view w_disk world_of].
    destruct (in_frag b i) eqn:E; [|symmetry; by apply Ho].
    apply in_frag_spec in E as [Hb Hi]. unfold in_u32 in Hb. cbn [m_mem machine_of]. unfold frag_addr.
    rewrite (proj2 (Z.leb_le _ _)), (proj2 (Z.ltb_lt _ _)) by lia. cbn [andb].
    replace (2 ^ 32 + 1024 * b + i - 2 ^ 32) with (b * 1024 + i) by lia.
    rewrite Z.div_add_l, (Z.div_small i), Z.add_0_r by lia.
    by rewrite Z.add_comm, Z.mod_add, Z.mod_small by lia.
Qed.

Lemma sample_rep : rep sample_machine sample_world.
Proof. apply rep_of. split; [apply sample_files_range|apply sample_files_out]. Qed.

(** A disk given by its bytes that are not 0. *)
Definition disk_of (l : list (Z * Z * Z)) : Z -> Z -> Z :=
  foldr (fun x V => vput V x.1.1 x.1.2 (u8 x.2)) (fun _ _ => 0) l.

Lemma disk_of_bytes l : forallb (fun x => in_frag x.1.1 x.1.2) l = true -> disk_bytes (disk_of l).
Proof.
  induction l as [|x l IH]; cbn [forallb]; intros H; [split; [cbn; lia|done]|].
  apply andb_true_iff in H as [Hx Hl]. destruct (IH Hl) as [I1 I2]. cbn [disk_of foldr]. fold (disk_of l). split.
  - intros b i. unfold vput. destruct (_ && _); [apply u8_range|apply I1].
  - intros b i Hb. unfold vput. destruct (Z.eqb_spec b x.1.1) as [->|]; [|by apply I2].
    destruct (Z.eqb_spec i x.1.2) as [->|]; [by rewrite Hx in Hb|by apply I2].
Qed.

Lemma sample_wf_files : wf_files sample_fs sample_globals.
Proof. constructor; [apply sample_geo_wf|by constructor|done|done|done]. Qed.

Lemma follow_hole V q : follow V q 0 = 0.
Proof. by destruct q as [|[p fr] q]. Qed.

(** The only index block. *)
Lemma sample_index x :
  place_ok sample_globals sample_live x -> pval sample_fs sample_files x <> 0 ->
  (x = (4, 40, []) /\ pval sample_fs sample_files x = 48) \/
  (x = (4, 88, []) /\ pval sample_fs sample_files x = 96) \/
  (zlen x.2 = levels x.1.2 /\ x.1.1 = 4 /\ pval sample_fs sample_files x = 104).
Proof.
  destruct x as [[i off] q]. intros (Hi & (O1 & O2 & O3) & Hq & Hl) Hn. cbn [fst snd] in *.
  unfold sample_live in Hi. subst i. unfold pval in *. cbn [fst snd] in *.
  assert (off = 40 \/ off = 44 \/ off = 48 \/ off = 52 \/ off = 56 \/ off = 60 \/ off = 64 \/ off = 68 \/
    off = 72 \/ off = 76 \/ off = 80 \/ off = 84 \/ off = 88 \/ off = 92 \/ off = 96) as Ho by dlia.
  assert (forall o, ino_ptr sample_fs sample_files 4 o = 0 -> off <> o) as Hz.
  { intros o Eo ->. rewrite Eo, follow_hole in Hn. done. }
  destruct (Z.eq_dec off 40) as [->|N40].
  { left. change (levels 40) with 0 in Hl. destruct q; [by split|]. unfold zlen in Hl. cbn in Hl. lia. }
  destruct (Z.eq_dec off 88) as [->|N88]; [right|].
  2: { exfalso. repeat destruct Ho as [Ho|Ho]; try done; by apply (Hz off); [subst off; vm_compute|]. }
  change (ino_ptr sample_fs sample_files 4 88) with 96 in *. change (levels 88) with 1 in *.
  destruct q as [|[p fr] q]; [by left|right].
  assert (q = []) as ->. { destruct q; [done|]. unfold zlen in Hl. cbn [length] in Hl. lia. }
  apply Forall_singleton in Hq as [Hp Hf]. cbn in Hp, Hf. split; [done|]. split; [done|].
  cbn [follow Z.eqb] in *. rewrite u32_small in * by (unfold in_u32; zify_pow; lia).
  destruct (Z.eq_dec fr 0) as [->|Nf]; [destruct (Z.eq_dec p 0) as [->|Np]; [done|]|].
  - exfalso. apply Hn. unfold sample_files. rewrite v32_vput32_ne by lia. done.
  - exfalso. apply Hn. unfold sample_files. rewrite v32_vput32_ne by lia.
    rewrite !v32_vput32_ne by lia. done.
Qed.

Lemma sample_trees :
  trees sample_fs sample_globals sample_live (frag_free sample_fs sample_view) sample_files.
Proof.
  assert (forall x, index_place sample_globals sample_live x -> pval sample_fs sample_files x <> 0 ->
    x = (4, 88, []) /\ pval sample_fs sample_files x = 96) as Hix.
  { intros x [Hx Hl] Hn. destruct (sample_index x Hx Hn) as [[-> _]|[E|(E & _)]]; [|done|lia].
    cbn in Hl. unfold zlen in Hl. cbn in Hl. lia. }
  constructor.
  - intros i ->. by vm_compute.
  - intros i ->. by repeat split; vm_compute.
  - intros x Hx Hn. destruct (Hix x Hx Hn) as [_ ->]. by repeat split; vm_compute.
  - intros x y Hx Hn. destruct (Hix x Hx Hn) as [_ ->]. unfold in_blk. cbn [fs_frag sample_fs fs_geo sample_geo].
    intros Hy. split; [unfold on_disk; cbn; lia|].
    apply (all_frags_check sample_fs sample_view 96 8 false); [by vm_compute|lia].
  - intros x i Hx Hn ->. destruct (Hix x Hx Hn) as [_ ->]. unfold in_blk. vm_compute. intuition congruence.
  - intros x y Hx Hy Hn E. destruct (Hix x Hx Hn) as [-> E1].
    destruct (Hix y Hy ltac:(by rewrite <- E)) as [-> _]. done.
  - intros x Hx Hn. destruct (sample_index x Hx Hn) as [[_ ->]|[[_ ->]|(_ & _ & ->)]]; by vm_compute.
Qed.

Lemma sample_file_inv : file_inv sample_live sample_world.
Proof. constructor; [apply sample_wf_files|apply sample_inv|apply sample_trees]. Qed.

Lemma sample_whole : whole_blocks sample_live sample_world 4.
Proof.
  intros y [Hy Hl] E Hn.
  destruct (sample_index y Hy Hn) as [[-> Ev]|[[-> Ev]|(_ & _ & Ev)]]; unfold wval; cbn [w_fs w_disk sample_world world_of];
    rewrite ?Ev; by vm_compute.
Qed.
