(* ===== verification/FileTheorems.v ===== *)
(** The block map of files, as a function from file and fragment number to
    disk address: what [cidisk_frag] and [ridisk_frag] promise over any
    fragment cache that keeps its contract. *)

From S2P Require Import Prelude Bitmap Superblock Addresses Cg CgStore Alloc AllocWp AllocSpec.
From S2P Require Import FragSummary AllocInv AllocTheorems FileEnv Inode IndexPath FileSpec.
From S2P Require Import BlockMap BlockTree BlockWrite Sample FileSample.
Local Open Scope bffs_scope.

Section Map.
Context {S : Type} {FE : FileEnv S} {FV : FileView S} {CL : CgStoreLaws S} {FL : FileEnvLaws S}.
Context (live : Z -> Prop).

(** The address of fragment [n] of file [inum]; 0 for a hole. *)
Definition address (w : world) (inum n : Z) : Z :=
  frag_of (w_fs w) (w_globals w) (w_disk w) inum n.

Definition frag_number (w : world) (n : Z) : Prop := file_frag (w_fs w) (w_globals w) n.

Lemma wp_cidisk_frag (Q : Z -> S -> Prop) s w inum n x :
  rep s w -> file_inv live w -> live inum -> frag_number w n ->
  (NDADDR <= n / fs_frag (w_fs w) -> whole_blocks live w inum) -> data_addr w x ->
  (forall s' w', rep s' w' ->
     remapped live w w' (block_place w inum (n / fs_frag (w_fs w))) x -> Q 0 s') ->
  (forall s' w', rep s' w' -> unmapped live w w' -> Q 1 s') ->
  wp (cidisk_frag n inum x) Q s.
Proof.
  intros Hr Hi Hl Hn Hwb Hx H0 H1. pose proof Hi as [Hw Hfs Ht]. pose proof (wf_geo _ _ Hw) as Hg.
  destruct (file_frag_block _ _ Hw n Hn) as [Hb _]. pose proof (frag_pos _ Hg) as HF.
  pose proof (block_leaf live w inum n Hi Hl Hn) as Hleaf. unfold block_place in *. cbv zeta in *.
  destruct (slot_path_spec _ _ Hw _ Hb (proj2 Hn)) as (P1 & P2 & P3 & P4).
  unfold cidisk_frag. apply wp_bnd. eapply wp_inode_read; [done|]. intros p s1 Hr1 Ho1. cbv beta iota.
  apply wp_bnd. eapply wp_FPB; [done|]. cbv beta zeta. rewrite block_ind_eq by done.
  pose proof (ino_off_bounds _ _ Hw inum) as Hio. unfold sizeof_icommon in Hio.
  destruct (Z.ltb_spec (n / fs_frag (w_fs w)) NDADDR) as [Hlt|Hge].
  - rewrite (proj2 (Z.ltb_lt _ 0)) by lia. rewrite P4 in *. cbn [fst snd] in *.
    apply wp_bnd. eapply wp_inode_modify; [done|]. intros p2 s2 Hr2 Ho2. cbv beta iota. apply wp_bnd.
    unfold ic_db.
    eapply (wp_wr32 _ s2 w _ p2 (ino_off (w_fs w) inum + (40 + 4 * (n / fs_frag (w_fs w)))));
      [done|done|lia|lia|lia|]. intros s3 Hr3 _. apply wp_ret, (H0 s3 _ Hr3). by apply put_direct.
  - rewrite (proj2 (Z.ltb_ge _ 0)) by lia. destruct P4 as (path & Hp & E & Hlen & _).
    rewrite E in *. cbn [fst snd] in *. unfold NIADDR in Hlen.
    assert (path <> []) as Hne by (intros ->; unfold zlen in Hlen; cbn [length] in Hlen; lia).
    assert (0 < n) as Hn0 by (unfold NDADDR in *; destruct (Z.lt_trichotomy n 0) as [|[->|]];
      [destruct Hn; lia|rewrite Z.div_0_l in Hge by lia; lia|done]).
    apply wp_bnd. eapply wp_path_of; [done|done|]. cbv beta. apply wp_bnd. unfold ic_ib at 1.
    eapply (wp_ino_ptr _ s1 w inum p false (88 + 4 * (zlen path - 1))); [done|done|done|lia|lia| |].
    { unfold sizeof_icommon. lia. }
    fold (wval w (inum, 88 + 4 * (zlen path - 1), [])).
    destruct (Z.eqb_spec (ino_ptr (w_fs w) (w_disk w) inum (88 + 4 * (zlen path - 1))) 0) as [Ez|Nz];
      cbn [negb].
    + apply (wp_cidisk_indirect live Q s1 w inum n path x); try done. by apply Hwb.
    + apply (wp_cidisk_walk live Q (rev path) [] s1 w inum (88 + 4 * (zlen path - 1)) x); try done.
      intros Er. apply (f_equal (@rev _)) in Er. by rewrite rev_involutive in Er.
Qed.

(** Addresses after one block was mapped elsewhere. *)
Lemma remapped_address w w' inum n x :
  file_inv live w -> live inum -> frag_number w n ->
  remapped live w w' (block_place w inum (n / fs_frag (w_fs w))) x ->
  forall i m, live i -> frag_number w m -> address w' i m =
    if (i =? inum) && (m / fs_frag (w_fs w) =? n / fs_frag (w_fs w))
    then if x =? 0 then 0 else u32 (x + m mod fs_frag (w_fs w))
    else address w i m.
Proof.
  intros Hi Hl Hn [_ [G1 G2 G3] Hv] i m Him Hm. pose proof Hi as [Hw _ _].
  destruct (file_frag_block _ _ Hw n Hn) as [Hb _]. destruct (file_frag_block _ _ Hw m Hm) as [Hbm _].
  unfold address. rewrite !frag_of_place. cbv zeta. rewrite !G1.
  assert (block_place w' i (m / fs_frag (w_fs w)) = block_place w i (m / fs_frag (w_fs w))) as ->
    by (unfold block_place; by rewrite G2).
  rewrite Hv by by apply block_leaf.
  destruct (Z.eqb_spec i inum) as [->|Hne]; cbn [andb].
  - destruct (Z.eqb_spec (m / fs_frag (w_fs w)) (n / fs_frag (w_fs w))) as [->|Hne].
    + by rewrite decide_True.
    + rewrite decide_False; [done|]. unfold block_place. cbv zeta. intros [= E1 E2]. apply Hne.
      eapply slot_path_inj; [exact Hw|done|apply Hm|done|apply Hn|].
      by destruct (slot_path _ _), (slot_path _ _); cbn in *; subst.
  - rewrite decide_False; [done|]. unfold block_place. cbv zeta. intros [= E1 E2]. done.
Qed.

Lemma unmapped_address w w' :
  file_inv live w -> unmapped live w w' ->
  forall i m, live i -> frag_number w m -> address w' i m = address w i m.
Proof.
  intros Hi [_ [G1 G2 G3] Hv] i m Him Hm. pose proof Hi as [Hw _ _].
  unfold address. rewrite !frag_of_place. cbv zeta. rewrite !G1.
  assert (block_place w' i (m / fs_frag (w_fs w)) = block_place w i (m / fs_frag (w_fs w))) as ->
    by (unfold block_place; by rewrite G2).
  by rewrite Hv by by apply block_leaf.
Qed.

(** C4: cidisk_frag maps one block of one file to a new address: the
    fragments of that block are then at that address, and every other
    fragment of that and of every other file is where it was, also when index
    blocks at up to three levels had to be allocated, cleared and linked in on
    the way.  The result 1 means that an index block was needed and could not
    be had; then no fragment of any file moved.  The file system stays
    consistent: no index block is shared, lies over an inode or is free. *)
Theorem cidisk_frag_correct s w inum n x :
  rep s w -> file_inv live w -> live inum -> frag_number w n ->
  (NDADDR <= n / fs_frag (w_fs w) -> whole_blocks live w inum) -> data_addr w x ->
  wp (cidisk_frag n inum x) (fun r s' => exists w', rep s' w' /\ file_inv live w' /\ same_world w w' /\
    ((r = 0 /\ forall i m, live i -> frag_number w m -> address w' i m =
        if (i =? inum) && (m / fs_frag (w_fs w) =? n / fs_frag (w_fs w))
        then if x =? 0 then 0 else u32 (x + m mod fs_frag (w_fs w))
        else address w i m) \/
     (r = 1 /\ forall i m, live i -> frag_number w m -> address w' i m = address w i m))) s.
Proof.
  intros Hr Hi Hl Hn Hwb Hx. eapply wp_cidisk_frag; try done.
  - intros s' w' Hr' Hm. exists w'. split; [done|]. split; [apply Hm|]. split; [apply Hm|].
    left. split; [done|]. by apply remapped_address.
  - intros s' w' Hr' Hm. exists w'. split; [done|]. split; [apply Hm|]. split; [apply Hm|].
    right. split; [done|]. by apply unmapped_address.
Qed.

(** C6: ridisk_frag returns the address the block map gives the fragment, 0
    for a hole at any level, for every fragment number a file can have, and
    changes nothing. *)
Theorem ridisk_frag_correct s w inum n :
  rep s w -> file_inv live w -> live inum -> frag_number w n ->
  wp (ridisk_frag n inum) (fun r s' => r = address w inum n /\ rep s' w) s.
Proof. intros Hr Hi Hl Hn. by eapply wp_ridisk_frag; [apply Hi|..]. Qed.

(** C5: what cidisk_frag stored, ridisk_frag finds, and the lookup of any
    other fragment of any file gives what it gave before. *)
Theorem cidisk_ridisk s w inum n x i m :
  rep s w -> file_inv live w -> live inum -> frag_number w n ->
  (NDADDR <= n / fs_frag (w_fs w) -> whole_blocks live w inum) -> data_addr w x ->
  live i -> frag_number w m ->
  wp (r <- cidisk_frag n inum x ;; a <- ridisk_frag m i ;; ret (r, a)) (fun ra _ =>
    (ra.1 = 0 \/ ra.1 = 1) /\
    ra.2 = if (ra.1 =? 0) && (i =? inum) && (m / fs_frag (w_fs w) =? n / fs_frag (w_fs w))
           then if x =? 0 then 0 else u32 (x + m mod fs_frag (w_fs w))
           else address w i m) s.
Proof.
  intros Hr Hi Hl Hn Hwb Hx Hli Hm. apply wp_bnd.
  assert (forall w', same_world w w' -> frag_number w' m) as Hm'.
  { intros w' [G1 G2 _]. unfold frag_number, file_frag. rewrite G1, G2. exact Hm. }
  eapply wp_cidisk_frag; try done.
  - intros s1 w1 Hr1 Hmap. apply wp_bnd.
    eapply wp_ridisk_frag; [apply Hmap|done|by apply Hm', Hmap|]. intros s2 _. apply wp_ret. cbn [fst snd].
    split; [by left|]. cbn [Z.eqb andb]. fold (address w1 i m). by eapply remapped_address.
  - intros s1 w1 Hr1 Hmap. apply wp_bnd.
    eapply wp_ridisk_frag; [apply Hmap|done|by apply Hm', Hmap|]. intros s2 _. apply wp_ret. cbn [fst snd].
    split; [by right|]. cbn [Z.eqb andb]. fold (address w1 i m). by apply unmapped_address.
Qed.

End Map.

(** ** On the sample file: block 13, behind entry 1 of the index block *)

Lemma cidisk_frag_witness :
  wp (cidisk_frag 108 4 48) (fun r s' => exists w', rep s' w' /\ file_inv sample_live w' /\
    same_world sample_world w' /\
    ((r = 0 /\ forall i m, sample_live i -> frag_number sample_world m -> address w' i m =
        if (i =? 4) && (m / 8 =? 13) then if 48 =? 0 then 0 else u32 (48 + m mod 8)
        else address sample_world i m) \/
     (r = 1 /\ forall i m, sample_live i -> frag_number sample_world m ->
        address w' i m = address sample_world i m))) sample_machine.
Proof.
  apply (cidisk_frag_correct sample_live sample_machine sample_world 4 108 48).
  - apply sample_rep.
  - apply sample_file_inv.
  - reflexivity.
  - by vm_compute.
  - intros _. apply sample_whole.
  - right. by vm_compute.
Defined.

Lemma ridisk_frag_witness :
  wp (ridisk_frag 101 4) (fun r s' => r = 109 /\ rep s' sample_world) sample_machine.
Proof.
  apply (ridisk_frag_correct sample_live sample_machine sample_world 4 101).
  - apply sample_rep.
  - apply sample_file_inv.
  - reflexivity.
  - by vm_compute.
Defined.

Lemma cidisk_ridisk_witness :
  wp (r <- cidisk_frag 108 4 48 ;; a <- ridisk_frag 110 4 ;; ret (r, a)) (fun ra _ =>
    (ra.1 = 0 \/ ra.1 = 1) /\
    ra.2 = if (ra.1 =? 0) && (4 =? 4) && (110 / 8 =? 13) then if 48 =? 0 then 0 else u32 (48 + 110 mod 8)
           else address sample_world 4 110) sample_machine.
Proof.
  apply (cidisk_ridisk sample_live sample_machine sample_world 4 108 48 4 110).
  - apply sample_rep.
  - apply sample_file_inv.
  - reflexivity.
  - by vm_compute.
  - intros _. apply sample_whole.
  - right. by vm_compute.
  - reflexivity.
  - by vm_compute.
Defined.
