(* ===== verification/HandlerSample.v ===== *)
(** The concrete system of [FileSample] under the packet code: its handler
    and system calls obey the laws of [HandlerSpec]. *)

From S2P Require Import Prelude Bitmap Superblock Addresses Cg CgStore Alloc AllocWp AllocSpec.
From S2P Require Import AllocInv AllocTheorems CgCache CgCacheSpec Sample FileEnv Inode IndexPath.
From S2P Require Import FileSpec BlockMap BlockTree BlockWrite FileSample Handler HandlerSpec ReadSpec.
Local Open Scope bffs_scope.

#[export] Instance machine_handler : HandlerEnv machine := {
  he_handler := m_handler;
  he_set_handler := m_set_handler;
  room := 64;
  superblock_read := fun _ => true;
  motor_is_on := fun _ => 0;
  cache_item_dirty := fun _ => 0;
  cache_size := fun _ => 4;
  set_cache_size := fun _ s => s;
  cache_cg_size := fun _ => 2;
  set_cache_cg_size := fun _ s => s;
  stat_values := fun _ => [];
  open_device := ret 0;
  close_device := ret tt;
  motor_on := ret tt;
  motor_off := ret tt;
  find_superblock := ret 0;
  superblock_flush := ret 0;
  superblock_destroy := ret tt;
  open_cache := ret tt;
  close_cache := ret tt;
  cache_flush := ret 0;
  cache_cg_flush := ret 0;
  cache_full_invalidate := ret tt;
  cache_adjust := ret tt;
  cache_cg_adjust := ret tt }.

Definition machine_hview (h : handler) : FileView machine := {|
  fe_ok := fun s => machine_ok s /\ m_handler s = h;
  frag_view := @frag_view machine _ machine_view;
  frag_owns := @frag_owns machine _ machine_view;
  user_mem := @user_mem machine _ machine_view |}.

Lemma machine_hside h s s' :
  m_handler s' = m_handler s -> @file_side machine _ machine_view s s' ->
  @file_side machine _ (machine_hview h) s s'.
Proof.
  intros E [F1 F2 F3 F4 F5]. constructor; try done. intros [Hok Hh]. split; [by apply F1|by rewrite E].
Qed.

Lemma wp_lift_handler {A} (m : M (cgcache (Z -> cg) Z) A) s (P : A -> machine -> Prop) :
  wp (lift m) P s -> wp (lift m) (fun a s' => P a s' /\ m_handler s' = m_handler s) s.
Proof. unfold wp, lift. by destruct (m (m_cg s)) as [[a c]|]. Qed.

#[local] Obligation Tactic := idtac.

#[export] Program Instance machine_hlaws h : @FileEnvLaws machine _ (machine_hview h) machine_cg_laws.
Next Obligation. intros h s b i [Hok _]. by apply (fe_byte (H0 := machine_view)). Qed.
Next Obligation. intros h s a [Hok _]. by apply (fe_user_byte (H0 := machine_view)). Qed.
Next Obligation. intros h s b p w i [Hok _]. by apply (fe_load (H0 := machine_view)). Qed.
Next Obligation.
  intros h s b p i x [Hok Hh] Ho Hi Hx.
  destruct (fe_store (H0 := machine_view) s b p i x Hok Ho Hi Hx) as (G & Hok' & R).
  split; [exact G|]. split; [by split|exact R].
Qed.
Next Obligation.
  intros h s a x [Hok Hh] Ha Hx.
  destruct (fe_user_store (H0 := machine_view) s a x Hok Ha Hx) as (G & Hok' & R).
  split; [exact G|]. split; [by split|exact R].
Qed.
Next Obligation.
  intros h s b [Hok Hh] Hb. apply wp_ret. exists (frag_addr b). split; [done|]. split; [done|]. split; [done|].
  split; [done|]. split; [done|]. by split.
Qed.
Next Obligation.
  intros h s b rd [Hok Hh] Hb. apply wp_ret. exists (frag_addr b). split; [done|]. split; [done|]. split; [done|].
  split; [done|]. split; [done|]. by split.
Qed.
Next Obligation.
  intros h s k Hc [Hok Hh] Hk. eapply wp_mono; [apply wp_lift_handler, (fe_cache_cg (H0 := machine_view) s k Hc Hok Hk)|].
  intros r s' [Hs E]. by apply machine_hside.
Qed.
Next Obligation.
  intros h s k Hc [Hok Hh] Hk. eapply wp_mono; [apply wp_lift_handler, (fe_cache_cg_write (H0 := machine_view) s k Hc Hok Hk)|].
  intros r s' [Hs E]. by apply machine_hside.
Qed.
Next Obligation.
  intros h s k p c Hc [Hok Hh] Ho Hk. apply machine_hside; [done|].
  exact (fe_cgs_store (H0 := machine_view) s k p c Hc Hok Ho Hk).
Qed.
Next Obligation.
  intros h s f [Hok Hh] Hg Hr. apply machine_hside; [done|].
  exact (fe_set_fs (H0 := machine_view) s f Hok Hg Hr).
Qed.
Next Obligation.
  intros h s g [Hok Hh]. destruct (fe_put_globals (H0 := machine_view) s g Hok) as (G & Hok' & R).
  split; [exact G|]. split; [by split|exact R].
Qed.
Next Obligation.
  intros h s [Hok Hh]. apply wp_ret. split; [by vm_compute|]. split; reflexivity.
Qed.

#[export] Program Instance machine_handler_laws : HandlerLaws machine machine_hview.
Next Obligation. by intros h s [_ Hh]. Qed.
Next Obligation.
  intros h h' s [[M1 M2 M3] Hh]. cbv zeta. split; [by constructor|]. split; [|done]. split; [by constructor|done].
Qed.
Next Obligation. done. Qed.
Next Obligation. done. Qed.
Next Obligation. done. Qed.
Next Obligation. done. Qed.
Next Obligation.
  intros h s n [[M1 M2 [M3 M4]] Hh] Hn. unfold wp. cbn [FileEnv.AllocMem machine_env].
  destruct (Z.leb_spec (m_heap s + 4 * ((n + 3) / 4)) (2 ^ 32)).
  - split; [by constructor|]. assert (n <= 4 * ((n + 3) / 4)) by dlia. split.
    + constructor; try done.
      * intros _. split; [|done]. constructor; [done|done|]. cbn. split; [lia|]. zify_pow. dlia.
      * intros a Ha. split; [cbn in *; lia|done].
    + split; [lia|]. split; [done|]. split; [lia|]. intros a Ha. cbn. lia.
  - split; [by constructor|]. split; [|done]. by constructor.
Qed.
Next Obligation.
  intros h s p n Hok Hu. apply wp_ret. split; [by constructor|]. split; [done|]. done.
Qed.

#[export] Program Instance machine_direct h : @DirectLaws machine _ (machine_hview h) machine_cg_laws (machine_hlaws h) := {
  frag_direct := fun _ _ => True }.
Next Obligation. done. Qed.
Next Obligation. done. Qed.
Next Obligation.
  intros h s b Hok Hb. apply wp_ret. split; [by constructor|]. split; [done|]. split; [done|].
  by destruct (Z.even _).
Qed.
Next Obligation.
  intros h s p b k [[M1 M2 M3] Hh] Hk Hb Hbk _ Hu. revert Hu.
  lazymatch goal with |- context [k * ?F] => change F with (fs_fsize (cgs_fs (m_cg s))) end.
  assert (fs_fsize (cgs_fs (m_cg s)) = 1024) as -> by exact M2. intros Hu. apply wp_bnd, wp_modify, wp_ret.
  split; [by constructor|]. split.
  { split; [|done]. constructor; [|done|done]. intros a. cbn. unfold mem_copy. case_match; apply M1. }
  assert (p + k * 1024 <= 2 ^ 32) as Hp by (specialize (Hu (p + k * 1024 - 1) ltac:(lia)); cbn in Hu; lia).
  split; [done|]. split; [|split; [done|split; [done|split; [done|split]]]].
  - intros b' i. cbn. destruct (in_frag b' i) eqn:E; [|done]. apply in_frag_spec in E as [E1 E2].
    unfold mem_copy, frag_addr, in_u32 in *. rewrite (proj2 (Z.ltb_ge _ (p + k * 1024))) by lia. by rewrite andb_false_r.
  - intros a _ Ha. cbn. unfold mem_copy. destruct (Z.leb_spec p a), (Z.ltb_spec a (p + k * 1024)); done || lia.
  - intros _ i j Hi Hj. cbn. rewrite (proj2 (in_frag_spec (b + i) j)) by (unfold in_u32; lia).
    unfold mem_copy, frag_addr. rewrite (proj2 (Z.leb_le _ _)), (proj2 (Z.ltb_lt _ _)) by nia. cbn. f_equal. lia.
Qed.

(** Memory of the handler given by its longwords, from 0 up to 65536. *)
Definition mem_words (l : list (Z * Z)) (a : Z) : Z :=
  let i := a / 4 * 4 in
  match list_find (fun x => x.1 = i) l with
  | Some (_, (_, v)) => u8 (Z.shiftr v (8 * (3 - a mod 4)))
  | None => 0
  end.

Definition hmachine_of (V : Z -> Z -> Z) (l : list (Z * Z)) (h : handler) : machine :=
  Machine sample_state sample_globals
    (fun a => if (0 <=? a) && (a <? 65536) then mem_words l a else m_mem (machine_of V) a) 65536 h.

Definition hworld_of (V : Z -> Z -> Z) (l : list (Z * Z)) : world :=
  World sample_fs sample_view sample_globals V
    (fun a => if (0 <=? a) && (a <? 65536) then Some (mem_words l a) else None).

Lemma mem_words_range l a : 0 <= mem_words l a < 256.
Proof. unfold mem_words. case_match; [|lia]. destruct p as [i [j v]]. apply u8_range. Qed.

Lemma hrep_of V l h : disk_bytes V -> hrep (HV := machine_hview) h (hmachine_of V l h) (hworld_of V l).
Proof.
  intros Hd. destruct (rep_of V Hd) as [R1 [M1 M2 M3] R3 R4 R5]. constructor; try done.
  - assert (machine_ok (hmachine_of V l h)) as Hm; [|exact (conj Hm eq_refl)].
    constructor; [|exact M2|by vm_compute]. intros a. cbn [m_mem hmachine_of].
    destruct (_ && _); [apply mem_words_range|apply M1].
  - intros b i. change (w_disk (hworld_of V l) b i) with (w_disk (world_of V) b i). rewrite <- R4. cbn. destruct (in_frag b i) eqn:E; [|done].
    apply in_frag_spec in E as [Hb Hi]. unfold frag_addr, in_u32 in *.
    rewrite (proj2 (Z.ltb_ge (2 ^ 32 + 1024 * b + i) 65536)) by lia. by rewrite andb_false_r.
  - intros a x. cbn [w_user hworld_of]. destruct (_ && _) eqn:E; [|done]. intros [= <-].
    apply andb_true_iff in E as [E1 E2]. rewrite Z.leb_le in E1. rewrite Z.ltb_lt in E2. split; [cbn; lia|].
    cbn. by rewrite (proj2 (Z.leb_le _ _)), (proj2 (Z.ltb_lt _ _)) by lia.
Qed.

Lemma hworld_known V l p n : 0 <= p -> p + n <= 65536 -> ublock (w_user (hworld_of V l)) p n.
Proof.
  intros H1 H2 a Ha. cbn. rewrite (proj2 (Z.leb_le 0 a)), (proj2 (Z.ltb_lt a 65536)) by lia. by eexists.
Qed.
