(* ===== verification/ReadTheorems.v ===== *)
(** Theorems about reading files: file_read fills the caller's buffer with
    the bytes of the file, whichever way the fragments are fetched. *)

From S2P Require Import Prelude Bitmap Superblock Cg CgStore Alloc AllocWp Addresses FileEnv Inode Fread IndexPath FileSpec HandlerSpec BlockMap.
From S2P Require Import BlockTree BlockWrite ReadSpec Sample FileSample HandlerSample FileTheorems.
Local Open Scope bffs_scope.

(** Byte [k] of a file: holes read as zeros. *)
Definition file_byte (w : world) (inum k : Z) : Z :=
  let a := address w inum (k / fs_fsize (w_fs w)) in
  if a =? 0 then 0 else w_disk w a (k mod fs_fsize (w_fs w)).

Lemma frag_bytes_pos w : wf_files (w_fs w) (w_globals w) -> 0 < fs_fsize (w_fs w).
Proof.
  intros Hw. rewrite <- (wf_inode _ _ Hw). destruct (inopf_pos _ (wf_geo _ _ Hw)) as [HP _].
  unfold sizeof_icommon. lia.
Qed.

Lemma address_u32 w inum n : in_u32 (address w inum n).
Proof. unfold address, frag_of. cbv zeta. case_match; [done|apply u32_range]. Qed.

Lemma file_byte_at w inum n k :
  0 <= k < fs_fsize (w_fs w) -> file_byte w inum (n * fs_fsize (w_fs w) + k) =
  if address w inum n =? 0 then 0 else w_disk w (address w inum n) k.
Proof.
  intros Hk. unfold file_byte. rewrite Z.div_add_l, Z.div_small, Z.add_0_r by lia.
  by rewrite Z.add_comm, Z.mod_add, Z.mod_small by lia.
Qed.

Section Reading.
Context {S : Type} {FE : FileEnv S} {FV : FileView S} {CL : CgStoreLaws S} {FL : FileEnvLaws S} {DL : DirectLaws S}.

(** ** Whole fragments *)

Section Frags.
Context (w : world) (inum sfrag n buf : Z) (U0 : umem).
Context (Hw : wf_files (w_fs w) (w_globals w)) (Hn : forall i, 0 <= i < n -> frag_number w (sfrag + i)).
Abbreviation F := (fs_fsize (w_fs w)).

Definition frags_byte (k : Z) : Z := file_byte w inum (sfrag * F + k).
Abbreviation got U d := (filled U0 U buf (n * F) d frags_byte).

Lemma frags_byte_at i k : 0 <= k < F -> frags_byte (i * F + k) =
  if address w inum (sfrag + i) =? 0 then 0 else w_disk w (address w inum (sfrag + i)) k.
Proof.
  intros Hk. unfold frags_byte. rewrite <- (file_byte_at w inum (sfrag + i) k Hk). f_equal. lia.
Qed.

Lemma frag_u32 i : 0 <= i < n -> u32 (sfrag + i) = sfrag + i.
Proof. intros Hi. apply u32_small. destruct (Hn i Hi) as [H _]. unfold in_u32. zify_pow. lia. Qed.

Lemma wp_frag_lookup D (Q : Z -> S -> Prop) i s U :
  0 <= i < n -> drep D s (w_set_user U w) ->
  (forall s', drep D s' (w_set_user U w) -> Q (address w inum (sfrag + i)) s') ->
  wp (ridisk_frag (u32 (sfrag + i)) inum) Q s.
Proof.
  intros Hi Hr HQ. rewrite frag_u32 by done. eapply (wp_ridisk_direct D _ s (w_set_user U w)); [exact Hw|exact Hr|by apply Hn|exact HQ].
Qed.

(** One fragment copied or cleared. *)
Lemma frag_copied U U' i :
  0 <= i < n -> address w inum (sfrag + i) <> 0 -> got U (i * F) ->
  fills U U' (buf + i * F) F (fun k => w_disk w (address w inum (sfrag + i)) (0 + k)) -> got U' ((i + 1) * F).
Proof.
  intros Hi Ha Hf Hs. pose proof (frag_bytes_pos w Hw) as HF. rewrite Z.mul_add_distr_r, Z.mul_1_l.
  eapply filled_step; [exact Hf|exact Hs|done|nia|nia|nia|]. intros k Hk. rewrite frags_byte_at by done.
  by rewrite (proj2 (Z.eqb_neq _ 0) Ha).
Qed.

Lemma frag_cleared U U' i :
  0 <= i < n -> address w inum (sfrag + i) = 0 -> got U (i * F) ->
  fills U U' (buf + i * F) F (fun _ => 0) -> got U' ((i + 1) * F).
Proof.
  intros Hi Ha Hf Hs. pose proof (frag_bytes_pos w Hw) as HF. rewrite Z.mul_add_distr_r, Z.mul_1_l.
  eapply filled_step; [exact Hf|exact Hs|done|nia|nia|nia|]. intros k Hk. rewrite frags_byte_at by done.
  by rewrite Ha.
Qed.

Lemma got_block U i d : 0 <= i < n -> got U d -> ublock U (buf + i * F) F.
Proof.
  intros Hi Hf. pose proof (frag_bytes_pos w Hw). eapply ublock_sub; [apply Hf|nia|nia].
Qed.

Lemma wp_ua_read_loop (Q : option Z -> S -> Prop) m : forall i s U,
  m = Z.to_nat (n - i) -> 0 <= i <= n -> rep s (w_set_user U w) -> got U (i * F) ->
  (forall s' U', rep s' (w_set_user U' w) -> got U' (n * F) -> Q (Some (buf + n * F)) s') ->
  wp (ua_read_loop (upto i n 1) sfrag (buf + i * F) inum) Q s.
Proof.
  induction m as [|m IH]; intros i s U Hm Hi Hr Hf HQ.
  - rewrite upto_nil by lia. assert (i = n) as -> by lia. apply wp_ret. by eapply HQ.
  - pose proof (frag_bytes_pos w Hw) as HF. rewrite upto_cons by lia. cbn [ua_read_loop].
    apply wp_bnd. eapply wp_FSIZE; [exact Hr|]. cbn [w_fs w_set_user]. apply wp_bnd.
    eapply (wp_frag_lookup (fun _ => False)); [lia|apply drep_none, Hr|]. intros s1 Hr1.
    replace (buf + i * F + F) with (buf + (i + 1) * F) by lia.
    pose proof (got_block U i _ ltac:(lia) Hf) as Hb. destruct (Z.eqb_spec (address w inum (sfrag + i)) 0) as [E|E].
    + apply wp_bnd. eapply wp_memset_out; [exact Hr1|lia|done|exact Hb|]. intros s2 U2 Hr2 Hs2.
      eapply (IH (i + 1) s2 U2); [lia|lia|apply Hr2| |exact HQ]. eapply frag_cleared; [lia|done|done|exact Hs2].
    + apply wp_bnd. eapply wp_cache_frag; [apply Hr1|apply address_u32|]. intros p s2 Hr2 Ho. cbv iota. apply wp_bnd.
      eapply (wp_CopyMem_out (fun _ => False) _ s2 (w_set_user U w) _ p false 0);
        [apply drep_none, Hr2|exact Ho|lia|lia|lia|cbn; lia|exact Hb|].
      intros s3 U3 Hr3 Hs3. eapply (IH (i + 1) s3 U3); [lia|lia|apply Hr3| |exact HQ].
      eapply frag_copied; [lia|done|exact Hf|exact Hs3].
Qed.

(** ** Runs *)

(** The run that is still to be read when fragment [i] is looked at. *)
Definition run_dir (csfrag cefrag x : Z) : Prop := csfrag <> 0 /\ csfrag <= x <= cefrag.

Definition pending (i csfrag cefrag bstart : Z) (U : umem) : Prop :=
  (csfrag = 0 /\ cefrag = 0 /\ got U (i * F)) \/
  (0 < csfrag /\ exists j, 0 <= j < i /\ bstart = buf + j * F /\ cefrag = csfrag + (i - j) - 1 /\
     cefrag < 2 ^ 32 /\ (forall m, j <= m < i -> address w inum (sfrag + m) = csfrag + (m - j)) /\ got U (j * F)).

Context (Hsize : n * F < 2 ^ 32).

Lemma wp_read_run (D : Z -> Prop) (Q : bool -> S -> Prop) i csfrag cefrag bstart s U :
  0 <= i <= n -> drep D s (w_set_user U w) -> (forall x, run_dir csfrag cefrag x -> D x) ->
  pending i csfrag cefrag bstart U ->
  (forall s' U', drep D s' (w_set_user U' w) -> keeps s s' -> got U' (i * F) -> Q false s') ->
  (forall s' U' d, rep s' (w_set_user U' w) -> 0 <= d -> got U' d -> Q true s') ->
  wp (read_run bstart csfrag cefrag) Q s.
Proof.
  intros Hi Hr HD [(-> & -> & Hf)|(Hc & j & Hj & -> & -> & Hce & Ha & Hf)] HQ HE; unfold read_run.
  { apply wp_ret. eapply HQ; [exact Hr|by intros b q rw|exact Hf]. }
  pose proof (frag_bytes_pos w Hw) as HF. rewrite (proj2 (Z.eqb_neq csfrag 0)) by lia. apply wp_bnd.
  eapply wp_FSIZE; [apply Hr|]. cbn [w_fs w_set_user]. apply wp_bnd.
  replace (F * (csfrag + (i - j) - 1 - csfrag + 1)) with ((i - j) * F) by lia.
  rewrite u32_small by (unfold in_u32; zify_pow; nia).
  eapply (wp_data_read_direct _ _ s (w_set_user U w) _ csfrag (i - j)); [exact Hr|lia|lia|lia|cbn; lia|..].
  - intros x Hx. apply HD. split; lia.
  - eapply ublock_sub; [apply Hf|nia|cbn; nia].
  - intros s1 U1 Hr1 Hk1 Hs1. apply wp_ret. cbn [negb Z.eqb]. apply (HQ s1 U1); [exact Hr1|exact Hk1|].
    replace (i * F) with (j * F + (i - j) * F) by lia. cbn [w_fs w_set_user w_disk w_user] in Hs1.
    eapply filled_step; [exact Hf|exact Hs1|done|nia|nia|nia|]. intros k Hk.
    assert (0 <= k / F < i - j /\ 0 <= k mod F < F /\ k = k / F * F + k mod F) as (E1 & E2 & E3).
    { pose proof (Z.div_mod k F ltac:(lia)). pose proof (Z.mod_pos_bound k F HF).
      split; [split; [apply Z.div_pos; lia|apply Z.div_lt_upper_bound; lia]|]. lia. }
    replace (j * F + k) with ((j + k / F) * F + k mod F) by lia. rewrite frags_byte_at by done.
    rewrite Ha by lia. rewrite (proj2 (Z.eqb_neq _ 0)) by lia. f_equal. lia.
  - intros r s1 U1 Hr0 Hr1 Ho Hb. apply wp_ret. rewrite (proj2 (Z.eqb_neq r 0) Hr0). cbn [negb].
    eapply (HE s1 U1 (j * F)); [apply Hr1|nia|]. cbn [w_fs w_set_user w_user] in *. eapply filled_scribble; [exact Hf|exact Ho|exact Hb|nia|nia|lia|nia].
Qed.

Context (Hone : forall i, 0 <= i < n -> address w inum (sfrag + i) <> 1).

Lemma wp_gather_reads (Q : bool -> S -> Prop) m : forall i csfrag cefrag bstart s U,
  m = Z.to_nat (n - i) -> 0 <= i <= n ->
  drep (run_dir csfrag cefrag) s (w_set_user U w) -> pending i csfrag cefrag bstart U ->
  (forall s' U', rep s' (w_set_user U' w) -> got U' (n * F) -> Q false s') ->
  (forall s' U' d, rep s' (w_set_user U' w) -> 0 <= d -> got U' d -> Q true s') ->
  wp (gather_reads (upto i n 1) sfrag buf inum csfrag cefrag bstart) Q s.
Proof.
  induction m as [|m IH]; intros i csfrag cefrag bstart s U Hm Hi Hr Hp HQ HE.
  { rewrite upto_nil by lia. assert (i = n) as -> by lia. cbn [gather_reads].
    eapply (wp_read_run _ _ n); [lia|exact Hr|done|exact Hp| |exact HE]. intros s1 U1 Hr1 _. apply (HQ s1 U1), Hr1. }
  pose proof (frag_bytes_pos w Hw) as HF. rewrite upto_cons by lia. cbn [gather_reads].
  apply wp_bnd. eapply wp_FSIZE; [apply Hr|]. cbn [w_fs w_set_user]. apply wp_bnd.
  eapply wp_frag_lookup; [lia|exact Hr|]. intros s1 Hr1.
  (* what follows a fragment that was copied or cleared *)
  assert (forall s' U', drep (run_dir csfrag cefrag) s' (w_set_user U' w) -> got U' ((i + 1) * F) ->
    (csfrag = 0 -> cefrag = 0) ->
    wp (if csfrag =? 0 then gather_reads (upto (i + 1) n 1) sfrag buf inum csfrag cefrag bstart
        else gather_reads (upto (i + 1) n 1) sfrag buf inum 0 0 bstart) Q s') as Hnext.
  { intros s' U' Hr' Hf' Hz. destruct (Z.eqb_spec csfrag 0) as [E|E].
    - eapply (IH _ _ _ _ s' U'); [lia|lia|exact Hr'| |exact HQ|exact HE]. left. split; [done|]. split; [by apply Hz|done].
    - eapply (IH _ _ _ _ s' U'); [lia|lia| |left; done|exact HQ|exact HE].
      eapply drep_mono; [|exact Hr']. intros b [Hb _]. done. }
  assert (csfrag = 0 -> cefrag = 0) as Hz by (destruct Hp as [(_ & -> & _)|(? & _)]; [done|lia]).
  destruct (Z.eqb_spec (address w inum (sfrag + i)) 0) as [E|E].
  { apply wp_bnd. eapply (wp_read_run _ _ i); [lia|exact Hr1|done|exact Hp| |].
    - intros s2 U2 Hr2 _ Hf2. cbv iota. apply wp_bnd. eapply wp_memset_out; [exact Hr2|lia|done| |].
      { eapply got_block; [lia|exact Hf2]. }
      intros s3 U3 Hr3 Hs3. apply (Hnext s3 U3 Hr3); [|done]. eapply frag_cleared; [lia|done|exact Hf2|exact Hs3].
    - intros s2 U2 d Hr2 Hd Hf2. cbv iota. apply wp_ret. by eapply HE. }
  apply wp_bnd. eapply (wp_available _ _ s1 (w_set_user U w)); [exact Hr1|apply address_u32| |].
  - intros p s2 Hr2 Ho. cbv iota. apply wp_bnd. eapply (wp_read_run _ _ i); [lia|exact Hr2|done|exact Hp| |].
    + intros s3 U3 Hr3 Hk3 Hf3. cbv iota. apply wp_bnd.
      eapply (wp_CopyMem_out _ _ s3 (w_set_user U3 w) _ p false 0); [exact Hr3|by apply Hk3|lia|lia|lia|cbn; lia| |].
      { eapply got_block; [lia|exact Hf3]. }
      intros s4 U4 Hr4 Hs4. apply (Hnext s4 U4 Hr4); [|done]. eapply frag_copied; [lia|done|exact Hf3|exact Hs4].
    + intros s3 U3 d Hr3 Hd Hf3. cbv iota. apply wp_ret. by eapply HE.
  - intros s2 Hr2. cbv iota. pose proof (address_u32 w inum (sfrag + i)) as Hu. unfold in_u32 in Hu.
    destruct (Z.eqb_spec (address w inum (sfrag + i)) (u32 (cefrag + 1))) as [E1|E1].
    + (* the run grows *)
      destruct Hp as [(-> & -> & Hf)|(Hc & j & Hj & -> & -> & Hce & Ha & Hf)].
      { exfalso. apply (Hone i); [lia|]. by rewrite E1. }
      assert (cefrag' : csfrag + (i - j) - 1 + 1 < 2 ^ 32).
      { destruct (Z.eq_dec (csfrag + (i - j) - 1 + 1) (2 ^ 32)) as [E2|]; [|lia]. exfalso. apply E. rewrite E1, E2. done. }
      rewrite (u32_small (csfrag + (i - j) - 1 + 1)) in E1 by (unfold in_u32; lia).
      eapply (IH _ _ _ _ s2 U); [lia|lia| | |exact HQ|exact HE].
      * eapply drep_mono; [|exact Hr2]. intros b [Hb1 Hb2]. rewrite E1 in *. unfold run_dir.
        destruct (Z.eq_dec b (csfrag + (i - j) - 1 + 1)) as [->|]; [by right|left; split; [done|lia]].
      * right. split; [done|]. exists j. split; [lia|]. split; [done|]. split; [lia|]. split; [lia|]. split; [|done].
        intros k Hk. destruct (Z.eq_dec k i) as [->|]; [rewrite E1; lia|apply Ha; lia].
    + apply wp_bnd. eapply (wp_read_run _ _ i); [lia|exact Hr2|by left|exact Hp| |].
      * intros s3 U3 Hr3 _ Hf3. cbv iota. eapply (IH _ _ _ _ s3 U3); [lia|lia| | |exact HQ|exact HE].
        { eapply drep_mono; [|exact Hr3]. intros b [Hb1 Hb2]. right. lia. }
        right. split; [lia|]. exists i. split; [lia|]. split; [done|]. split; [lia|]. split; [lia|]. split; [|done].
        intros k Hk. assert (k = i) as -> by lia. lia.
      * intros s3 U3 d Hr3 Hd Hf3. cbv iota. apply wp_ret. by eapply HE.
Qed.

Lemma wp_file_frags_read (Q : Z -> S -> Prop) s U :
  0 < n -> rep s (w_set_user U w) -> got U 0 ->
  (forall r s' U', rep s' (w_set_user U' w) -> r <> 0 -> got U' (n * F) -> Q r s') ->
  (forall s' U' d, rep s' (w_set_user U' w) -> 0 <= d -> got U' d -> Q 0 s') ->
  wp (file_frags_read sfrag n buf inum) Q s.
Proof.
  intros Hn0 Hr Hf HQ HE. pose proof (frag_bytes_pos w Hw) as HF. unfold file_frags_read. rewrite (proj2 (Z.eqb_neq n 0)) by lia.
  apply wp_bnd. eapply wp_glob; [exact Hr|]. case_match.
  - unfold file_ua_frags_read. apply wp_bnd. replace buf with (buf + 0 * F) at 1 by lia.
    eapply (wp_ua_read_loop _ _ 0 s U); [reflexivity|lia|exact Hr|exact Hf|]. intros s1 U1 Hr1 Hf1. apply wp_ret.
    eapply (HQ _ s1 U1); [done|nia|done].
  - apply wp_bnd. eapply (wp_gather_reads _ _ 0 0 0 0 s U); [reflexivity|lia| | | |].
    + split; [exact Hr|]. by intros b [Hb _].
    + by left.
    + intros s1 U1 Hr1 Hf1. cbv iota. apply wp_bnd. eapply wp_FSIZE; [exact Hr1|]. apply wp_ret.
      eapply (HQ _ s1 U1); [done| |done]. cbn [w_fs w_set_user]. unfold s32. zify_pow. dlia.
    + intros s1 U1 d Hr1 Hd Hf1. cbv iota. apply wp_ret. by eapply HE.
Qed.

End Frags.

(** ** file_read *)

(** Byte offsets are split into fragments by a shift and a mask. *)
Record byte_geometry (f : fs) (gl : globals) : Prop := {
  bg_shift : 0 <= fs_fshift f /\ fs_fsize f = 2 ^ fs_fshift f;
  bg_mask : fs_lfmask gl = fs_fsize f - 1 }.

Lemma byte_split f gl x : byte_geometry f gl ->
  Z.land x (fs_lfmask gl) = x mod fs_fsize f /\ Z.shiftr x (fs_fshift f) = x / fs_fsize f.
Proof.
  intros [[H1 H2] H3]. rewrite H3, H2. split.
  - replace (2 ^ fs_fshift f - 1) with (Z.ones (fs_fshift f)) by (rewrite Z.ones_equiv; lia). by apply Z.land_ones.
  - by apply Z.shiftr_div_pow2.
Qed.

(** A fragment read in part. *)
Lemma wp_partial_frag_read (Q : Z -> S -> Prop) w U0 U p t d g frag o size s q :
  rep s (w_set_user U w) -> in_u32 frag -> 0 <= o -> 0 <= size < 2 ^ 32 -> o + size <= fs_fsize (w_fs w) ->
  filled U0 U p t d g -> q = p + d -> 0 <= d -> d + size <= t ->
  (forall k, 0 <= k < size -> w_disk w frag (o + k) = g (d + k)) ->
  (forall s' U', rep s' (w_set_user U' w) -> filled U0 U' p t (d + size) g -> Q size s') ->
  wp (partial_frag_read frag o size q) Q s.
Proof.
  intros Hr Hf Ho Hs Hos Hg -> Hd Ht Hb HQ. unfold partial_frag_read. apply wp_bnd.
  eapply wp_cache_frag; [exact Hr|done|]. intros b s1 Hr1 Ho1. cbv iota. apply wp_bnd.
  rewrite u32_small by (unfold in_u32; zify_pow; lia).
  eapply (wp_CopyMem_out (fun _ => False) _ s1 (w_set_user U w) _ b false o);
    [apply drep_none, Hr1|exact Ho1|done|lia|lia|exact Hos|eapply ublock_sub; [apply Hg|lia|lia]|].
  intros s2 U2 [Hr2 _] Hs2. apply wp_ret. eapply (HQ s2 U2); [exact Hr2|]. eapply filled_step; [exact Hg|exact Hs2|done|lia|lia|lia|done].
Qed.

Section FileRead.
Context (w : world) (inum sbyte n buf : Z).
Context (Hw : wf_files (w_fs w) (w_globals w)) (Hbg : byte_geometry (w_fs w) (w_globals w)).
Abbreviation FS := (fs_fsize (w_fs w)).
Context (Hs : 0 <= sbyte) (Hn0 : 0 <= n) (Hn : sbyte + n < 2 ^ 32).
Context (Hfrags : forall m, sbyte / FS <= m <= (sbyte + n) / FS -> frag_number w m /\ address w inum m <> 1).
(** Holes are read whole or not at all. *)
Context (Hholes : forall m, sbyte < (m + 1) * FS -> m * FS < sbyte + n -> address w inum m = 0 ->
  sbyte <= m * FS /\ (m + 1) * FS <= sbyte + n).

Definition read_byte (k : Z) : Z := file_byte w inum (sbyte + k).
Abbreviation done_ U d := (filled (w_user w) U buf n d read_byte).

Lemma read_frag_part m o d size : 0 <= o -> 0 < size -> o + size <= FS -> sbyte + d = m * FS + o -> 0 <= d -> d + size <= n ->
  0 < o \/ size < FS -> (0 < o -> d = 0) -> (o + size < FS -> d + size = n) ->
  forall k, 0 <= k < size -> w_disk w (address w inum m) (o + k) = read_byte (d + k).
Proof.
  intros Ho Hsz Hos E Hd Hdn Hp Hp1 Hp2 k Hk. unfold read_byte.
  replace (sbyte + (d + k)) with (m * FS + (o + k)) by lia. rewrite file_byte_at by lia.
  destruct (Z.eqb_spec (address w inum m) 0) as [Ea|]; [|done]. exfalso.
  destruct (Hholes m) as [H1 H2]; [nia|nia|done|]. destruct Hp; [specialize (Hp1 ltac:(lia)); lia|].
  destruct (Z.eq_dec o 0) as [->|]; [specialize (Hp2 ltac:(lia)); lia|specialize (Hp1 ltac:(lia)); lia].
Qed.

(** What follows the partial first fragment. *)
Lemma wp_read_rest (Q : Z -> S -> Prop) s U d sf :
  rep s (w_set_user U w) -> done_ U d -> 0 <= d <= n -> sbyte + d = sf * FS ->
  sbyte / FS <= sf -> sf <= (sbyte + n) / FS ->
  (forall s' U', rep s' (w_set_user U' w) -> done_ U' n -> Q n s') ->
  (forall s' U', rep s' (w_set_user U' w) -> done_ U' 0 -> Q 0 s') ->
  wp (let nffrags := u32 ((sbyte + n) / FS - sf) in
      main <- (if 0 <? nffrags then file_frags_read sf nffrags (buf + d) inum else ret 1) ;;
      if main =? 0 then ret 0
      else
        let buf := if 0 <? nffrags then buf + d + nffrags * FS else buf + d in
        if negb ((sbyte + n) mod FS =? 0) then
          frag <- ridisk_frag ((sbyte + n) / FS) inum ;;
          r <- partial_frag_read frag 0 ((sbyte + n) mod FS) buf ;;
          ret (u32 (n - (sbyte + n) mod FS + r))
        else ret n) Q s.
Proof.
  intros Hr Hd Hdn E H1 H2 HQ HE. pose proof (frag_bytes_pos w Hw) as HF.
  set (ef := (sbyte + n) / FS) in *. set (ep := (sbyte + n) mod FS).
  assert (sbyte + n = ef * FS + ep /\ 0 <= ep < FS) as [E2 Hep].
  { pose proof (Z.div_mod (sbyte + n) FS ltac:(lia)). pose proof (Z.mod_pos_bound (sbyte + n) FS HF).
    unfold ef, ep. lia. }
  assert (u32 (ef - sf) = ef - sf) as -> by (apply u32_small; unfold in_u32; zify_pow; nia). cbv zeta.
  (* the tail *)
  assert (forall s' U' m, m <> 0 -> rep s' (w_set_user U' w) -> done_ U' (d + (ef - sf) * FS) ->
    wp (if m =? 0 then ret 0
        else if negb (ep =? 0) then
          frag <- ridisk_frag ef inum ;;
          r <- partial_frag_read frag 0 ep (buf + (d + (ef - sf) * FS)) ;; ret (u32 (n - ep + r))
        else ret n) Q s') as Htail.
  { intros s1 U1 m Hm Hr1 Hd1. rewrite (proj2 (Z.eqb_neq m 0) Hm).
    assert (d + (ef - sf) * FS = n - ep) as E3 by lia. assert (0 <= n - ep) by nia. rewrite E3 in *.
    destruct (Z.eqb_spec ep 0) as [E4|E4]; cbn [negb].
    - apply wp_ret. eapply (HQ s1 U1); [done|]. by replace n with (n - ep) at 2 by lia.
    - apply wp_bnd. eapply (wp_ridisk_frag _ s1 (w_set_user U1 w)); [exact Hw|exact Hr1|apply Hfrags; lia|].
      intros s2 Hr2. fold (address w inum ef). apply wp_bnd.
      eapply (wp_partial_frag_read _ w _ U1 buf n (n - ep)); [exact Hr2|apply address_u32|lia|lia|lia|exact Hd1|lia|lia|lia| |].
      + apply (read_frag_part ef 0 (n - ep) ep); lia.
      + intros s3 U3 Hr3 Hd3. apply wp_ret. replace (n - ep + ep) with n in * by lia.
        rewrite u32_small by (unfold in_u32; zify_pow; lia). by eapply HQ. }
  apply wp_bnd. destruct (Z.ltb_spec 0 (ef - sf)) as [Hlt|Hge].
  - replace (buf + d + (ef - sf) * FS) with (buf + (d + (ef - sf) * FS)) by lia.
    assert (ublock U (buf + d) ((ef - sf) * FS)) as Hub by (eapply ublock_sub; [apply Hd|lia|nia]).
    eapply (wp_file_frags_read w inum sf (ef - sf) (buf + d) U Hw); [| | |lia|exact Hr|by apply filled_start| |].
    + intros i Hi. apply Hfrags. lia.
    + nia.
    + intros i Hi. apply Hfrags. lia.
    + intros r s1 U1 Hr1 Hr0 Hf1. eapply Htail; [exact Hr0|exact Hr1|].
      eapply filled_sub; [exact Hd|exact Hf1|lia|nia|lia|nia|]. intros k Hk. unfold frags_byte, read_byte. f_equal. lia.
    + intros s1 U1 e Hr1 He Hf1. cbn [Z.eqb]. apply wp_ret. eapply (HE s1 U1); [exact Hr1|].
      apply (filled_less _ _ _ _ (d + 0)); [lia|]. eapply filled_sub; [exact Hd| |lia| |..].
      * apply (filled_less _ _ _ _ e 0); [lia|exact Hf1].
      * nia.
      * nia.
      * nia.
      * lia.
  - apply wp_ret. replace (buf + d) with (buf + (d + (ef - sf) * FS)) by nia.
    eapply Htail; [done|exact Hr|]. by replace (d + (ef - sf) * FS) with d by nia.
Qed.

Lemma wp_read_phases (Q : Z -> S -> Prop) s :
  rep s w -> ublock (w_user w) buf n -> sbyte / FS <> (sbyte + n) / FS ->
  (forall s' U', rep s' (w_set_user U' w) -> done_ U' n -> Q n s') ->
  (forall s' U', rep s' (w_set_user U' w) -> done_ U' 0 -> Q 0 s') ->
  wp (read_phases (sbyte / FS) (sbyte mod FS) ((sbyte + n) / FS) ((sbyte + n) mod FS) n inum buf) Q s.
Proof.
  intros Hr Hb Hne HQ HE. pose proof (frag_bytes_pos w Hw) as HF.
  assert (rep s (w_set_user (w_user w) w)) as Hr0 by (by destruct w).
  pose proof (Z.div_le_mono sbyte (sbyte + n) FS HF ltac:(lia)) as Hle.
  pose proof (Z.div_mod sbyte FS ltac:(lia)) as Hdm. pose proof (Z.mod_pos_bound sbyte FS HF) as Hmb.
  pose proof (Z.div_mod (sbyte + n) FS ltac:(lia)) as Hdm2. pose proof (Z.mod_pos_bound (sbyte + n) FS HF) as Hmb2.
  pose proof (filled_start (w_user w) buf n read_byte Hb) as Hst.
  unfold read_phases. apply wp_bnd. eapply wp_FSIZE; [exact Hr|]. apply wp_bnd.
  destruct (Z.eqb_spec (sbyte mod FS) 0) as [E|E]; cbn [negb].
  - apply wp_ret. cbn [Z.eqb]. rewrite Z.add_0_r. replace buf with (buf + 0) by lia.
    eapply wp_read_rest; [exact Hr0|exact Hst|lia|lia|lia|lia|exact HQ|exact HE].
  - apply wp_bnd. eapply (wp_ridisk_frag _ s w); [exact Hw|exact Hr|apply Hfrags; lia|].
    intros s1 Hr1. fold (address w inum (sbyte / FS)).
    eapply (wp_partial_frag_read _ w (w_user w) (w_user w) buf n 0 read_byte);
      [by destruct w|apply address_u32|lia|split; [lia|nia]|lia|exact Hst|lia|lia|nia| |].
    + apply (read_frag_part (sbyte / FS) (sbyte mod FS) 0 (FS - sbyte mod FS)); try lia. nia.
    + intros s2 U2 Hr2 Hd2. cbn [Z.add] in Hd2. rewrite (proj2 (Z.eqb_neq (FS - sbyte mod FS) 0)) by lia.
      eapply wp_read_rest; [exact Hr2|exact Hd2|split; [lia|nia]|lia|lia|lia|exact HQ|exact HE].
Qed.

End FileRead.
(** The length of a file, as a ULONG. *)
Definition file_length (w : world) (inum : Z) : Z :=
  v32 (w_disk w) (ino_frag (w_fs w) inum) (ino_off (w_fs w) inum + 12).


End Reading.

(** ** Witness

    File 4 is 8192 bytes long; 6000 of them are read from 100 on: the rest
    of one fragment, four whole ones and the start of a sixth. *)

Definition read_files : Z -> Z -> Z := vput (vput32 sample_files 24 524 8192) 51 7 0x41.

Lemma read_files_bytes : disk_bytes read_files.
Proof.
  split.
  - intros b i. unfold read_files, vput32, vput16, vput. repeat case_match; try apply u8_range; try lia; apply sample_files_range.
  - intros b i E. unfold read_files, vput32, vput16.
    assert (forall b' j V x, in_frag b' j = true -> vput V b' j x b i = V b i) as Hp.
    { intros b' j V x E'. apply vput_ne. destruct (Z.eq_dec b b') as [->|]; [|by left].
      right. intros ->. by rewrite E in E'. }
    rewrite !Hp by by vm_compute. by apply sample_files_out.
Qed.

