(* ===== verification/InodeFree.v ===== *)
(** Releasing and initialising an inode: [inum_free] and [inum_sane] on the
    maps of the groups and on the disk. *)

From S2P Require Import Prelude Bitmap Superblock Addresses Cg CgStore Alloc AllocWp AllocSpec.
From S2P Require Import FragSummary AllocInv AllocTheorems FileEnv Inode InodeSpec IndexPath.
From S2P Require Import FileSpec BlockMap BlockTree BlockWrite Sample InodeTheorems FileSample.
Local Open Scope bffs_scope.

(** Bytes [o], ..., [o + n - 1] of fragment [b] become [x]. *)
Definition vfill (V : Z -> Z -> Z) (b o n x : Z) : Z -> Z -> Z :=
  fun b' i => if (b' =? b) && ((o <=? i) && (i <? o + n)) then x else V b' i.

Section Free.
Context {S : Type} {FE : FileEnv S} {FV : FileView S} {CL : CgStoreLaws S} {FL : FileEnvLaws S}.

(** Memory contents that agree. *)
Lemma rep_disk_ext s w V V' :
  (forall b i, V b i = V' b i) -> rep s (w_set_disk V w) -> rep s (w_set_disk V' w).
Proof. intros Hv [R1 R2 R3 R4 R5]. constructor; try done. intros b i. rewrite R4. apply Hv. Qed.

(** An inode wiped except for its generation. *)
Definition wiped (w : world) (inum : Z) : Z -> Z -> Z :=
  let b := ino_frag (w_fs w) inum in
  let o := ino_off (w_fs w) inum in
  vput32 (vfill (w_disk w) b o sizeof_icommon 0) b (o + 108) (v32 (w_disk w) b (o + 108)).

Lemma wp_wipe (Q : unit -> S -> Prop) s w inum p :
  wf_files (w_fs w) (w_globals w) -> rep s w -> frag_owns s (ino_frag (w_fs w) inum) p true ->
  (forall s', rep s' (w_set_disk (wiped w inum) w) -> Q tt s') ->
  wp (gen <- rd32 (ic_gen (p + ino_off (w_fs w) inum)) ;;
      memset (p + ino_off (w_fs w) inum) 0 sizeof_icommon ;;
      wr32 (ic_gen (p + ino_off (w_fs w) inum)) gen) Q s.
Proof.
  intros Hw Hr Ho HQ. pose proof (ino_off_bounds _ _ Hw inum) as Hb. unfold sizeof_icommon in *. unfold ic_gen.
  apply wp_bnd.
  eapply (wp_rd32 _ s w _ p true (ino_off (w_fs w) inum + 108)); [done|done|lia|lia|lia|]. cbv beta.
  apply wp_bnd. eapply (wp_memset _ s w _ p (ino_off (w_fs w) inum)); [done|done|done|lia|lia|lia|].
  intros s1 V Hr1 Hk HV.
  eapply (wp_wr32 _ s1 _ _ p (ino_off (w_fs w) inum + 108)); [done|by apply Hk|lia|lia|cbn; lia|].
  intros s2 Hr2 _. apply HQ. unfold wiped, sizeof_icommon. cbn [w_disk w_set_disk] in Hr2.
  eapply rep_disk_ext; [|exact Hr2]. intros b i. unfold vput32, vput16, vput. rewrite !HV. unfold vfill. done.
Qed.

Lemma wp_inum_free (Q : unit -> S -> Prop) s w inum (k := itog (w_fs w) inum) (i := inum mod fs_ipg (w_fs w))
    (dir := Z.land (v16 (w_disk w) (ino_frag (w_fs w) inum) (ino_off (w_fs w) inum)) IFMT =? IFDIR) :
  wf_files (w_fs w) (w_globals w) -> rep s w -> 0 <= k < fs_ncg (w_fs w) ->
  (forall s', rep s' (w_set_disk (wiped w inum)
       (w_set_cg (super_ino (w_fs w) k false dir) (vupd (w_cg w) k (group_ino (w_cg w k) i false dir)) w)) ->
     Q tt s') ->
  wp (inum_free inum) Q s.
Proof.
  intros Hw Hr Hk HQ. unfold inum_free. apply wp_bnd. eapply wp_inode_modify; [done|].
  intros p s0 Hr0 Ho0. cbv beta iota. apply wp_bnd. eapply wp_fs; [done|]. cbv beta zeta. fold k.
  pose (FLs := framed_laws s0). pose proof (holds_framed s0 w Hr0) as Hh0.
  pose proof (@holds_cgx S _ FLs _ _ _ k Hh0 Hk) as Hx.
  apply wp_bnd. eapply (@wp_cache_cg_write S _ FLs); [exact Hh0|done|].
  intros mycg s1 Hh1 _. cbv beta iota. apply wp_bnd. eapply (@wp_superblock S _ FLs); [apply Hh1|]. cbv beta.
  fold i. apply wp_bnd. eapply (@wp_upd_cg S _ FLs); [exact Hh1|done|done|]. intros s2 Hh2. cbv beta.
  apply wp_bnd. eapply (@wp_upd_cg S _ FLs); [exact Hh2|done|by rewrite vupd_eq|]. intros s3 Hh3. cbv beta.
  rewrite vupd_eq in Hh3. apply wp_bnd.
  destruct (adjust_super_geo (w_fs w) (fun s => csum_add_nifree s 1) k) as (G1 & G2 & _).
  eapply (@wp_upd_both S _ FLs); [exact Hh3|done|..]; rewrite ?vupd_eq, ?adjust_nifree_eq;
    [done|exact G1|exact G2|].
  intros s4 Hh4. cbv beta. cbn [fst snd] in Hh4.
  destruct (rep_framed s0 s4 w _ _ Hr0 (proj1 Hh4)) as [Hr4 Hk4].
  pose proof (ino_off_bounds _ _ Hw inum) as Hb. unfold sizeof_icommon in Hb.
  assert (ino_frag (w_fs w) inum = ino_frag (adjust_super (w_fs w) (fun s => csum_add_nifree s 1) k) inum /\
    ino_off (w_fs w) inum = ino_off (adjust_super (w_fs w) (fun s => csum_add_nifree s 1) k) inum) as [Ef Eo].
  { unfold ino_frag, inode_addr, ino_off. by rewrite G1. }
  apply wp_bnd. unfold ic_mode.
  eapply (wp_rd16 _ s4 _ _ p true (ino_off (w_fs w) inum)); [exact Hr4|by apply Hk4|lia|lia|cbn [w_fs w_set_cg]; rewrite G1; lia|].
  cbn [w_disk w_set_cg]. cbv beta. fold dir. apply wp_bnd.
  set (f1 := adjust_super (w_fs w) (fun s => csum_add_nifree s 1) k) in *.
  assert (forall s5, @holds S _ FLs s5 (super_ino (w_fs w) k false dir)
      (vupd (w_cg w) k (group_ino (w_cg w k) i false dir)) ->
    wp (gen <- rd32 (ic_gen (p + ino_off (w_fs w) inum)) ;;
      memset (p + ino_off (w_fs w) inum) 0 sizeof_icommon ;;
      wr32 (ic_gen (p + ino_off (w_fs w) inum)) gen) Q s5) as Hend.
  { intros s5 Hh5. destruct (rep_framed s0 s5 w _ _ Hr0 Hh5) as [Hr5 Hk5].
    destruct (super_ino_geo (w_fs w) k false dir) as [G5 _].
    pose (w5 := w_set_cg (super_ino (w_fs w) k false dir) (vupd (w_cg w) k (group_ino (w_cg w k) i false dir)) w).
    assert (ino_frag (w_fs w5) inum = ino_frag (w_fs w) inum /\
      ino_off (w_fs w5) inum = ino_off (w_fs w) inum) as [Ef5 Eo5].
    { unfold ino_frag, inode_addr, ino_off, w5. cbn [w_fs w_set_cg]. by rewrite G5. }
    pose proof (wp_wipe Q s5 w5 inum p (wf_files_geo _ _ G5 _ Hw) Hr5) as Hwp.
    rewrite Ef5, Eo5 in Hwp. apply Hwp; [by apply Hk5|]. intros s6 Hr6. apply HQ.
    unfold wiped in *. rewrite Ef5, Eo5 in Hr6. exact Hr6. }
  destruct dir.
  - destruct (adjust_super_geo f1 (fun s => csum_add_ndir s (-1)) k) as (G3 & G4 & _).
    eapply (@wp_upd_both S _ FLs); [exact Hh4|by rewrite G1|..]; rewrite ?vupd_eq, ?adjust_ndir_eq;
      [done|exact G3|exact G4|].
    intros s5 Hh5. cbv beta. cbn [fst snd] in Hh5. apply Hend.
    eapply (@holds_ext S _ FLs); [|apply Hh5]. intros j _. rewrite !vupd_vupd. done.
  - apply wp_ret, Hend. eapply (@holds_ext S _ FLs); [|apply Hh4]. intros j _. rewrite !vupd_vupd. done.
Qed.

(** [x] is the disk [w] outside inode [inum]. *)
Definition same_outside (w : world) (inum : Z) (V : Z -> Z -> Z) : Prop :=
  forall b i, b <> ino_frag (w_fs w) inum \/ i < ino_off (w_fs w) inum \/
    ino_off (w_fs w) inum + sizeof_icommon <= i -> V b i = w_disk w b i.

Lemma vfill_in V b o n x i : o <= i < o + n -> vfill V b o n x b i = x.
Proof.
  intros Hi. unfold vfill. rewrite Z.eqb_refl, (proj2 (Z.leb_le _ _)), (proj2 (Z.ltb_lt _ _)) by lia. done.
Qed.
Lemma vfill_out V b o n x b' i : b' <> b \/ i < o \/ o + n <= i -> vfill V b o n x b' i = V b' i.
Proof.
  intros Hi. unfold vfill. destruct (Z.eqb_spec b' b), (Z.leb_spec o i), (Z.ltb_spec i (o + n)); try done; lia.
Qed.

(** What is left of an inode that was released. *)
Record inode_wiped (w w' : world) (inum : Z) : Prop := {
  iw_gen : v32 (w_disk w') (ino_frag (w_fs w) inum) (ino_off (w_fs w) inum + 108) =
    v32 (w_disk w) (ino_frag (w_fs w) inum) (ino_off (w_fs w) inum + 108);
  iw_zero : forall j, 0 <= j < sizeof_icommon -> ~ 108 <= j < 112 ->
    w_disk w' (ino_frag (w_fs w) inum) (ino_off (w_fs w) inum + j) = 0;
  iw_rest : same_outside w inum (w_disk w') }.

Lemma wiped_inode s w w' inum : rep s w -> w_disk w' = wiped w inum -> inode_wiped w w' inum.
Proof.
  intros Hr E. constructor; rewrite E; unfold wiped; cbv zeta.
  - rewrite v32_vput32. apply u32_small. by eapply rep_u32.
  - intros j Hj Hn. rewrite vput32_ne by lia. apply vfill_in. lia.
  - intros b i Hbi. unfold sizeof_icommon in *. rewrite vput32_ne by lia. by apply vfill_out.
Qed.

(** C35: inum_free makes exactly its inode free: its bit in the map of its
    group, the counts of that group and the totals follow, for a directory
    the directory counts too; the inode is wiped on disk except for its
    generation number; no other inode, no fragment of the disk and no other
    byte changes. *)
Theorem inum_free_correct s w inum
    (dir := Z.land (v16 (w_disk w) (ino_frag (w_fs w) inum) (ino_off (w_fs w) inum)) IFMT =? IFDIR) :
  wf_files (w_fs w) (w_globals w) -> rep s w -> fs_inv (w_fs w) (w_cg w) -> inode_inv (w_fs w) (w_cg w) ->
  3 <= inum < fs_ipg (w_fs w) * fs_ncg (w_fs w) -> inode_used (w_fs w) (w_cg w) inum = true ->
  wp (inum_free inum) (fun _ s' => exists w', rep s' w' /\ same_world w w' /\
    fs_inv (w_fs w') (w_cg w') /\ inode_inv (w_fs w') (w_cg w') /\ inode_wiped w w' inum /\
    (forall x, 0 <= x < fs_ipg (w_fs w) * fs_ncg (w_fs w) ->
       inode_used (w_fs w') (w_cg w') x = if x =? inum then false else inode_used (w_fs w) (w_cg w) x) /\
    (forall d, frag_free (w_fs w') (w_cg w') d = frag_free (w_fs w) (w_cg w) d) /\
    (forall j, cs_ndir (cg_cs (w_cg w' j)) =
       if (j =? itog (w_fs w) inum) && dir then s32 (cs_ndir (cg_cs (w_cg w j)) - 1)
       else cs_ndir (cg_cs (w_cg w j)))) s.
Proof.
  intros Hw Hr Hfs Hino Hin Hu. pose proof (wf_geo _ _ Hw) as Hg. destruct (wg_ipg _ Hg) as [Hp _].
  assert (0 <= itog (w_fs w) inum < fs_ncg (w_fs w)) as Hk.
  { unfold itog. split; [apply Z.div_pos; lia|]. apply Z.div_lt_upper_bound; lia. }
  set (k := itog (w_fs w) inum) in *. set (i := inum mod fs_ipg (w_fs w)).
  assert (0 <= i < fs_ipg (w_fs w)) as Hi by (apply Z.mod_pos_bound; lia).
  assert (inum = i + k * fs_ipg (w_fs w)) as Ei.
  { unfold i, k, itog. pose proof (Z.div_mod inum (fs_ipg (w_fs w)) ltac:(lia)). lia. }
  eapply wp_inum_free; [done|done|done|]. intros s' Hr'. fold k i dir in Hr'.
  eexists. split; [exact Hr'|]. cbn [w_fs w_cg w_set_disk w_set_cg].
  destruct (super_ino_geo (w_fs w) k false dir) as [E _].
  split; [by constructor|]. split; [by apply fs_inv_ino|]. split.
  { apply inode_inv_ino; [done|done|done|done|exact Hu|]. intros Hk0 _. lia. }
  split; [by eapply wiped_inode|]. split.
  { intros x Hx. rewrite inode_used_ino by done. by rewrite <- Ei. }
  split.
  - intros d. unfold frag_free. rewrite E. unfold vupd.
    destruct (Z.eqb_spec (dtog (w_fs w) d) k) as [->|]; [|done]. unfold group_ino. by destruct dir.
  - intros j. unfold vupd. destruct (Z.eqb_spec j k) as [->|]; [|done].
    unfold group_ino. by destruct dir.
Qed.

(** A fresh inode: only mode, link count, times and generation are set. *)
Record inode_fresh (w w' : world) (inum mode nlink t : Z) : Prop := {
  if_mode : v16 (w_disk w') (ino_frag (w_fs w) inum) (ino_off (w_fs w) inum) = mode;
  if_nlink : v16 (w_disk w') (ino_frag (w_fs w) inum) (ino_off (w_fs w) inum + 2) = nlink;
  if_size : v32 (w_disk w') (ino_frag (w_fs w) inum) (ino_off (w_fs w) inum + 12) = 0;
  if_atime : v32 (w_disk w') (ino_frag (w_fs w) inum) (ino_off (w_fs w) inum + 16) = t;
  if_mtime : v32 (w_disk w') (ino_frag (w_fs w) inum) (ino_off (w_fs w) inum + 24) = t;
  if_ctime : v32 (w_disk w') (ino_frag (w_fs w) inum) (ino_off (w_fs w) inum + 32) = t;
  if_ptrs : forall off, ptr_off off -> ino_ptr (w_fs w) (w_disk w') inum off = 0;
  if_blocks : v32 (w_disk w') (ino_frag (w_fs w) inum) (ino_off (w_fs w) inum + 104) = 0;
  if_gen : v32 (w_disk w') (ino_frag (w_fs w) inum) (ino_off (w_fs w) inum + 108) =
    u32 (v32 (w_disk w) (ino_frag (w_fs w) inum) (ino_off (w_fs w) inum + 108) + 1);
  if_rest : same_outside w inum (w_disk w') }.

Lemma v32_vfill V b o n i : o <= i -> i + 4 <= o + n -> v32 (vfill V b o n 0) b i = 0.
Proof. intros H1 H2. unfold v32, v16. rewrite !vfill_in by lia. done. Qed.

(** The disk after [inum_sane] at time [t]. *)
Definition sane_disk (w : world) (inum mode nlink gen t : Z) : Z -> Z -> Z :=
  let b := ino_frag (w_fs w) inum in
  let o := ino_off (w_fs w) inum in
  vput32 (vput32 (vput32 (vput32 (vput16 (vput16 (vfill (w_disk w) b o sizeof_icommon 0) b o mode)
    b (o + 2) nlink) b (o + 108) (gen + 1)) b (o + 24) t) b (o + 16) t) b (o + 32) t.

Lemma sane_disk_fresh w w' inum mode nlink gen t :
  0 <= mode < 65536 -> 0 <= nlink < 65536 -> in_u32 t ->
  gen = s32 (v32 (w_disk w) (ino_frag (w_fs w) inum) (ino_off (w_fs w) inum + 108)) ->
  w_disk w' = sane_disk w inum mode nlink gen t -> inode_fresh w w' inum mode nlink t.
Proof.
  intros Hm Hn Ht Hgen E. constructor; rewrite E; unfold sane_disk; cbv zeta; unfold sizeof_icommon.
  1, 2: rewrite !v16_vput32_ne by lia.
  - rewrite v16_vput16_ne, v16_vput16 by lia. by apply u16_small.
  - rewrite v16_vput16. by apply u16_small.
  - rewrite !v32_vput32_ne, !v32_vput16_ne by lia. apply v32_vfill; lia.
  - rewrite v32_vput32_ne by lia. rewrite v32_vput32. by apply u32_small.
  - rewrite 2 v32_vput32_ne by lia. rewrite v32_vput32. by apply u32_small.
  - rewrite v32_vput32. by apply u32_small.
  - intros off (O1 & O2 & O3). unfold ino_ptr. rewrite !v32_vput32_ne, !v32_vput16_ne by lia.
    apply v32_vfill; lia.
  - rewrite !v32_vput32_ne, !v32_vput16_ne by lia. apply v32_vfill; lia.
  - rewrite 3 v32_vput32_ne by lia. rewrite v32_vput32, Hgen. unfold u32, s32. dlia.
  - intros b i Hb. unfold sizeof_icommon in Hb. rewrite !vput32_ne, !vput16_ne by lia. apply vfill_out. lia.
Qed.

Lemma wp_inum_sane (Q : unit -> S -> Prop) s w inum type :
  wf_files (w_fs w) (w_globals w) -> rep s w ->
  (forall s' t, in_u32 t ->
     rep s' (w_set_disk (sane_disk w inum (Z.lor (if type =? I_DIR then IFDIR else IFREG) mode_755)
       (if type =? I_DIR then 2 else 1)
       (s32 (v32 (w_disk w) (ino_frag (w_fs w) inum) (ino_off (w_fs w) inum + 108))) t) w) -> Q tt s') ->
  wp (inum_sane inum type) Q s.
Proof.
  intros Hw Hr HQ. pose proof (ino_off_bounds _ _ Hw inum) as Hb. unfold sizeof_icommon in Hb.
  unfold inum_sane, ic_gen, ic_mode, ic_nlink, ic_mtime, ic_atime, ic_ctime.
  apply wp_bnd. eapply wp_inode_modify; [done|]. intros p s1 Hr1 Ho1. cbv beta iota.
  apply wp_bnd. eapply (wp_rds32 _ s1 w _ p true (ino_off (w_fs w) inum + 108)); [done|done|lia|lia|lia|].
  cbv beta. set (gen := s32 _) in *. unfold sizeof_icommon.
  apply wp_bnd. eapply (wp_memset _ s1 w _ p (ino_off (w_fs w) inum)); [done|done|done|lia|lia|lia|].
  intros s2 V Hr2 Hk2 HV. set (o := ino_off (w_fs w) inum) in *. set (b := ino_frag (w_fs w) inum) in *.
  assert (rep s2 (w_set_disk (vfill (w_disk w) b o 128 0) w)) as Hr2'
    by (eapply rep_disk_ext; [|exact Hr2]; exact HV). clear Hr2. apply wp_bnd.
  assert (forall mode nlink, (forall s3,
      rep s3 (w_set_disk (vput16 (vput16 (vfill (w_disk w) b o 128 0) b o mode) b (o + 2) nlink) w) ->
      frag_owns s3 b p true -> wp (wr32 (p + o + 108) (gen + 1) ;; timeval <- unix_time ;;
        wr32 (p + o + 24) timeval ;; wr32 (p + o + 16) timeval ;; wr32 (p + o + 32) timeval) Q s3) ->
      wp (wr16 (p + o) mode ;; wr16 (p + o + 2) nlink) (fun _ s3 =>
        wp (wr32 (p + o + 108) (gen + 1) ;; timeval <- unix_time ;;
        wr32 (p + o + 24) timeval ;; wr32 (p + o + 16) timeval ;; wr32 (p + o + 32) timeval) Q s3) s2) as Hmode.
  { intros mode nlink Hk. apply wp_bnd.
    eapply (wp_wr16 _ s2 _ b p o); [exact Hr2'|by apply Hk2|done|lia|cbn [w_fs w_set_disk]; lia|].
    intros s3 Hr3 Hk3.
    eapply (wp_wr16 _ s3 _ b p (o + 2)); [exact Hr3|by apply Hk3, Hk2|lia|lia|cbn [w_fs w_set_disk]; lia|].
    intros s4 Hr4 Hk4. by apply Hk; [|apply Hk4, Hk3, Hk2]. }
  assert (forall mode nlink s3,
      (forall s' t, in_u32 t -> rep s' (w_set_disk (sane_disk w inum mode nlink gen t) w) -> Q tt s') ->
      rep s3 (w_set_disk (vput16 (vput16 (vfill (w_disk w) b o 128 0) b o mode) b (o + 2) nlink) w) ->
      frag_owns s3 b p true -> wp (wr32 (p + o + 108) (gen + 1) ;; timeval <- unix_time ;;
        wr32 (p + o + 24) timeval ;; wr32 (p + o + 16) timeval ;; wr32 (p + o + 32) timeval) Q s3) as Hrest.
  { intros mode nlink s3 HQ' Hr3 Ho3. apply wp_bnd.
    eapply (wp_wr32 _ s3 _ b p (o + 108)); [exact Hr3|done|lia|lia|cbn [w_fs w_set_disk]; lia|].
    intros s4 Hr4 Hk4. apply wp_bnd. eapply wp_unix_time; [exact Hr4|]. intros t s5 Ht Hr5 Hk5. cbv beta.
    apply wp_bnd.
    eapply (wp_wr32 _ s5 _ b p (o + 24)); [exact Hr5|by apply Hk5, Hk4|lia|lia|cbn [w_fs w_set_disk]; lia|].
    intros s6 Hr6 Hk6. apply wp_bnd.
    eapply (wp_wr32 _ s6 _ b p (o + 16)); [exact Hr6|by apply Hk6, Hk5, Hk4|lia|lia|cbn [w_fs w_set_disk]; lia|].
    intros s7 Hr7 Hk7.
    eapply (wp_wr32 _ s7 _ b p (o + 32)); [exact Hr7|by apply Hk7, Hk6, Hk5, Hk4|lia|lia|cbn [w_fs w_set_disk]; lia|].
    intros s8 Hr8 _. by apply (HQ' s8 t). }
  destruct (type =? I_DIR).
  - apply Hmode. intros s3 Hr3 Ho3. by eapply Hrest.
  - apply Hmode. intros s3 Hr3 Ho3. by eapply Hrest.
Qed.

(** Inum_sane makes its inode that of an empty file or directory: the
    type and mode 0755, one link (two for a directory), size, block count and
    all block pointers 0, the three times the clock's, the generation one
    higher; no byte outside that inode changes. *)
Theorem inum_sane_correct s w inum type :
  wf_files (w_fs w) (w_globals w) -> rep s w ->
  wp (inum_sane inum type) (fun _ s' => exists w' t, rep s' w' /\ in_u32 t /\
    w_fs w' = w_fs w /\ w_cg w' = w_cg w /\ same_world w w' /\
    inode_fresh w w' inum (if type =? I_DIR then 0x41ed else 0x81ed) (if type =? I_DIR then 2 else 1) t) s.
Proof.
  intros Hw Hr. eapply wp_inum_sane; [done|done|]. intros s' t Ht Hr'. eexists _, t.
  split; [exact Hr'|]. split; [done|]. split; [done|]. split; [done|]. split; [by constructor|].
  destruct (type =? I_DIR); (eapply sane_disk_fresh; [| |exact Ht|reflexivity|reflexivity]); by vm_compute.
Qed.

End Free.

Lemma inum_free_witness :
  wp (inum_free 4) (fun _ s' => exists w', rep s' w' /\ same_world sample_world w' /\
    fs_inv (w_fs w') (w_cg w') /\ inode_inv (w_fs w') (w_cg w') /\ inode_wiped sample_world w' 4 /\
    (forall x, 0 <= x < 128 ->
       inode_used (w_fs w') (w_cg w') x = if x =? 4 then false else inode_used sample_fs sample_view x) /\
    (forall d, frag_free (w_fs w') (w_cg w') d = frag_free sample_fs sample_view d) /\
    (forall j, cs_ndir (cg_cs (w_cg w' j)) =
       if (j =? 0) && false then s32 (cs_ndir (cg_cs (sample_view j)) - 1)
       else cs_ndir (cg_cs (sample_view j)))) sample_machine.
Proof.
  apply (inum_free_correct sample_machine sample_world 4).
  - apply sample_wf_files.
  - apply sample_rep.
  - apply sample_inv.
  - apply sample_inode_inv.
  - by vm_compute.
  - by vm_compute.
Defined.

Lemma inum_sane_witness :
  wp (inum_sane 5 I_DIR) (fun _ s' => exists w' t, rep s' w' /\ in_u32 t /\
    w_fs w' = sample_fs /\ w_cg w' = sample_view /\ same_world sample_world w' /\
    inode_fresh sample_world w' 5 0x41ed 2 t) sample_machine.
Proof.
  apply (inum_sane_correct sample_machine sample_world 5 I_DIR).
  - apply sample_wf_files.
  - apply sample_rep.
Defined.
