(* ===== verification/DirFormat.v ===== *)
(** The format of directories: the entries of a fragment as a list, read off
    the disk, a whole directory as the list of its fragments' lists, and the
    searches and updates of [dir.c] on such lists. *)

From S2P Require Import Prelude Bitmap Superblock FileEnv Dir FileSpec BlockMap.
Local Open Scope bffs_scope.

(** ** Entries *)

Record dent := Dent {
  de_off : Z;                          (* in the fragment *)
  de_ino : Z;
  de_len : Z;
  de_type : Z;
  de_name : list Z }.

#[export] Instance dent_eq_dec : EqDecision dent.
Proof. solve_decision. Defined.

Fixpoint bytes (V : Z -> Z -> Z) (b o : Z) (n : nat) : list Z :=
  match n with
  | O => []
  | Datatypes.S n => V b o :: bytes V b (o + 1) n
  end.

Definition dent_at (V : Z -> Z -> Z) (b o : Z) : dent :=
  Dent o (v32 V b o) (v16 V b (o + 4)) (V b (o + 6)) (bytes V b (o + 8) (Z.to_nat (V b (o + 7)))).

(** The bytes an entry needs for its name. *)
Definition de_size (d : dent) : Z := UFS_DIRECTSIZ (zlen (de_name d)).

Definition live (d : dent) : bool := negb (de_ino d =? 0).

(** Characters of a C string. *)
Definition c_chars (str : list Z) : bool := forallb (fun c => (0 <? c) && (c <? 256)) str.

(** An entry has room for its name, ends in its directory block and in the
    fragment's entries, and its name is a string. *)
Definition dent_ok (V : Z -> Z -> Z) (b e : Z) (d : dent) : bool :=
  (de_size d <=? de_len d) && (de_len d mod 4 =? 0) &&
  (de_off d mod DIRBLKSIZ + de_len d <=? DIRBLKSIZ) && (de_off d + de_len d <=? e) &&
  (V b (de_off d + 8 + zlen (de_name d)) =? 0) && c_chars (de_name d).

(** The entries of fragment [b] from offset [o] to [e]. *)
Fixpoint listing (V : Z -> Z -> Z) (b o e : Z) (l : list dent) : bool :=
  match l with
  | [] => o =? e
  | d :: l =>
      bool_decide (d = dent_at V b o) && dent_ok V b e d && listing V b (o + de_len d) e l
  end.

Lemma UFS_DIRECTSIZ_eq n : 0 <= n -> UFS_DIRECTSIZ n = 8 + 4 * ((n + 4) / 4).
Proof.
  intros Hn. unfold UFS_DIRECTSIZ, sizeof_direct, MAXNAMLEN. rewrite <- Z.ldiff_land.
  change 3 with (Z.ones 2). rewrite Z.ldiff_ones_r, Z.shiftr_div_pow2, Z.shiftl_mul_pow2 by lia.
  change (2 ^ 2) with 4. replace (n + 1 + Z.ones 2) with (n + 4) by (change (Z.ones 2) with 3; lia). lia.
Qed.

Lemma entry_needed_eq name : entry_needed name = 8 + 4 * ((zlen name + 3) / 4).
Proof.
  unfold entry_needed, sizeof_direct, MAXNAMLEN. rewrite <- Z.ldiff_land.
  change 3 with (Z.ones 2). rewrite Z.ldiff_ones_r, Z.shiftr_div_pow2, Z.shiftl_mul_pow2 by lia.
  change (2 ^ 2) with 4. change (Z.ones 2) with 3.
  replace (zlen name + (8 + (255 + 1)) - 255 - 1 + 3) with (zlen name + 3 + 2 * 4) by lia.
  rewrite Z.div_add by lia. lia.
Qed.

Lemma length_bytes V b o n : length (bytes V b o n) = n.
Proof. revert o. induction n as [|n IH]; intros o; cbn; [done|]. by rewrite IH. Qed.

Lemma bytes_ext V V' b o n :
  (forall i, o <= i < o + Z.of_nat n -> V' b i = V b i) -> bytes V' b o n = bytes V b o n.
Proof.
  revert o. induction n as [|n IH]; intros o H; cbn; [done|]. rewrite H by lia.
  rewrite IH; [done|]. intros i Hi. apply H. lia.
Qed.

(** What [dent_ok] says. *)
Record dent_spec (V : Z -> Z -> Z) (b e : Z) (d : dent) : Prop := {
  ds_size : 12 <= de_size d <= de_len d;
  ds_name : zlen (de_name d) + 9 <= de_size d;
  ds_align : de_len d mod 4 = 0;
  ds_block : de_off d mod DIRBLKSIZ + de_len d <= DIRBLKSIZ;
  ds_end : de_off d + de_len d <= e;
  ds_nul : V b (de_off d + 8 + zlen (de_name d)) = 0;
  ds_chars : c_chars (de_name d) = true }.

Lemma de_size_bounds d :
  12 <= de_size d /\ zlen (de_name d) + 9 <= de_size d <= zlen (de_name d) + 12 /\ de_size d mod 4 = 0.
Proof.
  unfold de_size. pose proof (zlen_nonneg (de_name d)) as H. rewrite UFS_DIRECTSIZ_eq by done.
  revert H. generalize (zlen (de_name d)). intros n H. split; [dlia|]. split; [dlia|].
  rewrite Z.add_comm, Z.mul_comm, Z.add_mod, Z.mod_mul by lia. done.
Qed.

Lemma dent_ok_spec V b e d : dent_ok V b e d = true <-> dent_spec V b e d.
Proof.
  unfold dent_ok. rewrite !andb_true_iff, !Z.leb_le, !Z.eqb_eq.
  pose proof (de_size_bounds d) as (H1 & H2 & _). split.
  - intros (((((A & B) & C) & D) & E) & F). constructor; try done; lia.
  - intros [A A' B C D E F]. repeat split; try done; lia.
Qed.

Lemma listing_cons V b o e d l :
  listing V b o e (d :: l) = true <->
  d = dent_at V b o /\ dent_spec V b e d /\ listing V b (o + de_len d) e l = true.
Proof.
  cbn [listing]. rewrite !andb_true_iff, bool_decide_eq_true, dent_ok_spec. tauto.
Qed.

(** Every entry of a listing. *)
Lemma listing_elem V b o e l d :
  0 <= o -> listing V b o e l = true -> d ∈ l ->
  d = dent_at V b (de_off d) /\ dent_spec V b e d /\ o <= de_off d.
Proof.
  revert o. induction l as [|a l IH]; intros o Ho Hl Hd; [by apply not_elem_of_nil in Hd|].
  apply listing_cons in Hl as (Ea & Hs & Hl). apply elem_of_cons in Hd as [->|Hd].
  - rewrite Ea. split; [done|]. split; [by rewrite <- Ea|cbn; lia].
  - pose proof (ds_size _ _ _ _ Hs). destruct (IH (o + de_len a)) as (H1 & H2 & H3); [lia|done|done|].
    split; [done|]. split; [done|lia].
Qed.

Lemma listing_length V b o e l :
  listing V b o e l = true -> o <= e /\ Z.of_nat (length l) <= e - o.
Proof.
  revert o. induction l as [|d l IH]; intros o Hl; cbn [length].
  - cbn in Hl. lia.
  - apply listing_cons in Hl as (_ & Hs & Hl). apply IH in Hl. pose proof (ds_size _ _ _ _ Hs). lia.
Qed.

Lemma dent_at_iff V b o d :
  d = dent_at V b o <->
  de_off d = o /\ de_ino d = v32 V b o /\ de_len d = v16 V b (o + 4) /\ de_type d = V b (o + 6) /\
  de_name d = bytes V b (o + 8) (Z.to_nat (V b (o + 7))).
Proof.
  split; [by intros ->|]. destruct d. cbn. unfold dent_at. intros (-> & -> & -> & -> & ->). done.
Qed.

Lemma dent_at_namlen V b o d : d = dent_at V b o -> zlen (de_name d) = Z.of_nat (Z.to_nat (V b (o + 7))).
Proof. intros ->. unfold zlen, dent_at. cbn [de_name]. by rewrite length_bytes. Qed.

(** Only the bytes from [o] to [e] count. *)
Lemma dent_at_ext V V' b o e d :
  d = dent_at V b o -> dent_spec V b e d -> (forall i, o <= i < o + de_len d -> V' b i = V b i) ->
  dent_at V' b o = d /\ dent_spec V' b e d.
Proof.
  intros Ed [A A' B C D E F] H. pose proof (zlen_nonneg (de_name d)) as Hn.
  assert (de_off d = o) as Eo by by rewrite Ed.
  pose proof (dent_at_namlen _ _ _ _ Ed) as En.
  split.
  - rewrite Ed. unfold dent_at. rewrite (H (o + 7)), (H (o + 6)) by lia. f_equal.
    + apply v32_ext. intros j Hj. apply H. lia.
    + unfold v16. rewrite !H by lia. done.
    + apply bytes_ext. intros i Hi. apply H. lia.
  - constructor; try done. rewrite <- E. apply H. lia.
Qed.

Lemma listing_ext V V' b o e l :
  (forall i, o <= i < e -> V' b i = V b i) -> listing V b o e l = true -> listing V' b o e l = true.
Proof.
  revert o. induction l as [|d l IH]; intros o H Hl; [done|].
  apply listing_cons in Hl as (Ed & Hs & Hl). pose proof (ds_size _ _ _ _ Hs).
  pose proof (ds_end _ _ _ _ Hs). assert (de_off d = o) as Eo by by rewrite Ed.
  destruct (dent_at_ext V V' b o e d Ed Hs) as [E1 E2]; [intros i Hi; apply H; lia|].
  apply listing_cons. split; [done|]. split; [done|]. apply IH; [|done]. intros i Hi. apply H. lia.
Qed.

Lemma dent_spec_end V b e e' d : de_off d + de_len d <= e' -> dent_spec V b e d -> dent_spec V b e' d.
Proof. intros H [A A' B C D E F]. by constructor. Qed.

Lemma listing_app V b o e l1 l2 :
  listing V b o e (l1 ++ l2) = true <->
  exists m, m <= e /\ listing V b o m l1 = true /\ listing V b m e l2 = true.
Proof.
  revert o. induction l1 as [|d l1 IH]; intros o; cbn [app].
  - split.
    + intros Hl. exists o. pose proof (listing_length _ _ _ _ _ Hl). split; [lia|].
      split; [apply Z.eqb_refl|done].
    + intros (m & _ & Hm & Hl). cbn in Hm. apply Z.eqb_eq in Hm. by rewrite Hm.
  - rewrite listing_cons. split.
    + intros (Ed & Hs & Hl). apply IH in Hl as (m & A & B & C). exists m. split; [done|]. split; [|done].
      apply listing_cons. split; [done|]. split; [|done]. eapply dent_spec_end; [|done].
      pose proof (listing_length _ _ _ _ _ B). assert (de_off d = o) by by rewrite Ed. lia.
    + intros (m & A & B & C). apply listing_cons in B as (Ed & Hs & B). split; [done|].
      split; [|apply IH; by exists m]. eapply dent_spec_end; [|done]. pose proof (ds_end _ _ _ _ Hs). lia.
Qed.

(** ** Updates *)

Definition set_len (n : Z) (d : dent) : dent := Dent (de_off d) (de_ino d) n (de_type d) (de_name d).
Definition set_ino (n : Z) (d : dent) : dent := Dent (de_off d) n (de_len d) (de_type d) (de_name d).

Lemma listing_one V b o e d :
  listing V b o e [d] = true <-> d = dent_at V b o /\ dent_spec V b e d /\ o + de_len d = e.
Proof. rewrite listing_cons. cbn [listing]. by rewrite Z.eqb_eq. Qed.

(** The entries in the middle replaced. *)
Lemma listing_replace V V' b o e l1 mid mid' l2 :
  listing V b o e (l1 ++ mid ++ l2) = true ->
  (forall m1 m2, o <= m1 -> m1 <= m2 -> m2 <= e -> listing V b m1 m2 mid = true ->
     listing V' b m1 m2 mid' = true /\
     (forall i, 0 <= i < m1 \/ m2 <= i < e -> V' b i = V b i)) ->
  0 <= o -> listing V' b o e (l1 ++ mid' ++ l2) = true.
Proof.
  intros Hl Hmid Ho. apply listing_app in Hl as (m1 & A1 & B1 & Hl).
  apply listing_app in Hl as (m2 & A2 & B2 & C2).
  pose proof (listing_length _ _ _ _ _ B1). pose proof (listing_length _ _ _ _ _ B2).
  destruct (Hmid m1 m2 ltac:(lia) ltac:(lia) A2 B2) as [E1 E2].
  apply listing_app. exists m1. split; [done|]. split.
  { eapply listing_ext; [|exact B1]. intros i Hi. apply E2. lia. }
  apply listing_app. exists m2. split; [done|]. split; [done|].
  eapply listing_ext; [|exact C2]. intros i Hi. apply E2. lia.
Qed.

(** Another inode number. *)
Lemma listing_set_ino V b o e l1 d l2 n :
  0 <= o -> in_u32 n -> listing V b o e (l1 ++ d :: l2) = true ->
  listing (vput32 V b (de_off d) n) b o e (l1 ++ set_ino n d :: l2) = true.
Proof.
  intros Ho Hn Hl. apply (listing_replace V _ b o e l1 [d] [set_ino n d] l2 Hl); [|done].
  intros m1 m2 H1 H2 H3 Hd. apply listing_one in Hd as (Ed & Hs & El). pose proof (ds_size _ _ _ _ Hs).
  assert (de_off d = m1) as Eo by by rewrite Ed. split.
  - apply listing_one. split; [|split; [|done]].
    + pose proof (dent_at_namlen _ _ _ _ Ed) as En. pose proof (ds_name _ _ _ _ Hs).
      apply dent_at_iff in Ed as (_ & _ & E3 & E4 & E5). apply dent_at_iff. rewrite Eo.
      rewrite v32_vput32, u32_small, v16_vput32_ne, !vput32_ne by (done || lia).
      repeat split; try done. cbn [set_ino de_name]. rewrite E5. symmetry.
      apply bytes_ext. intros i Hi. apply vput32_ne. lia.
    + destruct Hs as [A A' B C D E F]. constructor; try done. cbn [set_ino de_off de_name].
      pose proof (zlen_nonneg (de_name d)). rewrite vput32_ne by lia. done.
  - intros i Hi. apply vput32_ne. lia.
Qed.

(** The entry [d] joined to the one before it, in the same block. *)
Lemma listing_join V b o e l1 p d l2 :
  0 <= o -> de_off d mod DIRBLKSIZ <> 0 -> listing V b o e (l1 ++ p :: d :: l2) = true ->
  listing (vput16 V b (de_off p + 4) (de_len p + de_len d)) b o e
    (l1 ++ set_len (de_len p + de_len d) p :: l2) = true.
Proof.
  intros Ho Hb Hl. apply (listing_replace V _ b o e l1 [p; d] [set_len (de_len p + de_len d) p] l2 Hl); [|done].
  intros m1 m2 H1 H2 H3 Hpd. apply listing_cons in Hpd as (Ep & Hp & Hd).
  apply listing_one in Hd as (Ed & Hd & El). pose proof (ds_size _ _ _ _ Hp). pose proof (ds_size _ _ _ _ Hd).
  assert (de_off p = m1) as Eo by by rewrite Ep. assert (de_off d = m1 + de_len p) as Eo' by by rewrite Ed.
  assert (de_off p mod DIRBLKSIZ + (de_len p + de_len d) <= DIRBLKSIZ) as Hblk.
  { pose proof (ds_block _ _ _ _ Hp). pose proof (ds_block _ _ _ _ Hd). rewrite Eo' in *. rewrite Eo in *.
    unfold DIRBLKSIZ in *. clear -Hb H4 H5. dlia. }
  split.
  - apply listing_one. split; [|split; [|cbn; lia]].
    + pose proof (dent_at_namlen _ _ _ _ Ep) as En. pose proof (ds_name _ _ _ _ Hp).
      apply dent_at_iff in Ep as (_ & E2 & _ & E4 & E5). apply dent_at_iff. rewrite Eo.
      unfold DIRBLKSIZ in Hblk. pose proof (Z.mod_pos_bound (de_off p) 512 ltac:(lia)).
      rewrite v32_vput16_ne, v16_vput16, u16_small, !vput16_ne by lia.
      repeat split; try done. cbn [set_len de_name]. rewrite E5. symmetry.
      apply bytes_ext. intros i Hi. apply vput16_ne. lia.
    + destruct Hp as [A A' B C D E F]. constructor; cbn [set_len de_off de_name de_len]; try done.
      * unfold de_size in *. cbn [set_len de_name]. lia.
      * pose proof (ds_align _ _ _ _ Hd). rewrite Z.add_mod, B by lia. rewrite H4. done.
      * lia.
      * pose proof (zlen_nonneg (de_name p)). rewrite vput16_ne by lia. done.
  - intros i Hi. apply vput16_ne. lia.
Qed.

(** The entry [d] cut to what its name needs, and another behind it. *)
Lemma listing_split V V' b o e l1 d x l2 :
  0 <= o -> listing V b o e (l1 ++ d :: l2) = true ->
  de_off x = de_off d + de_size d -> de_len x = de_len d - de_size d -> de_size x <= de_len x ->
  c_chars (de_name x) = true ->
  dent_at V' b (de_off x) = x -> V' b (de_off x + 8 + zlen (de_name x)) = 0 ->
  v16 V' b (de_off d + 4) = de_size d ->
  (forall i, i <> de_off d + 4 -> i <> de_off d + 5 -> i < de_off x \/ de_off d + de_len d <= i ->
     V' b i = V b i) ->
  listing V' b o e (l1 ++ set_len (de_size d) d :: x :: l2) = true.
Proof.
  intros Ho Hl Ex Lx Sx Cx Dx Nx Rd HV.
  apply (listing_replace V _ b o e l1 [d] [set_len (de_size d) d; x] l2 Hl); [|done].
  intros m1 m2 H1 H2 H3 Hd. apply listing_one in Hd as (Ed & Hs & El). pose proof (ds_size _ _ _ _ Hs).
  assert (de_off d = m1) as Eo by by rewrite Ed. pose proof (de_size_bounds d) as (_ & Hn & Hm).
  pose proof (de_size_bounds x) as (Hx1 & Hx2 & _). pose proof (zlen_nonneg (de_name d)).
  pose proof (dent_at_namlen _ _ _ _ Ed) as En.
  destruct Hs as [A A' B C D E F]. split; [|intros i Hi; apply HV; lia].
  apply listing_cons. split; [|split].
  - apply dent_at_iff in Ed as (_ & E2 & _ & E4 & E5). apply dent_at_iff. rewrite <- Eo, Rd.
    rewrite (HV (de_off d + 6)), (HV (de_off d + 7)), Eo by lia. repeat split; try done.
    + cbn [set_len de_ino]. rewrite E2. symmetry. apply v32_ext. intros j Hj. apply HV; lia.
    + cbn [set_len de_name]. rewrite E5. symmetry. apply bytes_ext. intros i Hi. apply HV; lia.
  - constructor; cbn [set_len de_off de_name de_len]; try done; try lia.
    { change (de_size (set_len (de_size d) d)) with (de_size d). lia. }
    rewrite HV by lia. done.
  - cbn [set_len de_len]. apply listing_one. split; [by rewrite Eo in Ex; rewrite <- Ex, Dx|]. split; [|lia].
    constructor; try done; try lia.
    + rewrite Lx, Zminus_mod, Hm, B. done.
    + rewrite Ex, Lx. unfold DIRBLKSIZ in *. clear -C Sx Lx H Hx1. dlia.
Qed.
