(* ===== verification/DirSearch.v ===== *)
(** Searching a directory ([dir.c]): the entries of a directory as a list of
    lists, one per fragment, the scan loops as searches in it, and
    [dir_name_search], [dir_inum_search] and [dir_is_not_empty] on it. *)

From S2P Require Import Prelude Bitmap Superblock Cg CgStore Alloc AllocWp AllocSpec AllocInv.
From S2P Require Import FileEnv Inode FileAlloc Dir IndexPath FileSpec BlockMap DirFormat.
Local Open Scope bffs_scope.

(** ** Directories *)

(** Mode and size of an inode. *)
Definition ino_is_dir (f : fs) (V : Z -> Z -> Z) (inum : Z) : bool :=
  Z.land (v16 V (ino_frag f inum) (ino_off f inum)) IFMT =? IFDIR.
Definition ino_size (f : fs) (V : Z -> Z -> Z) (inum : Z) : Z :=
  s32 (v32 V (ino_frag f inum) (ino_off f inum + 12)).

Definition dir_blks (f : fs) (size : Z) : Z := Z.quot (size + fs_fsize f - 1) (fs_fsize f).
Definition dir_spill (f : fs) (size : Z) : Z := Z.rem size (fs_fsize f).
Definition dir_end (f : fs) (size blk : Z) : Z :=
  frag_end (fs_fsize f) (dir_spill f size) blk (dir_blks f size).

(** [ls] are the entries of directory [inum], fragment by fragment. *)
Record directory (f : fs) (gl : globals) (V : Z -> Z -> Z) (inum : Z) (ls : list (list dent)) : Prop := {
  dr_dir : ino_is_dir f V inum = true;
  dr_size : 0 <= ino_size f V inum;
  dr_blks : zlen ls = dir_blks f (ino_size f V inum);
  dr_frag : forall k l, ls !! k = Some l ->
    file_frag f gl (Z.of_nat k) /\
    listing V (frag_of f gl V inum (Z.of_nat k)) 0 (dir_end f (ino_size f V inum) (Z.of_nat k)) l = true }.

Lemma fsize_pos (f : fs) gl : wf_files f gl -> 0 < fs_fsize f.
Proof.
  intros Hw. rewrite <- (wf_ptrs f gl Hw). pose proof (Z.pow_pos_nonneg 2 (pfragshift gl) ltac:(lia)).
  destruct (wf_index f gl Hw). lia.
Qed.

Lemma frag_of_u32 (f : fs) gl V inum n : in_u32 (frag_of f gl V inum n).
Proof. unfold frag_of. cbv zeta. destruct (_ =? 0); [by vm_compute|apply u32_range]. Qed.

Lemma dir_end_bounds (f : fs) size blk :
  0 < fs_fsize f -> 0 <= size -> 0 <= dir_end f size blk <= fs_fsize f.
Proof.
  intros Hf Hs. unfold dir_end, frag_end, dir_spill. rewrite Z.rem_mod_nonneg by lia.
  pose proof (Z.mod_pos_bound size (fs_fsize f) Hf). destruct (_ && _); lia.
Qed.

(** The first entry that passes a test, with its fragment. *)
Fixpoint find_dent (P : dent -> bool) (l : list dent) : option dent :=
  match l with
  | [] => None
  | d :: l => if P d then Some d else find_dent P l
  end.

Fixpoint find_in (P : dent -> bool) (kl : list (Z * list dent)) : option (Z * dent) :=
  match kl with
  | [] => None
  | (k, l) :: kl =>
      match find_dent P l with
      | Some d => Some (k, d)
      | None => find_in P kl
      end
  end.

Definition numbered (ls : list (list dent)) : list (Z * list dent) := zip (seqZ 0 (zlen ls)) ls.

Lemma numbered_fst ls : (numbered ls).*1 = upto 0 (zlen ls) 1.
Proof.
  unfold numbered, upto. rewrite fst_zip by (rewrite length_seqZ; unfold zlen; lia).
  replace ((zlen ls - 0 + 1 - 1) / 1) with (zlen ls) by (rewrite Z.div_1_r; lia).
  symmetry. rewrite <- (list_fmap_id (seqZ 0 (zlen ls))) at 2. apply list_fmap_ext. intros i x _. cbn. lia.
Qed.

Lemma numbered_elem ls k l : (k, l) ∈ numbered ls -> 0 <= k < zlen ls /\ ls !! Z.to_nat k = Some l.
Proof.
  intros (i & Hi)%list_elem_of_lookup. unfold numbered in Hi.
  apply lookup_zip_with_Some in Hi as (x & y & [= -> ->] & Hk & Hl). apply lookup_seqZ in Hk as [-> Hlt].
  apply lookup_lt_Some in Hl as Hlen. unfold zlen. split; [lia|]. by replace (Z.to_nat (0 + Z.of_nat i)) with i by lia.
Qed.

Lemma downto_rev n : 0 <= n -> downto (n - 1) 0 1 = rev (upto 0 n 1).
Proof.
  intros Hn. pattern n. apply natlike_ind; [done| |done]. clear n Hn. intros n Hn IH.
  rewrite downto_cons by lia. replace (Z.succ n - 1) with n by lia. rewrite IH.
  assert (upto 0 (Z.succ n) 1 = upto 0 n 1 ++ [n]) as ->; [|by rewrite rev_app_distr].
  unfold upto. replace ((Z.succ n - 0 + 1 - 1) / 1) with (Z.succ n) by (rewrite Z.div_1_r; lia).
  replace ((n - 0 + 1 - 1) / 1) with n by (rewrite Z.div_1_r; lia).
  rewrite <- (Z.add_1_r n), seqZ_app by lia. rewrite fmap_app. f_equal.
  rewrite (seqZ_cons (0 + n)), seqZ_nil by lia. cbn [fmap list_fmap]. f_equal. lia.
Qed.

Lemma numbered_rev ls : (rev (numbered ls)).*1 = downto (zlen ls - 1) 0 1.
Proof.
  rewrite downto_rev by apply zlen_nonneg. rewrite <- numbered_fst. apply map_rev.
Qed.

Lemma find_dent_Some P l d : find_dent P l = Some d -> d ∈ l /\ P d = true.
Proof.
  induction l as [|a l IH]; cbn; [done|]. destruct (P a) eqn:E.
  - intros [= ->]. split; [by left|done].
  - intros H. destruct (IH H). split; [by right|done].
Qed.

Lemma find_in_Some P kl k d : find_in P kl = Some (k, d) -> exists l, (k, l) ∈ kl /\ d ∈ l /\ P d = true.
Proof.
  induction kl as [|[j l] kl IH]; cbn; [done|]. destruct (find_dent P l) as [x|] eqn:E.
  - intros [= -> ->]. exists l. apply find_dent_Some in E as [E1 E2]. split; [by left|done].
  - intros H. destruct (IH H) as (l' & A & B). exists l'. split; [by right|done].
Qed.

Lemma find_dent_ext P Q l : (forall d, d ∈ l -> P d = Q d) -> find_dent P l = find_dent Q l.
Proof.
  induction l as [|d l IH]; intros H; cbn; [done|]. rewrite H by by left. rewrite IH; [done|].
  intros x Hx. apply H. by right.
Qed.

(** ** The scan loops *)

Section Scan.
Context {S : Type} {FE : FileEnv S} {FV : FileView S} {CL : CgStoreLaws S} {FL : FileEnvLaws S}.

(** A visit that only looks at the entry and goes on unless it passes [P]. *)
Definition looks (visit : Z -> M S (scan Z)) (w : world) (P : dent -> bool) : Prop :=
  forall s b p e d (Q : scan Z -> S -> Prop),
    rep s w -> frag_owns s b p false -> e <= fs_fsize (w_fs w) ->
    d = dent_at (w_disk w) b (de_off d) -> 0 <= de_off d -> dent_spec (w_disk w) b e d ->
    Q (if P d then Found (p + de_off d) else Finished) s -> wp (visit (p + de_off d)) Q s.

Definition stopped (p : Z) (r : option dent) : scan Z :=
  match r with Some d => Found (p + de_off d) | None => Finished end.

Lemma dent_len_block V b e d : dent_spec V b e d -> 12 <= de_len d <= DIRBLKSIZ.
Proof using Type.
  intros [A A' B C D E F]. unfold DIRBLKSIZ in *. pose proof (Z.mod_pos_bound (de_off d) 512 ltac:(lia)). lia.
Qed.

Lemma wp_dent_len (Q : Z -> S -> Prop) s w b p rw e d :
  rep s w -> frag_owns s b p rw -> e <= fs_fsize (w_fs w) ->
  d = dent_at (w_disk w) b (de_off d) -> 0 <= de_off d -> dent_spec (w_disk w) b e d ->
  Q (de_len d) s -> wp (rd16 (d_reclen (p + de_off d))) Q s.
Proof.
  intros Hr Ho He Ed H0 Hs HQ. pose proof (ds_size _ _ _ _ Hs). pose proof (ds_end _ _ _ _ Hs).
  unfold d_reclen. eapply (wp_rd16 Q s w b p rw (de_off d + 4)); [done|done|lia|lia|lia|].
  apply dent_at_iff in Ed as (_ & _ & <- & _). done.
Qed.

Lemma wp_dent_ino (Q : Z -> S -> Prop) s w b p rw e d :
  rep s w -> frag_owns s b p rw -> e <= fs_fsize (w_fs w) ->
  d = dent_at (w_disk w) b (de_off d) -> 0 <= de_off d -> dent_spec (w_disk w) b e d ->
  Q (de_ino d) s -> wp (rd32 (d_ino (p + de_off d))) Q s.
Proof.
  intros Hr Ho He Ed H0 Hs HQ. pose proof (ds_size _ _ _ _ Hs). pose proof (ds_end _ _ _ _ Hs).
  unfold d_ino. eapply (wp_rd32 Q s w b p rw (de_off d)); [done|done|lia|lia|lia|].
  apply dent_at_iff in Ed as (_ & <- & _). done.
Qed.

Lemma wp_scan_entries (Q : scan Z -> S -> Prop) visit P l s w b p e o fuel :
  looks visit w P -> rep s w -> frag_owns s b p false -> 0 <= o -> e <= fs_fsize (w_fs w) ->
  listing (w_disk w) b o e l = true -> (length l <= fuel)%nat ->
  Q (stopped p (find_dent P l)) s ->
  wp (scan_entries fuel (p + o) (p + e) visit) Q s.
Proof.
  intros Hv Hr Ho. revert o fuel. induction l as [|d l IH]; intros o fuel H0 He Hl Hf HQ.
  - cbn in Hl. apply Z.eqb_eq in Hl as ->. unfold scan_entries. destruct fuel; rewrite Z.leb_refl; by apply wp_ret.
  - apply listing_cons in Hl as (Ed & Hs & Hl). pose proof (ds_size _ _ _ _ Hs). pose proof (ds_end _ _ _ _ Hs).
    assert (de_off d = o) as Eo by by rewrite Ed. destruct fuel as [|fuel]; [cbn in Hf; lia|].
    cbn [scan_entries]. rewrite (proj2 (Z.leb_gt _ _)) by lia. apply wp_bnd. rewrite <- Eo in *.
    eapply Hv; [done|done|exact He|done|done|done|]. cbn [find_dent] in HQ. destruct (P d); [by apply wp_ret|].
    apply wp_bnd. eapply wp_dent_len; [done|done|exact He|done|done|done|]. cbv beta.
    rewrite <- Z.add_assoc. apply IH; [lia|done|done|cbn in Hf; lia|done].
Qed.

Lemma wp_scan_fragment (Q : scan Z -> S -> Prop) visit P l s w b p e :
  looks visit w P -> rep s w -> frag_owns s b p false -> e <= fs_fsize (w_fs w) ->
  listing (w_disk w) b 0 e l = true -> Q (stopped p (find_dent P l)) s ->
  wp (scan_entries (scan_fuel e) p (p + e) visit) Q s.
Proof.
  intros Hv Hr Ho He Hl HQ. pose proof (listing_length _ _ _ _ _ Hl). rewrite <- (Z.add_0_r p) at 1.
  eapply wp_scan_entries; [done|done|done|lia|done|done| |done]. unfold scan_fuel. lia.
Qed.

(** The fragments of [kl] belong to the directory. *)
Definition dir_frags (w : world) (inum : Z) (kl : list (Z * list dent)) : Prop :=
  forall k l, (k, l) ∈ kl ->
    file_frag (w_fs w) (w_globals w) k /\
    listing (w_disk w) (frag_of (w_fs w) (w_globals w) (w_disk w) inum k) 0
      (dir_end (w_fs w) (ino_size (w_fs w) (w_disk w) inum) k) l = true.

Lemma directory_frags w inum ls :
  directory (w_fs w) (w_globals w) (w_disk w) inum ls -> dir_frags w inum (numbered ls).
Proof.
  intros [_ _ _ Hf] k l Hk. apply numbered_elem in Hk as [Hk Hl]. specialize (Hf _ _ Hl).
  by rewrite Z2Nat.id in Hf by lia.
Qed.

(** The result of a scan over fragments. *)
Definition frag_scan (w : world) (inum : Z) (r : option (Z * dent)) (x : scan (Z * Z * Z)) (s : S) : Prop :=
  match r with
  | Some (k, d) => exists buf, x = Found (k, buf, buf + de_off d) /\
      frag_owns s (frag_of (w_fs w) (w_globals w) (w_disk w) inum k) buf false
  | None => x = Finished
  end.

(** [scan_frags] and [case_frags] differ in what they do on a NULL buffer,
    which the interface excludes, and when the visit returns. *)
Lemma wp_scan_frags (Q : scan (Z * Z * Z) -> S -> Prop) visit P kl s w inum
    (size := ino_size (w_fs w) (w_disk w) inum) :
  wf_files (w_fs w) (w_globals w) -> 0 <= size -> looks visit w P -> rep s w -> dir_frags w inum kl ->
  (forall x s', rep s' w -> frag_scan w inum (find_in P kl) x s' -> Q x s') ->
  wp (scan_frags kl.*1 inum (dir_spill (w_fs w) size) (dir_blks (w_fs w) size) visit) Q s.
Proof.
  intros Hw H0 Hv. pose proof (fsize_pos _ _ Hw) as Hp.
  revert s. induction kl as [|[k l] kl IH]; intros s Hr Hd HQ.
  - apply wp_ret. by apply HQ.
  - cbn [fmap list_fmap fst scan_frags]. destruct (Hd k l) as [Hk Hl]; [by left|].
    apply wp_bnd. eapply wp_FSIZE; [done|]. apply wp_bnd.
    eapply wp_ridisk_frag; [done|done|exact Hk|]. intros s1 Hr1. apply wp_bnd.
    eapply wp_cache_frag; [done|apply frag_of_u32|].
    intros p s2 Hr2 Ho2. cbv beta iota zeta. apply wp_bnd.
    pose proof (dir_end_bounds (w_fs w) size k Hp H0) as He. unfold dir_end in He, Hl.
    eapply wp_scan_fragment; [done|done|done|apply He|done|].
    cbn [find_in] in HQ. destruct (find_dent P l) as [d|] eqn:E; cbn [stopped].
    + apply wp_ret. apply HQ; [done|]. by exists p.
    + apply IH; [done| |done]. intros k' l' Hk'. apply Hd. by right.
Qed.

(** ** Names *)

Lemma c_chars_cons c str : c_chars (c :: str) = true <-> 0 < c < 256 /\ c_chars str = true.
Proof. unfold c_chars. cbn. rewrite !andb_true_iff, !Z.ltb_lt. tauto. Qed.

Lemma wp_str_same (Q : bool -> S -> Prop) str s w b p rw n i :
  rep s w -> frag_owns s b p rw -> 0 <= i -> i + Z.of_nat n < fs_fsize (w_fs w) ->
  c_chars (bytes (w_disk w) b i n) = true -> w_disk w b (i + Z.of_nat n) = 0 -> c_chars str = true ->
  Q (bool_decide (bytes (w_disk w) b i n = str)) s -> wp (str_same (p + i) str) Q s.
Proof.
  intros Hr Ho. revert n i. induction str as [|a str IH]; intros n i H0 H1 Hc Hz Hs HQ; cbn [str_same];
    apply wp_bnd; (eapply (wp_rd8 _ s w b p rw i); [done|done|done|lia|lia|]); cbv beta;
    destruct n as [|n]; cbn [bytes] in *.
  - rewrite Z.add_0_r in Hz. rewrite Hz. by apply wp_ret.
  - apply c_chars_cons in Hc as [Hc _]. rewrite (proj2 (Z.eqb_neq _ _)) by lia. by apply wp_ret.
  - apply c_chars_cons in Hs as [Hs _]. rewrite Z.add_0_r in Hz. rewrite Hz.
    rewrite (proj2 (Z.eqb_neq 0 _)) by lia. by apply wp_ret.
  - apply c_chars_cons in Hs as [_ Hs]. apply c_chars_cons in Hc as [_ Hc].
    destruct (Z.eqb_spec (w_disk w b i) a) as [Ea|Hne].
    + rewrite <- Z.add_assoc. apply (IH n); [lia|lia|done| |done|].
      { rewrite <- Hz. f_equal. lia. }
      rewrite (bool_decide_ext _ (w_disk w b i :: bytes (w_disk w) b (i + 1) n = a :: str)) by naive_solver. done.
    + apply wp_ret. by rewrite bool_decide_eq_false_2 in HQ by congruence.
Qed.

Lemma wp_c_str_n (Q : list Z -> S -> Prop) m s w b p rw n i :
  rep s w -> frag_owns s b p rw -> 0 <= i -> i + Z.of_nat n < fs_fsize (w_fs w) ->
  c_chars (bytes (w_disk w) b i n) = true -> w_disk w b (i + Z.of_nat n) = 0 ->
  Q (take m (bytes (w_disk w) b i n)) s -> wp (c_str_n m (p + i)) Q s.
Proof.
  intros Hr Ho. revert n i Q. induction m as [|m IH]; intros n i Q H0 H1 Hc Hz HQ; [by apply wp_ret|].
  cbn [c_str_n]. apply wp_bnd. eapply (wp_rd8 _ s w b p rw i); [done|done|done|lia|lia|]. cbv beta.
  destruct n as [|n]; cbn [bytes take] in *.
  - rewrite Z.add_0_r in Hz. rewrite Hz. by apply wp_ret.
  - apply c_chars_cons in Hc as [Hc Hc']. rewrite (proj2 (Z.eqb_neq _ _)) by lia. apply wp_bnd.
    rewrite <- Z.add_assoc. apply (IH n); [lia|lia|done| |by apply wp_ret]. rewrite <- Hz. f_equal. lia.
Qed.

(** The name of an entry, as the string functions see it. *)
Lemma dent_name V b e d :
  d = dent_at V b (de_off d) -> dent_spec V b e d ->
  de_name d = bytes V b (de_off d + 8) (length (de_name d)) /\
  V b (de_off d + 8 + Z.of_nat (length (de_name d))) = 0.
Proof.
  intros Ed Hs. split; [|apply (ds_nul _ _ _ _ Hs)]. apply dent_at_iff in Ed as (_ & _ & _ & _ & En).
  rewrite En at 2. by rewrite length_bytes.
Qed.

(** The two passes of dir_name_search. *)
Definition same_name (name : list Z) (d : dent) : bool := live d && bool_decide (de_name d = name).
Definition same_case (name : list Z) (d : dent) : bool :=
  strnicmp (take (Z.to_nat DIRNAMELEN) (de_name d)) name DIRNAMELEN =? 0.

Lemma looks_name w name : c_chars name = true -> looks (name_visit name) w (same_name name).
Proof.
  intros Hn s b p e d Q Hr Ho He Ed H0 Hs HQ. unfold name_visit, same_name, live in *.
  destruct (dent_name _ _ _ _ Ed Hs) as [En Ez]. pose proof Hs as [A A' B C D E F].
  apply wp_bnd. eapply wp_dent_ino; [done|done|exact He|done|done|done|]. cbv beta.
  assert (Q Finished s -> wp (reclen <- rd16 (d_reclen (p + de_off d)) ;;
    if DIRBLKSIZ <? reclen then ret (Returns : scan Z)
    else if reclen =? 0 then ret Returns else ret Finished) Q s) as Hgo.
  { intros HF. apply wp_bnd. eapply wp_dent_len; [done|done|exact He|done|done|done|]. cbv beta.
    pose proof (dent_len_block _ _ _ _ Hs).
    rewrite (proj2 (Z.ltb_ge _ _)), (proj2 (Z.eqb_neq _ _)) by lia. by apply wp_ret. }
  apply wp_bnd. destruct (Z.eqb_spec (de_ino d) 0) as [Ei|Ei]; cbn [negb andb] in *.
  - apply wp_ret. by apply Hgo.
  - unfold d_name. rewrite <- Z.add_assoc.
    eapply (wp_str_same _ name s w b p false (length (de_name d))); [done|done|lia| | |done|done|].
    { unfold zlen in A'. lia. }
    { by rewrite <- En. }
    rewrite <- En. destruct (bool_decide (de_name d = name)); [by apply wp_ret|by apply Hgo].
Qed.

Lemma looks_case w name : looks (case_visit name) w (same_case name).
Proof.
  intros s b p e d Q Hr Ho He Ed H0 Hs HQ. unfold case_visit, same_case in *.
  destruct (dent_name _ _ _ _ Ed Hs) as [En Ez]. pose proof Hs as [A A' B C D E F].
  apply wp_bnd. unfold streqv. apply wp_bnd. unfold d_name. rewrite <- Z.add_assoc.
  eapply (wp_c_str_n _ _ s w b p false (length (de_name d))); [done|done|lia| | |done|].
  { unfold zlen in A'. lia. }
  { by rewrite <- En. }
  rewrite <- En. apply wp_ret. by destruct (_ =? 0); apply wp_ret.
Qed.

Lemma looks_inum w inum : looks (inum_search_visit inum) w (fun d => de_ino d =? inum).
Proof.
  intros s b p e d Q Hr Ho He Ed H0 Hs HQ. unfold inum_search_visit. pose proof Hs as [A A' B C D E F].
  apply wp_bnd. eapply wp_dent_ino; [done|done|exact He|done|done|done|]. cbv beta.
  destruct (de_ino d =? inum); [by apply wp_ret|].
  apply wp_bnd. eapply wp_dent_len; [done|done|exact He|done|done|done|]. cbv beta.
  pose proof (dent_len_block _ _ _ _ Hs). rewrite (proj2 (Z.ltb_ge _ _)) by lia. by apply wp_ret.
Qed.

(** ** The searches *)

Lemma wp_inode_read_ptr (Q : Z -> S -> Prop) s w inum :
  rep s w ->
  (forall p s', rep s' w -> frag_owns s' (ino_frag (w_fs w) inum) p false ->
     Q (p + ino_off (w_fs w) inum) s') ->
  wp (inode_read_ptr inum) Q s.
Proof.
  intros Hr HQ. unfold inode_read_ptr. apply wp_bnd. eapply wp_inode_read; [done|].
  intros p s' Hr' Ho. apply wp_ret. by apply HQ.
Qed.

Lemma wp_is_dir (Q : bool -> S -> Prop) s w inum p rw :
  wf_files (w_fs w) (w_globals w) -> rep s w -> frag_owns s (ino_frag (w_fs w) inum) p rw ->
  Q (ino_is_dir (w_fs w) (w_disk w) inum) s -> wp (is_dir (p + ino_off (w_fs w) inum)) Q s.
Proof.
  intros Hw Hr Ho HQ. pose proof (ino_off_bounds _ _ Hw inum) as Hb. unfold sizeof_icommon in Hb.
  unfold is_dir, ic_mode. apply wp_bnd.
  eapply (wp_rd16 _ s w _ p rw (ino_off (w_fs w) inum)); [done|done|done|lia|lia|]. by apply wp_ret.
Qed.

Lemma wp_IC_SIZE (Q : Z -> S -> Prop) s w inum p rw :
  wf_files (w_fs w) (w_globals w) -> rep s w -> frag_owns s (ino_frag (w_fs w) inum) p rw ->
  Q (ino_size (w_fs w) (w_disk w) inum) s -> wp (IC_SIZE (p + ino_off (w_fs w) inum)) Q s.
Proof.
  intros Hw Hr Ho HQ. pose proof (ino_off_bounds _ _ Hw inum) as Hb. unfold sizeof_icommon in Hb.
  unfold IC_SIZE, ic_size.
  eapply (wp_rds32 _ s w _ p rw (ino_off (w_fs w) inum + 12)); [done|done|lia|lia|lia|done].
Qed.

Lemma wp_dir_extent (Q : Z * Z -> S -> Prop) s w inum p rw
    (size := ino_size (w_fs w) (w_disk w) inum) :
  wf_files (w_fs w) (w_globals w) -> rep s w -> frag_owns s (ino_frag (w_fs w) inum) p rw ->
  Q (dir_blks (w_fs w) size, dir_spill (w_fs w) size) s ->
  wp (dir_extent (p + ino_off (w_fs w) inum)) Q s.
Proof.
  intros Hw Hr Ho HQ. unfold dir_extent. apply wp_bnd. eapply wp_fs; [done|]. cbv beta. apply wp_bnd.
  eapply wp_IC_SIZE; [done|done|done|]. by apply wp_ret.
Qed.

(** What the search gives, and where it records the place. *)
Definition search_dir (ls : list (list dent)) (name : list Z) (dependent : Z) : option (Z * dent) :=
  match find_in (same_name name) (numbered ls) with
  | Some e => Some e
  | None => if dependent =? 0 then find_in (same_case name) (rev (numbered ls)) else None
  end.

Definition found_ino (r : option (Z * dent)) : Z := match r with Some (_, d) => de_ino d | None => 0 end.

Definition found_world (w : world) (r : option (Z * dent)) : world :=
  match r with
  | Some (k, d) =>
      if de_ino d =? 0 then w
      else w_set_globals (set_Poffset (u32 (k * fs_fsize (w_fs w) + de_off d)) (w_globals w)) w
  | None => w
  end.

Lemma wp_name_result (Q : Z -> S -> Prop) s w inum kl r x :
  wf_files (w_fs w) (w_globals w) -> 0 <= ino_size (w_fs w) (w_disk w) inum ->
  rep s w -> dir_frags w inum kl ->
  (forall k d, r = Some (k, d) -> exists l, (k, l) ∈ kl /\ d ∈ l) -> frag_scan w inum r x s ->
  (forall s', rep s' (found_world w r) -> Q (found_ino r) s') -> wp (name_result x) Q s.
Proof.
  intros Hw Hsz Hr Hd Hin Hx HQ. unfold frag_scan in Hx. destruct r as [[k d]|]; [|subst x; by apply wp_ret, HQ].
  destruct Hx as (buf & -> & Ho). destruct (Hin k d eq_refl) as (l & Hk & Hl).
  destruct (Hd k l Hk) as [Hf Hls]. destruct (listing_elem _ _ _ _ _ _ (Z.le_refl 0) Hls Hl) as (Ed & Hs & H0).
  pose proof (dir_end_bounds (w_fs w) _ k (fsize_pos _ _ Hw) Hsz) as He.
  unfold name_result. apply wp_bnd. eapply wp_FSIZE; [done|]. cbv beta. apply wp_bnd.
  eapply wp_dent_ino; [done|done|apply He|done|done|done|]. cbv beta. cbn [found_ino found_world] in HQ.
  apply wp_bnd. destruct (Z.eqb_spec (de_ino d) 0) as [E|E]; cbn [negb].
  - apply wp_ret, wp_ret. by apply HQ.
  - eapply wp_upd_glob; [done|]. intros s' Hr' _. apply wp_ret. apply HQ.
    replace (buf + de_off d - buf) with (de_off d) in Hr' by lia. exact Hr'.
Qed.

Lemma wp_case_frags (Q : scan (Z * Z * Z) -> S -> Prop) kl s w inum name
    (size := ino_size (w_fs w) (w_disk w) inum) :
  wf_files (w_fs w) (w_globals w) -> 0 <= size -> rep s w -> dir_frags w inum kl ->
  (forall x s', rep s' w -> frag_scan w inum (find_in (same_case name) kl) x s' -> Q x s') ->
  wp (case_frags kl.*1 inum (dir_spill (w_fs w) size) (dir_blks (w_fs w) size) name) Q s.
Proof.
  intros Hw H0. pose proof (fsize_pos _ _ Hw) as Hp. revert s.
  induction kl as [|[k l] kl IH]; intros s Hr Hd HQ.
  - apply wp_ret. by apply HQ.
  - cbn [fmap list_fmap fst case_frags]. destruct (Hd k l) as [Hk Hl]; [by left|].
    apply wp_bnd. eapply wp_FSIZE; [done|]. apply wp_bnd.
    eapply wp_ridisk_frag; [done|done|exact Hk|]. intros s1 Hr1. apply wp_bnd.
    eapply wp_cache_frag; [done|apply frag_of_u32|].
    intros p s2 Hr2 Ho2. apply wp_bnd. eapply wp_deref; [done|]. cbv beta zeta. apply wp_bnd.
    pose proof (dir_end_bounds (w_fs w) size k Hp H0) as He. unfold dir_end in He, Hl.
    eapply wp_scan_fragment; [apply looks_case|done|done|apply He|done|].
    cbn [find_in] in HQ. destruct (find_dent (same_case name) l) as [d|] eqn:E; cbn [stopped].
    + apply wp_ret. apply HQ; [done|]. by exists p.
    + apply IH; [done| |done]. intros k' l' Hk'. apply Hd. by right.
Qed.

Lemma dir_frags_rev w inum kl : dir_frags w inum kl -> dir_frags w inum (rev kl).
Proof. intros H k l Hk. apply H. apply list_elem_of_In, in_rev, list_elem_of_In. exact Hk. Qed.

Lemma wp_dir_name_search (Q : Z -> S -> Prop) s w inum name ls
    (r := search_dir ls name (case_dependent (w_globals w))) :
  wf_files (w_fs w) (w_globals w) -> rep s w ->
  directory (w_fs w) (w_globals w) (w_disk w) inum ls -> c_chars name = true ->
  (forall s', rep s' (found_world w r) -> Q (found_ino r) s') ->
  wp (dir_name_search inum name) Q s.
Proof.
  intros Hw Hr Hd Hn HQ. pose proof (directory_frags _ _ _ Hd) as Hfr. destruct Hd as [D1 D2 D3 D4].
  unfold dir_name_search. apply wp_bnd. eapply wp_inode_read_ptr; [done|]. intros p s1 Hr1 Ho1.
  apply wp_bnd. eapply wp_is_dir; [done|done|done|]. rewrite D1. cbn [negb].
  apply wp_bnd. eapply wp_dir_extent; [done|done|done|]. cbv beta iota. apply wp_bnd.
  rewrite <- D3 at 1. rewrite <- numbered_fst.
  eapply wp_scan_frags; [done|done|by apply looks_name|done|done|]. intros x s2 Hr2 Hx. unfold search_dir in r.
  destruct (find_in (same_name name) (numbered ls)) as [[k d]|] eqn:E.
  - assert (wp (name_result x) Q s2) as Hres.
    { eapply (wp_name_result Q s2 w inum _ (Some (k, d))); [done|done|done|exact Hfr| |done|exact HQ].
      intros k' d' [= <- <-]. destruct (find_in_Some _ _ _ _ E) as (l & A & B & _). by exists l. }
    destruct Hx as (buf & -> & Ho). exact Hres.
  - cbn [frag_scan] in Hx. subst x. apply wp_bnd. eapply wp_glob; [done|].
    destruct (case_dependent (w_globals w) =? 0) eqn:Ec; unfold r in HQ; [|by apply wp_ret, HQ].
    apply wp_bnd. rewrite <- D3 at 1. rewrite <- numbered_rev.
    eapply wp_case_frags; [done|done|done|by apply dir_frags_rev|]. intros x s3 Hr3 Hx3.
    eapply wp_name_result; [done|done|done|apply dir_frags_rev; exact Hfr| |done|exact HQ].
    intros k' d' E'. destruct (find_in_Some _ _ _ _ E') as (l & A & B & _). by exists l.
Qed.

Lemma wp_dir_inum_search (Q : Z -> S -> Prop) s w pinum inum ls :
  wf_files (w_fs w) (w_globals w) -> rep s w ->
  directory (w_fs w) (w_globals w) (w_disk w) pinum ls ->
  (forall s', rep s' w ->
     Q (match find_in (fun d => de_ino d =? inum) (numbered ls) with
        | Some (k, d) => u32 (k * DIRBLKSIZ + de_off d)
        | None => 0
        end) s') ->
  wp (dir_inum_search pinum inum) Q s.
Proof.
  intros Hw Hr Hd HQ. pose proof (directory_frags _ _ _ Hd) as Hfr. destruct Hd as [D1 D2 D3 D4].
  unfold dir_inum_search. apply wp_bnd. eapply wp_inode_read_ptr; [done|]. intros p s1 Hr1 Ho1.
  apply wp_bnd. eapply wp_is_dir; [done|done|done|]. rewrite D1. cbn [negb].
  apply wp_bnd. eapply wp_dir_extent; [done|done|done|]. cbn [fst snd]. apply wp_bnd.
  rewrite <- D3 at 1. rewrite <- numbered_fst.
  eapply wp_scan_frags; [done|done|by apply looks_inum|done|done|]. intros x s2 Hr2 Hx.
  destruct (find_in _ _) as [[k d]|]; cbn [frag_scan] in Hx.
  - destruct Hx as (buf & -> & _). apply wp_ret.
    replace (buf + de_off d - buf) with (de_off d) by lia. by apply HQ.
  - subst x. by apply wp_ret, HQ.
Qed.

(** ** dir_is_not_empty *)

Definition live_count (l : list dent) : Z := zlen (filter (fun d => live d = true) l).

Lemma live_count_cons d l : live_count (d :: l) = (if live d then 1 else 0) + live_count l.
Proof.
  unfold live_count, zlen. rewrite filter_cons. destruct (live d); cbn [length]; case_decide; try done; cbn [length]; lia.
Qed.

Lemma live_count_app l k : live_count (l ++ k) = live_count l + live_count k.
Proof. unfold live_count, zlen. rewrite filter_app, length_app. lia. Qed.

Definition over_two (count : Z) : Z + Z := if 2 <? count then inl 1 else inr count.

Lemma wp_count_entries (Q : Z + Z -> S -> Prop) l s w b p e o fuel count :
  rep s w -> frag_owns s b p false -> 0 <= o -> e <= fs_fsize (w_fs w) ->
  listing (w_disk w) b o e l = true -> (length l <= fuel)%nat -> 0 <= count <= 2 ->
  Q (over_two (count + live_count l)) s -> wp (count_entries fuel (p + o) (p + e) count) Q s.
Proof.
  intros Hr Ho. revert o fuel count. induction l as [|d l IH]; intros o fuel count H0 He Hl Hf Hc HQ.
  - cbn in Hl. apply Z.eqb_eq in Hl as ->. rewrite Z.add_0_r in HQ. unfold over_two in HQ.
    rewrite (proj2 (Z.ltb_ge _ _)) in HQ by lia.
    unfold count_entries. destruct fuel; rewrite Z.leb_refl; by apply wp_ret.
  - apply listing_cons in Hl as (Ed & Hs & Hl). pose proof (dent_len_block _ _ _ _ Hs).
    pose proof (ds_end _ _ _ _ Hs). pose proof (zlen_nonneg (filter (fun d => live d = true) l)) as Hz.
    fold (live_count l) in Hz. assert (de_off d = o) as Eo by by rewrite Ed. destruct fuel as [|fuel]; [cbn in Hf; lia|].
    cbn [count_entries]. rewrite (proj2 (Z.leb_gt _ _)) by lia. apply wp_bnd. rewrite <- Eo in *.
    eapply wp_dent_ino; [done|done|exact He|done|done|done|]. cbv beta zeta.
    rewrite live_count_cons in HQ. unfold live in *.
    assert (forall n, 0 <= n <= 2 -> Q (over_two (n + live_count l)) s -> wp
      (reclen <- rd16 (d_reclen (p + de_off d)) ;;
       if (DIRBLKSIZ <? reclen) || (reclen =? 0) then ret (inl 0)
       else count_entries fuel (p + de_off d + reclen) (p + e) n) Q s) as Hgo.
    { intros n Hn Hq. apply wp_bnd. eapply wp_dent_len; [done|done|exact He|done|done|done|]. cbv beta.
      rewrite (proj2 (Z.ltb_ge _ _)), (proj2 (Z.eqb_neq _ _)) by lia. cbn [orb].
      rewrite <- Z.add_assoc. apply IH; [lia|done|done|cbn in Hf; lia|done|done]. }
    destruct (negb (de_ino d =? 0)); cbn [andb].
    + destruct (Z.ltb_spec 2 (count + 1)) as [H2|H2].
      * apply wp_ret. unfold over_two in HQ. by rewrite (proj2 (Z.ltb_lt _ _)) in HQ by lia.
      * apply Hgo; [lia|]. by rewrite <- Z.add_assoc.
    + apply Hgo; [lia|done].
Qed.

Lemma wp_count_fragment (Q : Z + Z -> S -> Prop) l s w b p e count :
  rep s w -> frag_owns s b p false -> e <= fs_fsize (w_fs w) ->
  listing (w_disk w) b 0 e l = true -> 0 <= count <= 2 ->
  Q (over_two (count + live_count l)) s -> wp (count_entries (scan_fuel e) p (p + e) count) Q s.
Proof.
  intros Hr Ho He Hl Hc HQ. pose proof (listing_length _ _ _ _ _ Hl). rewrite <- (Z.add_0_r p) at 1.
  eapply wp_count_entries; [done|done|done|done|done| |done|done]. unfold scan_fuel. lia.
Qed.

Lemma wp_count_frags (Q : Z -> S -> Prop) kl s w inum count (size := ino_size (w_fs w) (w_disk w) inum) :
  wf_files (w_fs w) (w_globals w) -> 0 <= size -> rep s w -> dir_frags w inum kl -> 0 <= count <= 2 ->
  (forall s', rep s' w -> Q (if 2 <? count + live_count (concat kl.*2) then 1 else 0) s') ->
  wp (count_frags kl.*1 inum (dir_spill (w_fs w) size) (dir_blks (w_fs w) size) count) Q s.
Proof.
  intros Hw H0. pose proof (fsize_pos _ _ Hw) as Hp. revert s count.
  induction kl as [|[k l] kl IH]; intros s count Hr Hd Hc HQ.
  - apply wp_ret. cbn in HQ. rewrite (proj2 (Z.ltb_ge _ _)) in HQ by (change (live_count []) with 0; lia). by apply HQ.
  - cbn [fmap list_fmap fst snd count_frags]. destruct (Hd k l) as [Hk Hl]; [by left|].
    apply wp_bnd. eapply wp_FSIZE; [done|]. apply wp_bnd.
    eapply wp_ridisk_frag; [done|done|exact Hk|]. intros s1 Hr1. apply wp_bnd.
    eapply wp_cache_frag; [done|apply frag_of_u32|]. intros p s2 Hr2 Ho2. cbv beta iota zeta. apply wp_bnd.
    pose proof (dir_end_bounds (w_fs w) size k Hp H0) as He. unfold dir_end in He, Hl.
    eapply wp_count_fragment; [done|done|apply He|done|done|].
    cbn [fmap list_fmap snd concat] in HQ. rewrite live_count_app, Z.add_assoc in HQ. unfold over_two.
    pose proof (zlen_nonneg (filter (fun d => live d = true) l)).
    pose proof (zlen_nonneg (filter (fun d => live d = true) (concat kl.*2))). fold (live_count l) in H.
    fold (live_count (concat kl.*2)) in H1. destruct (Z.ltb_spec 2 (count + live_count l)).
    + apply wp_ret. rewrite (proj2 (Z.ltb_lt _ _)) in HQ by lia. by apply HQ.
    + apply IH; [done| |lia|done]. intros k' l' Hk'. apply Hd. by right.
Qed.

Lemma numbered_snd ls : (numbered ls).*2 = ls.
Proof. unfold numbered. apply snd_zip. rewrite length_seqZ. unfold zlen. lia. Qed.

Lemma wp_dir_is_not_empty (Q : Z -> S -> Prop) s w inum ls :
  wf_files (w_fs w) (w_globals w) -> rep s w ->
  directory (w_fs w) (w_globals w) (w_disk w) inum ls ->
  (forall s', rep s' w -> Q (if 2 <? live_count (concat ls) then 1 else 0) s') ->
  wp (dir_is_not_empty inum) Q s.
Proof.
  intros Hw Hr Hd HQ. pose proof (directory_frags _ _ _ Hd) as Hfr. destruct Hd as [D1 D2 D3 D4].
  unfold dir_is_not_empty. apply wp_bnd. eapply wp_inode_read; [done|]. intros p s1 Hr1 Ho1. cbv beta iota.
  apply wp_bnd. eapply wp_is_dir; [done|done|done|]. rewrite D1. cbn [negb].
  apply wp_bnd. eapply wp_dir_extent; [done|done|done|]. cbn [fst snd].
  rewrite <- D3 at 1. rewrite <- numbered_fst.
  eapply wp_count_frags; [done|done|done|done|lia|]. rewrite numbered_snd. exact HQ.
Qed.

Lemma wp_dir_is_not_empty_file (Q : Z -> S -> Prop) s w inum :
  wf_files (w_fs w) (w_globals w) -> rep s w -> ino_is_dir (w_fs w) (w_disk w) inum = false ->
  (forall s', rep s' w -> Q 0 s') -> wp (dir_is_not_empty inum) Q s.
Proof.
  intros Hw Hr Hd HQ. unfold dir_is_not_empty. apply wp_bnd. eapply wp_inode_read; [done|].
  intros p s1 Hr1 Ho1. cbv beta iota. apply wp_bnd. eapply wp_is_dir; [done|done|done|]. rewrite Hd.
  by apply wp_ret, HQ.
Qed.

End Scan.
