(* ===== verification/DirUpdate.v ===== *)
(** Changing a directory ([dir.c]): [dir_create], [dir_offset_delete] and
    [dir_inum_change] as updates of the list of its entries. *)

From S2P Require Import Prelude Bitmap Superblock Cg CgStore Alloc AllocWp AllocSpec AllocInv.
From S2P Require Import FileEnv Inode FileAlloc Dir IndexPath FileSpec BlockMap DirFormat DirSearch.
Local Open Scope bffs_scope.

(** ** The fragments a directory lives in *)

(** The fragments read to find where a path ends. *)
Fixpoint trace (V : Z -> Z -> Z) (path : list (Z * Z)) (cur : Z) : list Z :=
  match path with
  | [] => []
  | (p, fr) :: path =>
      if cur =? 0 then []
      else u32 (cur + fr) :: trace V path (v32 V (u32 (cur + fr)) (4 * p))
  end.

Definition map_reads (f : fs) (gl : globals) (V : Z -> Z -> Z) (inum n : Z) : list Z :=
  let sp := slot_path gl (n / fs_frag f) in
  ino_frag f inum :: trace V sp.2 (ino_ptr f V inum sp.1).

(** [V'] differs from [V] in fragment [b] only. *)
Definition only_frag (V V' : Z -> Z -> Z) (b : Z) : Prop := forall b' i, b' <> b -> V' b' i = V b' i.

Lemma only_frag_v32 V V' b b' i : only_frag V V' b -> b' <> b -> v32 V' b' i = v32 V b' i.
Proof. intros H Hb. apply v32_ext. intros j _. by apply H. Qed.

Lemma follow_only V V' b path cur :
  only_frag V V' b -> b ∉ trace V path cur -> follow V' path cur = follow V path cur.
Proof.
  intros H. revert cur. induction path as [|[p fr] path IH]; intros cur Hb; [done|]. cbn [follow trace] in *.
  destruct (cur =? 0); [done|]. apply not_elem_of_cons in Hb as [Hn Hb].
  rewrite (only_frag_v32 V V' b) by done. by apply IH.
Qed.

Lemma frag_of_only (f : fs) gl V V' b inum n :
  only_frag V V' b -> b ∉ map_reads f gl V inum n -> frag_of f gl V' inum n = frag_of f gl V inum n.
Proof.
  intros H Hb. unfold map_reads in Hb. cbv zeta in Hb. apply not_elem_of_cons in Hb as [Hi Hb].
  assert (forall off, ino_ptr f V' inum off = ino_ptr f V inum off) as E
    by (intros off; apply (only_frag_v32 V V' b); [done|congruence]).
  unfold frag_of, block_of. cbv zeta. rewrite E, (follow_only V V' b) by done. done.
Qed.

(** The fragments of a directory are its own: no other part of it is in them. *)
Definition dir_apart (f : fs) (gl : globals) (V : Z -> Z -> Z) (inum blks : Z) : Prop :=
  forall k j, 0 <= k < blks -> 0 <= j < blks ->
    (frag_of f gl V inum k ∉ map_reads f gl V inum j) /\
    (j <> k -> frag_of f gl V inum j <> frag_of f gl V inum k).

Lemma ino_same (f : fs) V V' b inum :
  only_frag V V' b -> b <> ino_frag f inum ->
  ino_is_dir f V' inum = ino_is_dir f V inum /\ ino_size f V' inum = ino_size f V inum.
Proof.
  intros H Hb. unfold ino_is_dir, ino_size. split.
  - unfold v16. by rewrite !(H (ino_frag f inum)) by (done || congruence).
  - by rewrite (only_frag_v32 V V' b) by (done || congruence).
Qed.

(** The entries of one fragment change. *)
Lemma directory_update (f : fs) gl V V' inum ls k l l' :
  directory f gl V inum ls -> dir_apart f gl V inum (zlen ls) -> ls !! k = Some l ->
  let b := frag_of f gl V inum (Z.of_nat k) in
  only_frag V V' b -> listing V' b 0 (dir_end f (ino_size f V inum) (Z.of_nat k)) l' = true ->
  directory f gl V' inum (<[k := l']> ls) /\
  (forall n, 0 <= n < zlen ls -> frag_of f gl V' inum n = frag_of f gl V inum n).
Proof.
  intros [D1 D2 D3 D4] Ha Hk b Ho Hl. apply lookup_lt_Some in Hk as Hlt.
  assert (0 <= Z.of_nat k < zlen ls) as Hkz by (unfold zlen; lia).
  assert (forall n, 0 <= n < zlen ls -> frag_of f gl V' inum n = frag_of f gl V inum n) as Hf.
  { intros n Hn. apply (frag_of_only f gl V V' b); [done|]. by apply Ha. }
  split; [|exact Hf]. assert (b <> ino_frag f inum) as Hb.
  { intros E. destruct (Ha (Z.of_nat k) (Z.of_nat k) Hkz Hkz) as [Hn _]. apply Hn.
    unfold map_reads. rewrite <- E. by left. }
  destruct (ino_same f V V' b inum Ho Hb) as [E1 E2]. constructor.
  - by rewrite E1.
  - by rewrite E2.
  - rewrite E2, <- D3. unfold zlen. by rewrite length_insert.
  - intros j lj Hj. assert (0 <= Z.of_nat j < zlen ls) as Hjz.
    { apply lookup_lt_Some in Hj. rewrite length_insert in Hj. unfold zlen. lia. }
    rewrite E2, (Hf _ Hjz). apply list_lookup_insert_Some in Hj as [(<- & <- & _)|[Hne Hj]].
    + split; [by apply (D4 k l)|exact Hl].
    + destruct (D4 j lj Hj) as [F1 F2]. split; [done|]. eapply listing_ext; [|exact F2].
      intros i Hi. apply Ho. apply Ha; [done|done|]. lia.
Qed.

(** ** Writing an entry *)

Fixpoint vstr (V : Z -> Z -> Z) (b i : Z) (str : list Z) : Z -> Z -> Z :=
  match str with
  | [] => vput V b i 0
  | c :: str => vstr (vput V b i (u8 c)) b (i + 1) str
  end.

Lemma vstr_ne V b i str b' j : b' <> b \/ j < i \/ i + zlen str < j -> vstr V b i str b' j = V b' j.
Proof.
  revert V i. induction str as [|c str IH]; intros V i H; cbn [vstr]; unfold zlen in *; cbn [length] in H.
  - apply vput_ne. lia.
  - rewrite IH by lia. apply vput_ne. lia.
Qed.

Lemma vstr_nul V b i str : vstr V b i str b (i + zlen str) = 0.
Proof.
  revert V i. induction str as [|c str IH]; intros V i; cbn [vstr]; unfold zlen in *; cbn [length].
  - rewrite Z.add_0_r. apply vput_eq.
  - rewrite <- (IH (vput V b i (u8 c)) (i + 1)). f_equal. lia.
Qed.

Lemma vstr_bytes V b i str : c_chars str = true -> bytes (vstr V b i str) b i (length str) = str.
Proof.
  revert V i. induction str as [|c str IH]; intros V i Hc; [done|]. apply c_chars_cons in Hc as [Hc Hs].
  cbn [vstr length bytes]. rewrite (vstr_ne _ _ (i + 1)) by lia. rewrite vput_eq, u8_small by lia.
  by rewrite IH.
Qed.

(** Where the search for room stops. *)
Definition has_room (needed : Z) (d : dent) : bool := needed <? de_len d - de_size d.

(** An entry as [fill_entry] writes it at offset [x]. *)
Definition ventry (gl : globals) (V : Z -> Z -> Z) (b x : Z) (name : list Z) (inum len type : Z) : Z -> Z -> Z :=
  vput (vput (vput16 (vput32 (vstr V b (x + 8) name) b x inum) b (x + 4) len) b (x + 7) (u8 (zlen name)))
    b (x + 6) (if bsd44fs gl =? 0 then 0 else u8 type).

(** The entry [dir_create] makes behind [d]. *)
Definition new_dent (gl : globals) (d : dent) (name : list Z) (inum type : Z) : dent :=
  Dent (de_off d + de_size d) inum (de_len d - de_size d) (if bsd44fs gl =? 0 then 0 else u8 type) name.

Lemma ventry_ne gl V b x name inum len type b' i :
  b' <> b \/ i < x \/ x + 8 + zlen name < i -> ventry gl V b x name inum len type b' i = V b' i.
Proof.
  intros H. unfold ventry. pose proof (zlen_nonneg name).
  rewrite !vput_ne, vput16_ne, vput32_ne, vstr_ne by lia. done.
Qed.

Lemma ventry_at gl V b x name inum len type :
  c_chars name = true -> zlen name <= 255 -> in_u32 inum -> 0 <= len < 65536 ->
  let V' := ventry gl V b x name inum len type in
  dent_at V' b x = Dent x inum len (if bsd44fs gl =? 0 then 0 else u8 type) name /\
  V' b (x + 8 + zlen name) = 0.
Proof.
  intros Hc Hn Hi Hl V'. pose proof (zlen_nonneg name) as H0. split.
  - symmetry. apply dent_at_iff. cbn [de_off de_ino de_len de_type de_name]. split; [done|].
    assert (V' b (x + 7) = zlen name) as E7.
    { unfold V', ventry. rewrite vput_ne by lia. rewrite vput_eq. apply u8_small. lia. }
    split; [|split; [|split]].
    + unfold V', ventry. rewrite (v32_ext (vput32 (vstr V b (x + 8) name) b x inum)).
      { rewrite v32_vput32. symmetry. by apply u32_small. }
      intros j Hj. rewrite !vput_ne, vput16_ne by lia. done.
    + unfold V', ventry, v16. rewrite !vput_ne by lia. fold (v16 (vput16 (vput32 (vstr V b (x + 8) name) b x inum)
        b (x + 4) len) b (x + 4)). rewrite v16_vput16. symmetry. by apply u16_small.
    + unfold V', ventry. by rewrite vput_eq.
    + rewrite E7. unfold zlen at 1. rewrite Nat2Z.id. rewrite <- (vstr_bytes V b (x + 8) name Hc) at 1.
      apply bytes_ext. intros i Hi'. unfold V', ventry. rewrite !vput_ne, vput16_ne, vput32_ne by lia. done.
  - unfold V', ventry. rewrite !vput_ne, vput16_ne, vput32_ne by lia. apply vstr_nul.
Qed.

(** The disk after [dir_create] found room behind [d] in fragment [b]. *)
Definition create_disk (w : world) (b : Z) (d : dent) (name : list Z) (inum type : Z) : Z -> Z -> Z :=
  ventry (w_globals w) (vput16 (w_disk w) b (de_off d + 4) (de_size d)) b (de_off d + de_size d) name inum
    (de_len d - de_size d) type.

Lemma room_size name d :
  has_room (entry_needed name) d = true -> de_len d mod 4 = 0 ->
  UFS_DIRECTSIZ (zlen name) <= de_len d - de_size d.
Proof.
  unfold has_room. rewrite Z.ltb_lt, entry_needed_eq. pose proof (zlen_nonneg name) as H0.
  rewrite UFS_DIRECTSIZ_eq by done. destruct (de_size_bounds d) as (_ & _ & Hm). revert Hm.
  generalize (de_size d) (de_len d) (zlen name). intros. dlia.
Qed.

Lemma create_listing gl V b o e l1 d l2 name inum type :
  0 <= o -> listing V b o e (l1 ++ d :: l2) = true -> has_room (entry_needed name) d = true ->
  c_chars name = true -> zlen name <= 255 -> in_u32 inum ->
  let V' := ventry gl (vput16 V b (de_off d + 4) (de_size d)) b (de_off d + de_size d) name inum
    (de_len d - de_size d) type in
  listing V' b o e (l1 ++ set_len (de_size d) d :: new_dent gl d name inum type :: l2) = true.
Proof.
  intros Ho Hl Hr Hc Hn Hi V'. destruct (listing_elem V b o e _ d Ho Hl) as (Ed & Hs & _).
  { apply elem_of_app. right. by left. }
  pose proof (dent_len_block _ _ _ _ Hs) as Hlen. unfold DIRBLKSIZ in Hlen.
  pose proof (room_size name d Hr (ds_align _ _ _ _ Hs)) as Hroom. pose proof (de_size_bounds d) as (Hd & _).
  destruct (de_size_bounds (new_dent gl d name inum type)) as (_ & Hx & _). cbn [new_dent de_name] in Hx.
  change (de_size (new_dent gl d name inum type)) with (UFS_DIRECTSIZ (zlen name)) in *.
  pose proof (zlen_nonneg name).
  destruct (ventry_at gl (vput16 V b (de_off d + 4) (de_size d)) b (de_off d + de_size d) name inum
    (de_len d - de_size d) type Hc Hn Hi ltac:(lia)) as [E1 E2].
  apply (listing_split V V' b o e l1 d (new_dent gl d name inum type) l2); try done.
  - unfold V', v16. rewrite !ventry_ne by lia.
    fold (v16 (vput16 V b (de_off d + 4) (de_size d)) b (de_off d + 4)). rewrite v16_vput16.
    apply u16_small. lia.
  - intros i H1 H2 H3. cbn [new_dent de_off] in H3. unfold V'. rewrite ventry_ne by lia. apply vput16_ne. lia.
Qed.

Section Update.
Context {S : Type} {FE : FileEnv S} {FV : FileView S} {CL : CgStoreLaws S} {FL : FileEnvLaws S}.

Lemma wp_assoc {A B C} (m : M S A) (f : A -> M S B) (k : B -> M S C) Q s :
  wp (bnd m f) (fun b s' => wp (k b) Q s') s -> wp (bnd m (fun a => bnd (f a) k)) Q s.
Proof. unfold wp, bnd. destruct (m s) as [[a s']|]; [|done]. by destruct (f a s') as [[b s'']|]. Qed.

Lemma wp_strcpy (Q : unit -> S -> Prop) str s w b p i :
  rep s w -> frag_owns s b p true -> 0 <= i -> i + zlen str < fs_fsize (w_fs w) ->
  (forall s', rep s' (w_set_disk (vstr (w_disk w) b i str) w) -> keeps s s' -> Q tt s') ->
  wp (strcpy (p + i) str) Q s.
Proof.
  revert s w i. induction str as [|c str IH]; intros s w i Hr Ho H0 H1 HQ; cbn [strcpy].
  - unfold zlen in H1. cbn in H1. eapply (wp_wr8 Q s w b p i); [done|done|done|lia|lia|exact HQ].
  - unfold zlen in *. cbn [length] in H1. apply wp_bnd.
    eapply (wp_wr8 _ s w b p i); [done|done|done|lia|lia|]. intros s1 Hr1 Hk1. rewrite <- Z.add_assoc.
    eapply IH; [exact Hr1|by apply Hk1|lia|cbn; lia|]. intros s2 Hr2 Hk2. apply HQ; [exact Hr2|].
    intros b' q rw Hq. by apply Hk2, Hk1.
Qed.

Lemma wp_fill_entry (Q : unit -> S -> Prop) s w b p x name inum len type :
  rep s w -> frag_owns s b p true -> 0 <= x -> x + 8 + zlen name < fs_fsize (w_fs w) ->
  (forall s', rep s' (w_set_disk (ventry (w_globals w) (w_disk w) b x name inum len type) w) -> keeps s s' ->
     Q tt s') ->
  wp (fill_entry (p + x) name inum len type) Q s.
Proof.
  intros Hr Ho H0 H1 HQ. pose proof (zlen_nonneg name) as Hz.
  unfold fill_entry, d_name, d_ino, d_reclen, d_namlen, d_type. apply wp_bnd. rewrite <- (Z.add_assoc p x 8).
  eapply wp_strcpy; [done|done|lia|lia|]. intros s1 Hr1 Hk1. apply wp_bnd.
  eapply (wp_wr32 _ s1 _ b p x); [exact Hr1|by apply Hk1|done|lia|cbn; lia|]. intros s2 Hr2 Hk2. apply wp_bnd.
  eapply (wp_wr16 _ s2 _ b p (x + 4)); [exact Hr2|by apply Hk2, Hk1|lia|lia|cbn; lia|]. intros s3 Hr3 Hk3.
  apply wp_bnd.
  eapply (wp_wr8 _ s3 _ b p (x + 7)); [exact Hr3|by apply Hk3, Hk2, Hk1|lia|lia|cbn; lia|]. intros s4 Hr4 Hk4.
  apply wp_bnd. eapply wp_glob; [exact Hr4|]. cbn [w_globals w_set_disk].
  assert (forall v, (forall s', rep s' (w_set_disk (vput (vput (vput16 (vput32 (vstr (w_disk w) b (x + 8) name)
    b x inum) b (x + 4) len) b (x + 7) (u8 (zlen name))) b (x + 6) (u8 v)) w) -> keeps s s' -> Q tt s') ->
    wp (wr8 (p + x + 6) v) Q s4) as Hw.
  { intros v Hv. eapply (wp_wr8 _ s4 _ b p (x + 6)); [exact Hr4|by apply Hk4, Hk3, Hk2, Hk1|lia|lia|cbn; lia|].
    intros s5 Hr5 Hk5. apply Hv; [exact Hr5|]. intros b' q rw Hq. by apply Hk5, Hk4, Hk3, Hk2, Hk1. }
  unfold ventry in HQ. destruct (bsd44fs (w_globals w) =? 0); cbn [negb]; apply Hw; exact HQ.
Qed.

Lemma wp_entry_size (Q : Z -> S -> Prop) s w b p rw e d :
  rep s w -> frag_owns s b p rw -> e <= fs_fsize (w_fs w) ->
  d = dent_at (w_disk w) b (de_off d) -> 0 <= de_off d -> dent_spec (w_disk w) b e d ->
  Q (de_size d) s -> wp (entry_size (p + de_off d)) Q s.
Proof.
  intros Hr Ho He Ed H0 Hs HQ. pose proof (ds_size _ _ _ _ Hs). pose proof (ds_end _ _ _ _ Hs).
  pose proof (dent_len_block _ _ _ _ Hs) as Hb. unfold DIRBLKSIZ in Hb.
  unfold entry_size, d_namlen. apply wp_bnd.
  eapply (wp_rd8 _ s w b p rw (de_off d + 7)); [done|done|lia|lia|lia|]. apply wp_ret.
  pose proof (dent_at_namlen _ _ _ _ Ed) as En. pose proof (rep_byte s w b (de_off d + 7) Hr).
  rewrite Z2Nat.id in En by lia. rewrite <- En. fold (de_size d). by rewrite u16_small by lia.
Qed.

Lemma looks_room w needed : looks (create_visit needed) w (has_room needed).
Proof.
  intros s b p e d Q Hr Ho He Ed H0 Hs HQ. unfold create_visit, has_room in *.
  apply wp_bnd. eapply wp_entry_size; [done|done|exact He|done|done|done|]. apply wp_bnd.
  eapply wp_dent_len; [done|done|exact He|done|done|done|]. cbv beta.
  destruct (needed <? de_len d - de_size d); [by apply wp_ret|]. unfold check_reclen. apply wp_bnd.
  eapply wp_dent_len; [done|done|exact He|done|done|done|]. cbv beta.
  pose proof (dent_len_block _ _ _ _ Hs). rewrite (proj2 (Z.ltb_ge _ _)) by lia. by apply wp_ret.
Qed.

Lemma wp_split_entry (Q : Z * Z -> S -> Prop) s w b p e d :
  rep s w -> frag_owns s b p true -> e <= fs_fsize (w_fs w) ->
  d = dent_at (w_disk w) b (de_off d) -> 0 <= de_off d -> dent_spec (w_disk w) b e d ->
  (forall s', rep s' (w_set_disk (vput16 (w_disk w) b (de_off d + 4) (de_size d)) w) -> keeps s s' ->
     Q (de_len d - de_size d, p + de_off d + de_size d) s') ->
  wp (Dir.split_entry (p + de_off d)) Q s.
Proof.
  intros Hr Ho He Ed H0 Hs HQ. pose proof (ds_size _ _ _ _ Hs). pose proof (ds_end _ _ _ _ Hs).
  pose proof (dent_len_block _ _ _ _ Hs) as Hb. unfold DIRBLKSIZ in Hb.
  unfold Dir.split_entry. apply wp_bnd. eapply wp_entry_size; [done|done|exact He|done|done|done|]. apply wp_bnd.
  eapply wp_dent_len; [done|done|exact He|done|done|done|]. apply wp_bnd. unfold d_reclen.
  eapply (wp_wr16 _ s w b p (de_off d + 4)); [done|done|lia|lia|lia|]. intros s1 Hr1 Hk1. apply wp_bnd.
  eapply (wp_rd16 _ s1 _ b p true (de_off d + 4)); [exact Hr1|by apply Hk1|lia|lia|cbn; lia|]. apply wp_ret.
  cbn [w_disk w_set_disk]. rewrite v16_vput16, u16_small by lia. by apply HQ.
Qed.

(** ** dir_create when an entry has room *)

(** The buffer of the directory fragment stays in place while its address is
    computed again: [dir_create] goes on with its old pointer. *)
Definition steady (w : world) (pinum k : Z) : Prop := forall s p,
  rep s w -> frag_owns s (frag_of (w_fs w) (w_globals w) (w_disk w) pinum k) p false ->
  wp (frag <- ridisk_frag k pinum ;; cache_frag_write frag 1) (fun r _ => r = Some p) s.

Lemma find_dent_split P l d : find_dent P l = Some d ->
  exists l1 l2, l = l1 ++ d :: l2 /\ find_dent P l1 = None.
Proof using Type.
  induction l as [|a l IH]; cbn; [done|]. destruct (P a) eqn:E.
  - intros [= ->]. by exists [], l.
  - intros H. destruct (IH H) as (l1 & l2 & -> & Hn). exists (a :: l1), l2. split; [done|]. cbn. by rewrite E.
Qed.

Lemma find_in_split P ls k d : find_in P (numbered ls) = Some (k, d) ->
  0 <= k < zlen ls /\ P d = true /\ exists l1 l2, ls !! Z.to_nat k = Some (l1 ++ d :: l2) /\ find_dent P l1 = None.
Proof using Type.
  generalize (numbered ls) (fun k l => numbered_elem ls k l). intros kl Hkl.
  induction kl as [|[j l] kl IH]; cbn; [done|]. destruct (find_dent P l) as [x|] eqn:E.
  - intros [= -> ->]. destruct (Hkl k l) as [H1 H2]; [by left|]. split; [done|].
    destruct (find_dent_Some _ _ _ E) as [_ HP]. split; [done|].
    destruct (find_dent_split _ _ _ E) as (l1 & l2 & -> & Hn). by exists l1, l2.
  - apply IH. intros k' l' Hk'. apply Hkl. by right.
Qed.

Lemma wp_dir_create_room (Q : Z -> S -> Prop) s w pinum ls name inum type k d
    (b := frag_of (w_fs w) (w_globals w) (w_disk w) pinum k) :
  wf_files (w_fs w) (w_globals w) -> rep s w -> 2 <= pinum ->
  directory (w_fs w) (w_globals w) (w_disk w) pinum ls ->
  c_chars name = true -> zlen name <= 255 ->
  find_in (has_room (entry_needed name)) (numbered ls) = Some (k, d) -> steady w pinum k ->
  (forall s', rep s' (w_set_disk (create_disk w b d name inum type) w) ->
     Q (s32 (fs_fsize (w_fs w) * k + (de_off d + de_size d))) s') ->
  wp (dir_create pinum name inum type) Q s.
Proof.
  intros Hw Hr Hp2 Hd Hc Hn Hf Hst HQ. pose proof (directory_frags _ _ _ Hd) as Hfr. destruct Hd as [D1 D2 D3 D4].
  pose proof (zlen_nonneg name) as Hz.
  unfold dir_create. rewrite (proj2 (Z.ltb_ge _ _)) by lia. apply wp_bnd.
  eapply wp_inode_read_ptr; [done|]. intros p s1 Hr1 Ho1. apply wp_bnd.
  eapply wp_is_dir; [done|done|done|]. rewrite D1. cbn [negb].
  assert (0 <= (zlen name + 3) / 4) as Hq by (apply Z.div_pos; lia).
  rewrite (proj2 (Z.ltb_ge (entry_needed name) 0)) by (rewrite entry_needed_eq; lia). apply wp_bnd.
  eapply wp_FSIZE; [done|]. cbv beta. apply wp_bnd.
  eapply wp_dir_extent; [done|done|done|]. cbv beta iota. apply wp_bnd. rewrite <- D3 at 1. rewrite <- numbered_fst.
  eapply wp_scan_frags; [done|done|apply looks_room|done|done|]. intros x s2 Hr2 Hx. rewrite Hf in Hx.
  destruct Hx as (buf & -> & Ho2). cbv iota.
  destruct (find_in_Some _ _ _ _ Hf) as (l & Hkl & Hdl & Hroom). destruct (Hfr k l Hkl) as [Hk Hl].
  destruct (listing_elem _ _ _ _ _ _ (Z.le_refl 0) Hl Hdl) as (Ed & Hs & Hd0).
  pose proof (dir_end_bounds (w_fs w) (ino_size (w_fs w) (w_disk w) pinum) k (fsize_pos _ _ Hw) D2) as He.
  pose proof (ds_end _ _ _ _ Hs) as Hend. pose proof (dent_len_block _ _ _ _ Hs) as Hb. unfold DIRBLKSIZ in Hb.
  pose proof (room_size name d Hroom (ds_align _ _ _ _ Hs)) as Hrs. rewrite UFS_DIRECTSIZ_eq in Hrs by done.
  assert (zlen name + 1 <= 4 * ((zlen name + 4) / 4)) as Hfit by (clear; dlia).
  pose proof (de_size_bounds d) as (Hd12 & _).
  apply wp_assoc. eapply wp_mono.
  { apply wp_and; [apply (Hst s2 buf Hr2 Ho2)|]. apply wp_bnd.
    eapply wp_ridisk_frag; [done|done|exact Hk|]. intros s3 Hr3.
    apply (wp_cache_frag_write (fun r s' => exists q, r = Some q /\ rep s' w /\ frag_owns s' b q true) s3 w);
      [done|apply frag_of_u32|done|]. intros q s4 Hr4 Ho4. by exists q. }
  intros r s4 [-> (q & [= <-] & Hr4 & Ho4)]. cbv iota. apply wp_bnd.
  eapply wp_split_entry; [done|done|apply He|done|done|done|]. intros s5 Hr5 Hk5. cbn [fst snd]. apply wp_bnd.
  rewrite <- (Z.add_assoc buf). eapply wp_fill_entry; [exact Hr5|by apply Hk5|lia|cbn; lia|].
  intros s6 Hr6 _. apply wp_ret.
  replace (fs_fsize (w_fs w) * k + (buf + (de_off d + de_size d)) - buf)
    with (fs_fsize (w_fs w) * k + (de_off d + de_size d)) by lia. apply HQ. exact Hr6.
Qed.

(** ** dir_offset_delete *)

(** The entry at [base + o = offset] with the one before it. *)
Fixpoint find_at (offset base : Z) (prev : option dent) (l : list dent) : option (option dent * dent) :=
  match l with
  | [] => None
  | d :: l => if offset =? base + de_off d then Some (prev, d) else find_at offset base (Some d) l
  end.

Definition at_block (d : dent) : bool := de_off d mod DIRBLKSIZ =? 0.

(** How the scan sees it: the entry before counts in the same block only. *)
Definition delete_result (base p e : Z) (r : option (option dent * dent)) : scan (Z * option Z) * Z :=
  match r with
  | Some (prev, d) =>
      (Found (p + de_off d, if at_block d then None else option_map (fun x => p + de_off x) prev), base + de_off d)
  | None => (Finished, base + e)
  end.

(** [pos] is the place in the block, not yet wrapped; [last] the entry before. *)
Definition scan_pos (p o pos : Z) (last : option Z) (prev : option dent) : Prop :=
  last = option_map (fun x => p + de_off x) prev /\
  match prev with
  | None => o = 0 /\ pos = 0
  | Some _ => 0 < pos /\ pos <= DIRBLKSIZ /\ o mod DIRBLKSIZ = pos mod DIRBLKSIZ
  end.

Lemma scan_pos_wrap p o pos last prev d (pos' := if pos =? DIRBLKSIZ then 0 else pos) :
  scan_pos p o pos last prev -> de_off d = o ->
  (if pos =? DIRBLKSIZ then None else last) =
    (if at_block d then None else option_map (fun x => p + de_off x) prev) /\
  pos' = o mod DIRBLKSIZ.
Proof using Type.
  intros [-> Hp] Eo. unfold pos', at_block. rewrite Eo. destruct prev as [x|].
  - destruct Hp as (H1 & H2 & H3). unfold DIRBLKSIZ in *. destruct (Z.eqb_spec pos 512) as [->|Hne].
    + rewrite H3. split; [done|done].
    + rewrite H3, Z.mod_small by lia. rewrite (proj2 (Z.eqb_neq _ _)) by lia. done.
  - destruct Hp as [-> ->]. done.
Qed.

Lemma wp_delete_scan (Q : scan (Z * option Z) * Z -> S -> Prop) l s w b p e o fuel pos last prev offset base :
  rep s w -> frag_owns s b p false -> 0 <= o -> e <= fs_fsize (w_fs w) -> 0 <= base -> in_u32 (base + e) ->
  listing (w_disk w) b o e l = true -> (length l <= fuel)%nat -> scan_pos p o pos last prev ->
  Q (delete_result base p e (find_at offset base prev l)) s ->
  wp (delete_scan fuel (p + o) (p + e) pos last offset (base + o)) Q s.
Proof.
  intros Hr Ho. revert o fuel pos last prev.
  induction l as [|d l IH]; intros o fuel pos last prev H0 He Hb0 Hbe Hl Hf Hps HQ.
  - cbn in Hl. apply Z.eqb_eq in Hl as ->. cbn [find_at delete_result] in HQ.
    unfold delete_scan. destruct fuel; rewrite Z.leb_refl; by apply wp_ret.
  - apply listing_cons in Hl as (Ed & Hs & Hl). pose proof (dent_len_block _ _ _ _ Hs).
    pose proof (ds_end _ _ _ _ Hs). assert (de_off d = o) as Eo by by rewrite Ed.
    destruct fuel as [|fuel]; [cbn in Hf; lia|].
    destruct (scan_pos_wrap p o pos last prev d Hps Eo) as [El Ep].
    cbn [delete_scan]. rewrite (proj2 (Z.leb_gt _ _)) by lia. cbv zeta. rewrite El, Ep.
    cbn [find_at] in HQ. rewrite Eo in HQ. destruct (Z.eqb_spec offset (base + o)) as [Eq|Eq].
    + apply wp_ret. unfold delete_result in HQ. by rewrite Eo in HQ.
    + apply wp_bnd. rewrite <- Eo in *. eapply wp_dent_len; [done|done|exact He|done|done|done|]. cbv beta.
      rewrite (proj2 (Z.ltb_ge _ _)) by lia. pose proof (ds_block _ _ _ _ Hs). unfold DIRBLKSIZ in *.
      pose proof (Z.mod_pos_bound (de_off d) 512 ltac:(lia)).
      rewrite (u32_small (de_off d mod 512 + de_len d)) by (unfold in_u32; zify_pow; lia).
      rewrite (u32_small (base + de_off d + de_len d)) by (unfold in_u32 in *; lia).
      rewrite <- !Z.add_assoc. eapply (IH _ _ _ _ (Some d)); [lia|done|done|done|exact Hl|cbn in Hf; lia| |exact HQ].
      split; [done|]. unfold DIRBLKSIZ. split; [lia|]. split; [lia|]. by rewrite Zplus_mod_idemp_l.
Qed.

(** The entry of the whole directory at byte [offset]. *)
Fixpoint find_offset (fsize offset : Z) (kl : list (Z * list dent)) : option (Z * option dent * dent) :=
  match kl with
  | [] => None
  | (k, l) :: kl =>
      match find_at offset (k * fsize) None l with
      | Some (prev, d) => Some (k, prev, d)
      | None => find_offset fsize offset kl
      end
  end.

(** The fragments from [k] on, which all but the last are full. *)
Definition dir_run (w : world) (pinum size k : Z) (kl : list (Z * list dent)) : Prop :=
  kl.*1 = upto k (k + zlen kl) 1 /\ dir_blks (w_fs w) size = k + zlen kl /\ dir_frags w pinum kl.

Definition delete_found (w : world) (pinum : Z) (r : option (Z * option dent * dent))
    (x : scan (Z * Z * Z * option Z)) (s : S) : Prop :=
  match r with
  | Some (k, prev, d) => exists buf,
      let b := frag_of (w_fs w) (w_globals w) (w_disk w) pinum k in
      x = Found (b, buf, buf + de_off d, if at_block d then None else option_map (fun x => buf + de_off x) prev) /\
      frag_owns s b buf false
  | None => x = Finished
  end.

Lemma wp_delete_frags (Q : scan (Z * Z * Z * option Z) -> S -> Prop) kl s w pinum k offset
    (size := ino_size (w_fs w) (w_disk w) pinum) :
  wf_files (w_fs w) (w_globals w) -> 0 <= size -> rep s w -> 0 <= k -> dir_run w pinum size k kl ->
  in_u32 ((k + zlen kl) * fs_fsize (w_fs w)) ->
  (forall x s', rep s' w -> delete_found w pinum (find_offset (fs_fsize (w_fs w)) offset kl) x s' -> Q x s') ->
  wp (delete_frags kl.*1 pinum (dir_spill (w_fs w) size) (dir_blks (w_fs w) size) offset
    (k * fs_fsize (w_fs w))) Q s.
Proof.
  subst size. intros Hw H0. pose proof (fsize_pos _ _ Hw) as Hp. revert s k.
  induction kl as [|[j l] kl IH]; intros s k Hr Hk0 (Hfst & Hbl & Hd) Hsz HQ.
  - apply wp_ret. by apply HQ.
  - pose proof (zlen_nonneg kl) as Hkl0. assert (zlen ((j, l) :: kl) = zlen kl + 1) as Ez by (unfold zlen; cbn [length]; lia).
    rewrite Ez in *. rewrite upto_cons in Hfst by lia. cbn [fmap list_fmap fst] in Hfst. injection Hfst as -> Hfst.
    cbn [fmap list_fmap fst delete_frags]. destruct (Hd k l) as [Hk Hl]; [by left|].
    apply wp_bnd. eapply wp_FSIZE; [done|]. apply wp_bnd.
    eapply wp_ridisk_frag; [done|done|exact Hk|]. intros s1 Hr1. apply wp_bnd.
    eapply wp_cache_frag; [done|apply frag_of_u32|].
    intros p s2 Hr2 Ho2. cbv beta iota zeta. apply wp_bnd.
    pose proof (dir_end_bounds (w_fs w) _ k Hp H0) as He. unfold dir_end in He, Hl.
    set (e := frag_end _ _ _ _) in *.
    assert (0 <= zlen kl * fs_fsize (w_fs w)) as Hn0 by nia. assert (0 <= k * fs_fsize (w_fs w)) as Hk1 by nia.
    assert (in_u32 (k * fs_fsize (w_fs w) + e)) as Hin
      by (unfold in_u32 in *; rewrite !Z.mul_add_distr_r in Hsz; lia).
    pose proof (listing_length _ _ _ _ _ Hl).
    assert (wp (delete_scan (scan_fuel e) (p + 0) (p + e) 0 None offset (k * fs_fsize (w_fs w) + 0))
      (fun r s' => r = delete_result (k * fs_fsize (w_fs w)) p e (find_at offset (k * fs_fsize (w_fs w)) None l) /\
         s' = s2) s2) as Hscan.
    { eapply (wp_delete_scan _ l s2 w _ p e 0 _ 0 None None);
        [done|done|done|apply He|done|done|done|unfold scan_fuel; lia|by split|done]. }
    rewrite !Z.add_0_r in Hscan. eapply wp_mono; [exact Hscan|]. intros r s' [-> ->]. clear Hscan.
    cbn [find_offset] in HQ.
    destruct (find_at offset (k * fs_fsize (w_fs w)) None l) as [[prev d]|]; cbn [delete_result fst snd].
    + apply wp_ret. apply HQ; [done|]. by exists p.
    + destruct kl as [|x kl]; [by apply wp_ret, HQ|].
      assert (e = fs_fsize (w_fs w)) as ->.
      { unfold e, frag_end. assert (0 < zlen (x :: kl)) by (unfold zlen; cbn [length]; lia).
        rewrite (proj2 (Z.eqb_neq k _)) by lia. by rewrite andb_false_r. }
      replace (k * fs_fsize (w_fs w) + fs_fsize (w_fs w)) with ((k + 1) * fs_fsize (w_fs w)) by lia.
      replace (k + (zlen (x :: kl) + 1)) with (k + 1 + zlen (x :: kl)) in * by lia.
      apply IH; [done|lia| |done|done]. split; [done|]. split; [done|].
      intros k' l' Hk'. apply Hd. by right.
Qed.

Lemma find_at_split offset base l prev0 prev d : find_at offset base prev0 l = Some (prev, d) ->
  exists l1 l2, l = l1 ++ d :: l2 /\ prev = match last l1 with Some x => Some x | None => prev0 end /\
    offset = base + de_off d.
Proof using Type.
  revert prev0. induction l as [|a l IH]; intros prev0; cbn [find_at]; [done|].
  destruct (Z.eqb_spec offset (base + de_off a)) as [E|E].
  - intros [= <- <-]. by exists [], l.
  - intros H. destruct (IH _ H) as (l1 & l2 & -> & -> & Ho). exists (a :: l1), l2. split; [done|]. split; [|done].
    destruct l1 as [|y l1]; [done|]. cbn [last]. destruct (last (y :: l1)) eqn:E'; [done|]. by apply last_None in E'.
Qed.

Lemma find_offset_split fsize offset kl k prev d : find_offset fsize offset kl = Some (k, prev, d) ->
  exists l1 l2, (k, l1 ++ d :: l2) ∈ kl /\ prev = last l1 /\ offset = k * fsize + de_off d.
Proof using Type.
  induction kl as [|[j l] kl IH]; cbn [find_offset]; [done|].
  destruct (find_at offset (j * fsize) None l) as [[x y]|] eqn:E.
  - intros [= -> -> ->]. apply find_at_split in E as (l1 & l2 & -> & -> & Ho). exists l1, l2.
    split; [by left|]. split; [|done]. by destruct (last l1).
  - intros H. destruct (IH H) as (l1 & l2 & A & B). exists l1, l2. split; [by right|done].
Qed.

(** The disk without the entry [d], which follows [prev]. *)
Definition unlink_disk (V : Z -> Z -> Z) (b : Z) (prev : option dent) (d : dent) : Z -> Z -> Z :=
  match (if at_block d then None else prev) with
  | None => vput32 V b (de_off d) 0
  | Some x => vput16 V b (de_off x + 4) (de_len x + de_len d)
  end.

Lemma wp_unlink_entry (Q : Z -> S -> Prop) s w b p e l1 d l2 inum :
  rep s w -> frag_owns s b p true -> e <= fs_fsize (w_fs w) ->
  listing (w_disk w) b 0 e (l1 ++ d :: l2) = true ->
  (forall s', rep s' (w_set_disk (unlink_disk (w_disk w) b (last l1) d) w) -> Q inum s') ->
  wp (unlink_entry (p + de_off d)
    (if at_block d then None else option_map (fun x => p + de_off x) (last l1)) inum) Q s.
Proof.
  intros Hr Ho He Hl HQ. unfold unlink_disk in HQ.
  destruct (listing_elem _ _ _ _ _ d (Z.le_refl 0) Hl) as (Ed & Hs & H0).
  { apply elem_of_app. right. by left. }
  pose proof (dent_len_block _ _ _ _ Hs) as Hb. pose proof (ds_end _ _ _ _ Hs) as Hend.
  assert ((forall s', rep s' (w_set_disk (vput32 (w_disk w) b (de_off d) 0) w) -> Q inum s') ->
    wp (wr32 (d_ino (p + de_off d)) 0 ;; ret inum) Q s) as Hnone.
  { intros Hq. apply wp_bnd. unfold d_ino.
    eapply (wp_wr32 _ s w b p (de_off d)); [done|done|done|lia|lia|]. intros s' Hr' _. by apply wp_ret, Hq. }
  destruct (at_block d); [by apply Hnone|]. destruct (last l1) as [x|] eqn:El; [|by apply Hnone]. clear Hnone.
  cbn [option_map unlink_entry].
  destruct (listing_elem _ _ _ _ _ x (Z.le_refl 0) Hl) as (Ex & Hsx & Hx0).
  { apply elem_of_app. left. by apply last_Some_elem_of. }
  pose proof (dent_len_block _ _ _ _ Hsx) as Hbx. pose proof (ds_end _ _ _ _ Hsx) as Hendx.
  apply wp_bnd. eapply wp_dent_len; [done|done|exact He|done|done|done|]. cbv beta.
  rewrite (proj2 (Z.ltb_ge _ _)) by lia. apply wp_bnd.
  eapply wp_dent_len; [done|done|exact He|done|done|done|]. apply wp_bnd. unfold d_reclen.
  eapply (wp_wr16 _ s w b p (de_off x + 4)); [done|done|lia|lia|lia|]. intros s' Hr' _. by apply wp_ret, HQ.
Qed.

(** The entries without [d]. *)
Definition unlinked (l1 : list dent) (d : dent) (l2 : list dent) : list dent :=
  match rev l1 with
  | x :: r => if at_block d then l1 ++ set_ino 0 d :: l2
              else rev r ++ set_len (de_len x + de_len d) x :: l2
  | [] => set_ino 0 d :: l2
  end.

Lemma last_rev_head (l : list dent) : last l = head (rev l).
Proof using Type.
  rewrite <- (rev_involutive l) at 1. destruct (rev l) as [|x r]; [done|]. cbn [rev head]. by rewrite last_snoc.
Qed.

Lemma unlink_listing V b e l1 d l2 :
  listing V b 0 e (l1 ++ d :: l2) = true ->
  listing (unlink_disk V b (last l1) d) b 0 e (unlinked l1 d l2) = true.
Proof using Type.
  intros Hl. unfold unlink_disk, unlinked. rewrite last_rev_head. destruct (rev l1) as [|x r] eqn:E; cbn [head].
  - assert (l1 = []) as -> by (rewrite <- (rev_involutive l1), E; done). cbn [app] in Hl.
    assert ((if at_block d then None else None) = (None : option dent)) as -> by by destruct (at_block d).
    by apply (listing_set_ino V b 0 e [] d l2 0).
  - assert (l1 = rev r ++ [x]) as -> by (rewrite <- (rev_involutive l1), E; done).
    unfold at_block. destruct (Z.eqb_spec (de_off d mod DIRBLKSIZ) 0) as [E0|E0].
    + by apply (listing_set_ino V b 0 e (rev r ++ [x]) d l2 0).
    + rewrite <- app_assoc in Hl. by apply listing_join.
Qed.

Lemma unlink_only V b prev d : only_frag V (unlink_disk V b prev d) b.
Proof using Type.
  intros b' i Hb. unfold unlink_disk. destruct (if at_block d then None else prev); [apply vput16_ne|apply vput32_ne]; by left.
Qed.

(** What [dir_is_not_empty] says of an inode. *)
Definition occupancy (w : world) (inum n : Z) : Prop :=
  (ino_is_dir (w_fs w) (w_disk w) inum = false /\ n = 0) \/
  (exists ls, directory (w_fs w) (w_globals w) (w_disk w) inum ls /\
     n = if 2 <? live_count (concat ls) then 1 else 0).

Lemma wp_occupancy (Q : Z -> S -> Prop) s w inum n :
  wf_files (w_fs w) (w_globals w) -> rep s w -> occupancy w inum n ->
  (forall s', rep s' w -> Q n s') -> wp (dir_is_not_empty inum) Q s.
Proof.
  intros Hw Hr [[Hf ->]|(ls & Hd & ->)] HQ.
  - by eapply wp_dir_is_not_empty_file.
  - by eapply wp_dir_is_not_empty.
Qed.

Lemma drop_numbered ls k : 0 <= k <= zlen ls ->
  (drop (Z.to_nat k) (numbered ls)).*1 = upto k (zlen ls) 1 /\ zlen (drop (Z.to_nat k) (numbered ls)) = zlen ls - k.
Proof using Type.
  intros Hk. assert (length (numbered ls) = length ls) as Hlen.
  { rewrite <- (length_fmap fst), numbered_fst. unfold upto. rewrite length_fmap, length_seqZ, Z.div_1_r. unfold zlen. lia. }
  split.
  - rewrite fmap_drop, numbered_fst. unfold upto. rewrite <- fmap_drop.
    replace ((zlen ls - 0 + 1 - 1) / 1) with (k + (zlen ls - k)) by (rewrite Z.div_1_r; lia).
    replace ((zlen ls - k + 1 - 1) / 1) with (zlen ls - k) by (rewrite Z.div_1_r; lia).
    rewrite seqZ_app by lia. rewrite drop_app_length' by (rewrite length_seqZ; lia).
    rewrite Z.add_0_l. pose proof (fmap_add_seqZ k 0 (zlen ls - k)) as E. rewrite Z.add_0_r in E. rewrite <- E.
    rewrite <- list_fmap_compose. apply list_fmap_ext. intros i x _. cbn. lia.
  - unfold zlen in *. rewrite length_drop, Hlen. lia.
Qed.

(** The bytes of a directory and its number of fragments. *)
Lemma dir_blks_bounds (f : fs) gl size : wf_files f gl -> 0 <= size ->
  size <= dir_blks f size * fs_fsize f < size + fs_fsize f.
Proof using Type.
  intros Hw H0. pose proof (fsize_pos f gl Hw) as Hp. unfold dir_blks. rewrite Z.quot_div_nonneg by lia.
  pose proof (Z.div_mod (size + fs_fsize f - 1) (fs_fsize f) ltac:(lia)) as E.
  pose proof (Z.mod_pos_bound (size + fs_fsize f - 1) (fs_fsize f) Hp). lia.
Qed.

(** The outcome of [dir_offset_delete] from the entry found. *)
Definition delete_outcome (w : world) (pinum check n : Z) (r : option (Z * option dent * dent)) : Z * world :=
  match r with
  | Some (k, prev, d) =>
      if negb (check =? 0) && negb (n =? 0)
      then (0, w_set_globals (set_Res2 ERROR_DIRECTORY_NOT_EMPTY (w_globals w)) w)
      else (de_ino d,
            w_set_disk (unlink_disk (w_disk w) (frag_of (w_fs w) (w_globals w) (w_disk w) pinum k) prev d) w)
  | None => (0, w_set_globals (set_Res2 ERROR_OBJECT_NOT_FOUND (w_globals w)) w)
  end.

(** The entry found is taken out of a buffer for its fragment. *)
Lemma wp_delete_write (Q : Z -> S -> Prop) s w pinum size buf j l1 d l2
    (fr := frag_of (w_fs w) (w_globals w) (w_disk w) pinum j) :
  wf_files (w_fs w) (w_globals w) -> rep s w -> 0 <= size ->
  listing (w_disk w) fr 0 (dir_end (w_fs w) size j) (l1 ++ d :: l2) = true ->
  (forall s', rep s' (w_set_disk (unlink_disk (w_disk w) fr (last l1) d) w) -> Q (de_ino d) s') ->
  wp (buf' <- cache_frag_write fr 1 ;;
      match buf' with
      | None => ret 0
      | Some buf' => unlink_entry (buf + de_off d + (buf' - buf))
          (option_map (fun last => last + (buf' - buf))
            (if at_block d then None else option_map (fun x => buf + de_off x) (last l1))) (de_ino d)
      end) Q s.
Proof using CL FL.
  intros Hw Hr H0 Hl HQ. pose proof (dir_end_bounds (w_fs w) size j (fsize_pos _ _ Hw) H0) as He.
  apply wp_bnd. eapply wp_cache_frag_write; [exact Hr|apply frag_of_u32|done|].
  intros q s4 Hr4 Ho4. cbv beta iota. replace (buf + de_off d + (q - buf)) with (q + de_off d) by lia.
  replace (option_map _ (if at_block d then None else _))
    with (if at_block d then None else option_map (fun x => q + de_off x) (last l1))
    by (destruct (at_block d), (last l1); cbn [option_map]; try done; f_equal; lia).
  eapply wp_unlink_entry; [done|done|apply He|exact Hl|done].
Qed.

Lemma wp_dir_offset_delete (Q : Z -> S -> Prop) s w pinum ls offset check n
    (size := ino_size (w_fs w) (w_disk w) pinum)
    (r := find_offset (fs_fsize (w_fs w)) offset
       (drop (Z.to_nat (offset / fs_fsize (w_fs w))) (numbered ls))) :
  wf_files (w_fs w) (w_globals w) -> rep s w ->
  directory (w_fs w) (w_globals w) (w_disk w) pinum ls ->
  0 < offset < size -> size + fs_fsize (w_fs w) < 2 ^ 32 ->
  (check <> 0 -> forall k prev d, r = Some (k, prev, d) -> occupancy w (de_ino d) n) ->
  (forall s', rep s' (delete_outcome w pinum check n r).2 -> Q (delete_outcome w pinum check n r).1 s') ->
  wp (dir_offset_delete pinum offset check) Q s.
Proof.
  intros Hw Hr Hd Hoff Hsz Hocc HQ. pose proof (directory_frags _ _ _ Hd) as Hfr. destruct Hd as [D1 D2 D3 D4].
  pose proof (fsize_pos _ _ Hw) as Hp. pose proof (dir_blks_bounds _ _ _ Hw D2) as Hbl. rewrite <- D3 in Hbl.
  fold size in D2, D3, Hbl. assert (in_u32 size) as Hu by (unfold in_u32; lia).
  set (k := offset / fs_fsize (w_fs w)) in *.
  assert (0 <= k) as Hk0 by (apply Z.div_pos; lia).
  assert (k <= zlen ls) as Hk1 by (apply Z.div_le_upper_bound; lia).
  destruct (drop_numbered ls k (conj Hk0 Hk1)) as [Hfst Hlen].
  unfold dir_offset_delete. apply wp_bnd. eapply wp_inode_read; [done|]. intros p s1 Hr1 Ho1. cbv beta iota.
  apply wp_bnd. eapply wp_IC_SIZE; [done|done|done|]. fold size. rewrite (u32_small size) by done.
  rewrite (proj2 (Z.eqb_neq _ _)), (proj2 (Z.ltb_ge _ _)) by lia. cbn [orb]. apply wp_bnd.
  eapply wp_FSIZE; [done|]. cbv beta. apply wp_bnd.
  eapply wp_dir_extent; [done|done|done|]. cbn [fst snd]. cbv zeta. fold size.
  rewrite (u32_small (dir_blks _ _)) by (rewrite <- D3; unfold in_u32; pose proof (zlen_nonneg ls); nia).
  rewrite (u32_small (dir_spill _ _)) by (unfold dir_spill, in_u32; rewrite Z.rem_mod_nonneg by lia;
    pose proof (Z.mod_pos_bound size (fs_fsize (w_fs w)) Hp); lia).
  fold k. apply wp_bnd. rewrite <- D3 at 1. rewrite <- Hfst.
  eapply wp_delete_frags; [done|done|done|done| |rewrite Hlen; fold size; unfold in_u32; pose proof (zlen_nonneg ls);
    replace (k + (zlen ls - k)) with (zlen ls) by lia; nia|].
  { unfold dir_run. rewrite Hlen. replace (k + (zlen ls - k)) with (zlen ls) by lia. split; [done|]. split; [done|].
    intros j l Hj. apply Hfr. eapply subseteq_drop. exact Hj. }
  intros x s2 Hr2 Hx. fold r in Hx. destruct r as [[[j prev] d]|] eqn:Er; cbn [delete_found] in Hx.
  2: { subst x. cbn [delete_outcome fst snd] in HQ. apply wp_bnd. eapply wp_upd_glob; [done|].
       intros s3 Hr3 _. by apply wp_ret, HQ. }
  destruct Hx as (buf & -> & Ho2). cbv iota. unfold r in Er. apply find_offset_split in Er as (l1 & l2 & Hin & -> & _).
  destruct (Hfr j (l1 ++ d :: l2)) as [Hj Hl]; [by eapply subseteq_drop|].
  destruct (listing_elem _ _ _ _ _ d (Z.le_refl 0) Hl) as (Ed & Hs & H0).
  { apply elem_of_app. right. by left. }
  pose proof (dir_end_bounds (w_fs w) size j Hp D2) as He.
  apply wp_bnd. eapply wp_dent_ino; [done|done|apply He|done|done|exact Hs|]. cbv beta.
  cbn [delete_outcome] in HQ. apply wp_bnd. destruct (Z.eqb_spec check 0) as [->|Hc]; cbn [negb andb] in *.
  - apply wp_ret. cbv beta. cbn [negb Z.eqb].
    eapply (wp_delete_write _ _ w pinum size); [exact Hw|exact Hr2|exact D2|exact Hl|exact HQ].
  - eapply wp_occupancy; [done|done|by apply (Hocc Hc j (last l1) d)|]. intros s3 Hr3.
    destruct (n =? 0); cbn [negb fst snd] in *; [eapply (wp_delete_write _ _ w pinum size); [exact Hw|exact Hr3|exact D2|exact Hl|exact HQ]|].
    apply wp_bnd. eapply wp_upd_glob; [done|]. intros s4 Hr4 _. by apply wp_ret, HQ.
Qed.

End Update.
