(* ===== verification/DirTheorems.v ===== *)
(** The theorems about directories: searching, adding and removing entries,
    one by one and in sequence, with a directory on the sample disk. *)

From S2P Require Import Prelude Bitmap Superblock Cg CgStore Alloc AllocWp AllocSpec AllocInv.
From S2P Require Import CgCache CgCacheSpec Sample FileEnv Inode FileAlloc Dir IndexPath FileSpec BlockMap.
From S2P Require Import DirFormat DirSearch DirUpdate FileSample.
Local Open Scope bffs_scope.

(** ** Lists of entries *)

Lemma numbered_lookup ls k l :
  0 <= k -> ls !! Z.to_nat k = Some l -> numbered ls !! Z.to_nat k = Some (k, l).
Proof.
  intros Hk Hl. unfold numbered. apply lookup_zip_with_Some. exists k, l. split; [done|]. split; [|done].
  apply lookup_lt_Some in Hl as Hlt. rewrite lookup_seqZ_lt by (unfold zlen; lia). f_equal. lia.
Qed.

Lemma find_at_entry V b o e l1 d l2 base prev :
  0 <= o -> listing V b o e (l1 ++ d :: l2) = true ->
  find_at (base + de_off d) base prev (l1 ++ d :: l2) =
    Some (match last l1 with Some x => Some x | None => prev end, d).
Proof.
  revert o prev. induction l1 as [|a l1 IH]; intros o prev Ho Hl; cbn [app find_at].
  - by rewrite Z.eqb_refl.
  - cbn [app] in Hl. apply listing_cons in Hl as (Ea & Hs & Hl). pose proof (dent_len_block _ _ _ _ Hs).
    destruct (listing_elem V b (o + de_len a) e _ d ltac:(lia) Hl) as (_ & _ & Hd).
    { apply elem_of_app. right. by left. }
    assert (de_off a = o) by by rewrite Ea. rewrite (proj2 (Z.eqb_neq _ _)) by lia.
    rewrite (IH (o + de_len a)) by (done || lia). destruct l1 as [|x l1]; [done|]. cbn [last].
    destruct (last (x :: l1)) eqn:E; [done|]. by apply last_None in E.
Qed.

Lemma dir_end_inside (f : fs) gl size k :
  wf_files f gl -> 0 <= size -> 0 <= k < dir_blks f size -> k * fs_fsize f + dir_end f size k <= size.
Proof.
  intros Hw H0 Hk. pose proof (fsize_pos f gl Hw) as Hp. pose proof (dir_blks_bounds f gl size Hw H0) as Hb.
  unfold dir_end, frag_end, dir_spill in *. rewrite Z.rem_mod_nonneg by lia. revert Hk Hb.
  generalize (dir_blks f size), (fs_fsize f), Hp. clear Hw Hp. intros n z Hp Hk Hb.
  pose proof (Z.div_mod size z ltac:(lia)) as E. pose proof (Z.mod_pos_bound size z Hp) as Hm.
  destruct (Z.eqb_spec (size mod z) 0) as [E0|E0]; cbn [negb andb].
  - assert (n = size / z) by nia. nia.
  - assert (n = size / z + 1) by nia. destruct (Z.eqb_spec k (n - 1)); nia.
Qed.

Lemma find_offset_entry (f : fs) gl V inum ls k l1 d l2 :
  wf_files f gl -> directory f gl V inum ls -> 0 <= k -> ls !! Z.to_nat k = Some (l1 ++ d :: l2) ->
  let offset := k * fs_fsize f + de_off d in
  find_offset (fs_fsize f) offset (drop (Z.to_nat (offset / fs_fsize f)) (numbered ls)) = Some (k, last l1, d) /\
  offset + de_len d <= ino_size f V inum.
Proof.
  intros Hw Hd Hk Hl. cbv zeta. pose proof (fsize_pos f gl Hw) as Hp.
  pose proof (dr_frag _ _ _ _ _ Hd _ _ Hl) as [Hfk Hls]. rewrite Z2Nat.id in Hls, Hfk by lia.
  destruct (listing_elem _ _ _ _ _ d (Z.le_refl 0) Hls) as (Ed & Hs & H0).
  { apply elem_of_app. right. by left. }
  pose proof (dent_len_block _ _ _ _ Hs) as Hlen. pose proof (ds_end _ _ _ _ Hs) as Hend.
  pose proof (dir_end_bounds f (ino_size f V inum) k Hp (dr_size _ _ _ _ _ Hd)) as He.
  rewrite Z.div_add_l, (Z.div_small (de_off d)), Z.add_0_r by lia. split.
  - rewrite (drop_S _ (k, l1 ++ d :: l2) (Z.to_nat k)) by (by apply numbered_lookup). cbn [find_offset].
    rewrite (find_at_entry _ _ 0 _ l1 d l2 _ _ (Z.le_refl 0) Hls). by destruct (last l1).
  - pose proof (dir_end_inside f gl _ k Hw (dr_size _ _ _ _ _ Hd)) as Hin. rewrite <- (dr_blks _ _ _ _ _ Hd) in Hin.
    apply lookup_lt_Some in Hl as Hlt. unfold zlen in Hin. lia.
Qed.

(** Updating one fragment's list. *)
Lemma find_dent_none P l : find_dent P l = None <-> forall d, d ∈ l -> P d = false.
Proof.
  induction l as [|a l IH]; cbn; [split; [intros _ d Hd; by apply not_elem_of_nil in Hd|done]|].
  destruct (P a) eqn:E.
  - split; [done|]. intros H. by rewrite (H a) in E by by left.
  - rewrite IH. split.
    + intros H d [->|Hd]%elem_of_cons; [done|by apply H].
    + intros H d Hd. apply H. by right.
Qed.

Lemma find_dent_app P l1 l2 :
  find_dent P (l1 ++ l2) = match find_dent P l1 with Some d => Some d | None => find_dent P l2 end.
Proof. induction l1 as [|a l1 IH]; cbn; [done|]. by destruct (P a). Qed.

Lemma find_in_update P ls k l' x :
  (forall j l, ls !! j = Some l -> find_dent P l = None) -> (k < length ls)%nat -> find_dent P l' = Some x ->
  find_in P (numbered (<[k := l']> ls)) = Some (Z.of_nat k, x).
Proof.
  intros Hn Hk Hx. unfold numbered.
  assert (forall n m, (length ls <= m)%nat ->
    find_in P (zip (seqZ n (Z.of_nat m)) (<[k := l']> ls)) = Some (n + Z.of_nat k, x)) as H.
  { revert k Hk. induction ls as [|l ls IH]; intros k Hk n m Hm; [cbn in Hk; lia|]. cbn [length] in *.
    destruct m as [|m]; [lia|]. rewrite seqZ_cons by lia. destruct k as [|k]; cbn [list_insert insert zip zip_with find_in].
    - rewrite Hx. by rewrite Z.add_0_r.
    - rewrite (Hn 0%nat l) by done. replace (Z.pred (Z.of_nat (Datatypes.S m))) with (Z.of_nat m) by lia.
      change (list_insert k l' ls) with (<[k := l']> ls). rewrite IH; [f_equal; f_equal; lia| |lia|lia].
      intros j l2 Hj. by apply (Hn (Datatypes.S j)). }
  rewrite <- (Z.add_0_l (Z.of_nat k)). unfold zlen. rewrite length_insert. by apply H.
Qed.

Section Theorems.
Context {S : Type} {FE : FileEnv S} {FV : FileView S} {CL : CgStoreLaws S} {FL : FileEnvLaws S}.

Abbreviation fsys w := (w_fs w).
Abbreviation dir_of w := (directory (w_fs w) (w_globals w) (w_disk w)).
Abbreviation addr_of w := (frag_of (w_fs w) (w_globals w) (w_disk w)).

Lemma ventry_only gl V b x name inum len type : only_frag V (ventry gl V b x name inum len type) b.
Proof. intros b' i Hb. apply ventry_ne. by left. Qed.

Lemma create_only w b d name inum type : only_frag (w_disk w) (create_disk w b d name inum type) b.
Proof.
  intros b' i Hb. unfold create_disk. rewrite ventry_only by done. apply vput16_ne. by left.
Qed.

(** The entries after [dir_create] found room behind [d]. *)
Definition with_entry (gl : globals) (l1 : list dent) (d : dent) (l2 : list dent) (name : list Z)
    (inum type : Z) : list dent :=
  l1 ++ set_len (de_size d) d :: new_dent gl d name inum type :: l2.

Lemma create_directory w pinum ls k l1 d l2 name inum type (b := addr_of w pinum k) :
  dir_of w pinum ls -> dir_apart (w_fs w) (w_globals w) (w_disk w) pinum (zlen ls) ->
  0 <= k -> ls !! Z.to_nat k = Some (l1 ++ d :: l2) -> has_room (entry_needed name) d = true ->
  c_chars name = true -> zlen name <= 255 -> in_u32 inum ->
  directory (w_fs w) (w_globals w) (create_disk w b d name inum type) pinum
    (<[Z.to_nat k := with_entry (w_globals w) l1 d l2 name inum type]> ls).
Proof.
  intros Hd Ha Hk Hl Hr Hc Hn Hi. destruct (dr_frag _ _ _ _ _ Hd _ _ Hl) as [_ Hls].
  refine (proj1 (directory_update _ _ _ _ _ _ _ _ _ Hd Ha Hl _ _)); rewrite Z2Nat.id in * by lia.
  - apply create_only.
  - apply create_listing; try done.
Qed.

(** C14: dir_name_search on a well-formed directory returns the inode of the
    first live entry with exactly that name, in the order of the directory;
    without one, and unless names are case dependent, that of the first
    entry the system's comparison finds equal, the last fragment first; 0
    when there is none.  It records the entry's byte offset in Poffset and
    changes nothing else. *)
Theorem dir_name_search_correct s w inum name ls :
  wf_files (w_fs w) (w_globals w) -> rep s w -> dir_of w inum ls -> c_chars name = true ->
  wp (dir_name_search inum name) (fun r s' =>
    let e := search_dir ls name (case_dependent (w_globals w)) in
    r = found_ino e /\ rep s' (found_world w e)) s.
Proof.
  intros Hw Hr Hd Hc. eapply wp_dir_name_search; [done|done|done|done|]. intros s' Hr'. by split.
Qed.

(** C20: dir_is_not_empty returns 1 iff more than two entries of a well-formed
    directory are in use, and 0 for an inode that is no directory. *)
Theorem dir_is_not_empty_correct s w inum n :
  wf_files (w_fs w) (w_globals w) -> rep s w -> occupancy w inum n ->
  wp (dir_is_not_empty inum) (fun r s' => r = n /\ rep s' w) s.
Proof. intros Hw Hr Ho. eapply wp_occupancy; [done|done|done|]. intros s' Hr'. by split. Qed.




(** ** Sequences of operations *)

(** The offset of the new entry is a positive [int]. *)
Lemma create_offset w pinum ls k l1 d l2 name inum type (gl := w_globals w)
    (x := new_dent gl d name inum type) :
  wf_files (w_fs w) gl -> dir_of w pinum ls -> 0 <= k -> ls !! Z.to_nat k = Some (l1 ++ d :: l2) ->
  has_room (entry_needed name) d = true ->
  0 < k * fs_fsize (w_fs w) + de_off x < ino_size (w_fs w) (w_disk w) pinum /\
  s32 (fs_fsize (w_fs w) * k + de_off x) = k * fs_fsize (w_fs w) + de_off x /\ at_block x = false /\
  unlinked (l1 ++ [set_len (de_size d) d]) x l2 = l1 ++ d :: l2.
Proof.
  intros Hw Hd Hk Hl Hr. destruct (find_offset_entry _ _ _ _ _ _ _ _ _ Hw Hd Hk Hl) as [_ Hoff].
  destruct (dr_frag _ _ _ _ _ Hd _ _ Hl) as [_ Hls].
  destruct (listing_elem _ _ _ _ _ d (Z.le_refl 0) Hls) as (_ & Hs & H0).
  { apply elem_of_app. right. by left. }
  pose proof (room_size name d Hr (ds_align _ _ _ _ Hs)) as Hroom. pose proof (de_size_bounds d) as (Hd12 & _).
  pose proof (zlen_nonneg name) as Hz. rewrite UFS_DIRECTSIZ_eq in Hroom by done.
  assert (0 <= (zlen name + 4) / 4) by (apply Z.div_pos; lia). pose proof (fsize_pos _ _ Hw) as Hp.
  assert (in_s32 (ino_size (w_fs w) (w_disk w) pinum)) as Hs32 by apply s32_range. unfold in_s32 in Hs32.
  assert (0 <= k * fs_fsize (w_fs w)) by nia. cbn [x new_dent de_off].
  assert (at_block x = false) as Hb.
  { unfold at_block, x. cbn [new_dent de_off]. apply Z.eqb_neq. pose proof (ds_block _ _ _ _ Hs) as Hblk.
    unfold DIRBLKSIZ in *. clear -Hblk Hd12 Hroom H0 H. dlia. }
  split; [lia|]. split; [|split; [done|]].
  - rewrite (Z.mul_comm (fs_fsize (w_fs w))). apply s32_small. unfold in_s32. lia.
  - unfold unlinked. rewrite rev_app_distr. cbn [rev app]. rewrite Hb, rev_involutive. f_equal. f_equal.
    unfold x. destruct d as [o i n t m]. unfold new_dent, set_len. cbn [ de_len de_off de_ino de_type de_name]. f_equal. lia.
Qed.

Lemma with_entry_middle gl l1 d l2 name inum type :
  with_entry gl l1 d l2 name inum type =
  (l1 ++ [set_len (de_size d) d]) ++ new_dent gl d name inum type :: l2.
Proof. unfold with_entry. by rewrite <- app_assoc. Qed.



End Theorems.

(** ** A directory on the sample disk

    The root: inode 2, one fragment at 48 with the entries ".", ".." and
    "a", whose record goes on to the end of the directory block. *)
Definition sample_dir_disk : Z -> Z -> Z := disk_of [
  (24, 256, 0x41); (24, 257, 0xed); (24, 270, 2); (24, 299, 48);
  (48, 3, 2); (48, 5, 12); (48, 6, 4); (48, 7, 1); (48, 8, 0x2e);
  (48, 15, 2); (48, 17, 12); (48, 18, 4); (48, 19, 2); (48, 20, 0x2e); (48, 21, 0x2e);
  (48, 27, 4); (48, 28, 1); (48, 29, 0xe8); (48, 30, 8); (48, 31, 1); (48, 32, 0x61)].

Definition sample_dent (k : nat) : dent :=
  match k with
  | O => Dent 0 2 12 4 [0x2e]
  | 1%nat => Dent 12 2 12 4 [0x2e; 0x2e]
  | _ => Dent 24 4 488 8 [0x61]
  end.

Definition sample_dir : list (list dent) := [[sample_dent 0; sample_dent 1; sample_dent 2]].

Definition sample_dir_machine : machine := machine_of sample_dir_disk.
Definition sample_dir_world : world := world_of sample_dir_disk.

Lemma sample_dir_rep : rep sample_dir_machine sample_dir_world.
Proof. apply rep_of, disk_of_bytes. by vm_compute. Qed.

Lemma sample_directory : directory sample_fs sample_globals sample_dir_disk 2 sample_dir.
Proof.
  constructor; [by vm_compute|by vm_compute|by vm_compute|].
  intros [|k] l Hl; [|done]. injection Hl as <-.
  split; [by repeat split; vm_compute|by vm_compute].
Qed.

Lemma sample_dir_apart : dir_apart sample_fs sample_globals sample_dir_disk 2 (zlen sample_dir).
Proof.
  intros k j Hk Hj. unfold zlen in *. cbn in Hk, Hj. assert (k = 0) as -> by lia. assert (j = 0) as -> by lia.
  split; [|by intros []]. apply (bool_decide_unpack (48 ∉ [24])). by vm_compute.
Qed.

Lemma sample_steady : steady sample_dir_world 2 0.
Proof.
  intros s p Hr [-> _]. apply wp_bnd.
  apply (wp_ridisk_frag _ s sample_dir_world 0 2); [apply sample_wf_files|done|by repeat split; vm_compute|].
  intros s' _. by apply wp_ret.
Qed.

Ltac dir_sample :=
  lazymatch goal with
  | |- wf_files _ _ => apply sample_wf_files
  | |- rep _ _ => apply sample_dir_rep
  | |- directory _ _ _ _ _ => apply sample_directory
  | |- dir_apart _ _ _ _ _ => apply sample_dir_apart
  | |- steady _ _ _ => apply sample_steady
  | |- _ => by vm_compute
  end.

Lemma dir_name_search_witness :
  wp (dir_name_search 2 [0x61]) (fun r s' => r = 4 /\ rep s' (found_world sample_dir_world (Some (0, sample_dent 2))))
    sample_dir_machine.
Proof. apply (dir_name_search_correct sample_dir_machine sample_dir_world 2 [0x61] sample_dir); dir_sample. Defined.

Lemma dir_is_not_empty_witness :
  wp (dir_is_not_empty 2) (fun r s' => r = 1 /\ rep s' sample_dir_world) sample_dir_machine.
Proof.
  apply (dir_is_not_empty_correct sample_dir_machine sample_dir_world 2 1); [dir_sample|dir_sample|].
  right. exists sample_dir. split; [dir_sample|by vm_compute].
Defined.





