(* ===== verification/Mount.v ===== *)
(** [ufs.c]: the interface to the disk device and the mount: reading and
    writing with the range check and the retries, the disk labels, the search
    for the superblock, its summary area, the masks computed from it, and
    writing it back.

    The superblock is in memory here, as [struct fs] of ufs/fs.h is laid out;
    the [fs] record of the other files is what it holds. *)

From S2P Require Import Prelude Superblock FileEnv.
Local Open Scope bffs_scope.

(** ** The globals of ufs.c *)

Record mount := Mount {
  sb_ptr : option Z;                   (* superblock *)
  superblock_sector : Z;
  psectoffset : Z;
  psectmax : Z;
  phys_sectorsize : Z;
  phys_sectorshift : Z;
  use_td64 : Z;
  physical_ro : Z;
  fs_partition : Z;
  no_Sun_label : Z;
  no_BSD_label : Z;
  fsize : Z;                           (* FSIZE *)
  bsize : Z;                           (* FBSIZE *)
  cgsummary_base : option Z;
  fs_lbmask : Z;
  mt_lfmask : Z;                       (* fs_lfmask *)
  mt_bsd44fs : Z;                      (* bsd44fs *)
  mt_fblkshift : Z;
  mt_fblkmask : Z;
  mt_pfragshift : Z;
  mt_pfragmask : Z;
  motor_is_on : Z }.

(** Assignments to them. *)
Definition set_sb_ptr (v : option Z) (m : mount) : mount :=
  Mount v (superblock_sector m) (psectoffset m) (psectmax m) (phys_sectorsize m) (phys_sectorshift m)
    (use_td64 m) (physical_ro m) (fs_partition m) (no_Sun_label m) (no_BSD_label m) (fsize m) (bsize m)
    (cgsummary_base m) (fs_lbmask m) (mt_lfmask m) (mt_bsd44fs m) (mt_fblkshift m) (mt_fblkmask m)
    (mt_pfragshift m) (mt_pfragmask m) (motor_is_on m).
Definition set_psectoffset (v : Z) (m : mount) : mount :=
  Mount (sb_ptr m) (superblock_sector m) v (psectmax m) (phys_sectorsize m) (phys_sectorshift m)
    (use_td64 m) (physical_ro m) (fs_partition m) (no_Sun_label m) (no_BSD_label m) (fsize m) (bsize m)
    (cgsummary_base m) (fs_lbmask m) (mt_lfmask m) (mt_bsd44fs m) (mt_fblkshift m) (mt_fblkmask m)
    (mt_pfragshift m) (mt_pfragmask m) (motor_is_on m).
Definition set_sector (size shift : Z) (m : mount) : mount :=
  Mount (sb_ptr m) (superblock_sector m) (psectoffset m) (psectmax m) size shift
    (use_td64 m) (physical_ro m) (fs_partition m) (no_Sun_label m) (no_BSD_label m) (fsize m) (bsize m)
    (cgsummary_base m) (fs_lbmask m) (mt_lfmask m) (mt_bsd44fs m) (mt_fblkshift m) (mt_fblkmask m)
    (mt_pfragshift m) (mt_pfragmask m) (motor_is_on m).
Definition set_device (sector pmax td64 : Z) (m : mount) : mount :=
  Mount (sb_ptr m) sector (psectoffset m) pmax (phys_sectorsize m) (phys_sectorshift m)
    td64 (physical_ro m) (fs_partition m) (no_Sun_label m) (no_BSD_label m) (fsize m) (bsize m)
    (cgsummary_base m) (fs_lbmask m) (mt_lfmask m) (mt_bsd44fs m) (mt_fblkshift m) (mt_fblkmask m)
    (mt_pfragshift m) (mt_pfragmask m) (motor_is_on m).
Definition set_use_td64 (v : Z) (m : mount) : mount :=
  set_device (superblock_sector m) (psectmax m) v m.
Definition set_labels (part sun bsd : Z) (m : mount) : mount :=
  Mount (sb_ptr m) (superblock_sector m) (psectoffset m) (psectmax m) (phys_sectorsize m) (phys_sectorshift m)
    (use_td64 m) (physical_ro m) part sun bsd (fsize m) (bsize m)
    (cgsummary_base m) (fs_lbmask m) (mt_lfmask m) (mt_bsd44fs m) (mt_fblkshift m) (mt_fblkmask m)
    (mt_pfragshift m) (mt_pfragmask m) (motor_is_on m).
Definition set_fs_partition (v : Z) (m : mount) : mount := set_labels v (no_Sun_label m) (no_BSD_label m) m.
Definition set_no_Sun_label (v : Z) (m : mount) : mount := set_labels (fs_partition m) v (no_BSD_label m) m.
Definition set_no_BSD_label (v : Z) (m : mount) : mount := set_labels (fs_partition m) (no_Sun_label m) v m.
Definition set_sizes (f b : Z) (m : mount) : mount :=
  Mount (sb_ptr m) (superblock_sector m) (psectoffset m) (psectmax m) (phys_sectorsize m) (phys_sectorshift m)
    (use_td64 m) (physical_ro m) (fs_partition m) (no_Sun_label m) (no_BSD_label m) f b
    (cgsummary_base m) (fs_lbmask m) (mt_lfmask m) (mt_bsd44fs m) (mt_fblkshift m) (mt_fblkmask m)
    (mt_pfragshift m) (mt_pfragmask m) (motor_is_on m).
Definition set_fsize (v : Z) (m : mount) : mount := set_sizes v (bsize m) m.
Definition set_bsize (v : Z) (m : mount) : mount := set_sizes (fsize m) v m.
Definition set_cgsummary (v : option Z) (m : mount) : mount :=
  Mount (sb_ptr m) (superblock_sector m) (psectoffset m) (psectmax m) (phys_sectorsize m) (phys_sectorshift m)
    (use_td64 m) (physical_ro m) (fs_partition m) (no_Sun_label m) (no_BSD_label m) (fsize m) (bsize m)
    v (fs_lbmask m) (mt_lfmask m) (mt_bsd44fs m) (mt_fblkshift m) (mt_fblkmask m)
    (mt_pfragshift m) (mt_pfragmask m) (motor_is_on m).
Definition set_format (lb lf v44 : Z) (m : mount) : mount :=
  Mount (sb_ptr m) (superblock_sector m) (psectoffset m) (psectmax m) (phys_sectorsize m) (phys_sectorshift m)
    (use_td64 m) (physical_ro m) (fs_partition m) (no_Sun_label m) (no_BSD_label m) (fsize m) (bsize m)
    (cgsummary_base m) lb lf v44 (mt_fblkshift m) (mt_fblkmask m)
    (mt_pfragshift m) (mt_pfragmask m) (motor_is_on m).
Definition set_shifts (bs bm ps pm : Z) (m : mount) : mount :=
  Mount (sb_ptr m) (superblock_sector m) (psectoffset m) (psectmax m) (phys_sectorsize m) (phys_sectorshift m)
    (use_td64 m) (physical_ro m) (fs_partition m) (no_Sun_label m) (no_BSD_label m) (fsize m) (bsize m)
    (cgsummary_base m) (fs_lbmask m) (mt_lfmask m) (mt_bsd44fs m) bs bm ps pm (motor_is_on m).
Definition set_motor (v : Z) (m : mount) : mount :=
  Mount (sb_ptr m) (superblock_sector m) (psectoffset m) (psectmax m) (phys_sectorsize m) (phys_sectorshift m)
    (use_td64 m) (physical_ro m) (fs_partition m) (no_Sun_label m) (no_BSD_label m) (fsize m) (bsize m)
    (cgsummary_base m) (fs_lbmask m) (mt_lfmask m) (mt_bsd44fs m) (mt_fblkshift m) (mt_fblkmask m)
    (mt_pfragshift m) (mt_pfragmask m) v.

(** struct DosEnvec, the mount entry. *)
Record dosenvec := DosEnvec {
  de_SizeBlock : Z;
  de_Surfaces : Z;
  de_BlocksPerTrack : Z;
  de_Reserved : Z;
  de_PreAlloc : Z;
  de_LowCyl : Z;
  de_HighCyl : Z;
  de_Mask : Z }.

(** ** The device

    An IO request of trackdisk.device: command, length, buffer, byte offset
    and, for the 64 bit commands, the upper word of the offset.  [DoIO] moves
    the data between the disk and memory and returns io_Error; [do_request]
    asks the user whether to try again. *)

Inductive io_command := CMD_READ | CMD_WRITE | TD_READ64 | TD_WRITE64.

Record io_request := IORequest {
  io_Command : io_command;
  io_Length : Z;
  io_Data : Z;
  io_Offset : Z;
  io_Actual : Z }.

Class Device (S : Type) := {
  dv_mem :: Memory S;
  dv_mount : S -> mount;
  dv_set_mount : mount -> S -> S;
  dv_env : S -> dosenvec;
  DoIO : io_request -> M S Z;
  do_request : Z -> Z -> Z -> M S Z;
  dv_AllocMem : Z -> M S (option Z);
  dv_FreeMem : option Z -> Z -> M S unit;
  dv_time : M S Z }.

Definition REQUEST_BLOCK_BAD_R : Z := 2.
Definition REQUEST_BLOCK_BAD_W : Z := 3.
Definition BOOT_BLOCK : Z := 0.
Definition SUPER_BLOCK : Z := 16.
Definition MAX_PART : Z := 8.

(** ** Offsets in struct fs *)

Definition sb_time (p : Z) : Z := p + 32.
Definition sb_bsize (p : Z) : Z := p + 48.
Definition sb_fsize (p : Z) : Z := p + 52.
Definition sb_bmask (p : Z) : Z := p + 72.
Definition sb_fmask (p : Z) : Z := p + 76.
Definition sb_fshift (p : Z) : Z := p + 84.
Definition sb_fragshift (p : Z) : Z := p + 96.
Definition sb_nindir (p : Z) : Z := p + 116.
Definition sb_npsect (p : Z) : Z := p + 132.
Definition sb_interleave (p : Z) : Z := p + 136.
Definition sb_csaddr (p : Z) : Z := p + 152.
Definition sb_cssize (p : Z) : Z := p + 156.
Definition sb_nsect (p : Z) : Z := p + 168.
Definition sb_fmod (p : Z) : Z := p + 208.
Definition sb_clean (p : Z) : Z := p + 209.
Definition sb_ronly (p : Z) : Z := p + 210.
Definition sb_flags (p : Z) : Z := p + 211.
Definition sb_csp (p : Z) : Z := p + 844.
Definition sb_new_time (p : Z) : Z := p + 1076.       (* fs_new_time[1] *)
Definition sb_new_csaddr (p : Z) : Z := p + 1100.     (* fs_new_csaddr[1] *)
Definition sb_inodefmt (p : Z) : Z := p + 1324.
Definition sb_maxfilesize (p : Z) : Z := p + 1328.
Definition sb_qbmask (p : Z) : Z := p + 1336.
Definition sb_qfmask (p : Z) : Z := p + 1344.
Definition sb_postblformat (p : Z) : Z := p + 1356.
Definition sb_nrpos (p : Z) : Z := p + 1360.
Definition sb_magic (p : Z) : Z := p + 1372.

Definition FS_UFS1_MAGIC : Z := 0x011954.
Definition FS_UFS2_MAGIC : Z := 0x19540119.
Definition FS_FLAGS_SUJ : Z := 0x08.
Definition FS_FLAGS_MULTILEVEL : Z := 0x20.
Definition FS_FLAGS_GJOURNAL : Z := 0x40.
Definition FS_FLAGS_UPDATED : Z := 0x80.
Definition FS_42POSTBLFMT : Z := -1.
Definition FS_DYNAMICPOSTBLFMT : Z := 1.
Definition FS_44INODEFMT : Z := 2.

(** sun_label_t and bsd44_label_t. *)
Definition SunBB_MAGIC : Z := 0xdabe.
Definition sun_heads (p : Z) : Z := p + 436.
Definition sun_nspt (p : Z) : Z := p + 438.
Definition sun_start_cyl (p i : Z) : Z := p + 444 + 8 * i.
Definition sun_size (p i : Z) : Z := p + 448 + 8 * i.
Definition sun_magic (p : Z) : Z := p + 508.

Definition B44BB_MAGIC : Z := 0x82564557.
Definition sizeof_bsd44_label : Z := 276.
Definition bsd_magic (p : Z) : Z := p.
Definition bsd_magic2 (p : Z) : Z := p + 132.
Definition bsd_size (p i : Z) : Z := p + 148 + 16 * i.
Definition bsd_start_sec (p i : Z) : Z := p + 152 + 16 * i.

(** ** Pure parts *)

(** The start sector of disk fragment [num], as an ULONG. *)
Definition data_sector (m : mount) (num : Z) : Z :=
  u32 (u32 (u32 (fsize m) / phys_sectorsize m * num) + psectoffset m).

(** The switch on a sector size: the size and its shift, 512 for others. *)
Definition sector_size (temp : Z) : Z * Z :=
  let size := if existsb (Z.eqb temp) [16384; 8192; 4096; 2048; 1024; 512] then temp else 512 in
  (size, Z.log2 size).

(** The flag bits of the mount entry: resolve_symlinks, case_dependent,
    unix_paths, link_comments, inode_comments, og_perm_invert, minfree and
    the time zone, a signed char. *)
Definition env_flags (flags : Z) : list Z * Z :=
  ((fun i => Z.land (Z.shiftr flags i) 1) <$> [0; 1; 2; 3; 4; 5; 6],
   let gmt := Z.land (Z.shiftr flags 8) 255 in if gmt <? 128 then gmt else gmt - 256).

(** The switch at the top of the search loop. *)
Definition guess (ssector : Z) : Z :=
  if ssector =? 5 then 8
  else if ssector =? 10 then 6
  else if ssector =? 18 then 48
  else if ssector =? 49 then 64
  else if ssector =? 65 then 112
  else if ssector =? 113 then 240
  else ssector.

Definition valid_bsize (b : Z) : bool :=
  (b =? 4096) || (b =? 8192) || (b =? 16384) || (b =? 32768).

(** for (index = 1; index < csize; index <<= 1) pfragshift++ *)
Fixpoint shift_loop (fuel : nat) (index csize shift : Z) : option Z :=
  if index <? csize then
    match fuel with
    | O => None
    | Datatypes.S fuel => shift_loop fuel (Z.shiftl index 1) csize (shift + 1)
    end
  else Some shift.

Definition fs_shifts (fragshift nindir : Z) : option (Z * Z * Z * Z) :=
  match shift_loop 31 1 (Z.shiftr nindir fragshift) 0 with
  | Some shift => Some (fragshift, Z.shiftl 1 fragshift - 1, shift, Z.shiftl 1 shift - 1)
  | None => None
  end.

Section Mount.
Context {S : Type} `{Device S}.

(** How often the user is asked to retry before the model gives up on an
    answer that is always yes. *)
Context (patience : nat).

Definition mt {A} (f : mount -> A) : M S A := gets (fun s => f (dv_mount s)).
Definition upd_mt (f : mount -> mount) : M S unit := modify (fun s => dv_set_mount (f (dv_mount s)) s).
Definition env {A} (f : dosenvec -> A) : M S A := gets (fun s => f (dv_env s)).

(** A field of the superblock. *)
Definition sb_field (field : Z -> Z) : M S Z := p <- mt sb_ptr ;; p <- deref p ;; ret (field p).
Definition sb_rd8 (field : Z -> Z) : M S Z := p <- sb_field field ;; rd8 p.
Definition sb_rd32 (field : Z -> Z) : M S Z := p <- sb_field field ;; rd32 p.
Definition sb_rds32 (field : Z -> Z) : M S Z := p <- sb_field field ;; rds32 p.
Definition sb_wr8 (field : Z -> Z) (v : Z) : M S unit := p <- sb_field field ;; wr8 p v.
Definition sb_wr32 (field : Z -> Z) (v : Z) : M S unit := p <- sb_field field ;; wr32 p v.

(** ** data_read and data_write: 0 on success *)

(** Four tries after each request. *)
Fixpoint io_tries (n : nat) (io : io_request) : M S bool :=
  match n with
  | O => ret false
  | Datatypes.S n => e <- DoIO io ;; if e =? 0 then ret true else io_tries n io
  end.

Fixpoint io_retry (fuel : nat) (kind sectoff size : Z) (io : io_request) : M S Z :=
  again <- do_request kind sectoff size ;;
  if again =? 0 then ret 1
  else
    match fuel with
    | O => undef
    | Datatypes.S fuel =>
        ok <- io_tries 4 io ;;
        if (ok : bool) then ret 0 else io_retry fuel kind sectoff size io
    end.

(** The request for a transfer; the 32 bit commands do not use io_Actual. *)
Definition io_for (m : mount) (write : bool) (buf sectoff size : Z) : io_request :=
  let offset := u32 (Z.shiftl sectoff (phys_sectorshift m)) in
  if negb (use_td64 m =? 0)
  then IORequest (if write then TD_WRITE64 else TD_READ64) size buf offset
         (Z.shiftr sectoff (32 - phys_sectorshift m))
  else IORequest (if write then CMD_WRITE else CMD_READ) size buf offset 0.

(** [tries] is the number of calls of data_read on the stack: it calls itself
    once, when the 64 bit command is found not to work. *)
Fixpoint data_read_loop (tries : nat) (buf num size : Z) : M S Z :=
  sectoff <- mt (fun m => data_sector m num) ;;
  upd_mt (set_motor 1) ;;
  io <- mt (fun m => io_for m false buf sectoff size) ;;
  pmax <- mt psectmax ;;
  if pmax <=? sectoff then ret 1
  else
    e <- DoIO io ;;
    td64 <- mt use_td64 ;;
    if negb (e =? 0) then
      if td64 =? -1 then
        upd_mt (set_use_td64 0) ;;
        match tries with
        | O => undef
        | Datatypes.S tries => data_read_loop tries buf num size
        end
      else io_retry patience REQUEST_BLOCK_BAD_R sectoff size io
    else (if td64 =? -1 then upd_mt (set_use_td64 1) else ret tt) ;; ret 0.

Definition data_read (buf num size : Z) : M S Z := data_read_loop 1 buf num size.

Definition data_write (buf num size : Z) : M S Z :=
  sectoff <- mt (fun m => data_sector m num) ;;
  ronly <- sb_rd8 sb_ronly ;;
  if negb (ronly =? 0) then ret 1
  else
    upd_mt (set_motor 1) ;;
    io <- mt (fun m => io_for m true buf sectoff size) ;;
    pmax <- mt psectmax ;;
    if pmax <=? sectoff then ret 1
    else
      e <- DoIO io ;;
      if negb (e =? 0) then io_retry patience REQUEST_BLOCK_BAD_W sectoff size io else ret 0.

(** open_device: what it takes from the mount entry (when it is called the
    first time) and resets for every disk. *)
Definition env_setup : M S unit :=
  block <- env de_SizeBlock ;;
  (let size := sector_size (u32 (block * 4)) in upd_mt (set_sector size.1 size.2)) ;;
  e <- env id ;;
  upd_mt (fun m => set_device (superblock_sector m)
    (u32 (u32 (de_BlocksPerTrack e * (de_HighCyl e + 1)) * de_Surfaces e)) (use_td64 m) m).

Definition disk_setup : M S unit :=
  upd_mt (fun m => set_device (u32 (SUPER_BLOCK * 512) / phys_sectorsize m) (psectmax m) (-1) m).

(** ** Disk labels: 0 when the partition was found *)

(** Sectors before the end of the device. *)
Definition part_end (e : dosenvec) : Z :=
  u32 (u32 (u32 (de_HighCyl e + 1) * de_Surfaces e) * de_BlocksPerTrack e).

Definition fail_sun_label (part_off : Z) (label : option Z) : M S Z :=
  upd_mt (set_no_Sun_label 1) ;;
  upd_mt (set_psectoffset part_off) ;;
  sector <- mt phys_sectorsize ;;
  dv_FreeMem label sector ;;
  ret 1.

Definition sun_label_read (new_partition : Z) : M S Z :=
  no <- mt no_Sun_label ;;
  if negb (no =? 0) then ret 1
  else if negb (Z.land new_partition 8 =? 0) then upd_mt (set_no_Sun_label 1) ;; ret 1
  else
    let new_partition := Z.land new_partition 7 in
    part_off <- mt psectoffset ;;
    sector <- mt phys_sectorsize ;;
    label <- dv_AllocMem sector ;;
    match label with
    | None => ret 1
    | Some p =>
        r <- data_read p BOOT_BLOCK sector ;;
        if negb (r =? 0) then
          upd_mt (set_no_Sun_label 1) ;;
          dv_FreeMem label sector ;;
          ret 1
        else
          cyl <- rd32 (sun_start_cyl p new_partition) ;;
          heads <- rd16 (sun_heads p) ;;
          nspt <- rd16 (sun_nspt p) ;;
          upd_mt (set_psectoffset (u32 (part_off + u32 (u32 (cyl * heads) * nspt)))) ;;
          pend <- env part_end ;;
          magic <- rd16 (sun_magic p) ;;
          size <- rd32 (sun_size p new_partition) ;;
          if negb (magic =? SunBB_MAGIC) then fail_sun_label part_off label
          else if (size =? 0) || (u32 (pend - part_off) <? size) then fail_sun_label part_off label
          else
            upd_mt (set_fs_partition new_partition) ;;
            dv_FreeMem label sector ;;
            ret 0
    end.

(** The loop over places in the buffer.  [buffer] is an [ULONG *], so place
    [fs_offset] is at byte [4 * fs_offset]. *)
Fixpoint bsd_label_find (l : list Z) (buffer : Z) : M S (option Z) :=
  match l with
  | [] => ret None
  | fs_offset :: l =>
      let label := buffer + 4 * fs_offset in
      magic <- rd32 (bsd_magic label) ;;
      magic2 <- rd32 (bsd_magic2 label) ;;
      if (magic =? B44BB_MAGIC) && (magic2 =? B44BB_MAGIC) then ret (Some label)
      else bsd_label_find l buffer
  end.

(** [rc] holds the result of data_read at the label retvalue, unless the
    label was good. *)
Definition bsd44_label_read (new_partition : Z) : M S Z :=
  no <- mt no_BSD_label ;;
  if negb (no =? 0) then ret 1
  else if negb (Z.land new_partition 16 =? 0) then upd_mt (set_no_BSD_label 1) ;; ret 1
  else
    let new_partition := Z.land new_partition 7 in
    part_off <- mt psectoffset ;;
    sector <- mt phys_sectorsize ;;
    buffer <- dv_AllocMem sector ;;
    match buffer with
    | None => ret 1
    | Some p =>
        rc <- data_read p BOOT_BLOCK sector ;;
        rc <- (if negb (rc =? 0) then upd_mt (set_no_BSD_label 1) ;; ret rc
               else
                 found <- bsd_label_find (upto 0 (sector - sizeof_bsd44_label) 16) p ;;
                 match found with
                 | None => upd_mt (set_no_BSD_label 1) ;; ret rc
                 | Some label =>
                     start <- rd32 (bsd_start_sec label new_partition) ;;
                     upd_mt (fun m => set_psectoffset (u32 (psectoffset m + start)) m) ;;
                     pend <- env part_end ;;
                     size <- rd32 (bsd_size label new_partition) ;;
                     if (size =? 0) || (u32 (pend - part_off) <? size) then
                       upd_mt (set_psectoffset part_off) ;;
                       upd_mt (set_no_BSD_label 1) ;;
                       ret rc
                     else upd_mt (set_fs_partition new_partition) ;; ret 0
                 end) ;;
        dv_FreeMem buffer sector ;;
        ret rc
    end.

Definition partition_info_read (partition : Z) : M S Z :=
  e <- env id ;;
  upd_mt (set_psectoffset (u32 (u32 (de_LowCyl e * de_Surfaces e) * de_BlocksPerTrack e))) ;;
  upd_mt (fun m => set_fsize (phys_sectorsize m) m) ;;
  sun <- sun_label_read partition ;;
  if negb (sun =? 0) then
    bsd <- bsd44_label_read partition ;;
    if negb (bsd =? 0) then ret 1 else ret 0
  else ret 0.

(** ** The superblock *)

Definition cgsummary_read : M S Z :=
  cssize <- sb_rd32 sb_cssize ;;
  space <- dv_AllocMem cssize ;;
  upd_mt (set_cgsummary space) ;;
  match space with
  | None => ret 1
  | Some p =>
      flags <- sb_rd8 sb_flags ;;
      csaddr <- (if negb (Z.land flags FS_FLAGS_UPDATED =? 0) then sb_rd32 sb_new_csaddr
                 else sb_rd32 sb_csaddr) ;;
      r <- data_read p csaddr cssize ;;
      if negb (r =? 0) then sb_wr8 sb_ronly 1 ;; ret 0
      else sb_wr32 sb_csp p ;; ret 0
  end.

(** The inode formats before 4.4 BSD: the 64 bit masks from the 32 bit ones. *)
Definition oldfs_masks : M S unit :=
  sb_wr32 sb_maxfilesize 0 ;;
  sb_wr32 (fun p => sb_maxfilesize p + 4) 0 ;;
  sb_wr32 (fun p => sb_maxfilesize p + 4) 0xffffffff ;;
  sb_wr32 sb_qbmask 0xffffffff ;;
  sb_wr32 (fun p => sb_qbmask p + 4) 0xffffffff ;;
  bmask <- sb_rd32 sb_bmask ;;
  let lbmask := u32 (Z.lnot bmask) in
  sb_wr32 (fun p => sb_qbmask p + 4) lbmask ;;
  sb_wr32 sb_qfmask 0xffffffff ;;
  sb_wr32 (fun p => sb_qfmask p + 4) 0xffffffff ;;
  fmask <- sb_rd32 sb_fmask ;;
  let lfmask := u32 (Z.lnot fmask) in
  sb_wr32 (fun p => sb_qfmask p + 4) lfmask ;;
  upd_mt (set_format lbmask lfmask 0).

Definition ffs_oldfscompat : M S unit :=
  nsect <- sb_rds32 sb_nsect ;;
  npsect <- sb_rds32 sb_npsect ;;
  (if npsect <? nsect then sb_wr32 sb_npsect nsect else ret tt) ;;
  interleave <- sb_rds32 sb_interleave ;;
  (if interleave <? 1 then sb_wr32 sb_interleave 1 else ret tt) ;;
  postbl <- sb_rds32 sb_postblformat ;;
  (if postbl =? FS_42POSTBLFMT then sb_wr32 sb_nrpos 8 else ret tt) ;;
  fmt <- sb_rds32 sb_inodefmt ;;
  if (fmt =? 0) || (fmt =? FS_42POSTBLFMT) || (fmt =? FS_DYNAMICPOSTBLFMT) then oldfs_masks
  else if fmt =? FS_44INODEFMT then
    lfmask <- sb_rd32 (fun p => sb_qfmask p + 4) ;;
    lbmask <- sb_rd32 (fun p => sb_qbmask p + 4) ;;
    upd_mt (set_format lbmask lfmask 1)
  else sb_wr8 sb_ronly 1.

(** The loop that looks for a superblock from sector to sector: the address
    of its buffer, [fuel] sectors at most. *)
Fixpoint superblock_find (fuel : nat) (ssector temp_sb : Z) : M S (option Z) :=
  if 248 <=? ssector then ret None
  else
    match fuel with
    | O => undef
    | Datatypes.S fuel =>
        let ssector := guess ssector in
        upd_mt (fun m => set_fsize (phys_sectorsize m) m) ;;
        sector <- mt superblock_sector ;;
        phys <- mt phys_sectorsize ;;
        r <- data_read temp_sb sector phys ;;
        if negb (r =? 0) then ret None
        else
          b <- rds32 (sb_bsize temp_sb) ;;
          upd_mt (set_bsize b) ;;
          if valid_bsize b then dv_AllocMem b
          else
            upd_mt (fun m => set_psectoffset (u32 (psectoffset m + 1)) m) ;;
            superblock_find fuel (ssector + 1) temp_sb
    end.

(** The label bad_superblock. *)
Definition bad_superblock : M S Z :=
  p <- mt sb_ptr ;;
  b <- mt bsize ;;
  dv_FreeMem p b ;;
  upd_mt (set_sb_ptr None) ;;
  ret 1.

(** What superblock_read does once the superblock is in memory. *)
Definition superblock_accept : M S Z :=
  magic <- sb_rd32 sb_magic ;;
  if negb (magic =? FS_UFS1_MAGIC) then bad_superblock
  else
    flags <- sb_rd8 sb_flags ;;
    (if negb (Z.land flags (Z.lor (Z.lor FS_FLAGS_SUJ FS_FLAGS_MULTILEVEL) FS_FLAGS_GJOURNAL) =? 0)
     then sb_wr8 sb_ronly 1 else ret tt) ;;
    r <- cgsummary_read ;;
    if negb (r =? 0) then bad_superblock
    else
      fragshift <- sb_rd32 sb_fragshift ;;
      nindir <- sb_rds32 sb_nindir ;;
      sh <- deref (fs_shifts fragshift nindir) ;;
      (let '(bs, bm, ps, pm) := sh in upd_mt (set_shifts bs bm ps pm)) ;;
      ro <- mt physical_ro ;;
      (if negb (ro =? 0) then sb_wr8 sb_ronly 1 else ret tt) ;;
      sb_wr8 sb_fmod 0 ;;
      sb_wr8 sb_clean 0 ;;
      ffs_oldfscompat ;;
      ret 0.

(** The search stops at the end of the device at the latest. *)
Definition search_fuel (m : mount) : nat := Z.to_nat (psectmax m) + 2.

Definition superblock_read (partition : Z) : M S Z :=
  r <- partition_info_read partition ;;
  (if negb (r =? 0) then upd_mt (set_fs_partition 0) else ret tt) ;;
  upd_mt (set_sb_ptr None) ;;
  phys <- mt phys_sectorsize ;;
  temp_sb <- dv_AllocMem phys ;;
  match temp_sb with
  | None => ret 1
  | Some p =>
      fuel <- mt search_fuel ;;
      found <- superblock_find fuel 0 p ;;
      upd_mt (set_sb_ptr found) ;;
      match found with
      | None => phys <- mt phys_sectorsize ;; dv_FreeMem temp_sb phys ;; ret 1
      | Some sb =>
          sector <- mt superblock_sector ;;
          b <- mt bsize ;;
          data_read sb sector b ;;
          phys <- mt phys_sectorsize ;;
          dv_FreeMem temp_sb phys ;;
          f <- sb_rds32 sb_fsize ;;
          upd_mt (set_fsize f) ;;
          sb_wr8 sb_ronly 0 ;;
          superblock_accept
      end
  end.

(** The other partitions, from [part] on. *)
Fixpoint other_partitions (fuel : nat) (part : Z) : M S Z :=
  r <- superblock_read part ;;
  if r =? 0 then ret 0
  else if part =? MAX_PART then ret 2
  else
    match fuel with
    | O => undef
    | Datatypes.S fuel => other_partitions fuel (part + 1)
    end.

Definition find_superblock : M S Z :=
  upd_mt (set_no_Sun_label 0) ;;
  upd_mt (set_no_BSD_label 0) ;;
  reserved <- env de_Reserved ;;
  r <- superblock_read (s32 reserved) ;;
  if r =? 0 then ret 0
  else
    sun <- mt no_Sun_label ;;
    bsd <- mt no_BSD_label ;;
    if negb (sun =? 0) && negb (bsd =? 0) then ret 2
    else other_partitions 8 0.

Definition superblock_flush : M S Z :=
  fmod <- sb_rd8 sb_fmod ;;
  ronly <- sb_rd8 sb_ronly ;;
  if (fmod =? 0) || negb (ronly =? 0) then ret 0
  else
    time <- dv_time ;;
    sb_wr32 sb_time time ;;
    sb_wr8 sb_fmod 0 ;;
    flags <- sb_rd8 sb_flags ;;
    csaddr <- (if negb (Z.land flags FS_FLAGS_UPDATED =? 0) then
                 csaddr <- sb_rd32 sb_new_csaddr ;;
                 time <- sb_rd32 sb_time ;;
                 sb_wr32 sb_new_time time ;;
                 ret csaddr
               else sb_rd32 sb_csaddr) ;;
    p <- sb_field id ;;
    fshift <- sb_rd32 sb_fshift ;;
    m <- mt id ;;
    data_write p (Z.shiftr (u32 (superblock_sector m * phys_sectorsize m)) fshift) (bsize m) ;;
    base <- mt cgsummary_base ;;
    cssize <- sb_rd32 sb_cssize ;;
    data_write (default 0 base) csaddr cssize ;;
    ret 1.

Definition superblock_destroy : M S unit :=
  base <- mt cgsummary_base ;;
  (match base with
   | Some _ => cssize <- sb_rd32 sb_cssize ;; dv_FreeMem base cssize
   | None => ret tt
   end) ;;
  sb <- mt sb_ptr ;;
  b <- mt bsize ;;
  (match sb with
   | Some _ => dv_FreeMem sb b
   | None => ret tt
   end) ;;
  upd_mt (set_sb_ptr None) ;;
  upd_mt (set_cgsummary None).

End Mount.
