(* ===== verification/MountTheorems.v ===== *)
(** The theorems about the mount and the device interface of [ufs.c]: the
    masks derived from the superblock, the requests sent to the device, and
    the end of the search for the superblock. *)

From S2P Require Import Prelude Superblock FileEnv IndexPath Mount Sample.
Local Open Scope bffs_scope.

(** ** The masks *)

Lemma shift_loop_spec fuel index csize shift :
  0 < index -> csize <= index * 2 ^ Z.of_nat fuel ->
  exists k, 0 <= k /\ shift_loop fuel index csize shift = Some (shift + k) /\
    csize <= index * 2 ^ k /\ (0 < k -> index * 2 ^ (k - 1) < csize).
Proof.
  revert index shift. induction fuel as [|fuel IH]; intros index shift Hi Hc; cbn [shift_loop];
    destruct (Z.ltb_spec index csize) as [Hlt|Hge].
  - cbn in Hc. lia.
  - exists 0. split; [done|]. split; [f_equal; lia|]. split; lia.
  - rewrite Nat2Z.inj_succ, Z.pow_succ_r in Hc by lia. rewrite Z.shiftl_mul_pow2 by lia. change (2 ^ 1) with 2.
    destruct (IH (index * 2) (shift + 1)) as (k & H0 & -> & H1 & H2); [lia|lia|].
    exists (k + 1). split; [lia|]. split; [f_equal; lia|]. rewrite Z.pow_add_r by lia. split; [lia|].
    intros _. replace (k + 1 - 1) with k by lia. destruct (Z.eq_dec k 0) as [->|Hk]; [lia|].
    replace k with (k - 1 + 1) at 1 by lia. rewrite Z.pow_add_r by lia. specialize (H2 ltac:(lia)). lia.
  - exists 0. split; [done|]. split; [f_equal; lia|]. split; lia.
Qed.

(** For any number of pointers the shift is the least that covers them. *)
Lemma fs_shifts_spec fragshift nindir :
  0 <= fragshift -> Z.shiftr nindir fragshift <= 2 ^ 31 ->
  exists k, 0 <= k /\ fs_shifts fragshift nindir = Some (fragshift, 2 ^ fragshift - 1, k, 2 ^ k - 1) /\
    Z.shiftr nindir fragshift <= 2 ^ k /\ (0 < k -> 2 ^ (k - 1) < Z.shiftr nindir fragshift).
Proof.
  intros Hf Hn. unfold fs_shifts.
  destruct (shift_loop_spec 31 1 (Z.shiftr nindir fragshift) 0) as (k & H0 & -> & H1 & H2); [lia|lia|].
  exists k. rewrite !Z.shiftl_1_l. split; [done|]. split; [done|]. split; [lia|]. intros Hk. specialize (H2 Hk). lia.
Qed.

(** C34: mounting computes the shifts and masks the block map relies on: with
    the superblock's block size, fragments per block and pointers per block
    in the usual relations the loop ends, 2 ^ pfragshift pointers fill a
    fragment, 2 ^ fblkshift fragments are a block, and the masks are one less. *)
Theorem mount_masks (f : fs) k :
  wf_geometry f -> 0 <= k -> 4 * 2 ^ k = fs_fsize f -> 4 * fs_nindir f = fs_fsize f * fs_frag f ->
  4 * fs_nindir f <= 65536 -> 0 < fs_fragshift f + k ->
  exists bs bm ps pm, fs_shifts (fs_fragshift f) (fs_nindir f) = Some (bs, bm, ps, pm) /\
    forall gl, fblkshift gl = bs -> fblkmask gl = bm -> pfragshift gl = ps -> pfragmask gl = pm ->
      index_geometry gl /\ 2 ^ pfragshift gl * 4 = fs_fsize f /\ fs_frag f = 2 ^ fblkshift gl.
Proof.
  intros Hg Hk Hf Hb Hmax Hmany. destruct (wg_fragshift f Hg) as [Hs0 Hs].
  pose proof (frag_pos f Hg) as Hfp. pose proof (Z.pow_pos_nonneg 2 k ltac:(lia) Hk) as Hpk.
  assert (Z.shiftr (fs_nindir f) (fs_fragshift f) = 2 ^ k) as En.
  { rewrite Z.shiftr_div_pow2, <- Hs by lia. replace (fs_nindir f) with (2 ^ k * fs_frag f) by lia.
    apply Z.div_mul. lia. }
  destruct (fs_shifts_spec (fs_fragshift f) (fs_nindir f) Hs0) as (j & Hj & Esh & H1 & H2).
  { rewrite En. zify_pow. nia. }
  rewrite En in H1, H2. exists (fs_fragshift f), (2 ^ fs_fragshift f - 1), j, (2 ^ j - 1). split; [done|].
  assert (j = k) as ->.
  { apply Z.le_antisymm.
    - destruct (Z.eq_dec j 0) as [->|]; [lia|]. specialize (H2 ltac:(lia)).
      apply Z.pow_lt_mono_r_iff in H2; lia.
    - by apply Z.pow_le_mono_r_iff in H1. }
  intros gl E1 E2 E3 E4. split; [constructor; rewrite ?E1, ?E2, ?E3, ?E4; try done; lia|].
  rewrite E1, E3. split; [lia|done].
Qed.

(** ** The search for the superblock *)

(** The positions of the loop: from 10 it goes back to 6, so that sectors
    beyond are not reached by counting and the loop ends at the end of the
    device only. *)
Fixpoint ssector_at (passes : nat) : Z :=
  match passes with
  | O => 0
  | Datatypes.S n => guess (ssector_at n) + 1
  end.

Theorem search_positions n : 0 <= ssector_at n <= 10.
Proof.
  induction n as [|n IH]; cbn [ssector_at]; [lia|]. revert IH. generalize (ssector_at n). intros x Hx.
  unfold guess.
  destruct (Z.eqb_spec x 5), (Z.eqb_spec x 10), (Z.eqb_spec x 18), (Z.eqb_spec x 49), (Z.eqb_spec x 65),
    (Z.eqb_spec x 113); lia.
Qed.

Section Device.
Context {S : Type} `{Device S}.

(** A device that obeys its interface: requests that start inside the
    partition leave the globals of ufs.c alone and keep the invariant [I];
    nothing is known of others.  A user who asks for another try gives up
    after [asks] times. *)
Record device_laws (I : S -> Prop) (asks : S -> nat) (patience : nat) : Prop := {
  dl_patience : forall s, I s -> (asks s <= patience)%nat;
  dl_io : forall s io, I s ->
    io_Actual io * 2 ^ 32 + io_Offset io < psectmax (dv_mount s) * 2 ^ phys_sectorshift (dv_mount s) ->
    wp (DoIO io) (fun _ s' => I s' /\ dv_mount s' = dv_mount s /\ asks s' = asks s) s;
  dl_request : forall s k a b, I s ->
    wp (do_request k a b) (fun r s' => I s' /\ dv_mount s' = dv_mount s /\
      (r <> 0 -> (asks s' < asks s)%nat) /\ (r = 0 -> asks s' = asks s)) s;
  dl_alloc : forall s n, I s ->
    wp (dv_AllocMem n) (fun _ s' => I s' /\ dv_mount s' = dv_mount s) s;
  dl_mount : forall s m, I s -> psectmax m = psectmax (dv_mount s) ->
    phys_sectorshift m = phys_sectorshift (dv_mount s) -> I (dv_set_mount m s) /\ dv_mount (dv_set_mount m s) = m /\
    asks (dv_set_mount m s) = asks s }.

Context (I : S -> Prop) (asks : S -> nat) (patience : nat) (L : device_laws I asks patience).

(** The byte offset of a request. *)
Lemma io_offset m write buf num size :
  0 < phys_sectorshift m < 32 -> data_sector m num < psectmax m ->
  use_td64 m <> 0 \/ psectmax m * 2 ^ phys_sectorshift m <= 2 ^ 32 ->
  let io := io_for m write buf (data_sector m num) size in
  io_Actual io * 2 ^ 32 + io_Offset io = data_sector m num * 2 ^ phys_sectorshift m.
Proof using Type.
  intros Hs Hlt H64. assert (in_u32 (data_sector m num)) as Hu by apply u32_range.
  revert Hlt Hu. generalize (data_sector m num). intros x Hlt Hu. unfold io_for. cbv zeta.
  assert (Z.shiftr x (32 - phys_sectorshift m) * 2 ^ 32 + u32 (Z.shiftl x (phys_sectorshift m)) =
    x * 2 ^ phys_sectorshift m) as E.
  { rewrite Z.shiftr_div_pow2, Z.shiftl_mul_pow2 by lia. unfold u32.
    assert (2 ^ 32 = 2 ^ (32 - phys_sectorshift m) * 2 ^ phys_sectorshift m) as E32
      by (rewrite <- Z.pow_add_r by lia; f_equal; lia).
    pose proof (Z.pow_pos_nonneg 2 (phys_sectorshift m) ltac:(lia) ltac:(lia)) as Hpa.
    pose proof (Z.pow_pos_nonneg 2 (32 - phys_sectorshift m) ltac:(lia) ltac:(lia)) as Hpb.
    revert E32 Hpa Hpb. generalize (2 ^ phys_sectorshift m) (2 ^ (32 - phys_sectorshift m)) (2 ^ 32).
    intros a b c -> Ha Hb. rewrite Z.mul_mod_distr_r by lia. pose proof (Z.div_mod x b ltac:(lia)). nia. }
  destruct (Z.eqb_spec (use_td64 m) 0) as [E0|E0]; cbn [negb io_Actual io_Offset]; [|exact E].
  destruct H64 as [H64|H64]; [done|]. rewrite Z.shiftl_mul_pow2 by lia. rewrite u32_small; [lia|].
  unfold in_u32 in *. pose proof (Z.pow_pos_nonneg 2 (phys_sectorshift m) ltac:(lia) ltac:(lia)) as Hp.
  revert H64 Hp. generalize (2 ^ phys_sectorshift m) (2 ^ 32). intros a c H64 Hp. nia.
Qed.

(** Requests in range: a 32 bit offset that wraps is smaller still. *)
Definition io_inside (m : mount) (io : io_request) : Prop :=
  io_Actual io * 2 ^ 32 + io_Offset io < psectmax m * 2 ^ phys_sectorshift m.

Lemma io_for_inside m write buf num size :
  0 < phys_sectorshift m < 32 -> data_sector m num < psectmax m ->
  io_inside m (io_for m write buf (data_sector m num) size).
Proof using Type.
  intros Hs Hlt. assert (0 <= data_sector m num) as H0 by apply u32_range.
  pose proof (Z.pow_pos_nonneg 2 (phys_sectorshift m) ltac:(lia) ltac:(lia)) as Hp.
  assert (data_sector m num * 2 ^ phys_sectorshift m < psectmax m * 2 ^ phys_sectorshift m) as Hin by nia.
  unfold io_inside. destruct (Z.eq_dec (use_td64 m) 0) as [E|E].
  - unfold io_for. rewrite E. cbn [Z.eqb negb io_Actual io_Offset]. rewrite Z.shiftl_mul_pow2 by lia.
    unfold u32. pose proof (Z.mod_le (data_sector m num * 2 ^ phys_sectorshift m) (2 ^ 32)). zify_pow. nia.
  - rewrite io_offset by auto. exact Hin.
Qed.

Definition mount_kept (s s' : S) : Prop := dv_mount s' = dv_mount s.

Lemma wp_DoIO (Q : Z -> S -> Prop) s io :
  I s -> io_inside (dv_mount s) io ->
  (forall e s', I s' -> dv_mount s' = dv_mount s -> asks s' = asks s -> Q e s') -> wp (DoIO io) Q s.
Proof using L.
  intros Hi Hin HQ. eapply wp_mono; [by apply (dl_io _ _ _ L)|]. intros e s' (A & B & C). by apply HQ.
Qed.

Lemma wp_io_tries (Q : bool -> S -> Prop) n s io :
  I s -> io_inside (dv_mount s) io ->
  (forall b s', I s' -> dv_mount s' = dv_mount s -> asks s' = asks s -> Q b s') -> wp (io_tries n io) Q s.
Proof using L.
  revert s. induction n as [|n IH]; intros s Hi Hin HQ; cbn [io_tries]; [by apply HQ|].
  apply wp_bnd. eapply wp_DoIO; [done|done|]. intros e s1 Hi1 Hm1 Ha1. destruct (e =? 0); [by apply HQ|].
  apply IH; [done|by rewrite Hm1|]. intros b s2 Hi2 Hm2 Ha2. apply HQ; [done|congruence|congruence].
Qed.

Lemma wp_io_retry (Q : Z -> S -> Prop) fuel s k sectoff size io :
  I s -> io_inside (dv_mount s) io -> (asks s <= fuel)%nat ->
  (forall r s', r = 0 \/ r = 1 -> I s' -> dv_mount s' = dv_mount s -> Q r s') ->
  wp (io_retry fuel k sectoff size io) Q s.
Proof using L.
  revert s. induction fuel as [|fuel IH]; intros s Hi Hin Hf HQ; cbn [io_retry]; apply wp_bnd;
    (eapply wp_mono; [by apply (dl_request _ _ _ L)|]); intros r s1 (Hi1 & Hm1 & Hne & He);
    destruct (Z.eqb_spec r 0) as [E|E].
  - apply wp_ret, HQ; [by right|done|done].
  - specialize (Hne E). lia.
  - apply wp_ret, HQ; [by right|done|done].
  - specialize (Hne E). apply wp_bnd. eapply wp_io_tries; [done|by rewrite Hm1|].
    intros b s2 Hi2 Hm2 Ha2. destruct b; [apply wp_ret, HQ; [by left|done|congruence]|].
    apply IH; [done|by rewrite Hm2, Hm1|lia|]. intros r' s3 Hr Hi3 Hm3. apply HQ; [done|done|congruence].
Qed.

Lemma wp_mt {A} (f : mount -> A) (Q : A -> S -> Prop) s : Q (f (dv_mount s)) s -> wp (mt f) Q s.
Proof using Type. intros HQ. unfold mt. by apply wp_gets. Qed.

Lemma wp_upd_mt (Q : unit -> S -> Prop) f s :
  I s -> psectmax (f (dv_mount s)) = psectmax (dv_mount s) /\
    phys_sectorshift (f (dv_mount s)) = phys_sectorshift (dv_mount s) ->
  (forall s', I s' -> dv_mount s' = f (dv_mount s) -> asks s' = asks s -> Q tt s') -> wp (upd_mt f) Q s.
Proof using L.
  intros Hi [E1 E2] HQ. unfold upd_mt. apply wp_modify.
  destruct (dl_mount _ _ _ L s (f (dv_mount s)) Hi E1 E2) as (A & B & C). by apply HQ.
Qed.

(** The fields a transfer may change. *)
Definition after_io (m m' : mount) : Prop := exists td64, m' = set_motor 1 (set_use_td64 td64 m).

Lemma after_io_same m : after_io m (set_motor 1 m).
Proof using Type. exists (use_td64 m). by destruct m. Qed.

Lemma after_io_td64 m v : after_io m (set_use_td64 v (set_motor 1 m)).
Proof using Type. by exists v. Qed.

Lemma after_io_trans m m1 m2 : after_io m m1 -> after_io m1 m2 -> after_io m m2.
Proof using Type. intros [a ->] [b ->]. by exists b. Qed.

Lemma wp_data_read_loop (Q : Z -> S -> Prop) tries s buf num size :
  I s -> 0 < phys_sectorshift (dv_mount s) < 32 -> use_td64 (dv_mount s) <> -1 \/ tries <> 0%nat ->
  (psectmax (dv_mount s) <= data_sector (dv_mount s) num -> forall s', I s' ->
     after_io (dv_mount s) (dv_mount s') -> Q 1 s') ->
  (data_sector (dv_mount s) num < psectmax (dv_mount s) -> forall r s', r = 0 \/ r = 1 -> I s' ->
     after_io (dv_mount s) (dv_mount s') -> Q r s') ->
  wp (data_read_loop patience tries buf num size) Q s.
Proof using L.
  revert s. induction tries as [|tries IH]; intros s Hi Hs Ht Hout Hin; cbn [data_read_loop];
    apply wp_bnd, wp_mt, wp_bnd; (eapply wp_upd_mt; [done|done|]); intros s1 Hi1 Hm1 Ha1;
    apply wp_bnd, wp_mt, wp_bnd, wp_mt; rewrite Hm1;
    (destruct (Z.leb_spec (psectmax (dv_mount s)) (data_sector (dv_mount s) num)) as [Hge|Hlt];
      cbn [psectmax set_motor];
      [rewrite (proj2 (Z.leb_le _ _) Hge); apply wp_ret, Hout; [done|done|rewrite Hm1; apply after_io_same]
      |rewrite (proj2 (Z.leb_gt _ _) Hlt)]);
    specialize (Hin Hlt); clear Hout; apply wp_bnd;
    (assert (io_inside (dv_mount s1) (io_for (set_motor 1 (dv_mount s)) false buf (data_sector (dv_mount s) num) size))
      as Hio by (rewrite Hm1; by apply (io_for_inside (set_motor 1 (dv_mount s)))));
    (eapply wp_DoIO; [done|exact Hio|]); intros e s2 Hi2 Hm2 Ha2; apply wp_bnd, wp_mt; rewrite Hm2, Hm1;
    cbn [use_td64 set_motor]; destruct (e =? 0); cbn [negb].
  - apply wp_bnd. destruct (use_td64 (dv_mount s) =? -1).
    + eapply wp_upd_mt; [done|done|]. intros s3 Hi3 Hm3 _. apply wp_ret, Hin; [by left|done|].
      rewrite Hm3, Hm2, Hm1. apply after_io_td64.
    + apply wp_ret, wp_ret, Hin; [by left|done|]. rewrite Hm2, Hm1. apply after_io_same.
  - destruct (Z.eqb_spec (use_td64 (dv_mount s)) (-1)) as [E|E]; [by destruct Ht|].
    eapply wp_io_retry; [done|by rewrite Hm2|by apply (dl_patience _ _ _ L)|].
    intros r s3 Hr Hi3 Hm3. apply Hin; [done|done|]. rewrite Hm3, Hm2, Hm1. apply after_io_same.
  - apply wp_bnd. destruct (use_td64 (dv_mount s) =? -1).
    + eapply wp_upd_mt; [done|done|]. intros s3 Hi3 Hm3 _. apply wp_ret, Hin; [by left|done|].
      rewrite Hm3, Hm2, Hm1. apply after_io_td64.
    + apply wp_ret, wp_ret, Hin; [by left|done|]. rewrite Hm2, Hm1. apply after_io_same.
  - destruct (Z.eqb_spec (use_td64 (dv_mount s)) (-1)) as [E|E].
    + apply wp_bnd. eapply wp_upd_mt; [done|done|]. intros s3 Hi3 Hm3 _.
      assert (after_io (dv_mount s) (dv_mount s3)) as Haf by (rewrite Hm3, Hm2, Hm1; apply after_io_td64).
      assert (data_sector (dv_mount s3) num = data_sector (dv_mount s) num) as Ed by by rewrite Hm3, Hm2, Hm1.
      apply IH; [done|by rewrite Hm3, Hm2, Hm1|left; by rewrite Hm3, Hm2, Hm1| |].
      * rewrite Ed, Hm3, Hm2, Hm1. cbn [psectmax set_use_td64 set_device set_motor]. lia.
      * intros _ r s4 Hr Hi4 Ha4. apply Hin; [done|done|]. by eapply after_io_trans.
    + eapply wp_io_retry; [done|by rewrite Hm2|by apply (dl_patience _ _ _ L)|].
      intros r s3 Hr Hi3 Hm3. apply Hin; [done|done|]. rewrite Hm3, Hm2, Hm1. apply after_io_same.
Qed.


(** What the search leaves alone. *)
Record search_inv (shift size pmax sector : Z) (m : mount) : Prop := {
  si_shift : phys_sectorshift m = shift;
  si_size : phys_sectorsize m = size;
  si_max : psectmax m = pmax;
  si_sector : superblock_sector m = sector }.

Lemma wp_superblock_find fuel shift size pmax sector ssector temp_sb s :
  0 < shift < 32 -> in_u32 size -> 0 < size -> 0 <= sector -> pmax + sector < 2 ^ 32 ->
  I s -> search_inv shift size pmax sector (dv_mount s) -> 0 <= psectoffset (dv_mount s) <= pmax ->
  pmax - psectoffset (dv_mount s) < Z.of_nat fuel ->
  wp (superblock_find patience fuel ssector temp_sb) (fun r s' => I s' /\
    (is_Some r -> valid_bsize (bsize (dv_mount s')) = true)) s.
Proof using L.
  intros Hsh Hu Hsz Hsec Hmax. revert ssector s. induction fuel as [|fuel IH]; intros ssector s Hi [S1 S2 S3 S4] Ho Hf.
  { lia. }
  cbn [superblock_find]. destruct (248 <=? ssector).
  { apply wp_ret. split; [done|]. by intros [x Hx]. }
  apply wp_bnd. eapply wp_upd_mt; [done|done|]. intros s1 Hi1 Hm1 _.
  apply wp_bnd, wp_mt, wp_bnd, wp_mt. cbv beta zeta.
  rewrite Hm1. cbn [superblock_sector phys_sectorsize set_fsize set_sizes]. rewrite S2, S4.
  assert (data_sector (dv_mount s1) sector = sector + psectoffset (dv_mount s)) as Ed.
  { rewrite Hm1. unfold data_sector. cbn [fsize phys_sectorsize psectoffset set_fsize set_sizes].
    rewrite S2, (u32_small size Hu), Z.div_same, Z.mul_1_l by lia.
    rewrite (u32_small sector) by (unfold in_u32; lia). apply u32_small. unfold in_u32. lia. }
  apply wp_bnd. apply wp_data_read_loop; [done|rewrite Hm1; cbn; lia|by right| |].
  - intros _ s2 Hi2 _. apply wp_ret. split; [done|]. by intros [x Hx].
  - rewrite Ed, Hm1. cbn [psectmax set_fsize set_sizes]. rewrite S3. intros Hlt r s2 Hr Hi2 [td Hm2].
    destruct Hr as [->| ->]; cbn [Z.eqb negb].
    + apply wp_bnd. unfold rds32. apply wp_gets. apply wp_bnd. eapply wp_upd_mt; [done|done|].
      set (b := s32 _). intros s3 Hi3 Hm3 _. destruct (valid_bsize b) eqn:Eb.
      * eapply wp_mono; [by apply (dl_alloc _ _ _ L)|]. intros r s4 [Hi4 Hm4]. split; [done|].
        intros _. rewrite Hm4, Hm3. by destruct (dv_mount s2).
      * apply wp_bnd. eapply wp_upd_mt; [done|done|]. intros s4 Hi4 Hm4 _.
        rewrite Hm3, Hm2 in Hm4. cbn [psectoffset set_bsize set_sizes set_motor set_use_td64 set_device set_fsize] in Hm4.
        assert (psectoffset (dv_mount s4) = psectoffset (dv_mount s) + 1) as Eo.
        { rewrite Hm4. cbn [psectoffset set_psectoffset]. apply u32_small. unfold in_u32. lia. }
        apply IH; [done|rewrite Hm4; by constructor|rewrite Eo; lia|rewrite Eo; lia].
    + apply wp_ret. split; [done|]. by intros [x Hx].
Qed.


End Device.

(** ** A device for the witnesses: one disk of 2048 sectors in memory *)

Record drive := Drive { dr_mount : mount; dr_mem : Z -> Z; dr_disk : Z -> Z }.

#[export] Instance drive_mem : Memory drive := {
  ld8 := fun a s => dr_mem s a;
  st8 := fun a x s => Drive (dr_mount s) (fun a' => if a' =? a then x else dr_mem s a') (dr_disk s) }.

#[export] Instance drive_device : Device drive := {
  dv_mount := dr_mount;
  dv_set_mount := fun m s => Drive m (dr_mem s) (dr_disk s);
  dv_env := fun _ => DosEnvec 128 2 32 0 0 0 31 0;
  DoIO := fun io s =>
    let start := io_Actual io * 2 ^ 32 + io_Offset io in
    if start <? 2048 * 512 then
      match io_Command io with
      | CMD_READ | TD_READ64 =>
          Some (0, Drive (dr_mount s)
            (fun a => if (io_Data io <=? a) && (a <? io_Data io + io_Length io)
                      then dr_disk s (start + (a - io_Data io)) else dr_mem s a) (dr_disk s))
      | CMD_WRITE | TD_WRITE64 =>
          Some (0, Drive (dr_mount s) (dr_mem s)
            (fun a => if (start <=? a) && (a <? start + io_Length io)
                      then dr_mem s (io_Data io + (a - start)) else dr_disk s a))
      end
    else None;
  do_request := fun _ _ _ => ret 0;
  dv_AllocMem := fun n => ret (Some 4096);
  dv_FreeMem := fun _ _ => ret tt;
  dv_time := ret 0 }.

Definition sample_mount : mount :=
  Mount None 16 0 2048 512 9 (-1) 0 0 1 1 512 0 None 0 0 0 0 0 0 0 0.

Definition sample_drive : drive := Drive sample_mount (fun _ => 0) (fun _ => 0).

Definition drive_inv (s : drive) : Prop := psectmax (dr_mount s) = 2048 /\ phys_sectorshift (dr_mount s) = 9.

Lemma drive_laws : device_laws drive_inv (fun _ => 0%nat) 0.
Proof.
  constructor.
  - done.
  - intros s io [E1 E2] Hin. change (dv_mount s) with (dr_mount s) in Hin. rewrite E1, E2 in Hin. unfold wp, DoIO, drive_device.
    rewrite (proj2 (Z.ltb_lt _ _)) by exact Hin. by destruct (io_Command io).
  - intros s k a b Hi. apply wp_ret. split; [done|]. split; [done|]. split; [done|done].
  - intros s n Hi. apply wp_ret. by split.
  - intros s m [E1 E2] H1 H2. cbn in H1, H2. split; [split; cbn; congruence|done].
Qed.

Lemma mount_masks_witness :
  exists bs bm ps pm, fs_shifts (fs_fragshift sample_fs) (fs_nindir sample_fs) = Some (bs, bm, ps, pm) /\
    forall gl, fblkshift gl = bs -> fblkmask gl = bm -> pfragshift gl = ps -> pfragmask gl = pm ->
      index_geometry gl /\ 2 ^ pfragshift gl * 4 = fs_fsize sample_fs /\ fs_frag sample_fs = 2 ^ fblkshift gl.
Proof. apply (mount_masks sample_fs 8); [apply sample_geo_wf|by vm_compute..]. Defined.


