(* ===== verification/InfoBlock.v ===== *)
(** Examining objects: FillInfoBlock, FillAttrBlock, examine_common and the
    packets PExamineObject, PExamineNext and PExamineFh of [packets.c], with
    the caller's FileInfoBlock and attribute block in memory. *)

From Stdlib Require Import String.
From S2P Require Import Prelude Bitmap Superblock Cg CgStore Alloc UnixTime FileEnv Inode Fread Dir Lookup Handler System.
Local Open Scope bffs_scope.

(** ** FileInfoBlock_3_t and the constants of bffs_dosextens.h *)

Definition fib_DiskKey (p : Z) : Z := p.
Definition fib_DirEntryType (p : Z) : Z := p + 4.
Definition fib_FileName (p : Z) : Z := p + 8.
Definition fib_Protection (p : Z) : Z := p + 116.
Definition fib_EntryType (p : Z) : Z := p + 120.
Definition fib_Size (p : Z) : Z := p + 124.
Definition fib_NumBlocks (p : Z) : Z := p + 128.
Definition fib_Date (p : Z) : Z := p + 132.
Definition fib_Comment (p : Z) : Z := p + 144.
Definition fib_OwnerUID (p : Z) : Z := p + 224.
Definition fib_OwnerGID (p : Z) : Z := p + 226.
Definition fib_mode (p : Z) : Z := p + 232.
Definition fib_DirOffset (p : Z) : Z := p + 244.
Definition DIRNAMESIZE : Z := 108.

Definition ST_ROOT : Z := 1.
Definition ST_USERDIR : Z := 2.
Definition ST_SOFTLINK : Z := 3.
Definition ST_FILE : Z := -3.
Definition ST_LINKFILE : Z := -4.
Definition ST_BDEVICE : Z := -10.
Definition ST_CDEVICE : Z := -11.
Definition ST_SOCKET : Z := -12.
Definition ST_FIFO : Z := -13.
Definition ST_WHITEOUT : Z := -15.

Definition FIBF_DELETE : Z := 1.
Definition FIBF_EXECUTE : Z := 2.
Definition FIBF_WRITE : Z := 4.
Definition FIBF_READ : Z := 8.
Definition FIBF_PURE : Z := 0x20.
Definition FIBF_SCRIPT : Z := 0x40.
Definition FIBF_HIDDEN : Z := 0x80.
Definition FIBF_GRP_DELETE : Z := 0x100.
Definition FIBF_GRP_EXECUTE : Z := 0x200.
Definition FIBF_GRP_WRITE : Z := 0x400.
Definition FIBF_GRP_READ : Z := 0x800.
Definition FIBF_OTR_DELETE : Z := 0x1000.
Definition FIBF_OTR_EXECUTE : Z := 0x2000.
Definition FIBF_OTR_WRITE : Z := 0x4000.
Definition FIBF_OTR_READ : Z := 0x8000.

Definition ACTION_EXAMINE_OBJECT : Z := 23.

(** ** Pure parts *)

(** [flag v m a b] is (v & m) ? a : b. *)
Definition flag (v m a b : Z) : Z := if Z.land v m =? 0 then b else a.

(** The permission bits of FIB from a file mode. *)
Definition rwx : Z := Z.lor (Z.lor IREAD IWRITE) IEXEC.
Definition invert_group_other (inv fmode : Z) : Z :=
  if inv =? 0 then fmode else Z.lxor fmode (Z.lor rwx (Z.shiftr rwx 3)).
Definition group_mode (inv fmode : Z) : Z := invert_group_other inv (Z.shiftl fmode 3).

Definition info_protection (inv fmode : Z) : Z :=
  let g := group_mode inv fmode in
  let o := Z.shiftl g 3 in
  fold_left Z.lor
    [flag fmode ISUID FIBF_SCRIPT 0; flag fmode ISGID FIBF_HIDDEN 0; flag fmode ISVTX FIBF_PURE 0;
     flag fmode IREAD 0 FIBF_READ; flag fmode IWRITE 0 (Z.lor FIBF_WRITE FIBF_DELETE);
     flag fmode IEXEC 0 FIBF_EXECUTE;
     flag g IREAD 0 FIBF_GRP_READ; flag g IWRITE 0 (Z.lor FIBF_GRP_WRITE FIBF_GRP_DELETE);
     flag g IEXEC 0 FIBF_GRP_EXECUTE;
     flag o IREAD 0 FIBF_OTR_READ; flag o IWRITE 0 (Z.lor FIBF_OTR_WRITE FIBF_OTR_DELETE);
     flag o IEXEC 0 FIBF_OTR_EXECUTE] 0.

(** The entry type, from the mode and whether the entry is the root. *)
Definition info_type (root : bool) (fmode : Z) : Z :=
  if root then ST_ROOT
  else
    let t := Z.land fmode IFMT in
    if t =? IFREG then ST_FILE
    else if t =? IFDIR then ST_USERDIR
    else if t =? IFLNK then ST_SOFTLINK
    else if negb (Z.land fmode IFCHR =? 0) then (if t =? IFBLK then ST_BDEVICE else ST_CDEVICE)
    else if t =? IFIFO then ST_FIFO
    else if t =? IFSOCK then ST_SOCKET
    else if t =? IFWHT then ST_WHITEOUT
    else ST_FILE.

(** The switch of FillAttrBlock: the NFS type for fmode & IFREG. *)
Definition attr_type (fmode : Z) : Z :=
  let t := Z.land fmode IFREG in
  if t =? IFREG then 1
  else if t =? IFDIR then 2
  else if t =? IFBLK then 3
  else if t =? IFCHR then 4
  else if t =? IFLNK then 5
  else if t =? IFSOCK then 6
  else if t =? IFIFO then 7
  else 0.

Section InfoBlock.
Context {S : Type} `{HandlerEnv S}.

(** ** FillInfoBlock *)

Definition entry_ino (dir_ent : option Z) : M S Z :=
  match dir_ent with None => ret 0 | Some p => rd32 (d_ino p) end.

(** The inode comment. *)
Definition inode_comment (fib finode : Z) (dir_ent : option Z) (fmode : Z) : M S unit :=
  on <- opt inode_comments ;;
  if on =? 0 then ret tt
  else
    v44 <- glob bsd44fs ;;
    uid <- (if negb (v44 =? 0) then rd32 (ic_nuid finode) else rd16 (ic_ouid finode)) ;;
    gid <- (if negb (v44 =? 0) then rd32 (ic_ngid finode) else rd16 (ic_ogid finode)) ;;
    ino <- entry_ino dir_ent ;;
    nlink <- rd16 (ic_nlink finode) ;;
    blocks <- rd32 (ic_blocks finode) ;;
    strcpy (fib_Comment fib + 1)
      (chars "i=" ++ fmt_left 4 ino ++ chars " p=" ++ fmt_octal 4 (Z.land fmode 0xfff) ++
       chars " u=" ++ fmt_left 5 uid ++ chars " g=" ++ fmt_left 5 gid ++
       chars " l=" ++ fmt_left 2 (s16 nlink) ++ chars " bl=" ++ fmt_left 4 blocks) ;;
    n <- strlen (fib_Comment fib + 1) ;;
    wr8 (fib_Comment fib) n.

(** if (temp = strlen(comment)) comment[temp++] = ' '; the result is temp. *)
Definition comment_space (fib : Z) : M S Z :=
  temp <- strlen (fib_Comment fib + 1) ;;
  if temp =? 0 then ret 0
  else wr8 (fib_Comment fib + temp + 1) 0x20 ;; ret (temp + 1).

Definition comment_end (fib : Z) : M S unit :=
  n <- strlen (fib_Comment fib + 1) ;; wr8 (fib_Comment fib) n.

(** The branch of soft links. *)
Definition link_comment (fib finode : Z) (dir_ent : option Z) : M S unit :=
  on <- opt link_comments ;;
  if on =? 0 then ret tt
  else
    temp <- comment_space fib ;;
    strcpy (fib_Comment fib + temp + 1) (chars "-> ") ;;
    blocks <- rd32 (ic_blocks finode) ;;
    temp2 <- (if blocks =? 0 then
                str <- str_at (ic_db finode 0) ;;
                strcpy (fib_Comment fib + temp + 4) str ;;
                ret (zlen str)
              else
                ent <- deref dir_ent ;;
                ino <- rd32 (d_ino ent) ;;
                file_read ino 0 (u32 (76 - temp)) (fib_Comment fib + temp + 4)) ;;
    wr8 (fib_Comment fib) (temp + 3 + temp2).

Definition device_comment (fib finode type : Z) : M S unit :=
  on <- opt link_comments ;;
  if on =? 0 then ret tt
  else
    temp <- comment_space fib ;;
    dev <- rds32 (ic_db finode 0) ;;
    strcpy (fib_Comment fib + temp + 1)
      (chars "-] " ++ [if type =? ST_BDEVICE then 0x42 else 0x43] ++ chars "dev(" ++
       fmt_d (Z.shiftr dev 8) ++ chars "," ++ fmt_d (Z.land dev 255) ++ chars ")") ;;
    comment_end fib.

(** The branches of fifos, sockets and whiteouts. *)
Definition word_comment (fib : Z) (word : list Z) : M S unit :=
  temp <- comment_space fib ;;
  on <- opt link_comments ;;
  if on =? 0 then ret tt
  else strcpy (fib_Comment fib + temp + 1) word ;; comment_end fib.

Definition type_comment (fib finode : Z) (dir_ent : option Z) (type : Z) : M S unit :=
  if type =? ST_SOFTLINK then link_comment fib finode dir_ent
  else if (type =? ST_BDEVICE) || (type =? ST_CDEVICE) then device_comment fib finode type
  else if type =? ST_FIFO then word_comment fib (chars "fifo")
  else if type =? ST_SOCKET then word_comment fib (chars "socket")
  else if type =? ST_WHITEOUT then word_comment fib (chars "whiteout")
  else ret tt.

Definition info_size (fib finode : Z) : M S unit :=
  high <- rd32 (ic_size_high finode) ;;
  size <- (if negb (high =? 0) then ret (Z.shiftl 1 31) else rd32 (ic_size finode)) ;;
  wr32 (fib_Size fib) size ;;
  blocks <- rds32 (ic_blocks finode) ;;
  f <- superblock ;;
  if NDSPF f =? 0 then undef else wr32 (fib_NumBlocks fib) (Z.quot blocks (NDSPF f)).

Definition info_owner (fib finode : Z) : M S unit :=
  v44 <- glob bsd44fs ;;
  if negb (v44 =? 0) then
    uid <- rd32 (ic_nuid finode) ;;
    wr16 (fib_OwnerUID fib) uid ;;
    gid <- rd32 (ic_ngid finode) ;;
    wr16 (fib_OwnerGID fib) gid
  else
    uid <- rd16 (ic_ouid finode) ;;
    wr16 (fib_OwnerUID fib) uid ;;
    gid <- rd16 (ic_ogid finode) ;;
    wr16 (fib_OwnerGID fib) gid.

Definition info_date (fib finode : Z) : M S unit :=
  mtime <- rd32 (ic_mtime finode) ;;
  gmt <- opt GMT ;;
  sb <- hv super ;;
  wr_date (fib_Date fib) (unix_time_to_amiga_ds gmt (if negb (mtime =? 0) then mtime else fs_time sb)).

Definition info_name (fib lock : Z) (dir_ent : option Z) : M S unit :=
  lock <- ptr lock ;;
  key <- rd32 (fl_Key lock) ;;
  type <- TYPE ;;
  (if (key =? ROOTINO) && ((type =? ACTION_EXAMINE_OBJECT) || (type =? ACTION_EX_OBJECT)) then
     vol <- hv VolNode ;;
     vol <- ptr vol ;;
     name <- rd32 (dl_Name vol) ;;
     str <- str_at (BTOC name + 1) ;;
     strcpy (fib_FileName fib + 1) str
   else
     ent <- deref dir_ent ;;
     strncpy (Z.to_nat (DIRNAMESIZE - 1)) (fib_FileName fib + 1) (d_name ent) ;;
     wr8 (fib_FileName fib + (DIRNAMESIZE - 1)) 0 ;;
     ino <- rd32 (d_ino ent) ;;
     wr32 (fib_DiskKey fib) ino) ;;
  n <- strlen (fib_FileName fib + 1) ;;
  wr8 (fib_FileName fib) n.

Definition FillInfoBlock (fib lock finode : Z) (dir_ent : option Z) : M S unit :=
  fmode <- rd16 (ic_mode finode) ;;
  wr8 (fib_Comment fib) 0 ;;
  wr8 (fib_Comment fib + 1) 0 ;;
  inode_comment fib finode dir_ent fmode ;;
  info_size fib finode ;;
  ino <- entry_ino dir_ent ;;
  let root := match dir_ent with None => true | Some _ => ino =? ROOTINO end in
  let type := info_type root fmode in
  wr32 (fib_DirEntryType fib) type ;;
  type_comment fib finode dir_ent type ;;
  inv <- opt og_perm_invert ;;
  wr32 (fib_Protection fib) (info_protection inv fmode) ;;
  info_owner fib finode ;;
  type <- rd32 (fib_DirEntryType fib) ;;
  wr32 (fib_EntryType fib) type ;;
  info_date fib finode ;;
  info_name fib lock dir_ent ;;
  action <- TYPE ;;
  if (action =? ACTION_EX_OBJECT) || (action =? ACTION_EX_NEXT)
  then wr32 (fib_mode fib) (Z.shiftl (group_mode inv fmode) 3) else ret tt.

(** ** FillAttrBlock: fileattr_t is seventeen words *)

Definition attr_field (attr i : Z) : Z := attr + 4 * i.

Definition FillAttrBlock (attr finode : Z) : M S unit :=
  fmode <- rd16 (ic_mode finode) ;;
  nlink <- rd16 (ic_nlink finode) ;;
  uid <- rd16 (ic_ouid finode) ;;
  gid <- rd16 (ic_ogid finode) ;;
  size <- rd32 (ic_size finode) ;;
  sector <- opt phys_sectorsize ;;
  blocks <- rd32 (ic_blocks finode) ;;
  gmt <- opt GMT ;;
  wr32 (attr_field attr 0) (attr_type fmode) ;;
  wr32 (attr_field attr 1) fmode ;;
  wr32 (attr_field attr 2) (s16 nlink) ;;
  wr32 (attr_field attr 3) uid ;;
  wr32 (attr_field attr 4) gid ;;
  wr32 (attr_field attr 5) size ;;
  wr32 (attr_field attr 6) sector ;;
  wr32 (attr_field attr 7) 0 ;;
  wr32 (attr_field attr 8) blocks ;;
  wr32 (attr_field attr 9) 0 ;;
  wr32 (attr_field attr 10) uid ;;
  atime <- rd32 (ic_atime finode) ;;
  wr32 (attr_field attr 11) (atime + gmt * 3600) ;;
  ns <- rds32 (ic_atime_ns finode) ;;
  wr32 (attr_field attr 12) (Z.quot ns 1000) ;;
  mtime <- rd32 (ic_mtime finode) ;;
  wr32 (attr_field attr 13) (mtime + gmt * 3600) ;;
  ns <- rds32 (ic_mtime_ns finode) ;;
  wr32 (attr_field attr 14) (Z.quot ns 1000) ;;
  ctime <- rd32 (ic_ctime finode) ;;
  wr32 (attr_field attr 15) (ctime + gmt * 3600) ;;
  ns <- rds32 (ic_ctime_ns finode) ;;
  wr32 (attr_field attr 16) (Z.quot ns 1000) ;;
  mode <- rd32 (attr_field attr 1) ;;
  if negb (Z.land mode IFCHR =? 0)
  then dev <- rd32 (ic_db finode 0) ;; wr32 (attr_field attr 7) dev else ret tt.

(** ** examine_common *)

(** The target of the link at [inode], or 0; the buffer is released. *)
Definition link_target (inum inode pinum : Z) : M S Z :=
  filesize <- rd32 (ic_size inode) ;;
  got <- AllocMem (u32 (filesize + 1)) ;;
  v44 <- glob bsd44fs ;;
  ninum <- (if negb (v44 =? 0) && (filesize <? MAXSYMLINKLEN) then
              buf <- deref got ;;
              strncpy (Z.to_nat filesize) buf (ic_db inode 0) ;;
              wr8 (buf + filesize) 0 ;;
              str <- str_at buf ;;
              file_find pinum str
            else
              buf <- deref got ;;
              n <- file_read inum 0 filesize buf ;;
              if u32 n =? filesize then
                wr8 (buf + filesize) 0 ;;
                str <- str_at buf ;;
                file_find pinum str
              else ret 0) ;;
  FreeMem got (u32 (filesize + 1)) ;;
  ret ninum.

(** The end of the function, once the entry is known. *)
Definition examine_fill (lock fib fattr inum : Z) (dir_ent : option Z) : M S unit :=
  inode <- inode_read_ptr inum ;;
  FillInfoBlock fib lock inode dir_ent ;;
  if fattr =? 0 then ret tt else FillAttrBlock fattr inode.

Definition examine_common (lock fib fattr : Z) : M S unit :=
  lock <- ptr lock ;;
  inum <- rd32 (fl_Key lock) ;;
  wr32 (fib_DirOffset fib) MSb ;;
  if inum =? ROOTINO then examine_fill lock fib fattr inum None
  else
    inode <- inode_read_ptr inum ;;
    mode <- rd16 (ic_mode inode) ;;
    if Z.land mode IFMT =? IFLNK then
      resolve <- glob resolve_symlinks ;;
      if resolve =? 0 then fail ERROR_IS_SOFT_LINK
      else
        pinum <- rd32 (fl_Pinum lock) ;;
        ninum <- link_target inum inode pinum ;;
        if ninum =? 0 then fail ERROR_IS_SOFT_LINK
        else
          p <- glob Pinum ;;
          o <- glob Poffset ;;
          dir_ent <- dir_next p o ;;
          wr32 (fl_Key lock) ninum ;;
          wr32 (fl_Pinum lock) p ;;
          wr32 (fl_Poffset lock) o ;;
          examine_fill lock fib fattr ninum dir_ent
    else
      p <- rd32 (fl_Pinum lock) ;;
      o <- rd32 (fl_Poffset lock) ;;
      dir_ent <- dir_next p o ;;
      examine_fill lock fib fattr inum dir_ent.

(** ** The packets *)

Definition PExamineObject : M S unit :=
  arg1 <- ARG1 ;;
  arg2 <- ARG2 ;;
  arg3 <- ARG3 ;;
  type <- TYPE ;;
  examine_common (BTOC arg1) (BTOC arg2)
    (if (type =? ACTION_EX_OBJECT) && negb (arg3 =? 0) then u32 arg3 else 0).

(** The loop from the label getname; every pass moves the offset of the
    info block on. *)
Fixpoint getname (fuel : nat) (lock fib ic_size : Z) : M S unit :=
  offset <- rd32 (fib_DirOffset fib) ;;
  if ic_size <=? offset then fail ERROR_NO_MORE_ENTRIES
  else
    match fuel with
    | O => undef
    | Datatypes.S fuel =>
        key <- rd32 (fl_Key lock) ;;
        dir_ent <- dir_next key offset ;;
        match dir_ent with
        | None => fail ERROR_NO_MORE_ENTRIES
        | Some ent =>
            type <- TYPE ;;
            reclen <- rd16 (d_reclen ent) ;;
            if (offset =? 0) && negb (type =? ACTION_EX_NEXT) then
              reclen2 <- rd16 (d_reclen (ent + reclen)) ;;
              wr32 (fib_DirOffset fib) (offset + (reclen + reclen2)) ;;
              getname fuel lock fib ic_size
            else
              wr32 (fib_DirOffset fib) (offset + reclen) ;;
              ino <- rd32 (d_ino ent) ;;
              if ino =? 0 then
                reclen <- rd16 (d_reclen ent) ;;
                (if reclen =? 0 then
                   offset <- rd32 (fib_DirOffset fib) ;;
                   wr32 (fib_DirOffset fib) (Z.lor offset (DIRBLKSIZ - 1) + 1)
                 else ret tt) ;;
                getname fuel lock fib ic_size
              else
                inode <- inode_read_ptr ino ;;
                FillInfoBlock fib lock inode (Some ent) ;;
                arg3 <- ARG3 ;;
                if (type =? ACTION_EX_NEXT) && negb (arg3 =? 0)
                then FillAttrBlock (u32 arg3) inode else ret tt
        end
    end.

Definition PExamineNext : M S unit :=
  arg1 <- ARG1 ;;
  arg2 <- ARG2 ;;
  let fib := BTOC arg2 in
  lock <- ptr (BTOC arg1) ;;
  offset <- rd32 (fib_DirOffset fib) ;;
  go <- (if negb (Z.land offset MSb =? 0) then
           type <- rd32 (fib_DirEntryType fib) ;;
           if Z.land type (Z.lor ST_USERDIR ST_ROOT) =? 0
           then fail ERROR_NO_MORE_ENTRIES ;; ret false
           else
             wr32 (fib_DirOffset fib) 0 ;;
             key <- rd32 (fl_Key lock) ;;
             readable <- is_readable key ;;
             if readable =? 0 then fail ERROR_READ_PROTECTED ;; ret false else ret true
         else ret true) ;;
  if negb go then ret tt
  else
    key <- rd32 (fl_Key lock) ;;
    pinode <- inode_read key ;;
    dir <- (match pinode with
            | None => ret false
            | Some p => mode <- rd16 (ic_mode p) ;; ret (Z.land mode IFMT =? IFDIR)
            end) ;;
    if negb dir then fail ERROR_DIR_NOT_FOUND
    else
      pinode <- deref pinode ;;
      size <- rd32 (ic_size pinode) ;;
      getname (Z.to_nat size + 1) lock fib size.

Definition PExamineFh : M S unit :=
  arg1 <- ARG1 ;;
  arg2 <- ARG2 ;;
  fileh <- ptr (u32 arg1) ;;
  lock <- rd32 (fh_lock fileh) ;;
  examine_common lock (BTOC arg2) 0.

End InfoBlock.
