(* ===== verification/Packets.v ===== *)
(** The packet handlers of [packets.c].  The arguments are those of the
    packet at hand; results go to [Res1] and [Res2].  The builds without
    RONLY and without NOPERMCHECK. *)

From S2P Require Import Prelude Bitmap Superblock Cg CgStore Alloc UnixTime FileEnv Inode FileAlloc Fread Fwrite Dir Lookup Handler System InfoBlock.
Local Open Scope bffs_scope.

(** struct InfoData *)
Definition id_NumSoftErrors (p : Z) : Z := p.
Definition id_UnitNumber (p : Z) : Z := p + 4.
Definition id_DiskState (p : Z) : Z := p + 8.
Definition id_NumBlocks (p : Z) : Z := p + 12.
Definition id_NumBlocksUsed (p : Z) : Z := p + 16.
Definition id_BytesPerBlock (p : Z) : Z := p + 20.
Definition id_DiskType (p : Z) : Z := p + 24.
Definition id_VolumeNode (p : Z) : Z := p + 28.
Definition id_InUse (p : Z) : Z := p + 32.
Definition ID_WRITE_PROTECTED : Z := 80.
Definition ID_VALIDATED : Z := 82.
Definition ID_FFS_DISK : Z := 0x444f5301.
Definition ACTION_INFO : Z := 26.

(** The mode PSetProtect makes of the bits of [mask]. *)
Definition protect_mode (inv mask mode : Z) : Z :=
  let cleared := Z.land mode (Z.lnot (fold_left Z.lor [ISUID; ISGID; ISVTX; 0x1ff] 0)) in
  let temp := fold_left Z.lor
    [flag mask FIBF_SCRIPT ISUID 0; flag mask FIBF_HIDDEN ISGID 0; flag mask FIBF_PURE ISVTX 0;
     flag mask FIBF_READ 0 IREAD; flag mask FIBF_WRITE 0 IWRITE; flag mask FIBF_DELETE 0 IWRITE;
     flag mask FIBF_EXECUTE 0 IEXEC;
     flag mask FIBF_GRP_READ 0 (Z.shiftr IREAD 3); flag mask FIBF_GRP_WRITE 0 (Z.shiftr IWRITE 3);
     flag mask FIBF_GRP_DELETE 0 (Z.shiftr IWRITE 3);
     flag mask FIBF_GRP_EXECUTE 0 (Z.shiftr IEXEC 3);
     flag mask FIBF_OTR_READ 0 (Z.shiftr IREAD 6); flag mask FIBF_OTR_WRITE 0 (Z.shiftr IWRITE 6);
     flag mask FIBF_OTR_DELETE 0 (Z.shiftr IWRITE 6);
     flag mask FIBF_OTR_EXECUTE 0 (Z.shiftr IEXEC 6)] cleared in
  if inv =? 0 then temp else Z.lxor temp (Z.lor (Z.shiftr rwx 3) (Z.shiftr rwx 6)).

Section Packets.
Context {S : Type} `{HandlerEnv S}.

Definition PUnimplemented : M S unit := fail ERROR_ACTION_NOT_KNOWN.
Definition PNil : M S unit := ret tt.
Definition PSetFileSize : M S unit := fail ERROR_OBJECT_NOT_FOUND.
Definition PFreeDiskFSSM : M S unit := ret tt.
Definition PGetDiskFSSM : M S unit := v <- hv dn_Startup ;; res1 (BTOC v).
Definition PDie : M S unit := upd_hv (set_receiving_packets 0).

(** ** Names

    A BSTR is a length byte, a char, and the characters.  The handlers that
    terminate it overwrite the byte behind it and put it back at the end. *)
Definition bstr_end (bname : Z) : M S Z := n <- rd8 bname ;; ret (bname + 1 + s8 n).

(** [with_nul p m] is *p = 0 around [m]. *)
Definition with_nul (p : Z) (m : M S unit) : M S unit :=
  cho <- rd8 p ;; wr8 p 0 ;; m ;; wr8 p cho.

(** ** Locks *)

Definition PLocateObject : M S unit :=
  ronly <- fs_is_ronly ;;
  arg3 <- ARG3 ;;
  if ronly && (arg3 =? ACCESS_WRITE) then res1 DOSFALSE ;; res1 ERROR_DISK_WRITE_PROTECTED
  else
    arg1 <- ARG1 ;;
    arg2 <- ARG2 ;;
    let name := BTOC arg2 + 1 in
    bname <- bstr_end (BTOC arg2) ;;
    with_nul bname (
      r <- parent_parse (BTOC arg1) name ;;
      let '(pinum, sname) := r in
      if pinum =? 0 then res1 DOSFALSE ;; res2_default ERROR_DIR_NOT_FOUND
      else
        sub <- str_at sname ;;
        inum <- dir_name_find pinum sub ;;
        if inum =? 0 then res1 DOSFALSE ;; res2_default ERROR_OBJECT_NOT_FOUND
        else
          inode <- inode_read inum ;;
          resolve <- glob resolve_symlinks ;;
          link <- (if resolve =? 0 then
                     inode <- deref inode ;;
                     mode <- rd16 (ic_mode inode) ;;
                     ret (Z.land mode IFMT =? IFLNK)
                   else ret false) ;;
          if link then fail ERROR_IS_SOFT_LINK
          else
            p <- glob Pinum ;;
            o <- glob Poffset ;;
            lock <- CreateLock inum arg3 p o ;;
            res1 (CTOB lock)).

(** The loop of FreeLock: the lock is taken off the list at [vol]; [false]
    when it is not on it. *)
Fixpoint unlink_lock (fuel : nat) (vol lock current parent : Z) : M S bool :=
  if current =? 0 then ret false
  else
    match fuel with
    | O => undef
    | Datatypes.S fuel =>
        link <- rd32 (fl_Link current) ;;
        if current =? lock then
          (if parent =? 0 then wr32 (dl_LockList vol) link else wr32 (fl_Link parent) link) ;;
          ret true
        else unlink_lock fuel vol lock (BTOC link) current
    end.

Definition FreeLock (lock : Z) : M S unit :=
  if lock =? 0 then ret tt
  else
    vol <- hv VolNode ;;
    vol <- ptr vol ;;
    head <- rd32 (dl_LockList vol) ;;
    found <- unlink_lock room vol lock (BTOC head) 0 ;;
    if found then FreeMem (Some lock) sizeof_lock else res1 DOSFALSE.

Definition PFreeLock : M S unit := arg1 <- ARG1 ;; FreeLock (BTOC arg1).

Definition PCopyDir : M S unit :=
  arg1 <- ARG1 ;;
  lock <- ptr (BTOC arg1) ;;
  key <- rd32 (fl_Key lock) ;;
  access <- rds32 (fl_Access lock) ;;
  p <- rd32 (fl_Pinum lock) ;;
  o <- rd32 (fl_Poffset lock) ;;
  new <- CreateLock key access p o ;;
  res1 (CTOB new).

Definition PParent : M S unit :=
  arg1 <- ARG1 ;;
  lock <- ptr (BTOC arg1) ;;
  key <- rd32 (fl_Key lock) ;;
  if key =? ROOTINO then res1 0
  else
    lp <- rd32 (fl_Pinum lock) ;;
    pinum <- dir_name_search lp [0x2e; 0x2e] ;;
    if pinum =? 0 then res1 0
    else
      lp <- rd32 (fl_Pinum lock) ;;
      ioffset <- dir_inum_search pinum lp ;;
      lp <- rd32 (fl_Pinum lock) ;;
      new <- CreateLock lp SHARED_LOCK pinum ioffset ;;
      res1 (CTOB new).

(** Key, volume and task of a lock; a NULL lock is the root. *)
Definition lock_identity (lock : Z) : M S (Z * Z * Z) :=
  if lock =? 0 then
    vol <- hv VolNode ;; port <- hv DosPort ;; ret (ROOTINO, CTOB vol, port)
  else
    key <- rd32 (fl_Key lock) ;;
    volume <- rd32 (fl_Volume lock) ;;
    task <- rd32 (fl_Task lock) ;;
    ret (key, volume, task).

Definition PSameLock : M S unit :=
  arg1 <- ARG1 ;;
  arg2 <- ARG2 ;;
  a <- lock_identity (BTOC arg1) ;;
  b <- lock_identity (BTOC arg2) ;;
  let '(key1, volume1, task1) := a in
  let '(key2, volume2, task2) := b in
  if negb (volume1 =? volume2) || negb (task1 =? task2) then fail LOCK_DIFFERENT
  else if negb (key1 =? key2) then fail LOCK_SAME_HANDLER
  else res1 DOSTRUE ;; res2 LOCK_SAME.

(** ** Opening files *)

(** The new file handle after its lock was made. *)
Definition init_fileh (fileh mode inum : Z) : M S unit :=
  wr32 (current_position fileh) 0 ;;
  wr32 (maximum_position fileh) 0 ;;
  wr32 (access_mode fileh) MODE_READ ;;
  wr32 (truncate_mode fileh) mode ;;
  wr32 (real_inum fileh) inum.

(** The body of PFindInput from the type test on, up to the label doserror
    ([false]). *)
Definition find_input (inum inode fh : Z) : M S bool :=
  mode <- rd16 (ic_mode inode) ;;
  if negb (Z.land mode IFMT =? IFREG) then res2 ERROR_OBJECT_WRONG_TYPE ;; ret false
  else if Z.land mode IREAD =? 0 then res2 ERROR_READ_PROTECTED ;; ret false
  else
    got <- AllocMem sizeof_fh ;;
    match got with
    | None => res2 ERROR_NO_FREE_STORE ;; ret false
    | Some fileh =>
        p <- glob Pinum ;;
        o <- glob Poffset ;;
        lock <- CreateLock inum ACCESS_READ p o ;;
        wr32 (fh_lock fileh) lock ;;
        if lock =? 0 then
          res2 ERROR_OBJECT_IN_USE ;; FreeMem (Some fileh) sizeof_fh ;; ret false
        else
          wr32 (fl_Fileh lock) fileh ;;
          key <- rd32 (fl_Key lock) ;;
          init_fileh fileh MODE_UPDATE key ;;
          wr32 (fh_Arg1 fh) fileh ;;
          ret true
    end.

Definition PFindInput : M S unit :=
  arg1 <- ARG1 ;;
  arg2 <- ARG2 ;;
  arg3 <- ARG3 ;;
  let name := BTOC arg3 + 1 in
  bname <- bstr_end (BTOC arg3) ;;
  cho <- rd8 bname ;;
  wr8 bname 0 ;;
  inum <- path_parse (BTOC arg2) name ;;
  if inum =? 0 then
    res2_default ERROR_OBJECT_NOT_FOUND ;; wr8 bname cho ;; res1 DOSFALSE
  else
    inode <- inode_read inum ;;
    match inode with
    | None => fail ERROR_DISK_NOT_VALIDATED       (* the name stays cut *)
    | Some inode =>
        ok <- find_input inum inode (BTOC arg1) ;;
        wr8 bname cho ;;
        if ok : bool then ret tt else res1 DOSFALSE
    end.

(** Creating the file for output: the inode number, or [None] for the jump
    to doserror. *)
Definition output_create (fileh pinum : Z) (sname : list Z) : M S (option Z) :=
  if negb (dir_name_is_illegal sname =? 0) then res2 ERROR_INVALID_COMPONENT_NAME ;; ret None
  else
    w <- is_writable pinum ;;
    if w =? 0 then res2 ERROR_WRITE_PROTECTED ;; ret None
    else
      inum <- inum_new pinum I_FILE ;;
      if inum =? 0 then res2 ERROR_NO_MORE_ENTRIES ;; ret None
      else
        ioffset <- dir_create pinum sname inum DT_REG ;;
        if ioffset =? 0 then inum_free inum ;; res2 ERROR_DISK_FULL ;; ret None
        else
          lock <- CreateLock inum ACCESS_WRITE pinum ioffset ;;
          wr32 (fh_lock fileh) lock ;;
          if lock =? 0 then inum_free inum ;; res2 ERROR_OBJECT_NOT_FOUND ;; ret None
          else wr32 (fl_Fileh lock) fileh ;; inum_sane inum I_FILE ;; ret (Some inum).

(** Opening the file that exists. *)
Definition output_open (fileh inum : Z) : M S (option Z) :=
  inode <- inode_read inum ;;
  match inode with
  | None => ret None
  | Some inode =>
      mode <- rd16 (ic_mode inode) ;;
      if negb (Z.land mode IFMT =? IFREG) then res2 ERROR_OBJECT_WRONG_TYPE ;; ret None
      else if Z.land mode IWRITE =? 0 then res2 ERROR_WRITE_PROTECTED ;; ret None
      else
        p <- glob Pinum ;;
        o <- glob Poffset ;;
        lock <- CreateLock inum ACCESS_WRITE p o ;;
        wr32 (fh_lock fileh) lock ;;
        if lock =? 0 then res2 ERROR_OBJECT_IN_USE ;; ret None
        else wr32 (fl_Fileh lock) fileh ;; ret (Some inum)
  end.

Definition PFindOutput : M S unit :=
  arg1 <- ARG1 ;;
  arg2 <- ARG2 ;;
  arg3 <- ARG3 ;;
  let name := BTOC arg3 + 1 in
  bname <- bstr_end (BTOC arg3) ;;
  cho <- rd8 bname ;;
  wr8 bname 0 ;;
  ronly <- fs_is_ronly ;;
  if ronly then fail ERROR_DISK_WRITE_PROTECTED   (* the name stays cut *)
  else
    got <- AllocMem sizeof_fh ;;
    match got with
    | None => fail ERROR_NO_FREE_STORE            (* the name stays cut *)
    | Some fileh =>
        r <- parent_parse (BTOC arg2) name ;;
        opened <- (if r.1 =? 0 then res2 ERROR_DIR_NOT_FOUND ;; ret None
                   else
                     sname <- str_at r.2 ;;
                     inum <- dir_name_search r.1 sname ;;
                     if inum =? 0 then output_create fileh r.1 sname else output_open fileh inum) ;;
        match opened with
        | Some inum =>
            init_fileh fileh MODE_TRUNCATE inum ;;
            wr32 (fh_Arg1 (BTOC arg1)) fileh ;;
            wr8 bname cho
        | None => wr8 bname cho ;; res1 DOSFALSE ;; FreeMem (Some fileh) sizeof_fh
        end
    end.

(** ** Reading, writing and seeking *)

(** After a transfer: Res1 is a ULONG, so the test for a failure holds of
    every result. *)
Definition advance (fileh n : Z) (failed : M S unit) : M S unit :=
  res1 n ;;
  r <- hv Res1 ;;
  if 0 <=? r then
    pos <- rd32 (current_position fileh) ;;
    wr32 (current_position fileh) (pos + r) ;;
    pos <- rd32 (current_position fileh) ;;
    top <- rd32 (maximum_position fileh) ;;
    if top <? pos then wr32 (maximum_position fileh) pos else ret tt
  else failed.

Definition PRead : M S unit :=
  arg1 <- ARG1 ;;
  buf <- ARG2 ;;
  size <- ARG3 ;;
  fileh <- ptr (u32 arg1) ;;
  inum <- rd32 (real_inum fileh) ;;
  readable <- is_readable inum ;;
  if readable =? 0 then fail ERROR_READ_PROTECTED
  else
    inum <- rds32 (real_inum fileh) ;;
    (if (inum <? 3) || (2097152 <? inum) then res1 (-1) ;; res2 ERROR_SEEK_ERROR else ret tt) ;;
    pos <- rd32 (current_position fileh) ;;
    n <- file_read (u32 inum) pos (u32 size) (u32 buf) ;;
    advance fileh n (res1 (-1) ;; res2 ERROR_SEEK_ERROR).

Definition PWrite : M S unit :=
  arg1 <- ARG1 ;;
  buf <- ARG2 ;;
  size <- ARG3 ;;
  ronly <- fs_is_ronly ;;
  if ronly then fail ERROR_DISK_WRITE_PROTECTED
  else
    fileh <- ptr (u32 arg1) ;;
    inum <- rds32 (real_inum fileh) ;;
    if (inum <? 3) || (2097152 <? inum) then res1 (-1) ;; res2 ERROR_SEEK_ERROR
    else
      mode <- rds32 (access_mode fileh) ;;
      go <- (if mode =? MODE_READ then
               w <- is_writable (u32 inum) ;;
               if w =? 0 then res1 (-1) ;; res2 ERROR_WRITE_PROTECTED ;; ret false
               else
                 full <- file_block_extend (u32 inum) ;;
                 if negb (full =? 0) then res1 (-1) ;; res2 ERROR_DISK_FULL ;; ret false
                 else wr32 (access_mode fileh) MODE_WRITE ;; ret true
             else ret true) ;;
      if negb go then ret tt
      else
        res2 0 ;;
        inum <- rd32 (real_inum fileh) ;;
        pos <- rd32 (current_position fileh) ;;
        n <- file_write inum pos (u32 size) (u32 buf) ;;
        advance fileh n (res1 (-1) ;; res2_default ERROR_SEEK_ERROR).

(** Where a seek goes: movement is a long, the end of the file a ULONG. *)
Definition seek_target (mode movement pos end_ : Z) : Z :=
  if mode =? OFFSET_END then s32 (movement + end_)
  else if mode =? OFFSET_CURRENT then s32 (movement + pos)
  else movement.

Definition PSeek : M S unit :=
  arg1 <- ARG1 ;;
  movement <- ARG2 ;;
  mode <- ARG3 ;;
  fileh <- ptr (u32 arg1) ;;
  inum <- rds32 (real_inum fileh) ;;
  (if (inum <? 3) || negb (Z.shiftr inum 30 =? 0) then res1 (-1) ;; res2 ERROR_SEEK_ERROR
   else ret tt) ;;
  inode <- inode_read_ptr (u32 inum) ;;
  end_ <- rd32 (ic_size inode) ;;
  pos <- rd32 (current_position fileh) ;;
  let movement := seek_target mode movement pos end_ in
  if (0 <=? movement) && (u32 movement <=? end_) then
    pos <- rd32 (current_position fileh) ;;
    res1 pos ;;
    wr32 (current_position fileh) movement
  else res1 (-1) ;; res2 ERROR_SEEK_ERROR.

Definition PEnd : M S unit :=
  arg1 <- ARG1 ;;
  fileh <- ptr (u32 arg1) ;;
  mode <- rds32 (access_mode fileh) ;;
  (if mode =? MODE_WRITE then truncate_file fileh else ret tt) ;;
  lock <- rd32 (fh_lock fileh) ;;
  FreeLock lock ;;
  FreeMem (Some fileh) sizeof_fh.

End Packets.
