(* ===== verification/LockTheorems.v ===== *)
(** The locks of a volume: the list in memory that CreateLock of [system.c]
    and FreeLock of [packets.c] keep, as a list of addresses and contents,
    and the theorems that the two are the operations on it they are meant to
    be, and that an exclusive lock excludes. *)

From S2P Require Import Prelude Bitmap Superblock Cg CgStore Alloc AllocWp FileEnv Inode FileAlloc Dir Lookup Handler System.
From S2P Require Import FileSpec HandlerSpec Packets.
Local Open Scope bffs_scope.

Lemma BTOC_CTOB p : 0 <= p < 2 ^ 32 -> p mod 4 = 0 -> BTOC (CTOB p) = p.
Proof.
  intros Hp Hm. unfold BTOC, CTOB, u32. rewrite Z.shiftl_mul_pow2, Z.shiftr_div_pow2 by lia.
  zify_pow. dlia.
Qed.

Lemma CTOB_u32 p : 0 <= p < 2 ^ 32 -> u32 (CTOB p) = CTOB p.
Proof.
  intros Hp. apply u32_small. unfold in_u32, CTOB. rewrite Z.shiftr_div_pow2 by lia. zify_pow. dlia.
Qed.

Lemma s32_u32 x : in_s32 x -> s32 (u32 x) = x.
Proof. unfold in_s32, s32, u32. zify_pow. intros H. dlia. Qed.

(** ** One lock *)

Record lock := Lock {
  lk_key : Z;
  lk_access : Z;                (* the word; s32 of it is fl_Access *)
  lk_task : Z;
  lk_volume : Z;
  lk_pinum : Z;
  lk_poffset : Z;
  lk_fileh : Z }.

Definition lock_at (U : umem) (p : Z) (L : lock) : Prop :=
  uword U (fl_Key p) = Some (lk_key L) /\ uword U (fl_Access p) = Some (lk_access L) /\
  uword U (fl_Task p) = Some (lk_task L) /\ uword U (fl_Volume p) = Some (lk_volume L) /\
  uword U (fl_Pinum p) = Some (lk_pinum L) /\ uword U (fl_Poffset p) = Some (lk_poffset L) /\
  uword U (fl_Fileh p) = Some (lk_fileh L).

(** ** The list *)

Fixpoint lock_chain (U : umem) (b : Z) (l : list (Z * lock)) : Prop :=
  match l with
  | [] => BTOC b = 0
  | x :: l =>
      BTOC b = x.1 /\ x.1 <> 0 /\ lock_at U x.1 x.2 /\
      exists link, uword U (fl_Link x.1) = Some link /\ lock_chain U link l
  end.

(** Two blocks of memory do not overlap. *)
Definition apart (p n q m : Z) : Prop := p + n <= q \/ q + m <= p.
Definition locks_apart (x y : Z * lock) : Prop := apart x.1 sizeof_lock y.1 sizeof_lock.

(** [vol] is the volume node, [l] its locks. *)
Record locks_of (U : umem) (vol : Z) (l : list (Z * lock)) : Prop := {
  lo_head : exists b, uword U (dl_LockList vol) = Some b /\ lock_chain U b l;
  lo_vol : ublock U vol sizeof_DeviceList /\ vol <> 0;
  lo_apart_vol : Forall (fun x => apart x.1 sizeof_lock vol sizeof_DeviceList) l;
  lo_apart : ForallOrdPairs locks_apart l }.

(** The first lock of a file, as CreateLock finds it: address and access. *)
Fixpoint first_lock (key : Z) (l : list (Z * lock)) : Z * Z :=
  match l with
  | [] => (0, 0)
  | x :: l => if lk_key x.2 =? key then (x.1, s32 (lk_access x.2)) else first_lock key l
  end.

Lemma lock_at_ext U U' p L :
  (forall a, p <= a < p + sizeof_lock -> U' a = U a) -> lock_at U p L -> lock_at U' p L.
Proof.
  intros H. unfold lock_at, sizeof_lock in *.
  rewrite !(uword_ext U U'); [done|..]; intros a Ha; apply H;
    unfold fl_Key, fl_Access, fl_Task, fl_Volume, fl_Pinum, fl_Poffset, fl_Fileh in Ha; lia.
Qed.

Lemma lock_chain_ext U U' l : forall b,
  (forall x a, x ∈ l -> x.1 <= a < x.1 + sizeof_lock -> U' a = U a) ->
  lock_chain U b l -> lock_chain U' b l.
Proof.
  induction l as [|x l IH]; cbn [lock_chain]; intros b He; [done|].
  intros (Hb & Hn & Hx & link & Hl & Hc). split; [done|]. split; [done|].
  assert (x ∈ x :: l) as Hin by apply list_elem_of_here. split.
  - eapply lock_at_ext; [|done]. intros a Ha. by eapply He.
  - exists link. split.
    + rewrite <- Hl. apply uword_ext. intros a Ha. eapply He; [done|]. unfold fl_Link, sizeof_lock in *. lia.
    + apply IH; [|done]. intros y a Hy. apply He. by apply list_elem_of_further.
Qed.

Lemma lock_chain_block U l : forall b x,
  lock_chain U b l -> x ∈ l -> ublock U x.1 sizeof_lock.
Proof.
  induction l as [|y l IH]; cbn [lock_chain]; intros b x Hc Hx; [by apply not_elem_of_nil in Hx|].
  destruct Hc as (_ & _ & (E1 & E2 & E3 & E4 & E5 & E6 & E7) & link & E0 & Hc).
  apply elem_of_cons in Hx as [->|Hx]; [|by eapply IH].
  unfold sizeof_lock, fl_Link, fl_Key, fl_Access, fl_Task, fl_Volume, fl_Pinum, fl_Poffset, fl_Fileh in *.
  pose proof (uword_block U _ (mk_is_Some _ _ E0)) as B0. pose proof (uword_block U _ (mk_is_Some _ _ E1)) as B1.
  pose proof (uword_block U _ (mk_is_Some _ _ E2)) as B2. pose proof (uword_block U _ (mk_is_Some _ _ E3)) as B3.
  pose proof (uword_block U _ (mk_is_Some _ _ E4)) as B4. pose proof (uword_block U _ (mk_is_Some _ _ E5)) as B5.
  pose proof (uword_block U _ (mk_is_Some _ _ E6)) as B6. pose proof (uword_block U _ (mk_is_Some _ _ E7)) as B7.
  intros a Ha.
  destruct (Z.lt_ge_cases a (y.1 + 4)); [apply B0; lia|]. destruct (Z.lt_ge_cases a (y.1 + 8)); [apply B1; lia|].
  destruct (Z.lt_ge_cases a (y.1 + 12)); [apply B2; lia|]. destruct (Z.lt_ge_cases a (y.1 + 16)); [apply B3; lia|].
  destruct (Z.lt_ge_cases a (y.1 + 20)); [apply B4; lia|]. destruct (Z.lt_ge_cases a (y.1 + 24)); [apply B5; lia|].
  destruct (Z.lt_ge_cases a (y.1 + 28)); [apply B6; lia|]. apply B7; lia.
Qed.

(** Memory that was not known before lies apart from all that was. *)
Lemma fresh_apart U p q m : (forall a, p <= a < p + sizeof_lock -> U a = None) -> 0 < m -> ublock U q m -> apart p sizeof_lock q m.
Proof.
  intros Hnew Hm Hq. unfold apart. destruct (Z.le_gt_cases (p + sizeof_lock) q); [by left|].
  destruct (Z.le_gt_cases (q + m) p); [by right|]. exfalso. set (a := Z.max p q).
  destruct (Hq a) as [x Hx]; [unfold a, sizeof_lock in *; lia|].
  rewrite Hnew in Hx; [done|]. unfold a, sizeof_lock in *. lia.
Qed.

(** A lock at the front of the list, in memory that was not known before. *)
Lemma locks_of_cons U U' vol l p L :
  locks_of U vol l ->
  (forall a, p <= a < p + sizeof_lock -> U a = None) ->
  (forall a, a < p \/ p + sizeof_lock <= a -> a < dl_LockList vol \/ dl_LockList vol + 4 <= a -> U' a = U a) ->
  0 < p -> p + sizeof_lock <= 2 ^ 32 -> p mod 4 = 0 ->
  lock_at U' p L -> uword U' (fl_Link p) = uword U (dl_LockList vol) ->
  uword U' (dl_LockList vol) = Some (CTOB p) -> ublock U' vol sizeof_DeviceList ->
  locks_of U' vol ((p, L) :: l).
Proof.
  intros [(b & Hb & Hc) [Hv Hv0] Hav Ha] Hnew Hsame Hp0 Hp Hm HL Hlink Hhead Hv'.
  assert (apart p sizeof_lock vol sizeof_DeviceList) as Hpv by by apply (fresh_apart U).
  assert (forall x, x ∈ l -> apart p sizeof_lock x.1 sizeof_lock) as Hpx.
  { intros x Hx. apply (fresh_apart U); [done|done|]. by apply (lock_chain_block U l b x). }
  constructor.
  - exists (CTOB p). split; [done|]. cbn [lock_chain fst snd].
    split; [apply BTOC_CTOB; [unfold sizeof_lock in Hp; lia|done]|]. split; [lia|]. split; [done|].
    exists b. split; [by rewrite Hlink|]. eapply lock_chain_ext; [|done]. intros x a Hx Hax.
    rewrite Forall_forall in Hav. pose proof (Hav x Hx) as H1. pose proof (Hpx x Hx) as H2.
    unfold apart, sizeof_lock, sizeof_DeviceList, dl_LockList in *. apply Hsame; lia.
  - by split.
  - by constructor.
  - constructor; [|done]. apply Forall_forall. exact Hpx.
Qed.

(** The list with the block at [q] taken out. *)
Definition without (q : Z) (l : list (Z * lock)) : list (Z * lock) :=
  filter (fun x => x.1 <> q) l.

Section Wp.
Context {S : Type} {FE : FileEnv S} {FV : FileView S} {CL : CgStoreLaws S} {FL : FileEnvLaws S}.

Lemma wp_find_lock (Q : Z * Z -> S -> Prop) s w key l : forall fuel b,
  rep s w -> lock_chain (w_user w) b l -> (length l <= fuel)%nat ->
  Q (first_lock key l) s -> wp (find_lock fuel (BTOC b) key) Q s.
Proof.
  induction l as [|x l IH]; intros fuel b Hr Hc Hf HQ; cbn [lock_chain first_lock] in *.
  - destruct fuel; cbn [find_lock]; rewrite Hc; by apply wp_ret.
  - destruct Hc as (Eb & Hn & (E1 & E2 & _) & link & E0 & Hc).
    destruct fuel as [|fuel]; [cbn in Hf; lia|]. cbn [find_lock]. rewrite Eb.
    rewrite (proj2 (Z.eqb_neq x.1 0) Hn). apply wp_bnd. eapply wp_urd32; [done|done|]. intros _.
    destruct (lk_key x.2 =? key).
    + apply wp_bnd. eapply wp_urds32; [done|done|]. intros _. by apply wp_ret.
    + apply wp_bnd. eapply wp_urd32; [done|done|]. intros _. apply IH; [done|done|cbn in Hf; lia|done].
Qed.

End Wp.

(** The lock CreateLock makes. *)
Definition new_lock (h : handler) (key mode pinum poffset : Z) : lock :=
  Lock (u32 key) (u32 mode) (u32 (DosPort h)) (u32 (CTOB (VolNode h))) (u32 pinum) (u32 poffset) 0.

Definition lock_mode (x : Z * lock) : Z := s32 (lk_access x.2).

(** Two locks on one file are both shared. *)
Definition compatible (x y : Z * lock) : Prop :=
  lk_key x.2 = lk_key y.2 -> lock_mode x <> EXCLUSIVE_LOCK /\ lock_mode y <> EXCLUSIVE_LOCK.
Definition exclusion (l : list (Z * lock)) : Prop :=
  ForallOrdPairs compatible l /\ Forall (fun x => lock_mode x <> ACCESS_INVISIBLE) l.

Lemma first_lock_spec key l :
  (first_lock key l = (0, 0) /\ forall x, x ∈ l -> lk_key x.2 <> key) \/
  (exists l1 x l2, l = l1 ++ x :: l2 /\ lk_key x.2 = key /\ first_lock key l = (x.1, lock_mode x) /\
     forall y, y ∈ l1 -> lk_key y.2 <> key).
Proof.
  induction l as [|x l IH]; cbn [first_lock].
  - left. split; [done|]. intros x Hx. by apply not_elem_of_nil in Hx.
  - destruct (Z.eqb_spec (lk_key x.2) key) as [E|E].
    + right. exists [], x, l. split; [done|]. split; [done|]. split; [done|].
      intros y Hy. by apply not_elem_of_nil in Hy.
    + destruct IH as [[E1 H1]|(l1 & y & l2 & -> & E1 & E2 & H1)]; [left|right].
      * split; [done|]. intros y [->|Hy]%elem_of_cons; [done|by apply H1].
      * exists (x :: l1), y, l2. split; [done|]. split; [done|]. split; [done|].
        intros z [->|Hz]%elem_of_cons; [done|by apply H1].
Qed.

(** A lock that is not refused keeps the exclusion. *)
Lemma exclusion_cons key mode p L l :
  exclusion l -> lk_key L = key -> s32 (lk_access L) = mode -> mode <> ACCESS_INVISIBLE ->
  lock_refused mode (first_lock key l).2 = false -> exclusion ((p, L) :: l).
Proof.
  intros [Hp Hv] Hk Hm Hn Hr. split; [|by constructor; [rewrite <- Hm in Hn|]]. constructor; [|done].
  apply Forall_forall. intros y Hy Ek. cbn [fst snd] in Ek. unfold lock_mode at 1. cbn [snd]. rewrite Hm.
  rewrite Forall_forall in Hv.
  destruct (first_lock_spec key l) as [[_ H1]|(l1 & x & l2 & El & Ex & Ef & H1)].
  { destruct (H1 y Hy). by rewrite <- Hk, Ek. }
  assert (x ∈ l) as Hx by (rewrite El; set_solver). rewrite Ef in Hr. cbn [snd] in Hr. unfold lock_refused in Hr.
  destruct (Z.eqb_spec mode EXCLUSIVE_LOCK) as [_|Hne].
  { apply negb_false_iff, Z.eqb_eq in Hr. by destruct (Hv x Hx). }
  rewrite (proj2 (Z.eqb_neq mode ACCESS_INVISIBLE) Hn) in Hr. apply Z.eqb_neq in Hr. split; [done|].
  rewrite El in Hy. apply elem_of_app in Hy as [Hy|[->|Hy]%elem_of_cons]; [|done|].
  - destruct (H1 y Hy). by rewrite <- Hk, Ek.
  - rewrite El in Hp. clear -Hp Hy Ek Ex Hk.
    induction l1 as [|z l1 IH]; inversion Hp as [|? ? Hz Hp']; subst; [|by apply IH].
    rewrite Forall_forall in Hz. by apply (Hz y Hy); rewrite Ex.
Qed.

Lemma exclusion_without q l : exclusion l -> exclusion (without q l).
Proof.
  assert (forall (P : Z * lock -> Prop) l', Forall P l' -> Forall P (filter (fun x => x.1 <> q) l')) as Hf.
  { intros P l'. rewrite !Forall_forall. intros H x [_ Hx]%list_elem_of_filter. by apply H. }
  intros [Hp Hv]. split; [|by apply Hf]. unfold without.
  induction Hp as [|x l Hx Hp IH]; [constructor|]. inversion Hv; subst. rewrite filter_cons.
  destruct (decide (x.1 <> q)); [|by apply IH]. constructor; [by apply Hf|by apply IH].
Qed.

Section Locks.
Context {S : Type} {FE : FileEnv S} {HE : HandlerEnv S} {CL : CgStoreLaws S}.
Context {HV : handler -> FileView S} {HL : HandlerLaws S HV}.

(** ** CreateLock *)

(** A word written where memory is known. *)
Lemma wp_hwr32 (Q : unit -> S -> Prop) h s w p x :
  hrep h s w -> ublock (w_user w) p 4 ->
  (forall s', hrep h s' (w_set_user (uput32 (w_user w) p x) w) -> Q tt s') -> wp (wr32 p x) Q s.
Proof. intros Hr Hb HQ. eapply (wp_uwr32 (FV := HV h)); [exact Hr|done|]. intros s' Hr' _. by apply HQ. Qed.

Lemma wp_hrd32 (Q : Z -> S -> Prop) h s w p x :
  hrep h s w -> uword (w_user w) p = Some x -> (in_u32 x -> Q x s) -> wp (rd32 p) Q s.
Proof. intros Hr. exact (wp_urd32 (FV := HV h) Q s w p x Hr). Qed.

(** A new lock written at [p] and put in front. *)
Definition put_lock (U : umem) (h : handler) (vol key mode pinum poffset p head : Z) : umem :=
  uput32 (uput32 (uput32 (uput32 (uput32 (uput32 (uput32 (uput32 (uput32 U (fl_Key p) key) (fl_Access p) mode)
    (fl_Task p) (DosPort h)) (fl_Volume p) (CTOB vol)) (fl_Pinum p) pinum) (fl_Poffset p) poffset) (fl_Fileh p) 0)
    (fl_Link p) head) (dl_LockList vol) (CTOB p).

Lemma put_lock_ok U0 U h vol l key mode pinum poffset p b :
  vol = VolNode h -> locks_of U0 vol l -> uword U0 (dl_LockList vol) = Some b -> in_u32 b ->
  (forall a, p <= a < p + sizeof_lock -> U0 a = None) -> (forall a, a < p \/ p + sizeof_lock <= a -> U a = U0 a) ->
  apart p sizeof_lock vol sizeof_DeviceList -> 0 < p -> p mod 4 = 0 -> p + sizeof_lock <= 2 ^ 32 ->
  ublock U vol sizeof_DeviceList ->
  locks_of (put_lock U h vol key mode pinum poffset p b) vol ((p, new_lock h key mode pinum poffset) :: l).
Proof.
  intros -> Hl Hb Hbu Hin Hout Hpv Hp0 Hpm Hp HUv. unfold put_lock. set (U' := uput32 _ (dl_LockList _) _).
  unfold apart, sizeof_DeviceList, sizeof_lock, dl_LockList in *.
  eapply locks_of_cons; [exact Hl|exact Hin| |exact Hp0|exact Hp|exact Hpm| | | |].
  - intros a H1 H2. unfold U', dl_LockList, fl_Link, fl_Key, fl_Access, fl_Task, fl_Volume, fl_Pinum, fl_Poffset, fl_Fileh, sizeof_lock in *.
    rewrite !uput32_ne by lia. apply Hout. lia.
  - unfold lock_at, U', fl_Link, fl_Key, fl_Access, fl_Task, fl_Volume, fl_Pinum, fl_Poffset, fl_Fileh.
    repeat split; repeat rewrite uword_uput32_ne by lia; by rewrite uword_uput32.
  - unfold U', dl_LockList, fl_Link. rewrite uword_uput32_ne by lia. rewrite uword_uput32, u32_small by done. by rewrite Hb.
  - unfold U'. rewrite uword_uput32. f_equal. apply CTOB_u32. lia.
  - unfold U'. by repeat apply uput32_block.
Qed.

Lemma wp_CreateLock (Q : Z -> S -> Prop) h s w l key mode pinum poffset :
  hrep h s w -> locks_of (w_user w) (VolNode h) l -> (length l <= room)%nat ->
  (forall s' e, hrep h s' (w_set_globals (set_Res2 e (w_globals w)) w) ->
     e = (if lock_refused mode (first_lock key l).2 then ERROR_OBJECT_IN_USE else ERROR_NO_FREE_STORE) ->
     Q 0 s') ->
  (forall p s' U', lock_refused mode (first_lock key l).2 = false -> p <> 0 ->
     hrep h s' (w_set_user U' w) ->
     locks_of U' (VolNode h) ((p, new_lock h key mode pinum poffset) :: l) ->
     (forall a, is_Some (w_user w a) -> apart a 1 (dl_LockList (VolNode h)) 4 -> U' a = w_user w a) ->
     Q p s') ->
  wp (CreateLock key mode pinum poffset) Q s.
Proof.
  intros Hr Hl Hlen HE0 HS. pose proof Hl as [(b & Hb & Hc) [Hv Hv0] Hav Ha]. set (vol := VolNode h) in *.
  unfold CreateLock. apply wp_bnd. eapply wp_hv; [exact Hr|]. fold vol.
  rewrite (proj2 (Z.eqb_neq vol 0) Hv0). apply wp_bnd. eapply wp_hrd32; [exact Hr|exact Hb|]. intros Hbu.
  apply wp_bnd. eapply (wp_find_lock (FV := HV h)); [exact Hr|exact Hc|exact Hlen|].
  destruct (lock_refused mode (first_lock key l).2) eqn:Eref.
  { apply wp_bnd. eapply wp_res2; [exact Hr|]. intros s1 Hr1. apply wp_ret. by eapply HE0. }
  apply wp_bnd. eapply wp_AllocMem; [exact Hr|done| |].
  { intros s1 Hr1. apply wp_bnd. eapply wp_res2; [exact Hr1|]. intros s2 Hr2. apply wp_ret. by eapply HE0. }
  intros p s1 U Hr1 Hp0 Hpm Hp Hout Hin Hblk. cbv beta iota.
  assert (p <> 0) as Hpn by lia.
  pose proof (fresh_apart _ p _ _ Hin (eq_refl : 0 < sizeof_DeviceList) Hv) as Hpv.
  assert (forall U', (forall a, a < p \/ p + sizeof_lock <= a -> U' a = U a) -> uword U' (dl_LockList vol) = Some b) as Hhead.
  { intros U' HU. rewrite <- Hb. apply uword_ext. intros a Ha'.
    unfold apart, sizeof_lock, sizeof_DeviceList, dl_LockList in *. rewrite HU, Hout by lia. done. }
  assert (ublock U vol sizeof_DeviceList) as HUv.
  { intros a Ha'. unfold apart, sizeof_lock, sizeof_DeviceList in *. rewrite Hout by lia. apply Hv. lia. }
  unfold sizeof_lock in *.
  apply wp_bnd. eapply wp_hv; [exact Hr1|].
  do 7 (apply wp_bnd; eapply wp_hwr32;
    [eassumption|cbn [w_user w_set_user]; repeat apply uput32_block;
       eapply ublock_sub; [exact Hblk| |]; unfold fl_Key, fl_Access, fl_Task, fl_Volume, fl_Pinum, fl_Poffset, fl_Fileh; lia
    |intros ?s ?Hr; cbn [w_user w_set_user] in *]).
  apply wp_bnd. eapply wp_hrd32; [eassumption| |].
  { cbn [w_user w_set_user]. apply Hhead. intros a Ha'.
    unfold fl_Key, fl_Access, fl_Task, fl_Volume, fl_Pinum, fl_Poffset, fl_Fileh. by rewrite !uput32_ne by lia. }
  intros _. apply wp_bnd. eapply wp_hwr32; [eassumption| |].
  { cbn [w_user w_set_user]. repeat apply uput32_block. eapply ublock_sub; [exact Hblk| |]; unfold fl_Link; lia. }
  intros s9 Hr9. cbn [w_user w_set_user] in Hr9. apply wp_bnd. eapply wp_hwr32; [eassumption| |].
  { cbn [w_user w_set_user]. repeat apply uput32_block. eapply ublock_sub; [exact HUv| |];
      unfold dl_LockList, sizeof_DeviceList; lia. }
  intros s10 Hr10. cbn [w_user w_set_user] in Hr10. apply wp_ret.
  eapply HS; [done|exact Hpn|exact Hr10| |].
  - by apply (put_lock_ok (w_user w) U h vol l key mode pinum poffset p b).
  - intros a [x Hx] Hap. assert (a < p \/ p + 32 <= a) as Hpa.
    { destruct (Z.lt_ge_cases a p); [by left|right]. destruct (Z.le_gt_cases (p + 32) a); [done|]. by rewrite Hin in Hx by lia. }
    unfold apart, dl_LockList, fl_Link, fl_Key, fl_Access, fl_Task, fl_Volume, fl_Pinum, fl_Poffset, fl_Fileh in *.
    rewrite !uput32_ne by lia. apply Hout. lia.
Qed.

(** ** FreeLock *)

(** The word that points to the lock the loop is at. *)
Definition link_slot (vol parent : Z) : Z := if parent =? 0 then dl_LockList vol else fl_Link parent.

Lemma without_cons q x l : without q (x :: l) = if decide (x.1 = q) then without q l else x :: without q l.
Proof. unfold without. rewrite filter_cons. destruct (decide (x.1 = q)), (decide (x.1 <> q)); done. Qed.

Lemma without_none q l : (forall x, x ∈ l -> x.1 <> q) -> without q l = l.
Proof.
  induction l as [|x l IH]; intros H; [done|]. rewrite without_cons, decide_False by (apply H; set_solver).
  f_equal. apply IH. intros y Hy. apply H. set_solver.
Qed.

Lemma elem_of_without q x l : x ∈ without q l <-> x ∈ l /\ x.1 <> q.
Proof. unfold without. rewrite list_elem_of_filter. tauto. Qed.

(** Where the loop of FreeLock may write: the slot, and the first words of
    the locks it passes. *)
Definition quiet_out (U U' : umem) (slot : Z) (l : list (Z * lock)) : Prop :=
  (forall a, is_Some (U a) -> is_Some (U' a)) /\
  (forall a, apart a 1 slot 4 -> (forall x, x ∈ l -> apart a 1 x.1 4) -> U' a = U a).

Lemma wp_unlink_lock vol q h w l : forall fuel b parent (s : S),
  hrep h s w -> (length l <= fuel)%nat ->
  uword (w_user w) (link_slot vol parent) = Some b -> lock_chain (w_user w) b l ->
  ForallOrdPairs locks_apart l -> Forall (fun x => apart x.1 sizeof_lock (link_slot vol parent) 4) l ->
  wp (unlink_lock fuel vol q (BTOC b) parent) (fun r s' => exists U' b',
    hrep h s' (w_set_user U' w) /\ r = bool_decide (q ∈ l.*1) /\
    uword U' (link_slot vol parent) = Some b' /\ lock_chain U' b' (without q l) /\
    quiet_out (w_user w) U' (link_slot vol parent) l) s.
Proof.
  induction l as [|x l IH]; intros fuel b parent s Hr Hf Hslot Hc Hp Hs; cbn [lock_chain] in Hc.
  - destruct fuel; cbn [unlink_lock]; rewrite Hc; apply wp_ret; exists (w_user w), b;
      (split; [by destruct w|]; split; [symmetry; apply bool_decide_eq_false; by apply not_elem_of_nil|]);
      (split; [done|]; split; [done|]; by split).
  - destruct Hc as (Eb & Hn & Hat & link & E0 & Hc). destruct fuel as [|fuel]; [cbn in Hf; lia|].
    cbn [unlink_lock]. rewrite Eb, (proj2 (Z.eqb_neq x.1 0) Hn).
    inversion Hp as [|? ? Hx Hp']; subst. inversion Hs as [|? ? Hxs Hs']; subst. rewrite Forall_forall in Hx.
    apply wp_bnd. eapply wp_hrd32; [exact Hr|exact E0|]. intros Hlu. destruct (Z.eqb_spec x.1 q) as [Eq|Eq].
    + assert (ublock (w_user w) (link_slot vol parent) 4) as Hb by (apply uword_block; by rewrite Hslot).
      assert (forall s1, hrep h s1 (w_set_user (uput32 (w_user w) (link_slot vol parent) link) w) ->
        wp (ret true) (fun r s' => exists U' b', hrep h s' (w_set_user U' w) /\
          r = bool_decide (q ∈ (x :: l).*1) /\ uword U' (link_slot vol parent) = Some b' /\
          lock_chain U' b' (without q (x :: l)) /\ quiet_out (w_user w) U' (link_slot vol parent) (x :: l)) s1) as Hend.
      { intros s1 Hr1. apply wp_ret. exists (uput32 (w_user w) (link_slot vol parent) link), link.
        split; [done|]. split; [symmetry; apply bool_decide_eq_true; cbn; rewrite Eq; set_solver|].
        split; [rewrite uword_uput32; by rewrite u32_small|]. split.
        - rewrite without_cons, decide_True by done. rewrite without_none.
          + eapply lock_chain_ext; [|done]. intros y a Hy Ha. rewrite Forall_forall in Hs'.
            pose proof (Hs' y Hy) as H1. unfold apart in H1. apply uput32_ne. lia.
          + intros y Hy Ey. pose proof (Hx y Hy) as H1. unfold locks_apart, apart, sizeof_lock in H1. lia.
        - split; [intros a; apply uput32_some |intros a Ha _; unfold apart in Ha; apply uput32_ne; lia]. }
      unfold link_slot in *. destruct (parent =? 0); apply wp_bnd;
        (eapply wp_hwr32; [exact Hr|exact Hb|exact Hend]).
    + assert (link_slot vol x.1 = fl_Link x.1) as Es by (unfold link_slot; by rewrite (proj2 (Z.eqb_neq x.1 0) Hn)).
      eapply wp_mono; [apply (IH fuel link x.1 s Hr); [cbn in Hf; lia|by rewrite Es|done|done|]|].
      { apply Forall_forall. intros y Hy. pose proof (Hx y Hy) as H1. rewrite Es.
        unfold locks_apart, apart, sizeof_lock, fl_Link in *. lia. }
      rewrite Es. unfold fl_Link. intros r s' (U' & b' & Hr' & -> & Hb' & Hc' & Hsome & Hq).
      assert (forall a, x.1 + 4 <= a < x.1 + sizeof_lock -> U' a = w_user w a) as Hin.
      { intros a Ha. apply Hq; [unfold apart; lia|]. intros y Hy. pose proof (Hx y Hy) as H1.
        unfold locks_apart, apart, sizeof_lock in *. lia. }
      exists U', b. split; [done|]. split.
      { apply bool_decide_ext. cbn. rewrite elem_of_cons. naive_solver. }
      split. { rewrite <- Hslot. apply uword_ext. intros a Ha. rewrite Forall_forall in Hs'. apply Hq.
        - unfold apart, sizeof_lock in *. lia.
        - intros y Hy. pose proof (Hs' y Hy) as H1. unfold apart, sizeof_lock in *. lia. }
      split.
      * rewrite without_cons, decide_False by done. cbn [lock_chain]. split; [done|]. split; [done|]. split.
        -- destruct Hat as (L1 & L2 & L3 & L4 & L5 & L6 & L7). unfold lock_at.
           unfold fl_Key, fl_Access, fl_Task, fl_Volume, fl_Pinum, fl_Poffset, fl_Fileh, sizeof_lock in *.
           rewrite !(uword_ext (w_user w) U') by (intros a Ha; apply Hin; lia). done.
        -- by exists b'.
      * split; [done|]. intros a Ha Hl. apply Hq; [apply Hl; set_solver|]. intros y Hy. apply Hl. set_solver.
Qed.

Lemma ForallOrdPairs_without q l (R : Z * lock -> Z * lock -> Prop) :
  ForallOrdPairs R l -> ForallOrdPairs R (without q l).
Proof.
  induction 1 as [|x l Hx Hp IH]; [constructor|]. rewrite without_cons. destruct (decide _); [done|].
  constructor; [|done]. rewrite Forall_forall in *. intros y [Hy _]%elem_of_without. by apply Hx.
Qed.

Lemma Forall_without q l (P : Z * lock -> Prop) : Forall P l -> Forall P (without q l).
Proof. rewrite !Forall_forall. intros H y [Hy _]%elem_of_without. by apply H. Qed.

Lemma wp_FreeLock (Q : unit -> S -> Prop) h s w l q :
  hrep h s w -> locks_of (w_user w) (VolNode h) l -> (length l <= room)%nat -> q <> 0 ->
  ((exists x, x ∈ l /\ x.1 = q) -> forall s' U',
     hrep h s' (w_set_user U' w) -> locks_of U' (VolNode h) (without q l) ->
     (forall a, q <= a < q + sizeof_lock -> U' a = None) -> Q tt s') ->
  ((forall x, x ∈ l -> x.1 <> q) -> forall s' U',
     hrep (set_Res1 DOSFALSE h) s' (w_set_user U' w) -> locks_of U' (VolNode h) l -> Q tt s') ->
  wp (FreeLock q) Q s.
Proof.
  intros Hr Hl Hlen Hq HF HN. pose proof Hl as [(b & Hb & Hc) [Hv Hv0] Hav Ha].
  unfold FreeLock. rewrite (proj2 (Z.eqb_neq q 0) Hq). apply wp_bnd. eapply wp_hv; [exact Hr|].
  set (vol := VolNode h) in *. unfold ptr. rewrite (proj2 (Z.eqb_neq vol 0) Hv0). apply wp_bnd, wp_ret, wp_bnd.
  eapply wp_hrd32; [exact Hr|exact Hb|]. intros _. apply wp_bnd.
  eapply wp_mono; [apply (wp_unlink_lock vol q h w l room b 0 s Hr Hlen Hb Hc Ha)|].
  { rewrite Forall_forall in *. intros x Hx. pose proof (Hav x Hx) as H1. cbn.
    unfold apart, sizeof_lock, sizeof_DeviceList, dl_LockList in *. lia. }
  change (link_slot vol 0) with (dl_LockList vol).
  intros r s1 (U & b' & Hr1 & -> & Hb' & Hc' & Hsome & _). cbv beta.
  assert (ublock U vol sizeof_DeviceList) as HUv by (intros a Hav'; by apply Hsome, Hv).
  case_bool_decide as Hin.
  - apply list_elem_of_fmap in Hin as (x & -> & Hx).
    eapply wp_FreeMem; [exact Hr1| |].
    { intros a Hxa. apply Hsome. by apply (lock_chain_block (w_user w) l b x Hc Hx). }
    intros s2 Hr2. eapply HF; [by exists x|exact Hr2| |intros a Hxa; by apply uforget_in].
    cbn [w_user w_set_user]. rewrite Forall_forall in Hav. pose proof (Hav x Hx) as Hxv.
    unfold apart, sizeof_lock, sizeof_DeviceList in Hxv. constructor.
    + exists b'. split.
      * rewrite <- Hb'. apply uword_ext. intros a Hxa. apply uforget_out. unfold dl_LockList, sizeof_lock in *. lia.
      * eapply lock_chain_ext; [|exact Hc']. intros y a [Hy Hyq]%elem_of_without Hya. apply uforget_out.
        assert (locks_apart x y \/ locks_apart y x) as Hxy.
        { destruct (ForallOrdPairs_In Ha x y) as [->|Hxy]; [by apply list_elem_of_In|by apply list_elem_of_In|done|done]. }
        unfold locks_apart, apart, sizeof_lock in *. lia.
    + split; [|done]. intros a Hxa. rewrite uforget_out; [by apply HUv|]. unfold sizeof_lock, sizeof_DeviceList in *. lia.
    + apply Forall_without. by apply Forall_forall.
    + by apply ForallOrdPairs_without.
  - assert (forall x, x ∈ l -> x.1 <> q) as Hni.
    { intros x Hx E. apply Hin. rewrite <- E. by apply list_elem_of_fmap_2. }
    eapply wp_res1; [exact Hr1|]. intros s2 Hr2. eapply HN; [done|exact Hr2|].
    rewrite without_none in Hc' by done. constructor; [by exists b'|by split|done|done].
Qed.

End Locks.
