(* ===== verification/ObjectPackets.v ===== *)
(** The packets of [packets.c] that change objects: deletion, directories,
    renaming, links, permissions, owners and dates. *)

From S2P Require Import Prelude Bitmap Superblock Cg CgStore Alloc UnixTime FileEnv Inode FileAlloc Fread Fwrite Dir Lookup Handler System InfoBlock Packets.
Local Open Scope bffs_scope.

Section ObjectPackets.
Context {S : Type} `{HandlerEnv S}.

(** if (inum && (inode = get(inum))) ... else the object is not found. *)
Definition with_object (get : Z -> M S (option Z)) (lock name : Z) (body : Z -> M S unit) : M S unit :=
  inum <- path_parse lock name ;;
  inode <- (if inum =? 0 then ret None else get inum) ;;
  match inode with
  | None => fail ERROR_OBJECT_NOT_FOUND
  | Some inode => body inode
  end.

(** ** Permissions and owners *)

Definition PSetProtect : M S unit :=
  arg2 <- ARG2 ;;
  arg3 <- ARG3 ;;
  mask <- ARG4 ;;
  with_object inode_modify (BTOC arg2) (BTOC arg3 + 1) (fun inode =>
    mode <- rd16 (ic_mode inode) ;;
    inv <- opt og_perm_invert ;;
    wr16 (ic_mode inode) (protect_mode inv (u32 mask) mode)).

Definition perms_mode (mode old : Z) : Z := Z.lor (Z.land old IFMT) (Z.land mode (Z.lnot IFMT)).

Definition PSetPerms : M S unit :=
  arg1 <- ARG1 ;;
  arg2 <- ARG2 ;;
  mode <- ARG3 ;;
  with_object inode_modify (BTOC arg1) (BTOC arg2 + 1) (fun inode =>
    old <- rd16 (ic_mode inode) ;;
    wr16 (ic_mode inode) (perms_mode (u32 mode) old)).

Definition PGetPerms : M S unit :=
  arg1 <- ARG1 ;;
  arg2 <- ARG2 ;;
  with_object inode_read (BTOC arg1) (BTOC arg2 + 1) (fun inode =>
    mode <- rd16 (ic_mode inode) ;; res2 mode).

Definition PSetOwner : M S unit :=
  arg2 <- ARG2 ;;
  arg3 <- ARG3 ;;
  both <- ARG4 ;;
  with_object inode_modify (BTOC arg2) (BTOC arg3 + 1) (fun inode =>
    let owner := s16 (Z.shiftr (u32 both) 16) in
    let group := s16 (Z.land (u32 both) 65535) in
    (if owner =? -1 then ret tt else wr16 (ic_ouid inode) owner ;; wr32 (ic_nuid inode) owner) ;;
    (if group =? -1 then ret tt else wr16 (ic_ogid inode) group ;; wr32 (ic_ngid inode) group)).

(** ** Dates *)

Definition rd_date (p : Z) : M S DateStamp :=
  d <- rds32 p ;; m <- rds32 (p + 4) ;; t <- rds32 (p + 8) ;; ret (DateStampOf d m t).

(** A packet that needs a writable file system and an object. *)
Definition with_writable_inum (body : Z -> M S unit) : M S unit :=
  ronly <- fs_is_ronly ;;
  if ronly then fail ERROR_DISK_WRITE_PROTECTED
  else
    arg2 <- ARG2 ;;
    arg3 <- ARG3 ;;
    inum <- path_parse (BTOC arg2) (BTOC arg3 + 1) ;;
    if inum =? 0 then fail ERROR_OBJECT_NOT_FOUND else body inum.

Definition set_stamp (field : Z -> Z) (inum datestamp : Z) : M S unit :=
  inode <- inode_modify_ptr inum ;;
  gmt <- opt GMT ;;
  ds <- rd_date datestamp ;;
  wr32 (field inode) (amiga_ds_to_unix_time gmt ds).

Definition get_stamp (field : Z -> Z) (inum datestamp : Z) : M S unit :=
  inode <- inode_read_ptr inum ;;
  t <- rd32 (field inode) ;;
  gmt <- opt GMT ;;
  wr_date datestamp (unix_time_to_amiga_ds gmt t).

Definition PSetDate : M S unit :=
  datestamp <- ARG4 ;;
  with_writable_inum (fun inum => set_stamp ic_mtime inum (u32 datestamp)).

Definition PSetDates : M S unit :=
  arg1 <- ARG1 ;;
  arg4 <- ARG4 ;;
  let datestamp := u32 arg4 in
  with_writable_inum (fun inum =>
    if arg1 =? 0 then set_stamp ic_mtime inum datestamp
    else if arg1 =? 1 then get_stamp ic_mtime inum datestamp
    else if arg1 =? 2 then set_stamp ic_ctime inum datestamp
    else if arg1 =? 3 then get_stamp ic_ctime inum datestamp
    else if arg1 =? 4 then set_stamp ic_atime inum datestamp
    else if arg1 =? 5 then get_stamp ic_atime inum datestamp
    else fail ERROR_ACTION_NOT_KNOWN).

Definition set_times (field ns : Z -> Z) (inum ttime : Z) : M S unit :=
  inode <- inode_modify_ptr inum ;;
  t <- rd32 ttime ;;
  gmt <- opt GMT ;;
  wr32 (field inode) (t - gmt * 3600) ;;
  n <- rd32 (ttime + 4) ;;
  wr32 (ns inode) n.

Definition get_times (field ns : Z -> Z) (inum ttime : Z) : M S unit :=
  inode <- inode_read_ptr inum ;;
  t <- rd32 (field inode) ;;
  gmt <- opt GMT ;;
  wr32 ttime (t + gmt * 3600) ;;
  n <- rd32 (ns inode) ;;
  wr32 (ttime + 4) n.

Definition PSetTimes : M S unit :=
  arg1 <- ARG1 ;;
  arg4 <- ARG4 ;;
  let ttime := u32 arg4 in
  with_writable_inum (fun inum =>
    if arg1 =? 0 then set_times ic_mtime ic_mtime_ns inum ttime
    else if arg1 =? 1 then get_times ic_mtime ic_mtime_ns inum ttime
    else if arg1 =? 2 then set_times ic_ctime ic_ctime_ns inum ttime
    else if arg1 =? 3 then get_times ic_ctime ic_ctime_ns inum ttime
    else if arg1 =? 4 then set_times ic_atime ic_atime_ns inum ttime
    else if arg1 =? 5 then get_times ic_atime ic_atime_ns inum ttime
    else fail ERROR_ACTION_NOT_KNOWN).

(** ** Deletion *)

(** inode->ic_nlink = ic_nlink + a *)
Definition adjust_nlink (inode a : Z) : M S unit :=
  n <- rd16 (ic_nlink inode) ;; wr16 (ic_nlink inode) (s16 n + a).

(** The object is gone when its last link is. *)
Definition delete_unlinked (inum : Z) : M S unit :=
  inode <- inode_read_ptr inum ;;
  n <- rd16 (ic_nlink inode) ;;
  if s16 n <? 1 then
    mode <- rd16 (ic_mode inode) ;;
    let t := Z.land mode IFMT in
    (if t =? IFLNK then size <- IC_SIZE inode ;; symlink_delete inum (u32 size)
     else if negb (t =? IFCHR) && negb (t =? IFBLK) then file_deallocate inum ;; ret tt
     else ret tt) ;;
    inum_free inum
  else ret tt.

(** The part of PDeleteObject after the entry is deleted. *)
Definition delete_links (inum pinum : Z) : M S unit :=
  inode <- inode_modify inum ;;
  match inode with
  | None => fail ERROR_DISK_NOT_VALIDATED
  | Some inode =>
      adjust_nlink inode (-1) ;;
      mode <- rd16 (ic_mode inode) ;;
      if Z.land mode IFMT =? IFDIR then
        pinode <- inode_modify pinum ;;
        match pinode with
        | None => fail ERROR_DISK_NOT_VALIDATED
        | Some pinode =>
            adjust_nlink inode (-1) ;; adjust_nlink pinode (-1) ;; delete_unlinked inum
        end
      else delete_unlinked inum
  end.

(** The error for an inode number that cannot be deleted. *)
Definition undeletable (inum : Z) : Z :=
  if inum =? 0 then ERROR_OBJECT_NOT_FOUND
  else if inum =? 1 then ERROR_DIRECTORY_NOT_EMPTY else ERROR_OBJECT_WRONG_TYPE.

Definition PDeleteObject : M S unit :=
  ronly <- fs_is_ronly ;;
  if ronly then fail ERROR_DISK_WRITE_PROTECTED
  else
    arg1 <- ARG1 ;;
    arg2 <- ARG2 ;;
    r <- parent_parse (BTOC arg1) (BTOC arg2 + 1) ;;
    let '(pinum, subname) := r in
    inum <- (if pinum =? 0 then ret 0
             else sub <- str_at subname ;; dir_name_search pinum sub) ;;
    ioffset <- glob Poffset ;;
    if inum <? 3 then res1 DOSFALSE ;; res2 (undeletable inum)
    else
      w <- is_writable pinum ;;
      if w =? 0 then fail ERROR_DELETE_PROTECTED
      else
        vol <- hv VolNode ;;
        vol <- ptr vol ;;
        head <- rd32 (dl_LockList vol) ;;
        found <- find_lock room (BTOC head) inum ;;
        if negb (found.1 =? 0) then fail ERROR_OBJECT_IN_USE
        else
          gone <- dir_offset_delete pinum ioffset 1 ;;
          if gone =? 0 then res1 DOSFALSE
          else delete_links inum pinum.

(** ** Directories *)

Definition bump_nlink (inum a : Z) : M S unit :=
  inode <- inode_modify_ptr inum ;; adjust_nlink inode a.

(** create of dir failed *)
Definition create_dir_failed (newinum : Z) : M S unit :=
  inum_free newinum ;; res2 ERROR_INVALID_COMPONENT_NAME ;; res1 DOSFALSE.

Definition PCreateDir : M S unit :=
  ronly <- fs_is_ronly ;;
  if ronly then res2 ERROR_DISK_WRITE_PROTECTED ;; res1 DOSFALSE
  else
    arg1 <- ARG1 ;;
    arg2 <- ARG2 ;;
    r <- parent_parse (BTOC arg1) (BTOC arg2 + 1) ;;
    let '(pinum, subname) := r in
    if pinum =? 0 then res2 ERROR_DIR_NOT_FOUND ;; res1 DOSFALSE
    else
      w <- is_writable pinum ;;
      if w =? 0 then res2 ERROR_WRITE_PROTECTED ;; res1 DOSFALSE
      else
        sname <- str_at subname ;;
        if negb (dir_name_is_illegal sname =? 0)
        then res2 ERROR_INVALID_COMPONENT_NAME ;; res1 DOSFALSE
        else
          old <- dir_name_search pinum sname ;;
          if negb (old =? 0) then res2 ERROR_OBJECT_EXISTS ;; res1 DOSFALSE
          else
            newinum <- inum_new pinum I_DIR ;;
            if newinum =? 0 then res2 ERROR_NO_MORE_ENTRIES ;; res1 DOSFALSE
            else
              ioffset <- dir_create pinum sname newinum DT_DIR ;;
              if ioffset =? 0 then create_dir_failed newinum
              else
                inum_sane newinum I_DIR ;;
                dir_create newinum [0x2e] newinum DT_DIR ;;
                dots <- dir_create newinum [0x2e; 0x2e] pinum DT_DIR ;;
                if negb (dots =? 0) then
                  bump_nlink pinum 1 ;;
                  lock <- CreateLock newinum ACCESS_WRITE pinum ioffset ;;
                  res1 (CTOB lock) ;;
                  res2 0
                else
                  dir_offset_delete pinum ioffset 0 ;;
                  file_deallocate newinum ;;
                  create_dir_failed newinum.

(** ** Renaming *)

(** Moving the entry, once both parents are known and the names legal. *)
Definition rename_entry (oldpinum : Z) (oldsub : list Z) (newpinum : Z) (newsub : list Z) : M S unit :=
  inum <- dir_name_search oldpinum oldsub ;;
  if inum =? 0 then res2 ERROR_OBJECT_NOT_FOUND
  else
    inode <- inode_read_ptr inum ;;
    mode <- rd16 (ic_mode inode) ;;
    let t := Z.land mode IFMT in
    let isdir := if (t =? IFDIR) && negb (oldpinum =? newpinum) then 1 else 0 in
    done <- dir_rename oldpinum oldsub newpinum newsub isdir (Z.shiftr t 12) ;;
    if done =? 0 then res2 ERROR_OBJECT_IN_USE
    else
      (if isdir =? 0 then ret tt
       else
         dir_inum_change inum oldpinum newpinum ;;
         bump_nlink oldpinum (-1) ;;
         bump_nlink newpinum 1) ;;
      res1 DOSTRUE.

Definition rename_checked (oldpinum oldsub newpinum newsub : Z) : M S unit :=
  w <- is_writable oldpinum ;;
  if w =? 0 then res2 ERROR_WRITE_PROTECTED
  else
    w <- is_writable newpinum ;;
    if w =? 0 then res2 ERROR_WRITE_PROTECTED
    else
      oldname <- str_at oldsub ;;
      newname <- str_at newsub ;;
      if negb (dir_name_is_illegal oldname =? 0) then res2 ERROR_INVALID_COMPONENT_NAME
      else if negb (dir_name_is_illegal newname =? 0) then res2 ERROR_INVALID_COMPONENT_NAME
      else if negb (oldpinum =? 0) && negb (newpinum =? 0)
      then rename_entry oldpinum oldname newpinum newname
      else res2 ERROR_DIR_NOT_FOUND.

Definition PRenameObject : M S unit :=
  res1 DOSFALSE ;;
  ronly <- fs_is_ronly ;;
  if ronly then res1 ERROR_DISK_WRITE_PROTECTED
  else
    arg1 <- ARG1 ;;
    arg2 <- ARG2 ;;
    arg3 <- ARG3 ;;
    arg4 <- ARG4 ;;
    oldend <- bstr_end (BTOC arg2) ;;
    newend <- bstr_end (BTOC arg4) ;;
    cho <- rd8 oldend ;;
    chn <- rd8 newend ;;
    wr8 oldend 0 ;;
    wr8 newend 0 ;;
    old <- parent_parse (BTOC arg1) (BTOC arg2 + 1) ;;
    new <- parent_parse (BTOC arg3) (BTOC arg4 + 1) ;;
    rename_checked old.1 old.2 new.1 new.2 ;;
    wr8 oldend cho ;;
    wr8 newend chn.

(** ** Links *)

Definition hard_link (pinum : Z) (subname : list Z) (lock_from : Z) : M S unit :=
  if lock_from =? 0 then res2 ERROR_BAD_TEMPLATE ;; res1 DOSFALSE
  else
    inum <- rd32 (fl_Key lock_from) ;;
    inode <- inode_read_ptr inum ;;
    mode <- rd16 (ic_mode inode) ;;
    let t := Z.land mode IFMT in
    if t =? IFDIR then res2 ERROR_OBJECT_WRONG_TYPE ;; res1 DOSFALSE
    else
      offset <- dir_create pinum subname inum (Z.shiftr t 12) ;;
      if offset =? 0 then res2 ERROR_DISK_FULL ;; res1 DOSFALSE
      else bump_nlink inum 1.

Definition soft_link (pinum : Z) (subname : list Z) (name_from : Z) : M S unit :=
  inum <- inum_new pinum I_FILE ;;
  if inum =? 0 then res2 ERROR_NO_MORE_ENTRIES ;; res1 DOSFALSE
  else
    ioffset <- dir_create pinum subname inum DT_LNK ;;
    if ioffset =? 0 then inum_free inum ;; res2 ERROR_DISK_FULL ;; res1 DOSFALSE
    else
      inum_sane inum I_FILE ;;
      target <- str_at name_from ;;
      made <- symlink_create inum target name_from ;;
      if negb (made =? 0) then
        inode <- inode_modify_ptr inum ;;
        mode <- rd16 (ic_mode inode) ;;
        wr16 (ic_mode inode) (Z.lor (Z.land mode (Z.lnot IFMT)) IFLNK)
      else
        dir_offset_delete pinum ioffset 0 ;;
        file_deallocate inum ;;
        inum_free inum ;;
        res1 DOSFALSE.

Definition PMakeLink : M S unit :=
  ronly <- fs_is_ronly ;;
  if ronly then fail ERROR_DISK_WRITE_PROTECTED
  else
    arg1 <- ARG1 ;;
    arg2 <- ARG2 ;;
    arg3 <- ARG3 ;;
    link_type <- ARG4 ;;
    r <- parent_parse (BTOC arg1) (BTOC arg2 + 1) ;;
    let '(pinum, sub) := r in
    subname <- (if pinum =? 0 then ret [] else str_at sub) ;;
    if (pinum =? 0) || negb (dir_name_is_illegal subname =? 0)
    then res2 ERROR_INVALID_COMPONENT_NAME ;; res1 DOSFALSE
    else
      w <- is_writable pinum ;;
      if w =? 0 then res2 ERROR_WRITE_PROTECTED ;; res1 DOSFALSE
      else
        old <- dir_name_search pinum subname ;;
        if negb (old =? 0) then res2 ERROR_OBJECT_EXISTS ;; res1 DOSFALSE
        else if link_type =? 0 then hard_link pinum subname (BTOC arg3)
        else soft_link pinum subname (BTOC arg3 + 1).

Definition PReadLink : M S unit :=
  arg1 <- ARG1 ;;
  arg2 <- ARG2 ;;
  arg3 <- ARG3 ;;
  arg4 <- ARG4 ;;
  upd_glob (set_linkname None) ;;
  upd_glob (set_read_link 1) ;;
  inum <- path_parse (BTOC arg1) (u32 arg2) ;;
  upd_glob (set_read_link 0) ;;
  if inum =? 0 then res1 (-1) ;; res2 ERROR_OBJECT_NOT_FOUND
  else
    link <- glob linkname ;;
    match link with
    | None => res1 (-1) ;; res2 ERROR_OBJECT_NOT_FOUND
    | Some link =>
        str <- str_at link ;;
        let len := zlen str in
        if arg4 <=? len then res1 (-2) ;; res2 ERROR_OBJECT_TOO_LARGE
        else
          res1 (len + 1) ;;
          strcpy (u32 arg3) str ;;
          FreeMem (Some link) (len + 2)
    end.

(** ** Special files *)

(** The directory entry type of a type of object, if it is one that
    PCreateObject makes itself. *)
Definition object_dir_type (st_type : Z) : option Z :=
  if st_type =? ST_FILE then Some DT_REG
  else if st_type =? ST_CDEVICE then Some DT_CHR
  else if st_type =? ST_BDEVICE then Some DT_BLK
  else if st_type =? ST_FIFO then Some DT_FIFO
  else if st_type =? ST_WHITEOUT then Some DT_WHT
  else None.

(** The mode bits and device number of the new object. *)
Definition object_inode (inode st_type dev : Z) : M S unit :=
  let set_type t :=
    mode <- rd16 (ic_mode inode) ;;
    wr16 (ic_mode inode) (Z.lor (Z.land mode (Z.lnot IFREG)) t) in
  if st_type =? ST_FIFO then set_type IFIFO
  else if st_type =? ST_CDEVICE then set_type IFCHR ;; wr32 (ic_db inode 0) dev
  else if st_type =? ST_BDEVICE then set_type IFBLK ;; wr32 (ic_db inode 0) dev
  else ret tt.

Definition create_special (st_type dir_type : Z) : M S unit :=
  arg1 <- ARG1 ;;
  arg2 <- ARG2 ;;
  r <- parent_parse (BTOC arg1) (BTOC arg2 + 1) ;;
  let '(pinum, sub) := r in
  subname <- (if pinum =? 0 then ret [] else str_at sub) ;;
  if (pinum =? 0) || negb (dir_name_is_illegal subname =? 0)
  then res2 ERROR_INVALID_COMPONENT_NAME ;; res1 DOSFALSE
  else
    w <- is_writable pinum ;;
    if w =? 0 then res2 ERROR_WRITE_PROTECTED ;; res1 DOSFALSE
    else
      inum <- dir_name_search pinum subname ;;
      if negb (inum =? 0) then res2 ERROR_OBJECT_EXISTS ;; res1 DOSFALSE
      else
        inum <- inum_new pinum I_FILE ;;
        if inum =? 0 then res2 ERROR_NO_MORE_ENTRIES ;; res1 DOSFALSE
        else
          offset <- dir_create pinum subname inum dir_type ;;
          if negb (offset =? 0) then
            inum_sane inum I_FILE ;;
            inode <- inode_modify_ptr inum ;;
            dev <- ARG4 ;;
            object_inode inode st_type dev
          else
            res2 ERROR_DISK_FULL ;; inum_free inum ;; res1 DOSFALSE.

(** ARG3 = ARG4; ARG4 = kind; *)
Definition shift_args (kind : Z) : M S unit :=
  upd_hv (fun h => let p := pack h in
    set_pack (Packet (dp_Type p) (dp_Arg1 p) (dp_Arg2 p) (dp_Arg4 p) kind) h).

Definition PCreateObject : M S unit :=
  st_type <- ARG3 ;;
  ronly <- fs_is_ronly ;;
  if ronly then res2 ERROR_DISK_WRITE_PROTECTED ;; res1 DOSFALSE
  else if st_type =? ST_USERDIR then PCreateDir
  else if st_type =? ST_LINKFILE then shift_args 0 ;; PMakeLink
  else if st_type =? ST_SOFTLINK then shift_args 1 ;; PMakeLink
  else
    match object_dir_type st_type with
    | None => res2 ERROR_BAD_NUMBER ;; res1 DOSFALSE
    | Some dir_type => create_special st_type dir_type
    end.

End ObjectPackets.
