(* ===== verification/VolumePackets.v ===== *)
(** The packets of [packets.c] about the volume: information, the sizes of
    the caches, its name, and taking it off and back on line. *)

From S2P Require Import Prelude Bitmap Superblock Cg CgStore Alloc FileEnv Handler System Packets.
Local Open Scope bffs_scope.

Section VolumePackets.
Context {S : Type} `{HandlerEnv S}.

(** ** Information *)

(** NumBlocksUsed: all arithmetic is that of ULONGs. *)
Definition blocks_used (reserve minfree_percent frag dsize nbfree : Z) : Z :=
  let used := u32 (dsize - u32 (nbfree * frag)) in
  if reserve =? 0 then used else u32 (used + u32 (minfree_percent * dsize) / 100).

Definition PDeviceInfo : M S unit :=
  f <- superblock ;;
  sb <- hv super ;;
  let updated := fs_updated f in
  let nbfree := u32 (cs_nbfree (if updated then fs_new_cstotal f else fs_cstotal f)) in
  let dsize := u32 (if updated then fs_new_dsize sb else fs_dsize sb) in
  type <- TYPE ;;
  arg <- (if type =? ACTION_INFO then ARG2 else ARG1) ;;
  infodata <- ptr (BTOC arg) ;;
  wr32 (id_NumSoftErrors infodata) 0 ;;
  wr32 (id_UnitNumber infodata) 0 ;;
  ronly <- fs_is_ronly ;;
  wr32 (id_DiskState infodata) (if ronly : bool then ID_WRITE_PROTECTED else ID_VALIDATED) ;;
  wr32 (id_NumBlocks infodata) dsize ;;
  reserve <- opt minfree ;;
  wr32 (id_NumBlocksUsed infodata) (blocks_used reserve (fs_minfree sb) (fs_frag f) dsize nbfree) ;;
  wr32 (id_BytesPerBlock infodata) (fs_fsize f) ;;
  wr32 (id_DiskType infodata) ID_FFS_DISK ;;
  vol <- hv VolNode ;;
  wr32 (id_VolumeNode infodata) (CTOB vol) ;;
  t <- hv timing ;;
  wr32 (id_InUse infodata) t.

Definition PCurrentVolume : M S unit :=
  vol <- hv VolNode ;;
  (if vol =? 0 then NewVolNode else ret tt) ;;
  vol <- hv VolNode ;;
  res1 (CTOB vol).

(** The fields of struct stat from phys_sectorsize on. *)
Definition PFilesysStats : M S unit :=
  p <- hv stat ;;
  p <- ptr p ;;
  values <- gets stat_values ;;
  mfor (upto 0 (zlen values) 1) (fun i => wr32 (p + 8 + 4 * i) (zget values i)) ;;
  res2 p.

Definition PIsFilesystem : M S unit :=
  bad <- hv dev_openfail ;;
  if bad =? 0 then ret tt else fail ERROR_DEVICE_NOT_MOUNTED.

(** ** The caches *)

(** The new size of a cache: of the group cache by amounts beyond 9999,
    which are counted from 10000, else of the fragment cache. *)
Definition more_cgs (size amount : Z) : Z := s32 (size + (Z.abs amount - 10000) * Z.sgn amount).
Definition more_frags (size amount : Z) : Z := let n := s32 (size + amount) in if n <? 4 then 4 else n.

Definition PMoreCache : M S unit :=
  amount <- ARG1 ;;
  if 9999 <? Z.abs amount then
    modify (fun s => set_cache_cg_size (more_cgs (cache_cg_size s) amount) s) ;;
    cache_cg_adjust ;;
    n <- gets cache_cg_size ;;
    res1 n
  else
    modify (fun s => set_cache_size (more_frags (cache_size s) amount) s) ;;
    cache_adjust ;;
    n <- gets cache_size ;;
    res1 n.

Definition PFlush : M S unit :=
  present <- gets superblock_read ;;
  if negb present then ret tt
  else superblock_flush ;; cache_cg_flush ;; cache_flush ;; ret tt.

(** ** The name *)

(** strncpy of at most [n] characters of the string at [src] into [l] from
    index [i] on, padded with zeros; [None] beyond the end of [l]. *)
Fixpoint strncpy_into (n : nat) (l : list Z) (i src : Z) (ended : bool) : M S (list Z) :=
  match n with
  | O => ret l
  | Datatypes.S n =>
      c <- (if ended then ret 0 else rd8 src) ;;
      if i <? zlen l then strncpy_into n (zset l i c) (i + 1) (src + 1) (c =? 0) else undef
  end.

Definition set_fsmnt (v : list Z) (sb : super_rest) : super_rest :=
  SuperRest (fs_dsize sb) (fs_new_dsize sb) (fs_minfree sb) (fs_time sb) v (fs_clean sb).

Definition PRenameDisk : M S unit :=
  ronly <- fs_is_ronly ;;
  if ronly then res1 DOSFALSE ;; res1 ERROR_DISK_WRITE_PROTECTED
  else
    arg1 <- ARG1 ;;
    let newname := BTOC arg1 in
    vol <- hv VolNode ;;
    if vol =? 0 then fail 0
    else
      n <- rd8 newname ;;
      let newlen := if MAXMNTLEN - 2 <? s8 n then MAXMNTLEN - 2 else s8 n in
      sb <- hv super ;;
      l <- strncpy_into (Z.to_nat MAXMNTLEN) (fs_fsmnt sb) 1 (newname + 1) false ;;
      if newlen + 1 <? 0 then undef              (* indexes fs_fsmnt below 0 *)
      else
        upd_hv (fun h => set_super (set_fsmnt (zset (zset l 0 0x2f) (newlen + 1) 0) (super h)) h) ;;
        fs_fmod_inc ;;
        vname <- hv volumename ;;
        CopyMem newname vname (newlen + 1) ;;
        wr8 vname newlen.

(** ** On line and off *)

Definition PInhibit : M S unit :=
  do_inhibit <- ARG1 ;;
  n <- hv inhibited ;;
  if negb (do_inhibit =? 0) then
    (if n =? 0 then close_files ;; close_filesystem else ret tt) ;;
    upd_hv (fun h => set_inhibited (inhibited h + 1) h)
  else if n =? 0 then fail 0
  else
    upd_hv (fun h => set_inhibited (inhibited h - 1) h) ;;
    n <- hv inhibited ;;
    if n =? 0 then open_filesystem ;; ret tt else ret tt.

Definition PDiskChange : M S unit :=
  cache_full_invalidate ;; close_files ;; close_filesystem ;; open_filesystem ;; ret tt.

Definition PFormat : M S unit :=
  ronly <- fs_is_ronly ;; if ronly then fail ERROR_DISK_WRITE_PROTECTED else ret tt.

Definition PWriteProtect : M S unit :=
  arg1 <- ARG1 ;;
  fixed <- opt physical_ro ;;
  if negb (arg1 =? 0) then upd_superblock (fun f => set_ronly f 1)
  else if fixed =? 0 then upd_superblock (fun f => set_ronly f 0)
  else ret tt.

End VolumePackets.
