(* ===== verification/Dispatch.v ===== *)
(** The dispatch of packets: the tables of [table.c] and the main loop of
    [handler.c] as one function per event it waits for. *)

From Stdlib Require Import String.
From S2P Require Import Prelude Bitmap Superblock Cg CgStore Alloc FileEnv Handler System InfoBlock Packets ObjectPackets VolumePackets.
Local Open Scope bffs_scope.

(** ** table.c *)

(** The routines the tables point to. *)
Inductive routine :=
  | RNil | RUnimplemented | RDie | RCurrentVolume | RLocateObject | RRenameDisk | RFreeLock
  | RDeleteObject | RRenameObject | RMoreCache | RCopyDir | RSetProtect | RCreateDir
  | RExamineObject | RExamineNext | RDeviceInfo | RFlush | RParent | RInhibit | RDiskChange
  | RSetDate | RSameLock | RRead | RWrite | RFindInput | RFindOutput | REnd | RCreateObject
  | RMakeLink | RSetOwner | RIsFilesystem | RSeek | RReadLink | RSetFileSize | RSetDates
  | RSetTimes | RGetPerms | RSetPerms | RExamineFh | RGetDiskFSSM | RFreeDiskFSSM
  | RFilesysStats | RWriteProtect | RFormat.

#[export] Instance routine_eq_dec : EqDecision routine.
Proof. solve_decision. Defined.

Definition NOCHK : Z := 0.
Definition CHECK : Z := 1.

Definition dpacket_table : list (routine * Z) :=
  [(RNil, CHECK); (RUnimplemented, NOCHK); (RUnimplemented, NOCHK); (RUnimplemented, NOCHK);
   (RUnimplemented, NOCHK); (RDie, NOCHK); (RUnimplemented, NOCHK); (RCurrentVolume, CHECK);
   (RLocateObject, CHECK); (RRenameDisk, CHECK); (RUnimplemented, NOCHK); (RUnimplemented, NOCHK);
   (RUnimplemented, NOCHK); (RUnimplemented, NOCHK); (RUnimplemented, NOCHK); (RFreeLock, CHECK);
   (RDeleteObject, CHECK); (RRenameObject, CHECK); (RMoreCache, CHECK); (RCopyDir, CHECK);
   (RUnimplemented, NOCHK); (RSetProtect, CHECK); (RCreateDir, CHECK); (RExamineObject, CHECK);
   (RExamineNext, CHECK); (RDeviceInfo, CHECK); (RDeviceInfo, CHECK); (RFlush, CHECK);
   (RUnimplemented, NOCHK); (RParent, CHECK); (RFlush, CHECK); (RInhibit, NOCHK);
   (RUnimplemented, CHECK); (RDiskChange, CHECK); (RSetDate, CHECK); (RUnimplemented, NOCHK);
   (RUnimplemented, NOCHK); (RUnimplemented, NOCHK); (RUnimplemented, NOCHK);
   (RUnimplemented, NOCHK); (RSameLock, CHECK)].

(** dos/dosextens.h *)
Definition ACTION_FREE_LOCK : Z := 15.
Definition ACTION_DISK_CHANGE : Z := 33.
Definition ACTION_READ : Z := 82.
Definition ACTION_WRITE : Z := 87.
Definition ACTION_FINDUPDATE : Z := 1004.
Definition ACTION_FINDINPUT : Z := 1005.
Definition ACTION_FINDOUTPUT : Z := 1006.
Definition ACTION_END : Z := 1007.
Definition ACTION_SEEK : Z := 1008.
Definition ACTION_FORMAT : Z := 1020.
Definition ACTION_MAKE_LINK : Z := 1021.
Definition ACTION_SET_FILE_SIZE : Z := 1022.
Definition ACTION_WRITE_PROTECT : Z := 1023.
Definition ACTION_READ_LINK : Z := 1024.
Definition ACTION_IS_FILESYSTEM : Z := 1027.
Definition ACTION_EXAMINE_FH : Z := 1034.

Definition spacket_table : list (Z * routine * Z) :=
  [(ACTION_READ, RRead, CHECK); (ACTION_WRITE, RWrite, CHECK);
   (ACTION_FINDINPUT, RFindInput, CHECK); (ACTION_FINDOUTPUT, RFindOutput, CHECK);
   (ACTION_END, REnd, CHECK); (ACTION_EX_OBJECT, RExamineObject, CHECK);
   (ACTION_EX_NEXT, RExamineNext, CHECK); (ACTION_CREATE_OBJECT, RCreateObject, CHECK);
   (ACTION_MAKE_LINK, RMakeLink, CHECK); (ACTION_SET_OWNER, RSetOwner, CHECK);
   (ACTION_IS_FILESYSTEM, RIsFilesystem, CHECK); (ACTION_SEEK, RSeek, CHECK);
   (ACTION_FINDUPDATE, RFindInput, CHECK); (ACTION_READ_LINK, RReadLink, CHECK);
   (ACTION_SET_FILE_SIZE, RSetFileSize, CHECK); (ACTION_SET_DATES, RSetDates, CHECK);
   (ACTION_SET_TIMES, RSetTimes, CHECK); (ACTION_GET_PERMS, RGetPerms, CHECK);
   (ACTION_SET_PERMS, RSetPerms, CHECK); (ACTION_EXAMINE_FH, RExamineFh, CHECK);
   (ACTION_GET_DISK_FSSM, RGetDiskFSSM, NOCHK); (ACTION_FREE_DISK_FSSM, RFreeDiskFSSM, NOCHK);
   (ACTION_FS_STATS, RFilesysStats, NOCHK); (ACTION_WRITE_PROTECT, RWriteProtect, CHECK);
   (ACTION_DISK_CHANGE, RDiskChange, CHECK); (ACTION_FORMAT, RFormat, CHECK)].

Fixpoint spacket_find (table : list (Z * routine * Z)) (ptype : Z) : option (routine * Z) :=
  match table with
  | [] => None
  | (t, r, check) :: table => if t =? ptype then Some (r, check) else spacket_find table ptype
  end.

(** The comparison of a LONG with ARRAY_SIZE is one of unsigned longs. *)
Definition packet_lookup (ptype : Z) : option (routine * Z) :=
  if (u32 ptype <? zlen dpacket_table) && (0 <=? ptype) then dpacket_table !! Z.to_nat ptype
  else spacket_find spacket_table ptype.

(** ** handler.c *)

(** strlower *)
Definition lower_char (c : Z) : Z := if (0x41 <=? c) && (c <=? 0x5a) then c + 0x20 else c.

Fixpoint until_colon (l : list Z) : list Z :=
  match l with
  | [] => []
  | c :: l => if c =? 0x3a then [] else c :: until_colon l
  end.

(** The name NameHandler keeps of the BSTR with length byte [len]: one
    character less, up to a NUL or a colon, in lower case. *)
Definition handler_name_of (len : Z) (name : list Z) : list Z :=
  map lower_char (until_colon (until_nul (take (Z.to_nat (len - 1)) name))).

Section Dispatch.
Context {S : Type} `{HandlerEnv S}.

Definition run_routine (r : routine) : M S unit :=
  match r with
  | RNil => PNil
  | RUnimplemented => PUnimplemented
  | RDie => PDie
  | RCurrentVolume => PCurrentVolume
  | RLocateObject => PLocateObject
  | RRenameDisk => PRenameDisk
  | RFreeLock => PFreeLock
  | RDeleteObject => PDeleteObject
  | RRenameObject => PRenameObject
  | RMoreCache => PMoreCache
  | RCopyDir => PCopyDir
  | RSetProtect => PSetProtect
  | RCreateDir => PCreateDir
  | RExamineObject => PExamineObject
  | RExamineNext => PExamineNext
  | RDeviceInfo => PDeviceInfo
  | RFlush => PFlush
  | RParent => PParent
  | RInhibit => PInhibit
  | RDiskChange => PDiskChange
  | RSetDate => PSetDate
  | RSameLock => PSameLock
  | RRead => PRead
  | RWrite => PWrite
  | RFindInput => PFindInput
  | RFindOutput => PFindOutput
  | REnd => PEnd
  | RCreateObject => PCreateObject
  | RMakeLink => PMakeLink
  | RSetOwner => PSetOwner
  | RIsFilesystem => PIsFilesystem
  | RSeek => PSeek
  | RReadLink => PReadLink
  | RSetFileSize => PSetFileSize
  | RSetDates => PSetDates
  | RSetTimes => PSetTimes
  | RGetPerms => PGetPerms
  | RSetPerms => PSetPerms
  | RExamineFh => PExamineFh
  | RGetDiskFSSM => PGetDiskFSSM
  | RFreeDiskFSSM => PFreeDiskFSSM
  | RFilesysStats => PFilesysStats
  | RWriteProtect => PWriteProtect
  | RFormat => PFormat
  end.

(** From the label endpack up to ReplyPkt: the timer is started when there is
    something to write or the motor is on. *)
Definition endpack : M S unit :=
  on <- gets motor_is_on ;;
  dirty <- gets cache_item_dirty ;;
  if negb (on =? 0) || negb (dirty =? 0) then
    (if on =? 0 then motor_on else ret tt) ;;
    loops <- opt timer_loops ;;
    upd_hv (fun h => set_timer (timing h) (write_items h) loops h) ;;
    t <- hv timing ;;
    if t =? 0 then
      dirty <- gets cache_item_dirty ;;
      upd_hv (fun h => set_timer 1 dirty (write_delay h) h)
    else ret tt
  else ret tt.

(** A packet while the handler receives packets; the result is the pair of
    results ReplyPkt sends back. *)
Definition handle_packet (p : packet) : M S (Z * Z) :=
  upd_hv (set_pack p) ;;
  res1 DOSTRUE ;;
  res2 0 ;;
  (match packet_lookup (dp_Type p) with
   | Some (r, check) =>
       bad <- hv dev_openfail ;;
       if negb (bad =? 0) && negb (check =? 0) then
         refused <- open_filesystem ;;
         if negb (refused =? 0) then ret tt else run_routine r
       else run_routine r
   | None => fail ERROR_ACTION_NOT_KNOWN
   end) ;;
  endpack ;;
  r1 <- hv Res1 ;;
  r2 <- glob Res2 ;;
  ret (r1, r2).

(** The timer has expired. *)
Definition timer_expired : M S unit :=
  dirty <- gets cache_item_dirty ;;
  items <- hv write_items ;;
  delay <- hv write_delay ;;
  if (items <? dirty) && negb (delay <=? 0) then
    upd_hv (set_timer 1 dirty (s32 (delay - 1)))
  else
    PFlush ;; upd_hv (fun h => set_timer 0 (write_items h) (write_delay h) h).

(** The end of the loop that receives packets. *)
Definition shut_down : M S unit :=
  close_files ;;
  close_filesystem ;;
  RemoveVolNode ;;
  upd_hv (set_handler_name []) ;;
  stat_disk_type "Quiescent"%string ;;
  upd_hv (set_inhibited 1).

(** A packet afterwards: [Some] reply, or [None] when ACTION_FS_STATS cannot
    bring the handler back and the packet is never answered.  The timer
    port of the system is assumed to open; NameHandler gets a C string there,
    whose first character it takes for the length. *)
Definition quiescent_packet (p : packet) : M S (option (Z * Z)) :=
  upd_hv (set_pack p) ;;
  if dp_Type p =? ACTION_FS_STATS then
    upd_hv (set_inhibited 0) ;;
    refused <- open_filesystem ;;
    if negb (refused =? 0) then ret None
    else
      upd_hv (set_handler_name (handler_name_of 0x75 (chars "nknown:"))) ;;
      upd_hv (set_receiving_packets 1) ;;
      endpack ;;
      r1 <- hv Res1 ;;
      r2 <- glob Res2 ;;
      ret (Some (r1, r2))
  else
    (if dp_Type p =? ACTION_FREE_LOCK then FreeLock (BTOC (dp_Arg2 p))
     else if dp_Type p =? ACTION_END then PEnd else ret tt) ;;
    ret (Some (DOSFALSE, ERROR_ACTION_NOT_KNOWN)).

(** The packets taken in one go (five at most), all of them answered. *)
Fixpoint handle_packets (l : list packet) : M S (list (option (Z * Z))) :=
  match l with
  | [] => ret []
  | p :: l =>
      reply <- handle_packet p ;;
      rest <- handle_packets l ;;
      ret (Some reply :: rest)
  end.

(** What the process wakes up to: signals of the timer and of the disk, and
    packets.  A packet in the quiescent phase arrives alone. *)
Record wake := Wake {
  w_timer : bool;
  w_dchange : bool;
  w_packets : list packet }.

Definition handler_wake (w : wake) : M S (list (option (Z * Z))) :=
  (if w_timer w then timer_expired else ret tt) ;;
  (if w_dchange w then PDiskChange else ret tt) ;;
  match w_packets w with
  | [] =>
      t <- hv timing ;;
      on <- gets motor_is_on ;;
      (if (t =? 0) && negb (on =? 0) then motor_off else ret tt) ;;
      ret []
  | l =>
      replies <- handle_packets l ;;
      receiving <- hv receiving_packets ;;
      (if receiving =? 0 then shut_down else ret tt) ;;
      ret replies
  end.

(** One pass of the process in either phase. *)
Definition handler_event (w : wake) : M S (list (option (Z * Z))) :=
  receiving <- hv receiving_packets ;;
  if negb (receiving =? 0) then handler_wake w
  else
    match w_packets w with
    | [] => ret []
    | p :: _ => reply <- quiescent_packet p ;; ret [reply]
    end.

End Dispatch.
