(* ===== verification/PacketSpec.v ===== *)
(** Lemmas for the theorems about packets: the permission bits, and the
    steps of the main loop around a packet. *)

From S2P Require Import Prelude Bitmap Superblock Cg CgStore Alloc AllocWp FileEnv Inode FileAlloc Dir Lookup FileSpec.
From S2P Require Import Handler HandlerSpec System InfoBlock Packets ObjectPackets VolumePackets Dispatch.
Local Open Scope bffs_scope.

(** ** Permission bits *)

(** The twelve permission bits of a mode. *)
Definition PERM : Z := 0xfff.

Lemma flag_and v c m a b : Z.land c m = m -> flag (Z.land v c) m a b = flag v m a b.
Proof. intros H. unfold flag. by rewrite <- Z.land_assoc, H. Qed.

Lemma group_mode_low inv mode : group_mode inv (Z.land mode PERM) = Z.land (group_mode inv mode) 0x7fff.
Proof.
  unfold group_mode, invert_group_other.
  assert (Z.shiftl (Z.land mode PERM) 3 = Z.land (Z.shiftl mode 3) 0x7fff) as E.
  { rewrite Z.shiftl_land. change (Z.shiftl PERM 3) with 0x7ff8.
    apply Z.bits_inj'. intros n Hn. rewrite !Z.land_spec, Z.shiftl_spec by done.
    destruct (Z.lt_ge_cases n 3) as [Hl|Hg]; [by rewrite Z.testbit_neg_r by lia|].
    f_equal. change 0x7fff with (Z.lor 0x7ff8 7). rewrite Z.lor_spec.
    change 7 with (Z.ones 3). by rewrite Z.ones_spec_high, orb_false_r by lia. }
  destruct (inv =? 0); [exact E|]. rewrite E. apply Z.bits_inj'. intros n Hn.
  rewrite !Z.lxor_spec, !Z.land_spec, !Z.lxor_spec.
  set (c := Z.testbit (Z.lor rwx (Z.shiftr rwx 3)) n). assert (c = Z.testbit 0x1f8 n) as -> by done.
  change 0x7fff with (Z.ones 15). destruct (Z.lt_ge_cases n 15) as [Hl|Hg].
  - rewrite Z.ones_spec_low by lia. by rewrite !andb_true_r.
  - rewrite Z.ones_spec_high, !andb_false_r by lia. cbn.
    apply Z.bits_above_log2; [done|]. change (Z.log2 0x1f8) with 8. lia.
Qed.

Lemma info_protection_low inv mode : info_protection inv (Z.land mode PERM) = info_protection inv mode.
Proof.
  unfold info_protection. rewrite group_mode_low. set (g := group_mode inv mode).
  assert (forall m a b, Z.land 0x7fff m = m -> flag (Z.land g 0x7fff) m a b = flag g m a b) as Hg
    by (intros; by apply flag_and).
  assert (forall m a b, Z.land 0x3fff8 m = m ->
    flag (Z.shiftl (Z.land g 0x7fff) 3) m a b = flag (Z.shiftl g 3) m a b) as Ho.
  { intros m a b Hm. rewrite Z.shiftl_land. change (Z.shiftl 0x7fff 3) with 0x3fff8. by apply flag_and. }
  rewrite !Hg, !Ho by done. rewrite !flag_and by done. done.
Qed.

Lemma fold_lor_start l : forall a, fold_left Z.lor l a = Z.lor a (fold_left Z.lor l 0).
Proof.
  induction l as [|x l IH]; intros a; cbn [fold_left]; [by rewrite Z.lor_0_r|].
  rewrite IH, (IH (Z.lor 0 x)), Z.lor_0_l. by rewrite Z.lor_assoc.
Qed.

(** The permission bits PSetProtect sets for [mask]. *)
Definition mask_perms (inv mask : Z) : Z := protect_mode inv mask 0.

Lemma protect_mode_split inv mask mode :
  protect_mode inv mask mode = Z.lor (Z.land mode (Z.lnot PERM)) (mask_perms inv mask).
Proof.
  unfold mask_perms, protect_mode. change (fold_left Z.lor [ISUID; ISGID; ISVTX; 0x1ff] 0) with PERM.
  rewrite Z.land_0_l. set (l := [_; _; _; _; _; _; _; _; _; _; _; _; _; _; _]).
  rewrite (fold_lor_start l (Z.land mode (Z.lnot PERM))). destruct (inv =? 0); [done|].
  set (x := fold_left Z.lor l 0). set (c := Z.lor (Z.shiftr rwx 3) (Z.shiftr rwx 6)).
  apply Z.bits_inj'. intros n Hn. rewrite Z.lxor_spec, !Z.lor_spec, Z.lxor_spec, Z.land_spec, Z.lnot_spec by done.
  assert (Z.testbit c n = true -> Z.testbit PERM n = true) as Hc.
  { change PERM with (Z.ones 12). change c with 0x3f. change 0x3f with (Z.ones 6). intros Ht.
    destruct (Z.lt_ge_cases n 6); [by rewrite Z.ones_spec_low by lia|by rewrite Z.ones_spec_high in Ht by lia]. }
  destruct (Z.testbit c n); [rewrite Hc by done|]; destruct (Z.testbit mode n), (Z.testbit x n), (Z.testbit PERM n); done.
Qed.

(** For a nonzero [og_perm_invert] the code does the same as for 1. *)
Lemma info_protection_flag inv mode : inv <> 0 -> info_protection inv mode = info_protection 1 mode.
Proof.
  intros H. unfold info_protection, group_mode, invert_group_other.
  by rewrite (proj2 (Z.eqb_neq inv 0) H).
Qed.
Lemma mask_perms_flag inv mask : inv <> 0 -> mask_perms inv mask = mask_perms 1 mask.
Proof.
  intros H. unfold mask_perms, protect_mode. cbv zeta. rewrite (proj2 (Z.eqb_neq inv 0) H).
  change (1 =? 0) with false. cbv iota. reflexivity.
Qed.

(** Properties of the numbers below a bound, by evaluation. *)
Definition all_below (n : nat) (p : Z -> bool) : bool := forallb p (map Z.of_nat (seq 0 n)).

Lemma all_below_spec n p m : all_below n p = true -> 0 <= m < Z.of_nat n -> p m = true.
Proof.
  unfold all_below. intros H Hm. apply (proj1 (forallb_forall p _) H).
  apply in_map_iff. exists (Z.to_nat m). split; [lia|]. apply in_seq. lia.
Qed.

Definition perms_back (inv m : Z) : bool := mask_perms inv (info_protection inv m) =? m.

Lemma perms_check inv m : inv = 0 \/ inv = 1 -> 0 <= m < 4096 -> mask_perms inv (info_protection inv m) = m.
Proof.
  intros Hi Hm. apply Z.eqb_eq. change (perms_back inv m = true).
  apply (all_below_spec 4096); [|lia]. by destruct Hi as [->| ->]; vm_compute.
Qed.

(** What a mask comes back as: a group of write and delete bits protects only
    when both do, and there is no archive bit. *)
Definition both_or_none (mask m : Z) : Z := if Z.land mask m =? m then Z.land mask m else 0.
Definition normal_mask (mask : Z) : Z :=
  fold_left Z.lor
    [Z.land mask 0xaaea; both_or_none mask 5; both_or_none mask 0x500;
     both_or_none mask 0x5000] 0.

Lemma all_below_eq (f g : Z -> Z) m :
  all_below 256 (fun hi => all_below 256 (fun lo => f (hi * 256 + lo) =? g (hi * 256 + lo))) = true ->
  0 <= m < 65536 -> f m = g m.
Proof.
  intros H Hm.
  assert (0 <= m / 256 < 256 /\ 0 <= m mod 256 < 256 /\ m / 256 * 256 + m mod 256 = m) as (H1 & H2 & H3) by dlia.
  pose proof (all_below_spec 256 _ _ (all_below_spec 256 _ _ H H1) H2) as Hb. cbv beta in Hb.
  rewrite H3 in Hb. by apply Z.eqb_eq.
Qed.

Lemma mask_check inv mask : inv = 0 \/ inv = 1 -> 0 <= mask < 65536 ->
  info_protection inv (mask_perms inv mask) = normal_mask mask.
Proof.
  intros Hi. apply (all_below_eq (fun m => info_protection inv (mask_perms inv m)) normal_mask).
  by destruct Hi as [->| ->]; vm_compute.
Qed.

(** ** Around a packet *)

Section Around.
Context {S : Type} {FE : FileEnv S} {HE : HandlerEnv S} {CL : CgStoreLaws S}.
Context {HV : handler -> FileView S} {HL : HandlerLaws S HV}.

(** Nothing to write and the motor off. *)
Definition idle (s : S) : Prop := motor_is_on s = 0 /\ cache_item_dirty s = 0.
Definition irep (h : handler) (s : S) (w : world) : Prop := hrep h s w /\ idle s.

Lemma wp_upd_hv_idle (f : handler -> handler) (Q : unit -> S -> Prop) h s w :
  irep h s w -> (forall s', irep (f h) s' w -> Q tt s') -> wp (upd_hv f) Q s.
Proof.
  intros [Hr [I1 I2]] HQ. pose proof (wp_upd_hv f (fun _ s' => hrep (f h) s' w) h s w Hr (fun _ H => H)) as Hw.
  unfold upd_hv in *. apply wp_modify. apply HQ. split; [exact Hw|].
  split; [by rewrite hl_motor|by rewrite hl_dirty].
Qed.

Lemma wp_upd_glob_idle (f : globals -> globals) (Q : unit -> S -> Prop) h s w :
  irep h s w -> (forall s', irep h s' (w_set_globals (f (w_globals w)) w) -> Q tt s') -> wp (upd_glob f) Q s.
Proof.
  intros [Hr [I1 I2]] HQ.
  assert (wp (upd_glob f) (fun _ s' => hrep h s' (w_set_globals (f (w_globals w)) w)) s) as Hw
    by (eapply (wp_upd_glob (FV := HV h)); [exact Hr|done]).
  unfold upd_glob in *. apply wp_modify. apply HQ. split; [exact Hw|].
  split; [by rewrite hl_motor_globals|by rewrite hl_dirty_globals].
Qed.

Lemma wp_res1_idle v (Q : unit -> S -> Prop) h s w :
  irep h s w -> (forall s', irep (set_Res1 v h) s' w -> Q tt s') -> wp (res1 v) Q s.
Proof. intros Hr HQ. by eapply wp_upd_hv_idle. Qed.

Lemma wp_res2_idle v (Q : unit -> S -> Prop) h s w :
  irep h s w -> (forall s', irep h s' (w_set_globals (set_Res2 (u32 v) (w_globals w)) w) -> Q tt s') ->
  wp (res2 v) Q s.
Proof. intros Hr HQ. by eapply wp_upd_glob_idle. Qed.

Lemma wp_fail_idle v (Q : unit -> S -> Prop) h s w :
  irep h s w ->
  (forall s', irep (set_Res1 DOSFALSE h) s' (w_set_globals (set_Res2 (u32 v) (w_globals w)) w) -> Q tt s') ->
  wp (fail v) Q s.
Proof.
  intros Hr HQ. unfold fail. apply wp_bnd. eapply wp_res1_idle; [done|]. intros s1 Hr1.
  eapply wp_res2_idle; [done|]. exact HQ.
Qed.

Lemma wp_hv_idle {A} (f : handler -> A) (Q : A -> S -> Prop) h s w :
  irep h s w -> Q (f h) s -> wp (hv f) Q s.
Proof. intros [Hr _]. by eapply wp_hv. Qed.

Lemma wp_endpack_idle (Q : unit -> S -> Prop) h s w : irep h s w -> Q tt s -> wp endpack Q s.
Proof.
  intros [_ [I1 I2]] HQ. unfold endpack. apply wp_bnd, wp_gets, wp_bnd, wp_gets. rewrite I1, I2. by apply wp_ret.
Qed.

(** The end of a packet that has failed. *)
Lemma wp_packet_end (m : M S unit) (Q : Z * Z -> S -> Prop) h s w v :
  irep h s w ->
  (forall R : unit -> S -> Prop, (forall s', irep (set_Res1 DOSFALSE h) s'
     (w_set_globals (set_Res2 (u32 v) (w_globals w)) w) -> R tt s') -> wp m R s) ->
  (forall s', irep (set_Res1 DOSFALSE h) s' (w_set_globals (set_Res2 (u32 v) (w_globals w)) w) ->
     Q (DOSFALSE, u32 v) s') ->
  wp (m ;; endpack ;; r1 <- hv Res1 ;; r2 <- glob Res2 ;; ret (r1, r2)) Q s.
Proof.
  intros Hr Hm HQ. apply wp_bnd, Hm. intros s1 Hr1. apply wp_bnd. eapply wp_endpack_idle; [exact Hr1|].
  apply wp_bnd. eapply wp_hv_idle; [exact Hr1|]. apply wp_bnd.
  eapply (wp_glob (FV := HV (set_Res1 DOSFALSE h))); [apply Hr1|]. apply wp_ret. by apply HQ.
Qed.

End Around.
