(* ===== verification/PacketTheorems.v ===== *)
(** Theorems about packets: permissions, seeking, locks and refusals. *)

From S2P Require Import Prelude Bitmap Superblock Cg CgStore Alloc AllocWp FileEnv Inode FileAlloc Dir Lookup FileSpec BlockMap BlockTree BlockWrite Sample IndexPath.
From S2P Require Import DirFormat DirSearch FileSample Handler HandlerSpec HandlerSample System InfoBlock Packets ObjectPackets VolumePackets Dispatch LockTheorems PacketSpec.
Local Open Scope bffs_scope.

(** C26: Setting the protection bits an object reports leaves its permission
    bits as they are and touches nothing else of the mode; and after setting
    a mask an object reports that mask, less the archive bit, with deletion
    and writing protected only where both were asked for.  Whether group and
    other bits are inverted makes no difference. *)
Theorem protect_roundtrip inv old :
  (forall mode, protect_mode inv (info_protection inv mode) old =
     Z.lor (Z.land old (Z.lnot PERM)) (Z.land mode PERM)) /\
  (forall mask, 0 <= mask < 65536 -> info_protection inv (protect_mode inv mask old) = normal_mask mask).
Proof.
  assert (exists i, (i = 0 \/ i = 1) /\ (forall m, info_protection inv m = info_protection i m) /\
    (forall m, mask_perms inv m = mask_perms i m)) as (i & Hi & E1 & E2).
  { destruct (Z.eq_dec inv 0) as [->|Hn]; [by exists 0; auto|]. exists 1. split; [by right|].
    split; intros m; [by apply info_protection_flag|by apply mask_perms_flag]. }
  split.
  - intros mode. rewrite protect_mode_split, E1, E2, <- info_protection_low. f_equal.
    apply perms_check; [done|]. unfold PERM. change 0xfff with (Z.ones 12). rewrite Z.land_ones by done. by apply Z.mod_pos_bound.
  - intros mask Hm. rewrite E1, <- info_protection_low, protect_mode_split, E2.
    rewrite <- (mask_check i mask Hi Hm), <- (info_protection_low i (mask_perms i mask)). f_equal.
    apply Z.bits_inj'. intros n Hn. rewrite !Z.land_spec, Z.lor_spec, Z.land_spec, Z.lnot_spec by done.
    by destruct (Z.testbit old n), (Z.testbit PERM n), (Z.testbit (mask_perms i mask) n).
Qed.

Lemma protect_roundtrip_witness :
  info_protection 1 (protect_mode 1 0x75 0x81ff) = normal_mask 0x75 /\ normal_mask 0x75 = 0x65.
Proof. split; [apply (protect_roundtrip 1 0x81ff); lia|by vm_compute]. Defined.

Section Packets.
Context {S : Type} {FE : FileEnv S} {HE : HandlerEnv S} {CL : CgStoreLaws S}.
Context {HV : handler -> FileView S} {HL : HandlerLaws S HV}.

(** ** Refusals *)


(** ** Locks *)

(** C21: CreateLock is the operation on the list of locks it is meant to be:
    it refuses a lock exactly when the first lock of the file forbids it, and
    otherwise, if memory lasts, puts a new lock with the given contents at
    the front of the list and changes no other memory. *)
Theorem create_lock_correct h (s : S) w l key mode pinum poffset :
  hrep h s w -> locks_of (w_user w) (VolNode h) l -> (length l <= room)%nat ->
  let refused := lock_refused mode (first_lock key l).2 in
  wp (CreateLock key mode pinum poffset) (fun p s' =>
    (p = 0 /\ hrep h s' (w_set_globals (set_Res2
       (if refused then ERROR_OBJECT_IN_USE else ERROR_NO_FREE_STORE) (w_globals w)) w)) \/
    (refused = false /\ p <> 0 /\ exists U', hrep h s' (w_set_user U' w) /\
       locks_of U' (VolNode h) ((p, new_lock h key mode pinum poffset) :: l) /\
       forall a, is_Some (w_user w a) -> apart a 1 (dl_LockList (VolNode h)) 4 -> U' a = w_user w a)) s.
Proof.
  intros Hr Hl Hn refused. eapply wp_CreateLock; [exact Hr|exact Hl|exact Hn| |].
  - intros s' e Hr' ->. left. by split.
  - intros p s' U' Hf Hp Hr' Hl' Hk. right. split; [done|]. split; [done|]. exists U'. by split.
Qed.

(** C22: No sequence of requests for visible locks ever gives two locks on a
    file of which one is exclusive: CreateLock keeps this of the list of
    locks, and all locks that were there. *)
Theorem create_lock_exclusive h (s : S) w l key mode pinum poffset :
  hrep h s w -> locks_of (w_user w) (VolNode h) l -> (length l <= room)%nat ->
  exclusion l -> in_u32 key -> in_s32 mode -> mode <> ACCESS_INVISIBLE ->
  wp (CreateLock key mode pinum poffset) (fun p s' => exists w' l',
    hrep h s' w' /\ locks_of (w_user w') (VolNode h) l' /\ exclusion l' /\
    (if p =? 0 then l' = l
     else exists L, l' = (p, L) :: l /\ lk_key L = key /\ s32 (lk_access L) = mode)) s.
Proof.
  intros Hr Hl Hn He Hk Hm Hv. eapply wp_CreateLock; [exact Hr|exact Hl|exact Hn| |].
  - intros s' e Hr' ->. by eexists _, l.
  - intros p s' U' Hf Hp Hr' Hl' _. eexists _, _. split; [exact Hr'|]. split; [exact Hl'|].
    rewrite (proj2 (Z.eqb_neq p 0) Hp). split.
    + eapply exclusion_cons; [done|by apply u32_small|by apply s32_u32|done|done].
    + eexists. split; [done|]. split; [by apply u32_small|by apply s32_u32].
Qed.

(** C23: FreeLock takes the lock it is given off the list, wherever it is,
    gives back its memory and leaves all other locks in their order; a lock
    that is not on the list is reported and nothing is freed. *)
Theorem free_lock_correct h (s : S) w l q :
  hrep h s w -> locks_of (w_user w) (VolNode h) l -> (length l <= room)%nat -> q <> 0 -> exclusion l ->
  wp (FreeLock q) (fun _ s' => exists w',
    if bool_decide (q ∈ l.*1) then
      hrep h s' w' /\ locks_of (w_user w') (VolNode h) (without q l) /\ exclusion (without q l) /\
      forall a, q <= a < q + sizeof_lock -> w_user w' a = None
    else hrep (set_Res1 DOSFALSE h) s' w' /\ locks_of (w_user w') (VolNode h) l) s.
Proof.
  intros Hr Hl Hn Hq He. eapply wp_FreeLock; [exact Hr|exact Hl|exact Hn|exact Hq| |].
  - intros (x & Hx & <-) s' U' Hr' Hl' HU. exists (w_set_user U' w).
    rewrite bool_decide_eq_true_2 by (by apply list_elem_of_fmap_2). split; [done|]. split; [done|].
    split; [by apply exclusion_without|done].
  - intros Hni s' U' Hr' Hl'. exists (w_set_user U' w). rewrite bool_decide_eq_false_2; [done|].
    intros (x & -> & Hx)%list_elem_of_fmap. by destruct (Hni x Hx).
Qed.

(** ** Seeking *)

(** The length of a file, as a ULONG. *)
Definition file_end (f : fs) (V : Z -> Z -> Z) (inum : Z) : Z := v32 V (ino_frag f inum) (ino_off f inum + 12).

(** Where a seek is meant to go. *)
Definition seek_to (mode movement pos size : Z) : Z :=
  if mode =? OFFSET_END then movement + size
  else if mode =? OFFSET_CURRENT then movement + pos
  else movement.


End Packets.

(** ** Witnesses

    The system of [HandlerSample] with a volume node at 1000, a shared lock
    of file 5 at 1100 and a file handle of file 4 at 1200. *)

Definition packet_words : list (Z * Z) :=
  [(1028, 275); (1104, 5); (1108, 0xfffffffe); (1204, 100); (1220, 4)].
Definition packet_handler (p : packet) : handler := set_pack p (set_VolNode 1000 sample_handler).
Definition shared_lock : lock := Lock 5 0xfffffffe 0 0 0 0 0.

(** File 4 of 300 bytes. *)
Definition sized_files : Z -> Z -> Z := vput32 sample_files 24 524 300.

Abbreviation no_packet := (Packet 0 0 0 0 0).

Lemma sized_files_bytes : disk_bytes sized_files.
Proof.
  split.
  - intros b i. unfold sized_files, vput32, vput16, vput. repeat case_match; try apply u8_range; apply sample_files_range.
  - intros b i E. unfold sized_files, vput32, vput16.
    rewrite !vput_ne; [by apply sample_files_out|..];
      (destruct (Z.eq_dec b 24) as [->|]; [right; intros ->; by vm_compute in E|by left]).
Qed.

Lemma packet_hrep p : hrep (HV := machine_hview) (packet_handler p)
  (hmachine_of sized_files packet_words (packet_handler p)) (hworld_of sized_files packet_words).
Proof. apply hrep_of, sized_files_bytes. Qed.

Lemma packet_irep p : irep (HV := machine_hview) (packet_handler p)
  (hmachine_of sized_files packet_words (packet_handler p)) (hworld_of sized_files packet_words).
Proof. split; [apply packet_hrep|done]. Qed.

Lemma packet_locks p :
  locks_of (w_user (hworld_of sized_files packet_words)) (VolNode (packet_handler p)) [(1100, shared_lock)].
Proof.
  constructor.
  - exists 275. split; [by vm_compute|]. cbn [lock_chain fst snd]. split; [by vm_compute|]. split; [done|].
    split; [by repeat split; vm_compute|]. exists 0. by split; vm_compute.
  - split; [|done]. by apply hworld_known.
  - constructor; [|constructor]. right. by vm_compute.
  - repeat constructor.
Qed.

Lemma packet_exclusion : exclusion [(1100, shared_lock)].
Proof. split; [repeat constructor|]. constructor; [by vm_compute|constructor]. Qed.


Lemma create_lock_correct_witness :
  wp (CreateLock 5 EXCLUSIVE_LOCK 2 24) (fun p s' => p = 0 /\
    hrep (HV := machine_hview) (packet_handler no_packet) s'
      (w_set_globals (set_Res2 ERROR_OBJECT_IN_USE sample_globals) (hworld_of sized_files packet_words)))
    (hmachine_of sized_files packet_words (packet_handler no_packet)).
Proof.
  eapply wp_mono; [apply (create_lock_correct (packet_handler no_packet) _ _ [(1100, shared_lock)] 5 EXCLUSIVE_LOCK 2 24
    (packet_hrep no_packet) (packet_locks no_packet)); cbn; lia|].
  intros p s' [H|[H _]]; [exact H|]. exfalso. revert H. by vm_compute.
Defined.

Lemma create_lock_exclusive_witness :
  wp (CreateLock 5 SHARED_LOCK 2 24) (fun p s' => exists w' l',
    hrep (HV := machine_hview) (packet_handler no_packet) s' w' /\ locks_of (w_user w') 1000 l' /\ exclusion l' /\
    (if p =? 0 then l' = [(1100, shared_lock)]
     else exists L, l' = [(p, L); (1100, shared_lock)] /\ lk_key L = 5 /\ s32 (lk_access L) = SHARED_LOCK))
    (hmachine_of sized_files packet_words (packet_handler no_packet)).
Proof.
  apply (create_lock_exclusive (packet_handler no_packet) _ _ [(1100, shared_lock)] 5 SHARED_LOCK 2 24
    (packet_hrep no_packet) (packet_locks no_packet)); [cbn; lia|apply packet_exclusion|by vm_compute..].
Defined.

Lemma free_lock_correct_witness :
  wp (FreeLock 1100) (fun _ s' => exists w',
    hrep (HV := machine_hview) (packet_handler no_packet) s' w' /\ locks_of (w_user w') 1000 [] /\ exclusion [] /\
    forall a, 1100 <= a < 1132 -> w_user w' a = None)
    (hmachine_of sized_files packet_words (packet_handler no_packet)).
Proof.
  apply (free_lock_correct (packet_handler no_packet) _ _ [(1100, shared_lock)] 1100
    (packet_hrep no_packet) (packet_locks no_packet)); [cbn; lia|done|apply packet_exclusion].
Defined.

