(* ===== verification/Newfs.v ===== *)
(** [newfs/mkfs.c], first part: the choice of the geometry.  [mkfs_super]
    follows the function mkfs from its first check to the call of initcg and
    yields the superblock or the code error_exit is called with.

    The program is built with [cdh] defined and UFS_V1 not, for a machine of
    32 bit [int] and [long]; the [sizeof] and [offsetof] of the two structures
    are those of longs aligned to four bytes. *)

From S2P Require Import Prelude Bitmap Superblock.
Local Open Scope bffs_scope.

(** ** Integers

    [int] and [long] of 32 bits with C's division, and the macros of
    sys/param.h. *)

Declare Scope int32_scope.
Delimit Scope int32_scope with int.
Notation "x + y" := (s32 (x%int + y%int)) : int32_scope.
Notation "x - y" := (s32 (x%int - y%int)) : int32_scope.
Notation "x * y" := (s32 (x%int * y%int)) : int32_scope.
Notation "x / y" := (s32 (Z.quot x%int y%int)) : int32_scope.
Notation "x 'mod' y" := (Z.rem x%int y%int) : int32_scope.
Notation "x << y" := (s32 (Z.shiftl x%int y%int)) (at level 35, right associativity) : int32_scope.
Notation "x >> y" := (Z.shiftr x%int y%int) (at level 35, right associativity) : int32_scope.
Notation "x <? y" := (Z.ltb x%int y%int) : int32_scope.
Notation "x <=? y" := (Z.leb x%int y%int) : int32_scope.
Notation "x =? y" := (Z.eqb x%int y%int) : int32_scope.

Definition NBBY : Z := 8.
Definition howmany (x y : Z) : Z := ((x + (y - 1)) / y)%int.
Definition roundup (x y : Z) : Z := (((x + (y - 1)) / y) * y)%int.
Definition POWEROF2 (num : Z) : bool := Z.land num (num - 1)%int =? 0.

(** ** Constants *)

Definition MINBSIZE : Z := 4096.
Definition MAXBSIZE : Z := 16384.
Definition MAXFRAG : Z := 8.
Definition FS_MAXCONTIG : Z := 16.
Definition SBSIZE : Z := 8192.
Definition FS_42INODEFMT : Z := -1.
Definition FS_44INODEFMT : Z := 2.
Definition FS_DYNAMICPOSTBLFMT : Z := 1.
Definition FS_MAGIC : Z := 0x011954.
Definition CG_MAGIC : Z := 0x090255.
Definition sizeof_dinode : Z := 128.
Definition sizeof_csum : Z := 16.
Definition sizeof_fs : Z := 1380.
Definition sizeof_cg : Z := 172.
Definition offsetof_fs_opostbl : Z := 860.
Definition offsetof_fs_space : Z := 1376.
Definition offsetof_cg_space : Z := 168.

(** ** The variables newfs.c sets *)

Record frontend := Frontend {
  Oflag : Z;
  fssize : Z;            (* sectors in the file system *)
  ntracks : Z;
  nsectors : Z;
  nphyssectors : Z;
  secpercyl : Z;
  sectorsize : Z;
  rpm : Z;
  interleave : Z;
  trackskew : Z;
  headswitch : Z;
  trackseek : Z;
  fsize : Z;
  bsize : Z;
  cpg : Z;
  cpgflg : Z;
  minfree : Z;
  opt : Z;
  density : Z;
  maxcontig : Z;
  rotdelay : Z;
  maxbpg : Z;
  nrpos : Z;
  bbsize : Z;
  sbsize : Z }.

(** ** The superblock newfs writes

    [sb_geo] is what the handler reads of it. *)

Record sblock := Sblock {
  sb_geo :> geometry;
  fs_size : Z;
  fs_dsize : Z;
  fs_ncyl : Z;
  fs_cpg : Z;
  fs_cpc : Z;
  fs_ntrak : Z;
  fs_bmask : Z;
  fs_fmask : Z;
  fs_qbmask : Z;
  fs_qfmask : Z;
  fs_maxfilesize : Z * Z;        (* val[0], val[1] *)
  fs_fsbtodb : Z;
  fs_csaddr : Z;
  fs_cssize : Z;
  fs_csmask : Z;
  fs_csshift : Z;
  fs_cgsize : Z;
  fs_sbsize : Z;
  fs_inodefmt : Z;
  fs_maxsymlinklen : Z;
  fs_postblformat : Z;
  fs_postbloff : Z;
  fs_rotbloff : Z;
  fs_postbl : list Z;            (* shorts, fs_nrpos for each of fs_cpc cylinders *)
  fs_rotbl : list Z;             (* u_chars *)
  fs_config : list Z }.          (* rotdelay, minfree, maxcontig, headswitch, trkseek, maxbpg, rps, optim *)

(** ** Results: [None] for a loop that does not end in its fuel, [inl] for
    error_exit *)

Definition result (A : Type) : Type := option (Z + A).
Definition ok {A} (a : A) : result A := Some (inr a).
Definition error_exit {A} (code : Z) : result A := Some (inl code).
Definition rbind {A B} (m : result A) (k : A -> result B) : result B :=
  match m with
  | None => None
  | Some (inl e) => Some (inl e)
  | Some (inr a) => k a
  end.
Notation "x <-- m ;; k" := (rbind m (fun x => k))
  (at level 100, m at next level, k at level 200, right associativity) : bffs_scope.
Notation "'check' b 'or' e ;; k" := (if (b : bool) then k else error_exit e)
  (at level 100, b at next level, e at next level, k at level 200, right associativity) : bffs_scope.

(** ** Macros of ucbinclude/ufs/fs.h *)

Section Macros.
Context (g : geometry).

Definition NSPB : Z := (fs_nspf g << fs_fragshift g)%int.
Definition n_cgbase (c : Z) : Z := (fs_fpg g * c)%int.
Definition n_cgstart (c : Z) : Z :=
  (n_cgbase c + (fs_cgoffset g * Z.land c (Z.lnot (fs_cgmask g))))%int.
Definition n_cgdmin (c : Z) : Z := (n_cgstart c + fs_dblkno g)%int.
Definition n_cgimin (c : Z) : Z := (n_cgstart c + fs_iblkno g)%int.
Definition n_cgsblock (c : Z) : Z := (n_cgstart c + fs_sblkno g)%int.
Definition n_cgtod (c : Z) : Z := (n_cgstart c + fs_cblkno g)%int.
Definition numfrags (loc : Z) : Z := (loc >> fs_fshift g)%int.

End Macros.

Definition fsbtodb (sb : sblock) (b : Z) : Z := (b << fs_fsbtodb sb)%int.
(** fragroundup, from the fields fs_fsize and fs_fmask. *)
Definition fragroundup (fsize fmask size : Z) : Z := Z.land (size + (fsize - 1))%int fmask.

(** ** Block and fragment sizes *)

(** [for (shift = 0, i = x; i > 1; i >>= 1) shift++] for an [int]. *)
Fixpoint count_shift (fuel : nat) (i : Z) : Z :=
  match fuel with
  | O => 0
  | S fuel => if 1 <? i then count_shift fuel (i >> 1)%int + 1 else 0
  end.
Definition shift_of (x : Z) : Z := count_shift 32 x.

(** The masks of cgmask: one bit shifted out for each halving of ntrak. *)
Fixpoint cgmask_loop (fuel : nat) (mask i : Z) : Z :=
  match fuel with
  | O => mask
  | S fuel => if 1 <? i then cgmask_loop fuel (mask << 1)%int (i >> 1)%int else mask
  end.
Definition cgmask_of (ntrak : Z) : Z :=
  let mask := cgmask_loop 32 (-1) ntrak in
  if POWEROF2 ntrak then mask else (mask << 1)%int.

(** [for (sizepb = 1; sizepb < x; sizepb <<= 1) bits++], unsigned. *)
Fixpoint bits_for (fuel : nat) (sizepb x : Z) : Z :=
  match fuel with
  | O => 0
  | S fuel => if sizepb <? x then bits_for fuel (u32 (Z.shiftl sizepb 1)) x + 1 else 0
  end.

(** fs_maxfilesize without 64 bit integers. *)
Definition maxfilesize (bsize nindir : Z) : Z * Z :=
  let size_bits := bits_for 32 1 (u32 bsize) in
  let nindir_bits := bits_for 32 1 (u32 nindir) in
  fold_left (fun v i =>
      let size_bits := size_bits + (i + 1) * nindir_bits in
      if size_bits <? 32 then (v.1, Z.lor v.2 (Z.shiftl 1 size_bits))
      else (Z.lor v.1 (Z.shiftl 1 (size_bits - 32)), v.2))
    (upto 0 3 1) (0, (bsize * 12 - 1)%int).

(** The checks on the drive and on the sizes. *)
Definition check_sizes (o : frontend) : result unit :=
  check 0 <? fssize o or 13 ;;
  check 0 <? ntracks o or 14 ;;
  check 0 <? nsectors o or 15 ;;
  check POWEROF2 (bsize o) or 16 ;;
  check POWEROF2 (fsize o) or 17 ;;
  check sectorsize o <=? fsize o or 18 ;;
  check MINBSIZE <=? bsize o or 19 ;;
  check fsize o <=? bsize o or 20 ;;
  check (bsize o >> shift_of (fsize o))%int <=? MAXFRAG or 21 ;;
  ok tt.

(** ** Cylinders per group *)

(** What the loops that look for a feasible layout change.  [t_i] is the
    local variable [i]. *)
Record tuning := Tuning {
  t_bsize : Z;
  t_fsize : Z;
  t_frag : Z;
  t_fragshift : Z;
  t_nspf : Z;
  t_cpc : Z;
  t_cpg : Z;
  t_ipg : Z;
  t_mincpc : Z;
  t_mincpg : Z;
  t_i : Z }.

Definition MAXIPG (bsize inopb : Z) : Z := roundup (bsize * NBBY / 3)%int inopb.

(** CGSIZE: an unsigned number, for it adds up [sizeof]s. *)
Definition CGSIZE (o : frontend) (contigsumsize cpg ipg nspf fragshift : Z) : Z :=
  u32 (sizeof_cg + 4 + cpg * 4 + (cpg * nrpos o)%int * 2 + howmany ipg NBBY +
       howmany (cpg * secpercyl o / nspf)%int NBBY +
       if contigsumsize <=? 0 then 0
       else contigsumsize * 4 + howmany (cpg * secpercyl o / (nspf << fragshift))%int NBBY).

Definition t_cgsize (o : frontend) (contigsumsize : Z) (t : tuning) : Z :=
  CGSIZE o contigsumsize (t_cpg t) (t_ipg t) (t_nspf t) (t_fragshift t).

(** [for (cpc = NSPB, i = spc; cpc > 1 && (i & 1) == 0; cpc >>= 1, i >>= 1)] *)
Fixpoint cpc_loop (fuel : nat) (cpc i : Z) : Z * Z :=
  match fuel with
  | O => (cpc, i)
  | S fuel =>
      if (1 <? cpc) && (Z.land i 1 =? 0) then cpc_loop fuel (cpc >> 1)%int (i >> 1)%int else (cpc, i)
  end.

(** The first loop: the maps of a group have to fit in a block.  It tries
    blocks of twice the size, and then fragments of twice the size. *)
Definition grow_block (mincpgcnt : Z) (t : tuning) : tuning :=
  let even := Z.land (t_i t) 1 =? 0 in
  let mincpc := if even then t_mincpc t else (t_mincpc t << 1)%int in
  let mincpg := if even then t_mincpg t else roundup mincpgcnt mincpc in
  Tuning (t_bsize t << 1)%int (t_fsize t) (t_frag t << 1)%int (t_fragshift t + 1)%int (t_nspf t)
    (if even then t_cpc t else (t_cpc t << 1)%int) (if even then t_cpg t else mincpg) (t_ipg t)
    mincpc mincpg (if even then (t_i t >> 1)%int else t_i t).

Definition grow_frag (t : tuning) : tuning :=
  Tuning (t_bsize t) (t_fsize t << 1)%int (t_frag t >> 1)%int (t_fragshift t - 1)%int (t_nspf t << 1)%int
    (t_cpc t) (t_cpg t) (t_ipg t) (t_mincpc t) (t_mincpg t) (t_i t).

Fixpoint map_loop (o : frontend) (contigsumsize mincpgcnt : Z) (fuel : nat) (mapcramped : bool) (t : tuning)
    : result (bool * tuning) :=
  match fuel with
  | O => None
  | S fuel =>
      if u32 (t_bsize t) <? t_cgsize o contigsumsize t then
        let t' := if t_bsize t <? MAXBSIZE then grow_block mincpgcnt t else t in
        if (t_bsize t <? MAXBSIZE) && (t_frag t' <=? MAXFRAG) then map_loop o contigsumsize mincpgcnt fuel true t'
        else if t_fsize t' =? t_bsize t' then error_exit 22
        else map_loop o contigsumsize mincpgcnt fuel true (grow_frag t')
      else ok (mapcramped, t)
  end.

(** Inodes of a group of [cpg] cylinders; [used] is in bytes. *)
Definition inodes_for (o : frontend) (bpcg used inopb cpg : Z) : Z :=
  roundup ((cpg * bpcg - used) / density o)%int inopb.

(** The second loop: the inode map must not be larger than a third of it.
    It tries blocks of half the size. *)
Definition halve_block (mincpgcnt : Z) (t : tuning) : tuning :=
  let mincpc := (t_mincpc t >> 1)%int in
  Tuning (t_bsize t >> 1)%int (t_fsize t) (t_frag t >> 1)%int (t_fragshift t - 1)%int (t_nspf t) (t_cpc t)
    (roundup mincpgcnt mincpc) (t_ipg t) mincpc (t_mincpg t) (t_i t).

Definition set_bsize (t : tuning) (bsize : Z) : tuning :=
  Tuning bsize (t_fsize t) (t_frag t) (t_fragshift t) (t_nspf t) (t_cpc t) (t_cpg t) (t_ipg t) (t_mincpc t)
    (t_mincpg t) (t_i t).
Definition set_mincpg (t : tuning) (mincpg ipg : Z) : tuning :=
  Tuning (t_bsize t) (t_fsize t) (t_frag t) (t_fragshift t) (t_nspf t) (t_cpc t) (t_cpg t) ipg (t_mincpc t)
    mincpg (t_i t).

Fixpoint inode_loop (o : frontend) (contigsumsize mincpgcnt bpcg used inopb : Z) (fuel : nat)
    (inodecramped : bool) (t : tuning) : result (bool * tuning) :=
  match fuel with
  | O => None
  | S fuel =>
      if MAXIPG (t_bsize t) inopb <? t_ipg t then
        if (t_mincpc t =? 1) || (t_frag t =? 1) || (t_bsize t =? MINBSIZE) then ok (true, t)
        else
          let t' := halve_block mincpgcnt t in
          if u32 (t_bsize t') <? t_cgsize o contigsumsize t' then ok (true, set_bsize t' (t_bsize t' << 1)%int)
          else
            inode_loop o contigsumsize mincpgcnt bpcg used inopb fuel true
              (set_mincpg t' (t_cpg t') (inodes_for o bpcg used inopb (t_cpg t')))
      else ok (inodecramped, t)
  end.

(** The loops that give up cylinders: [cpg] and [ipg] until [bad] is over. *)
Fixpoint shrink_loop (o : frontend) (bpcg used inopb mincpc : Z) (bad : Z -> Z -> bool) (fuel : nat)
    (cramped : bool) (cpg ipg : Z) : option (bool * Z * Z) :=
  match fuel with
  | O => None
  | S fuel =>
      if bad cpg ipg then
        let cpg := (cpg - mincpc)%int in
        shrink_loop o bpcg used inopb mincpc bad fuel true cpg (inodes_for o bpcg used inopb cpg)
      else Some (cramped, cpg, ipg)
  end.

(** From the number of cylinders asked for to the number a group gets, when
    [mincpc] and [mincpg] are feasible: lines 417 to 469 of mkfs.c. *)
Definition settle_groups (o : frontend) (contigsumsize nspf fragshift inopb bpcg used mincpc mincpg : Z)
    : result (Z * Z) :=
  let MAXIPG := MAXIPG (bsize o) inopb in
  let odd := negb ((cpg o mod mincpc)%int =? 0) in
  let wanted := if odd && (cpgflg o =? 0) then roundup (cpg o) mincpc else cpg o in
  let cpg := if odd then roundup (cpg o) mincpc else cpg o in
  let ipg := inodes_for o bpcg used inopb cpg in
  match shrink_loop o bpcg used inopb mincpc (fun _ ipg => MAXIPG <? ipg) (S (Z.to_nat cpg)) false cpg ipg with
  | None => None
  | Some (inodecramped, cpg, ipg) =>
      match shrink_loop o bpcg used inopb mincpc
              (fun cpg ipg => u32 (bsize o) <? CGSIZE o contigsumsize cpg ipg nspf fragshift)
              (S (Z.to_nat cpg)) false cpg ipg with
      | None => None
      | Some (mapcramped, cpg, ipg) =>
          check ((cpg * secpercyl o) mod (nspf << fragshift) =? 0)%int or 24 ;;
          check mincpg <=? cpg or 25 ;;
          if negb (cpg =? wanted) && negb (cpgflg o =? 0)
          then error_exit (if negb mapcramped && negb inodecramped then 26 else 27)
          else ok (cpg, ipg)
      end
  end.

(** Cylinders and inodes of a group, with the two flags: lines 324 to 469
    of mkfs.c.  The layout does not change on the way to a success. *)
Definition choose_groups (o : frontend) (contigsumsize frag fragshift nspf inopb iblkno cgoffset cgmask : Z)
    : result (Z * Z) :=
  let MAXIPG := MAXIPG (bsize o) inopb in
  let '(cpc, i) := cpc_loop 32 (nspf << fragshift)%int (secpercyl o) in
  let mincpc := cpc in
  let bpcg := (secpercyl o * sectorsize o)%int in
  let inospercg := roundup (u32 bpcg / sizeof_dinode) inopb in
  let inospercg := if MAXIPG <? inospercg then MAXIPG else inospercg in
  let inopf := (inopb >> fragshift)%int in
  let used := ((iblkno + inospercg / inopf) * nspf)%int in
  let mincpgcnt := howmany (cgoffset * Z.lnot cgmask + used)%int (secpercyl o) in
  let mincpg := roundup mincpgcnt mincpc in
  r <-- map_loop o contigsumsize mincpgcnt 64 false
          (Tuning (bsize o) (fsize o) frag fragshift nspf cpc mincpg inospercg mincpc mincpg i) ;;
  let '(mapcramped, t) := r in
  let used := (used * sectorsize o)%int in
  let t := set_mincpg t (t_mincpg t) (inodes_for o bpcg used inopb (t_mincpg t)) in
  r <-- inode_loop o contigsumsize mincpgcnt bpcg used inopb 64 false t ;;
  let '(inodecramped, t) := r in
  if inodecramped || mapcramped then error_exit 23
  else settle_groups o contigsumsize nspf fragshift inopb bpcg used (t_mincpc t) (t_mincpg t).

(** ** Rotational layout tables *)

(** [cylno], [rpos] of a block and the entry of the list head table. *)
Definition postbl_index (g : geometry) (i : Z) : Z := cbtocylno g i * fs_nrpos g + cbtorpos g i.

Fixpoint rotbl_loop (g : geometry) (l : list Z) (postbl rotbl : list Z) : list Z * list Z :=
  match l with
  | [] => (postbl, rotbl)
  | i :: l =>
      let p := postbl_index g i in
      let blk := (i >> fs_fragshift g)%int in
      let entry := if zget postbl p =? -1 then 0 else u8 (zget postbl p - blk) in
      rotbl_loop g l (zset postbl p (s16 blk)) (zset rotbl blk entry)
  end.

(** cpc, postbloff, rotbloff, the size of the superblock and the tables. *)
Definition rotational (o : frontend) (g : geometry) (cpc fmask : Z) : Z * Z * Z * Z * (list Z * list Z) :=
  let fragroundup := fragroundup (fs_fsize g) fmask in
  let nspb := (fs_nspf g << fs_fragshift g)%int in
  let sbsize := fragroundup sizeof_fs in
  if ntracks o =? 1 then (0, 0, 0, sbsize, ([], []))
  else
    let postblsize := s32 ((nrpos o * cpc)%int * 2) in
    let rotblsize := (cpc * secpercyl o / nspb)%int in
    let static := (nrpos o =? 8) && (cpc <=? 16) in
    let postbloff := if static then offsetof_fs_opostbl else offsetof_fs_space in
    let rotbloff := if static then offsetof_fs_space else (postbloff + postblsize)%int in
    let totalsbsize := if static then (sizeof_fs + rotblsize)%int else (sizeof_fs + rotblsize + postblsize)%int in
    if (SBSIZE <? totalsbsize) || ((1 << NBBY) * nspb <? nsectors o)%int
    then (0, postbloff, rotbloff, sbsize, ([], []))
    else
      (cpc, postbloff, rotbloff, fragroundup totalsbsize,
       rotbl_loop g (downto ((rotblsize - 1) * fs_frag g)%int 0 (fs_frag g))
         (repeat (-1) (Z.to_nat (cpc * nrpos o))) (repeat 0 (Z.to_nat rotblsize))).

(** ** mkfs, up to the groups *)

(** The fields that follow from the options alone. *)
Section Options.
Context (o : frontend).

Definition o_bmask : Z := Z.lnot (bsize o - 1)%int.
Definition o_fmask : Z := Z.lnot (fsize o - 1)%int.
Definition o_fshift : Z := shift_of (fsize o).
Definition o_frag : Z := (bsize o >> o_fshift)%int.
Definition o_fragshift : Z := shift_of o_frag.
Definition o_nindir : Z := (bsize o / 4)%int.
Definition o_inopb : Z := (bsize o / sizeof_dinode)%int.
Definition o_nspf : Z := (fsize o / sectorsize o)%int.
Definition o_fsbtodb : Z := shift_of o_nspf.
Definition o_sblkno : Z := roundup (howmany (bbsize o + sbsize o)%int (fsize o)) o_frag.
Definition o_cblkno : Z := (o_sblkno + roundup (howmany (sbsize o) (fsize o)) o_frag)%int.
Definition o_iblkno : Z := (o_cblkno + o_frag)%int.
Definition o_cgoffset : Z := roundup (howmany (nsectors o) o_nspf) o_frag.
Definition o_cgmask : Z := cgmask_of (ntracks o).
Definition o_contigsumsize : Z := if 1 <? maxcontig o then Z.min (maxcontig o) FS_MAXCONTIG else 0.
Definition o_cpc : Z := (cpc_loop 32 (o_nspf << o_fragshift)%int (secpercyl o)).1.

(** With the cylinders and inodes of a group. *)
Definition o_geometry (cpg ipg ncg : Z) : geometry :=
  Geometry o_sblkno o_cblkno o_iblkno (o_iblkno + ipg / (o_inopb >> o_fragshift))%int o_cgoffset o_cgmask ncg
    (bsize o) (fsize o) o_frag (shift_of (bsize o)) o_fshift o_fragshift o_nindir o_inopb o_nspf (nphyssectors o)
    (interleave o) (trackskew o) (nsectors o) (secpercyl o) ipg (cpg * secpercyl o / o_nspf)%int (nrpos o)
    o_contigsumsize.

(** With the groups, the cylinders and the size: the whole superblock. *)
Definition o_super (cpg ipg ncg ncyl size : Z) : sblock :=
  let g := o_geometry cpg ipg ncg in
  let '(cpc, postbloff, rotbloff, sbsz, tables) := rotational o g o_cpc o_fmask in
  let fragroundup := fragroundup (fsize o) o_fmask in
  let i := (bsize o / sizeof_csum)%int in
  Sblock g size 0 ncyl cpg cpc (ntracks o) o_bmask o_fmask (Z.lnot o_bmask) (Z.lnot o_fmask)
    (maxfilesize (bsize o) o_nindir) o_fsbtodb (n_cgdmin g 0) (fragroundup (ncg * sizeof_csum)%int)
    (Z.lnot (i - 1)%int) (shift_of i)
    (fragroundup (s32 (CGSIZE o o_contigsumsize cpg ipg o_nspf o_fragshift))) sbsz
    (if Oflag o =? 0 then FS_44INODEFMT else FS_42INODEFMT) (if Oflag o =? 0 then 60 else 0)
    FS_DYNAMICPOSTBLFMT postbloff rotbloff tables.1 tables.2
    [rotdelay o; minfree o; maxcontig o; headswitch o; trackseek o; maxbpg o; (rpm o / 60)%int; opt o].

(** Cylinders of the disk and groups of them, rounded up. *)
Definition cylinders (size : Z) : Z :=
  let ncyl := (size * o_nspf / secpercyl o)%int in
  if (ncyl * secpercyl o <? size * o_nspf)%int then (ncyl + 1)%int else ncyl.

Definition groups (ncyl cpg : Z) : Z :=
  let ncg := (ncyl / cpg)%int in
  if (ncyl mod cpg =? 0)%int then ncg else (ncg + 1)%int.

(** Room in the last group: it is given up when it cannot hold its inodes. *)
Definition last_group (cpg ipg ncg ncyl size : Z) : result sblock :=
  let sb := o_super cpg ipg ncg ncyl size in
  let j := (ncg - 1)%int in
  let i := (size - j * fs_fpg sb)%int in
  if (i <? fs_fpg sb) && (i <? n_cgdmin sb j - n_cgbase sb j)%int then
    check negb (j =? 0) or 30 ;;
    let ncyl := (ncyl - ncyl mod cpg)%int in
    ok (o_super cpg ipg (ncg - 1)%int ncyl (ncyl * secpercyl o / o_nspf)%int)
  else ok sb.

Definition mkfs_super : result sblock :=
  _ <-- check_sizes o ;;
  r <-- choose_groups o o_contigsumsize o_frag o_fragshift o_nspf o_inopb o_iblkno o_cgoffset o_cgmask ;;
  let '(cpg, ipg) := r in
  let size := (fssize o >> o_fsbtodb)%int in
  let ncyl := cylinders size in
  check 1 <=? ncyl or 28 ;;
  let ncg := groups ncyl cpg in
  let sb := o_super cpg ipg ncg ncyl size in
  let i := Z.min (Z.lnot o_cgmask) (ncg - 1)%int in
  check (n_cgdmin sb i - n_cgbase sb i <? fs_fpg sb)%int or 29 ;;
  last_group cpg ipg ncg ncyl size.

End Options.
