(* ===== verification/InitCg.v ===== *)
(** [newfs/mkfs.c], second part: the cylinder groups ([initcg]), the root
    directory ([fsinit], [makedir], [alloc], [iput]) and the whole of mkfs. *)

From S2P Require Import Prelude Bitmap Superblock Cg Newfs.
Local Open Scope bffs_scope.

(** ** Maps *)

Definition setbit (a : list Z) (i : Z) : list Z :=
  zset a (Z.quot i NBBY) (u8 (Z.lor (zget a (Z.quot i NBBY)) (Z.shiftl 1 (Z.rem i NBBY)))).
Definition clrbit (a : list Z) (i : Z) : list Z :=
  zset a (Z.quot i NBBY) (u8 (Z.land (zget a (Z.quot i NBBY)) (Z.lnot (Z.shiftl 1 (Z.rem i NBBY))))).

Definition isblock (frag : Z) (cp : list Z) (h : Z) : bool :=
  if frag =? 8 then zget cp h =? 0xff
  else if frag =? 4 then
    let mask := u8 (Z.shiftl 0x0f (Z.shiftl (Z.land h 0x1) 2)) in Z.land (zget cp (Z.shiftr h 1)) mask =? mask
  else if frag =? 2 then
    let mask := u8 (Z.shiftl 0x03 (Z.shiftl (Z.land h 0x3) 1)) in Z.land (zget cp (Z.shiftr h 2)) mask =? mask
  else if frag =? 1 then
    let mask := u8 (Z.shiftl 0x01 (Z.land h 0x7)) in Z.land (zget cp (Z.shiftr h 3)) mask =? mask
  else false.

Definition clrblock (frag : Z) (cp : list Z) (h : Z) : list Z :=
  if frag =? 8 then zset cp h 0
  else if frag =? 4 then
    zset cp (Z.shiftr h 1) (u8 (Z.land (zget cp (Z.shiftr h 1)) (Z.lnot (Z.shiftl 0x0f (Z.shiftl (Z.land h 0x1) 2)))))
  else if frag =? 2 then
    zset cp (Z.shiftr h 2) (u8 (Z.land (zget cp (Z.shiftr h 2)) (Z.lnot (Z.shiftl 0x03 (Z.shiftl (Z.land h 0x3) 1)))))
  else if frag =? 1 then
    zset cp (Z.shiftr h 3) (u8 (Z.land (zget cp (Z.shiftr h 3)) (Z.lnot (Z.shiftl 0x01 (Z.land h 0x7)))))
  else cp.

Definition setblock (frag : Z) (cp : list Z) (h : Z) : list Z :=
  if frag =? 8 then zset cp h 0xff
  else if frag =? 4 then
    zset cp (Z.shiftr h 1) (u8 (Z.lor (zget cp (Z.shiftr h 1)) (Z.shiftl 0x0f (Z.shiftl (Z.land h 0x1) 2))))
  else if frag =? 2 then
    zset cp (Z.shiftr h 2) (u8 (Z.lor (zget cp (Z.shiftr h 2)) (Z.shiftl 0x03 (Z.shiftl (Z.land h 0x3) 1))))
  else if frag =? 1 then
    zset cp (Z.shiftr h 3) (u8 (Z.lor (zget cp (Z.shiftr h 3)) (Z.shiftl 0x01 (Z.land h 0x7))))
  else cp.

(** ** The group block

    The fields and tables the handler reads are the record [cg]; the rest of
    the block, with the places of the tables, is [cghdr]. *)

Record cghdr := Cghdr {
  cg_magic : Z;
  cg_time : Z;
  cg_ncyl : Z;
  cg_btotoff : Z;
  cg_boff : Z;
  cg_iusedoff : Z;
  cg_freeoff : Z;
  cg_nextfreeoff : Z;
  cg_clustersumoff : Z;
  cg_clusteroff : Z }.

(** The variables of mkfs.c: superblock, totals, summaries, the group blocks
    on the disk, and the other fragments newfs writes. *)
Record newfs := NewFs {
  nf_sb : sblock;
  nf_dsize : Z;                  (* sblock.fs_dsize *)
  nf_cstotal : csum;             (* sblock.fs_cstotal *)
  nf_fscs : list csum;           (* fscs *)
  nf_cg : Z -> cg;
  nf_hdr : Z -> cghdr;
  nf_disk : Z -> Z -> Z }.       (* fragment, offset: byte *)

Section Group.
Context (sb : sblock).
#[local] Abbreviation FPB := (fs_frag sb).

Definition group_header (cylno utime : Z) : cghdr :=
  let frags := (fs_cpg sb * fs_spc sb / fs_nspf sb)%int in
  let blocks := (fs_cpg sb * fs_spc sb / NSPB sb)%int in
  let btotoff := offsetof_cg_space in
  let boff := (btotoff + fs_cpg sb * 4)%int in
  let iusedoff := (boff + fs_cpg sb * fs_nrpos sb * 2)%int in
  let freeoff := (iusedoff + howmany (fs_ipg sb) NBBY)%int in
  let ncyl := s16 (if cylno =? (fs_ncg sb - 1)%int then (fs_ncyl sb mod fs_cpg sb)%int else fs_cpg sb) in
  if fs_contigsumsize sb <=? 0 then
    Cghdr CG_MAGIC utime ncyl btotoff boff iusedoff freeoff (freeoff + howmany frags NBBY)%int 0 0
  else
    let clustersumoff := roundup (freeoff + howmany frags NBBY - 4)%int 4 in
    let clusteroff := (clustersumoff + (fs_contigsumsize sb + 1) * 4)%int in
    Cghdr CG_MAGIC utime ncyl btotoff boff iusedoff freeoff (clusteroff + howmany blocks NBBY)%int
      clustersumoff clusteroff.

(** The group after bzero and the header: every map and table is zero. *)
Definition empty_group (cylno ndblk : Z) : cg :=
  let zeros (n : Z) := repeat 0 (Z.to_nat n) in
  let clusters := negb (fs_contigsumsize sb <=? 0) in
  Cg cylno (s16 (fs_ipg sb)) ndblk csum0 0 (zeros MAXFRAG) (zeros (fs_cpg sb)) (zeros (fs_cpg sb * fs_nrpos sb))
    (zeros (howmany (fs_ipg sb) NBBY)) (zeros (howmany (fs_cpg sb * fs_spc sb / fs_nspf sb)%int NBBY))
    (if clusters then zeros (fs_contigsumsize sb + 1) else [])
    (if clusters then zeros (howmany (fs_cpg sb * fs_spc sb / NSPB sb)%int NBBY) else [])
    (if clusters then (ndblk / FPB)%int else 0).

(** One whole free block at [d]. *)
Definition add_block (c : cg) (d : Z) : cg :=
  let blkno := (d / FPB)%int in
  let pos := cbtocylno sb d * fs_nrpos sb + cbtorpos sb d in
  Cg (cg_cgx c) (cg_niblk c) (cg_ndblk c) (csum_add_nbfree (cg_cs c) 1) (cg_irotor c) (cg_frsum c)
    (zset (cg_blktot c) (cbtocylno sb d) (s32 (zget (cg_blktot c) (cbtocylno sb d) + 1)))
    (zset (cg_blks c) pos (s16 (zget (cg_blks c) pos + 1)))
    (cg_inosused c) (setblock FPB (cg_blksfree c) blkno) (cg_clustersum c)
    (if 0 <? fs_contigsumsize sb then setbit (cg_clustersfree c) blkno else cg_clustersfree c)
    (cg_nclusterblks c).

(** One free fragment at [d], and a run of [k] of them. *)
Definition add_frag (c : cg) (d : Z) : cg :=
  set_cs (set_blksfree c (setbit (cg_blksfree c) d)) (csum_add_nffree (cg_cs c) 1).
Definition add_run (c : cg) (k : Z) : cg :=
  set_frsum c (zset (cg_frsum c) k (s32 (zget (cg_frsum c) k + 1))).

(** Inodes 0 and 1 of group 0 are never used. *)
Definition reserve_inode (c : cg) (i : Z) : cg :=
  set_cs (set_inosused c (setbit (cg_inosused c) i)) (csum_add_nifree (cg_cs c) (-1)).

(** The scan that counts the clusters; [next] is where [mapp] points. *)
Definition count_run (sump : list Z) (run : Z) : list Z :=
  let run := if fs_contigsumsize sb <? run then fs_contigsumsize sb else run in
  zset sump run (s32 (zget sump run + 1)).

Fixpoint cluster_scan (l : list Z) (mapp : list Z) (next map bit run : Z) (sump : list Z) : list Z :=
  match l with
  | [] => if run =? 0 then sump else count_run sump run
  | i :: l =>
      let free := negb (Z.land map bit =? 0) in
      let sump' := if free || (run =? 0) then sump else count_run sump run in
      let run' := if free then run + 1 else 0 in
      if negb (Z.land i (NBBY - 1) =? NBBY - 1)
      then cluster_scan l mapp next map (Z.shiftl bit 1) run' sump'
      else cluster_scan l mapp (next + 1) (zget mapp next) 1 run' sump'
  end.

(** Where the free space of a group starts and ends: [dlower], [dupper] and
    the fragments of the group. *)
Definition group_space (cylno : Z) : Z * Z * Z :=
  let cbase := n_cgbase sb cylno in
  let dmax := (cbase + fs_fpg sb)%int in
  let dmax := if fs_size sb <? dmax then fs_size sb else dmax in
  let dlower := (n_cgsblock sb cylno - cbase)%int in
  let dupper := (n_cgdmin sb cylno - cbase)%int in
  let dupper := if cylno =? 0 then (dupper + howmany (fs_cssize sb) (fs_fsize sb))%int else dupper in
  (dlower, dupper, (dmax - cbase)%int).

(** The inodes, the blocks in front of the superblock copy, and the space
    after the inode blocks: the fragments up to a whole block, the blocks,
    and the fragments left at the end. *)
Definition inode_space (cylno : Z) (c : cg) : cg :=
  let c := set_cs c (csum_add_nifree (cg_cs c) (fs_ipg sb)) in
  if cylno =? 0 then fold_left reserve_inode (upto 0 2 1) c else c.

Definition lower_space (cylno dlower : Z) (c : cg) : cg :=
  if 0 <? cylno then fold_left add_block (upto 0 dlower FPB) c else c.

Definition upper_space (dupper ndblk : Z) (c : cg) : cg :=
  let i := (dupper mod FPB)%int in
  let first := if i =? 0 then dupper else (dupper + FPB - i)%int in
  let c := if i =? 0 then c else fold_left add_frag (upto dupper first 1) (add_run c (FPB - i)) in
  let l := upto first (ndblk - FPB + 1) FPB in
  let c := fold_left add_block l c in
  let d := first + FPB * zlen l in
  if d <? ndblk then fold_left add_frag (upto d ndblk 1) (add_run c (ndblk - d)) else c.

Definition cluster_space (c : cg) : cg :=
  if 0 <? fs_contigsumsize sb then
    set_clusters c (cluster_scan (upto 0 (cg_nclusterblks c) 1) (cg_clustersfree c) 1 (zget (cg_clustersfree c) 0) 1 0
                      (cg_clustersum c)) (cg_clustersfree c)
  else c.

(** The maps and tables of a group. *)
Definition build_group (cylno : Z) : cg :=
  let '(dlower, dupper, ndblk) := group_space cylno in
  cluster_space (upper_space dupper ndblk (lower_space cylno dlower (inode_space cylno (empty_group cylno ndblk)))).

End Group.

Definition csum_add (a b : csum) : csum :=
  Csum (s32 (cs_ndir a + cs_ndir b)) (s32 (cs_nbfree a + cs_nbfree b))
    (s32 (cs_nifree a + cs_nifree b)) (s32 (cs_nffree a + cs_nffree b)).

(** Zeroed inode blocks. *)
Definition zero_frags (V : Z -> Z -> Z) (b n : Z) : Z -> Z -> Z :=
  fun x i => if (b <=? x) && (x <? b + n) then 0 else V x i.

Definition initcg (N : newfs) (cylno utime : Z) : result newfs :=
  let sb := nf_sb N in
  let h := group_header sb cylno utime in
  check cg_nextfreeoff h <=? fs_cgsize sb or 37 ;;
  let c := build_group sb cylno in
  let '(dlower, dupper, ndblk) := group_space sb cylno in
  let inodes := upto 0 (fs_ipg sb / (fs_inopb sb >> fs_fragshift sb))%int (fs_frag sb) in
  ok (NewFs sb
    (nf_dsize N + (if 0 <? cylno then dlower else 0) + (ndblk - dupper))%int
    (csum_add (nf_cstotal N) (cg_cs c))
    (zset (nf_fscs N) cylno (cg_cs c))
    (fun k => if k =? cylno then c else nf_cg N k)
    (fun k => if k =? cylno then h else nf_hdr N k)
    (fold_left (fun V i => zero_frags V (n_cgimin sb cylno + i) (fs_frag sb)) inodes (nf_disk N))).

(** ** The root directory *)

(** An entry to be: inode, type, name. *)
Record proto := Proto { pr_ino : Z; pr_type : Z; pr_name : list Z }.

Definition be16 (x : Z) : list Z := [u8 (Z.shiftr x 8); u8 x].
Definition be32 (x : Z) : list Z := be16 (Z.shiftr x 16) ++ be16 x.

(** The first [n] bytes of the [struct direct]. *)
Definition direct_bytes (p : proto) (reclen n : Z) : list Z :=
  take (Z.to_nat n) (be32 (pr_ino p) ++ be16 reclen ++ [u8 (pr_type p); u8 (zlen (pr_name p))] ++ pr_name p ++
                     repeat 0 (256 - length (pr_name p))).

(** sizeof (struct direct) - (MAXNAMLEN + 1) is 8. *)
Definition DIRSIZ (p : proto) : Z := 8 + Z.land (zlen (pr_name p) + 1 + 3) (Z.lnot 3).

Fixpoint makedir (l : list proto) (spcleft : Z) : list Z :=
  match l with
  | [] => []
  | [p] => direct_bytes p spcleft (DIRSIZ p)
  | p :: l => direct_bytes p (DIRSIZ p) (DIRSIZ p) ++ makedir l (spcleft - DIRSIZ p)
  end.

Definition DIRBLKSIZ : Z := 512.
Definition DT_DIR : Z := 4.
Definition ROOTINO : Z := 2.
Definition IFDIR : Z := 0x4000.
Definition UMASK : Z := 0x1ed.              (* 0755 *)

(** In the 4.3BSD format the byte of the type is the high byte of d_namlen. *)
Definition root_dir (o : frontend) : list proto :=
  let type := if Oflag o =? 0 then DT_DIR else 0 in
  [Proto ROOTINO type [0x2e]; Proto ROOTINO type [0x2e; 0x2e]].

(** [n] bytes of [l], and zeros after them, from byte [off] of fragment [b]
    on; they may go on in the fragments after it. *)
Definition put_bytes (fsize : Z) (V : Z -> Z -> Z) (b off n : Z) (l : list Z) : Z -> Z -> Z :=
  fun x i =>
    let k := (x - b) * fsize + i - off in
    if (0 <=? i) && (i <? fsize) && (0 <=? k) && (k <? n) then zget l k else V x i.

Record dinode := Dinode {
  di_mode : Z;
  di_nlink : Z;
  di_size : Z;
  di_atime : Z;
  di_mtime : Z;
  di_ctime : Z;
  di_db0 : Z;
  di_blocks : Z }.

Definition dinode_bytes (n : dinode) : list Z :=
  be16 (di_mode n) ++ be16 (di_nlink n) ++ be32 0 ++ be32 0 ++ be32 (di_size n) ++
  be32 (di_atime n) ++ be32 0 ++ be32 (di_mtime n) ++ be32 0 ++ be32 (di_ctime n) ++ be32 0 ++
  be32 (di_db0 n) ++ repeat 0 60 ++ be32 (di_blocks n) ++ repeat 0 20.

Definition set_group0 (N : newfs) (c : cg) (h : csum -> csum) : newfs :=
  NewFs (nf_sb N) (nf_dsize N) (h (nf_cstotal N)) (zset (nf_fscs N) 0 (h (zget (nf_fscs N) 0)))
    (fun k => if k =? 0 then c else nf_cg N k) (nf_hdr N) (nf_disk N).
Definition set_disk (N : newfs) (V : Z -> Z -> Z) : newfs :=
  NewFs (nf_sb N) (nf_dsize N) (nf_cstotal N) (nf_fscs N) (nf_cg N) (nf_hdr N) V.

(** A block for a directory, of which [size] bytes are used: the address and
    the new state; 0 for the three ways to fail. *)
Definition alloc (N : newfs) (size mode : Z) : Z * newfs :=
  let sb := nf_sb N in
  let c := nf_cg N 0 in
  if negb (cg_magic (nf_hdr N 0) =? CG_MAGIC) then (0, N)
  else if cs_nbfree (cg_cs c) =? 0 then (0, N)
  else
    match find_first (fun d => isblock (fs_frag sb) (cg_blksfree c) (d / fs_frag sb)%int)
            (upto 0 (cg_ndblk c) (fs_frag sb)) with
    | None => (0, N)
    | Some d =>
        let blkno := fragstoblks sb d in
        let pos := cbtocylno sb d * fs_nrpos sb + cbtorpos sb d in
        let dir := if Z.land mode IFDIR =? 0 then 0 else 1 in
        let frag := howmany size (fs_fsize sb) in
        let parts := negb (size =? fs_bsize sb) in
        let left := if parts then (fs_frag sb - frag)%int else 0 in
        let sums (x : csum) := csum_add_nffree (csum_add_ndir (csum_add_nbfree x (-1)) dir) left in
        let map := clrblock (fs_frag sb) (cg_blksfree c) blkno in
        let c' :=
          Cg (cg_cgx c) (cg_niblk c) (cg_ndblk c) (sums (cg_cs c)) (cg_irotor c)
            (if parts then zset (cg_frsum c) left (s32 (zget (cg_frsum c) left + 1)) else cg_frsum c)
            (zset (cg_blktot c) (cbtocylno sb d) (s32 (zget (cg_blktot c) (cbtocylno sb d) - 1)))
            (zset (cg_blks c) pos (s16 (zget (cg_blks c) pos - 1)))
            (cg_inosused c)
            (if parts then fold_left (fun m i => setbit m (d + i)) (upto frag (fs_frag sb) 1) map else map)
            (cg_clustersum c)
            (if 0 <? fs_contigsumsize sb then clrbit (cg_clustersfree c) blkno else cg_clustersfree c)
            (cg_nclusterblks c) in
        (d, set_group0 N c' sums)
    end.

(** [ino_t] is unsigned, and makes the fields it meets unsigned. *)
Definition ino_to_fsba (sb : sblock) (x : Z) : Z :=
  let ipg := u32 (fs_ipg sb) in
  s32 (n_cgimin sb (x / ipg) + Z.shiftl (x mod ipg / u32 (fs_inopb sb)) (fs_fragshift sb)).

Definition iput (N : newfs) (ip : dinode) (ino : Z) : result newfs :=
  let sb := nf_sb N in
  check cg_magic (nf_hdr N 0) =? CG_MAGIC or 31 ;;
  let c := nf_cg N 0 in
  let sums (x : csum) := csum_add_nifree x (-1) in
  let N := set_group0 N (set_cs (set_inosused c (setbit (cg_inosused c) ino)) (sums (cg_cs c))) sums in
  check ino <? u32 (fs_ipg sb * fs_ncg sb) or 32 ;;
  ok (set_disk N (put_bytes (fs_fsize sb) (nf_disk N) (ino_to_fsba sb ino)
        (ino mod u32 (fs_inopb sb) * sizeof_dinode) sizeof_dinode (dinode_bytes ip))).

(** [(unsigned)(bytes) >> 9] *)
Definition btodb (bytes : Z) : Z := Z.shiftr (u32 bytes) 9.

Definition fsinit (o : frontend) (N : newfs) (utime : Z) : result newfs :=
  let sb := nf_sb N in
  let mode := Z.lor IFDIR UMASK in
  let buf := makedir (root_dir o) DIRBLKSIZ in
  let size := DIRBLKSIZ in
  let '(db0, N) := alloc N (fs_fsize sb) mode in
  let N := set_disk N (put_bytes (fs_fsize sb) (nf_disk N) db0 0 (fs_fsize sb) buf) in
  iput N (Dinode mode 2 size utime utime utime db0 (btodb (fragroundup (fs_fsize sb) (fs_fmask sb) size))) ROOTINO.

(** ** mkfs *)

Fixpoint initcgs (N : newfs) (l : list Z) (utime : Z) : result newfs :=
  match l with
  | [] => ok N
  | cylno :: l => N <-- initcg N cylno utime ;; initcgs N l utime
  end.

(** [V] is what is on the disk before. *)
Definition mkfs (o : frontend) (utime : Z) (V : Z -> Z -> Z) : result newfs :=
  sb <-- mkfs_super o ;;
  let N := NewFs sb 0 csum0 (repeat csum0 (Z.to_nat (fs_ncg sb)))
    (fun _ => empty_group sb 0 0) (fun _ => group_header sb 0 0) V in
  N <-- initcgs N (upto 0 (fs_ncg sb) 1) utime ;;
  fsinit o N utime.

(** Where the superblock goes, in sectors: its own place and the copies. *)
Definition SBOFF : Z := 8192.
Definition super_writes (o : frontend) (sb : sblock) : list Z :=
  (SBOFF / sectorsize o)%int :: ((fun cylno => fsbtodb sb (n_cgsblock sb cylno)) <$> upto 0 (fs_ncg sb) 1).

(** The writes of the summaries: sector, offset in fscs and bytes. *)
Definition summary_writes (sb : sblock) : list (Z * Z * Z) :=
  (fun i => (fsbtodb sb (fs_csaddr sb + numfrags sb i)%int, i,
             if (fs_cssize sb - i)%int <? fs_bsize sb then (fs_cssize sb - i)%int else fs_bsize sb))
    <$> upto 0 (fs_cssize sb) (fs_bsize sb).
