(* ===== verification/NewfsLayout.v ===== *)
(** The arithmetic of newfs (powers of two and their shifts, the rounding
    macros), and the loops of [choose_groups]: the layout they end with. *)

From S2P Require Import Prelude Bitmap Superblock Newfs.
Local Open Scope bffs_scope.

(** Removes the [s32] of numbers the context bounds. *)
Ltac no_wrap := rewrite ?s32_small by (unfold in_s32; zify_pow; lia).

(** ** Results *)

Lemma rbind_ok {A B} (m : result A) (k : A -> result B) x : rbind m k = ok x -> exists a, m = ok a /\ k a = ok x.
Proof. destruct m as [[e|a]|]; cbn; [done|by exists a|done]. Qed.

Lemma check_ok {A} (b : bool) e (k : result A) x : (check b or e ;; k) = ok x -> b = true /\ k = ok x.
Proof. by destruct b. Qed.

(** ** Powers of two *)

Lemma POWEROF2_spec x : 0 < x < 2 ^ 31 -> POWEROF2 x = true -> x = 2 ^ Z.log2 x.
Proof.
  intros Hx Hp. unfold POWEROF2 in Hp. apply Z.eqb_eq in Hp. rewrite s32_small in Hp by (unfold in_s32; zify_pow; lia).
  pose proof (Z.log2_spec x ltac:(lia)) as [H1 H2]. destruct (Z.eq_dec x (2 ^ Z.log2 x)) as [|Hne]; [done|exfalso].
  assert (Z.log2 (x - 1) = Z.log2 x) as El by (apply Z.log2_unique; [apply Z.log2_nonneg|lia]).
  assert (Z.testbit (Z.land x (x - 1)) (Z.log2 x) = true) as Ht.
  { rewrite Z.land_spec, Z.bit_log2, <- El, Z.bit_log2 by (pose proof (Z.log2_nonneg x); destruct (Z.eq_dec x 1) as [->|]; [done|lia]). done. }
  rewrite Hp, Z.testbit_0_l in Ht. done.
Qed.

Lemma count_shift_pow fuel : forall k, 0 <= k <= Z.of_nat fuel -> count_shift fuel (2 ^ k) = k.
Proof.
  induction fuel as [|fuel IH]; intros k Hk; cbn [count_shift]; [lia|].
  destruct (Z.eq_dec k 0) as [->|Hne]; [done|].
  assert (2 ^ k = 2 * 2 ^ (k - 1)) as E by (rewrite <- Z.pow_succ_r by lia; f_equal; lia).
  pose proof (Z.pow_pos_nonneg 2 (k - 1) ltac:(lia) ltac:(lia)).
  rewrite (proj2 (Z.ltb_lt 1 (2 ^ k))) by lia.
  rewrite Z.shiftr_div_pow2 by done. change (2 ^ 1) with 2. rewrite E, Z.mul_comm, Z.div_mul by done.
  rewrite IH by lia. lia.
Qed.

Lemma shift_of_pow k : 0 <= k <= 32 -> shift_of (2 ^ k) = k.
Proof. intros Hk. by apply count_shift_pow. Qed.

Lemma shiftr_pow a b : 0 <= b <= a -> Z.shiftr (2 ^ a) b = 2 ^ (a - b).
Proof. intros H. rewrite Z.shiftr_div_pow2 by lia. by rewrite Z.pow_sub_r by lia. Qed.

Lemma quot_pow a b : 0 <= b <= a -> Z.quot (2 ^ a) (2 ^ b) = 2 ^ (a - b).
Proof.
  intros H. rewrite Z.quot_div_nonneg by (pose proof (Z.pow_pos_nonneg 2 a); pose proof (Z.pow_pos_nonneg 2 b); lia).
  by rewrite Z.pow_sub_r by lia.
Qed.

(** The mask of cgmask covers the tracks: it is [-2^m]. *)
Lemma cgmask_loop_pow fuel : forall m n, 0 < n -> 0 <= m -> m + Z.log2 n < 31 -> Z.log2 n <= Z.of_nat fuel ->
  cgmask_loop fuel (- 2 ^ m) n = - 2 ^ (m + Z.log2 n).
Proof.
  induction fuel as [|fuel IH]; intros m n Hn Hm Hb Hf; cbn [cgmask_loop];
    pose proof (Z.log2_nonneg n).
  - replace (Z.log2 n) with 0 by lia. by rewrite Z.add_0_r.
  - destruct (Z.ltb_spec 1 n) as [H1|H1].
    + assert (0 < Z.log2 n) by (apply Z.log2_pos; lia).
      assert (Z.shiftl (- 2 ^ m) 1 = - 2 ^ (m + 1)) as ->.
      { rewrite Z.shiftl_mul_pow2, Z.pow_add_r by lia. lia. }
      assert (2 ^ (m + 1) <= 2 ^ 31) by (apply Z.pow_le_mono_r; lia).
      pose proof (Z.pow_pos_nonneg 2 (m + 1) ltac:(lia) ltac:(lia)).
      rewrite s32_small by (unfold in_s32; lia).
      assert (Z.log2 (Z.shiftr n 1) = Z.log2 n - 1) as El by (rewrite Z.log2_shiftr by lia; lia).
      rewrite IH, El by (rewrite ?El; try lia; rewrite Z.shiftr_div_pow2 by done; change (2 ^ 1) with 2; dlia).
      f_equal. f_equal. lia.
    + replace n with 1 by lia. cbn. by rewrite Z.add_0_r.
Qed.

Lemma cgmask_spec n : 0 < n < 2 ^ 13 -> exists m, 0 <= m <= 13 /\ cgmask_of n = - 2 ^ m.
Proof.
  intros Hn. unfold cgmask_of. pose proof (Z.log2_nonneg n) as H0.
  assert (Z.log2 n < 13) by (apply Z.log2_lt_pow2; lia).
  change (-1) with (- 2 ^ 0). rewrite cgmask_loop_pow by lia. rewrite Z.add_0_l.
  destruct (POWEROF2 n); [exists (Z.log2 n); split; [lia|done]|]. exists (Z.log2 n + 1). split; [lia|].
  rewrite Z.shiftl_mul_pow2 by done. rewrite Z.pow_add_r by lia. rewrite Z.mul_opp_l. apply s32_small.
  assert (2 ^ Z.log2 n <= 2 ^ 13) by (apply Z.pow_le_mono_r; lia).
  pose proof (Z.pow_pos_nonneg 2 (Z.log2 n) ltac:(lia) ltac:(lia)). unfold in_s32.
  change (2 ^ 13) with 8192 in *. change (2 ^ 1) with 2. zify_pow. lia.
Qed.

(** ** Rounding *)

Lemma howmany_eq x y : 0 <= x -> 0 < y -> x + y < 2 ^ 31 -> howmany x y = (x + (y - 1)) / y.
Proof.
  intros Hx Hy Hb. unfold howmany. rewrite (s32_small (y - 1)), (s32_small (x + (y - 1))) by (unfold in_s32; zify_pow; lia).
  rewrite Z.quot_div_nonneg by lia. apply s32_small. unfold in_s32.
  assert (0 <= (x + (y - 1)) / y <= x + (y - 1)) by (split; [apply Z.div_pos; lia|apply Z.div_le_upper_bound; nia]).
  zify_pow. lia.
Qed.

Lemma howmany_bounds x y : 0 <= x -> 0 < y -> x + y < 2 ^ 31 ->
  x <= howmany x y * y < x + y /\ 0 <= howmany x y <= x.
Proof.
  intros Hx Hy Hb. rewrite howmany_eq by done.
  pose proof (Z.div_mod (x + (y - 1)) y ltac:(lia)). pose proof (Z.mod_pos_bound (x + (y - 1)) y Hy).
  assert (0 <= (x + (y - 1)) / y) by (apply Z.div_pos; lia). nia.
Qed.

Lemma roundup_eq x y : 0 <= x -> 0 < y -> x + y < 2 ^ 31 -> roundup x y = howmany x y * y.
Proof.
  intros Hx Hy Hb. unfold roundup. fold (howmany x y). apply s32_small. pose proof (howmany_bounds x y Hx Hy Hb).
  unfold in_s32. zify_pow. nia.
Qed.

Lemma roundup_bounds x y : 0 <= x -> 0 < y -> x + y < 2 ^ 31 ->
  x <= roundup x y < x + y /\ (y | roundup x y).
Proof.
  intros Hx Hy Hb. rewrite roundup_eq by done. pose proof (howmany_bounds x y Hx Hy Hb).
  split; [lia|]. by exists (howmany x y).
Qed.

(** ** The loops *)

Lemma cpc_loop_bounds fuel : forall cpc i, 0 < cpc < 2 ^ 31 -> 0 < (cpc_loop fuel cpc i).1 <= cpc.
Proof.
  induction fuel as [|fuel IH]; intros cpc i Hc; cbn [cpc_loop]; [cbn; lia|].
  destruct (Z.ltb_spec 1 cpc) as [H1|H1]; [|cbn; lia]. cbn [andb]. destruct (_ =? 0); [|cbn; lia].
  assert (0 < Z.shiftr cpc 1 <= cpc) as Hs by (rewrite Z.shiftr_div_pow2 by done; change (2 ^ 1) with 2; dlia).
  specialize (IH (Z.shiftr cpc 1) (Z.shiftr i 1) ltac:(lia)). lia.
Qed.

(** A layout that was not cramped was not changed. *)
Lemma map_loop_eq o cs m fuel b t :
  map_loop o cs m (S fuel) b t =
    if u32 (t_bsize t) <? t_cgsize o cs t then
      let t' := if t_bsize t <? MAXBSIZE then grow_block m t else t in
      if (t_bsize t <? MAXBSIZE) && (t_frag t' <=? MAXFRAG) then map_loop o cs m fuel true t'
      else if t_fsize t' =? t_bsize t' then error_exit 22
      else map_loop o cs m fuel true (grow_frag t')
    else ok (b, t).
Proof. reflexivity. Qed.

Lemma map_loop_flag o cs m fuel : forall b t b' t',
  map_loop o cs m fuel b t = ok (b', t') -> (b = true -> b' = true) /\ (b' = false -> t' = t).
Proof.
  induction fuel as [|fuel IH]; intros b t b' t' H; [done|]. rewrite map_loop_eq in H.
  destruct (_ <? t_cgsize o cs t); [|by injection H as -> ->].
  revert H. set (t1 := if t_bsize t <? MAXBSIZE then grow_block m t else t). cbv zeta. clearbody t1. intros H.
  destruct ((t_bsize t <? MAXBSIZE) && _).
  - apply IH in H as [H1 H2]. by rewrite H1.
  - destruct (_ =? t_bsize _); [done|]. apply IH in H as [H1 H2]. by rewrite H1.
Qed.

Lemma inode_loop_eq o cs m bpcg used inopb fuel b t :
  inode_loop o cs m bpcg used inopb (S fuel) b t =
    if MAXIPG (t_bsize t) inopb <? t_ipg t then
      if (t_mincpc t =? 1) || (t_frag t =? 1) || (t_bsize t =? MINBSIZE) then ok (true, t)
      else
        let t' := halve_block m t in
        if u32 (t_bsize t') <? t_cgsize o cs t' then ok (true, set_bsize t' (t_bsize t' << 1)%int)
        else
          inode_loop o cs m bpcg used inopb fuel true
            (set_mincpg t' (t_cpg t') (inodes_for o bpcg used inopb (t_cpg t')))
    else ok (b, t).
Proof. reflexivity. Qed.

Lemma inode_loop_flag o cs m bpcg used inopb fuel : forall b t b' t',
  inode_loop o cs m bpcg used inopb fuel b t = ok (b', t') -> (b = true -> b' = true) /\ (b' = false -> t' = t).
Proof.
  induction fuel as [|fuel IH]; intros b t b' t' H; [done|]. rewrite inode_loop_eq in H.
  destruct (MAXIPG (t_bsize t) inopb <? t_ipg t); [|by injection H as -> ->].
  destruct (_ || _); [by injection H as <- <-|]. cbv zeta in H. set (t1 := halve_block m t) in H.
  destruct (_ <? t_cgsize _ _ _); [by injection H as <- <-|]. apply IH in H as [H1 H2]. by rewrite H1.
Qed.

(** The loops that give up cylinders go down and keep the inodes in step. *)
Lemma shrink_loop_down o bpcg used inopb mincpc bad fuel : forall b cpg ipg b' cpg' ipg',
  shrink_loop o bpcg used inopb mincpc bad fuel b cpg ipg = Some (b', cpg', ipg') ->
  0 < mincpc -> - 2 ^ 31 <= cpg - Z.of_nat fuel * mincpc -> cpg < 2 ^ 31 ->
  ipg = inodes_for o bpcg used inopb cpg ->
  cpg' <= cpg /\ ipg' = inodes_for o bpcg used inopb cpg' /\ bad cpg' ipg' = false /\
  cpg - Z.of_nat fuel * mincpc <= cpg'.
Proof.
  induction fuel as [|fuel IH]; intros b cpg ipg b' cpg' ipg' H Hm Hlo Hhi Hi; cbn [shrink_loop] in H; [done|].
  destruct (bad cpg ipg) eqn:E.
  - cbv zeta in H. rewrite (s32_small (cpg - mincpc)) in H by (unfold in_s32; zify_pow; lia).
    apply IH in H as (H1 & H2 & H3 & H4); [|done|lia|lia|done]. repeat split; [lia|done|done|lia].
  - injection H as <- <- <-. repeat split; [lia|done|done|lia].
Qed.

(** From here on the loops are known by these lemmas. *)
#[local] Opaque cpc_loop map_loop inode_loop shrink_loop.

(** ** Cylinders and inodes of a group *)

Section Choice.
Context (o : frontend) (cs frag fragshift nspf nspb inopb inopf iblkno cgoffset cgmask : Z).

(** The numbers are small enough for 32 bits: groups are below 1 GB. *)
Record choice_bounds : Prop := {
  cb_spc : 0 < secpercyl o;
  cb_sector : 512 <= sectorsize o;
  cb_cpg : 0 < cpg o;
  cb_density : 0 < density o;
  cb_bsize : 0 < bsize o <= MAXBSIZE;
  cb_nspb : s32 (Z.shiftl nspf fragshift) = nspb /\ 0 < nspb <= 32;
  cb_nspf : 0 < nspf /\ nspf * sectorsize o <= MAXBSIZE;
  cb_group : (cpg o + nspb) * (secpercyl o * sectorsize o) < 2 ^ 30;
  cb_inopf : Z.shiftr inopb fragshift = inopf /\ 4 <= inopf /\ 0 < inopb <= 128;
  cb_iblkno : 0 < iblkno <= 1024;
  cb_skew : 0 <= cgoffset * Z.lnot cgmask < 2 ^ 29 }.

(** Inodes reserved for the smallest group, and the space in use then. *)
Lemma reserved_bounds (bc : choice_bounds) x :
  0 <= x <= MAXIPG (bsize o) inopb -> let used := ((iblkno + x / inopf) * nspf)%int in
  0 < used < 2 ^ 20 /\ 0 < used * sectorsize o < 2 ^ 29.
Proof using Type.
  destruct bc as [B1 B2 B3 B4 B5 [B6 B6'] [B7 B7'] B8 [B9 [B9' B9'']] B10 B11]. unfold MAXBSIZE in *.
  unfold MAXIPG, NBBY. rewrite (s32_small (bsize o * 8)) by (unfold in_s32; zify_pow; lia).
  rewrite Z.quot_div_nonneg by lia. assert (0 <= bsize o * 8 / 3 < 43691) as Hd by dlia.
  rewrite (s32_small (bsize o * 8 / 3)) by (unfold in_s32; zify_pow; lia).
  destruct (roundup_bounds (bsize o * 8 / 3) inopb) as [Hr _]; [lia|lia|zify_pow; lia|].
  intros Hx. rewrite Z.quot_div_nonneg by lia.
  assert (0 <= x / inopf <= 10955) as Hq by (split; [apply Z.div_pos; lia|apply Z.div_le_upper_bound; nia]).
  assert (nspf <= 32) as Hn by nia.
  rewrite (s32_small (x / inopf)) by (unfold in_s32; zify_pow; lia).
  rewrite (s32_small (iblkno + x / inopf)) by (unfold in_s32; zify_pow; lia).
  rewrite s32_small by (unfold in_s32; zify_pow; nia). cbn zeta. change (2 ^ 20) with 1048576. change (2 ^ 29) with 536870912. nia.
Qed.

(** The cylinders of a group fit, and so do its inodes. *)
Lemma inodes_for_bounds (bc : choice_bounds) used c (bpcg := secpercyl o * sectorsize o) :
  0 < used < 2 ^ 29 -> used <= c * bpcg -> c <= cpg o + nspb ->
  (inopb | inodes_for o bpcg used inopb c) /\ 0 <= inodes_for o bpcg used inopb c < 2 ^ 30 + 128.
Proof using Type.
  destruct bc as [B1 B2 B3 B4 B5 B6 B7 B8 [B9 [B9' B9'']] B10 B11]. intros Hu Hc Hle. fold bpcg in B8.
  change (2 ^ 29) with 536870912 in *. change (2 ^ 30) with 1073741824 in *.
  assert (0 < bpcg) as Hb by (unfold bpcg; nia). assert (0 <= c * bpcg < 1073741824) as Hcb by nia.
  unfold inodes_for. rewrite (s32_small (c * bpcg)) by (unfold in_s32; zify_pow; lia).
  rewrite (s32_small (c * bpcg - used)) by (unfold in_s32; zify_pow; lia). rewrite Z.quot_div_nonneg by lia.
  assert (0 <= (c * bpcg - used) / density o <= c * bpcg - used) as Hd
    by (split; [apply Z.div_pos; lia|apply Z.div_le_upper_bound; nia]).
  rewrite s32_small by (unfold in_s32; zify_pow; lia).
  destruct (roundup_bounds ((c * bpcg - used) / density o) inopb) as [H1 H2]; [lia|lia|zify_pow; lia|].
  split; [done|lia].
Qed.

Lemma settle_groups_ok (bc : choice_bounds) used mincpc mincpg c i :
  settle_groups o cs nspf fragshift inopb (secpercyl o * sectorsize o) used mincpc mincpg = ok (c, i) ->
  0 < mincpc <= nspb -> 0 < mincpg -> 0 < used < 2 ^ 29 -> used <= mincpg * (secpercyl o * sectorsize o) ->
  0 < c <= cpg o + nspb /\ (nspb | c * secpercyl o) /\ (inopb | i) /\ 0 <= i < 2 ^ 30 + 128.
Proof using Type.
  intros H Hm Hmg Hu Hfit. pose proof bc as [B1 B2 B3 B4 B5 [B6 B6'] B7 B8 B9 B10 B11].
  change (2 ^ 30) with 1073741824 in B8.
  assert (512 <= secpercyl o * sectorsize o) as Hss by nia.
  assert (cpg o + nspb <= 2097152) as Hcp by nia. unfold settle_groups in H. cbv zeta in H. rewrite B6 in H.
  set (c0 := if negb _ then roundup (cpg o) mincpc else cpg o) in H.
  assert (0 < c0 <= cpg o + nspb) as Hc0.
  { destruct (roundup_bounds (cpg o) mincpc) as [Hr _]; [lia|lia|zify_pow; lia|].
    unfold c0. destruct (negb _); lia. }
  clearbody c0. destruct (shrink_loop _ _ _ _ _ _ (S (Z.to_nat c0)) _ _ _) as [[[b1 c1] i1]|] eqn:E1; [|done].
  apply shrink_loop_down in E1 as (C1 & I1 & _ & L1); [|lia|zify_pow; nia|zify_pow; lia|done].
  destruct (shrink_loop _ _ _ _ _ _ (S (Z.to_nat c1)) _ _ _) as [[[b2 c2] i2]|] eqn:E2; [|done].
  apply shrink_loop_down in E2 as (C2 & I2 & _ & L2); [|lia|zify_pow; nia|zify_pow; lia|done].
  apply check_ok in H as [H1 H]. apply check_ok in H as [H2 H].
  assert (c2 = c /\ i2 = i) as [-> ->] by (destruct (_ && _); [done|]; by injection H as -> ->).
  apply Z.leb_le in H2. apply Z.eqb_eq in H1.
  rewrite (s32_small (c * secpercyl o)) in H1 by (unfold in_s32; zify_pow; nia).
  split; [lia|]. split.
  - rewrite Z.rem_mod_nonneg in H1 by nia. by apply Z.mod_divide; [lia|].
  - rewrite I2. apply inodes_for_bounds; try done; [nia|lia].
Qed.

Lemma maxipg_nonneg (bc : choice_bounds) : 0 <= MAXIPG (bsize o) inopb.
Proof using Type.
  destruct bc as [B1 B2 B3 B4 B5 B6 B7 B8 [B9 [B9' B9'']] B10 B11].
  unfold MAXIPG, NBBY, MAXBSIZE in *. rewrite (s32_small (bsize o * 8)) by (unfold in_s32; zify_pow; lia).
  rewrite Z.quot_div_nonneg, s32_small by (unfold in_s32; zify_pow; dlia).
  destruct (roundup_bounds (bsize o * 8 / 3) inopb) as [? _]; [dlia|lia|zify_pow; dlia|]. dlia.
Qed.

#[local] Opaque settle_groups howmany roundup MAXIPG s32 u32.

Lemma choose_groups_ok c i :
  choice_bounds -> choose_groups o cs frag fragshift nspf inopb iblkno cgoffset cgmask = ok (c, i) ->
  0 < c <= cpg o + nspb /\ (nspb | c * secpercyl o) /\ (inopb | i) /\ 0 <= i < 2 ^ 30 + 128.
Proof using Type.
  intros bc H. pose proof (reserved_bounds bc) as Hused.
  pose proof bc as [B1 B2 B3 B4 B5 [B6 B6'] [B7 B7'] B8 [B9 [B9' B9'']] B10 B11]. unfold choose_groups in H.
  rewrite B6, B9 in H. pose proof (cpc_loop_bounds 32 nspb (secpercyl o) ltac:(zify_pow; lia)) as Hm.
  destruct (cpc_loop 32 nspb (secpercyl o)) as [mincpc i0]. cbn [fst] in Hm.
  change (2 ^ 30) with 1073741824 in B8. change (2 ^ 29) with 536870912 in B11.
  rewrite (s32_small (secpercyl o * sectorsize o)) in H by (unfold in_s32; zify_pow; nia).
  rewrite (u32_small (secpercyl o * sectorsize o)) in H by (unfold in_u32; zify_pow; nia).
  set (bpcg := secpercyl o * sectorsize o) in *. assert (0 < bpcg < 1073741824) as Hb by (unfold bpcg in *; nia).
  unfold sizeof_dinode in H.
  destruct (roundup_bounds (bpcg / 128) inopb) as [Hr _]; [apply Z.div_pos; lia|lia|zify_pow; dlia|].
  assert (0 <= bpcg / 128) as Hb' by (apply Z.div_pos; lia).
  set (x := if MAXIPG (bsize o) inopb <? roundup (bpcg / 128) inopb then MAXIPG (bsize o) inopb
            else roundup (bpcg / 128) inopb) in *.
  assert (0 <= x <= MAXIPG (bsize o) inopb) as Hx.
  { pose proof (maxipg_nonneg bc).
    unfold x. destruct (Z.ltb_spec (MAXIPG (bsize o) inopb) (roundup (bpcg / 128) inopb)); lia. }
  clearbody x. destruct (Hused x Hx) as [U1 U2]. clear Hused.
  set (used := ((iblkno + x / inopf) * nspf)%int) in *. clearbody used.
  change (2 ^ 20) with 1048576 in U1. change (2 ^ 29) with 536870912 in U2.
  rewrite (s32_small (cgoffset * _)), (s32_small (cgoffset * _ + used)), (s32_small (used * sectorsize o)) in H
    by (unfold in_s32; zify_pow; lia).
  destruct (howmany_bounds (cgoffset * Z.lnot cgmask + used) (secpercyl o)) as [Hh Hh']; [lia|lia|zify_pow; nia|].
  set (cnt := howmany (cgoffset * Z.lnot cgmask + used) (secpercyl o)) in *.
  destruct (roundup_bounds cnt mincpc) as [Hg _]; [lia|lia|zify_pow; lia|].
  apply rbind_ok in H as ([mapcramped t] & Hmap & H). apply map_loop_flag in Hmap as [_ Hmap].
  apply rbind_ok in H as ([inodecramped t2] & Hino & H). apply inode_loop_flag in Hino as [_ Hino].
  destruct (inodecramped || mapcramped) eqn:Ecr; [done|]. apply orb_false_iff in Ecr as [-> ->].
  rewrite Hino, Hmap in H by done. cbn [set_mincpg t_mincpc t_mincpg] in H.
  apply (settle_groups_ok bc) in H; [done|lia|nia|zify_pow; lia|]. fold bpcg. unfold bpcg. nia.
Qed.

End Choice.
