(* ===== verification/NewfsGroup.v ===== *)
(** The groups newfs builds: the steps of [initcg] keep every table equal to
    what the maps say, so a fresh group satisfies the invariant of the
    allocator. *)

From S2P Require Import Prelude Bitmap Superblock Cg CgSearch Runs Accounting Clusters Summary FragSummary FragAlloc FfsSubr Newfs InitCg.
Local Open Scope bffs_scope.

(** ** The geometry without cluster summaries

    The cluster summary is made at the end of [initcg]; up to there a group
    is well formed for this geometry. *)
Definition plain (g : geometry) : geometry :=
  Geometry (fs_sblkno g) (fs_cblkno g) (fs_iblkno g) (fs_dblkno g) (fs_cgoffset g) (fs_cgmask g) (fs_ncg g)
    (fs_bsize g) (fs_fsize g) (fs_frag g) (fs_bshift g) (fs_fshift g) (fs_fragshift g) (fs_nindir g) (fs_inopb g)
    (fs_nspf g) (fs_npsect g) (fs_interleave g) (fs_trackskew g) (fs_nsect g) (fs_spc g) (fs_ipg g) (fs_fpg g)
    (fs_nrpos g) 0.

Lemma plain_wf g : wf_geometry g -> wf_geometry (plain g).
Proof. intros [W1 W2 W3 W4 W5 W6 W7 W8 W9 W10 W11 W12 W13]. by constructor. Qed.

Lemma setbit_set map i : 0 <= i -> setbit map i = bit_set map i.
Proof.
  intros Hi. unfold setbit, bit_set, NBBY.
  rewrite Z.quot_div_nonneg, Z.rem_mod_nonneg, Z.shiftr_div_pow2 by lia.
  change 7 with (Z.ones 3). by rewrite Z.land_ones by lia.
Qed.

Lemma setblock_ffs F cp h : valid_fpb F -> setblock F cp h = ffs_setblock F cp h.
Proof. intros [->|[->|[->| ->]]]; reflexivity. Qed.

(** ** The scan over the cluster map *)

Lemma bits_cons f lo n : 0 < n -> bits f lo n = f lo :: bits f (lo + 1) (n - 1).
Proof. intros Hn. unfold bits. by rewrite seqZ_cons. Qed.

Lemma count_run_entry (sb : sblock) sump run k X :
  0 < fs_contigsumsize sb < zlen sump -> 0 < run -> zget sump k = s32 X ->
  zget (count_run sb sump run) k = s32 (X + w_cl (fs_contigsumsize sb) k run).
Proof.
  intros HS Hr HX. unfold count_run.
  replace (if fs_contigsumsize sb <? run then fs_contigsumsize sb else run) with (Z.min run (fs_contigsumsize sb))
    by (destruct (Z.ltb_spec (fs_contigsumsize sb) run); lia).
  apply (zget_tally sump (Z.min run (fs_contigsumsize sb)) k 1 X); [lia|done].
Qed.

Lemma zlen_count_run (sb : sblock) sump run : zlen (count_run sb sump run) = zlen sump.
Proof. apply zlen_zset. Qed.

(** The runs still to count are those from [i] on, the first one with the
    [run] blocks seen so far. *)
Lemma cluster_scan_entry (sb : sblock) mapp n k m : forall i run sump X,
  Z.of_nat m = n - i -> 0 <= i -> 0 <= run -> 0 < fs_contigsumsize sb < zlen sump ->
  zget sump k = s32 X ->
  let r := cluster_scan sb (upto i n 1) mapp (i / 8 + 1) (zget mapp (i / 8)) (Z.shiftl 1 (i mod 8)) run sump in
  zlen r = zlen sump /\
  zget r k = s32 (X + zsum (w_cl (fs_contigsumsize sb) k) (runs (bits (is_free mapp) i (n - i)) run)).
Proof.
  induction m as [|m IH]; intros i run sump X Hm Hi Hrun HS HX.
  - rewrite upto_nil by lia. unfold bits. rewrite seqZ_nil by lia. cbn. unfold emit.
    destruct (Z.eqb_spec run 0) as [->|Hne].
    + cbn. by rewrite Z.add_0_r.
    + rewrite zlen_count_run, (count_run_entry sb sump run k X) by (done || lia).
      split; [done|]. cbn. f_equal. lia.
  - rewrite upto_cons by lia. rewrite bits_cons by lia. cbn [cluster_scan runs].
    rewrite test_bit by done. fold (is_free mapp i). rewrite negb_involutive.
    set (sump' := if is_free mapp i || (run =? 0) then sump else count_run sb sump run).
    set (run' := if is_free mapp i then run + 1 else 0).
    assert (zlen sump' = zlen sump) as El by (unfold sump'; case_match; by rewrite ?zlen_count_run).
    set (X' := if is_free mapp i then X else X + zsum (w_cl (fs_contigsumsize sb) k) (emit run)).
    assert (zget sump' k = s32 X') as HX'.
    { unfold sump', X'. destruct (is_free mapp i); [done|]. cbn [orb]. unfold emit.
      destruct (Z.eqb_spec run 0) as [->|Hne]; [by rewrite Z.add_0_r|].
      rewrite (count_run_entry sb sump run k X) by (done || lia). cbn. f_equal. lia. }
    assert (0 <= run') as Hrun' by (unfold run'; case_match; lia).
    destruct (IH (i + 1) run' sump' X') as [L1 L2]; [lia..|by rewrite El|done|].
    assert (forall A (a b : A), (if negb (Z.land i (NBBY - 1) =? NBBY - 1) then a else b) =
      (if i mod 8 =? 7 then b else a)) as Hif.
    { intros A a b. rewrite land7. change (NBBY - 1) with 7. by destruct (i mod 8 =? 7). }
    rewrite Hif. rewrite El in L1.
    assert (zsum (w_cl (fs_contigsumsize sb) k)
      (if is_free mapp i then runs (bits (is_free mapp) (i + 1) (n - i - 1)) (run + 1)
       else emit run ++ runs (bits (is_free mapp) (i + 1) (n - i - 1)) 0) + X =
      X' + zsum (w_cl (fs_contigsumsize sb) k) (runs (bits (is_free mapp) (i + 1) (n - (i + 1))) run')) as E.
    { replace (n - i - 1) with (n - (i + 1)) by lia. unfold X', run'. destruct (is_free mapp i); [lia|].
      rewrite zsum_app. lia. }
    rewrite (Z.add_comm X), E.
    destruct (Z.eqb_spec (i mod 8) 7) as [H7|H7].
    + replace ((i + 1) / 8) with (i / 8 + 1) in * by dlia. replace ((i + 1) mod 8) with 0 in * by dlia. done.
    + replace ((i + 1) / 8) with (i / 8) in * by dlia. replace ((i + 1) mod 8) with (i mod 8 + 1) in * by dlia.
      pose proof (Z.mod_pos_bound i 8). rewrite Z.shiftl_shiftl by lia. done.
Qed.

(** ** The invariant while a group is built *)

Section Building.
Context (g : geometry) (Hg : wf_geometry g).
#[local] Abbreviation FPB := (fs_frag g).

(** The cluster map, not yet the summary. *)
Record cluster_map (c : cg) : Prop := {
  cm_n : cg_nclusterblks c = cg_ndblk c / FPB;
  cm_len : cg_nclusterblks c <= 8 * zlen (cg_clustersfree c);
  cm_sumlen : fs_contigsumsize g < zlen (cg_clustersum c);
  cm_free : forall b, 0 <= b < cg_nclusterblks c ->
    is_free (cg_clustersfree c) b = block_avail FPB (cg_blksfree c) (b * FPB) }.

Record building (c : cg) : Prop := {
  bu_blocks : wf_blocks (plain g) c;
  bu_frags : wf_frags g c;
  bu_clusters : 0 < fs_contigsumsize g -> cluster_map c }.

(** Nothing of block [b] is free. *)
Definition block_used (c : cg) (b : Z) : Prop := forall i, i / FPB = b -> is_free (cg_blksfree c) i = false.

(** Fields of [c'] that the tables are about, apart from those. *)
Definition same_group (c c' : cg) : Prop :=
  cg_cgx c' = cg_cgx c /\ cg_niblk c' = cg_niblk c /\ cg_ndblk c' = cg_ndblk c /\
  cg_inosused c' = cg_inosused c /\ cg_irotor c' = cg_irotor c /\
  cs_ndir (cg_cs c') = cs_ndir (cg_cs c) /\ cs_nifree (cg_cs c') = cs_nifree (cg_cs c) /\
  zlen (cg_blksfree c') = zlen (cg_blksfree c) /\ cg_clustersum c' = cg_clustersum c /\
  zlen (cg_clustersfree c') = zlen (cg_clustersfree c) /\ cg_nclusterblks c' = cg_nclusterblks c.

#[export] Instance same_group_preorder : PreOrder same_group.
Proof.
  split; [by repeat split|]. unfold same_group. intros c1 c2 c3 H1 H2.
  decompose [and] H1. decompose [and] H2. repeat split; congruence.
Qed.

(** The cluster tables do not matter yet. *)
Lemma wf_blocks_plain c c' :
  cg_ndblk c' = cg_ndblk c -> cs_nbfree (cg_cs c') = cs_nbfree (cg_cs c) ->
  cg_blktot c' = cg_blktot c -> cg_blks c' = cg_blks c -> cg_blksfree c' = cg_blksfree c ->
  wf_blocks (plain g) c -> wf_blocks (plain g) c'.
Proof using Type.
  intros E1 E2 E3 E4 E5 [[M1 M2 M3] W2 W3 W4 W5 W6 _].
  constructor; rewrite ?E1, ?E2, ?E3, ?E4, ?E5 in *; try done.
  constructor; rewrite ?E1, ?E5; done.
Qed.

(** ** A free block *)

Lemma block_number c b : wf_blocks (plain g) c -> group_block g c b -> s32 (Z.quot (b * FPB) FPB) = b.
Proof using Hg.
  intros Hw [Hb Hi]. pose proof (frag_pos g Hg). rewrite Z.quot_mul by lia. apply s32_small. unfold in_s32.
  pose proof (group_bound g Hg 0 ltac:(pose proof (wg_ncg g Hg); lia)).
  pose proof (wb_ndblk _ _ Hw) as Hnd. cbn in Hnd. zify_pow. nia.
Qed.

Lemma add_block_map (sb : sblock) c b :
  sb_geo sb = g -> building c -> group_block g c b ->
  cg_blksfree (add_block sb c (b * FPB)) = block_dealloc FPB (cg_blksfree c) (b * FPB).
Proof using Hg.
  intros E Hc Hb. pose proof (frag_pos g Hg). unfold add_block. cbn [cg_blksfree]. rewrite E.
  destruct (wb_map _ _ (bu_blocks c Hc)) as [M1 M2 M3].
  rewrite (block_number c) by (done || apply Hc). destruct Hb as [Hb Hi].
  rewrite setblock_ffs by apply Hg. apply setblock_dealloc; [apply Hg|done|].
  destruct (fpb_eight FPB (wg_frag g Hg)) as [H1 H2]. split; [done|].
  assert ((b + 1) * FPB <= 8 / FPB * zlen (cg_blksfree c) * FPB) by nia. nia.
Qed.

(** A group whose block [b] became free ([a = 1]) or was taken ([a = -1]). *)
Record block_changed (c c' : cg) (b a : Z) : Prop := {
  bc_step : exists map', cg_blksfree c' = map' /\ wf_map (set_blksfree c map') /\
    block_flipped (plain g) (cg_blksfree c) map' b a /\
    cs_nbfree (cg_cs c') = cs_nbfree (cg_cs (adjust_blks g c (b * FPB) a)) /\
    cg_blktot c' = cg_blktot (adjust_blks g c (b * FPB) a) /\ cg_blks c' = cg_blks (adjust_blks g c (b * FPB) a);
  bc_bits : forall i, is_free (cg_blksfree c') i = if i / FPB =? b then 0 <? a else is_free (cg_blksfree c) i;
  bc_old : forall i, i / FPB = b -> is_free (cg_blksfree c) i = negb (0 <? a);
  bc_frsum : cg_frsum c' = cg_frsum c /\ cs_nffree (cg_cs c') = cs_nffree (cg_cs c);
  bc_clusters : 0 < fs_contigsumsize g -> forall k, 0 <= k < cg_nclusterblks c ->
    is_free (cg_clustersfree c') k = if k =? b then 0 <? a else is_free (cg_clustersfree c) k }.

Lemma block_changed_building c c' b a :
  building c -> group_block g c b -> same_group c c' -> block_changed c c' b a -> building c'.
Proof using Hg.
  intros [Hbl Hfr Hcl] Hb (S1 & S2 & S3 & S4 & S5 & S6 & S7 & S8 & S9 & S10 & S11)
    [(map' & Em & Hm' & Hfl & Q1 & Q2 & Q3) Hbits Hold [Hfs Hnf] Hclm].
  pose proof (plain_wf g Hg) as Hg0. pose proof (frag_pos g Hg) as HF.
  pose proof (block_step_wf (plain g) Hg0 c map' b a Hbl Hm' Hb Hfl) as Hw. change (fs_frag (plain g)) with FPB in Hw.
  constructor.
  - by apply (wf_blocks_plain (block_step (plain g) c map' (b * FPB) a)).
  - destruct Hfr as [F1 F2 F3]. pose proof (group_block_range (plain g) Hg0 c b Hbl Hb) as Hr.
    change (nblocks (plain g)) with (nblocks g) in Hr.
    assert (same_outside g (cg_blksfree c) (cg_blksfree c') b) as Hso.
    { intros i Hi. by rewrite Hbits, (proj2 (Z.eqb_neq _ b) Hi). }
    assert (forall i, i / FPB = b -> is_free (cg_blksfree c') i = (0 <? a)) as Hnew.
    { intros i Hi. by rewrite Hbits, Hi, Z.eqb_refl. }
    assert (forall w, w 0 = 0 -> w FPB = 0 ->
      group_weight g w (cg_blksfree c') = group_weight g w (cg_blksfree c)) as Hgw.
    { intros w H0 H1. rewrite (group_weight_upd g Hg w _ _ b Hr Hso). destruct (0 <? a).
      - rewrite (blk_weight_full g Hg w), (blk_weight_empty g Hg w); [lia|done..].
      - rewrite (blk_weight_empty g Hg w), (blk_weight_full g Hg w); [lia|done..]. }
    constructor; rewrite ?Hfs, ?Hnf; [done|..].
    + rewrite Hgw; [done|unfold w_nf; by case_match|unfold w_nf; by rewrite Z.eqb_refl].
    + intros k Hk. rewrite Hgw; [by apply F3|unfold w_fr; case_match; lia|unfold w_fr; case_match; lia].
  - intros HS. destruct (Hcl HS) as [C1 C2 C3 C4]. constructor; rewrite ?S11, ?S3, ?S9, ?S10; try done.
    intros k Hk. rewrite Em, (Hclm HS k Hk). destruct Hfl as [_ _ B3 B4]. change (fs_frag (plain g)) with FPB in *.
    destruct (Z.eqb_spec k b) as [->|Hk']; [by rewrite B3|]. rewrite B4 by done. by apply C4.
Qed.

Lemma block_cluster c b : building c -> 0 < fs_contigsumsize g -> group_block g c b ->
  0 <= b < cg_nclusterblks c /\ in_map (cg_clustersfree c) b.
Proof using Hg.
  intros [_ _ Hcl] HS [Hb Hi]. destruct (Hcl HS) as [C1 C2 _ _]. pose proof (frag_pos g Hg).
  assert (b + 1 <= cg_ndblk c / FPB) by (apply Z.div_le_lower_bound; lia). unfold in_map. lia.
Qed.

Lemma add_block_building (sb : sblock) c b :
  sb_geo sb = g -> building c -> group_block g c b -> block_used c b ->
  building (add_block sb c (b * FPB)) /\ same_group c (add_block sb c (b * FPB)) /\
  forall i, is_free (cg_blksfree (add_block sb c (b * FPB))) i = (i / FPB =? b) || is_free (cg_blksfree c) i.
Proof using Hg.
  intros E Hc Hb Hu. pose proof (frag_pos g Hg) as HF. pose proof (add_block_map sb c b E Hc Hb) as Em.
  pose proof (plain_wf g Hg) as Hg0. pose proof Hc as [Hbl Hfr Hcl]. pose proof (wb_map _ _ Hbl) as Hm.
  assert (b * FPB / FPB = b) as Hd by (apply Z.div_mul; lia).
  assert (block_avail FPB (cg_blksfree c) (b * FPB) = false) as Hav
    by (apply (avail_false g Hg (cg_blksfree c) b (b * FPB)); [apply Hm|done|by apply Hu]).
  destruct (block_dealloc_flips (plain g) Hg0 c b Hm Hb Hav) as [Hm' Hfl]. change (fs_frag (plain g)) with FPB in *.
  assert (forall i, is_free (cg_blksfree (add_block sb c (b * FPB))) i = (i / FPB =? b) || is_free (cg_blksfree c) i) as Hfree.
  { intros i. destruct (group_block_in_map g Hg c b (b * FPB) Hm Hb Hd) as [Hin _].
    rewrite Em, block_dealloc_free, Hd by (done || apply Hg). done. }
  assert (same_group c (add_block sb c (b * FPB))) as Hsg.
  { unfold same_group. rewrite Em, zlen_block_dealloc. unfold add_block. cbn. rewrite E.
    repeat split; try done. destruct (0 <? fs_contigsumsize g); [|done].
    rewrite (block_number c) by done. by rewrite setbit_set, zlen_bit_set by apply Hb. }
  split; [|by split]. apply (block_changed_building c _ b 1 Hc Hb Hsg). constructor.
  - rewrite Em. eexists. split; [reflexivity|]. split; [exact Hm'|]. split; [exact Hfl|]. unfold add_block. cbn. by rewrite E.
  - intros i. rewrite Hfree. by destruct (i / FPB =? b).
  - exact Hu.
  - done.
  - intros HS k Hk. destruct (block_cluster c b Hc HS Hb) as [_ Hin]. unfold add_block. cbn [cg_clustersfree].
    rewrite E, (proj2 (Z.ltb_lt _ _) HS), (block_number c), setbit_set, bit_set_free by (done || apply Hb).
    by destruct (k =? b).
Qed.

Lemma upto_blocks b0 e :
  upto (b0 * FPB) e FPB = (fun b => b * FPB) <$> seqZ b0 (zlen (upto (b0 * FPB) e FPB)).
Proof using Hg.
  pose proof (frag_pos g Hg). unfold upto. set (m := (e - b0 * FPB + FPB - 1) / FPB).
  assert (zlen ((fun k => b0 * FPB + FPB * k) <$> seqZ 0 m) = Z.max 0 m) as ->
    by (unfold zlen; rewrite length_fmap, length_seqZ; lia).
  assert (seqZ b0 (Z.max 0 m) = Z.add b0 <$> seqZ 0 m) as ->.
  { rewrite fmap_add_seqZ, Z.add_0_r. destruct (Z.le_gt_cases 0 m); [f_equal; lia|].
    rewrite (seqZ_nil b0 m), seqZ_nil by lia. done. }
  rewrite <- list_fmap_compose. apply list_fmap_ext. intros i x Hx. cbn. lia.
Qed.

Lemma add_blocks_building (sb : sblock) m : forall c b0,
  sb_geo sb = g -> building c ->
  (forall b, b0 <= b < b0 + Z.of_nat m -> group_block g c b /\ block_used c b) ->
  let c' := fold_left (add_block sb) ((fun b => b * FPB) <$> seqZ b0 (Z.of_nat m)) c in
  building c' /\ same_group c c' /\
  forall i, is_free (cg_blksfree c') i = in_range b0 (Z.of_nat m) (i / FPB) || is_free (cg_blksfree c) i.
Proof using Hg.
  induction m as [|m IH]; intros c b0 E Hc Hb.
  - split; [done|]. split; [done|]. intros i. change (Z.of_nat 0) with 0.
    assert (in_range b0 0 (i / FPB) = false) as ->; [|done]. apply not_true_iff_false. rewrite in_range_spec. lia.
  - rewrite seqZ_cons, fmap_cons by lia. cbn [fold_left].
    destruct (add_block_building sb c b0 E Hc) as (Hc1 & Hs1 & Hf1); [apply Hb; lia..|].
    replace (Z.pred (Z.of_nat (S m))) with (Z.of_nat m) by lia.
    destruct (IH (add_block sb c (b0 * FPB)) (Z.succ b0) E Hc1) as (Hc2 & Hs2 & Hf2).
    + intros b Hb'. destruct (Hb b ltac:(lia)) as [[G1 G2] G3]. split.
      * by split.
      * intros i Hi. rewrite Hf1, G3, orb_false_r by done. apply Z.eqb_neq. lia.
    + split; [done|]. split; [by etrans|]. intros i. rewrite Hf2, Hf1, orb_assoc. f_equal.
      apply eq_true_iff_eq. rewrite orb_true_iff, !in_range_spec, Z.eqb_eq. lia.
Qed.

(** ** A run of free fragments, less than a block *)

Lemma fold_add_frag l c :
  Forall (fun i => 0 <= i) l -> in_s32 (cs_nffree (cg_cs c)) ->
  fold_left add_frag l c = set_cs (set_blksfree c (set_bits (cg_blksfree c) l)) (csum_add_nffree (cg_cs c) (zlen l)).
Proof using Type.
  intros Hl. revert c. induction Hl as [|i l Hi Hl IH]; intros c Hc; cbn [fold_left].
  - destruct c as [? ? ? [] ]. unfold csum_add_nffree. cbn in *. by rewrite Z.add_0_r, s32_small.
  - rewrite IH by apply s32_range. unfold add_frag, csum_add_nffree, set_cs, set_blksfree. cbn.
    rewrite setbit_set, s32_add by done. do 3 f_equal. unfold zlen. cbn [length]. lia.
Qed.

Lemma upto_nonneg lo hi : 0 <= lo -> Forall (fun i => 0 <= i) (upto lo hi 1).
Proof using Type.
  intros Hl. apply Forall_forall. intros x Hx. apply elem_of_upto in Hx as (k & ? & -> & ?); lia.
Qed.

Lemma upto1_bool lo hi i : bool_decide (i ∈ upto lo hi 1) = in_range lo (hi - lo) i.
Proof using Type.
  apply eq_true_iff_eq. rewrite bool_decide_eq_true, elem_of_upto, in_range_spec by lia. split.
  - intros (k & ? & -> & ?). lia.
  - intros Hi. exists (i - lo). lia.
Qed.

Lemma add_frags_building c b s n :
  building c -> block_used c b -> 0 <= b -> 0 < n < FPB -> b * FPB <= s -> s + n <= b * FPB + FPB ->
  s + n <= cg_ndblk c ->
  let c' := fold_left add_frag (upto s (s + n) 1) (add_run c n) in
  building c' /\ same_group c c' /\
  forall i, is_free (cg_blksfree c') i = in_range s n i || is_free (cg_blksfree c) i.
Proof using Hg.
  intros Hc Hu Hb Hn Hs Hsn Hend. pose proof (frag_pos g Hg) as HF. pose proof Hc as [Hbl Hfr Hcl].
  pose proof (plain_wf g Hg) as Hg0. pose proof (wb_map _ _ Hbl) as Hm. pose proof Hm as [M1 M2 M3].
  pose proof (group_weight_bounds g Hg (cg_blksfree c)) as (_ & Hw1 & Hw2). pose proof (nblocks_bound g Hg) as Hnb.
  pose proof (nblocks_fpg g Hg) as Hnf. pose proof (wb_ndblk _ _ Hbl) as Hnd. cbn in Hnd.
  set (map' := set_bits (cg_blksfree c) (upto s (s + n) 1)).
  assert (forall i, is_free map' i = in_range s n i || is_free (cg_blksfree c) i) as Hfree.
  { intros i. unfold map'. rewrite set_bits_free, upto1_bool.
    - replace (s + n - s) with n by lia. apply orb_comm.
    - intros x Hx. apply elem_of_upto in Hx as (k & ? & -> & ?); [|lia]. unfold in_map. lia. }
  rewrite fold_add_frag; [|apply upto_nonneg; nia|]. 
  2:{ cbn. rewrite (wf_nffree _ _ Hfr). unfold in_s32. zify_pow. lia. }
  cbn zeta. rewrite zlen_upto1 by lia.
  assert (range_flipped (cg_blksfree c) map' s n 1) as Hfl.
  { constructor; [by left|..].
    - intros i Hi. apply Hu. apply (block_window g Hg). lia.
    - intros i. rewrite Hfree. by destruct (in_range s n i). }
  assert (run_around (is_free (cg_blksfree c)) (b * FPB) FPB s n 0 0) as Hr.
  { constructor; try lia.
    - destruct (Z.eqb_spec s (b * FPB)); [left; lia|right]. apply Hu, (block_window g Hg). lia.
    - destruct (Z.eqb_spec (s + n) (b * FPB + FPB)); [left; lia|right]. apply Hu, (block_window g Hg). lia. }
  assert (forall w, w 0 = 0 -> merge_delta w 0 n 0 = w n) as Hmd.
  { intros w H0. unfold merge_delta. rewrite Z.add_0_l, Z.add_0_r. lia. }
  assert (Forall byte map') as Hby by by apply bytes_set_bits.
  assert (forall x, block_avail FPB map' (x * FPB) = block_avail FPB (cg_blksfree c) (x * FPB)) as Hav.
  { intros x. eapply (range_avail g Hg (cg_blksfree c) map' s n 1 0 0 b x); try done. lia. }
  split; [constructor|split; [|exact Hfree]].
  - apply (wf_blocks_plain (set_blksfree c map')); try done.
    apply (wf_blocks_map (plain g)); [done|done| |done]. destruct Hfl as [_ _ Hnew].
    constructor; cbn; [done|unfold map'; by rewrite zlen_set_bits|]. intros i Hi. rewrite Hfree, M3 by done.
    rewrite orb_false_r. apply not_true_iff_false. rewrite in_range_spec. lia.
  - apply (wf_frags_range g Hg c _ s n 1 0 0 b); try done.
    + assert (b < fs_fpg g / FPB); [|unfold nblocks; lia]. unfold nblocks in Hnf. nia.
    + cbn. by rewrite zlen_zset, (wf_frsum_len _ _ Hfr).
    + rewrite Hmd by (unfold w_nf; by case_match). unfold w_nf. cbn.
      rewrite (proj2 (Z.eqb_neq n FPB)) by lia. do 2 f_equal. lia.
    + intros j Hj. rewrite Hmd by (unfold w_fr; case_match; lia). cbn. unfold w_fr.
      rewrite zget_zset by (rewrite (wf_frsum_len _ _ Hfr); lia).
      destruct (n =? j) eqn:E; [apply Z.eqb_eq in E as <-; f_equal; lia|].
      rewrite (wf_frsum _ _ Hfr) by done. symmetry. rewrite Z.mul_0_r, Z.add_0_r. apply s32_small. unfold in_s32.
      specialize (Hw2 j ltac:(lia)). zify_pow. lia.
  - intros HS. destruct (Hcl HS) as [C1 C2 C3 C4]. constructor; cbn; try done.
    intros k Hk. fold map'. rewrite Hav. by apply C4.
  - unfold same_group, map'. cbn. by rewrite zlen_set_bits.
Qed.

(** ** The steps as changes of the set of free fragments *)

(** [c] was built from [c0] and the fragments [f] are free in it. *)
Record built (c0 : cg) (f : Z -> bool) (c : cg) : Prop := {
  bt_building : building c;
  bt_same : same_group c0 c;
  bt_free : forall i, is_free (cg_blksfree c) i = f i }.

Lemma built_ext c0 f f' c : (forall i, f i = f' i) -> built c0 f c -> built c0 f' c.
Proof using Type. intros He [B1 B2 B3]. constructor; [done|done|]. intros i. by rewrite B3. Qed.

Lemma built_blocks (sb : sblock) c0 f c b0 e (l := upto (b0 * FPB) e FPB) :
  sb_geo sb = g -> built c0 f c -> 0 <= b0 -> e - 1 + FPB <= cg_ndblk c0 ->
  (forall i, b0 * FPB <= i -> f i = false) ->
  built c0 (fun i => in_range (b0 * FPB) (zlen l * FPB) i || f i) (fold_left (add_block sb) l c).
Proof using Hg.
  intros E [B1 B2 B3] Hb0 He Hf. pose proof (frag_pos g Hg) as HF. pose proof (upto_blocks b0 e) as El. fold l in El.
  set (m := zlen l) in *. rewrite El.
  destruct (add_blocks_building sb (Z.to_nat m) c b0 E B1) as (R1 & R2 & R3).
  - intros b Hb. assert (b * FPB ∈ l) as Hin.
    { rewrite El. apply list_elem_of_fmap. exists b. split; [done|]. apply elem_of_seqZ. lia. }
    apply elem_of_upto in Hin as (k & Hk & Ek & Hlt); [|lia]. destruct B2 as (_ & _ & End & _).
    split; [split; nia|]. intros i Hi. rewrite B3. apply Hf. apply (block_window g Hg) in Hi. nia.
  - replace (Z.of_nat (Z.to_nat m)) with m in * by (pose proof (zlen_nonneg l); lia).
    constructor; [done|by etrans|]. intros i. rewrite R3, B3. f_equal. apply eq_true_iff_eq.
    rewrite !in_range_spec. pose proof (proj2 (block_window g Hg (i / FPB) i) eq_refl). nia.
Qed.

Lemma built_frags c0 f c b s n :
  built c0 f c -> 0 <= b -> 0 < n < FPB -> b * FPB <= s -> s + n <= b * FPB + FPB ->
  s + n <= cg_ndblk c0 -> (forall i, b * FPB <= i -> f i = false) ->
  built c0 (fun i => in_range s n i || f i) (fold_left add_frag (upto s (s + n) 1) (add_run c n)).
Proof using Hg.
  intros [B1 B2 B3] Hb Hn Hs Hsn Hend Hf. pose proof (frag_pos g Hg) as HF.
  destruct (add_frags_building c b s n B1) as (R1 & R2 & R3); try done.
  - intros i Hi. rewrite B3. apply Hf. apply (block_window g Hg) in Hi. lia.
  - destruct B2 as (_ & _ & -> & _). lia.
  - constructor; [done|by etrans|]. intros i. by rewrite R3, B3.
Qed.

Lemma building_ext c c' :
  cg_ndblk c' = cg_ndblk c -> cs_nbfree (cg_cs c') = cs_nbfree (cg_cs c) ->
  cs_nffree (cg_cs c') = cs_nffree (cg_cs c) -> cg_frsum c' = cg_frsum c ->
  cg_blktot c' = cg_blktot c -> cg_blks c' = cg_blks c -> cg_blksfree c' = cg_blksfree c ->
  cg_clustersum c' = cg_clustersum c -> cg_clustersfree c' = cg_clustersfree c ->
  cg_nclusterblks c' = cg_nclusterblks c -> building c -> building c'.
Proof using Type.
  intros E1 E2 E3 E4 E5 E6 E7 E8 E9 E10 [B1 B2 B3]. constructor.
  - by apply (wf_blocks_plain c).
  - by apply (wf_frags_ext g c).
  - intros HS. destruct (B3 HS) as [C1 C2 C3 C4]. constructor; rewrite ?E1, ?E7, ?E8, ?E9, ?E10; done.
Qed.

(** The last step makes the cluster summary. *)
Lemma building_clusters (sb : sblock) c :
  sb_geo sb = g -> 0 < fs_contigsumsize g -> building c ->
  (forall k, 1 <= k <= fs_contigsumsize g -> zget (cg_clustersum c) k = 0) ->
  let c' := set_clusters c (cluster_scan sb (upto 0 (cg_nclusterblks c) 1) (cg_clustersfree c) 1
    (zget (cg_clustersfree c) 0) 1 0 (cg_clustersum c)) (cg_clustersfree c) in
  wf_blocks g c' /\ wf_frags g c'.
Proof using Hg.
  intros E HS Hc H0. pose proof Hc as [Hbl Hfr Hcl]. destruct (Hcl HS) as [C1 C2 C3 C4].
  pose proof (frag_pos g Hg) as HF. pose proof (wm_len _ (wb_map _ _ Hbl)) as Hml.
  pose proof (wb_ndblk _ _ Hbl) as Hnd. cbn in Hnd. pose proof (nblocks_bound g Hg) as Hnb.
  assert (0 <= cg_nclusterblks c < 2 ^ 31) as Hncl.
  { rewrite C1. split; [apply Z.div_pos; lia|]. apply Z.div_lt_upper_bound; zify_pow; nia. }
  assert (0 < fs_contigsumsize sb < zlen (cg_clustersum c)) as HSs by (rewrite E; lia).
  pose proof (fun k X => cluster_scan_entry sb (cg_clustersfree c) (cg_nclusterblks c) k
    (Z.to_nat (cg_nclusterblks c)) 0 0 (cg_clustersum c) X ltac:(lia) ltac:(lia) ltac:(lia) HSs) as Hscan.
  change (0 / 8 + 1) with 1 in Hscan. change (0 / 8) with 0 in Hscan. change (Z.shiftl 1 (0 mod 8)) with 1 in Hscan.
  cbn zeta in Hscan. rewrite E, Z.sub_0_r in Hscan. cbn zeta.
  generalize dependent (cluster_scan sb (upto 0 (cg_nclusterblks c) 1) (cg_clustersfree c) 1
    (zget (cg_clustersfree c) 0) 1 0 (cg_clustersum c)). intros sump Hscan. split.
  - destruct Hbl as [[M1 M2 M3] W2 W3 W4 W5 W6 _]. constructor; try done. intros _. constructor; cbn; try done.
    + destruct (Hscan 1 0) as [-> _]; [rewrite H0 by lia; done|done].
    + intros k Hk. destruct (Hscan k 0) as [_ ->]; [by rewrite H0|]. rewrite Z.add_0_l. apply s32_small.
      pose proof (run_weight_cl_bounds (fs_contigsumsize g) k (is_free (cg_clustersfree c)) (cg_nclusterblks c)
        ltac:(lia) ltac:(lia) ltac:(lia)) as Hb.
      unfold in_s32. zify_pow. lia.
  - by apply (wf_frags_ext g c).
Qed.

End Building.
