(* ===== verification/NewfsCg.v ===== *)
(** [initcg]: the group it builds is well formed, with exactly the fragments
    before the superblock copy (but in group 0) and after the inodes free. *)

From S2P Require Import Prelude Bitmap Superblock Cg CgSearch Runs Accounting Clusters Summary FragSummary FragAlloc FfsSubr Newfs InitCg NewfsGroup.
Local Open Scope bffs_scope.

(** ** What the superblock has to say for a group to fit *)

(** The maps and tables are large enough for a group of [fs_fpg] fragments. *)
Record group_tables (sb : sblock) : Prop := {
  gt_wf : wf_geometry sb;
  gt_nspf : 0 < fs_nspf sb;
  gt_cpg : 0 < fs_cpg sb;
  gt_spc : fs_cpg sb * fs_spc sb = fs_fpg sb * fs_nspf sb;
  gt_max : fs_fpg sb * fs_nspf sb < 2 ^ 30;
  gt_rpos : 0 < fs_nrpos sb /\ fs_nsect sb <= fs_npsect sb;
  gt_contig : 0 <= fs_contigsumsize sb <= FS_MAXCONTIG }.

(** The space of a group: before [dl] and from [du] to [nd] it is free. *)
Record room (sb : sblock) (dl du nd : Z) : Prop := {
  rm_lower : 0 <= dl /\ (fs_frag sb | dl);
  rm_upper : dl < du;
  rm_first : (du + fs_frag sb - 1) / fs_frag sb * fs_frag sb <= nd;
  rm_ndblk : nd <= fs_fpg sb }.

Lemma zget_zeros n i : zget (repeat 0 n) i = 0.
Proof.
  unfold zget. destruct (i <? 0); [done|]. destruct (repeat 0 n !! Z.to_nat i) eqn:E; [|done].
  apply list_elem_of_lookup_2, list_elem_of_In, repeat_spec in E. done.
Qed.

Lemma zlen_zeros n : 0 <= n -> zlen (repeat 0 (Z.to_nat n)) = n.
Proof. intros Hn. unfold zlen. rewrite repeat_length. lia. Qed.

Lemma zeros_free n i : is_free (repeat 0 n) i = false.
Proof. unfold is_free. rewrite zget_zeros. apply Z.testbit_0_l. Qed.

Lemma howmany_bits x : 0 <= x < 2 ^ 30 -> 0 <= howmany x NBBY /\ x <= 8 * howmany x NBBY.
Proof.
  intros Hx. unfold howmany, NBBY. change (s32 (8 - 1)) with 7.
  rewrite (s32_small (x + 7)) by (unfold in_s32; zify_pow; lia).
  rewrite Z.quot_div_nonneg by lia.
  assert (0 <= (x + 7) / 8 < 2 ^ 30) by (split; [apply Z.div_pos; lia|apply Z.div_lt_upper_bound; zify_pow; lia]).
  rewrite s32_small by (unfold in_s32; zify_pow; lia). dlia.
Qed.

Section Fresh.
Context (sb : sblock) (Ht : group_tables sb).
#[local] Abbreviation FPB := (fs_frag sb).
#[local] Abbreviation g := (sb_geo sb).

Let Hg : wf_geometry g := gt_wf sb Ht.

Lemma group_weight_none w map : (forall i, is_free map i = false) -> group_weight g w map = 0.
Proof using Ht.
  intros Hm. unfold group_weight. transitivity (zsum (fun _ => 0) (seqZ 0 (nblocks g))).
  - apply zsum_ext. intros b _. apply (blk_weight_empty g Hg). auto.
  - induction (seqZ 0 (nblocks g)); [done|]. unfold zsum in *. simpl. lia.
Qed.

Lemma pos_weight_none pos map x : (forall i, is_free map i = false) -> pos_weight g pos map x = 0.
Proof using Ht.
  intros Hm. unfold pos_weight. transitivity (zsum (fun _ => 0) (seqZ 0 (nblocks g))).
  - apply zsum_ext. intros b _. rewrite (blk_weight_empty g Hg) by auto. by case_match.
  - induction (seqZ 0 (nblocks g)); [done|]. unfold zsum in *. simpl. lia.
Qed.

(** The tables by cylinder have an entry for every fragment. *)
Lemma pos_inside b :
  0 <= b < fs_fpg g ->
  0 <= cbtocylno g b < fs_cpg sb /\ 0 <= rpos_index g b < fs_cpg sb * fs_nrpos sb.
Proof using Ht.
  intros Hb. destruct (wg_cyl g Hg) as (Hs & Hn & Hp). destruct (gt_rpos sb Ht) as [Hr Hps].
  pose proof (gt_nspf sb Ht) as Hf. pose proof (gt_spc sb Ht) as Hspc.
  assert (0 <= cbtocylno g b < fs_cpg sb) as Hc.
  { unfold cbtocylno, NSPF. split; [apply Z.div_pos; nia|]. apply Z.div_lt_upper_bound; [lia|]. nia. }
  split; [done|]. unfold rpos_index.
  assert (0 <= cbtorpos g b < fs_nrpos sb); [|nia]. unfold cbtorpos.
  match goal with |- context [?x mod fs_nsect g] =>
    match x with _ + _ => pose proof (Z.mod_pos_bound x (fs_nsect g) Hn) as Hx; set (y := x mod fs_nsect g) in * end end.
  split; [apply Z.div_pos; nia|]. apply Z.div_lt_upper_bound; nia.
Qed.

Lemma cpg_frags : (fs_cpg sb * fs_spc sb / fs_nspf sb)%int = fs_fpg g.
Proof using Ht.
  pose proof (gt_spc sb Ht) as E. pose proof (gt_max sb Ht) as Hm. pose proof (gt_nspf sb Ht) as Hn.
  destruct (wg_fpg g Hg) as [Hp _]. rewrite E.
  rewrite (s32_small (_ * _)) by (unfold in_s32; zify_pow; nia). rewrite Z.quot_mul by lia.
  apply s32_small. unfold in_s32. zify_pow. nia.
Qed.

Lemma cpg_blocks : (fs_cpg sb * fs_spc sb / NSPB sb)%int = fs_fpg g / FPB.
Proof using Ht.
  pose proof (gt_spc sb Ht) as E. pose proof (gt_max sb Ht) as Hm. pose proof (gt_nspf sb Ht) as Hn.
  pose proof (nblocks_fpg g Hg) as Hnb. unfold nblocks in Hnb. pose proof (frag_pos g Hg) as HF.
  destruct (wg_fpg g Hg) as [Hp _]. destruct (wg_fragshift g Hg) as [Hs1 Hs2]. rewrite E. unfold NSPB.
  rewrite Z.shiftl_mul_pow2, <- Hs2 by done.
  set (q := fs_fpg g / FPB) in *. assert (0 < q) as Hq by nia. rewrite <- Hnb in *.
  replace (q * FPB * fs_nspf sb) with (q * (fs_nspf sb * FPB)) in * by lia.
  assert (0 < fs_nspf sb * FPB) as Hb by nia.
  rewrite (s32_small (fs_nspf sb * FPB)) by (unfold in_s32; zify_pow; nia).
  rewrite (s32_small (q * (fs_nspf sb * FPB))) by (unfold in_s32; zify_pow; nia).
  rewrite Z.quot_mul by lia. apply s32_small. unfold in_s32. zify_pow. nia.
Qed.

(** ** The empty group *)

Lemma empty_building cylno nd : 0 <= nd <= fs_fpg sb -> building g (empty_group sb cylno nd).
Proof using Ht.
  intros Hnd. pose proof (frag_pos g Hg) as HF. pose proof (gt_max sb Ht) as Hm. pose proof (gt_nspf sb Ht) as Hn.
  destruct (wg_fpg g Hg) as [Hp _]. destruct (howmany_bits (fs_fpg g)) as [Hh1 Hh2]; [nia|].
  destruct (gt_contig sb Ht) as [Hc1 Hc2]. unfold FS_MAXCONTIG in Hc2.
  assert (0 <= nd / FPB <= fs_fpg g / FPB) as Hq
    by (split; [apply Z.div_pos; lia|apply Z.div_le_mono; lia]).
  assert (fs_fpg g / FPB <= fs_fpg g) as Hq' by (apply Z.div_le_upper_bound; nia).
  destruct (howmany_bits (fs_fpg g / FPB)) as [Hk1 Hk2]; [nia|].
  constructor.
  - constructor; cbn -[repeat Z.to_nat]; try done.
    + constructor; cbn -[repeat Z.to_nat].
      * apply Forall_forall. intros x Hx. apply list_elem_of_In, repeat_spec in Hx as ->. done.
      * rewrite cpg_frags, zlen_zeros by lia. lia.
      * intros i _. apply zeros_free.
    + lia.
    + symmetry. apply group_weight_none. intros i. apply zeros_free.
    + intros b Hb. rewrite !zlen_zeros; [|pose proof (gt_cpg sb Ht); destruct (gt_rpos sb Ht); nia..].
      apply (pos_inside b). lia.
    + intros x _. rewrite zget_zeros. symmetry. apply (pos_weight_none (cbtocylno g)). intros i. apply zeros_free.
    + intros x _. rewrite zget_zeros.
      match goal with |- _ = s16 ?p => assert (p = 0) as ->; [|done] end.
      apply (pos_weight_none (rpos_index g)). intros i. apply zeros_free.
  - constructor; cbn -[repeat Z.to_nat].
    + done.
    + symmetry. apply group_weight_none. intros i. apply zeros_free.
    + intros k _. rewrite zget_zeros. symmetry. apply group_weight_none. intros i. apply zeros_free.
  - intros HS. unfold empty_group. rewrite (proj2 (Z.leb_gt (fs_contigsumsize sb) 0) HS). cbn -[repeat Z.to_nat].
    assert ((nd / FPB)%int = nd / FPB) as Ed.
    { rewrite Z.quot_div_nonneg by lia. apply s32_small. unfold in_s32. zify_pow. nia. }
    constructor; cbn -[repeat Z.to_nat]; rewrite ?Ed, ?cpg_blocks, ?zlen_zeros by lia; try lia.
    intros b _. rewrite zeros_free. symmetry. apply (avail_false g Hg _ b (b * FPB)); [|by apply Z.div_mul; lia|apply zeros_free].
    apply Forall_forall. intros x Hx. apply list_elem_of_In, repeat_spec in Hx as ->. done.
Qed.

(** ** The steps of the group *)

Lemma upto0 hi st : 0 < st -> (st | hi) -> 0 <= hi -> zlen (upto 0 hi st) * st = hi.
Proof using Type.
  intros Hst [q ->] Hq. unfold upto, zlen. rewrite length_fmap, length_seqZ.
  replace (q * st - 0 + st - 1) with (st - 1 + q * st) by lia. rewrite Z.div_add, Z.div_small by lia. nia.
Qed.

Lemma built_lower c0 cylno dl c :
  built g c0 (fun _ => false) c -> (FPB | dl) -> 0 <= dl -> dl + FPB <= cg_ndblk c0 ->
  built g c0 (fun i => (0 <? cylno) && in_range 0 dl i) (lower_space sb cylno dl c).
Proof using Ht.
  intros Hc Hd H0 Hn. pose proof (frag_pos g Hg) as HF. unfold lower_space.
  destruct (0 <? cylno); [|done].
  apply (built_ext g _ (fun i => in_range (0 * FPB) (zlen (upto (0 * FPB) dl FPB) * FPB) i || false)).
  - intros i. rewrite orb_false_r, upto0 by (done || lia). done.
  - apply (built_blocks g Hg sb c0 (fun _ => false) c 0 dl); try done. lia.
Qed.

(** The whole blocks from [first] on, and what is left after them. *)
Lemma blocks_end first nd :
  0 <= first <= nd -> let n := zlen (upto first (nd - FPB + 1) FPB) in
  0 <= n /\ first + FPB * n <= nd < first + FPB * n + FPB.
Proof using Ht.
  intros Hf. pose proof (frag_pos g Hg) as HF. unfold upto, zlen. rewrite length_fmap, length_seqZ.
  replace (nd - FPB + 1 - first + FPB - 1) with (nd - first) by lia.
  pose proof (Z.div_pos (nd - first) FPB ltac:(lia) ltac:(lia)).
  pose proof (Z.div_mod (nd - first) FPB ltac:(lia)). pose proof (Z.mod_pos_bound (nd - first) FPB ltac:(lia)). nia.
Qed.

Lemma built_upper c0 f du nd c :
  built g c0 f c -> 0 <= du -> (du + FPB - 1) / FPB * FPB <= nd -> cg_ndblk c0 = nd -> nd <= fs_fpg sb ->
  (forall i, du / FPB * FPB <= i -> f i = false) ->
  built g c0 (fun i => in_range du (nd - du) i || f i) (upper_space sb du nd c).
Proof using Ht.
  intros Hc Hdu Hfirst En Hnd Hf. pose proof (frag_pos g Hg) as HF. pose proof (nblocks_bound g Hg) as Hnb.
  pose proof (Z.div_mod du FPB ltac:(lia)) as Hdm. pose proof (Z.mod_pos_bound du FPB ltac:(lia)) as Hmp.
  assert (du <= fs_fpg sb < 2 ^ 30) as Hdb.
  { pose proof (Z.div_mod (du + FPB - 1) FPB ltac:(lia)). pose proof (Z.mod_pos_bound (du + FPB - 1) FPB ltac:(lia)).
    pose proof (gt_max sb Ht). pose proof (gt_nspf sb Ht). split; [lia|nia]. }
  unfold upper_space. rewrite Z.rem_mod_nonneg by lia.
  set (first := if du mod FPB =? 0 then du else s32 (s32 (du + FPB) - du mod FPB)).
  assert (du <= first < du + FPB /\ (du mod FPB = 0 -> first = du) /\
          (du mod FPB <> 0 -> first = du + FPB - du mod FPB)) as Hfb.
  { unfold first. destruct (Z.eqb_spec (du mod FPB) 0) as [E0|E0]; [lia|].
    rewrite (s32_small (du + FPB)) by (unfold in_s32; zify_pow; lia).
    rewrite s32_small by (unfold in_s32; zify_pow; lia). lia. }
  assert (first = (du + FPB - 1) / FPB * FPB) as Efirst.
  { destruct (Z.eq_dec (du mod FPB) 0) as [E0|E0].
    - rewrite <- (Z.div_unique (du + FPB - 1) FPB (du / FPB) (FPB - 1)) by lia. lia.
    - rewrite <- (Z.div_unique (du + FPB - 1) FPB (du / FPB + 1) (du mod FPB - 1)) by lia. lia. }
  clearbody first. set (b0 := (du + FPB - 1) / FPB) in *.
  set (c1 := if du mod FPB =? 0 then c else _).
  assert (built g c0 (fun i => in_range du (first - du) i || f i) c1) as B1.
  { unfold c1. destruct (Z.eqb_spec (du mod FPB) 0) as [E0|E0].
    - apply (built_ext g c0 f); [|done]. intros i. assert (in_range du (first - du) i = false) as ->; [|done].
      apply not_true_iff_false. rewrite in_range_spec. lia.
    - replace first with (du + (FPB - du mod FPB)) by lia.
      apply (built_ext g c0 (fun i => in_range du (FPB - du mod FPB) i || f i)).
      { intros i. f_equal. f_equal. lia. }
      apply (built_frags g Hg c0 f c (du / FPB)); try done; try lia. apply Z.div_pos; lia. }
  clearbody c1. destruct (blocks_end first nd ltac:(lia)) as [Hn0 Hn]. set (l := upto first (nd - FPB + 1) FPB) in *.
  assert (built g c0 (fun i => in_range first (zlen l * FPB) i || (in_range du (first - du) i || f i))
            (fold_left (add_block sb) l c1)) as B2.
  { unfold l. rewrite Efirst in *. apply (built_blocks g Hg sb); try done; try nia.
    intros i Hi. rewrite Hf by nia. rewrite orb_false_r. apply not_true_iff_false. rewrite in_range_spec. lia. }
  set (c2 := fold_left (add_block sb) l c1) in *. clearbody c2. set (d := first + FPB * zlen l) in *.
  destruct (Z.ltb_spec d nd) as [Hlt|Hge].
  - replace (upto d nd 1) with (upto d (d + (nd - d)) 1) by (f_equal; lia).
    apply (built_ext g c0 (fun i => in_range d (nd - d) i || (in_range first (zlen l * FPB) i || (in_range du (first - du) i || f i)))).
    { intros i. rewrite !orb_assoc. f_equal. apply eq_true_iff_eq. rewrite !orb_true_iff, !in_range_spec. lia. }
    apply (built_frags g Hg c0 _ c2 (b0 + zlen l)); try done; try nia.
    intros i Hi. rewrite Hf by nia. rewrite orb_false_r. apply not_true_iff_false.
    rewrite orb_true_iff, !in_range_spec. nia.
  - apply (built_ext g c0 (fun i => in_range first (zlen l * FPB) i || (in_range du (first - du) i || f i))); [|done].
    intros i. rewrite !orb_assoc. f_equal. apply eq_true_iff_eq. rewrite !orb_true_iff, !in_range_spec. lia.
Qed.

(** ** The whole group *)

(** What [initcg] promises of group [cylno]. *)
Record fresh_group (cylno dl du nd : Z) (c : cg) : Prop := {
  fg_blocks : wf_blocks g c;
  fg_frags : wf_frags g c;
  fg_cgx : cg_cgx c = cylno;
  fg_ndblk : cg_ndblk c = nd;
  fg_free : forall i, is_free (cg_blksfree c) i = in_range du (nd - du) i || (0 <? cylno) && in_range 0 dl i;
  fg_ndir : cs_ndir (cg_cs c) = 0;
  fg_nifree : cs_nifree (cg_cs c) = s32 (fs_ipg sb - if cylno =? 0 then 2 else 0);
  fg_inodes : forall i, is_free (cg_inosused c) i = (cylno =? 0) && in_range 0 2 i;
  fg_inolen : zlen (cg_inosused c) = howmany (fs_ipg sb) NBBY;
  fg_niblk : cg_niblk c = s16 (fs_ipg sb);
  fg_irotor : cg_irotor c = 0 }.

Lemma inode_space_same cylno c :
  building g c -> building g (inode_space sb cylno c).
Proof using Type.
  intros Hc. unfold inode_space. destruct (cylno =? 0).
  - by apply (building_ext g c).
  - by apply (building_ext g c).
Qed.

Lemma inode_space_inodes cylno nd (c := inode_space sb cylno (empty_group sb cylno nd)) :
  0 < howmany (fs_ipg sb) NBBY ->
  cg_cgx c = cylno /\ cg_ndblk c = nd /\ cs_ndir (cg_cs c) = 0 /\
  cs_nifree (cg_cs c) = s32 (fs_ipg sb - if cylno =? 0 then 2 else 0) /\
  (forall i, is_free (cg_inosused c) i = (cylno =? 0) && in_range 0 2 i) /\
  (forall k, zget (cg_clustersum c) k = 0) /\
  zlen (cg_inosused c) = howmany (fs_ipg sb) NBBY /\ cg_niblk c = s16 (fs_ipg sb) /\ cg_irotor c = 0.
Proof using Type.
  intros Hi. unfold c, inode_space. change (upto 0 2 1) with [0; 1].
  assert (forall k, zget (if negb (fs_contigsumsize sb <=? 0) then repeat 0 (Z.to_nat (fs_contigsumsize sb + 1)) else []) k = 0) as Hs.
  { intros k. case_match; [apply zget_zeros|]. unfold zget. by case_match. }
  destruct (cylno =? 0); cbn -[repeat Z.to_nat s32 setbit in_range].
  - repeat split; [|intros i|exact Hs|].
    + by rewrite s32_add, <- Z.add_assoc, s32_add.
    + rewrite !setbit_set by done.
      rewrite bit_set_free by (unfold in_map; rewrite zlen_bit_set, zlen_zeros; lia).
      rewrite bit_set_free by (unfold in_map; rewrite zlen_zeros; lia). rewrite zeros_free, orb_false_r.
      apply eq_true_iff_eq. rewrite orb_true_iff, in_range_spec, !Z.eqb_eq. lia.
    + rewrite !setbit_set, !zlen_bit_set by done. apply zlen_zeros. lia.
  - repeat split; [|intros i; apply zeros_free|exact Hs|apply zlen_zeros; lia]. f_equal. lia.
Qed.

Lemma build_group_fresh cylno dl du nd :
  group_space sb cylno = (dl, du, nd) -> room sb dl du nd -> 0 <= cylno ->
  0 < howmany (fs_ipg sb) NBBY -> fresh_group cylno dl du nd (build_group sb cylno).
Proof using Ht.
  intros Egs [[R1 R2] R3 R4 R5] Hcyl Hipg. pose proof (frag_pos g Hg) as HF.
  destruct (inode_space_inodes cylno nd Hipg) as (I1 & I2 & I3 & I4 & I5 & I6 & I7 & I8 & I9).
  unfold build_group. rewrite Egs. set (c0 := inode_space sb cylno (empty_group sb cylno nd)) in *.
  pose proof (Z.div_mod (du + FPB - 1) FPB ltac:(lia)) as Hdm.
  pose proof (Z.mod_pos_bound (du + FPB - 1) FPB ltac:(lia)) as Hmp.
  assert (dl + FPB <= nd /\ dl <= du / FPB * FPB) as [Hdl Hdl'].
  { destruct R2 as [q ->]. assert (q + 1 <= (du + FPB - 1) / FPB) by (apply Z.div_le_lower_bound; lia).
    assert (q <= du / FPB) by (apply Z.div_le_lower_bound; lia). nia. }
  assert (built g c0 (fun _ => false) c0) as B0.
  { constructor; [|done|].
    - apply inode_space_same, empty_building. lia.
    - intros i. unfold c0, inode_space. destruct (cylno =? 0); apply zeros_free. }
  clearbody c0.
  pose proof (built_lower c0 cylno dl c0 B0 R2 R1 ltac:(lia)) as B1.
  apply (built_upper c0 _ du nd) in B1 as [B1 (S1 & S2 & S3 & S4 & S5 & S6 & S7 & S8 & S9 & S10 & S11) B3];
    [|lia|done|done|done|].
  2:{ intros i Hi. apply andb_false_intro2, not_true_iff_false. rewrite in_range_spec. lia. }
  set (c := upper_space sb du nd _) in *. clearbody c.
  assert (wf_blocks g (cluster_space sb c) /\ wf_frags g (cluster_space sb c)) as [Hw Hf].
  { unfold cluster_space. destruct (Z.ltb_spec 0 (fs_contigsumsize sb)) as [HS|HS].
    - apply (building_clusters g Hg sb c eq_refl HS B1). intros k _. by rewrite S9.
    - destruct B1 as [W1 W2 _]. split; [|done]. destruct W1 as [M W2' W3 W4 W5 W6 _].
      constructor; try done. intros ?. lia. }
  unfold cluster_space in *. constructor; [done|done|..]; destruct (0 <? fs_contigsumsize sb); cbn; try congruence;
    intros i; rewrite ?B3, ?S4; auto.
Qed.

End Fresh.
