(* ===== verification/NewfsSuper.v ===== *)
(** The superblock newfs writes: from the options to the geometry the
    handler relies on, and the room in every group. *)

From S2P Require Import Prelude Bitmap Superblock Newfs NewfsLayout InitCg NewfsGroup NewfsCg.
Local Open Scope bffs_scope.

(** ** Options

    What mkfs does not check itself: the drive is one newfs.c describes, with
    sectors of at least 512 bytes, and groups stay below 1 GB. *)
Record good_options (o : frontend) : Prop := {
  go_fssize : fssize o < 2 ^ 30;
  go_tracks : ntracks o < 2 ^ 13;
  go_sectors : nsectors o < 2 ^ 14 /\ nsectors o <= nphyssectors o;
  go_spc : 0 < secpercyl o;
  go_sectorsize : 512 <= sectorsize o /\ sectorsize o = 2 ^ Z.log2 (sectorsize o);
  go_bsize : bsize o <= MAXBSIZE;
  go_cpg : 0 < cpg o;
  go_group : (cpg o + bsize o / sectorsize o) * (secpercyl o * sectorsize o) < 2 ^ 30;
  go_density : 0 < density o;
  go_nrpos : 0 < nrpos o;
  go_areas : 0 < bbsize o <= 65536 /\ 0 < sbsize o <= 65536 }.

(** The sizes as powers of two. *)
Record sizes (o : frontend) (A B D : Z) : Prop := {
  sz_fsize : fsize o = 2 ^ A;
  sz_bsize : bsize o = 2 ^ B;
  sz_sector : sectorsize o = 2 ^ D;
  sz_order : 9 <= D <= A /\ A <= B <= 14 /\ 12 <= B <= A + 3 }.

Lemma check_sizes_ok o :
  good_options o -> check_sizes o = ok tt ->
  sizes o (Z.log2 (fsize o)) (Z.log2 (bsize o)) (Z.log2 (sectorsize o)) /\
  0 < fssize o /\ 0 < ntracks o /\ 0 < nsectors o.
Proof.
  intros [G1 G2 G3 G4 [G5 G5'] G6 G7 G8 G9 G10 G11] H. unfold check_sizes in H. unfold MAXBSIZE in G6.
  apply check_ok in H as [H1%Z.ltb_lt H]. apply check_ok in H as [H2%Z.ltb_lt H]. apply check_ok in H as [H3%Z.ltb_lt H].
  apply check_ok in H as [H4 H]. apply check_ok in H as [H5 H]. apply check_ok in H as [H6%Z.leb_le H].
  apply check_ok in H as [H7%Z.leb_le H]. apply check_ok in H as [H8%Z.leb_le H]. apply check_ok in H as [H9%Z.leb_le _].
  unfold MINBSIZE, MAXFRAG in *. apply POWEROF2_spec in H4; [|zify_pow; lia]. apply POWEROF2_spec in H5; [|zify_pow; lia].
  assert (9 <= Z.log2 (sectorsize o)) as L1 by (apply (Z.log2_le_mono 512); lia).
  pose proof (Z.log2_le_mono (sectorsize o) (fsize o) ltac:(lia)) as L2.
  pose proof (Z.log2_le_mono (fsize o) (bsize o) ltac:(lia)) as L3.
  assert (Z.log2 (bsize o) <= 14) as L4 by (apply (Z.log2_le_mono _ 16384); lia).
  assert (12 <= Z.log2 (bsize o)) as L5 by (apply (Z.log2_le_mono 4096); lia).
  split; [|done]. split; [done|done|done|]. repeat split; try lia.
  rewrite H5, shift_of_pow, H4, shiftr_pow in H9 by lia.
  destruct (Z.le_gt_cases (Z.log2 (bsize o)) (Z.log2 (fsize o) + 3)) as [|Hgt]; [done|exfalso].
  pose proof (Z.pow_le_mono_r 2 4 (Z.log2 (bsize o) - Z.log2 (fsize o)) ltac:(lia) ltac:(lia)). lia.
Qed.

Lemma pow_bounds a lo hi : lo <= a <= hi -> 0 <= lo -> 2 ^ lo <= 2 ^ a <= 2 ^ hi.
Proof. intros H Hl. split; apply Z.pow_le_mono_r; lia. Qed.

Section Sizes.
Context (o : frontend) (A B D : Z) (Hz : sizes o A B D).

Lemma o_fshift_eq : o_fshift o = A.
Proof using Hz. destruct Hz as [E1 _ _ ?]. unfold o_fshift. by rewrite E1, shift_of_pow by lia. Qed.

Lemma o_frag_eq : o_frag o = 2 ^ (B - A).
Proof using Hz. destruct Hz as [_ E2 _ ?]. unfold o_frag. by rewrite o_fshift_eq, E2, shiftr_pow by lia. Qed.

Lemma o_fragshift_eq : o_fragshift o = B - A.
Proof using Hz. destruct Hz as [_ _ _ ?]. unfold o_fragshift. by rewrite o_frag_eq, shift_of_pow by lia. Qed.

Lemma small_pow a : 0 <= a <= 14 -> in_s32 (2 ^ a).
Proof using Type. intros Ha. destruct (pow_bounds a 0 14) as [? ?]; [lia|lia|]. unfold in_s32. zify_pow. lia. Qed.

Lemma o_nspf_eq : o_nspf o = 2 ^ (A - D).
Proof using Hz.
  destruct Hz as [E1 _ E3 ?]. unfold o_nspf. rewrite E1, E3, quot_pow by lia. apply s32_small, small_pow. lia.
Qed.

Lemma o_fsbtodb_eq : o_fsbtodb o = A - D.
Proof using Hz. destruct Hz as [_ _ _ ?]. unfold o_fsbtodb. by rewrite o_nspf_eq, shift_of_pow by lia. Qed.

Lemma o_inopb_eq : o_inopb o = 2 ^ (B - 7).
Proof using Hz.
  destruct Hz as [_ E2 _ ?]. unfold o_inopb, sizeof_dinode. rewrite E2. change 128 with (2 ^ 7).
  rewrite quot_pow by lia. apply s32_small, small_pow. lia.
Qed.

Lemma o_inopf_eq : Z.shiftr (o_inopb o) (o_fragshift o) = 2 ^ (A - 7).
Proof using Hz.
  destruct Hz as [_ _ _ ?]. rewrite o_inopb_eq, o_fragshift_eq, shiftr_pow by lia. f_equal. lia.
Qed.

Lemma o_nspb_eq : s32 (Z.shiftl (o_nspf o) (o_fragshift o)) = 2 ^ (B - D).
Proof using Hz.
  destruct Hz as [_ _ _ ?]. rewrite o_nspf_eq, o_fragshift_eq, Z.shiftl_mul_pow2, <- Z.pow_add_r by lia.
  replace (A - D + (B - A)) with (B - D) by lia. apply s32_small, small_pow. lia.
Qed.

Context (Ho : good_options o) (Hnt : 0 < ntracks o) (Hns : 0 < nsectors o).

(** The offsets inside a group. *)
Lemma o_offsets :
  (o_frag o | o_sblkno o) /\ 0 < o_sblkno o < o_cblkno o /\ o_iblkno o = o_cblkno o + o_frag o /\
  (o_frag o | o_cblkno o) /\ o_iblkno o <= 1024.
Proof using Hz Ho.
  destruct Ho as [G1 G2 G3 G4 G5 G6 G7 G8 G9 G10 [G11 G12]]. destruct Hz as [E1 E2 E3 E4].
  pose proof o_frag_eq as Ef. destruct (pow_bounds (B - A) 0 3) as [F1 F2]; [lia|lia|].
  destruct (pow_bounds A 9 14) as [F3 F4]; [lia|lia|]. change (2 ^ 0) with 1 in *. change (2 ^ 3) with 8 in *.
  change (2 ^ 9) with 512 in *. change (2 ^ 14) with 16384 in *.
  rewrite <- Ef in F1, F2. rewrite <- E1 in F3, F4. unfold o_iblkno, o_cblkno, o_sblkno.
  rewrite (s32_small (bbsize o + sbsize o)) by (unfold in_s32; zify_pow; lia).
  destruct (howmany_bounds (bbsize o + sbsize o) (fsize o)) as [H1 H2]; [lia|lia|zify_pow; lia|].
  set (x := howmany (bbsize o + sbsize o) (fsize o)) in *.
  destruct (howmany_bounds (sbsize o) (fsize o)) as [H3 H4]; [lia|lia|zify_pow; lia|].
  set (y := howmany (sbsize o) (fsize o)) in *.
  assert (0 < x <= 257 /\ 0 < y <= 129) as [Hx Hy] by nia.
  destruct (roundup_bounds x (o_frag o)) as [R1 R2]; [lia|lia|zify_pow; lia|].
  destruct (roundup_bounds y (o_frag o)) as [R3 R4]; [lia|lia|zify_pow; lia|].
  rewrite (s32_small (roundup x (o_frag o) + _)) by (unfold in_s32; zify_pow; lia).
  rewrite s32_small by (unfold in_s32; zify_pow; lia).
  repeat split; try lia; try done. by apply Z.divide_add_r.
Qed.

Lemma o_offsets_pos : 0 < o_sblkno o < 1024 /\ 0 < o_iblkno o <= 1024.
Proof using Hz Ho.
  destruct o_offsets as (_ & O2 & O3 & _ & O5). pose proof o_frag_eq as Ef. pose proof Hz as [_ _ _ ?].
  pose proof (Z.pow_pos_nonneg 2 (B - A)). lia.
Qed.

(** The skew of the groups. *)
Lemma o_skew : exists m, 0 <= m <= 13 /\ o_cgmask o = - 2 ^ m /\ (o_frag o | o_cgoffset o) /\
  0 <= o_cgoffset o < 2 ^ 14 + 8.
Proof using Hz Ho Hnt Hns.
  destruct Ho as [G1 G2 G3 G4 G5 G6 G7 G8 G9 G10 G11]. destruct Hz as [E1 E2 E3 E4].
  destruct (cgmask_spec (ntracks o)) as (m & Hm & Em); [lia|]. exists m. split; [done|]. split; [done|].
  pose proof o_frag_eq as Ef. destruct (pow_bounds (B - A) 0 3) as [F1 F2]; [lia|lia|]. rewrite <- Ef in F1, F2.
  pose proof o_nspf_eq as En. destruct (pow_bounds (A - D) 0 5) as [F3 F4]; [lia|lia|]. rewrite <- En in F3, F4.
  change (2 ^ 0) with 1 in *. change (2 ^ 3) with 8 in *. change (2 ^ 5) with 32 in *. change (2 ^ 14) with 16384 in *.
  unfold o_cgoffset. destruct (howmany_bounds (nsectors o) (o_nspf o)) as [H1 H2]; [lia|lia|zify_pow; lia|].
  destruct (roundup_bounds (howmany (nsectors o) (o_nspf o)) (o_frag o)) as [R1 R2]; [lia|lia|zify_pow; lia|].
  split; [done|lia].
Qed.

Lemma o_choice_bounds :
  choice_bounds o (o_fragshift o) (o_nspf o) (2 ^ (B - D)) (o_inopb o) (2 ^ (A - 7)) (o_iblkno o) (o_cgoffset o) (o_cgmask o).
Proof using Hz Ho Hnt Hns.
  pose proof Ho as [G1 G2 G3 G4 [G5 _] G6 G7 G8 G9 G10 G11]. pose proof Hz as [E1 E2 E3 E4].
  destruct o_offsets as (O1 & O2 & O3 & O4 & O5). destruct o_skew as (m & Hm & Em & _ & Hcg).
  pose proof o_frag_eq as Ef. destruct (pow_bounds (B - A) 0 3) as [F1 F2]; [lia|lia|]. rewrite <- Ef in F1, F2.
  destruct (pow_bounds (B - D) 0 5) as [F3 F4]; [lia|lia|]. destruct (pow_bounds (A - 7) 2 7) as [F5 F6]; [lia|lia|].
  destruct (pow_bounds (B - 7) 2 7) as [F7 F8]; [lia|lia|]. destruct (pow_bounds m 0 13) as [F9 F10]; [lia|lia|].
  destruct (pow_bounds (A - D) 0 5) as [F11 F12]; [lia|lia|].
  change (2 ^ 0) with 1 in *. change (2 ^ 3) with 8 in *. change (2 ^ 5) with 32 in *. change (2 ^ 2) with 4 in *.
  change (2 ^ 7) with 128 in *. change (2 ^ 13) with 8192 in *. change (2 ^ 14) with 16384 in *.
  constructor; try done; try lia.
  - split; [apply o_nspb_eq|lia].
  - rewrite o_nspf_eq, E3, <- Z.pow_add_r by lia. split; [lia|]. replace (A - D + D) with A by lia.
    destruct (pow_bounds A 0 14); [lia|lia|]. unfold MAXBSIZE. change (2 ^ 14) with 16384 in *. lia.
  - replace (2 ^ (B - D)) with (bsize o / sectorsize o); [done|]. rewrite E2, E3. symmetry. apply Z.pow_sub_r; lia.
  - rewrite o_inopf_eq, o_inopb_eq. lia.
  - rewrite Em. unfold Z.lnot. rewrite Z.opp_involutive. change (2 ^ 29) with 536870912. nia.
Qed.

End Sizes.

(** ** The numbers of a group *)

Lemma o_super_fields o c i ncg ncyl size (sb := o_super o c i ncg ncyl size) :
  sb_geo sb = o_geometry o c i ncg /\ fs_size sb = size /\ fs_cpg sb = c /\ fs_csaddr sb = n_cgdmin sb 0 /\
  fs_cssize sb = fragroundup (fsize o) (o_fmask o) (s32 (ncg * sizeof_csum)).
Proof. unfold sb, o_super. destruct (rotational _ _ _ _) as [[[[? ?] ?] ?] ?]. done. Qed.

(** The fragments the start of group [k] is moved by. *)
Definition skew (g : geometry) (k : Z) : Z := fs_cgoffset g * Z.land k (Z.lnot (fs_cgmask g)).

Lemma cylinders_bounds o size :
  0 <= size * o_nspf o < 2 ^ 30 -> 0 < secpercyl o < 2 ^ 21 -> 0 <= size -> let n := cylinders o size in
  size * o_nspf o <= n * secpercyl o /\ (0 < n -> (n - 1) * secpercyl o < size * o_nspf o).
Proof.
  intros HT Hs _. unfold cylinders. change (2 ^ 30) with 1073741824 in *. change (2 ^ 21) with 2097152 in *.
  generalize dependent (size * o_nspf o). generalize dependent (secpercyl o). intros s Hs T HT.
  rewrite (s32_small T) by (unfold in_s32; zify_pow; lia).
  rewrite Z.quot_div_nonneg by lia. pose proof (Z.div_mod T s ltac:(lia)) as Hdm.
  pose proof (Z.mod_pos_bound T s ltac:(lia)) as Hmp. assert (0 <= T / s) as Hq0 by (apply Z.div_pos; lia).
  assert (T / s <= T) as Hq1 by (apply Z.div_le_upper_bound; nia). generalize dependent (T / s). intros q Hdm Hq0 Hq1.
  rewrite (s32_small q), (s32_small (q * s)), (s32_small (q + 1)) by (unfold in_s32; zify_pow; lia).
  destruct (Z.ltb_spec (q * s) T); split; intros; nia.
Qed.

Lemma groups_bounds n c :
  0 < c < 2 ^ 31 -> 0 <= n < 2 ^ 31 - 1 -> let m := groups n c in n <= m * c /\ (m - 1) * c <= n - 1.
Proof.
  intros Hc Hn. unfold groups. rewrite Z.quot_div_nonneg, Z.rem_mod_nonneg by lia.
  pose proof (Z.div_mod n c ltac:(lia)) as Hdn. pose proof (Z.mod_pos_bound n c ltac:(lia)) as Hmn.
  assert (0 <= n / c <= n) as Hqn by (split; [apply Z.div_pos; lia|apply Z.div_le_upper_bound; nia]).
  generalize dependent (n / c). intros q Hdn Hqn.
  rewrite (s32_small q), (s32_small (q + 1)) by (unfold in_s32; zify_pow; lia).
  destruct (Z.eqb_spec (n mod c) 0); nia.
Qed.

#[local] Opaque cylinders groups o_nspf o_fsbtodb o_frag o_sblkno o_cblkno o_iblkno o_cgoffset o_cgmask o_inopb s32.

Section Numbers.
Context (o : frontend) (A B D : Z) (Hz : sizes o A B D) (Ho : good_options o).
Context (Hnt : 0 < ntracks o) (Hns : 0 < nsectors o).
Context (c : Z) (Hc : 0 < c <= cpg o + 2 ^ (B - D)) (Hspc : (2 ^ (B - D) | c * secpercyl o)).

Lemma cylinder_sectors : 0 < secpercyl o < 2 ^ 21 /\ 0 < c * secpercyl o < 2 ^ 21.
Proof using Hz Ho Hc.
  pose proof Ho as [G1 G2 G3 G4 [G5 _] G6 G7 G8 G9 G10 G11]. pose proof Hz as [E1 E2 E3 E4].
  assert (2 ^ (B - D) = bsize o / sectorsize o) as E by (rewrite E2, E3; apply Z.pow_sub_r; lia).
  rewrite <- E in G8. pose proof (Z.pow_pos_nonneg 2 (B - D) ltac:(lia) ltac:(lia)).
  change (2 ^ 30) with 1073741824 in *. change (2 ^ 21) with 2097152.
  assert (secpercyl o * 512 <= secpercyl o * sectorsize o) by nia. nia.
Qed.

Context (i : Z) (Hi : 0 <= i < 2 ^ 30 + 128) (Hino : (o_inopb o | i)).

Lemma group_numbers ncg (g := o_geometry o c i ncg) :
  fs_fpg g * fs_nspf g = c * secpercyl o /\ (fs_frag g | fs_fpg g) /\ 0 < fs_fpg g < 2 ^ 21 /\
  fs_dblkno g = o_iblkno o + i / 2 ^ (A - 7) /\ (fs_frag g | fs_dblkno g) /\ o_iblkno o <= fs_dblkno g < 2 ^ 29 /\
  0 < fs_nspf g <= 32.
Proof using Hz Ho Hc Hspc Hi Hino.
  pose proof Hz as [E1 E2 E3 E4]. destruct cylinder_sectors as [_ Hcs]. destruct (o_offsets o A B D Hz Ho) as (O1 & O2 & O3 & O4 & O5).
  unfold g, o_geometry. cbn [fs_fpg fs_nspf fs_frag fs_dblkno].
  rewrite (o_inopf_eq o A B D Hz), (o_nspf_eq o A B D Hz) in *. pose proof (o_frag_eq o A B D Hz) as Ef.
  pose proof (o_inopb_eq o A B D Hz) as Ei. rewrite Ei in Hino.
  destruct (pow_bounds (A - D) 0 5) as [F1 F2]; [lia|lia|]. destruct (pow_bounds (A - 7) 2 7) as [F3 F4]; [lia|lia|].
  assert (2 ^ (B - D) = 2 ^ (A - D) * 2 ^ (B - A)) as Eb by (rewrite <- Z.pow_add_r by lia; f_equal; lia).
  assert (2 ^ (B - 7) = 2 ^ (A - 7) * 2 ^ (B - A)) as Ek by (rewrite <- Z.pow_add_r by lia; f_equal; lia).
  rewrite <- Ef in Eb, Ek. change (2 ^ 0) with 1 in *. change (2 ^ 5) with 32 in *. change (2 ^ 2) with 4 in *.
  change (2 ^ 21) with 2097152 in *. change (2 ^ 30) with 1073741824 in *. change (2 ^ 29) with 536870912.
  set (N := 2 ^ (A - D)) in *. set (P := 2 ^ (A - 7)) in *. set (F := o_frag o) in *. rewrite Eb in Hspc.
  rewrite (s32_small (c * secpercyl o)) by (unfold in_s32; zify_pow; lia).
  destruct Hspc as [q Hq]. replace (c * secpercyl o) with (q * F * N) in * by lia.
  rewrite Z.quot_mul by lia. assert (0 < q * F < 2097152) as Hqf by nia.
  rewrite (s32_small (q * F)) by (unfold in_s32; zify_pow; lia).
  rewrite (Z.quot_div_nonneg i P) by lia. destruct Hino as [r Hr]. rewrite Ek in Hr.
  replace i with (r * F * P) in * by lia. rewrite Z.div_mul by lia.
  assert (0 <= r * F < 536869888) as Hrf by nia.
  rewrite (s32_small (r * F)), s32_small by (unfold in_s32; zify_pow; lia).
  split; [done|]. split; [by exists q|]. split; [done|]. split; [done|].
  split; [|lia]. rewrite O3. apply Z.divide_add_r; [apply Z.divide_add_r; [done|apply Z.divide_refl]|by exists r].
Qed.

(** Disk, cylinders and groups. *)
Lemma disk_numbers (size := Z.shiftr (fssize o) (o_fsbtodb o)) (ncyl := cylinders o size) (ncg := groups ncyl c) :
  0 < fssize o -> 1 <= ncyl -> forall k, let g := o_geometry o c i k in
  0 < ncg /\ 0 <= size < 2 ^ 30 /\ fs_fpg g * (ncg - 1) < size /\ 0 < ncyl <= ncg * c /\ ncyl * secpercyl o < 2 ^ 31 /\
  (ncg - 1) * c <= ncyl - 1.
Proof using Hz Ho Hc Hspc Hi Hino.
  intros Hfs Hnc k g. pose proof Ho as [G1 _ _ _ _ _ _ _ _ _ _]. pose proof Hz as [E1 E2 E3 E4].
  destruct cylinder_sectors as [Hs Hcs]. destruct (group_numbers k) as (N1 & _ & N3 & _ & _ & _ & N7). fold g in N1, N3, N7.
  assert (fs_nspf g = o_nspf o) as Eg by done. rewrite Eg in *. clear Eg.
  pose proof (o_nspf_eq o A B D Hz) as En. change (2 ^ 30) with 1073741824 in *. change (2 ^ 21) with 2097152 in *.
  assert (0 <= size /\ size * o_nspf o <= fssize o) as [Hs0 Hsn].
  { unfold size. rewrite (o_fsbtodb_eq o A B D Hz), Z.shiftr_div_pow2, En by lia. split; [apply Z.div_pos; lia|].
    rewrite Z.mul_comm. apply Z.mul_div_le. lia. }
  destruct (cylinders_bounds o size) as [Hn1 Hn2]; [lia|lia|lia|].
  fold ncyl in Hn1, Hn2. specialize (Hn2 ltac:(lia)). clearbody size ncyl.
  destruct (groups_bounds ncyl c) as [Hm1 Hm2]; [lia|zify_pow; nia|]. fold ncg in Hm1, Hm2. clearbody ncg.
  generalize dependent (fs_fpg g). generalize dependent (o_nspf o). intros N HN _ HsN fpg N1 N3.
  assert (0 < ncg) as Hm by nia.
  repeat split; try (zify_pow; nia).
Qed.

(** ** Addresses *)

Lemma skew_bounds ncg k (g := o_geometry o c i ncg) :
  0 <= k -> (fs_frag g | skew g k) /\ 0 <= skew g k < 2 ^ 28.
Proof using Hz Ho Hnt Hns.
  clear Hi Hino Hspc Hc. intros Hk. destruct (o_skew o A B D Hz Ho Hnt Hns) as (m & Hm & Em & Hd & Hb).
  unfold skew, g, o_geometry. cbn [fs_cgoffset fs_cgmask fs_frag]. rewrite Em.
  replace (Z.lnot (- 2 ^ m)) with (Z.ones m) by (rewrite Z.ones_equiv; unfold Z.lnot; lia).
  rewrite Z.land_ones by lia. pose proof (Z.mod_pos_bound k (2 ^ m) ltac:(apply Z.pow_pos_nonneg; lia)) as Hmod.
  destruct (pow_bounds m 0 13) as [F1 F2]; [lia|lia|]. change (2 ^ 13) with 8192 in *. change (2 ^ 14) with 16384 in *.
  change (2 ^ 28) with 268435456. split; [|nia]. by apply Z.divide_mul_l.
Qed.

(** The largest skew of the groups up to [k] is that of [MIN(~cgmask, k)]. *)
Lemma skew_max ncg k j (g := o_geometry o c i ncg) :
  0 <= j <= k -> skew g j <= skew g (Z.min (Z.lnot (fs_cgmask g)) k).
Proof using Hz Ho Hnt Hns.
  clear Hi Hino Hspc Hc. intros Hj. destruct (o_skew o A B D Hz Ho Hnt Hns) as (m & Hm & Em & Hd & Hb).
  unfold skew, g, o_geometry. cbn [fs_cgoffset fs_cgmask]. rewrite Em.
  replace (Z.lnot (- 2 ^ m)) with (Z.ones m) by (rewrite Z.ones_equiv; unfold Z.lnot; lia).
  rewrite !Z.land_ones, Z.ones_equiv by lia. set (p := 2 ^ m) in *.
  assert (0 < p) as Hp by (apply Z.pow_pos_nonneg; lia).
  apply Z.mul_le_mono_nonneg_l; [lia|]. rewrite (Z.mod_small (Z.min _ _)) by lia.
  pose proof (Z.mod_pos_bound j p Hp). pose proof (Z.mod_le j p ltac:(lia) Hp). lia.
Qed.

Lemma group_addresses ncg k (g := o_geometry o c i ncg) :
  0 <= k -> fs_fpg g * k < 2 ^ 30 ->
  n_cgbase g k = fs_fpg g * k /\ n_cgstart g k = fs_fpg g * k + skew g k /\
  n_cgsblock g k = fs_fpg g * k + skew g k + fs_sblkno g /\ n_cgdmin g k = fs_fpg g * k + skew g k + fs_dblkno g.
Proof using Hz Ho Hnt Hns Hc Hspc Hi Hino.
  intros Hk Hb. destruct (skew_bounds ncg k Hk) as [_ Hs]. destruct (group_numbers ncg) as (_ & _ & N3 & _ & _ & N6 & _).
  destruct (o_offsets o A B D Hz Ho) as (_ & O2 & O3 & _ & O5). fold g in Hs, N3, N6.
  assert (fs_sblkno g = o_sblkno o) as Es by done. rewrite <- Es in O2. change (2 ^ 30) with 1073741824 in *. change (2 ^ 28) with 268435456 in *.
  change (2 ^ 29) with 536870912 in *. assert (0 <= fs_fpg g * k) by nia.
  pose proof (s32_small (fs_fpg g * k) ltac:(unfold in_s32; zify_pow; lia)) as E0.
  unfold n_cgsblock, n_cgdmin, n_cgstart, n_cgbase. fold (skew g k). rewrite E0.
  rewrite (s32_small (skew g k)) by (unfold in_s32; zify_pow; lia).
  rewrite (s32_small (fs_fpg g * k + skew g k)) by (unfold in_s32; zify_pow; lia).
  destruct (o_offsets_pos o A B D Hz Ho).
  rewrite (s32_small (_ + fs_sblkno g)), (s32_small (_ + fs_dblkno g)) by (unfold in_s32; zify_pow; lia). done.
Qed.

(** ** What the handler assumes of the geometry *)

Section Fits.
Context (ncg : Z) (Hncg : 0 < ncg).
#[local] Abbreviation g := (o_geometry o c i ncg).
Context (Hlast : fs_fpg g * (ncg - 1) < 2 ^ 30) (Hpos : 0 < i).
Context (Hin : forall k, 0 <= k < ncg -> skew g k + fs_dblkno g <= fs_fpg g).

Lemma o_geometry_wf : wf_geometry g.
Proof using Hz Ho Hnt Hns Hc Hspc Hi Hino Hncg Hlast Hpos Hin.
  destruct (group_numbers ncg) as (N1 & N2 & N3 & N4 & N5 & N6 & N7).
  destruct (o_offsets o A B D Hz Ho) as (O1 & O2 & O3 & O4 & O5). pose proof Hz as [E1 E2 E3 E4].
  pose proof (o_frag_eq o A B D Hz) as Ef. pose proof (o_fragshift_eq o A B D Hz) as Es.
  destruct (pow_bounds (B - A) 0 3) as [F1 F2]; [lia|lia|]. rewrite <- Ef in F1, F2.
  assert (INOPF g = 2 ^ (A - 7)) as EP by apply (o_inopf_eq o A B D Hz).
  destruct (go_sectors o Ho) as [G1 G2]. pose proof (go_spc o Ho).
  change (2 ^ 0) with 1 in *. change (2 ^ 3) with 8 in *. change (2 ^ 21) with 2097152 in *.
  constructor; cbn [o_geometry fs_frag fs_fragshift fs_ncg fs_sblkno fs_cblkno fs_iblkno fs_inopb fs_ipg
    fs_spc fs_nsect fs_npsect].
  - rewrite Ef. unfold valid_fpb. assert (B - A = 0 \/ B - A = 1 \/ B - A = 2 \/ B - A = 3) as Hd by lia.
    destruct Hd as [->|[->|[->| ->]]]; cbn; auto.
  - rewrite Es. split; [lia|exact Ef].
  - exact Hncg.
  - split; [lia|exact N2].
  - change (2 ^ 30) with 1073741824 in *. zify_pow. nia.
  - lia.
  - lia.
  - exists (A - 7). split; [lia|exact EP].
  - rewrite (o_inopb_eq o A B D Hz), Ef, EP, <- Z.pow_add_r by lia. f_equal. lia.
  - split; [exact Hpos|exact Hino].
  - rewrite N4, EP. apply Z.le_refl.
  - intros k Hk. destruct (skew_bounds ncg k ltac:(lia)) as [_ Hs]. pose proof (Hin k Hk) as Hk'. unfold skew in Hk', Hs. lia.
  - lia.
Qed.

Context (ncyl size : Z).
#[local] Abbreviation sb := (o_super o c i ncg ncyl size).

Lemma o_super_tables : group_tables sb.
Proof using Hz Ho Hnt Hns Hc Hspc Hi Hino Hncg Hlast Hpos Hin.
  destruct (group_numbers ncg) as (N1 & N2 & N3 & N4 & N5 & N6 & N7).
  destruct (o_super_fields o c i ncg ncyl size) as (F1 & F2 & F3 & _).
  destruct cylinder_sectors as [_ Hcs].
  destruct (go_sectors o Ho) as [G1 G2]. pose proof (go_nrpos o Ho). change (2 ^ 21) with 2097152 in *.
  constructor; rewrite ?F1, ?F3.
  - apply o_geometry_wf.
  - lia.
  - lia.
  - symmetry. exact N1.
  - rewrite N1. change (2 ^ 30) with 1073741824. lia.
  - split; [done|exact G2].
  - change (0 <= o_contigsumsize o <= FS_MAXCONTIG). unfold o_contigsumsize, FS_MAXCONTIG.
    destruct (Z.ltb_spec 1 (maxcontig o)); lia.
Qed.

(** The space of group [k], without the summary area of group 0. *)
Lemma o_group_space k (nd := Z.min (fs_fpg g) (size - fs_fpg g * k)) :
  0 <= k < ncg -> 0 <= nd ->
  group_space sb k = (skew g k + fs_sblkno g,
    s32 (skew g k + fs_dblkno g + if k =? 0 then howmany (fs_cssize sb) (fs_fsize sb) else 0), nd).
Proof using Hz Ho Hnt Hns Hc Hspc Hi Hino Hncg Hlast.
  clear Hpos Hin. intros Hk Hnd. destruct (o_super_fields o c i ncg ncyl size) as (F1 & F2 & _).
  destruct (group_numbers ncg) as (_ & _ & N3 & _ & _ & N6 & _). change (2 ^ 21) with 2097152 in *.
  assert (0 <= fs_fpg g * k <= fs_fpg g * (ncg - 1)) as Hb by nia.
  destruct (group_addresses ncg k) as (A1 & A2 & A3 & A4); [lia|lia|]. destruct (skew_bounds ncg k ltac:(lia)) as [_ Hs].
  destruct (o_offsets o A B D Hz Ho) as (_ & O2 & _ & _ & O5).
  change (2 ^ 30) with 1073741824 in *. change (2 ^ 28) with 268435456 in *. change (2 ^ 29) with 536870912 in *.
  unfold group_space. rewrite F1, F2, A1, A3, A4.
  rewrite (s32_small (fs_fpg g * k + fs_fpg g)) by (unfold in_s32; zify_pow; lia).
  replace (fs_fpg g * k + skew g k + fs_sblkno g - fs_fpg g * k) with (skew g k + fs_sblkno g) by lia.
  replace (fs_fpg g * k + skew g k + fs_dblkno g - fs_fpg g * k) with (skew g k + fs_dblkno g) by lia.
  destruct (o_offsets_pos o A B D Hz Ho) as [P1 P2]. assert (fs_sblkno g = o_sblkno o) as Es by done.
  rewrite (s32_small (skew g k + fs_sblkno g)), (s32_small (skew g k + fs_dblkno g))
    by (unfold in_s32; zify_pow; lia).
  f_equal; [f_equal|].
  - destruct (k =? 0); [done|]. rewrite Z.add_0_r. symmetry. apply s32_small. unfold in_s32. zify_pow. lia.
  - unfold nd in *. destruct (Z.ltb_spec size (fs_fpg g * k + fs_fpg g)); rewrite s32_small; unfold in_s32; zify_pow; lia.
Qed.

(** Whole blocks in front of the superblock copy, and room after the
    inodes: [sum] is the summary area of group 0. *)
Lemma o_room k sum (nd := Z.min (fs_fpg g) (size - fs_fpg g * k)) :
  0 <= k < ncg -> 0 <= sum -> (sum = 0 \/ (skew g k + fs_dblkno g + sum + fs_frag g - 1) / fs_frag g * fs_frag g <= nd) ->
  skew g k + fs_dblkno g <= nd ->
  room sb (skew g k + fs_sblkno g) (skew g k + fs_dblkno g + sum) nd.
Proof using Hz Ho Hnt Hns Hc Hspc Hi Hino.
  clear Hpos Hin Hlast Hncg. intros Hk Hsum Hfit Hnd. destruct (o_super_fields o c i ncg ncyl size) as (F1 & _).
  destruct (group_numbers ncg) as (_ & N2 & N3 & _ & N5 & N6 & _). destruct (skew_bounds ncg k ltac:(lia)) as [S1 S2].
  destruct (o_offsets o A B D Hz Ho) as (O1 & O2 & O3 & _). destruct (o_offsets_pos o A B D Hz Ho) as [P1 P2].
  assert (fs_sblkno g = o_sblkno o) as Es by done. assert (fs_frag g = o_frag o) as Ef by done.
  assert (0 < fs_frag g) as HF by (rewrite Ef, (o_frag_eq o A B D Hz); pose proof Hz as [_ _ _ ?]; apply Z.pow_pos_nonneg; lia).
  constructor; rewrite ?F1.
  - split; [lia|]. apply Z.divide_add_r; [exact S1|]. rewrite Es, Ef. exact O1.
  - lia.
  - destruct Hfit as [->|Hfit]; [|exact Hfit]. rewrite Z.add_0_r.
    destruct (Z.divide_add_r _ _ _ S1 N5) as [q Hq]. rewrite Hq in *.
    replace (q * fs_frag g + fs_frag g - 1) with (fs_frag g - 1 + q * fs_frag g) by lia.
    rewrite Z.div_add, Z.div_small by lia. lia.
  - unfold nd. lia.
Qed.

End Fits.

End Numbers.

(** ** From success to room *)

(** The summary area behind the inodes of group 0 ends inside the group. *)
Definition summary_fits (sb : sblock) : Prop :=
  let sum := howmany (fs_cssize sb) (fs_fsize sb) in
  0 <= sum /\ (fs_dblkno sb + sum + fs_frag sb - 1) / fs_frag sb * fs_frag sb <= Z.min (fs_fpg sb) (fs_size sb).

Definition groups_fit (sb : sblock) : Prop :=
  forall k, 0 <= k < fs_ncg sb -> (k = 0 -> summary_fits sb) ->
  exists dl du nd, group_space sb k = (dl, du, nd) /\ room sb dl du nd /\ dl = skew sb k + fs_sblkno sb /\ du = skew sb k + fs_dblkno sb +
    (if k =? 0 then howmany (fs_cssize sb) (fs_fsize sb) else 0) /\ nd = Z.min (fs_fpg sb) (fs_size sb - fs_fpg sb * k).

#[local] Opaque choose_groups check_sizes o_super n_cgdmin n_cgbase.

Section Success.
Context (o : frontend) (A B D : Z) (Hz : sizes o A B D) (Ho : good_options o).
Context (Hnt : 0 < ntracks o) (Hns : 0 < nsectors o) (Hfs : 0 < fssize o).
Context (c : Z) (Hc : 0 < c <= cpg o + 2 ^ (B - D)) (Hspc : (2 ^ (B - D) | c * secpercyl o)).
Context (i : Z) (Hi : 0 <= i < 2 ^ 30 + 128) (Hino : (o_inopb o | i)) (Hpos : 0 < i).

Lemma super_fits ncg ncyl size (sb := o_super o c i ncg ncyl size) :
  0 < ncg -> fs_fpg (o_geometry o c i ncg) * (ncg - 1) < 2 ^ 30 -> 0 <= size < 2 ^ 31 ->
  (forall k, 0 <= k < ncg -> skew (o_geometry o c i ncg) k + fs_dblkno (o_geometry o c i ncg) <=
    Z.min (fs_fpg (o_geometry o c i ncg)) (size - fs_fpg (o_geometry o c i ncg) * k)) ->
  group_tables sb /\ groups_fit sb.
Proof using Hz Ho Hnt Hns Hc Hspc Hi Hino Hpos.
  intros Hncg Hlast Hsize Hin. destruct (o_super_fields o c i ncg ncyl size) as (F1 & F2 & _). fold sb in F1, F2.
  assert (forall k, 0 <= k < ncg -> skew (o_geometry o c i ncg) k + fs_dblkno (o_geometry o c i ncg) <=
    fs_fpg (o_geometry o c i ncg)) as Hin' by (intros k Hk; specialize (Hin k Hk); lia).
  split; [by apply (o_super_tables o A B D)|]. unfold groups_fit. rewrite F1. intros k Hk Hsum.
  assert (fs_ncg (o_geometry o c i ncg) = ncg) as En by done. rewrite En in Hk. pose proof (Hin k Hk) as Hink.
  destruct (group_numbers o A B D Hz Ho c Hc Hspc i Hi Hino ncg) as (_ & _ & N3 & _ & _ & N6 & _).
  destruct (skew_bounds o A B D Hz Ho Hnt Hns c i ncg k ltac:(lia)) as [_ Hs].
  destruct (o_offsets_pos o A B D Hz Ho) as [_ P2].
  set (sum := if k =? 0 then howmany (fs_cssize sb) (fs_fsize (o_geometry o c i ncg)) else 0).
  assert (0 <= sum /\ (sum = 0 \/ (skew (o_geometry o c i ncg) k + fs_dblkno (o_geometry o c i ncg) + sum +
    fs_frag (o_geometry o c i ncg) - 1) / fs_frag (o_geometry o c i ncg) * fs_frag (o_geometry o c i ncg) <=
    Z.min (fs_fpg (o_geometry o c i ncg)) (size - fs_fpg (o_geometry o c i ncg) * k))) as [Hsum0 Hfit].
  { unfold sum. destruct (Z.eqb_spec k 0) as [->|]; [|lia]. destruct (Hsum eq_refl) as [U1 U2].
    rewrite F1, F2 in U2. rewrite F1 in U1. split; [exact U1|]. right.
    assert (skew (o_geometry o c i ncg) 0 = 0) as -> by (unfold skew; rewrite Z.land_0_l; lia).
    rewrite Z.add_0_l, Z.mul_0_r, Z.sub_0_r. exact U2. }
  set (g := o_geometry o c i ncg) in *.
  assert (skew g k + fs_dblkno g + sum < 2 ^ 21) as Hdu.
  { destruct Hfit as [E0|Hfit]; [lia|].
    assert (0 < fs_frag g) as HF.
    { assert (fs_frag g = o_frag o) as Ef by done. rewrite Ef, (o_frag_eq o A B D Hz). pose proof Hz as [_ _ _ ?]. apply Z.pow_pos_nonneg; lia. }
    pose proof (Z.div_mod (skew g k + fs_dblkno g + sum + fs_frag g - 1) (fs_frag g) ltac:(lia)).
    pose proof (Z.mod_pos_bound (skew g k + fs_dblkno g + sum + fs_frag g - 1) (fs_frag g) HF). lia. }
  pose proof (o_group_space o A B D Hz Ho Hnt Hns c Hc Hspc i Hi Hino ncg Hncg Hlast ncyl size k Hk) as Egs.
  fold g sb in Egs. rewrite F1 in Egs. fold sum in Egs. specialize (Egs ltac:(lia)).
  change (2 ^ 21) with 2097152 in *. change (2 ^ 29) with 536870912 in *.
  rewrite s32_small in Egs by (unfold in_s32; zify_pow; lia).
  eexists _, _, _. split; [exact Egs|]. split; [|rewrite F2; split; [|split]; reflexivity].
  by apply (o_room o A B D Hz Ho Hnt Hns c Hc Hspc i Hi Hino ncg ncyl size k sum).
Qed.

Lemma div_le_self a b : 0 <= a -> 0 < b -> a / b <= a.
Proof using Type. clear. intros Ha Hb. apply Z.div_le_upper_bound; nia. Qed.

Lemma trimmed_size s N fpg q m :
  0 < N -> fpg * N = c * s -> 0 <= c * s -> m <= q -> fpg * m <= c * q * s / N.
Proof using Type.
  clear. intros HN E Hcs Hm. apply Z.div_le_lower_bound; [lia|].
  replace (N * (fpg * m)) with (c * s * m) by (rewrite <- E; lia).
  replace (c * q * s) with (c * s * q) by lia. by apply Z.mul_le_mono_nonneg_l.
Qed.

(** The last group is given up when its inodes do not fit. *)
Lemma last_group_fits ncg ncyl size sb (g := o_geometry o c i ncg) :
  0 < ncg -> fs_fpg g * (ncg - 1) < size -> 0 <= size < 2 ^ 30 ->
  0 < ncyl -> ncyl * secpercyl o < 2 ^ 31 -> (ncg - 1) * c <= ncyl - 1 ->
  (forall k, 0 <= k < ncg -> skew g k + fs_dblkno g < fs_fpg g) ->
  last_group o c i ncg ncyl size = ok sb -> group_tables sb /\ groups_fit sb.
Proof using Hz Ho Hnt Hns Hc Hspc Hi Hino Hpos.
  intros Hncg Hlast Hsize Hncyl Hcyl Hgc Hin H. pose proof Hz as [_ _ _ Hord].
  destruct (group_numbers o A B D Hz Ho c Hc Hspc i Hi Hino ncg) as (N1 & _ & N3 & _ & _ & _ & N7). fold g in N1, N3, N7.
  destruct (o_super_fields o c i ncg ncyl size) as (F1 & _). fold g in F1.
  destruct (cylinder_sectors o A B D Hz Ho c Hc) as [Hsp Hcs].
  change (2 ^ 30) with 1073741824 in *. change (2 ^ 21) with 2097152 in *.
  assert (0 <= fs_fpg g * (ncg - 1)) as Hl0 by nia. assert (ncg < 2 ^ 31) as Hncg31 by (zify_pow; nia).
  destruct (group_addresses o A B D Hz Ho Hnt Hns c Hc Hspc i Hi Hino ncg (ncg - 1)) as (A1 & _ & _ & A4);
    [lia|fold g; change (2 ^ 30) with 1073741824; lia|]. fold g in A1, A4.
  destruct (skew_bounds o A B D Hz Ho Hnt Hns c i ncg (ncg - 1) ltac:(lia)) as [_ Hs]. fold g in Hs.
  unfold last_group in H. rewrite F1 in H. rewrite (s32_small (ncg - 1)) in H by (unfold in_s32; zify_pow; lia).
  rewrite (Z.mul_comm (ncg - 1)), (s32_small (fs_fpg g * (ncg - 1))) in H by (unfold in_s32; zify_pow; lia).
  rewrite (s32_small (size - _)), A1, A4 in H by (unfold in_s32; zify_pow; lia).
  replace (fs_fpg g * (ncg - 1) + skew g (ncg - 1) + fs_dblkno g - fs_fpg g * (ncg - 1)) with
    (skew g (ncg - 1) + fs_dblkno g) in H by lia.
  pose proof (Hin (ncg - 1) ltac:(lia)) as Hinj. 
  destruct (group_numbers o A B D Hz Ho c Hc Hspc i Hi Hino ncg) as (_ & _ & _ & _ & _ & N6 & _). fold g in N6.
  destruct (o_offsets_pos o A B D Hz Ho) as [_ P2].
  rewrite (s32_small (skew g (ncg - 1) + fs_dblkno g)) in H by (unfold in_s32; zify_pow; lia).
  destruct (_ && _) eqn:E in H.
  - apply check_ok in H as [Hj H]. injection H as <-. apply andb_true_iff in E as [E1 E2].
    apply negb_true_iff, Z.eqb_neq in Hj.
    rewrite Z.rem_mod_nonneg in * by lia. pose proof (Z.div_mod ncyl c ltac:(lia)) as Hdm.
    pose proof (Z.mod_pos_bound ncyl c ltac:(lia)) as Hmp.
    assert (ncg - 1 <= ncyl / c) as Hq by (apply Z.div_le_lower_bound; lia).
    set (n := ncyl - ncyl mod c) in *. assert (n = c * (ncyl / c)) as En by (unfold n; lia).
    rewrite (s32_small n) by (unfold in_s32; zify_pow; nia).
    assert (0 <= n * secpercyl o < 2 ^ 31) as Hn by (unfold n in *; zify_pow; nia).
    rewrite (s32_small (n * secpercyl o)) by (unfold in_s32; zify_pow; lia).
    assert (fs_nspf g = o_nspf o) as Enspf by done. rewrite Enspf in *.
    rewrite Z.quot_div_nonneg by lia.
    assert (fs_fpg g * (ncg - 1) <= n * secpercyl o / o_nspf o <= n * secpercyl o) as Hsz.
    { split; [rewrite En; apply trimmed_size; lia|apply div_le_self; lia]. }
    rewrite (s32_small (n * secpercyl o / o_nspf o)) by (unfold in_s32; zify_pow; lia).
    apply super_fits; [lia| |lia|].
    + change (fs_fpg g * (ncg - 1 - 1) < 2 ^ 30). change (2 ^ 30) with 1073741824. nia.
    + intros k Hk. change (skew g k + fs_dblkno g <= Z.min (fs_fpg g) (n * secpercyl o / o_nspf o - fs_fpg g * k)).
      pose proof (Hin k ltac:(lia)). assert (fs_fpg g * (k + 1) <= fs_fpg g * (ncg - 1)) by (apply Z.mul_le_mono_nonneg_l; lia). lia.
  - injection H as <-. apply super_fits; [done|fold g; change (2 ^ 30) with 1073741824; lia|zify_pow; lia|].
    fold g. intros k Hk. pose proof (Hin k Hk). destruct (Z.eq_dec k (ncg - 1)) as [->|Hne].
    + apply andb_false_iff in E as [E%Z.ltb_ge|E%Z.ltb_ge]; lia.
    + assert (fs_fpg g * (k + 1) <= fs_fpg g * (ncg - 1)) by (apply Z.mul_le_mono_nonneg_l; lia). lia.
Qed.

End Success.

Lemma last_group_shape o c i ncg ncyl size sb :
  last_group o c i ncg ncyl size = ok sb -> exists ncg' ncyl' size', sb = o_super o c i ncg' ncyl' size'.
Proof.
  unfold last_group. destruct (_ && _); intros H.
  - apply check_ok in H as [_ H]. injection H as <-. eauto.
  - injection H as <-. eauto.
Qed.

#[local] Opaque last_group.

Lemma mkfs_super_fits o sb :
  good_options o -> mkfs_super o = ok sb -> 0 < fs_ipg sb -> group_tables sb /\ groups_fit sb.
Proof.
  intros Ho H Hpos. unfold mkfs_super in H. apply rbind_ok in H as ([] & Hsz & H).
  destruct (check_sizes_ok o Ho Hsz) as (Hz & Hfs & Hnt & Hns).
  set (A := Z.log2 (fsize o)) in *. set (B := Z.log2 (bsize o)) in *. set (D := Z.log2 (sectorsize o)) in *.
  apply rbind_ok in H as ([c i] & Hch & H).
  destruct (choose_groups_ok _ _ _ _ _ _ _ _ _ _ _ _ _ (o_choice_bounds o A B D Hz Ho Hnt Hns) Hch) as (Hc & Hspc & Hino & Hi).
  apply check_ok in H as [Hcyl%Z.leb_le H]. apply check_ok in H as [Hin%Z.ltb_lt H].
  destruct (last_group_shape _ _ _ _ _ _ _ H) as (? & ? & ? & E).
  assert (0 < i) as Hi0. { rewrite E in Hpos. destruct (o_super_fields o c i x x0 x1) as (F & _). rewrite F in Hpos. exact Hpos. }
  clear E Hpos. set (size := Z.shiftr (fssize o) (o_fsbtodb o)) in *. set (ncyl := cylinders o size) in *.
  set (ncg := groups ncyl c) in *. destruct (o_super_fields o c i ncg ncyl size) as (F1 & _). rewrite F1 in Hin.
  destruct (disk_numbers o A B D Hz Ho c Hc Hspc i Hi Hino Hfs Hcyl ncg) as (M1 & M2 & M3 & M4 & M5 & M6).
  fold size ncyl ncg in M1, M2, M3, M4, M5, M6. clearbody size ncyl ncg. set (g := o_geometry o c i ncg) in *.
  destruct (group_numbers o A B D Hz Ho c Hc Hspc i Hi Hino ncg) as (_ & _ & N3 & _ & _ & N6 & _). fold g in N3, N6.
  destruct (o_skew o A B D Hz Ho Hnt Hns) as (m & Hm & Em & _).
  assert (0 <= Z.lnot (o_cgmask o)) as Hmask by (rewrite Em; unfold Z.lnot; pose proof (Z.pow_pos_nonneg 2 m); lia).
  change (2 ^ 30) with 1073741824 in *. change (2 ^ 21) with 2097152 in *. change (2 ^ 29) with 536870912 in *.
  assert (ncg <= 1073741824) as Hncg by nia. rewrite (s32_small (ncg - 1)) in Hin by (unfold in_s32; zify_pow; lia).
  set (top := Z.min (Z.lnot (o_cgmask o)) (ncg - 1)) in *.
  assert (0 <= top <= ncg - 1) as Htop by lia.
  assert (fs_fpg g * top <= fs_fpg g * (ncg - 1)) as Hft by (apply Z.mul_le_mono_nonneg_l; lia).
  destruct (group_addresses o A B D Hz Ho Hnt Hns c Hc Hspc i Hi Hino ncg top) as (A1 & _ & _ & A4);
    [lia|fold g; change (2 ^ 30) with 1073741824; lia|]. fold g in A1, A4.
  destruct (skew_bounds o A B D Hz Ho Hnt Hns c i ncg top ltac:(lia)) as [_ Hs]. fold g in Hs.
  destruct (o_offsets_pos o A B D Hz Ho) as [_ P2]. change (2 ^ 28) with 268435456 in *.
  rewrite A1, A4 in Hin.
  replace (fs_fpg g * top + skew g top + fs_dblkno g - fs_fpg g * top) with (skew g top + fs_dblkno g) in Hin by lia.
  rewrite s32_small in Hin by (unfold in_s32; zify_pow; lia).
  refine (last_group_fits o A B D Hz Ho Hnt Hns c Hc Hspc i Hi Hino Hi0 ncg ncyl size sb M1 M3 M2 _ M5 M6 _ H); [lia|].
  fold g. intros k Hk. pose proof (skew_max o A B D Hz Ho Hnt Hns c i ncg (ncg - 1) k ltac:(lia)) as Hmax. fold g in Hmax.
  assert (fs_cgmask g = o_cgmask o) as Eg by done. rewrite Eg in Hmax. fold top in Hmax. lia.
Qed.

Lemma mkfs_super_shape o sb :
  good_options o -> mkfs_super o = ok sb ->
  fs_bsize sb = fs_fsize sb * fs_frag sb /\ 512 <= fs_fsize sb <= 16384 /\ 0 <= fs_ipg sb /\
  (0 < fs_ipg sb -> 32 <= fs_ipg sb) /\ fs_contigsumsize sb = o_contigsumsize o.
Proof.
  intros Ho H. unfold mkfs_super in H. apply rbind_ok in H as ([] & Hsz & H).
  destruct (check_sizes_ok o Ho Hsz) as (Hz & Hfs & Hnt & Hns).
  set (A := Z.log2 (fsize o)) in *. set (B := Z.log2 (bsize o)) in *. set (D := Z.log2 (sectorsize o)) in *.
  apply rbind_ok in H as ([c i] & Hch & H).
  destruct (choose_groups_ok _ _ _ _ _ _ _ _ _ _ _ _ _ (o_choice_bounds o A B D Hz Ho Hnt Hns) Hch) as (Hc & Hspc & Hino & Hi).
  apply check_ok in H as [_ H]. apply check_ok in H as [_ H].
  destruct (last_group_shape _ _ _ _ _ _ _ H) as (ncg & ncyl & size & ->).
  destruct (o_super_fields o c i ncg ncyl size) as (F & _). rewrite F.
  cbn [o_geometry fs_bsize fs_fsize fs_frag fs_ipg fs_contigsumsize].
  rewrite (o_frag_eq o A B D Hz). rewrite (o_inopb_eq o A B D Hz) in Hino. destruct Hz as [E1 E2 E3 E4].
  destruct (pow_bounds A 9 14) as [P1 P2]; [lia|lia|]. destruct (pow_bounds (B - 7) 5 7) as [P3 P4]; [lia|lia|].
  change (2 ^ 9) with 512 in *. change (2 ^ 14) with 16384 in *. change (2 ^ 5) with 32 in *.
  split; [rewrite E1, E2, <- Z.pow_add_r by lia; f_equal; lia|]. split; [lia|]. split; [lia|]. split; [|done].
  intros Hpos. pose proof (Z.divide_pos_le _ _ Hpos Hino). lia.
Qed.
