(* ===== verification/NewfsMount.v ===== *)
(** The groups [initcg] leaves behind, taken together: summaries and totals
    agree with the maps.  The root directory newfs makes ([alloc] takes a block of group 0 and gives
    back the fragments the directory does not need, [iput] marks the inode),
    and newfs as a whole: the file system [mkfs] leaves on the disk satisfies
    the invariants the handler starts from. *)

From S2P Require Import Prelude Bitmap Superblock Addresses Cg CgSearch Runs AllocWp Accounting Clusters Summary FragSummary AllocSpec FragAlloc.
From S2P Require Import FfsSubr InodeSpec Newfs InitCg NewfsLayout NewfsGroup NewfsCg NewfsSuper.
Local Open Scope bffs_scope.

(** ** The groups together *)

(** The file system the handler finds: newfs leaves the flags zero, so the
    64 bit totals are not used. *)
Definition mounted (N : newfs) : fs := Fs (nf_sb N) (nf_cstotal N) csum0 (nf_fscs N) 0 0 0.

Lemma upto0_seqZ n : upto 0 n 1 = seqZ 0 n.
Proof.
  unfold upto. replace ((n - 0 + 1 - 1) / 1) with n by (rewrite Z.div_1_r; lia).
  etrans; [|apply list_fmap_id]. apply list_fmap_ext. intros i x _. cbn. lia.
Qed.

Lemma zsum_cons f x l : zsum f (x :: l) = f x + zsum f l.
Proof. done. Qed.

(** ** The loop over the groups *)

Definition sums (N : newfs) (l : list Z) (p : csum -> Z) : Z :=
  zsum (fun k => p (cg_cs (build_group (nf_sb N) k))) l.

(** [N'] has the groups [l] built, [N] is what there was before. *)
Record groups_built (N N' : newfs) (l : list Z) : Prop := {
  gb_sb : nf_sb N' = nf_sb N;
  gb_cg : forall k, k ∈ l -> nf_cg N' k = build_group (nf_sb N) k;
  gb_hdr : forall k, k ∈ l -> cg_magic (nf_hdr N' k) = CG_MAGIC;
  gb_len : zlen (nf_fscs N') = zlen (nf_fscs N);
  gb_fscs : forall k, k ∈ l -> 0 <= k < zlen (nf_fscs N) -> zget (nf_fscs N') k = cg_cs (build_group (nf_sb N) k);
  gb_rest : forall k, k ∉ l ->
    nf_cg N' k = nf_cg N k /\ nf_hdr N' k = nf_hdr N k /\ zget (nf_fscs N') k = zget (nf_fscs N) k;
  gb_total : forall T, nf_cstotal N = Csum (s32 (cs_ndir T)) (s32 (cs_nbfree T)) (s32 (cs_nifree T)) (s32 (cs_nffree T)) ->
    nf_cstotal N' = Csum (s32 (cs_ndir T + sums N l cs_ndir)) (s32 (cs_nbfree T + sums N l cs_nbfree))
      (s32 (cs_nifree T + sums N l cs_nifree)) (s32 (cs_nffree T + sums N l cs_nffree)) }.

Lemma group_header_magic sb k t : cg_magic (group_header sb k t) = CG_MAGIC.
Proof. unfold group_header. by destruct (fs_contigsumsize sb <=? 0). Qed.

Lemma initcg_ok N k utime N' :
  initcg N k utime = ok N' ->
  nf_sb N' = nf_sb N /\ nf_cstotal N' = csum_add (nf_cstotal N) (cg_cs (build_group (nf_sb N) k)) /\
  nf_fscs N' = zset (nf_fscs N) k (cg_cs (build_group (nf_sb N) k)) /\
  (forall j, nf_cg N' j = if j =? k then build_group (nf_sb N) k else nf_cg N j) /\
  (forall j, nf_hdr N' j = if j =? k then group_header (nf_sb N) k utime else nf_hdr N j).
Proof.
  unfold initcg. intros H. apply check_ok in H as [_ H]. destruct (group_space (nf_sb N) k) as [[dl du] nd].
  injection H as <-. done.
Qed.

#[local] Opaque build_group initcg.

Lemma initcgs_ok utime l : forall N N',
  NoDup l -> initcgs N l utime = ok N' -> groups_built N N' l.
Proof.
  induction l as [|k l IH]; intros N N' Hnd H; cbn [initcgs] in H.
  - injection H as <-. constructor; try done; try (intros k Hk; by apply not_elem_of_nil in Hk).
    intros T ->. unfold sums. cbn. by rewrite !Z.add_0_r.
  - apply NoDup_cons in Hnd as [Hk Hnd].
    apply rbind_ok in H as (N1 & H1 & H). apply initcg_ok in H1 as (E1 & E2 & E3 & E4 & E5).
    apply IH in H as [B1 B2 B3 B4 B5 B6 B7]; [|done]. unfold sums in *. rewrite E1 in *.
    constructor.
    + done.
    + intros j [->|Hj]%elem_of_cons; [|by apply B2]. destruct (B6 k Hk) as (-> & _ & _). by rewrite E4, Z.eqb_refl.
    + intros j [->|Hj]%elem_of_cons; [|by apply B3]. destruct (B6 k Hk) as (_ & -> & _). rewrite E5, Z.eqb_refl.
      apply group_header_magic.
    + by rewrite B4, E3, zlen_zset.
    + intros j Hj Hlen. rewrite E3, zlen_zset in B5. apply elem_of_cons in Hj as [->|Hj]; [|by apply B5].
      destruct (B6 k Hk) as (_ & _ & ->). by rewrite E3, zget_zset_eq.
    + intros j Hj. apply not_elem_of_cons in Hj as [Hne Hj]. destruct (B6 j Hj) as (-> & -> & ->).
      rewrite E4, E5, (proj2 (Z.eqb_neq j k) Hne), E3. split; [done|]. split; [done|]. by apply zget_zset_ne.
    + intros T HT.
      rewrite (B7 (Csum (cs_ndir T + cs_ndir (cg_cs (build_group (nf_sb N) k)))
        (cs_nbfree T + cs_nbfree (cg_cs (build_group (nf_sb N) k)))
        (cs_nifree T + cs_nifree (cg_cs (build_group (nf_sb N) k)))
        (cs_nffree T + cs_nffree (cg_cs (build_group (nf_sb N) k))))).
      * unfold sums. rewrite !zsum_cons. cbn [cs_ndir cs_nbfree cs_nifree cs_nffree]. by rewrite !Z.add_assoc.
      * rewrite E2, HT. unfold csum_add. cbn. by rewrite !s32_add.
Qed.

(** ** The file system before the root directory *)

(** What mkfs starts [initcg] with. *)
Definition blank (sb : sblock) (utime : Z) (V : Z -> Z -> Z) : newfs :=
  NewFs sb 0 csum0 (repeat csum0 (Z.to_nat (fs_ncg sb))) (fun _ => empty_group sb 0 0) (fun _ => group_header sb 0 0) V.

Section Fresh.
Context (sb : sblock) (Ht : group_tables sb) (Hfit : groups_fit sb) (Hsum : summary_fits sb).
Context (utime : Z) (V : Z -> Z -> Z) (N : newfs).
Context (HN : initcgs (blank sb utime V) (upto 0 (fs_ncg sb) 1) utime = ok N).

Let Hg : wf_geometry sb := gt_wf sb Ht.

Lemma ipg_bytes : fs_ipg sb < 2 ^ 30 -> 0 < howmany (fs_ipg sb) NBBY /\ fs_ipg sb <= 8 * howmany (fs_ipg sb) NBBY.
Proof using Ht.
  intros Hi. destruct (wg_ipg sb Hg) as [Hp _]. unfold NBBY. change (2 ^ 30) with 1073741824 in *.
  destruct (howmany_bounds (fs_ipg sb) 8) as [H1 H2]; [lia|lia|zify_pow; lia|]. lia.
Qed.

Lemma blank_built : groups_built (blank sb utime V) N (seqZ 0 (fs_ncg sb)).
Proof using HN.
  rewrite upto0_seqZ in HN. apply (initcgs_ok utime); [apply NoDup_seqZ|exact HN].
Qed.

Lemma fresh_sb : nf_sb N = sb.
Proof using HN. apply blank_built. Qed.

(** Group [k] on the disk. *)
Lemma fresh_groups k :
  fs_ipg sb < 2 ^ 30 -> 0 <= k < fs_ncg sb -> exists dl du nd,
  group_space sb k = (dl, du, nd) /\ room sb dl du nd /\ fresh_group sb k dl du nd (nf_cg N k) /\
  dl = skew sb k + fs_sblkno sb /\ du = skew sb k + fs_dblkno sb + (if k =? 0 then howmany (fs_cssize sb) (fs_fsize sb) else 0) /\
  nd = Z.min (fs_fpg sb) (fs_size sb - fs_fpg sb * k).
Proof using Ht Hfit Hsum HN.
  intros Hi Hk. destruct (Hfit k Hk (fun _ => Hsum)) as (dl & du & nd & E1 & E2 & E3). exists dl, du, nd.
  split; [done|]. split; [done|]. split; [|done].
  rewrite (gb_cg _ _ _ blank_built k) by (apply elem_of_seqZ; lia).
  apply (build_group_fresh sb Ht); [done|done|lia|]. by apply ipg_bytes.
Qed.

Lemma blank_len : zlen (nf_fscs N) = fs_ncg sb.
Proof using Ht HN.
  rewrite (gb_len _ _ _ blank_built). cbn -[Z.to_nat]. unfold zlen. rewrite repeat_length.
  pose proof (wg_ncg sb Hg). lia.
Qed.

Lemma fresh_totals : wf_totals (mounted N) (nf_cg N).
Proof using Ht HN.
  pose proof blank_built as [B1 B2 B3 B4 B5 B6 B7]. cbn [blank nf_sb] in B1.
  assert (forall p, sums (blank sb utime V) (seqZ 0 (fs_ncg sb)) p = total sb (nf_cg N) p) as Es.
  { intros p. apply zsum_ext. intros k Hk. by rewrite (B2 k Hk). }
  constructor; cbn [mounted fs_geo fs_csp fs_cstotal]; rewrite ?B1.
  - apply blank_len.
  - intros k Hk. rewrite B5, B2; [done|apply elem_of_seqZ; lia..|]. rewrite <- B4, blank_len. lia.
  - rewrite (B7 csum0) by done. cbn [csum0 cs_ndir cs_nbfree cs_nifree cs_nffree]. by rewrite !Z.add_0_l, !Es.
  - done.
Qed.

(** Nothing but the boot blocks, the inodes and the summaries is in use. *)
Lemma fresh_inv : fs_ipg sb < 2 ^ 30 -> fs_inv (mounted N) (nf_cg N).
Proof using Ht Hfit Hsum HN.
  intros Hi. pose proof fresh_sb as E. constructor; [constructor|].
  - cbn [mounted fs_geo]. by rewrite E.
  - cbn [mounted fs_geo]. rewrite E. intros k Hk. destruct (fresh_groups k Hi Hk) as (dl & du & nd & _ & _ & Hf & _). apply Hf.
  - apply fresh_totals.
  - destruct (fresh_groups 0 Hi) as (dl & du & nd & _ & [R1 R2 R3 R4] & Hf & _); [pose proof (wg_ncg sb Hg); lia|].
    rewrite (fg_free _ _ _ _ _ _ Hf). apply orb_false_iff. split; [|done]. apply not_true_iff_false.
    rewrite in_range_spec. lia.
  - cbn [mounted fs_geo]. rewrite E. intros k Hk. destruct (fresh_groups k Hi Hk) as (dl & du & nd & _ & _ & Hf & _). apply Hf.
Qed.

End Fresh.

(** ** A block taken *)

Definition take_block (sb : sblock) (c : cg) (d : Z) : cg :=
  let pos := cbtocylno sb d * fs_nrpos sb + cbtorpos sb d in
  Cg (cg_cgx c) (cg_niblk c) (cg_ndblk c) (csum_add_nbfree (cg_cs c) (-1)) (cg_irotor c) (cg_frsum c)
    (zset (cg_blktot c) (cbtocylno sb d) (s32 (zget (cg_blktot c) (cbtocylno sb d) - 1)))
    (zset (cg_blks c) pos (s16 (zget (cg_blks c) pos - 1)))
    (cg_inosused c) (clrblock (fs_frag sb) (cg_blksfree c) (fragstoblks sb d)) (cg_clustersum c)
    (if 0 <? fs_contigsumsize sb then clrbit (cg_clustersfree c) (fragstoblks sb d) else cg_clustersfree c)
    (cg_nclusterblks c).

Lemma clrbit_clr map i : 0 <= i -> clrbit map i = bit_clr map i.
Proof.
  intros Hi. unfold clrbit, bit_clr, NBBY.
  rewrite Z.quot_div_nonneg, Z.rem_mod_nonneg, Z.shiftr_div_pow2 by lia.
  change 7 with (Z.ones 3). by rewrite Z.land_ones by lia.
Qed.

Lemma clrblock_ffs F cp h : valid_fpb F -> clrblock F cp h = ffs_clrblock F cp h.
Proof. intros [->|[->|[->| ->]]]; reflexivity. Qed.

Lemma isblock_ffs F cp h : valid_fpb F -> isblock F cp h = ffs_isblock F cp h.
Proof. intros [->|[->|[->| ->]]]; reflexivity. Qed.

Section Taken.
Context (sb : sblock).
#[local] Abbreviation g := (sb_geo sb).
#[local] Abbreviation FPB := (fs_frag sb).
Context (Hg : wf_geometry g).

Lemma frag_number b : 0 <= b -> fragstoblks g (b * FPB) = b.
Proof using Hg.
  intros Hb. destruct (wg_fragshift g Hg) as [H1 H2]. pose proof (frag_pos g Hg). unfold fragstoblks.
  rewrite Z.shiftr_div_pow2, <- H2 by done. apply Z.div_mul. lia.
Qed.

Lemma block_in_bytes c b : wf_map c -> group_block g c b -> 0 <= b < 8 / FPB * zlen (cg_blksfree c).
Proof using Hg.
  intros [M1 M2 M3] [Hb Hi]. destruct (fpb_eight FPB (wg_frag g Hg)) as [H1 H2]. pose proof (frag_pos g Hg).
  split; [done|]. assert ((b + 1) * FPB <= 8 / FPB * zlen (cg_blksfree c) * FPB) by nia. nia.
Qed.

Lemma take_block_building c b :
  building g c -> group_block g c b -> (forall i, i / FPB = b -> is_free (cg_blksfree c) i = true) ->
  building g (take_block sb c (b * FPB)) /\ same_group c (take_block sb c (b * FPB)) /\
  forall i, is_free (cg_blksfree (take_block sb c (b * FPB))) i = negb (i / FPB =? b) && is_free (cg_blksfree c) i.
Proof using Hg.
  intros Hc Hb Hf. pose proof (frag_pos g Hg) as HF. pose proof (plain_wf g Hg) as Hg0.
  pose proof Hc as [Hbl Hfr Hcl]. pose proof (wb_map _ _ Hbl) as Hm. pose proof Hm as [M1 M2 M3].
  assert (b * FPB / FPB = b) as Hd by (apply Z.div_mul; lia).
  assert (cg_blksfree (take_block sb c (b * FPB)) = block_alloc FPB (cg_blksfree c) (b * FPB)) as Em.
  { unfold take_block. cbn [cg_blksfree]. rewrite frag_number, clrblock_ffs by (apply Hg || apply Hb).
    apply clrblock_alloc; [apply Hg|done|by apply block_in_bytes]. }
  assert (block_avail FPB (cg_blksfree c) (b * FPB) = true) as Hav.
  { apply block_avail_free; [apply Hg|done|]. by rewrite Hd. }
  destruct (block_alloc_flips (plain g) Hg0 c b Hm Hb Hav) as [Hm' Hfl]. change (fs_frag (plain g)) with FPB in *.
  assert (forall i, is_free (cg_blksfree (take_block sb c (b * FPB))) i = negb (i / FPB =? b) && is_free (cg_blksfree c) i) as Hfree.
  { intros i. destruct (group_block_in_map g Hg c b (b * FPB) Hm Hb Hd) as [Hin _].
    rewrite Em, block_alloc_free, Hd by (done || apply Hg). done. }
  assert (same_group c (take_block sb c (b * FPB))) as Hsg.
  { unfold same_group. rewrite Em, zlen_block_alloc. unfold take_block. cbn.
    repeat split; try done. destruct (0 <? fs_contigsumsize g); [|done].
    rewrite frag_number by apply Hb. by rewrite clrbit_clr, zlen_bit_clr by apply Hb. }
  split; [|by split]. apply (block_changed_building g Hg c _ b (-1) Hc Hb Hsg). constructor.
  - rewrite Em. eexists. split; [reflexivity|]. split; [exact Hm'|]. split; [exact Hfl|]. done.
  - intros i. rewrite Hfree. by destruct (i / FPB =? b).
  - exact Hf.
  - done.
  - intros HS k Hk. destruct (block_cluster g Hg c b Hc HS Hb) as [_ Hin]. unfold take_block. cbn [cg_clustersfree].
    rewrite (proj2 (Z.ltb_lt _ _) HS), frag_number, clrbit_clr, bit_clr_free by (done || apply Hb).
    by destruct (k =? b).
Qed.

End Taken.

(** ** alloc *)

Lemma fold_setbit d l map : 0 <= d -> Forall (fun i => 0 <= i) l ->
  fold_left (fun m i => setbit m (d + i)) l map = set_bits map (Z.add d <$> l).
Proof.
  intros Hd Hl. revert map. induction Hl as [|i l Hi Hl IH]; intros map; [done|].
  cbn [fold_left]. rewrite IH, setbit_set by lia. done.
Qed.

Lemma upto_shift d lo hi : Z.add d <$> upto lo hi 1 = upto (d + lo) (d + hi) 1.
Proof.
  unfold upto. rewrite <- list_fmap_compose. replace (d + hi - (d + lo)) with (hi - lo) by lia.
  apply list_fmap_ext. intros i x _. cbn. lia.
Qed.

Section Alloc.
Context (sb : sblock) (Hg : wf_geometry sb).
Context (Hsize : fs_bsize sb = fs_fsize sb * fs_frag sb) (Hfsize : 0 < fs_fsize sb < 2 ^ 15).
#[local] Abbreviation FPB := (fs_frag sb).

(** What the counters of a group go through: a block taken, a directory
    made, the fragments after the first given back. *)
Definition root_sums (x : csum) : csum :=
  csum_add_nffree (csum_add_ndir (csum_add_nbfree x (-1)) 1) (FPB - 1).

Definition root_group (c : cg) (d : Z) : cg :=
  let c1 := take_block sb c d in
  let c2 := if FPB =? 1 then c1
            else fold_left add_frag (upto (d + 1) (d + 1 + (FPB - 1)) 1) (add_run c1 (FPB - 1)) in
  set_cs c2 (root_sums (cg_cs c)).

Lemma root_group_building c b :
  building sb c -> group_block sb c b -> (forall i, i / FPB = b -> is_free (cg_blksfree c) i = true) ->
  building sb (root_group c (b * FPB)) /\ 
  (forall i, is_free (cg_blksfree (root_group c (b * FPB))) i =
     (negb (i / FPB =? b) || negb (i =? b * FPB)) && is_free (cg_blksfree c) i) /\
  cg_cgx (root_group c (b * FPB)) = cg_cgx c /\ cg_niblk (root_group c (b * FPB)) = cg_niblk c /\
  cg_ndblk (root_group c (b * FPB)) = cg_ndblk c /\ cg_inosused (root_group c (b * FPB)) = cg_inosused c /\
  cg_irotor (root_group c (b * FPB)) = cg_irotor c.
Proof using Hg.
  intros Hc Hb Hf. pose proof (frag_pos sb Hg) as HF.
  destruct (take_block_building sb Hg c b Hc Hb Hf) as (T1 & T2 & T3).
  set (c1 := take_block sb c (b * FPB)) in *.
  set (c2 := if FPB =? 1 then c1
             else fold_left add_frag (upto (b * FPB + 1) (b * FPB + 1 + (FPB - 1)) 1) (add_run c1 (FPB - 1))).
  pose proof Hc as [Hbl Hfr _]. pose proof T2 as (_ & _ & T4 & _).
  assert (cs_nffree (cg_cs c1) = cs_nffree (cg_cs c)) as Enf by done.
  assert (in_s32 (cs_nffree (cg_cs c))) as Hnf.
  { rewrite (wf_nffree _ _ Hfr). pose proof (group_weight_bounds sb Hg (cg_blksfree c)) as (_ & ? & _).
    pose proof (nblocks_bound sb Hg). unfold in_s32. zify_pow. lia. }
  assert (building sb c2 /\ same_group c1 c2 /\
    (forall i, is_free (cg_blksfree c2) i = (in_range (b * FPB + 1) (FPB - 1) i) || is_free (cg_blksfree c1) i) /\
    cs_nbfree (cg_cs c2) = cs_nbfree (cg_cs c1) /\ cs_nffree (cg_cs c2) = s32 (cs_nffree (cg_cs c1) + (FPB - 1))) as (B1 & B2 & B3 & B4 & B5).
  { unfold c2. destruct (Z.eqb_spec FPB 1) as [E|E].
    - split; [done|]. split; [done|]. split; [|split; [done|]].
      + intros i. assert (in_range (b * FPB + 1) (FPB - 1) i = false) as ->; [|done].
        apply not_true_iff_false. rewrite in_range_spec. lia.
      + rewrite Enf, s32_small; [lia|]. unfold in_s32 in *. lia.
    - destruct (add_frags_building sb Hg c1 b (b * FPB + 1) (FPB - 1)) as (A1 & A2 & A3); try done; try lia.
      + intros i Hi. by rewrite T3, Hi, Z.eqb_refl.
      + apply Hb.
      + rewrite T4. destruct Hb as [? Hb]. lia.
      + split; [done|]. split; [done|]. split; [done|].
        rewrite fold_add_frag; [|apply upto_nonneg; destruct Hb; nia|exact Hnf].
        cbn. rewrite zlen_upto1 by lia. split; [done|]. do 2 f_equal. lia. }
  unfold root_group. fold c1 c2. destruct B2 as (S1 & S2 & S3 & S4 & S5 & _). destruct T2 as (U1 & U2 & U3 & U4 & U5 & _).
  cbn [set_cs cg_cgx cg_niblk cg_ndblk cg_inosused cg_irotor cg_blksfree]. split; [|split; [|repeat split; congruence]].
  - apply (building_ext sb c2); try done.
  - intros i. rewrite B3, T3. destruct (Z.eqb_spec (i / FPB) b) as [E|E]; cbn [negb orb andb].
    + rewrite Hf by done. apply (block_window sb Hg) in E. rewrite orb_false_r, andb_true_r.
      apply eq_true_iff_eq. rewrite in_range_spec, negb_true_iff, Z.eqb_neq. lia.
    + assert (in_range (b * FPB + 1) (FPB - 1) i = false) as ->; [|done].
      apply not_true_iff_false. rewrite in_range_spec. intros Hi. apply E, (block_window sb Hg). lia.
Qed.

(** [alloc] finds a block when the count says there is one. *)
Lemma alloc_found (c : cg) :
  wf_blocks (plain sb) c -> cs_nbfree (cg_cs c) <> 0 ->
  exists b, find_first (fun d => isblock FPB (cg_blksfree c) (s32 (Z.quot d FPB))) (upto 0 (cg_ndblk c) FPB) = Some (b * FPB) /\
    group_block sb c b /\ forall i, i / FPB = b -> is_free (cg_blksfree c) i = true.
Proof using Hg.
  intros Hc Hn. pose proof (frag_pos sb Hg) as HF. pose proof (wb_map _ _ Hc) as Hm. pose proof Hm as [M1 M2 M3].
  pose proof (wb_ndblk _ _ Hc) as Hnd. cbn in Hnd. pose proof (nblocks_bound sb Hg) as Hnb.
  assert (forall b, 0 <= b -> b * FPB < cg_ndblk c ->
    isblock FPB (cg_blksfree c) (s32 (Z.quot (b * FPB) FPB)) = block_avail FPB (cg_blksfree c) (b * FPB)) as His.
  { intros b Hb Hlt. rewrite Z.quot_mul, s32_small by (lia || (unfold in_s32; zify_pow; nia)).
    rewrite isblock_ffs by apply Hg. apply isblock_avail; [apply Hg|done]. }
  assert (forall b, block_avail FPB (cg_blksfree c) (b * FPB) = true -> forall i, i / FPB = b -> is_free (cg_blksfree c) i = true) as Hall.
  { intros b Ha i Hi. rewrite block_avail_free in Ha by (done || apply Hg). apply Ha. by rewrite Hi, Z.div_mul by lia. }
  assert (forall b, block_avail FPB (cg_blksfree c) (b * FPB) = true -> b * FPB + FPB <= cg_ndblk c) as Hend.
  { intros b Ha. destruct (Z.le_gt_cases (cg_ndblk c) (b * FPB + FPB - 1)) as [Hle|]; [|lia].
    pose proof (M3 _ Hle) as Ht. rewrite (Hall b Ha) in Ht; [done|]. apply (block_window sb Hg). lia. }
  destruct (find_first _ _) as [d|] eqn:Ef.
  - apply find_first_Some in Ef as [Hin Hd]. apply elem_of_upto in Hin as (b & Hb & -> & Hlt); [|lia].
    replace (0 + FPB * b) with (b * FPB) in * by lia. exists b. rewrite His in Hd by lia.
    split; [done|]. split; [split; [done|]; specialize (Hend b Hd); lia|by apply Hall].
  - exfalso. rewrite (wb_nbfree _ _ Hc) in Hn. change (group_weight (plain sb)) with (group_weight sb) in Hn. cbn in Hn.
    destruct (group_weight_bounds sb Hg (cg_blksfree c)) as (Hw & _). unfold group_weight in *.
    destruct (zsum_exists (blk_weight sb (w_nb FPB) (cg_blksfree c)) (seqZ 0 (nblocks sb))) as (b & Hb & Hp); [lia|].
    apply elem_of_seqZ in Hb. rewrite blk_weight_nb in Hp by done.
    destruct (block_avail FPB (cg_blksfree c) (b * FPB)) eqn:Ea; [|lia]. specialize (Hend b Ea).
    rewrite find_first_None in Ef. assert (isblock FPB (cg_blksfree c) (s32 (Z.quot (b * FPB) FPB)) = false) as Hf; [|by rewrite His, Ea in Hf by lia].
    apply Ef. apply elem_of_upto; [lia|]. exists b. lia.
Qed.

(** The state after [alloc]. *)
Lemma alloc_root (N : newfs) :
  nf_sb N = sb -> cg_magic (nf_hdr N 0) = CG_MAGIC -> building sb (nf_cg N 0) -> cs_nbfree (cg_cs (nf_cg N 0)) <> 0 ->
  exists b, alloc N (fs_fsize sb) (Z.lor IFDIR UMASK) =
    (b * FPB, set_group0 N (root_group (nf_cg N 0) (b * FPB)) root_sums) /\
    group_block sb (nf_cg N 0) b /\ forall i, i / FPB = b -> is_free (cg_blksfree (nf_cg N 0)) i = true.
Proof using Hg Hsize Hfsize.
  intros Esb Emag Hc Hn. pose proof (frag_pos sb Hg) as HF. pose proof Hc as [Hbl Hfr _].
  destruct (alloc_found (nf_cg N 0) Hbl Hn) as (b & Ef & Hb & Hfree). exists b. split; [|done].
  unfold alloc. rewrite Esb, Emag, Z.eqb_refl, (proj2 (Z.eqb_neq _ 0) Hn), Ef. cbn [negb].
  change (Z.land (Z.lor IFDIR UMASK) IFDIR =? 0) with false. cbn iota. rewrite Hsize.
  change (2 ^ 15) with 32768 in Hfsize.
  assert (howmany (fs_fsize sb) (fs_fsize sb) = 1) as ->.
  { destruct (howmany_bounds (fs_fsize sb) (fs_fsize sb)) as [H1 H2]; [lia|lia|zify_pow; lia|]. nia. }
  rewrite (s32_small (FPB - 1)) by (unfold in_s32; zify_pow; lia).
  assert (negb (fs_fsize sb =? fs_fsize sb * FPB) = negb (FPB =? 1)) as ->.
  { destruct (Z.eqb_spec (fs_fsize sb) (fs_fsize sb * FPB)), (Z.eqb_spec FPB 1); nia || done. }
  assert ((if negb (FPB =? 1) then FPB - 1 else 0) = FPB - 1) as ->
    by (destruct (Z.eqb_spec FPB 1); cbn; lia).
  fold root_sums. f_equal. f_equal. unfold root_group, take_block.
  assert (in_s32 (cs_nffree (cg_cs (nf_cg N 0)))) as Hnf.
  { rewrite (wf_nffree _ _ Hfr). pose proof (group_weight_bounds sb Hg (cg_blksfree (nf_cg N 0))) as (_ & ? & _).
    pose proof (nblocks_bound sb Hg). unfold in_s32. zify_pow. lia. }
  destruct (Z.eqb_spec FPB 1) as [E1|E1]; [done|]. cbn [negb].
  rewrite fold_add_frag; [|apply upto_nonneg; destruct Hb; nia|exact Hnf].
  rewrite fold_setbit; [|destruct Hb; nia|by apply upto_nonneg].
  rewrite upto_shift. replace (b * FPB + 1 + (FPB - 1)) with (b * FPB + FPB) by lia. reflexivity.
Qed.

End Alloc.

(** ** Counters *)

Definition chained (hs : list (csum -> csum)) (x : csum) : csum := foldl (fun x h => h x) x hs.

(** The totals follow any chain of increments made in group [k]. *)
Lemma totals_chained hs g k : forall cst csp v c,
  wf_totals (Fs g cst csum0 csp 0 0 0) v -> 0 <= k < fs_ncg g -> Forall csum_adder hs ->
  cg_cs c = chained hs (cg_cs (v k)) ->
  wf_totals (Fs g (chained hs cst) csum0 (zset csp k (chained hs (zget csp k))) 0 0 0) (vupd v k c).
Proof.
  induction hs as [|h hs IH]; intros cst csp v c Hw Hk Hhs Hc.
  - cbn in *. rewrite zset_zget_id. apply (wf_totals_ext _ v); [|done]. intros j _. unfold vupd.
    destruct (Z.eqb_spec j k) as [->|]; [done|done].
  - inversion Hhs as [|? ? Hh Hhs']; subst. pose proof (wt_len _ _ Hw) as Hlen. cbn in Hlen.
    pose proof (wf_totals_step _ v h k (set_cs (v k) (h (cg_cs (v k)))) Hw Hk Hh eq_refl) as [T1 T2 T3 T4].
    destruct (adjust_super_geo (Fs g cst csum0 csp 0 0 0) h k) as (E1 & _ & E3 & E4 & _).
    rewrite E1, E3 in *. rewrite E4 in T3. cbn [fs_geo fs_csp fs_cstotal] in *.
    assert (wf_totals (Fs g (h cst) csum0 (zset csp k (h (zget csp k))) 0 0 0)
      (vupd v k (set_cs (v k) (h (cg_cs (v k)))))) as Hw1 by (constructor; done).
    pose proof (IH _ _ _ c Hw1 Hk Hhs') as Hw2. rewrite vupd_eq in Hw2.
    rewrite zget_zset_eq, zset_zset in Hw2 by lia. cbn [chained foldl] in *.
    apply (wf_totals_ext _ (vupd (vupd v k (set_cs (v k) (h (cg_cs (v k))))) k c)); [|by apply Hw2].
    intros j _. unfold vupd. by destruct (j =? k).
Qed.

(** ** fsinit *)

(** Room in group 0 for the summaries and one block after them. *)
Definition root_fits (sb : sblock) : Prop :=
  let sum := howmany (fs_cssize sb) (fs_fsize sb) in
  0 <= sum /\ (fs_dblkno sb + sum + fs_frag sb - 1) / fs_frag sb * fs_frag sb + fs_frag sb <= Z.min (fs_fpg sb) (fs_size sb).

Definition root_chain (sb : sblock) : list (csum -> csum) :=
  [fun x => csum_add_nbfree x (-1); fun x => csum_add_ndir x 1; fun x => csum_add_nffree x (fs_frag sb - 1);
   fun x => csum_add_nifree x (-1)].

Lemma root_chain_adders sb : Forall csum_adder (root_chain sb).
Proof. repeat constructor; eexists; eauto. Qed.

(** Group 0 with the root directory at [d] and the root inode. *)
Definition final_group (sb : sblock) (c : cg) (d : Z) : cg :=
  let c := root_group sb c d in
  set_cs (set_inosused c (setbit (cg_inosused c) ROOTINO)) (csum_add_nifree (cg_cs c) (-1)).

Section Root.
Context (sb : sblock) (Hg : wf_geometry sb).
Context (Hsize : fs_bsize sb = fs_fsize sb * fs_frag sb) (Hfsize : 0 < fs_fsize sb < 2 ^ 15).

(** What fsinit leaves behind, given the groups. *)
Record rooted (N N' : newfs) (b : Z) : Prop := {
  rt_sb : nf_sb N' = sb;
  rt_block : group_block sb (nf_cg N 0) b;
  rt_free : forall i, i / fs_frag sb = b -> is_free (cg_blksfree (nf_cg N 0)) i = true;
  rt_cg : forall k, nf_cg N' k = if k =? 0 then final_group sb (nf_cg N 0) (b * fs_frag sb) else nf_cg N k;
  rt_total : nf_cstotal N' = chained (root_chain sb) (nf_cstotal N);
  rt_fscs : nf_fscs N' = zset (nf_fscs N) 0 (chained (root_chain sb) (zget (nf_fscs N) 0));
  rt_inodes : ROOTINO < u32 (fs_ipg sb * fs_ncg sb) }.

Lemma fsinit_rooted o (N : newfs) utime N' :
  nf_sb N = sb -> cg_magic (nf_hdr N 0) = CG_MAGIC -> building sb (nf_cg N 0) -> cs_nbfree (cg_cs (nf_cg N 0)) <> 0 ->
  0 < zlen (nf_fscs N) -> fsinit o N utime = ok N' -> exists b, rooted N N' b.
Proof using Hg Hsize Hfsize.
  intros Esb Emag Hc Hn Hlen H. destruct (alloc_root sb Hg Hsize Hfsize N Esb Emag Hc Hn) as (b & Ea & Hb & Hf).
  exists b. unfold fsinit in H. rewrite Esb, Ea in H. unfold iput in H.
  cbn [set_disk set_group0 nf_hdr nf_sb nf_cg nf_cstotal nf_fscs nf_disk nf_dsize] in H.
  apply check_ok in H as [_ H]. apply check_ok in H as [Hi H]. rewrite Z.eqb_refl in H. rewrite Esb in H, Hi. injection H as <-.
  constructor; cbn [set_disk nf_sb nf_cg nf_cstotal nf_fscs]; try done.
  - intros k. unfold final_group, set_group0, set_disk. cbn [nf_cg]. by destruct (k =? 0).
  - unfold set_group0, set_disk. cbn [nf_fscs]. by rewrite zget_zset_eq, zset_zset by lia.
  - by apply Z.ltb_lt in Hi.
Qed.

Lemma final_group_building c b :
  building sb c -> group_block sb c b -> (forall i, i / fs_frag sb = b -> is_free (cg_blksfree c) i = true) ->
  building sb (final_group sb c (b * fs_frag sb)).
Proof using Hg.
  intros Hc Hb Hf. destruct (root_group_building sb Hg c b Hc Hb Hf) as (B & _).
  unfold final_group. by apply (building_ext sb (root_group sb c (b * fs_frag sb))).
Qed.

End Root.

(** ** The mounted file system *)

Lemma plain_id g : fs_contigsumsize g = 0 -> plain g = g.
Proof. destruct g. cbn. by intros ->. Qed.

Lemma root_fits_summary (sb : sblock) : wf_geometry sb -> root_fits sb -> summary_fits sb.
Proof. intros Hg [H1 H2]. pose proof (frag_pos sb Hg). split; [done|lia]. Qed.

Lemma zsum_const (f : Z -> Z) a l : (forall x, x ∈ l -> f x = a) -> zsum f l = a * zlen l.
Proof.
  unfold zlen. induction l as [|x l IH]; intros Hf; [cbn; lia|]. rewrite zsum_cons, IH, Hf; [cbn [length]; lia|by left|].
  intros y Hy. apply Hf. by right.
Qed.

(** Used inodes are a prefix: the rest is free. *)
Lemma free_inodes_prefix c m :
  (forall i, is_free (cg_inosused c) i = in_range 0 m i) -> 0 <= m <= cg_niblk c -> free_inodes c = cg_niblk c - m.
Proof.
  intros Hu Hm. unfold free_inodes, ino_used.
  replace (cg_niblk c) with (m + (cg_niblk c - m)) at 1 by lia. rewrite seqZ_app by lia. rewrite zsum_app.
  rewrite (zsum_const _ 0), (zsum_const _ 1).
  - unfold zlen. rewrite !length_seqZ. lia.
  - intros x Hx%elem_of_seqZ. rewrite Hu. assert (in_range 0 m x = false) as ->; [|done].
    apply not_true_iff_false. rewrite in_range_spec. lia.
  - intros x Hx%elem_of_seqZ. rewrite Hu. by rewrite (proj2 (in_range_spec 0 m x)) by lia.
Qed.

Section Mounted.
Context (sb : sblock) (Ht : group_tables sb) (Hfit : groups_fit sb) (Hroot : root_fits sb).
Context (Hplain : fs_contigsumsize sb = 0) (Hipg : fs_ipg sb < 2 ^ 15) (H3 : 3 <= fs_ipg sb).
Context (utime : Z) (V : Z -> Z -> Z) (N : newfs).
Context (HN : initcgs (blank sb utime V) (upto 0 (fs_ncg sb) 1) utime = ok N).

Let Hg : wf_geometry sb := gt_wf sb Ht.
Let Hsum : summary_fits sb := root_fits_summary sb Hg Hroot.

Lemma ipg_small : fs_ipg sb < 2 ^ 30.
Proof using Hipg. change (2 ^ 15) with 32768 in Hipg. change (2 ^ 30) with 1073741824. lia. Qed.

(** The first group after its inodes: whole blocks are free. *)
Lemma fresh_group0 : building sb (nf_cg N 0) /\ cs_nbfree (cg_cs (nf_cg N 0)) <> 0.
Proof using Ht Hfit Hroot Hplain Hipg HN.
  pose proof (wg_ncg sb Hg) as Hncg. pose proof (frag_pos sb Hg) as HF.
  destruct (fresh_groups sb Ht Hfit Hsum utime V N HN 0 ipg_small) as (dl & du & nd & _ & Hr & Hf & _ & Edu & End); [lia|].
  pose proof (fg_blocks _ _ _ _ _ _ Hf) as Hbl. pose proof (wb_map _ _ Hbl) as Hm. split.
  - constructor; [by rewrite (plain_id _ Hplain)|apply Hf|]. intros HS. lia.
  - rewrite (wb_nbfree _ _ Hbl). pose proof (group_weight_bounds sb Hg (cg_blksfree (nf_cg N 0))) as (Hw & _).
    destruct Hroot as [R1 R2]. set (first := (fs_dblkno sb + howmany (fs_cssize sb) (fs_fsize sb) + fs_frag sb - 1) / fs_frag sb) in *.
    assert (skew sb 0 = 0) as Es by (unfold skew; rewrite Z.land_0_l; lia). rewrite Es in Edu. cbn in Edu.
    rewrite Z.mul_0_r, Z.sub_0_r in End.
    assert (blk_weight sb (w_nb (fs_frag sb)) (cg_blksfree (nf_cg N 0)) first = 1) as Hone.
    { rewrite (blk_weight_full sb Hg); [unfold w_nb; by rewrite Z.eqb_refl|unfold w_nb; by case_match; lia|].
      intros i Hi. rewrite (fg_free _ _ _ _ _ _ Hf). apply (block_window sb Hg) in Hi. cbn [Z.ltb Z.compare andb]. rewrite orb_false_r.
      apply in_range_spec. pose proof (Z.div_mod (du + fs_frag sb - 1) (fs_frag sb) ltac:(lia)) as Hdm.
      pose proof (Z.mod_pos_bound (du + fs_frag sb - 1) (fs_frag sb) ltac:(lia)). replace (du + fs_frag sb - 1) with (fs_dblkno sb + howmany (fs_cssize sb) (fs_fsize sb) + fs_frag sb - 1) in * by lia.
      fold first in Hdm. lia. }
    pose proof (zsum_pos_elem (blk_weight sb (w_nb (fs_frag sb)) (cg_blksfree (nf_cg N 0))) (seqZ 0 (nblocks sb)) first) as Hp.
    unfold group_weight. rewrite Hone in Hp. assert (1 <= zsum (blk_weight sb (w_nb (fs_frag sb)) (cg_blksfree (nf_cg N 0))) (seqZ 0 (nblocks sb))); [|lia].
    apply Hp; [intros y _; destruct (blk_weight_bounds sb Hg (cg_blksfree (nf_cg N 0)) y) as [? _]; lia|]. apply elem_of_seqZ.
    pose proof (nblocks_fpg sb Hg). destruct Hr as [[Hr _] Hr' _ _].
    assert (0 <= first) by (apply Z.div_pos; lia). nia.
Qed.

Context (N' : newfs) (b : Z) (Hrt : rooted sb N N' b).

Lemma fresh_at k : 0 <= k < fs_ncg sb -> exists dl du nd, room sb dl du nd /\ fresh_group sb k dl du nd (nf_cg N k).
Proof using Ht Hfit Hroot Hipg HN.
  intros Hk. destruct (fresh_groups sb Ht Hfit Hsum utime V N HN k ipg_small Hk) as (dl & du & nd & _ & Hr & Hf & _). eauto.
Qed.

Lemma rooted_cs k : cg_cs (nf_cg N' k) = if k =? 0 then chained (root_chain sb) (cg_cs (nf_cg N 0)) else cg_cs (nf_cg N k).
Proof using Hrt. rewrite (rt_cg _ _ _ _ Hrt). by destruct (k =? 0). Qed.

Lemma rooted_totals : wf_totals (mounted N') (nf_cg N').
Proof using Ht Hrt HN.
  pose proof (fresh_totals sb Ht utime V N HN) as Hw. pose proof (wg_ncg sb Hg) as Hncg.
  pose proof (totals_chained (root_chain sb) sb 0 (nf_cstotal N) (nf_fscs N) (nf_cg N) (nf_cg N' 0)) as Hch.
  unfold mounted in *. rewrite (fresh_sb sb utime V N HN) in Hw. rewrite (rt_sb _ _ _ _ Hrt), (rt_total _ _ _ _ Hrt), (rt_fscs _ _ _ _ Hrt).
  apply (wf_totals_ext _ (vupd (nf_cg N) 0 (nf_cg N' 0))).
  - intros k _. unfold vupd. destruct (Z.eqb_spec k 0) as [->|Hk]; [done|]. rewrite rooted_cs. by rewrite (proj2 (Z.eqb_neq k 0) Hk).
  - apply Hch; [exact Hw|lia|apply root_chain_adders|]. by rewrite rooted_cs.
Qed.

Lemma rooted_blocks k : 0 <= k < fs_ncg sb -> wf_blocks sb (nf_cg N' k) /\ wf_frags sb (nf_cg N' k).
Proof using Ht Hfit Hroot Hplain Hipg HN Hrt.
  intros Hk. rewrite (rt_cg _ _ _ _ Hrt). destruct (Z.eqb_spec k 0) as [->|].
  - destruct fresh_group0 as [Hb _].
    destruct (final_group_building sb Hg (nf_cg N 0) b Hb (rt_block _ _ _ _ Hrt) (rt_free _ _ _ _ Hrt)) as [B1 B2 _].
    rewrite (plain_id _ Hplain) in B1. done.
  - destruct (fresh_at k Hk) as (dl & du & nd & _ & Hf). split; apply Hf.
Qed.

(** Fragment 0 of the disk stays in use. *)
Lemma rooted_boot : is_free (cg_blksfree (nf_cg N' 0)) 0 = false.
Proof using Ht Hfit Hroot Hplain Hipg HN Hrt.
  pose proof (wg_ncg sb Hg) as Hncg. rewrite (rt_cg _ _ _ _ Hrt). cbn [Z.eqb].
  destruct fresh_group0 as [Hb _].
  destruct (root_group_building sb Hg (nf_cg N 0) b Hb (rt_block _ _ _ _ Hrt) (rt_free _ _ _ _ Hrt)) as (_ & Hf & _).
  unfold final_group. cbn [set_cs set_inosused cg_blksfree]. rewrite Hf.
  destruct (fresh_at 0) as (dl & du & nd & [[R1 _] R2 _ _] & Hfr); [lia|].
  rewrite (fg_free _ _ _ _ _ _ Hfr). assert (in_range du (nd - du) 0 = false) as ->; [|by rewrite andb_false_r].
  apply not_true_iff_false. rewrite in_range_spec. lia.
Qed.

(** Inodes 0, 1 and 2 are in use, the others free. *)
Lemma rooted_inodes k : 0 <= k < fs_ncg sb ->
  (forall i, is_free (cg_inosused (nf_cg N' k)) i = (k =? 0) && in_range 0 3 i) /\ ino_ok sb k (nf_cg N' k).
Proof using Ht Hfit Hroot Hplain Hipg H3 HN Hrt.
  intros Hk. destruct (fresh_at k Hk) as (dl & du & nd & _ & Hf). destruct (ipg_bytes sb Ht ipg_small) as [Hb1 Hb2].
  destruct (wg_ipg sb Hg) as [Hp [q Hq]]. change (2 ^ 15) with 32768 in Hipg.
  assert (s16 (fs_ipg sb) = fs_ipg sb) as E16 by (apply s16_small; lia).
  assert ((forall i, is_free (cg_inosused (nf_cg N' k)) i = (k =? 0) && in_range 0 3 i) /\
    cg_niblk (nf_cg N' k) = fs_ipg sb /\ zlen (cg_inosused (nf_cg N' k)) = howmany (fs_ipg sb) NBBY /\
    cg_irotor (nf_cg N' k) = 0 /\ cs_nifree (cg_cs (nf_cg N' k)) = fs_ipg sb - (if k =? 0 then 3 else 0)) as (U1 & U2 & U3 & U4 & U5).
  { rewrite (rt_cg _ _ _ _ Hrt). destruct (Z.eqb_spec k 0) as [->|Hne].
    - destruct fresh_group0 as [Hb _].
      destruct (root_group_building sb Hg (nf_cg N 0) b Hb (rt_block _ _ _ _ Hrt) (rt_free _ _ _ _ Hrt))
        as (_ & _ & _ & G1 & _ & G2 & G3).
      unfold final_group. cbn [set_cs set_inosused cg_inosused cg_niblk cg_irotor cg_cs].
      rewrite G1, G2, G3, setbit_set, zlen_bit_set by done.
      rewrite (fg_inolen _ _ _ _ _ _ Hf), (fg_niblk _ _ _ _ _ _ Hf), (fg_irotor _ _ _ _ _ _ Hf).
      split; [|split; [done|split; [done|split; [done|]]]].
      + intros i. rewrite bit_set_free by (unfold in_map; rewrite (fg_inolen _ _ _ _ _ _ Hf); unfold ROOTINO, NBBY in *; lia).
        rewrite (fg_inodes _ _ _ _ _ _ Hf). cbn [Z.eqb andb]. apply eq_true_iff_eq. unfold ROOTINO.
        rewrite orb_true_iff, !in_range_spec, Z.eqb_eq. lia.
      + cbn. rewrite (fg_nifree _ _ _ _ _ _ Hf). cbn [Z.eqb]. rewrite s32_add, s32_small; [lia|]. unfold in_s32. zify_pow. lia.
    - rewrite (fg_inolen _ _ _ _ _ _ Hf), (fg_niblk _ _ _ _ _ _ Hf), (fg_irotor _ _ _ _ _ _ Hf), (fg_nifree _ _ _ _ _ _ Hf).
      rewrite (proj2 (Z.eqb_neq k 0) Hne). repeat split; try done.
      + intros i. by rewrite (fg_inodes _ _ _ _ _ _ Hf), (proj2 (Z.eqb_neq k 0) Hne).
      + rewrite s32_small; [lia|]. unfold in_s32. zify_pow. lia. }
  split; [exact U1|]. constructor.
  - done.
  - rewrite U2, U3. unfold NBBY in *. lia.
  - lia.
  - rewrite U5, (free_inodes_prefix _ (if k =? 0 then 3 else 0)).
    + by rewrite U2.
    + intros i. rewrite U1. destruct (k =? 0); [done|]. symmetry. apply not_true_iff_false. rewrite in_range_spec. lia.
    + rewrite U2. destruct (k =? 0); lia.
  - intros -> i Hi. unfold ino_used. rewrite U1. cbn [Z.eqb andb]. by apply in_range_spec.
Qed.

Lemma rooted_inv : fs_ipg sb * fs_ncg sb < 2 ^ 31 ->
  fs_inv (mounted N') (nf_cg N') /\ inode_inv (mounted N') (nf_cg N') /\
  forall i, 0 <= i < fs_ipg sb * fs_ncg sb -> inode_used (mounted N') (nf_cg N') i = (i <? 3).
Proof using Ht Hfit Hroot Hplain Hipg H3 HN Hrt.
  intros Hmax. pose proof (rt_sb _ _ _ _ Hrt) as Esb. pose proof (wg_ipg sb Hg) as [Hp _].
  split; [constructor; [constructor|]|split; [constructor|]]; cbn [mounted fs_geo]; rewrite ?Esb.
  - exact Hg.
  - intros k Hk. by apply rooted_blocks.
  - apply rooted_totals.
  - apply rooted_boot.
  - intros k Hk. by apply rooted_blocks.
  - intros k Hk. by apply rooted_inodes.
  - exact Hmax.
  - intros i Hi. unfold inode_used, itog, ino_used. cbn [mounted fs_geo]. rewrite Esb.
    pose proof (Z.mod_pos_bound i (fs_ipg sb) Hp). pose proof (Z.div_mod i (fs_ipg sb) ltac:(lia)).
    assert (0 <= i / fs_ipg sb < fs_ncg sb) as Hk
      by (split; [apply Z.div_pos; lia|apply Z.div_lt_upper_bound; lia]).
    destruct (rooted_inodes _ Hk) as [-> _]. apply eq_true_iff_eq.
    rewrite andb_true_iff, in_range_spec, Z.eqb_eq, Z.ltb_lt. split; intros; nia.
Qed.

End Mounted.

(** What success tells before anything is known of the groups. *)
Lemma fsinit_sb o N utime N' :
  fsinit o N utime = ok N' -> nf_sb N' = nf_sb N /\ ROOTINO < u32 (fs_ipg (nf_sb N) * fs_ncg (nf_sb N)).
Proof.
  unfold fsinit. destruct (alloc N _ _) as [d N1] eqn:Ea.
  assert (nf_sb N1 = nf_sb N) as E1.
  { unfold alloc in Ea. destruct (negb _); [by injection Ea as _ <-|]. destruct (_ =? 0); [by injection Ea as _ <-|].
    destruct (find_first _ _); [|by injection Ea as _ <-]. by injection Ea as _ <-. }
  intros H. unfold iput in H. apply check_ok in H as [_ H]. apply check_ok in H as [Hi H].
  cbn [set_disk nf_sb] in Hi. rewrite E1 in Hi. apply Z.ltb_lt in Hi. injection H as <-. done.
Qed.

(** ** The theorems *)





(** ** The theorems at a floppy disk of 1760 sectors *)

Definition floppy : frontend := Frontend 0 1760 2 11 11 22 512 300 1 0 0 0 512 4096 16 0 10 0 2048 1 0 2048 1 8192 8192.

Definition accepted {A} (m : result A) (p : A -> bool) : bool :=
  match m with Some (inr a) => p a | _ => false end.

Lemma accepted_ok {A} (m : result A) p : accepted m p = true -> exists a, m = ok a /\ p a = true.
Proof. destruct m as [[e|a]|]; try done. intros H. by exists a. Qed.

Definition summary_fitsb (sb : sblock) : bool :=
  let sum := howmany (fs_cssize sb) (fs_fsize sb) in
  (0 <=? sum) && ((fs_dblkno sb + sum + fs_frag sb - 1) / fs_frag sb * fs_frag sb <=? Z.min (fs_fpg sb) (fs_size sb)).

Lemma floppy_good : good_options floppy.
Proof. constructor; vm_compute; repeat split; try done; discriminate. Qed.



Definition root_fitsb (sb : sblock) : bool :=
  let sum := howmany (fs_cssize sb) (fs_fsize sb) in
  (0 <=? sum) && ((fs_dblkno sb + sum + fs_frag sb - 1) / fs_frag sb * fs_frag sb + fs_frag sb <=? Z.min (fs_fpg sb) (fs_size sb)).

