(* ===== verification/Fsck.v ===== *)
(** [fsck/pass5.c] and what it needs of [fsck/fsck.h], [fsck/utilities.c] and
    the group macros of [ucbinclude/ufs/fs.h]: the cylinder groups are computed
    anew from the maps of the earlier passes, compared with those on the disk,
    and repaired where the user agrees.

    fsck is built with [cdh] and UFS_V1 defined.  A group on the disk is the
    list of its bytes; its tables are where the macros find them.  Transfers
    succeed (rwerror is not reached), and the rotational tables are those of
    4.3 BSD Reno and later.  The buffer of the new group is zero behind the
    maps. *)

From S2P Require Import Prelude Bitmap Superblock Cg FfsSubr Newfs InitCg.
Local Open Scope bffs_scope.

(** ** The maps of the earlier passes *)

Definition isset (a : list Z) (i : Z) : bool :=
  negb (Z.land (zget a (Z.quot i NBBY)) (Z.shiftl 1 (Z.rem i NBBY)) =? 0).

Definition USTATE : Z := 1.
Definition FSTATE : Z := 2.
Definition DSTATE : Z := 3.
Definition DFOUND : Z := 4.
Definition DCLEAR : Z := 5.
Definition FCLEAR : Z := 6.

(** ** Questions *)

Inductive fixstate := DONTKNOW | NOFIX | FIX | IGNORE.

(** [nflag] stands for [nflag || fswritefd < 0]; [answers] are the lines the
    user types, [true] for yes, until the end of the input. *)
Record user := User {
  preen : bool;
  nflag : bool;
  yflag : bool;
  answers : list bool }.

(** The answer to a question that is not CONTINUE. *)
Definition reply (u : user) : bool * user :=
  if nflag u then (false, u)
  else if yflag u then (true, u)
  else
    match answers u with
    | [] => (false, u)
    | a :: l => (a, User (preen u) (nflag u) (yflag u) l)
    end.

Definition dofix (u : user) (f : fixstate) : bool * fixstate * user :=
  match f with
  | DONTKNOW =>
      if preen u then (true, FIX, u)
      else let '(a, u) := reply u in (a, if a then FIX else NOFIX, u)
  | FIX => (true, FIX, u)
  | NOFIX | IGNORE => (false, f, u)
  end.

(** ** The bytes of a group *)

Definition sub_bytes (l : list Z) (off n : Z) : list Z := take (Z.to_nat n) (drop (Z.to_nat off) l).

(** Memory outside the buffer is not there. *)
Definition get_at (l : list Z) (off n : Z) : result (list Z) :=
  if (0 <=? off) && (0 <=? n) && (off + n <=? zlen l) then ok (sub_bytes l off n) else None.
Definition put_at (l : list Z) (off : Z) (x : list Z) : result (list Z) :=
  if (0 <=? off) && (off + zlen x <=? zlen l)
  then ok (take (Z.to_nat off) l ++ x ++ drop (Z.to_nat (off + zlen x)) l) else None.

Definition word16 (l : list Z) (off : Z) : Z := s16 (Z.shiftl (zget l off) 8 + zget l (off + 1)).
Definition word32 (l : list Z) (off : Z) : Z :=
  s32 (Z.shiftl (zget l off) 24 + Z.shiftl (zget l (off + 1)) 16 + Z.shiftl (zget l (off + 2)) 8 + zget l (off + 3)).

(** The places of the fields of [struct cg]. *)
Definition at_magic : Z := 4.
Definition at_time : Z := 8.
Definition at_cgx : Z := 12.
Definition at_niblk : Z := 18.
Definition at_ndblk : Z := 20.
Definition at_cs : Z := 24.
Definition at_rotor : Z := 40.
Definition at_frotor : Z := 44.
Definition at_irotor : Z := 48.
Definition at_frsum : Z := 52.
Definition at_btotoff : Z := 84.
Definition at_boff : Z := 88.
Definition at_iusedoff : Z := 92.
Definition at_freeoff : Z := 96.
Definition at_clustersumoff : Z := 104.
Definition at_clusteroff : Z := 108.
Definition at_nclusterblks : Z := 112.
Definition at_new_niblk : Z := 116.
Definition at_initediblk : Z := 120.
Definition at_new_time : Z := 136.

(** The macros: in a group without the magic number the tables are those of
    [struct ocg]. *)
Definition blktot_off (l : list Z) : Z := if word32 l at_magic =? CG_MAGIC then word32 l at_btotoff else 84.
Definition blks_off (l : list Z) : Z := if word32 l at_magic =? CG_MAGIC then word32 l at_boff else 212.
Definition inosused_off (l : list Z) : Z := if word32 l at_magic =? CG_MAGIC then word32 l at_iusedoff else 724.
Definition blksfree_off (l : list Z) : Z := if word32 l at_magic =? CG_MAGIC then word32 l at_freeoff else 984.
Definition cg_chkmagic (l : list Z) : bool := (word32 l at_magic =? CG_MAGIC) || (word32 l 980 =? CG_MAGIC).

(** A table of [n] words, of [n] half words. *)
Definition words (l : list Z) (off n : Z) : list Z := (fun k => word32 l (off + 4 * k)) <$> seqZ 0 n.
Definition halves (l : list Z) (off n : Z) : list Z := (fun k => word16 l (off + 2 * k)) <$> seqZ 0 n.

(** The group the bytes stand for: what the handler reads of it. *)
Definition read_csum (l : list Z) (off : Z) : csum :=
  Csum (word32 l off) (word32 l (off + 4)) (word32 l (off + 8)) (word32 l (off + 12)).

Definition read_cg (sb : sblock) (l : list Z) : cg :=
  let clusters := negb (fs_contigsumsize sb <=? 0) in
  Cg (word32 l at_cgx) (word16 l at_niblk) (word32 l at_ndblk) (read_csum l at_cs) (word32 l at_irotor)
    (words l at_frsum MAXFRAG)
    (words l (blktot_off l) (fs_cpg sb))
    (halves l (blks_off l) (fs_cpg sb * fs_nrpos sb))
    (sub_bytes l (inosused_off l) (howmany (fs_ipg sb) NBBY))
    (sub_bytes l (blksfree_off l) (howmany (fs_cpg sb * fs_spc sb / fs_nspf sb)%int NBBY))
    (if clusters then words l (word32 l at_clustersumoff) (fs_contigsumsize sb + 1) else [])
    (if clusters then sub_bytes l (word32 l at_clusteroff) (howmany (fs_cpg sb * fs_spc sb / NSPB sb)%int NBBY) else [])
    (word32 l at_nclusterblks).

(** ** fsck's state

    [k_updated] is [fs_flags & FS_FLAGS_UPDATED]; [k_cg] holds the groups as
    the buffer [cgblk] and the disk behind it show them. *)

Record fsck := Fsck {
  k_sb : sblock;
  k_cstotal : csum;
  k_new_cstotal : csum;          (* the half of each quad that is_big_endian selects *)
  k_csp : list csum;
  k_flags : Z;
  k_fmod : Z;
  k_ronly : Z;
  k_sbdirty : bool;
  k_cg : Z -> list Z;
  k_blockmap : list Z;
  k_statemap : list Z;
  k_user : user;
  k_fix : list fixstate }.       (* id_fix of idesc[0], idesc[1], idesc[2] *)

#[export] Instance dflt_fix : Dflt fixstate := DONTKNOW.

Definition k_updated (s : fsck) : bool := negb (Z.land (k_flags s) FS_FLAGS_UPDATED =? 0).

Definition set_blockmap (s : fsck) (m : list Z) : fsck :=
  Fsck (k_sb s) (k_cstotal s) (k_new_cstotal s) (k_csp s) (k_flags s) (k_fmod s) (k_ronly s) (k_sbdirty s)
    (k_cg s) m (k_statemap s) (k_user s) (k_fix s).
Definition set_asked (s : fsck) (u : user) (f : list fixstate) : fsck :=
  Fsck (k_sb s) (k_cstotal s) (k_new_cstotal s) (k_csp s) (k_flags s) (k_fmod s) (k_ronly s) (k_sbdirty s)
    (k_cg s) (k_blockmap s) (k_statemap s) u f.
(** With sbdirty(). *)
Definition set_cs_entry (s : fsck) (c : Z) (v : csum) : fsck :=
  Fsck (k_sb s) (k_cstotal s) (k_new_cstotal s) (zset (k_csp s) c v) (k_flags s) (k_fmod s) (k_ronly s) true
    (k_cg s) (k_blockmap s) (k_statemap s) (k_user s) (k_fix s).
Definition set_totals (s : fsck) (v new : csum) : fsck :=
  Fsck (k_sb s) v new (k_csp s) (k_flags s) 0 0 true (k_cg s) (k_blockmap s) (k_statemap s) (k_user s) (k_fix s).
(** With cgdirty(). *)
Definition set_group (s : fsck) (c : Z) (l : list Z) : fsck :=
  Fsck (k_sb s) (k_cstotal s) (k_new_cstotal s) (k_csp s) (k_flags s) (k_fmod s) (k_ronly s) (k_sbdirty s)
    (fun k => if k =? c then l else k_cg s k) (k_blockmap s) (k_statemap s) (k_user s) (k_fix s).

(** [dofix (&idesc[i], ...)]: the answer, and the state with it. *)
Definition ask (s : fsck) (i : Z) : bool * fsck :=
  let '(a, f, u) := dofix (k_user s) (zget (k_fix s) i) in
  (a, set_asked s u (zset (k_fix s) i f)).

(** [if (differs && dofix (...)) { repair; }] *)
Definition salvage (s : fsck) (i : Z) (differs : bool) (repair : fsck -> result fsck) : result fsck :=
  if differs then let '(a, s) := ask s i in if a then repair s else ok s else ok s.

(** ** The new group *)

Section NewGroup.
Context (sb : sblock) (blockmap statemap : list Z).
#[local] Abbreviation FPB := (fs_frag sb).

(** One inode: 8 is errexit. *)
Definition scan_inode (c : cg) (j i : Z) : result cg :=
  let st := zget statemap j in
  let used (c : cg) := set_inosused (set_cs c (csum_add_nifree (cg_cs c) (-1))) (setbit (cg_inosused c) i) in
  if st =? USTATE then ok c
  else if (st =? DSTATE) || (st =? DCLEAR) || (st =? DFOUND) then ok (used (set_cs c (csum_add_ndir (cg_cs c) 1)))
  else if (st =? FSTATE) || (st =? FCLEAR) then ok (used c)
  else if j <? ROOTINO then ok c
  else error_exit 8.

Fixpoint scan_inodes (c : cg) (j : Z) (l : list Z) : result cg :=
  match l with
  | [] => ok c
  | i :: l => c <-- scan_inode c j i ;; scan_inodes c (j + 1) l
  end.

(** [blkmap]: the bits of a block. *)
Definition blkmap (map : list Z) (loc : Z) : Z :=
  Z.land (Z.shiftr (zget map (Z.quot loc NBBY)) (Z.rem loc NBBY)) (Z.shiftr 0xff (NBBY - FPB)).

(** The block at [i], the fragment [d] of the disk. *)
Definition scan_frags (d i : Z) (map : list Z) : list Z * Z :=
  fold_left (fun '(map, frags) j => if isset blockmap (d + j) then (map, frags) else (setbit map (i + j), frags + 1))
    (upto 0 FPB 1) (map, 0).

(** [totals] is [sumsize != 0]. *)
Definition count_block (totals : bool) (c : cg) (i : Z) : cg :=
  let j := cbtocylno sb i in
  let pos := j * fs_nrpos sb + cbtorpos sb i in
  Cg (cg_cgx c) (cg_niblk c) (cg_ndblk c) (csum_add_nbfree (cg_cs c) 1) (cg_irotor c) (cg_frsum c)
    (if totals then zset (cg_blktot c) j (s32 (zget (cg_blktot c) j + 1)) else cg_blktot c)
    (if totals then zset (cg_blks c) pos (s16 (zget (cg_blks c) pos + 1)) else cg_blks c)
    (cg_inosused c) (cg_blksfree c) (cg_clustersum c)
    (if 0 <? fs_contigsumsize sb then setbit (cg_clustersfree c) (i / FPB)%int else cg_clustersfree c)
    (cg_nclusterblks c).

Definition scan_block (totals : bool) (dbase : Z) (c : cg) (i : Z) : cg :=
  let '(map, frags) := scan_frags (dbase + i) i (cg_blksfree c) in
  let c := set_blksfree c map in
  if frags =? FPB then count_block totals c i
  else if 0 <? frags then
    set_frsum (set_cs c (csum_add_nffree (cg_cs c) frags)) (ffs_fragacct FPB (blkmap map i) (cg_frsum c) 1)
  else c.

(** A rotor of the group on the disk, if it is inside. *)
Definition keep_rotor (rotor limit : Z) : Z := if rotor <? limit then rotor else 0.

(** The maps and tables of group [c] before the inodes and blocks are seen;
    [old] are the bytes on the disk. *)
Definition start_group (c ndblk : Z) (old : list Z) : cg :=
  let irotor := word32 old at_irotor in
  let e := empty_group sb c ndblk in
  Cg c (cg_niblk e) ndblk (Csum 0 0 (fs_ipg sb) 0) (if (0 <=? irotor) && (irotor <? fs_ipg sb) then irotor else 0)
    (cg_frsum e) (cg_blktot e) (cg_blks e) (cg_inosused e) (cg_blksfree e) (cg_clustersum e) (cg_clustersfree e)
    (if 0 <? fs_contigsumsize sb then (ndblk / FPB)%int else 0).

Definition group_ndblk (c : Z) : Z :=
  let dbase := n_cgbase sb c in
  let dmax := (dbase + fs_fpg sb)%int in
  let dmax := if fs_size sb <? dmax then fs_size sb else dmax in
  (dmax - dbase)%int.

(** Inodes 0 and 1, the blocks, and the clusters: the loops of mkfs. *)
Definition new_group (updated : bool) (c : Z) (old : list Z) : result cg :=
  let ndblk := group_ndblk c in
  g <-- scan_inodes (start_group c ndblk old) (fs_ipg sb * c)%int (upto 0 (fs_ipg sb) 1) ;;
  let g := if c =? 0 then fold_left reserve_inode (upto 0 ROOTINO 1) g else g in
  ok (cluster_space sb (fold_left (scan_block (negb updated) (n_cgbase sb c)) (upto 0 ndblk FPB) g)).

(** The header: places of the tables, and the number of cylinders. *)
Definition new_header (updated : bool) (c : Z) (old : list Z) : cghdr :=
  let h := group_header sb c 0 in
  let ncyl :=
    if c =? (fs_ncg sb - 1)%int then
      if updated then howmany (group_ndblk c) (fs_fpg sb / fs_cpg sb)%int else (fs_ncyl sb mod fs_cpg sb)%int
    else fs_cpg sb in
  Cghdr CG_MAGIC (word32 old at_time) (s16 ncyl) (cg_btotoff h) (cg_boff h) (cg_iusedoff h) (cg_freeoff h) (cg_nextfreeoff h)
    (cg_clustersumoff h) (cg_clusteroff h).

(** The first 168 bytes: the rotors are kept from the start of the group, the
    times are those of the block as it is now. *)
Definition zeros (n : Z) : list Z := repeat 0 (Z.to_nat n).

Definition base_bytes (h : cghdr) (c : cg) (rotor frotor : Z) (cur : list Z) (new_niblk : Z) : list Z :=
  be32 0 ++ be32 CG_MAGIC ++ sub_bytes cur at_time 4 ++ be32 (cg_cgx c) ++ be16 (cg_ncyl h) ++ be16 (cg_niblk c) ++
  be32 (cg_ndblk c) ++
  be32 (cs_ndir (cg_cs c)) ++ be32 (cs_nbfree (cg_cs c)) ++ be32 (cs_nifree (cg_cs c)) ++ be32 (cs_nffree (cg_cs c)) ++
  be32 rotor ++ be32 frotor ++ be32 (cg_irotor c) ++ flat_map be32 (cg_frsum c) ++
  be32 (cg_btotoff h) ++ be32 (cg_boff h) ++ be32 (cg_iusedoff h) ++ be32 (cg_freeoff h) ++ be32 (cg_nextfreeoff h) ++
  be32 (cg_clustersumoff h) ++ be32 (cg_clusteroff h) ++ be32 (cg_nclusterblks c) ++
  be32 new_niblk ++ sub_bytes cur at_initediblk 4 ++ zeros 12 ++ sub_bytes cur at_new_time 8 ++ zeros 24.

(** The tables behind them.  The word of the cluster summary that is never
    used lies over the end of the fragment map. *)
Definition total_bytes (c : cg) : list Z := flat_map be32 (cg_blktot c) ++ flat_map be16 (cg_blks c).
Definition cluster_bytes (h : cghdr) (c : cg) : list Z :=
  if fs_contigsumsize sb <=? 0 then []
  else zeros (cg_clustersumoff h + 4 - (cg_freeoff h + zlen (cg_blksfree c))) ++
       flat_map be32 (drop 1 (cg_clustersum c)) ++ cg_clustersfree c.

Definition map_bytes (h : cghdr) (c : cg) : list Z := cg_inosused c ++ cg_blksfree c ++ cluster_bytes h c.

Definition group_bytes (h : cghdr) (c : cg) (rotor frotor : Z) (cur : list Z) (new_niblk : Z) : list Z :=
  let l := base_bytes h c rotor frotor cur new_niblk ++ total_bytes c ++ map_bytes h c in
  l ++ zeros (fs_cgsize sb - zlen l).

End NewGroup.

(** ** Comparing and repairing a group *)

Definition csum_eqb (a b : csum) : bool :=
  (cs_ndir a =? cs_ndir b) && (cs_nbfree a =? cs_nbfree b) && (cs_nifree a =? cs_nifree b) && (cs_nffree a =? cs_nffree b).

(** [bcmp (...) != 0] and [bcopy] from the new group to the one on the disk. *)
Definition bcmp_at (new : list Z) (noff : Z) (cur : list Z) (off n : Z) : result bool :=
  a <-- get_at new noff n ;; b <-- get_at cur off n ;; ok (negb (bool_decide (a = b))).
Definition bcopy_at (new : list Z) (noff : Z) (cur : list Z) (off n : Z) : result (list Z) :=
  x <-- get_at new noff n ;; put_at cur off x.

Section CheckGroup.
Context (c basesize sumsize imapsize fmapsize : Z).

(** A map of the group, at [off] of its bytes. *)
Definition check_map (new : list Z) (off : list Z -> Z) (size : Z) (s : fsck) : result fsck :=
  d <-- bcmp_at new (off new) (k_cg s c) (off (k_cg s c)) size ;;
  salvage s 1 d (fun s =>
    l <-- bcopy_at new (off new) (k_cg s c) (off (k_cg s c)) size ;; ok (set_group s c l)).

(** The repair of the header and the block totals. *)
Definition copy_summary (new : list Z) (s : fsck) : result fsck :=
  l <-- bcopy_at new 0 (k_cg s c) 0 basesize ;;
  l <-- bcopy_at new (blktot_off new) l (blktot_off l) sumsize ;;
  ok (set_group s c l).

Definition check_summary (new : list Z) (s : fsck) : result fsck :=
  d <-- bcmp_at new 0 (k_cg s c) 0 basesize ;;
  s <-- salvage s 2 d (copy_summary new) ;;
  d <-- bcmp_at new (blktot_off new) (k_cg s c) (blktot_off (k_cg s c)) sumsize ;;
  salvage s 2 d (copy_summary new).

(** [make cur niblk] is the new group with the fields of [cur] it keeps. *)
Definition check_tables (make : list Z -> Z -> list Z) (s : fsck) : result fsck :=
  let new := make (k_cg s c) 0 in
  s <-- check_map new inosused_off imapsize s ;;
  s <-- (if fmapsize =? 0 then ok s else check_map new blksfree_off fmapsize s) ;;
  check_summary (make (k_cg s c) (word32 (k_cg s c) at_new_niblk)) s.

End CheckGroup.

Definition check_group (doinglevel1 : bool) (s : fsck) (c : Z) : result (fsck * csum) :=
  let sb := k_sb s in
  let updated := k_updated s in
  let old := k_cg s c in
  check cg_chkmagic old || negb (preen (k_user s)) or 8 ;;
  g <-- new_group sb (k_blockmap s) (k_statemap s) updated c old ;;
  let h := new_header sb updated c old in
  let rotor := keep_rotor (word32 old at_rotor) (cg_ndblk g) in
  let frotor := keep_rotor (word32 old at_frotor) (cg_ndblk g) in
  let make := group_bytes sb h g rotor frotor in
  let sumsize := if updated then 0 else (cg_iusedoff h - cg_btotoff h)%int in
  s <-- salvage s 0 (negb (csum_eqb (cg_cs g) (zget (k_csp s) c))) (fun s => ok (set_cs_entry s c (cg_cs g))) ;;
  s <-- (if doinglevel1 then ok (set_group s c (make old 0))
         else check_tables c 168 sumsize (cg_freeoff h - cg_iusedoff h)%int (cg_nextfreeoff h - cg_freeoff h)%int make s) ;;
  ok (s, cg_cs g).

Fixpoint check_groups (doinglevel1 : bool) (s : fsck) (l : list Z) (total : csum) : result (fsck * csum) :=
  match l with
  | [] => ok (s, total)
  | c :: l =>
      r <-- check_group doinglevel1 s c ;;
      let '(s, cs) := r in
      check_groups doinglevel1 s l (csum_add total cs)
  end.

(** ** The cluster maps of fsck -c, and the pass *)

(** CGSIZE with the fields of the superblock. *)
Definition cg_space (sb : sblock) (contigsumsize : Z) : Z :=
  u32 (sizeof_cg + 4 + fs_cpg sb * 4 + (fs_cpg sb * fs_nrpos sb)%int * 2 + howmany (fs_ipg sb) NBBY +
       howmany (fs_cpg sb * fs_spc sb / fs_nspf sb)%int NBBY +
       if contigsumsize <=? 0 then 0
       else contigsumsize * 4 + howmany (fs_cpg sb * fs_spc sb / NSPB sb)%int NBBY).

Definition set_contigsumsize (g : geometry) (v : Z) : geometry :=
  Geometry (fs_sblkno g) (fs_cblkno g) (fs_iblkno g) (fs_dblkno g) (fs_cgoffset g) (fs_cgmask g) (fs_ncg g)
    (fs_bsize g) (fs_fsize g) (fs_frag g) (fs_bshift g) (fs_fshift g) (fs_fragshift g) (fs_nindir g) (fs_inopb g)
    (fs_nspf g) (fs_npsect g) (fs_interleave g) (fs_trackskew g) (fs_nsect g) (fs_spc g) (fs_ipg g) (fs_fpg g)
    (fs_nrpos g) v.

Definition resize_clusters (sb : sblock) (contigsumsize cgsize : Z) : sblock :=
  Sblock (set_contigsumsize sb contigsumsize) (fs_size sb) (fs_dsize sb) (fs_ncyl sb) (fs_cpg sb) (fs_cpc sb)
    (fs_ntrak sb) (fs_bmask sb) (fs_fmask sb) (fs_qbmask sb) (fs_qfmask sb) (fs_maxfilesize sb) (fs_fsbtodb sb)
    (fs_csaddr sb) (fs_cssize sb) (fs_csmask sb) (fs_csshift sb) cgsize (fs_sbsize sb) (fs_inodefmt sb)
    (fs_maxsymlinklen sb) (fs_postblformat sb) (fs_postbloff sb) (fs_rotbloff sb) (fs_postbl sb) (fs_rotbl sb)
    (fs_config sb).
Definition set_sb (s : fsck) (sb : sblock) (dirty : bool) : fsck :=
  Fsck sb (k_cstotal s) (k_new_cstotal s) (k_csp s) (k_flags s) (k_fmod s) (k_ronly s) (dirty || k_sbdirty s)
    (k_cg s) (k_blockmap s) (k_statemap s) (k_user s) (k_fix s).

(** [preen || reply (...)] *)
Definition agree (s : fsck) : bool * fsck :=
  if preen (k_user s) then (true, s)
  else let '(a, u) := reply (k_user s) in (a, set_asked s u (k_fix s)).

(** The new doinglevel1 and superblock; fs_maxcontig is the third of
    [fs_config]. *)
Definition convert_clusters (doinglevel1 : bool) (s : fsck) : bool * fsck :=
  let contig := fs_contigsumsize (k_sb s) in
  let maxcontig := zget (fs_config (k_sb s)) 2 in
  let '(level1, s) :=
    if (maxcontig <? 2) && (0 <? contig) then
      let '(a, s) := agree s in
      if a then (true, set_sb s (resize_clusters (k_sb s) 0 (fs_cgsize (k_sb s))) true) else (doinglevel1, s)
    else (doinglevel1, s) in
  let contig := fs_contigsumsize (k_sb s) in
  if (1 <? maxcontig) && ((contig <? 1) || (contig <? maxcontig) && (contig <? FS_MAXCONTIG)) then
    let want := Z.min maxcontig FS_MAXCONTIG in
    let sb := resize_clusters (k_sb s) want (fs_cgsize (k_sb s)) in
    if u32 (fs_bsize sb) <? cg_space sb want then (level1, s)
    else
      let '(a, s) := agree (set_sb s sb false) in
      if a then (true, set_sb s (resize_clusters sb want (fragroundup (fs_fsize sb) (fs_fmask sb) (s32 (cg_space sb want)))) true)
      else (level1, s)
  else (level1, s).

(** The fragments between the end of the disk and that of its last block. *)
Definition mark_tail (sb : sblock) (blockmap : list Z) : list Z :=
  fold_left setbit (upto (fs_size sb) (blknum sb (fs_size sb + fs_frag sb - 1)%int) 1) blockmap.

Definition FS_42POSTBLFMT : Z := -1.

(** [None] also for the tables of 4.2 BSD, which are left out. *)
Definition pass5 (cvtlevel : Z) (doinglevel1 doinglevel2 : bool) (s : fsck) : result fsck :=
  let '(level1, s) := if 3 <? cvtlevel then convert_clusters doinglevel1 s else (doinglevel1, s) in
  let format := fs_postblformat (k_sb s) in
  if negb (k_updated s) && (format =? FS_42POSTBLFMT) then None else
  check k_updated s || (format =? FS_DYNAMICPOSTBLFMT) or 8 ;;
  let s := set_asked s (k_user s) (repeat (if doinglevel2 then FIX else DONTKNOW) 3) in
  let s := set_blockmap s (mark_tail (k_sb s) (k_blockmap s)) in
  r <-- check_groups level1 s (upto 0 (fs_ncg (k_sb s)) 1) csum0 ;;
  let '(s, total) := r in
  if k_updated s then
    salvage s 0 (negb (csum_eqb total (k_new_cstotal s))) (fun s => ok (set_totals s total total))
  else
    salvage s 0 (negb (csum_eqb total (k_cstotal s))) (fun s => ok (set_totals s total (k_new_cstotal s))).
