(* ===== verification/FsckGroup.v ===== *)
(** The groups pass 5 of fsck computes: every table is what the maps of the
    earlier passes say, so a new group satisfies the invariants of the
    allocator and of the inodes. *)

From S2P Require Import Prelude Bitmap Superblock Cg CgSearch Runs Accounting Clusters Summary FragSummary FragAlloc FfsSubr.
From S2P Require Import Newfs InitCg NewfsGroup NewfsCg InodeSpec Fsck.
Local Open Scope bffs_scope.

Lemma isset_free a i : 0 <= i -> isset a i = is_free a i.
Proof.
  intros Hi. unfold isset, is_free, NBBY. rewrite Z.quot_div_nonneg, Z.rem_mod_nonneg by lia.
  by rewrite test_bit, negb_involutive.
Qed.

Lemma fold_left_foldl {A B} (f : A -> B -> A) l a : fold_left f l a = foldl f a l.
Proof. revert a. induction l as [|x l IH]; intros a; [done|apply IH]. Qed.

(** ** The fragments of one block *)

(** The free ones among [n] fragments. *)
Definition free_from (used : Z -> bool) (l : list Z) : list Z := filter (fun j => used j = false) l.

Lemma free_from_all (used : Z -> bool) l : (forall j, j ∈ l -> used j = false) -> free_from used l = l.
Proof.
  intros Hu. induction l as [|j l IH]; [done|]. unfold free_from. rewrite filter_cons_True by (apply Hu; by left).
  f_equal. apply IH. intros x Hx. apply Hu. by right.
Qed.

Lemma free_from_full (used : Z -> bool) l : length (free_from used l) = length l -> forall j, j ∈ l -> used j = false.
Proof.
  induction l as [|x l IH]; intros Hl j Hj; [by apply elem_of_nil in Hj|].
  unfold free_from in *. destruct (used x) eqn:Ex.
  - rewrite filter_cons_False in Hl by congruence. cbn in Hl.
    pose proof (length_filter (fun j => used j = false) l). lia.
  - rewrite filter_cons_True in Hl by done. cbn in Hl. apply elem_of_cons in Hj as [->|Hj]; [done|]. apply IH; [lia|done].
Qed.

Lemma scan_frags_eq (sb : sblock) bm d i map :
  0 <= i -> let l := free_from (fun j => isset bm (d + j)) (upto 0 (fs_frag sb) 1) in
  scan_frags sb bm d i map = (set_bits map (Z.add i <$> l), zlen l).
Proof.
  intros Hi. unfold scan_frags, set_bits.
  assert (Forall (fun j => 0 <= j) (upto 0 (fs_frag sb) 1)) as Hp by by apply upto_nonneg.
  assert (forall l map n, Forall (fun j => 0 <= j) l ->
    fold_left (fun '(map, frags) j => if isset bm (d + j) then (map, frags) else (setbit map (i + j), frags + 1)) l (map, n) =
    (fold_left bit_set (Z.add i <$> free_from (fun j => isset bm (d + j)) l) map,
     n + zlen (free_from (fun j => isset bm (d + j)) l))) as Hgo.
  { clear map Hp. induction l as [|j l IH]; intros map n Hl.
    - cbn. by rewrite Z.add_0_r.
    - inversion Hl as [|? ? Hj Hl']; subst. cbn [fold_left]. unfold free_from. rewrite filter_cons. fold (free_from (fun j => isset bm (d + j)) l).
      destruct (isset bm (d + j)) eqn:Ej.
      + rewrite decide_False by congruence. by apply IH.
      + rewrite decide_True by done. rewrite IH by done. cbn [fmap list_fmap fold_left].
        rewrite setbit_set by lia. f_equal. unfold zlen. cbn. lia. }
  cbn zeta. rewrite Hgo by exact Hp. by rewrite fold_left_foldl.
Qed.

(** A block with a used fragment: its runs are shorter than the block. *)
Lemma partial_weight F (f : Z -> bool) lo j :
  0 < F -> lo <= j < lo + F -> f j = false ->
  run_weight (w_nf F) f lo F = zlen (filter (fun i => f i = true) (seqZ lo F)).
Proof.
  intros HF Hj Hf. transitivity (run_weight (fun r => r) f lo F).
  - apply zsum_ext. intros r Hr. unfold w_nf. destruct (Z.eqb_spec r F) as [->|]; [|done].
    rewrite (run_full f lo F F ltac:(lia) Hr ltac:(lia) j Hj) in Hf. done.
  - unfold run_weight. rewrite runs_count by done. unfold bits, zlen. rewrite Z.add_0_l. f_equal.
    induction (seqZ lo F) as [|x l IH]; [done|]. cbn [fmap list_fmap]. rewrite !filter_cons.
    destruct (f x); [rewrite !decide_True by done|rewrite !decide_False by done]; cbn; by rewrite IH.
Qed.

Lemma zlen_fragacct F map fl cnt : valid_fpb F -> zlen fl = 8 -> zlen (ffs_fragacct F map fl cnt) = zlen fl.
Proof.
  intros HF Hl. pose proof (valid_fpb_pos F HF). unfold ffs_fragacct.
  apply (fragacct_siz_get F _ _ (upto 1 F 1) fl cnt (-1) 0).
  - apply NoDup_fmap_2; [intros x y ?; lia|apply NoDup_seqZ].
  - intros s (k & ? & -> & ?)%elem_of_upto; [|done]. lia.
  - done.
Qed.

(** [blkmap] is the bits of the block. *)
Lemma blkmap_bits (sb : sblock) map b j :
  valid_fpb (fs_frag sb) -> 0 <= b -> 0 <= j < fs_frag sb ->
  Z.testbit (blkmap sb map (b * fs_frag sb)) j = is_free map (b * fs_frag sb + j).
Proof.
  intros HF Hb Hj. unfold blkmap, is_free, NBBY.
  assert (Z.shiftr 255 (8 - fs_frag sb) = Z.ones (fs_frag sb) /\
    (b * fs_frag sb + j) / 8 = b * fs_frag sb / 8 /\ (b * fs_frag sb + j) mod 8 = b * fs_frag sb mod 8 + j) as (-> & -> & ->).
  { destruct HF as [E|[E|[E|E]]]; rewrite E in *; (split; [reflexivity|]); clear E; dlia. }
  assert (0 <= b * fs_frag sb) by nia. pose proof (Z.mod_pos_bound (b * fs_frag sb) 8 ltac:(done)).
  rewrite Z.quot_div_nonneg, Z.rem_mod_nonneg by lia.
  rewrite Z.land_spec, Z.ones_spec_low, Z.shiftr_spec, andb_true_r by lia. f_equal. lia.
Qed.

Lemma blkmap_range (sb : sblock) map loc : valid_fpb (fs_frag sb) -> 0 <= blkmap sb map loc < 2 ^ fs_frag sb.
Proof.
  intros HF. unfold blkmap, NBBY.
  assert (Z.shiftr 255 (8 - fs_frag sb) = Z.ones (fs_frag sb)) as -> by (destruct HF as [E|[E|[E|E]]]; by rewrite E).
  pose proof (valid_fpb_pos _ HF). rewrite Z.land_ones by lia. apply Z.mod_pos_bound. lia.
Qed.

Lemma bits_shift f f' lo lo' n : (forall j, 0 <= j < n -> f (lo + j) = f' (lo' + j)) -> bits f lo n = bits f' lo' n.
Proof.
  intros He. unfold bits. apply list_eq. intros i. rewrite !list_lookup_fmap.
  destruct (decide (Z.of_nat i < n)) as [Hi|Hi].
  - rewrite !(proj2 (lookup_seqZ _ n i _) (conj eq_refl Hi)). cbn. f_equal. apply He. lia.
  - assert (forall a, seqZ a n !! i = None) as Hn.
    { intros a. apply lookup_ge_None_2. rewrite length_seqZ. lia. }
    by rewrite !Hn.
Qed.

(** The fragments counted are the bits set. *)
Lemma free_from_length (used f : Z -> bool) a l :
  (forall j, j ∈ l -> f (a + j) = negb (used j)) ->
  zlen (filter (fun i => f i = true) (Z.add a <$> l)) = zlen (free_from used l).
Proof.
  induction l as [|x l IH]; intros He; [done|]. unfold free_from in *. cbn [fmap list_fmap]. rewrite !filter_cons.
  specialize (IH ltac:(intros j Hj; apply He; by right)). specialize (He x ltac:(by left)). unfold zlen in *.
  destruct (used x); rewrite He; cbn.
  - rewrite !decide_False by done. exact IH.
  - rewrite !decide_True by done. cbn. lia.
Qed.

Section Scan.
Context (sb : sblock) (Hg : wf_geometry sb) (bm : list Z) (base : Z).
#[local] Abbreviation FPB := (fs_frag sb).
#[local] Abbreviation g := (sb_geo sb).

Definition disk_used (i : Z) : bool := isset bm (base + i).

(** What the scan makes of the map, when nothing of block [b] is free. *)
Record scanned (c : cg) (b : Z) (map' : list Z) : Prop := {
  sn_bytes : Forall byte map';
  sn_len : zlen map' = zlen (cg_blksfree c);
  sn_free : forall i, is_free map' i = if i / FPB =? b then negb (disk_used i) else is_free (cg_blksfree c) i }.

Definition free_in (b : Z) : list Z := free_from (fun j => isset bm (base + b * FPB + j)) (upto 0 FPB 1).

Lemma elem_of_free_in b j : j ∈ free_in b <-> 0 <= j < FPB /\ disk_used (b * FPB + j) = false.
Proof using Type.
  unfold free_in, free_from, disk_used. rewrite list_elem_of_filter, elem_of_upto by done.
  replace (base + b * FPB + j) with (base + (b * FPB + j)) by lia. split.
  - intros [H (k & ? & -> & ?)]. split; [lia|done].
  - intros [Hj H]. split; [done|]. exists j. lia.
Qed.

Context (c : cg) (b : Z) (Hc : building g c) (Hb : 0 <= b) (Hin : b * FPB < cg_ndblk c) (Hu : block_used g c b).
Context (Htail : forall i, i / FPB = b -> cg_ndblk c <= i -> disk_used i = true).

Lemma scan_scanned : scanned c b (set_bits (cg_blksfree c) (Z.add (b * FPB) <$> free_in b)).
Proof using Hg Hc Hb Hu Htail.
  pose proof (wb_map _ _ (bu_blocks _ _ Hc)) as [M1 M2 M3]. cbn in *. pose proof (frag_pos g Hg) as HF. constructor.
  - by apply bytes_set_bits.
  - apply zlen_set_bits.
  - intros i. rewrite set_bits_free.
    + destruct (Z.eqb_spec (i / FPB) b) as [E|E].
      * rewrite Hu by done. cbn [orb]. apply eq_true_iff_eq. rewrite bool_decide_eq_true, list_elem_of_fmap, negb_true_iff. split.
        -- intros (j & -> & Hj%elem_of_free_in). apply Hj.
        -- intros Hd. exists (i - b * FPB). apply (block_window g Hg) in E. split; [lia|]. apply elem_of_free_in.
           replace (b * FPB + (i - b * FPB)) with i by lia. split; [lia|done].
      * rewrite bool_decide_eq_false_2, orb_false_r; [done|]. intros (j & -> & Hj%elem_of_free_in)%list_elem_of_fmap.
        apply E, (block_window g Hg). lia.
    + intros x (j & -> & [Hj Hd]%elem_of_free_in)%list_elem_of_fmap. unfold in_map.
      assert ((b * FPB + j) / FPB = b) as E by (apply (block_window g Hg); lia).
      destruct (Z.le_gt_cases (cg_ndblk c) (b * FPB + j)) as [Hle|]; [|lia].
      rewrite (Htail _ E Hle) in Hd. done.
Qed.

Context (map' : list Z) (Hm : scanned c b map').

Lemma scanned_map : wf_map (set_blksfree c map').
Proof using Hg Hc Hb Hm Htail.
  pose proof (wb_map _ _ (bu_blocks _ _ Hc)) as [M1 M2 M3]. cbn in *. destruct Hm as [N1 N2 N3]. constructor; cbn.
  - done.
  - by rewrite N2.
  - intros i Hi. rewrite N3. destruct (Z.eqb_spec (i / FPB) b) as [E|]; [by rewrite Htail|by apply M3].
Qed.

Lemma scanned_outside k : k <> b -> block_avail FPB map' (k * FPB) = block_avail FPB (cg_blksfree c) (k * FPB).
Proof using Hg Hc Hm.
  intros Hk. pose proof (frag_pos g Hg) as HF. apply (avail_ext g Hg); [apply (wb_map _ _ (bu_blocks _ _ Hc))|apply Hm|].
  intros i Hi. rewrite (sn_free _ _ _ Hm). by rewrite Hi, (proj2 (Z.eqb_neq k b) Hk).
Qed.

(** A whole free block. *)
Lemma count_block_building :
  (forall i, i / FPB = b -> disk_used i = false) ->
  let c' := count_block sb true (set_blksfree c map') (b * FPB) in building g c' /\ same_group c c'.
Proof using Hg Hc Hb Hin Hu Htail Hm.
  intros Hall. pose proof (frag_pos g Hg) as HF. pose proof (wb_map _ _ (bu_blocks _ _ Hc)) as Hwm.
  assert ((b * FPB + FPB - 1) / FPB = b) as Hlast by (apply (block_window g Hg); lia).
  assert (group_block g c b) as Hgb.
  { split; [done|]. destruct (Z.le_gt_cases (cg_ndblk c) (b * FPB + FPB - 1)) as [Hle|]; [|lia].
    specialize (Hall _ Hlast). rewrite (Htail _ Hlast Hle) in Hall. done. }
  assert (s32 (Z.quot (b * FPB) FPB) = b) as En by (apply (block_number g Hg c b); [apply Hc|done]).
  set (c' := count_block _ _ _ _). cbn zeta.
  assert (same_group c c') as Hs.
  { unfold same_group, c', count_block. cbn. rewrite (sn_len _ _ _ Hm). repeat split; try done.
    destruct (0 <? fs_contigsumsize g); [|done]. by rewrite En, setbit_set, zlen_bit_set by done. }
  split; [|done]. apply (block_changed_building g Hg c c' b 1 Hc Hgb Hs). constructor.
  - exists map'. split; [done|]. split; [apply scanned_map|]. split; [|done]. constructor; cbn.
    + by left.
    + apply (avail_false g Hg _ b (b * FPB)); [apply Hwm|by apply Z.div_mul; lia|apply Hu; by apply Z.div_mul; lia].
    + rewrite block_avail_free by (apply Hm || apply Hg). intros i Hi. rewrite Z.div_mul in Hi by lia.
      by rewrite (sn_free _ _ _ Hm), Hi, Z.eqb_refl, Hall.
    + intros k Hk. by apply scanned_outside.
  - intros i. cbn. rewrite (sn_free _ _ _ Hm). destruct (Z.eqb_spec (i / FPB) b) as [E|]; [by rewrite Hall|done].
  - exact Hu.
  - done.
  - intros HS k Hk. destruct (block_cluster g Hg c b Hc HS Hgb) as [_ Hmap]. cbn [c' count_block cg_clustersfree set_blksfree].
    unfold c', count_block. cbn [cg_clustersfree set_blksfree].
    rewrite (proj2 (Z.ltb_lt _ _) HS), En, setbit_set, bit_set_free by done. by destruct (k =? b).
Qed.

Lemma scan_block_index : 0 <= b < nblocks g.
Proof using Hg Hc Hb Hin.
  pose proof (frag_pos g Hg). pose proof (nblocks_fpg g Hg). pose proof (wb_ndblk _ _ (bu_blocks _ _ Hc)) as Hn. cbn in Hn. nia.
Qed.

Lemma scanned_weight w : group_weight g w map' = group_weight g w (cg_blksfree c) + blk_weight g w map' b.
Proof using Hg Hc Hb Hin Hu Hm.
  rewrite (group_weight_upd g Hg w (cg_blksfree c) map' b).
  - rewrite (blk_weight_empty g Hg w (cg_blksfree c) b) by exact Hu. lia.
  - apply scan_block_index.
  - intros i Hi. by rewrite (sn_free _ _ _ Hm), (proj2 (Z.eqb_neq _ b) Hi).
Qed.

Lemma scanned_count i : i / FPB = b -> disk_used i = true -> blk_weight g (w_nf FPB) map' b = zlen (free_in b).
Proof using Hg Hm.
  intros Hi Hused. pose proof (frag_pos g Hg) as HF. unfold blk_weight.
  rewrite (partial_weight FPB _ (b * FPB) i); [|lia|by apply (block_window g Hg)|by rewrite (sn_free _ _ _ Hm), Hi, Z.eqb_refl, Hused].
  unfold free_in. replace (seqZ (b * FPB) FPB) with (Z.add (b * FPB) <$> upto 0 FPB 1).
  - apply free_from_length. intros j (k & ? & -> & ?)%elem_of_upto; [|done].
    rewrite (sn_free _ _ _ Hm). assert ((b * FPB + (0 + 1 * k)) / FPB = b) as -> by (apply (block_window g Hg); lia).
    rewrite Z.eqb_refl. unfold disk_used. do 2 f_equal. lia.
  - unfold upto. rewrite <- list_fmap_compose. replace ((FPB - 0 + 1 - 1) / 1) with FPB by (rewrite Z.div_1_r; lia).
    transitivity (Z.add (b * FPB) <$> seqZ 0 FPB); [apply list_fmap_ext; intros; cbn; lia|]. rewrite fmap_add_seqZ. f_equal. lia.
Qed.

Lemma part_block_building i :
  i / FPB = b -> disk_used i = true ->
  let c' := set_frsum (set_cs (set_blksfree c map') (csum_add_nffree (cg_cs c) (zlen (free_in b))))
    (ffs_fragacct FPB (blkmap sb map' (b * FPB)) (cg_frsum c) 1) in building g c' /\ same_group c c'.
Proof using Hg Hc Hb Hin Hu Htail Hm.
  intros Hi Hused. pose proof (frag_pos g Hg) as HF. pose proof (wb_map _ _ (bu_blocks _ _ Hc)) as Hwm.
  pose proof (bu_frags _ _ Hc) as [F1 F2 F3].
  pose proof (group_weight_bounds g Hg map') as (_ & W1 & W2). pose proof (group_weight_bounds g Hg (cg_blksfree c)) as (_ & W3 & W4).
  pose proof (nblocks_bound g Hg) as Hnb. pose proof (nblocks_fpg g Hg) as Hnf.
  assert (forall x, block_avail FPB map' (x * FPB) = block_avail FPB (cg_blksfree c) (x * FPB)) as Hav.
  { intros x. destruct (Z.eq_dec x b) as [->|]; [|by apply scanned_outside].
    transitivity false; [|symmetry].
    - apply (avail_false g Hg _ b i); [apply Hm|done|by rewrite (sn_free _ _ _ Hm), Hi, Z.eqb_refl, Hused].
    - apply (avail_false g Hg _ b i); [apply Hwm|done|by apply Hu]. }
  cbn zeta. split.
  - constructor.
    + apply (wf_blocks_plain g (set_blksfree c map')); try done.
      apply (wf_blocks_map (plain g)); [by apply plain_wf|apply Hc|apply scanned_map|exact Hav].
    + assert (forall k, in_s32 (zget (cg_frsum c) k) -> zget (ffs_fragacct FPB (blkmap sb map' (b * FPB)) (cg_frsum c) 1) k =
        s32 (zget (cg_frsum c) k + if (1 <=? k) && (k <? FPB) then blk_weight g (w_fr k) map' b else 0)) as Hfr.
      { intros k Hk. rewrite ffs_fragacct_runs; [|apply Hg|apply blkmap_range, Hg|done|done].
        do 2 f_equal. case_match; [|done]. rewrite Z.mul_1_l. unfold blk_weight, run_weight. do 2 f_equal.
        apply bits_shift. intros j Hj. rewrite blkmap_bits by (apply Hg || lia). done. }
      constructor; cbn.
      * by rewrite zlen_fragacct by (apply Hg || done).
      * rewrite scanned_weight, (scanned_count i), F2 by done. apply s32_small. unfold in_s32.
        rewrite <- (scanned_count i), <- scanned_weight by done. zify_pow. lia.
      * intros k Hk. rewrite Hfr, F3, scanned_weight by (rewrite ?F3 by done; specialize (W4 k ltac:(lia)); unfold in_s32; zify_pow; lia).
        rewrite (proj2 (Z.leb_le 1 k)), (proj2 (Z.ltb_lt k FPB)) by lia. apply s32_small. cbn [andb].
        rewrite <- scanned_weight. specialize (W2 k ltac:(lia)). unfold in_s32. zify_pow. lia.
    + intros HS. destruct (bu_clusters _ _ Hc HS) as [C1 C2 C3 C4]. constructor; cbn; try done.
      intros k Hk. rewrite Hav. by apply C4.
  - unfold same_group. cbn. rewrite (sn_len _ _ _ Hm). done.
Qed.

End Scan.

Section Blocks.
Context (sb : sblock) (Hg : wf_geometry sb) (bm : list Z) (base : Z).
#[local] Abbreviation FPB := (fs_frag sb).
#[local] Abbreviation g := (sb_geo sb).
#[local] Abbreviation disk_used := (disk_used bm base).
#[local] Abbreviation free_in := (free_in sb bm base).

Lemma scan_block_building c b :
  building g c -> 0 <= b -> b * FPB < cg_ndblk c -> block_used g c b ->
  (forall i, i / FPB = b -> cg_ndblk c <= i -> disk_used i = true) ->
  let c' := scan_block sb bm true base c (b * FPB) in
  building g c' /\ same_group c c' /\
  forall i, is_free (cg_blksfree c') i = if i / FPB =? b then negb (disk_used i) else is_free (cg_blksfree c) i.
Proof using Hg.
  intros Hc Hb Hin Hu Htail. pose proof (frag_pos g Hg) as HF. unfold scan_block. rewrite scan_frags_eq by nia. fold (free_in b).
  pose proof (scan_scanned sb Hg bm base c b Hc Hb Hu Htail) as Hsn. 
  assert (zlen (free_in b) <= 0 -> set_bits (cg_blksfree c) (Z.add (b * FPB) <$> free_in b) = cg_blksfree c) as Hnil.
  { unfold zlen. destruct (free_in b); [done|]. cbn. lia. }
  set (m := set_bits _ _) in *. clearbody m.
  assert (forall j, j ∈ upto 0 FPB 1 <-> 0 <= j < FPB) as Hin'.
  { intros j. rewrite elem_of_upto by done. split; [intros (? & ? & -> & ?); lia|intros; exists j; lia]. }
  assert (zlen (upto 0 FPB 1) = FPB) as Hl by (rewrite zlen_upto1; lia).
  destruct (Z.eqb_spec (zlen (free_in b)) FPB) as [E|E].
  - destruct (count_block_building sb Hg bm base c b Hc Hb Hin Hu Htail m Hsn) as [B1 B2]; [|split; [exact B1|split; [exact B2|apply Hsn]]].
    intros i Hi. apply (block_window g Hg) in Hi.
    pose proof (free_from_full (fun j => isset bm (base + b * FPB + j)) (upto 0 FPB 1)) as Hf.
    unfold free_in, zlen in *. specialize (Hf ltac:(lia) (i - b * FPB) ltac:(apply Hin'; lia)). cbn in Hf.
    unfold disk_used. by replace (base + i) with (base + b * FPB + (i - b * FPB)) by lia.
  - assert (exists i, i / FPB = b /\ disk_used i = true) as (i & Hi & Hused).
    { destruct (decide (Forall (fun j => isset bm (base + b * FPB + j) = false) (upto 0 FPB 1))) as [Hall|Hex].
      - exfalso. apply E. unfold free_in. rewrite free_from_all; [done|]. by apply Forall_forall.
      - apply not_Forall_Exists in Hex; [|apply _]. apply Exists_exists in Hex as (j & Hj%Hin' & Hu').
        exists (b * FPB + j). split; [apply (block_window g Hg); lia|]. unfold disk_used. rewrite Z.add_assoc. by apply not_false_is_true. }
    destruct (Z.ltb_spec 0 (zlen (free_in b))) as [Hp|Hp].
    + destruct (part_block_building sb Hg bm base c b Hc Hb Hin Hu Htail m Hsn i Hi Hused) as [B1 B2]. split; [exact B1|split; [exact B2|apply Hsn]].
    + assert (forall i, i / FPB = b -> disk_used i = true) as Hall.
      { intros x Hx. destruct (disk_used x) eqn:Ex; [done|exfalso]. apply (block_window g Hg) in Hx.
        assert (x - b * FPB ∈ free_in b) as Hmem.
        { apply (elem_of_free_in sb). replace (b * FPB + (x - b * FPB)) with x by lia. split; [lia|done]. }
        apply list_elem_of_lookup in Hmem as [k Hk]. apply lookup_lt_Some in Hk. unfold zlen in Hp. lia. }
      rewrite (Hnil Hp). split; [by apply (building_ext g c)|]. split; [by repeat split|]. intros x. cbn.
      destruct (Z.eqb_spec (x / FPB) b) as [Ex|]; [|done]. by rewrite Hall, Hu.
Qed.

(** All blocks of the group, from [b0] on. *)
Lemma scan_blocks_building m : forall c b0,
  building g c -> 0 <= b0 -> Z.of_nat m = (cg_ndblk c + FPB - 1) / FPB - b0 ->
  (forall i, b0 * FPB <= i -> is_free (cg_blksfree c) i = false) ->
  (forall i, cg_ndblk c <= i < (cg_ndblk c + FPB - 1) / FPB * FPB -> disk_used i = true) ->
  let c' := fold_left (scan_block sb bm true base) ((fun b => b * FPB) <$> seqZ b0 (Z.of_nat m)) c in
  building g c' /\ same_group c c' /\
  forall i, is_free (cg_blksfree c') i =
    if (b0 <=? i / FPB) && (i / FPB <? b0 + Z.of_nat m) then negb (disk_used i) else is_free (cg_blksfree c) i.
Proof using Hg.
  pose proof (frag_pos g Hg) as HF. induction m as [|m IH]; intros c b0 Hc Hb0 Hm Hfree Htail.
  - split; [done|]. split; [done|]. intros i.
    destruct (Z.leb_spec b0 (i / FPB)), (Z.ltb_spec (i / FPB) (b0 + Z.of_nat 0)); try done. lia.
  - rewrite seqZ_cons, fmap_cons by lia. cbn [fold_left]. replace (Z.pred (Z.of_nat (S m))) with (Z.of_nat m) by lia.
    set (e := (cg_ndblk c + FPB - 1) / FPB) in *.
    assert (e * FPB < cg_ndblk c + FPB) as He.
    { unfold e. pose proof (Z.div_mod (cg_ndblk c + FPB - 1) FPB ltac:(lia)). pose proof (Z.mod_pos_bound (cg_ndblk c + FPB - 1) FPB ltac:(lia)). lia. }
    destruct (scan_block_building c b0 Hc Hb0) as (Hc1 & Hs1 & Hf1).
    + nia.
    + intros i Hi. apply Hfree. apply (block_window g Hg) in Hi. lia.
    + intros i Hi Hle. apply Htail. apply (block_window g Hg) in Hi. split; [done|]. nia.
    + set (c1 := scan_block sb bm true base c (b0 * FPB)) in *. assert (cg_ndblk c1 = cg_ndblk c) as En by apply Hs1.
      destruct (IH c1 (Z.succ b0) Hc1) as (Hc2 & Hs2 & Hf2).
      * lia.
      * rewrite En. fold e. lia.
      * intros i Hi. rewrite Hf1. pose proof (proj2 (block_window g Hg (i / FPB) i) eq_refl).
        rewrite (proj2 (Z.eqb_neq (i / FPB) b0)) by nia. apply Hfree. lia.
      * intros i. rewrite En. apply Htail.
      * split; [done|]. split; [by etrans|]. intros i. rewrite Hf2, Hf1.
        destruct (Z.leb_spec (Z.succ b0) (i / FPB)), (Z.ltb_spec (i / FPB) (Z.succ b0 + Z.of_nat m)),
          (Z.leb_spec b0 (i / FPB)), (Z.ltb_spec (i / FPB) (b0 + Z.of_nat (S m))), (Z.eqb_spec (i / FPB) b0); cbn [andb]; done || lia.
Qed.

End Blocks.

(** ** The inodes of a group *)

Definition mark_inode (c : cg) (i : Z) : cg :=
  set_inosused (set_cs c (csum_add_nifree (cg_cs c) (-1))) (setbit (cg_inosused c) i).

Lemma reserve_mark c i : reserve_inode c i = mark_inode c i.
Proof. by destruct c. Qed.

(** States of inodes: those counted as used, and those pass 5 accepts. *)
Definition state_used (st : Z) : bool :=
  (st =? DSTATE) || (st =? DCLEAR) || (st =? DFOUND) || (st =? FSTATE) || (st =? FCLEAR).
Definition state_ok (j st : Z) : Prop := st = USTATE \/ state_used st = true \/ state_used st = false /\ j < ROOTINO.

Section Inodes.
Context (n : Z) (Hn : 0 <= n < 2 ^ 30).

(** The count of free inodes is that of the map. *)
Record counted (c : cg) : Prop := {
  ct_bytes : Forall byte (cg_inosused c);
  ct_ndir : in_s32 (cs_ndir (cg_cs c));
  ct_len : n <= 8 * zlen (cg_inosused c);
  ct_count : cs_nifree (cg_cs c) = zsum (fun i => if is_free (cg_inosused c) i then 0 else 1) (seqZ 0 n) }.

(** The same group but for its inodes. *)
Definition same_space (c c' : cg) : Prop :=
  cg_cgx c' = cg_cgx c /\ cg_niblk c' = cg_niblk c /\ cg_ndblk c' = cg_ndblk c /\
  cs_nbfree (cg_cs c') = cs_nbfree (cg_cs c) /\ cs_nffree (cg_cs c') = cs_nffree (cg_cs c) /\
  cg_irotor c' = cg_irotor c /\ cg_frsum c' = cg_frsum c /\ cg_blktot c' = cg_blktot c /\ cg_blks c' = cg_blks c /\
  cg_blksfree c' = cg_blksfree c /\ cg_clustersum c' = cg_clustersum c /\ cg_clustersfree c' = cg_clustersfree c /\
  cg_nclusterblks c' = cg_nclusterblks c /\ zlen (cg_inosused c') = zlen (cg_inosused c).

#[export] Instance same_space_preorder : PreOrder same_space.
Proof using Type.
  split; [by repeat split|]. unfold same_space. intros c1 c2 c3 H1 H2.
  decompose [and] H1. decompose [and] H2. repeat split; congruence.
Qed.

Lemma counted_range c : counted c -> 0 <= cs_nifree (cg_cs c) <= n.
Proof using Hn.
  intros [_ _ _ ->]. split; [apply zsum_nonneg; intros; by case_match|].
  pose proof (zsum_le (fun i => if is_free (cg_inosused c) i then 0 else 1) (seqZ 0 n) 1 ltac:(intros; cbn; by case_match)) as H.
  rewrite length_seqZ in H. lia.
Qed.

Lemma mark_inode_ok c i :
  counted c -> 0 <= i < n -> is_free (cg_inosused c) i = false ->
  counted (mark_inode c i) /\ same_space c (mark_inode c i) /\
  forall x, is_free (cg_inosused (mark_inode c i)) x = (x =? i) || is_free (cg_inosused c) x.
Proof using Hn.
  intros Hc Hi Hf. pose proof (counted_range c Hc) as Hr. destruct Hc as [By Dr L C].
  assert (forall x, is_free (cg_inosused (mark_inode c i)) x = (x =? i) || is_free (cg_inosused c) x) as Hx.
  { intros x. cbn. rewrite setbit_set, bit_set_free by (unfold in_map; lia). by destruct (x =? i). }
  split; [|split; [|exact Hx]].
  - constructor; cbn [mark_inode set_inosused set_cs cg_inosused cg_cs csum_add_nifree cs_nifree].
    + rewrite setbit_set by lia. by apply bytes_bit_set.
    + exact Dr.
    + rewrite setbit_set, zlen_bit_set by lia. exact L.
    + rewrite (zsum_update (fun x => if is_free (cg_inosused c) x then 0 else 1) _ _ i).
      * rewrite <- C. change (setbit (cg_inosused c) i) with (cg_inosused (mark_inode c i)). rewrite Hx, Z.eqb_refl, Hf.
        cbn [orb]. rewrite s32_small; [lia|]. unfold in_s32. zify_pow. lia.
      * apply NoDup_seqZ.
      * apply elem_of_seqZ. lia.
      * intros x _ Hne. change (setbit (cg_inosused c) i) with (cg_inosused (mark_inode c i)).
        by rewrite Hx, (proj2 (Z.eqb_neq x i) Hne).
  - unfold same_space. cbn. rewrite setbit_set, zlen_bit_set by lia. done.
Qed.

(** What one turn of the loop does. *)
Definition seen_inode (sm : list Z) (c : cg) (j i : Z) : cg :=
  let st := zget sm j in
  if state_used st
  then mark_inode (if (st =? DSTATE) || (st =? DCLEAR) || (st =? DFOUND) then set_cs c (csum_add_ndir (cg_cs c) 1) else c) i
  else c.

Lemma scan_inode_seen sm c j i : state_ok j (zget sm j) -> scan_inode sm c j i = ok (seen_inode sm c j i).
Proof using Type.
  unfold scan_inode, seen_inode, state_ok, state_used. generalize (zget sm j) as st. intros st Hst.
  destruct (Z.eqb_spec st USTATE) as [->|Hne]; [done|].
  destruct (Z.eqb_spec st DSTATE); [done|]. destruct (Z.eqb_spec st DCLEAR); [done|]. destruct (Z.eqb_spec st DFOUND); [done|].
  destruct (Z.eqb_spec st FSTATE); [done|]. destruct (Z.eqb_spec st FCLEAR); [done|]. cbn [orb] in *.
  destruct Hst as [|[|[_ Hj]]]; [done..|]. by rewrite (proj2 (Z.ltb_lt _ _) Hj).
Qed.

Lemma scan_inodes_ok sm base m : forall i c,
  Z.of_nat m = n - i -> 0 <= i -> counted c ->
  (forall x, i <= x < n -> state_ok (base + x) (zget sm (base + x))) ->
  (forall x, i <= x -> is_free (cg_inosused c) x = false) ->
  exists c', scan_inodes sm c (base + i) (upto i n 1) = ok c' /\ counted c' /\ same_space c c' /\
    forall x, is_free (cg_inosused c') x =
      if (i <=? x) && (x <? n) then state_used (zget sm (base + x)) else is_free (cg_inosused c) x.
Proof using Hn.
  induction m as [|m IH]; intros i c Hm Hi Hc Hst Hf.
  - rewrite upto_nil by lia. exists c. split; [done|]. split; [done|]. split; [done|]. intros x.
    destruct (Z.leb_spec i x), (Z.ltb_spec x n); done || lia.
  - rewrite upto_cons by lia. cbn [scan_inodes]. rewrite scan_inode_seen by (apply Hst; lia). cbn [rbind ok].
    set (c1 := seen_inode sm c (base + i) i).
    assert (counted c1 /\ same_space c c1 /\ forall x, is_free (cg_inosused c1) x =
      (x =? i) && state_used (zget sm (base + i)) || is_free (cg_inosused c) x) as (Hc1 & Hs1 & Hf1).
    { unfold c1, seen_inode. destruct (state_used (zget sm (base + i))).
      - match goal with |- context [mark_inode ?a _] => set (c0 := a) end.
        assert (counted c0 /\ same_space c c0 /\ cg_inosused c0 = cg_inosused c) as (A1 & A2 & A3)
          by (unfold c0; case_match; (split; [destruct Hc; constructor; try done; apply s32_range|split; [by repeat split|done]])).
        destruct (mark_inode_ok c0 i A1) as (B1 & B2 & B3); [lia|rewrite A3; by apply Hf|].
        split; [done|]. split; [by etrans|]. intros x. by rewrite B3, A3, andb_true_r.
      - split; [done|]. split; [done|]. intros x. by rewrite andb_false_r. }
    replace (base + i + 1) with (base + (i + 1)) by lia.
    destruct (IH (i + 1) c1) as (c' & E & Hc' & Hs' & Hf'); [lia|lia|done|intros; apply Hst; lia| |].
    { intros x Hx. rewrite Hf1, (proj2 (Z.eqb_neq x i)) by lia. apply Hf. lia. }
    exists c'. split; [done|]. split; [done|]. split; [by etrans|]. intros x. rewrite Hf', Hf1.
    destruct (Z.leb_spec (i + 1) x), (Z.ltb_spec x n), (Z.leb_spec i x), (Z.eqb_spec x i) as [->|]; cbn [andb orb]; try done; try lia.
    all: try (rewrite Hf, orb_false_r by lia; done).
Qed.

End Inodes.

(** ** Numbers in range *)

(** Every entry fits the type of its table. *)
Record shaped (sb : sblock) (c : cg) : Prop := {
  sh_frsum : Forall in_s32 (cg_frsum c) /\ zlen (cg_frsum c) = MAXFRAG;
  sh_blktot : Forall in_s32 (cg_blktot c) /\ zlen (cg_blktot c) = fs_cpg sb;
  sh_blks : Forall (fun x => s16 x = x) (cg_blks c) /\ zlen (cg_blks c) = fs_cpg sb * fs_nrpos sb;
  sh_sum : Forall in_s32 (cg_clustersum c) /\ (0 < fs_contigsumsize sb -> zlen (cg_clustersum c) = fs_contigsumsize sb + 1);
  sh_clusters : Forall byte (cg_clustersfree c);
  sh_cs : in_s32 (cs_ndir (cg_cs c)) /\ in_s32 (cs_nbfree (cg_cs c)) /\ in_s32 (cs_nifree (cg_cs c)) /\ in_s32 (cs_nffree (cg_cs c)) }.

Lemma s16_s16 x : s16 (s16 x) = s16 x.
Proof. unfold s16. zify_pow. dlia. Qed.

Lemma Forall_repeat {A} (P : A -> Prop) a n : P a -> Forall P (repeat a n).
Proof. intros Ha. induction n; constructor; done. Qed.

Lemma fragacct_pos_s32 F siz m cnt fuel : forall field sub pos l,
  Forall in_s32 l -> Forall in_s32 (fragacct_pos fuel F siz m field sub pos l cnt).
Proof.
  induction fuel as [|fuel IH]; intros field sub pos l Hl; [done|]. cbn [fragacct_pos]. case_match; [|done].
  apply IH. case_match; [|done]. apply zset_Forall; [done|apply s32_range].
Qed.

Lemma fragacct_s32 F map l cnt : Forall in_s32 l -> Forall in_s32 (ffs_fragacct F map l cnt).
Proof.
  unfold ffs_fragacct. generalize (upto 1 F 1) as u. intros u. revert l. induction u as [|x u IH]; intros l Hl; [done|].
  cbn [fragacct_siz]. case_match; apply IH; [done|by apply fragacct_pos_s32].
Qed.

Lemma bytes_setbit a i : Forall byte a -> Forall byte (setbit a i).
Proof. intros Ha. apply zset_Forall; [done|apply byte_u8]. Qed.

Lemma scan_block_shaped (sb : sblock) bm base c i :
  valid_fpb (fs_frag sb) -> shaped sb c -> shaped sb (scan_block sb bm true base c i).
Proof.
  intros HF [[F1 F2] [T1 T2] [B1 B2] S K (C1 & C2 & C3 & C4)]. unfold scan_block.
  destruct (scan_frags sb bm (base + i) i (cg_blksfree c)) as [map frags]. case_match; [|case_match].
  - constructor; cbn; try done.
    + split; [apply zset_Forall; [done|apply s32_range]|by rewrite zlen_zset].
    + split; [apply zset_Forall; [done|apply s16_s16]|by rewrite zlen_zset].
    + case_match; [by apply bytes_setbit|done].
    + split; [done|]. split; [apply s32_range|done].
  - constructor; cbn; try done.
    + split; [by apply fragacct_s32|]. by rewrite zlen_fragacct.
    + split; [done|]. split; [done|]. split; [done|apply s32_range].
  - by constructor.
Qed.

Lemma scan_blocks_shaped (sb : sblock) bm base l : forall c,
  valid_fpb (fs_frag sb) -> shaped sb c -> shaped sb (fold_left (scan_block sb bm true base) l c).
Proof.
  induction l as [|i l IH]; intros c HF Hc; [done|]. cbn [fold_left]. apply IH; [done|]. by apply scan_block_shaped.
Qed.

Lemma count_run_s32 (sb : sblock) sump run : Forall in_s32 sump -> Forall in_s32 (count_run sb sump run).
Proof. intros H. apply zset_Forall; [done|apply s32_range]. Qed.

Lemma cluster_scan_s32 (sb : sblock) mapp l : forall next map bit run sump,
  Forall in_s32 sump ->
  Forall in_s32 (cluster_scan sb l mapp next map bit run sump) /\
  zlen (cluster_scan sb l mapp next map bit run sump) = zlen sump.
Proof.
  induction l as [|i l IH]; intros next map bit run sump Hs; cbn [cluster_scan].
  - case_match; [done|]. split; [by apply count_run_s32|apply zlen_count_run].
  - match goal with |- context [cluster_scan sb l mapp next map _ _ ?s] => set (sump' := s) end.
    assert (Forall in_s32 sump' /\ zlen sump' = zlen sump) as [H1 H2].
    { unfold sump'. case_match; [done|]. split; [by apply count_run_s32|apply zlen_count_run]. }
    case_match; rewrite <- H2; by apply IH.
Qed.

Lemma cluster_space_shaped (sb : sblock) c : shaped sb c -> shaped sb (cluster_space sb c).
Proof.
  intros [H1 H2 H3 [S1 S2] H4 H5]. unfold cluster_space. case_match; [|done]. constructor; try done. cbn.
  destruct (cluster_scan_s32 sb (cg_clustersfree c) (upto 0 (cg_nclusterblks c) 1) 1 (zget (cg_clustersfree c) 0) 1 0 _ S1) as [A B].
  split; [done|]. intros HS. etrans; [exact B|by apply S2].
Qed.

Lemma same_space_shaped (sb : sblock) c c' :
  same_space c c' -> in_s32 (cs_ndir (cg_cs c')) -> in_s32 (cs_nifree (cg_cs c')) -> shaped sb c -> shaped sb c'.
Proof.
  intros (E1 & E2 & E3 & E4 & E5 & E6 & E7 & E8 & E9 & E10 & E11 & E12 & E13 & E14) Hd Hi [H1 H2 H3 H4 H5 (C1 & C2 & C3 & C4)].
  constructor; rewrite ?E7, ?E8, ?E9, ?E11, ?E12; try done. rewrite E4, E5. done.
Qed.

(** ** The group pass 5 computes *)

Section NewGroup.
Context (sb : sblock) (Ht : group_tables sb) (bm sm : list Z).
Context (Hsize : fs_fpg sb * (fs_ncg sb - 1) < fs_size sb <= fs_fpg sb * fs_ncg sb).
Context (Hipg : fs_ipg sb < 2 ^ 15) (Hmax : fs_ipg sb * fs_ncg sb < 2 ^ 31).
Context (Htail : forall i, fs_size sb <= i < (fs_size sb + fs_frag sb - 1) / fs_frag sb * fs_frag sb -> isset bm i = true).
#[local] Abbreviation FPB := (fs_frag sb).
#[local] Abbreviation g := (sb_geo sb).

Let Hg : wf_geometry g := gt_wf sb Ht.

(** The fragments of group [k]. *)
Definition frags_of (k : Z) : Z := Z.min (fs_fpg sb) (fs_size sb - fs_fpg sb * k).

(** What pass 5 promises of the group it computes for [k]. *)
Definition kept_irotor (old : list Z) : Z :=
  let irotor := word32 old at_irotor in if (0 <=? irotor) && (irotor <? fs_ipg sb) then irotor else 0.

Record computed (k : Z) (old : list Z) (c : cg) : Prop := {
  cp_blocks : wf_blocks g c;
  cp_frags : wf_frags g c;
  cp_shaped : shaped sb c;
  cp_cgx : cg_cgx c = k;
  cp_ndblk : cg_ndblk c = frags_of k;
  cp_free : forall i, is_free (cg_blksfree c) i = in_range 0 (frags_of k) i && negb (isset bm (fs_fpg sb * k + i));
  cp_len : zlen (cg_blksfree c) = howmany (fs_fpg sb) NBBY;
  cp_niblk : cg_niblk c = fs_ipg sb;
  cp_irotor : cg_irotor c = kept_irotor old;
  cp_nifree : cs_nifree (cg_cs c) = free_inodes c;
  cp_used : forall i, is_free (cg_inosused c) i =
    in_range 0 (fs_ipg sb) i && (state_used (zget sm (fs_ipg sb * k + i)) || (k =? 0) && (i <? ROOTINO));
  cp_inosused : Forall byte (cg_inosused c) /\ zlen (cg_inosused c) = howmany (fs_ipg sb) NBBY;
  cp_clusters : 0 < fs_contigsumsize sb ->
    Forall byte (cg_clustersfree c) /\ zlen (cg_clustersfree c) = howmany (fs_fpg sb / FPB) NBBY;
  cp_nclusters : in_s32 (cg_nclusterblks c) }.

Lemma frags_bounds k : 0 <= k < fs_ncg sb -> 0 < frags_of k <= fs_fpg sb /\ fs_fpg sb * k + frags_of k <= fs_size sb.
Proof using Ht Hsize. intros Hk. unfold frags_of. destruct (wg_fpg g Hg) as [Hp _]. nia. Qed.

Lemma group_ndblk_eq k : 0 <= k < fs_ncg sb -> n_cgbase sb k = fs_fpg sb * k /\ group_ndblk sb k = frags_of k.
Proof using Ht Hsize.
  intros Hk. destruct (group_bound g Hg k Hk) as [G1 G2]. destruct (frags_bounds k Hk) as [G3 G4].
  destruct (wg_fpg g Hg) as [Hp _]. pose proof (wg_size g Hg) as Hs.
  assert (n_cgbase sb k = fs_fpg sb * k) as E by (unfold n_cgbase; apply s32_small; unfold in_s32; zify_pow; lia).
  split; [done|]. unfold group_ndblk. rewrite E, (s32_small (_ + _)) by (unfold in_s32; zify_pow; lia).
  unfold frags_of. destruct (Z.ltb_spec (fs_size sb) (fs_fpg sb * k + fs_fpg sb)).
  - rewrite s32_small by (unfold in_s32; zify_pow; lia). lia.
  - rewrite s32_small by (unfold in_s32; zify_pow; lia). lia.
Qed.

(** Past the end of a group, up to the end of its last block, all is used. *)
Lemma tail_used k i :
  0 <= k < fs_ncg sb -> frags_of k <= i < (frags_of k + FPB - 1) / FPB * FPB -> isset bm (fs_fpg sb * k + i) = true.
Proof using Ht Hsize Htail.
  intros Hk Hi. pose proof (frag_pos g Hg) as HF. destruct (wg_fpg g Hg) as [Hp [q Hq]].
  destruct (Z.le_gt_cases (fs_fpg sb) (fs_size sb - fs_fpg sb * k)) as [Hfull|Hpart].
  - assert (frags_of k = q * FPB) as E by (unfold frags_of; lia). rewrite E in Hi.
    replace (q * FPB + FPB - 1) with (FPB - 1 + q * FPB) in Hi by lia. rewrite Z.div_add, Z.div_small in Hi by lia. lia.
  - assert (frags_of k = fs_size sb - fs_fpg sb * k) as E by (unfold frags_of; lia). apply Htail.
    rewrite E in Hi. rewrite Hq in *. replace (fs_size sb + FPB - 1) with (fs_size sb - q * FPB * k + FPB - 1 + q * k * FPB) by lia.
    rewrite Z.div_add by lia. lia.
Qed.

(** The blocks scanned cover the group. *)
Lemma bits_done k i : 0 <= k < fs_ncg sb ->
  (if (0 <=? i / FPB) && (i / FPB <? 0 + Z.of_nat (Z.to_nat ((frags_of k + FPB - 1) / FPB)))
   then negb (disk_used bm (fs_fpg sb * k) i) else false) =
  in_range 0 (frags_of k) i && negb (isset bm (fs_fpg sb * k + i)).
Proof using Ht Hsize Htail.
  intros Hk. destruct (frags_bounds k Hk) as [Hnd _]. pose proof (frag_pos g Hg) as HF.
  assert (0 <= (frags_of k + FPB - 1) / FPB) as Hq by (apply Z.div_pos; lia). unfold disk_used, in_range.
  pose proof (proj2 (block_window g Hg (i / FPB) i) eq_refl) as Hi.
  destruct (Z.leb_spec 0 i) as [H0|H0]; cbn [andb].
  2:{ destruct (Z.leb_spec 0 (i / FPB)); [nia|done]. }
  rewrite (proj2 (Z.leb_le 0 (i / FPB))) by (apply Z.div_pos; lia). cbn [andb].
  destruct (Z.ltb_spec (i / FPB) (0 + Z.of_nat (Z.to_nat ((frags_of k + FPB - 1) / FPB)))) as [Hl|Hl].
  - destruct (Z.ltb_spec i (0 + frags_of k)) as [|Hge]; [done|]. rewrite (tail_used k i); [done|done|]. nia.
  - destruct (Z.ltb_spec i (0 + frags_of k)) as [Hlt|]; [|done]. exfalso.
    pose proof (Z.div_mod (frags_of k + FPB - 1) FPB ltac:(lia)). pose proof (Z.mod_pos_bound (frags_of k + FPB - 1) FPB ltac:(lia)). nia.
Qed.

(** The clusters counted, the group is done. *)
Lemma clusters_done c : building g c -> (forall j, zget (cg_clustersum c) j = 0) ->
  wf_blocks sb (cluster_space sb c) /\ wf_frags sb (cluster_space sb c).
Proof using Ht.
  intros B H0. clear Hsize Hipg Hmax Htail. unfold cluster_space. destruct (Z.ltb_spec 0 (fs_contigsumsize sb)) as [HS|HS].
  - apply (building_clusters g Hg sb c eq_refl HS B). intros j _. apply H0.
  - destruct B as [W1 W2 _]. split; [|done]. destruct W1 as [M W2' W3 W4 W5 W6 _]. constructor; try done. intros ?. lia.
Qed.

Lemma start_group_ok k nd old (c := start_group sb k nd old) :
  0 <= nd <= fs_fpg sb ->
  building g c /\ shaped sb c /\ counted (fs_ipg sb) c /\ (forall i, is_free (cg_inosused c) i = false) /\
  (forall i, is_free (cg_blksfree c) i = false) /\ (forall j, zget (cg_clustersum c) j = 0) /\
  cg_cgx c = k /\ cg_ndblk c = nd /\ cg_niblk c = fs_ipg sb /\ cg_irotor c = kept_irotor old /\
  zlen (cg_inosused c) = howmany (fs_ipg sb) NBBY /\ zlen (cg_blksfree c) = howmany (fs_fpg sb) NBBY /\
  (0 < fs_contigsumsize sb -> Forall byte (cg_clustersfree c) /\ zlen (cg_clustersfree c) = howmany (fs_fpg sb / FPB) NBBY) /\
  in_s32 (cg_nclusterblks c).
Proof using Ht Hipg Hsize.
  intros Hnd. destruct (wg_ipg g Hg) as [Hp _]. destruct (wg_fpg g Hg) as [Hfp _]. change (2 ^ 15) with 32768 in Hipg.
  pose proof (gt_max sb Ht) as Hm. pose proof (gt_nspf sb Ht) as Hns. pose proof (gt_cpg sb Ht) as Hcp. destruct (gt_rpos sb Ht) as [Hrp _].
  destruct (howmany_bits (fs_ipg sb)) as [Hb1 Hb2]; [change (2 ^ 30) with 1073741824; lia|].
  destruct (howmany_bits (fs_fpg sb)) as [Hb3 Hb4]; [nia|].
  assert (0 <= fs_fpg sb / FPB <= fs_fpg sb) as Hq.
  { pose proof (frag_pos g Hg). split; [apply Z.div_pos; lia|apply Z.div_le_upper_bound; nia]. }
  destruct (howmany_bits (fs_fpg sb / FPB)) as [Hb5 Hb6]; [nia|].
  assert (forall n, Forall byte (repeat 0 n)) as Hby by (intros; by apply Forall_repeat).
  assert (s16 (fs_ipg sb) = fs_ipg sb) as E16 by (apply s16_small; lia).
  unfold c, start_group. split; [|split].
  - apply (building_ext g (empty_group sb k nd)); try done; [|by apply empty_building].
    cbn. destruct (Z.leb_spec (fs_contigsumsize sb) 0), (Z.ltb_spec 0 (fs_contigsumsize sb)); done || lia.
  - constructor; cbn -[repeat Z.to_nat s32].
    + split; [by apply Forall_repeat|done].
    + split; [by apply Forall_repeat|apply zlen_zeros; lia].
    + split; [by apply Forall_repeat|apply zlen_zeros; nia].
    + destruct (gt_contig sb Ht) as [Hc1 Hc2]. unfold FS_MAXCONTIG in Hc2.
      destruct (Z.leb_spec (fs_contigsumsize sb) 0); cbn -[repeat Z.to_nat]; (split; [by try apply Forall_repeat|]); [lia|].
      intros _. apply zlen_zeros. lia.
    + case_match; [by apply Forall_repeat|done].
    + unfold in_s32. zify_pow. lia.
  - cbn -[repeat Z.to_nat s32 howmany s16]. rewrite E16, (cpg_frags sb Ht), (cpg_blocks sb Ht).
    split; [|split; [intros; apply zeros_free|split; [intros; apply zeros_free|split]]].
    + constructor; cbn -[repeat Z.to_nat s32 howmany]; [done|done|rewrite zlen_zeros; lia|].
      rewrite (zsum_ext _ (fun _ => 1)) by (intros; by rewrite zeros_free).
      assert (forall l, zsum (fun _ => 1) l = zlen l) as ->.
      { induction l as [|x l IH]; [done|]. unfold zsum, zlen in *. cbn [foldr length]. lia. }
      unfold zlen. rewrite length_seqZ. lia.
    + intros j. case_match; [apply zget_zeros|]. unfold zget. by case_match.
    + repeat split; try done; try (apply zlen_zeros; lia).
      * case_match; [done|]. done.
      * rewrite (proj2 (Z.leb_gt _ 0)) by done. cbn -[repeat Z.to_nat]. by apply zlen_zeros.
      * case_match; [apply s32_range|done].
      * case_match; [apply s32_range|done].
Qed.

Context (k : Z) (Hk : 0 <= k < fs_ncg sb).
Context (Hst : forall x, 0 <= x < fs_ipg sb -> state_ok (fs_ipg sb * k + x) (zget sm (fs_ipg sb * k + x))).
Context (Hres : k = 0 -> 2 < fs_ipg sb /\ state_used (zget sm 0) = false /\ state_used (zget sm 1) = false).

(** After the inodes. *)
Lemma inodes_ok c :
  counted (fs_ipg sb) c -> (forall i, is_free (cg_inosused c) i = false) ->
  exists c', scan_inodes sm c (fs_ipg sb * k)%int (upto 0 (fs_ipg sb) 1) = ok c' /\
    let c2 := if k =? 0 then fold_left reserve_inode (upto 0 ROOTINO 1) c' else c' in
    counted (fs_ipg sb) c2 /\ same_space c c2 /\
    forall i, is_free (cg_inosused c2) i =
      in_range 0 (fs_ipg sb) i && (state_used (zget sm (fs_ipg sb * k + i)) || (k =? 0) && (i <? ROOTINO)).
Proof using Ht Hipg Hmax Hk Hst Hres.
  intros Hc Hf. destruct (wg_ipg g Hg) as [Hp _]. change (2 ^ 15) with 32768 in Hipg.
  assert (0 <= fs_ipg sb < 2 ^ 30) as Hn by (change (2 ^ 30) with 1073741824; lia).
  assert ((fs_ipg sb * k)%int = fs_ipg sb * k) as -> by (apply s32_small; unfold in_s32; zify_pow; nia).
  destruct (scan_inodes_ok (fs_ipg sb) Hn sm (fs_ipg sb * k) (Z.to_nat (fs_ipg sb)) 0 c) as (c1 & E & Hc1 & Hs1 & Hf1);
    [lia|done|done|intros; apply Hst; lia|intros; apply Hf|].
  rewrite Z.add_0_r in E. exists c1. split; [done|]. cbn zeta.
  assert (forall i, is_free (cg_inosused c1) i = in_range 0 (fs_ipg sb) i && state_used (zget sm (fs_ipg sb * k + i))) as Hf1'.
  { intros i. rewrite Hf1. unfold in_range. rewrite Hf. by destruct (_ && _). }
  destruct (Z.eqb_spec k 0) as [->|Hne].
  - change (upto 0 ROOTINO 1) with [0; 1]. cbn [fold_left]. rewrite !reserve_mark. destruct (Hres eq_refl) as (H2 & U0 & U1).
    assert (forall i, i = 0 \/ i = 1 -> is_free (cg_inosused c1) i = false) as Hfree.
    { intros i Hi. rewrite Hf1'. destruct Hi as [-> | ->]; rewrite Z.mul_0_r, Z.add_0_l, ?U0, ?U1; by rewrite andb_false_r. }
    destruct (mark_inode_ok (fs_ipg sb) Hn c1 0 Hc1) as (Ha & Hsa & Hfa); [lia|apply Hfree; by left|].
    destruct (mark_inode_ok (fs_ipg sb) Hn (mark_inode c1 0) 1 Ha) as (Hb & Hsb & Hfb); [lia|rewrite Hfa; apply Hfree; by right|].
    split; [done|]. split; [etrans; [exact Hs1|]; by etrans|]. intros i. rewrite Hfb, Hfa, Hf1'. unfold ROOTINO.
    cbn [Z.eqb andb]. destruct (Z.ltb_spec i 2) as [Hi|Hi].
    + rewrite orb_true_r, andb_true_r. apply eq_true_iff_eq. rewrite !orb_true_iff, andb_true_iff, in_range_spec, !Z.eqb_eq. lia.
    + rewrite orb_false_r. by rewrite (proj2 (Z.eqb_neq i 1)), (proj2 (Z.eqb_neq i 0)) by lia.
  - split; [done|]. split; [done|]. intros i. by rewrite Hf1', orb_false_r.
Qed.

Lemma new_group_ok old : exists c, new_group sb bm sm false k old = ok c /\ computed k old c.
Proof using Ht Hsize Hipg Hmax Htail Hk Hst Hres.
  destruct (group_ndblk_eq k Hk) as [Eb En]. destruct (frags_bounds k Hk) as [Hnd _]. pose proof (frag_pos g Hg) as HF.
  destruct (start_group_ok k (frags_of k) old) as (S1 & S2 & S3 & S4 & S5 & S6 & S7 & S8 & S9 & S10 & S11 & S12 & S13 & S14); [lia|].
  unfold new_group. rewrite Eb, En. set (c0 := start_group sb k (frags_of k) old) in *. clearbody c0.
  destruct (inodes_ok c0 S3 S4) as (c1 & -> & Hc2). cbn [rbind ok]. cbn zeta in Hc2.
  set (c2 := if k =? 0 then _ else c1) in *. destruct Hc2 as (Hc2 & Hs2 & Hf2).
  assert (building g c2) as B2 by (apply (building_ext g c0); apply Hs2 || exact S1).
  assert (shaped sb c2) as Sh2.
  { apply (same_space_shaped sb c0); [done|apply Hc2| |done].
    pose proof (counted_range (fs_ipg sb) ltac:(destruct (wg_ipg g Hg); change (2 ^ 15) with 32768 in Hipg; change (2 ^ 30) with 1073741824; lia) c2 Hc2).
    change (2 ^ 15) with 32768 in Hipg. unfold in_s32. zify_pow. lia. }
  destruct Hs2 as (E1 & E2 & E3 & E4 & E5 & E6 & E7 & E8 & E9 & E10 & E11 & E12 & E13 & E14).
  clearbody c2. clear c1.
  assert (upto 0 (frags_of k) FPB = (fun b => b * FPB) <$> seqZ 0 (Z.of_nat (Z.to_nat ((frags_of k + FPB - 1) / FPB)))) as ->.
  { pose proof (upto_blocks g Hg 0 (frags_of k)) as U. rewrite Z.mul_0_l in U. rewrite U at 1. do 2 f_equal.
    unfold upto, zlen. rewrite length_fmap, length_seqZ, Z.sub_0_r. reflexivity. }
  assert (0 <= (frags_of k + FPB - 1) / FPB) as Hq by (apply Z.div_pos; lia).
  destruct (scan_blocks_building sb Hg bm (fs_fpg sb * k) (Z.to_nat ((frags_of k + FPB - 1) / FPB)) c2 0 B2) as (B3 & G3 & F3);
    [done|rewrite E3, S8; lia|intros i _; rewrite E10; apply S5|rewrite E3, S8; intros i Hi; by apply tail_used|].
  pose proof (scan_blocks_shaped sb bm (fs_fpg sb * k) ((fun b => b * FPB) <$> seqZ 0 (Z.of_nat (Z.to_nat ((frags_of k + FPB - 1) / FPB)))) c2 ltac:(apply Hg) Sh2) as Sh3.
  cbn zeta in *. change (negb false) with true. set (c3 := fold_left (scan_block sb bm true (fs_fpg sb * k)) _ c2) in *. clearbody c3.
  eexists. split; [reflexivity|].
  destruct G3 as (G1 & G2 & G3 & G4' & G5 & G6 & G7 & G8 & G10 & G9 & G11).
  destruct (clusters_done c3 B3) as [Hw Hf]; [intros j; by rewrite G10, E11|].
  pose proof (cluster_space_shaped sb c3 Sh3) as Sh4.
  assert (forall A (f : cg -> A), (forall s, f (set_clusters c3 s (cg_clustersfree c3)) = f c3) -> f (cluster_space sb c3) = f c3) as Hsame.
  { intros A f H. unfold cluster_space. by case_match. }
  constructor; try done; rewrite ?(Hsame _ cg_cgx), ?(Hsame _ cg_ndblk), ?(Hsame _ cg_niblk), ?(Hsame _ cg_irotor),
    ?(Hsame _ cg_blksfree), ?(Hsame _ cg_inosused), ?(Hsame _ cg_clustersfree), ?(Hsame _ cg_nclusterblks), ?(Hsame _ cg_cs) by done.
  - congruence.
  - congruence.
  - intros i. rewrite F3, E10, S5. by apply bits_done.
  - by rewrite G8, E10.
  - congruence.
  - congruence.
  - unfold free_inodes, ino_used. rewrite (Hsame _ cg_inosused), (Hsame _ cg_niblk) by done.
    rewrite G7, G2, E2, S9, (ct_count _ _ Hc2), G4'. done.
  - intros i. rewrite <- Hf2. congruence.
  - split; [rewrite G4'; apply Hc2|]. congruence.
  - intros HS. destruct (S13 HS) as [_ ?]. split; [apply Sh3|congruence].
  - congruence.
Qed.

Lemma kept_irotor_bounds old : 0 <= kept_irotor old < fs_ipg sb.
Proof using Ht.
  destruct (wg_ipg g Hg) as [Hp _]. clear Hst Hres Hk. unfold kept_irotor. cbn zeta. destruct (Z.leb_spec 0 (word32 old at_irotor)); cbn [andb]; [|lia].
  destruct (Z.ltb_spec (word32 old at_irotor) (fs_ipg sb)); lia.
Qed.

(** Of the group on the disk only this field counts. *)
Lemma new_group_irotor old old' :
  kept_irotor old = kept_irotor old' -> new_group sb bm sm false k old = new_group sb bm sm false k old'.
Proof using Type.
  intros E. unfold new_group. assert (start_group sb k (group_ndblk sb k) old = start_group sb k (group_ndblk sb k) old') as ->; [|done].
  unfold start_group. unfold kept_irotor in E. cbn zeta in *. by rewrite E.
Qed.

End NewGroup.
