(* ===== verification/FsckBytes.v ===== *)
(** A group as bytes: numbers and tables written by [group_bytes] of [Fsck]
    are the ones [read_cg] and the macros find. *)

From S2P Require Import Prelude Bitmap Superblock Cg CgSearch Accounting Clusters Summary FragSummary FfsSubr.
From S2P Require Import Newfs InitCg NewfsGroup NewfsCg InodeSpec Fsck FsckGroup.
Local Open Scope bffs_scope.

(** ** Lists with a prefix *)

Lemma zget_app_l {A} `{Dflt A} (x y : list A) i : i < zlen x -> zget (x ++ y) i = zget x i.
Proof.
  intros Hi. unfold zget, zlen in *. destruct (Z.ltb_spec i 0); [done|]. by rewrite lookup_app_l by lia.
Qed.

Lemma zget_app_r {A} `{Dflt A} (x y : list A) i n : zlen x = n -> n <= i -> zget (x ++ y) i = zget y (i - n).
Proof.
  intros Hn Hi. unfold zget, zlen in *. rewrite (proj2 (Z.ltb_ge i 0)), (proj2 (Z.ltb_ge (i - n) 0)) by lia.
  rewrite lookup_app_r by lia. do 2 f_equal. lia.
Qed.

Lemma zget_tail {A} `{Dflt A} (a : A) l i : 1 <= i -> zget (a :: l) i = zget l (i - 1).
Proof. intros Hi. by rewrite <- (zget_app_r [a] l i 1). Qed.

Lemma sub_bytes_skip x y off m n : zlen x = m -> m <= off -> sub_bytes (x ++ y) off n = sub_bytes y (off - m) n.
Proof.
  intros Hm Ho. unfold sub_bytes, zlen in *. rewrite drop_app_ge by lia. do 2 f_equal. lia.
Qed.

Lemma sub_bytes_here x y n : zlen x = n -> sub_bytes (x ++ y) 0 n = x.
Proof. intros Hn. unfold sub_bytes, zlen in *. change (drop (Z.to_nat 0) (x ++ y)) with (x ++ y). apply take_app_length'. lia. Qed.

Lemma zlen_sub_bytes l off n : 0 <= off -> 0 <= n -> off + n <= zlen l -> zlen (sub_bytes l off n) = n.
Proof. intros Ho Hn Hl. unfold sub_bytes, zlen in *. rewrite length_take, length_drop. lia. Qed.

Lemma zlen_be32 x : zlen (be32 x) = 4. Proof. done. Qed.
Lemma zlen_be16 x : zlen (be16 x) = 2. Proof. done. Qed.

(** ** Words *)

Lemma word32_skip x y off n : zlen x = n -> n <= off -> word32 (x ++ y) off = word32 y (off - n).
Proof.
  intros Hn Ho. unfold word32. rewrite !(zget_app_r x y _ n) by (done || lia). 
  repeat match goal with |- context [off + ?k - n] => replace (off + k - n) with (off - n + k) by lia end. done.
Qed.

Lemma word16_skip x y off n : zlen x = n -> n <= off -> word16 (x ++ y) off = word16 y (off - n).
Proof.
  intros Hn Ho. unfold word16. rewrite !(zget_app_r x y _ n) by (done || lia).
  replace (off + 1 - n) with (off - n + 1) by lia. done.
Qed.

Lemma word16_here x y : s16 x = x -> word16 (be16 x ++ y) 0 = x.
Proof.
  intros Hx. unfold word16, be16. cbn [app].
  change (zget (u8 (Z.shiftr x 8) :: u8 x :: y) 0) with (u8 (Z.shiftr x 8)).
  change (zget (u8 (Z.shiftr x 8) :: u8 x :: y) (0 + 1)) with (u8 x).
  rewrite Z.shiftl_mul_pow2, Z.shiftr_div_pow2 by done. rewrite <- Hx at 3. unfold s16, u8. zify_pow. dlia.
Qed.

Lemma word32_here x y : in_s32 x -> word32 (be32 x ++ y) 0 = x.
Proof.
  intros Hx. unfold word32, be32, be16. cbn [app].
  set (a := u8 (Z.shiftr (Z.shiftr x 16) 8)). set (b := u8 (Z.shiftr x 16)). set (c := u8 (Z.shiftr x 8)). set (d := u8 x).
  change (zget (a :: b :: c :: d :: y) 0) with a. change (zget (a :: b :: c :: d :: y) (0 + 1)) with b.
  change (zget (a :: b :: c :: d :: y) (0 + 2)) with c. change (zget (a :: b :: c :: d :: y) (0 + 3)) with d.
  unfold a, b, c, d. rewrite !Z.shiftl_mul_pow2, !Z.shiftr_div_pow2 by done.
  transitivity (s32 x); [|by apply s32_small]. apply s32_mod. unfold u8.
  change (2 ^ 24) with 16777216. change (2 ^ 16) with 65536. change (2 ^ 8) with 256. change (2 ^ 32) with 4294967296.
  replace (x / 65536) with (x / 256 / 256) by (rewrite Z.div_div by lia; done).
  pose proof (Z.div_mod x 256 ltac:(lia)) as D1. pose proof (Z.div_mod (x / 256) 256 ltac:(lia)) as D2.
  pose proof (Z.div_mod (x / 256 / 256) 256 ltac:(lia)) as D3. pose proof (Z.div_mod (x / 256 / 256 / 256) 256 ltac:(lia)) as D4.
  set (m1 := x mod 256) in *. set (m2 := (x / 256) mod 256) in *. set (m3 := (x / 256 / 256) mod 256) in *.
  set (m4 := (x / 256 / 256 / 256) mod 256) in *. set (q4 := x / 256 / 256 / 256 / 256) in *.
  replace (_ - x) with ((- q4) * 4294967296) by lia. apply Z.mod_mul. lia.
Qed.

Lemma words_skip x y off m n : zlen x = m -> m <= off -> words (x ++ y) off n = words y (off - m) n.
Proof.
  intros Hm Ho. unfold words. apply list_fmap_ext. intros i k Hk. apply lookup_seqZ in Hk as [-> Hk].
  rewrite (word32_skip x y _ m) by (done || lia). f_equal. lia.
Qed.

Lemma halves_skip x y off m n : zlen x = m -> m <= off -> halves (x ++ y) off n = halves y (off - m) n.
Proof.
  intros Hm Ho. unfold halves. apply list_fmap_ext. intros i k Hk. apply lookup_seqZ in Hk as [-> Hk].
  rewrite (word16_skip x y _ m) by (done || lia). f_equal. lia.
Qed.

Lemma words_cons l off n : 0 < n -> words l off n = word32 l off :: words l (off + 4) (n - 1).
Proof.
  intros Hn. unfold words. rewrite seqZ_cons by done. cbn [fmap list_fmap]. f_equal; [f_equal; lia|].
  replace (Z.pred n) with (n - 1) by lia. rewrite <- (Z.add_1_l 0), <- fmap_add_seqZ, <- list_fmap_compose.
  apply list_fmap_ext. intros i k Hk. cbn. f_equal. lia.
Qed.

Lemma halves_cons l off n : 0 < n -> halves l off n = word16 l off :: halves l (off + 2) (n - 1).
Proof.
  intros Hn. unfold halves. rewrite seqZ_cons by done. cbn [fmap list_fmap]. f_equal; [f_equal; lia|].
  replace (Z.pred n) with (n - 1) by lia. rewrite <- (Z.add_1_l 0), <- fmap_add_seqZ, <- list_fmap_compose.
  apply list_fmap_ext. intros i k Hk. cbn. f_equal. lia.
Qed.

Lemma words_here v y n : Forall in_s32 v -> zlen v = n -> words (flat_map be32 v ++ y) 0 n = v.
Proof.
  revert n. induction v as [|x v IH]; intros n Hv Hn.
  - subst. done.
  - inversion Hv as [|? ? Hx Hv']; subst. unfold zlen. cbn [length flat_map]. rewrite words_cons by lia. rewrite <- app_assoc.
    rewrite word32_here by done. f_equal. rewrite (words_skip _ _ _ 4) by (done || lia). apply IH; [done|]. unfold zlen. lia.
Qed.

Lemma halves_here v y n : Forall (fun x => s16 x = x) v -> zlen v = n -> halves (flat_map be16 v ++ y) 0 n = v.
Proof.
  revert n. induction v as [|x v IH]; intros n Hv Hn.
  - subst. done.
  - inversion Hv as [|? ? Hx Hv']; subst. unfold zlen. cbn [length flat_map]. rewrite halves_cons by lia. rewrite <- app_assoc.
    rewrite word16_here by done. f_equal. rewrite (halves_skip _ _ _ 2) by (done || lia). apply IH; [done|]. unfold zlen. lia.
Qed.

Lemma zlen_words v : zlen (flat_map be32 v) = 4 * zlen v.
Proof. induction v as [|x v IH]; [done|]. cbn [flat_map]. rewrite zlen_app, zlen_be32, IH. unfold zlen. cbn. lia. Qed.
Lemma zlen_halves v : zlen (flat_map be16 v) = 2 * zlen v.
Proof. induction v as [|x v IH]; [done|]. cbn [flat_map]. rewrite zlen_app, zlen_be16, IH. unfold zlen. cbn. lia. Qed.

(** ** The header *)

(** Past one piece of the header. *)
Ltac skip_with L :=
  let far := cbv; discriminate in
  first [rewrite (L (be32 _) _ _ 4); [|reflexivity|far] | rewrite (L (be16 _) _ _ 2); [|reflexivity|far]
        |rewrite (L (sub_bytes _ at_time 4) _ _ 4); [|apply zlen_sub_bytes; unfold at_time; lia|far]
        |rewrite (L (sub_bytes _ at_initediblk 4) _ _ 4); [|apply zlen_sub_bytes; unfold at_initediblk; lia|far]
        |rewrite (L (flat_map be32 _) _ _ 32); [|rewrite zlen_words; lia|far]
        |rewrite (L (zeros 12) _ _ 12); [|reflexivity|far]].

Section Header.
Context (h : cghdr) (c : cg) (rotor frotor : Z) (cur : list Z) (niblk : Z) (rest : list Z).
Context (Hcur : 168 <= zlen cur) (Hfr : zlen (cg_frsum c) = MAXFRAG).
#[local] Abbreviation l := (base_bytes h c rotor frotor cur niblk ++ rest).

Ltac seek32 :=
  unfold base_bytes; rewrite <- !app_assoc; unfold MAXFRAG in Hfr; repeat skip_with word32_skip;
  match goal with |- word32 _ ?o = _ => change o with 0 end; apply word32_here.

Lemma header_magic : word32 l at_magic = CG_MAGIC.
Proof using Hcur Hfr. seek32. unfold in_s32. zify_pow. done. Qed.
Lemma header_cgx : in_s32 (cg_cgx c) -> word32 l at_cgx = cg_cgx c.
Proof using Hcur Hfr. intros H. by seek32. Qed.
Lemma header_ndblk : in_s32 (cg_ndblk c) -> word32 l at_ndblk = cg_ndblk c.
Proof using Hcur Hfr. intros H. by seek32. Qed.
Lemma header_rotor : in_s32 rotor -> word32 l at_rotor = rotor.
Proof using Hcur Hfr. intros H. by seek32. Qed.
Lemma header_frotor : in_s32 frotor -> word32 l at_frotor = frotor.
Proof using Hcur Hfr. intros H. by seek32. Qed.
Lemma header_irotor : in_s32 (cg_irotor c) -> word32 l at_irotor = cg_irotor c.
Proof using Hcur Hfr. intros H. by seek32. Qed.
Lemma header_btotoff : in_s32 (cg_btotoff h) -> word32 l at_btotoff = cg_btotoff h.
Proof using Hcur Hfr. intros H. by seek32. Qed.
Lemma header_boff : in_s32 (cg_boff h) -> word32 l at_boff = cg_boff h.
Proof using Hcur Hfr. intros H. by seek32. Qed.
Lemma header_iusedoff : in_s32 (cg_iusedoff h) -> word32 l at_iusedoff = cg_iusedoff h.
Proof using Hcur Hfr. intros H. by seek32. Qed.
Lemma header_freeoff : in_s32 (cg_freeoff h) -> word32 l at_freeoff = cg_freeoff h.
Proof using Hcur Hfr. intros H. by seek32. Qed.
Lemma header_clustersumoff : in_s32 (cg_clustersumoff h) -> word32 l at_clustersumoff = cg_clustersumoff h.
Proof using Hcur Hfr. intros H. by seek32. Qed.
Lemma header_clusteroff : in_s32 (cg_clusteroff h) -> word32 l at_clusteroff = cg_clusteroff h.
Proof using Hcur Hfr. intros H. by seek32. Qed.
Lemma header_nclusterblks : in_s32 (cg_nclusterblks c) -> word32 l at_nclusterblks = cg_nclusterblks c.
Proof using Hcur Hfr. intros H. by seek32. Qed.
Lemma header_new_niblk : in_s32 niblk -> word32 l at_new_niblk = niblk.
Proof using Hcur Hfr. intros H. by seek32. Qed.

Lemma header_niblk : s16 (cg_niblk c) = cg_niblk c -> word16 l at_niblk = cg_niblk c.
Proof using Hcur Hfr.
  intros H. unfold base_bytes. rewrite <- !app_assoc. repeat skip_with word16_skip.
  match goal with |- word16 _ ?o = _ => change o with 0 end. by apply word16_here.
Qed.

Lemma header_cs :
  in_s32 (cs_ndir (cg_cs c)) /\ in_s32 (cs_nbfree (cg_cs c)) /\ in_s32 (cs_nifree (cg_cs c)) /\ in_s32 (cs_nffree (cg_cs c)) ->
  read_csum l at_cs = cg_cs c.
Proof using Hcur Hfr.
  intros (H1 & H2 & H3 & H4). unfold read_csum.
  transitivity (Csum (cs_ndir (cg_cs c)) (cs_nbfree (cg_cs c)) (cs_nifree (cg_cs c)) (cs_nffree (cg_cs c))); [|by destruct (cg_cs c)].
  f_equal; by seek32.
Qed.

Lemma header_frsum : Forall in_s32 (cg_frsum c) -> words l at_frsum MAXFRAG = cg_frsum c.
Proof using Hcur Hfr.
  intros H. unfold base_bytes. rewrite <- !app_assoc. repeat skip_with words_skip.
  match goal with |- words _ ?o _ = _ => change o with 0 end. by apply words_here.
Qed.

(** The fields that are copied. *)
Lemma header_time : sub_bytes l at_time 4 = sub_bytes cur at_time 4.
Proof using Hcur Hfr.
  unfold base_bytes. rewrite <- !app_assoc. rewrite !(sub_bytes_skip (be32 _) _ _ 4) by (done || lia).
  apply sub_bytes_here, zlen_sub_bytes; unfold at_time; lia.
Qed.

Ltac seek_bytes :=
  unfold base_bytes; rewrite <- !app_assoc; unfold MAXFRAG in Hfr; repeat skip_with sub_bytes_skip;
  match goal with |- sub_bytes _ ?o _ = _ => change o with 0 end; apply sub_bytes_here, zlen_sub_bytes;
  unfold at_time, at_initediblk, at_new_time; lia.

Lemma header_initediblk : sub_bytes l at_initediblk 4 = sub_bytes cur at_initediblk 4.
Proof using Hcur Hfr. seek_bytes. Qed.
Lemma header_new_time : sub_bytes l at_new_time 8 = sub_bytes cur at_new_time 8.
Proof using Hcur Hfr. seek_bytes. Qed.

(** Once written, the header keeps what it kept. *)
Lemma base_again r f n : base_bytes h c r f l n = base_bytes h c r f cur n.
Proof using Hcur Hfr. unfold base_bytes at 1. by rewrite header_time, header_initediblk, header_new_time. Qed.

Lemma zlen_base : zlen (base_bytes h c rotor frotor cur niblk) = 168.
Proof using Hcur Hfr.
  unfold base_bytes. rewrite !zlen_app, !zlen_be32, !zlen_be16, zlen_words, Hfr.
  rewrite !zlen_sub_bytes by (unfold at_time, at_initediblk, at_new_time; lia). done.
Qed.

End Header.

(** ** The places of the tables *)

Section Layout.
Context (sb : sblock) (Ht : group_tables sb).
#[local] Abbreviation FPB := (fs_frag sb).
#[local] Abbreviation g := (sb_geo sb).

Let Hg : wf_geometry g := gt_wf sb Ht.

Definition off_boff : Z := 168 + 4 * fs_cpg sb.
Definition off_iused : Z := off_boff + 2 * (fs_cpg sb * fs_nrpos sb).
Definition off_free : Z := off_iused + howmany (fs_ipg sb) NBBY.
Definition off_sum : Z := (off_free + howmany (fs_fpg sb) NBBY - 4 + 3) / 4 * 4.
Definition off_clusters : Z := off_sum + 4 * (fs_contigsumsize sb + 1).
Definition off_end : Z :=
  if fs_contigsumsize sb <=? 0 then off_free + howmany (fs_fpg sb) NBBY
  else off_clusters + howmany (fs_fpg sb / FPB) NBBY.

(** A group fits in the bytes read of it. *)
Context (Hipg : fs_ipg sb < 2 ^ 15) (Hfit : off_end <= fs_cgsize sb < 2 ^ 30).

Lemma table_sizes :
  0 < fs_cpg sb /\ 0 < fs_cpg sb * fs_nrpos sb /\ 0 < howmany (fs_ipg sb) NBBY /\ 0 < howmany (fs_fpg sb) NBBY /\
  0 <= howmany (fs_fpg sb / FPB) NBBY /\ 0 <= fs_contigsumsize sb <= 16.
Proof using Ht Hipg.
  destruct (wg_ipg g Hg) as [Hp _]. destruct (wg_fpg g Hg) as [Hfp _]. change (2 ^ 15) with 32768 in Hipg.
  pose proof (gt_max sb Ht). pose proof (gt_nspf sb Ht). pose proof (gt_cpg sb Ht). destruct (gt_rpos sb Ht) as [Hrp _].
  destruct (howmany_bits (fs_ipg sb)) as [Hb1 Hb2]; [change (2 ^ 30) with 1073741824; lia|].
  destruct (howmany_bits (fs_fpg sb)) as [Hb3 Hb4]; [nia|].
  assert (0 <= fs_fpg sb / FPB <= fs_fpg sb) as Hq.
  { pose proof (frag_pos g Hg). split; [apply Z.div_pos; lia|apply Z.div_le_upper_bound; nia]. }
  destruct (howmany_bits (fs_fpg sb / FPB)) as [Hb5 Hb6]; [nia|]. destruct (gt_contig sb Ht). unfold FS_MAXCONTIG in *. nia.
Qed.

Lemma sum_pad : 0 <= off_sum + 4 - (off_free + howmany (fs_fpg sb) NBBY) <= 3.
Proof using Type. unfold off_sum. set (x := off_free + howmany (fs_fpg sb) NBBY). dlia. Qed.

Lemma header_offsets upd k old (h := new_header sb upd k old) :
  cg_btotoff h = 168 /\ cg_boff h = off_boff /\ cg_iusedoff h = off_iused /\ cg_freeoff h = off_free /\
  cg_nextfreeoff h = off_end /\ (0 < fs_contigsumsize sb -> cg_clustersumoff h = off_sum /\ cg_clusteroff h = off_clusters).
Proof using Ht Hipg Hfit.
  destruct table_sizes as (T1 & T2 & T3 & T4 & T5 & T6). pose proof sum_pad as Hpad.
  assert (off_free + howmany (fs_fpg sb) NBBY <= off_end /\ (0 < fs_contigsumsize sb -> off_end = off_clusters + howmany (fs_fpg sb / FPB) NBBY)) as [He1 He2].
  { unfold off_end, off_clusters. destruct (Z.leb_spec (fs_contigsumsize sb) 0); [lia|]. split; [lia|done]. }
  assert (168 < off_boff /\ off_boff <= off_iused /\ off_iused <= off_free) as (O1 & O2 & O3) by (unfold off_free, off_iused, off_boff; lia).
  unfold h, new_header, group_header. unfold offsetof_cg_space. rewrite (cpg_frags sb Ht), (cpg_blocks sb Ht).
  change (2 ^ 30) with 1073741824 in Hfit.
  assert (((168 + fs_cpg sb * 4)%int) = off_boff) as -> 
    by (unfold off_boff in *; rewrite (s32_small (fs_cpg sb * 4)) by (unfold in_s32; zify_pow; lia); rewrite s32_small by (unfold in_s32; zify_pow; lia); lia).
  assert ((off_boff + fs_cpg sb * fs_nrpos sb * 2)%int = off_iused) as -> 
    by (unfold off_iused in *; rewrite (s32_small (fs_cpg sb * fs_nrpos sb)) by (unfold in_s32; zify_pow; lia); rewrite (s32_small (fs_cpg sb * fs_nrpos sb * 2)) by (unfold in_s32; zify_pow; lia); rewrite s32_small by (unfold in_s32; zify_pow; lia); lia).
  assert ((off_iused + howmany (fs_ipg sb) NBBY)%int = off_free) as -> by (unfold off_free in *; rewrite !s32_small by (unfold in_s32; zify_pow; lia); lia).
  assert ((off_free + howmany (fs_fpg sb) NBBY)%int = off_free + howmany (fs_fpg sb) NBBY) as E1 by (rewrite !s32_small by (unfold in_s32; zify_pow; lia); lia).
  destruct (Z.leb_spec (fs_contigsumsize sb) 0) as [Hc|Hc]; cbn [cg_btotoff cg_boff cg_iusedoff cg_freeoff cg_nextfreeoff cg_clustersumoff cg_clusteroff].
  - rewrite E1. unfold off_end. rewrite (proj2 (Z.leb_le _ 0) Hc). repeat split; lia.
  - assert (roundup (off_free + howmany (fs_fpg sb) NBBY - 4)%int 4 = off_sum) as ->.
    { rewrite E1. rewrite (s32_small (_ - 4)) by (unfold in_s32; zify_pow; lia). unfold roundup. change (s32 (4 - 1)) with 3.
      rewrite (s32_small (_ + 3)) by (unfold in_s32; zify_pow; lia). rewrite Z.quot_div_nonneg by lia.
      set (y := off_free + howmany (fs_fpg sb) NBBY - 4 + 3) in *. assert (0 <= y / 4 <= y) by dlia.
      rewrite (s32_small (y / 4)) by (unfold in_s32; zify_pow; lia). unfold off_sum. fold y. apply s32_small. unfold in_s32. zify_pow. dlia. }
    assert (0 <= off_sum) by lia. specialize (He2 Hc). unfold off_clusters in He2.
    assert ((off_sum + (fs_contigsumsize sb + 1) * 4)%int = off_clusters) as -> 
      by (unfold off_clusters; rewrite (s32_small (fs_contigsumsize sb + 1)) by (unfold in_s32; zify_pow; lia); rewrite (s32_small ((fs_contigsumsize sb + 1) * 4)) by (unfold in_s32; zify_pow; lia); rewrite s32_small by (unfold in_s32; zify_pow; lia); lia).
    repeat split; try done. unfold off_clusters in *. rewrite He2. apply s32_small. unfold in_s32. zify_pow. lia.
Qed.

(** ** Reading a group back *)

Context (upd : bool) (k : Z) (bm sm old0 old : list Z) (c : cg) (Hc : computed sb bm sm k old c).
Context (Hk : 0 <= k < 2 ^ 31) (Hsize : 0 <= fs_size sb - fs_fpg sb * k).
Context (rotor frotor niblk : Z) (cur rest : list Z) (Hcur : 168 <= zlen cur).
#[local] Abbreviation h := (new_header sb upd k old0).
#[local] Abbreviation base := (base_bytes h c rotor frotor cur niblk).
#[local] Abbreviation l := (base ++ total_bytes c ++ map_bytes sb h c ++ rest).

(** The same but for the word of the cluster summary that is never used. *)
Record same_tables (c c' : cg) : Prop := {
  st_cgx : cg_cgx c' = cg_cgx c;
  st_niblk : cg_niblk c' = cg_niblk c;
  st_ndblk : cg_ndblk c' = cg_ndblk c;
  st_cs : cg_cs c' = cg_cs c;
  st_irotor : cg_irotor c' = cg_irotor c;
  st_frsum : cg_frsum c' = cg_frsum c;
  st_blktot : cg_blktot c' = cg_blktot c;
  st_blks : cg_blks c' = cg_blks c;
  st_inosused : cg_inosused c' = cg_inosused c;
  st_blksfree : cg_blksfree c' = cg_blksfree c;
  st_nclusterblks : cg_nclusterblks c' = cg_nclusterblks c;
  st_clusters : 0 < fs_contigsumsize sb -> cg_clustersfree c' = cg_clustersfree c /\
    zlen (cg_clustersum c') = zlen (cg_clustersum c) /\ forall j, 1 <= j -> zget (cg_clustersum c') j = zget (cg_clustersum c) j }.

Lemma zlen_base_group : zlen base = 168.
Proof using Hc Hcur. apply zlen_base; [done|apply (cp_shaped _ _ _ _ _ _ Hc)]. Qed.

Lemma zlen_totals : zlen (total_bytes c) = off_iused - 168.
Proof using Hc.
  destruct (cp_shaped _ _ _ _ _ _ Hc) as [_ [_ H1] [_ H2] _ _ _]. unfold total_bytes.
  rewrite zlen_app, zlen_words, zlen_halves, H1, H2. unfold off_iused, off_boff. lia.
Qed.

Lemma numbers_fit : in_s32 (cg_cgx c) /\ in_s32 (cg_ndblk c) /\ in_s32 (cg_irotor c) /\ s16 (cg_niblk c) = cg_niblk c.
Proof using Ht Hipg Hc Hk Hsize.
  destruct (wg_ipg g Hg) as [Hp _]. destruct (wg_fpg g Hg) as [Hfp _]. pose proof (wg_size g Hg) as Hs. pose proof (wg_ncg g Hg) as Hn.
  rewrite (cp_cgx _ _ _ _ _ _ Hc), (cp_ndblk _ _ _ _ _ _ Hc), (cp_irotor _ _ _ _ _ _ Hc), (cp_niblk _ _ _ _ _ _ Hc).
  pose proof (kept_irotor_bounds sb Ht old) as Hr. unfold frags_of. change (2 ^ 15) with 32768 in Hipg. change (2 ^ 31) with 2147483648 in *.
  assert (fs_fpg sb < 2147483648) by nia. unfold in_s32. change (2 ^ 31) with 2147483648.
  split; [lia|]. split; [lia|]. split; [lia|]. apply s16_small. lia.
Qed.

Lemma macros_find :
  word32 l at_magic = CG_MAGIC /\ blktot_off l = 168 /\ blks_off l = off_boff /\ inosused_off l = off_iused /\ blksfree_off l = off_free.
Proof using Ht Hipg Hfit Hc Hcur.
  destruct (header_offsets upd k old0) as (E1 & E2 & E3 & E4 & E5 & E6). destruct table_sizes as (T1 & T2 & T3 & T4 & T5 & T6).
  assert (168 < off_boff /\ off_boff <= off_iused /\ off_iused <= off_free /\ off_free <= off_end) as (O1 & O2 & O3 & O4).
  { pose proof sum_pad. unfold off_end, off_clusters. case_match; unfold off_free, off_iused, off_boff in *; lia. }
  change (2 ^ 30) with 1073741824 in Hfit.
  destruct (sh_frsum _ _ (cp_shaped _ _ _ _ _ _ Hc)) as [_ Hfr]. unfold blktot_off, blks_off, inosused_off, blksfree_off.
  rewrite header_magic by done. rewrite Z.eqb_refl.
  rewrite header_btotoff, header_boff, header_iusedoff, header_freeoff, E1, E2, E3, E4 by (try done; rewrite ?E1, ?E2, ?E3, ?E4; unfold in_s32; zify_pow; lia).
  done.
Qed.

Lemma read_totals :
  words l 168 (fs_cpg sb) = cg_blktot c /\ halves l off_boff (fs_cpg sb * fs_nrpos sb) = cg_blks c.
Proof using Ht Hipg Hc Hcur.
  destruct (cp_shaped _ _ _ _ _ _ Hc) as [_ [H1 H2] [H3 H4] _ _ _]. pose proof zlen_base_group as Hb.
  destruct table_sizes as (T1 & T2 & _). unfold total_bytes. rewrite <- !app_assoc. split.
  - rewrite (words_skip _ _ _ 168) by (done || lia). by apply words_here.
  - rewrite (halves_skip _ _ _ 168) by (done || (unfold off_boff; lia)).
    rewrite (halves_skip _ _ _ (4 * fs_cpg sb)) by (rewrite ?zlen_words, ?H2; unfold off_boff; lia).
    replace (off_boff - 168 - 4 * fs_cpg sb) with 0 by (unfold off_boff; lia). by apply halves_here.
Qed.

Lemma read_maps :
  sub_bytes l off_iused (howmany (fs_ipg sb) NBBY) = cg_inosused c /\
  sub_bytes l off_free (howmany (fs_fpg sb) NBBY) = cg_blksfree c.
Proof using Ht Hipg Hc Hcur.
  pose proof zlen_base_group as Hb. pose proof zlen_totals as Htot. destruct (cp_inosused _ _ _ _ _ _ Hc) as [_ Hi].
  pose proof (cp_len _ _ _ _ _ _ Hc) as Hf. destruct table_sizes as (T1 & T2 & T3 & T4 & _). unfold map_bytes. rewrite <- !app_assoc. split.
  - rewrite (sub_bytes_skip _ _ _ 168) by (done || (unfold off_iused, off_boff; lia)).
    rewrite (sub_bytes_skip _ _ _ (off_iused - 168)) by (done || lia). rewrite Z.sub_diag. by apply sub_bytes_here.
  - rewrite (sub_bytes_skip _ _ _ 168) by (done || (unfold off_free, off_iused, off_boff; lia)).
    rewrite (sub_bytes_skip _ _ _ (off_iused - 168)) by (done || (unfold off_free; lia)).
    rewrite (sub_bytes_skip _ _ _ (howmany (fs_ipg sb) NBBY)) by (done || (unfold off_free; lia)).
    replace (_ - _) with 0 by (unfold off_free; lia). by apply sub_bytes_here.
Qed.

Lemma read_clusters : 0 < fs_contigsumsize sb ->
  sub_bytes l off_clusters (howmany (fs_fpg sb / FPB) NBBY) = cg_clustersfree c /\
  words l off_sum (fs_contigsumsize sb + 1) = word32 l off_sum :: drop 1 (cg_clustersum c).
Proof using Ht Hipg Hfit Hc Hcur.
  intros HS. pose proof zlen_base_group as Hb. pose proof zlen_totals as Htot. destruct (cp_inosused _ _ _ _ _ _ Hc) as [_ Hi].
  pose proof (cp_len _ _ _ _ _ _ Hc) as Hf. destruct (cp_clusters _ _ _ _ _ _ Hc HS) as [_ Hcl].
  destruct (sh_sum _ _ (cp_shaped _ _ _ _ _ _ Hc)) as [Hs1 Hs2]. specialize (Hs2 HS).
  destruct table_sizes as (T1 & T2 & T3 & T4 & T5 & T6). pose proof sum_pad as Hp.
  destruct (header_offsets upd k old0) as (_ & _ & _ & E4 & _ & E6). destruct (E6 HS) as [E7 E8].
  assert (zlen (flat_map be32 (drop 1 (cg_clustersum c))) = 4 * fs_contigsumsize sb) as Hd.
  { rewrite zlen_words. unfold zlen in *. rewrite length_drop. lia. }
  assert (l = ((base ++ total_bytes c ++ cg_inosused c ++ cg_blksfree c) ++ zeros (off_sum + 4 - (off_free + howmany (fs_fpg sb) NBBY))) ++
      flat_map be32 (drop 1 (cg_clustersum c)) ++ cg_clustersfree c ++ rest) as El.
  { unfold map_bytes, cluster_bytes. rewrite (proj2 (Z.leb_gt _ 0) HS), E4, E7, Hf. by rewrite <- !app_assoc. }
  assert (zlen ((base ++ total_bytes c ++ cg_inosused c ++ cg_blksfree c) ++ zeros (off_sum + 4 - (off_free + howmany (fs_fpg sb) NBBY))) = off_sum + 4) as Hpre.
  { rewrite !zlen_app, Hb, Htot, Hi, Hf. unfold zeros. rewrite zlen_zeros by lia. unfold off_free. lia. }
  split.
  - rewrite El, (sub_bytes_skip _ _ _ (off_sum + 4)), (sub_bytes_skip _ _ _ (4 * fs_contigsumsize sb)) by (done || (unfold off_clusters; lia)).
    replace (_ - _) with 0 by (unfold off_clusters; lia). by apply sub_bytes_here.
  - rewrite words_cons by lia. f_equal. rewrite El, (words_skip _ _ _ (off_sum + 4)), Z.sub_diag by (done || lia).
    apply words_here; [by apply Forall_drop|]. unfold zlen in *. rewrite length_drop. lia.
Qed.

(** The handler's view of what [group_bytes] wrote. *)
Lemma read_group : same_tables c (read_cg sb l).
Proof using Ht Hipg Hfit Hc Hcur Hk Hsize.
  destruct macros_find as (M1 & M2 & M3 & M4 & M5). destruct read_totals as [R1 R2]. destruct read_maps as [R3 R4].
  destruct numbers_fit as (N1 & N2 & N3 & N4). destruct (cp_shaped _ _ _ _ _ _ Hc) as [[F1 F2] _ _ [S1 S2] _ C].
  unfold read_cg. rewrite (cpg_frags sb Ht), (cpg_blocks sb Ht). rewrite M2, M3, M4, M5, R1, R2, R3, R4.
  rewrite header_cgx, header_ndblk, header_irotor, header_niblk, header_frsum, header_cs, header_nclusterblks by (try done; apply Hc).
  constructor; try done. intros HS. destruct (read_clusters HS) as [K1 K2].
  destruct (header_offsets upd k old0) as (_ & _ & _ & _ & _ & E6). destruct (E6 HS) as [E7 E8].
  cbn [cg_clustersfree cg_clustersum]. rewrite (proj2 (Z.leb_gt _ 0) HS). cbn [negb].
  destruct table_sizes as (T1 & T2 & T3 & T4 & T5 & T6). pose proof sum_pad as Hp.
  assert (0 < off_clusters < 2 ^ 30 /\ 0 < off_sum < 2 ^ 30) as [B1 B2].
  { unfold off_end, off_clusters in *. rewrite (proj2 (Z.leb_gt _ 0) HS) in Hfit. change (2 ^ 30) with 1073741824 in *.
    unfold off_free, off_iused, off_boff in *. lia. }
  change (2 ^ 30) with 1073741824 in *.
  rewrite header_clusteroff, header_clustersumoff, E7, E8 by (try done; rewrite ?E7, ?E8; unfold in_s32; zify_pow; lia).
  rewrite K1, K2. split; [done|]. specialize (S2 HS). destruct (cg_clustersum c) as [|s0 sums]; [unfold zlen in S2; cbn in S2; lia|].
  split; [done|]. intros j Hj. cbn [drop skipn].
  by rewrite !(zget_tail _ sums j) by lia.
Qed.

Lemma same_tables_blocks c' : same_tables c c' -> wf_blocks g c' /\ wf_frags g c'.
Proof using Hc.
  intros [E1 E2 E3 E4 E5 E6 E7 E8 E9 E10 E11 E12]. pose proof (cp_blocks _ _ _ _ _ _ Hc) as [[M1 M2 M3] W2 W3 W4 W5 W6 W7].
  split; [|apply (wf_frags_ext g c); try (by rewrite ?E4); apply Hc].
  constructor; rewrite ?E3, ?E4, ?E7, ?E8, ?E10; try done; [by constructor; rewrite ?E3, ?E10|].
  intros HS. destruct (W7 HS) as [V1 V2 V3 V4 V5]. destruct (E12 HS) as (K1 & K2 & K3).
  constructor; rewrite ?E3, ?E10, ?E11, ?K1, ?K2; try done. intros j Hj. rewrite K3 by lia. by apply V5.
Qed.

End Layout.
