(* ===== verification/FsckTheorems.v ===== *)
(** Pass 5 of fsck: every repair agreed to, the groups, the summaries and the
    totals satisfy the invariants the handler starts from, with exactly the
    fragments and inodes free that the earlier passes found unused; and a
    second run finds nothing to repair. *)

From S2P Require Import Prelude Bitmap Superblock Addresses Cg CgSearch Runs Accounting Clusters Summary FragSummary AllocSpec FfsSubr.
From S2P Require Import Newfs InitCg NewfsLayout NewfsGroup NewfsCg NewfsSuper NewfsMount AllocWp InodeSpec Fsck FsckGroup FsckBytes.
Local Open Scope bffs_scope.

(** ** Parts of a buffer *)

Lemma get_at_mid (x y z : list Z) off n : zlen x = off -> zlen y = n -> get_at (x ++ y ++ z) off n = ok y.
Proof.
  intros Hx Hy. unfold get_at. pose proof (zlen_nonneg x). pose proof (zlen_nonneg y). pose proof (zlen_nonneg z).
  rewrite !zlen_app, (proj2 (Z.leb_le 0 off)), (proj2 (Z.leb_le 0 n)), (proj2 (Z.leb_le _ _)) by lia. cbn [andb].
  rewrite (sub_bytes_skip _ _ _ off), Z.sub_diag by (done || lia). by rewrite sub_bytes_here.
Qed.

Lemma put_at_mid (x y z y' : list Z) off : zlen x = off -> zlen y' = zlen y -> put_at (x ++ y ++ z) off y' = ok (x ++ y' ++ z).
Proof.
  intros Hx Hy. unfold put_at. pose proof (zlen_nonneg x). pose proof (zlen_nonneg y). pose proof (zlen_nonneg z).
  rewrite !zlen_app, (proj2 (Z.leb_le 0 off)), (proj2 (Z.leb_le _ _)) by lia. cbn [andb]. unfold ok. do 2 f_equal.
  assert (take (Z.to_nat off) (x ++ y ++ z) = x) as -> by (apply take_app_length'; unfold zlen in *; lia).
  do 2 f_equal. rewrite app_assoc. apply drop_app_length'. rewrite length_app. unfold zlen in *. lia.
Qed.

(** ** The user agrees *)

Record agreeing (s : fsck) : Prop := {
  ag_user : preen (k_user s) || negb (nflag (k_user s)) && yflag (k_user s) = true;
  ag_len : zlen (k_fix s) = 3;
  ag_fix : forall i, 0 <= i < 3 -> zget (k_fix s) i = DONTKNOW \/ zget (k_fix s) i = FIX }.

Definition refixed (s : fsck) (f : list fixstate) : fsck := set_asked s (k_user s) f.

Lemma ask_agree s i : agreeing s -> 0 <= i < 3 -> exists f, ask s i = (true, refixed s f) /\ agreeing (refixed s f).
Proof.
  intros [A1 A2 A3] Hi. exists (zset (k_fix s) i FIX).
  assert (dofix (k_user s) (zget (k_fix s) i) = (true, FIX, k_user s)) as E.
  { destruct (A3 i Hi) as [-> | ->]; [|done]. cbn [dofix]. destruct (preen (k_user s)); [done|]. cbn [orb] in A1.
    apply andb_true_iff in A1 as [N Y]. unfold reply. apply negb_true_iff in N. by rewrite N, Y. }
  unfold ask. rewrite E. split; [done|]. constructor; cbn; [done|by rewrite zlen_zset|].
  intros j Hj. rewrite zget_zset by lia. destruct (i =? j); [by right|by apply A3].
Qed.

(** Nothing but group [c] and the fix states has changed. *)
Record moved (c : Z) (s s' : fsck) : Prop := {
  mv_agree : agreeing s';
  mv_user : k_user s' = k_user s;
  mv_sb : k_sb s' = k_sb s;
  mv_totals : k_cstotal s' = k_cstotal s /\ k_new_cstotal s' = k_new_cstotal s;
  mv_csp : k_csp s' = k_csp s;
  mv_flags : k_flags s' = k_flags s;
  mv_other : forall k, k <> c -> k_cg s' k = k_cg s k;
  mv_maps : k_blockmap s' = k_blockmap s /\ k_statemap s' = k_statemap s }.

Lemma moved_refl c s : agreeing s -> moved c s s.
Proof. intros H. by constructor. Qed.

Lemma moved_trans c s1 s2 s3 : moved c s1 s2 -> moved c s2 s3 -> moved c s1 s3.
Proof.
  intros [A1 A2 A3 [A4 A5] A6 A7 A8 [A9 A10]] [B1 B2 B3 [B4 B5] B6 B7 B8 [B9 B10]].
  constructor; try congruence; try (split; congruence). intros k Hk. rewrite B8 by done. by apply A8.
Qed.

Lemma moved_group c s l f : agreeing (refixed s f) -> moved c s (set_group (refixed s f) c l) /\ k_cg (set_group (refixed s f) c l) c = l.
Proof.
  intros [A1 A2 A3]. split; [|cbn; by rewrite Z.eqb_refl]. constructor; try done.
  intros k Hk. cbn. by rewrite (proj2 (Z.eqb_neq k c) Hk).
Qed.

(** Fields of the header depend on the first 168 bytes only. *)
Lemma word32_front x z off : 0 <= off -> off + 4 <= zlen x -> word32 (x ++ z) off = word32 x off.
Proof. intros H0 H. unfold word32. by rewrite !zget_app_l by lia. Qed.

Lemma sub_bytes_front x z off n : 0 <= off -> 0 <= n -> off + n <= zlen x -> sub_bytes (x ++ z) off n = sub_bytes x off n.
Proof.
  intros H0 Hn H. unfold sub_bytes. unfold zlen in H. rewrite drop_app_le by lia. apply take_app_le. rewrite length_drop. lia.
Qed.

Section Front.
Context (x z z' : list Z) (Hx : zlen x = 168).

Lemma tables_front : inosused_off (x ++ z) = inosused_off (x ++ z') /\ blksfree_off (x ++ z) = blksfree_off (x ++ z').
Proof using Hx.
  unfold inosused_off, blksfree_off. unfold at_magic, at_iusedoff, at_freeoff. by rewrite !(word32_front x) by lia.
Qed.

Lemma blktot_front : blktot_off (x ++ z) = blktot_off (x ++ z').
Proof using Hx. unfold blktot_off. unfold at_magic, at_btotoff. by rewrite !(word32_front x) by lia. Qed.

Lemma base_front h g r f n : base_bytes h g r f (x ++ z) n = base_bytes h g r f (x ++ z') n.
Proof using Hx.
  unfold base_bytes. unfold at_time, at_initediblk, at_new_time. by rewrite !(sub_bytes_front x) by lia.
Qed.

Lemma niblk_front : word32 (x ++ z) at_new_niblk = word32 (x ++ z') at_new_niblk.
Proof using Hx. unfold at_new_niblk. by rewrite !(word32_front x) by lia. Qed.

End Front.

Section CheckGroup.
Context (c : Z).

(** One table: it becomes that of the new group. *)
Lemma check_map_ok new off size s (x y z x' y' z' : list Z) :
  agreeing s -> k_cg s c = x ++ y ++ z -> new = x' ++ y' ++ z' ->
  off new = zlen x' -> off (k_cg s c) = zlen x -> zlen y = size -> zlen y' = size ->
  exists s', check_map c new off size s = ok s' /\ moved c s s' /\ k_cg s' c = x ++ y' ++ z.
Proof.
  intros Ha E En Hn Ho Hy Hy'. unfold check_map, bcmp_at, bcopy_at. rewrite Hn, Ho, E, En.
  rewrite !get_at_mid by done. cbn [rbind ok]. unfold salvage. case_bool_decide as Hd; cbn [negb].
  - exists s. subst y'. split; [done|]. split; [by apply moved_refl|done].
  - destruct (ask_agree s 1 Ha) as (f & -> & Hf); [done|].
    cbn beta iota. change (k_cg (refixed s f) c) with (k_cg s c).
    rewrite Ho, E, (put_at_mid x y z y') by (done || lia). cbn [rbind ok].
    destruct (moved_group c s (x ++ y' ++ z) f Hf) as [M1 M2]. eexists. split; [reflexivity|]. done.
Qed.

(** The header and the block totals, from [base] and [tot] of the new group. *)
Lemma copy_summary_ok basesize sumsize new s (a t r base tot rest : list Z) :
  k_cg s c = a ++ t ++ r -> new = base ++ tot ++ rest ->
  zlen a = basesize -> zlen base = basesize -> zlen t = sumsize -> zlen tot = sumsize ->
  (forall z, blktot_off (base ++ z) = basesize) ->
  copy_summary c basesize sumsize new s = ok (set_group s c (base ++ tot ++ r)).
Proof.
  intros E En Ha Hb Ht Htt Hoff. unfold copy_summary, bcopy_at. rewrite En, E.
  assert (get_at (base ++ tot ++ rest) 0 basesize = ok base) as -> by by apply (get_at_mid [] base).
  cbn [rbind ok]. assert (put_at (a ++ t ++ r) 0 base = ok (base ++ t ++ r)) as -> by (apply (put_at_mid [] a); [done|lia]).
  cbn [rbind ok]. rewrite !Hoff, get_at_mid by done. cbn [rbind ok]. by rewrite put_at_mid by (done || lia).
Qed.

Lemma check_summary_ok basesize sumsize new s (a t r base tot rest : list Z) :
  agreeing s -> k_cg s c = a ++ t ++ r -> new = base ++ tot ++ rest ->
  zlen a = basesize -> zlen base = basesize -> zlen t = sumsize -> zlen tot = sumsize ->
  (forall z, blktot_off (base ++ z) = basesize) ->
  exists s', check_summary c basesize sumsize new s = ok s' /\ moved c s s' /\ k_cg s' c = base ++ tot ++ r.
Proof.
  intros Hag E En Ha Hb Ht Htt Hoff. unfold check_summary, bcmp_at at 1. rewrite En, E.
  assert (get_at (base ++ tot ++ rest) 0 basesize = ok base) as -> by by apply (get_at_mid [] base).
  assert (get_at (a ++ t ++ r) 0 basesize = ok a) as -> by by apply (get_at_mid [] a).
  cbn [rbind ok]. rewrite <- En.
  assert (exists s1 t1, salvage s 2 (negb (bool_decide (base = a))) (copy_summary c basesize sumsize new) = ok s1 /\
    moved c s s1 /\ k_cg s1 c = base ++ t1 ++ r /\ zlen t1 = sumsize) as (s1 & t1 & -> & M1 & E1 & Ht1).
  { unfold salvage. case_bool_decide as Hd; cbn [negb].
    - exists s, t. subst a. split; [done|]. split; [by apply moved_refl|done].
    - destruct (ask_agree s 2 Hag) as (f & -> & Hf); [done|]. cbn beta iota.
      rewrite (copy_summary_ok basesize sumsize new (refixed s f) a t r base tot rest) by done.
      destruct (moved_group c s (base ++ tot ++ r) f Hf) as [N1 N2]. eexists _, tot. split; [reflexivity|]. done. }
  cbn [rbind ok]. unfold bcmp_at. rewrite E1, En, !Hoff, !get_at_mid by done. cbn [rbind ok]. rewrite <- En.
  unfold salvage. case_bool_decide as Hd; cbn [negb].
  - exists s1. subst t1. done.
  - destruct (ask_agree s1 2 (mv_agree _ _ _ M1)) as (f & -> & Hf); [done|]. cbn beta iota.
    rewrite (copy_summary_ok basesize sumsize new (refixed s1 f) base t1 r base tot rest) by done.
    destruct (moved_group c s1 (base ++ tot ++ r) f Hf) as [N1 N2]. eexists. split; [reflexivity|].
    split; [by eapply moved_trans|done].
Qed.

(** Nothing to repair. *)
Lemma check_map_same new off size s (x y z x' z' : list Z) :
  k_cg s c = x ++ y ++ z -> new = x' ++ y ++ z' -> off new = zlen x' -> off (k_cg s c) = zlen x -> zlen y = size ->
  check_map c new off size s = ok s.
Proof.
  intros E En Hn Ho Hy. unfold check_map, bcmp_at. rewrite Hn, Ho, E, En, !get_at_mid by done. cbn [rbind ok].
  by rewrite bool_decide_true by done.
Qed.

Lemma check_summary_same basesize sumsize new s (base tot r rest : list Z) :
  k_cg s c = base ++ tot ++ r -> new = base ++ tot ++ rest -> zlen base = basesize -> zlen tot = sumsize ->
  (forall z, blktot_off (base ++ z) = basesize) -> check_summary c basesize sumsize new s = ok s.
Proof.
  intros E En Hb Ht Hoff. unfold check_summary, bcmp_at. rewrite En, E.
  assert (forall z, get_at (base ++ z) 0 basesize = ok base) as Hget by (intros z; by apply (get_at_mid [] base)).
  rewrite !Hget. cbn [rbind ok]. rewrite bool_decide_true by done. cbn [negb salvage rbind ok].
  rewrite E, !Hoff, !get_at_mid by done. cbn [rbind ok]. by rewrite bool_decide_true by done.
Qed.

End CheckGroup.

(** ** One group *)

Lemma split_at (l : list Z) n : 0 <= n <= zlen l -> exists x y, l = x ++ y /\ zlen x = n.
Proof.
  intros Hn. exists (take (Z.to_nat n) l), (drop (Z.to_nat n) l). split; [by rewrite take_drop|].
  unfold zlen in *. rewrite length_take. lia.
Qed.

(** The header depends on the group on the disk by its time only, which is
    not among the bytes compared. *)
Lemma header_time_only sb k a b (h := new_header sb false k b) :
  new_header sb false k a = Cghdr (cg_magic h) (word32 a at_time) (cg_ncyl h) (cg_btotoff h) (cg_boff h) (cg_iusedoff h)
    (cg_freeoff h) (cg_nextfreeoff h) (cg_clustersumoff h) (cg_clusteroff h).
Proof.
  unfold h, new_header. generalize (group_header sb k 0). by intros [].
Qed.

Lemma base_header sb k a b g r f cur n :
  base_bytes (new_header sb false k a) g r f cur n = base_bytes (new_header sb false k b) g r f cur n.
Proof. rewrite (header_time_only sb k a b). generalize (new_header sb false k b). by intros []. Qed.
Lemma map_header sb k a b g : map_bytes sb (new_header sb false k a) g = map_bytes sb (new_header sb false k b) g.
Proof. rewrite (header_time_only sb k a b). generalize (new_header sb false k b). by intros []. Qed.

Lemma keep_rotor_again x n : keep_rotor (keep_rotor x n) n = keep_rotor x n.
Proof.
  unfold keep_rotor. destruct (Z.ltb_spec x n) as [Hx|]; [by rewrite (proj2 (Z.ltb_lt x n) Hx)|]. by destruct (0 <? n).
Qed.

Lemma word32_range l off : in_s32 (word32 l off).
Proof. apply s32_range. Qed.

Lemma keep_rotor_range l off n : in_s32 (keep_rotor (word32 l off) n).
Proof. unfold keep_rotor. case_match; [apply word32_range|done]. Qed.

Lemma csum_eqb_eq a b : csum_eqb a b = true <-> a = b.
Proof.
  unfold csum_eqb. destruct a, b. cbn. rewrite !andb_true_iff, !Z.eqb_eq. split; [|by intros [= -> -> -> ->]].
  by intros [[[-> ->] ->] ->].
Qed.

(** Sums of summaries, and the 32 bits kept of them. *)
Definition csum_wrap (a : csum) : csum := Csum (s32 (cs_ndir a)) (s32 (cs_nbfree a)) (s32 (cs_nifree a)) (s32 (cs_nffree a)).
Definition csum_plus (a b : csum) : csum :=
  Csum (cs_ndir a + cs_ndir b) (cs_nbfree a + cs_nbfree b) (cs_nifree a + cs_nifree b) (cs_nffree a + cs_nffree b).
Definition csum_sum (f : Z -> csum) (l : list Z) : csum :=
  Csum (zsum (fun k => cs_ndir (f k)) l) (zsum (fun k => cs_nbfree (f k)) l) (zsum (fun k => cs_nifree (f k)) l)
    (zsum (fun k => cs_nffree (f k)) l).

Lemma csum_add_wrap a b : csum_add (csum_wrap a) b = csum_wrap (csum_plus a b).
Proof. unfold csum_add, csum_wrap, csum_plus. cbn. by rewrite !s32_add. Qed.
Lemma csum_plus_assoc a b c : csum_plus a (csum_plus b c) = csum_plus (csum_plus a b) c.
Proof. unfold csum_plus. cbn. by rewrite !Z.add_assoc. Qed.
Lemma csum_plus_nil a f : a = csum_plus a (csum_sum f []).
Proof. destruct a. unfold csum_plus. cbn. by rewrite !Z.add_0_r. Qed.
Lemma csum_sum_cons f k l : csum_sum f (k :: l) = csum_plus (f k) (csum_sum f l).
Proof. done. Qed.

(** The file system the handler finds on the disk, and its groups. *)
Definition checked (s : fsck) : fs :=
  Fs (k_sb s) (k_cstotal s) (k_new_cstotal s) (k_csp s) (k_flags s) (k_fmod s) (k_ronly s).
Definition read_group_of (s : fsck) (k : Z) : cg := read_cg (k_sb s) (k_cg s k).

Section Pass.
Context (sb : sblock) (Ht : group_tables sb) (bm sm : list Z).
Context (Hsize : fs_fpg sb * (fs_ncg sb - 1) < fs_size sb <= fs_fpg sb * fs_ncg sb).
Context (Hipg : fs_ipg sb < 2 ^ 15) (Hmax : fs_ipg sb * fs_ncg sb < 2 ^ 31).
Context (Hfit : off_end sb <= fs_cgsize sb < 2 ^ 30).
Context (Htail : forall i, fs_size sb <= i < (fs_size sb + fs_frag sb - 1) / fs_frag sb * fs_frag sb -> isset bm i = true).
Context (Hst : forall j, 0 <= j < fs_ipg sb * fs_ncg sb -> state_ok j (zget sm j)).
Context (Hres : 2 < fs_ipg sb /\ state_used (zget sm 0) = false /\ state_used (zget sm 1) = false).

Let Hg : wf_geometry sb := gt_wf sb Ht.

(** The tables of the group are where the macros of fsck put them. *)
Record placed (l : list Z) : Prop := {
  pl_len : zlen l = fs_cgsize sb;
  pl_inosused : inosused_off l = off_iused sb;
  pl_blksfree : blksfree_off l = off_free sb }.

(** The bytes of a group pass 5 has nothing to say about. *)
Record clean_group (k : Z) (l : list Z) (g : cg) : Prop := {
  cl_group : new_group sb bm sm false k l = ok g;
  cl_len : zlen l = fs_cgsize sb;
  cl_bytes : exists rest, let h := new_header sb false k l in
    l = base_bytes h g (keep_rotor (word32 l at_rotor) (cg_ndblk g)) (keep_rotor (word32 l at_frotor) (cg_ndblk g)) l
          (word32 l at_new_niblk) ++ total_bytes g ++ map_bytes sb h g ++ rest }.

Lemma group_computed k old : 0 <= k < fs_ncg sb ->
  exists g, new_group sb bm sm false k old = ok g /\ computed sb bm sm k old g.
Proof using Ht Hsize Hipg Hmax Htail Hst Hres.
  intros Hk. destruct (wg_ipg sb Hg) as [Hp _]. apply new_group_ok; try done.
  intros x Hx. apply Hst. nia.
Qed.

Lemma group_range k : 0 <= k < fs_ncg sb -> 0 <= k < 2 ^ 31 /\ 0 <= fs_size sb - fs_fpg sb * k.
Proof using Ht Hsize.
  clear Hres Hst Hmax Hipg Htail. intros Hk. destruct (wg_fpg sb Hg) as [Hp _]. pose proof (wg_size sb Hg). change (2 ^ 31) with 2147483648 in *. nia.
Qed.

(** The sizes compared. *)
Lemma zlen_map_bytes k old g old0 :
  computed sb bm sm k old g -> let h := new_header sb false k old0 in
  zlen (cg_inosused g) = off_free sb - off_iused sb /\ zlen (cg_blksfree g ++ cluster_bytes sb h g) = off_end sb - off_free sb.
Proof using Ht Hipg Hfit.
  intros Hc. cbn zeta. destruct (cp_inosused _ _ _ _ _ _ Hc) as [_ Hi]. pose proof (cp_len _ _ _ _ _ _ Hc) as Hf.
  destruct (header_offsets sb Ht Hipg Hfit false k old0) as (_ & _ & _ & E4 & _ & E6). pose proof (sum_pad sb) as Hp.
  destruct (table_sizes sb Ht Hipg) as (T1 & T2 & T3 & T4 & T5 & T6).
  split; [rewrite Hi; unfold off_free; lia|]. rewrite zlen_app, Hf. unfold cluster_bytes, off_end.
  destruct (Z.leb_spec (fs_contigsumsize sb) 0) as [Hc0|HS].
  - change (zlen ([] : list Z)) with 0. lia.
  - destruct (E6 HS) as [E7 E8]. rewrite E4, E7, Hf, !zlen_app, zlen_words.
    destruct (cp_clusters _ _ _ _ _ _ Hc HS) as [_ ->]. destruct (sh_sum _ _ (cp_shaped _ _ _ _ _ _ Hc)) as [_ Hs]. specialize (Hs HS).
    unfold zeros. rewrite zlen_zeros by lia. unfold off_clusters.
    assert (zlen (drop 1 (cg_clustersum g)) = fs_contigsumsize sb) as -> by (unfold zlen in *; rewrite length_drop; lia). lia.
Qed.

Lemma zlen_group_bytes k old g old0 r f cur n :
  computed sb bm sm k old g -> 168 <= zlen cur ->
  let h := new_header sb false k old0 in
  zlen (base_bytes h g r f cur n ++ total_bytes g ++ map_bytes sb h g) = off_end sb.
Proof using Ht Hipg Hfit.
  intros Hc Hcur. cbn zeta. destruct (zlen_map_bytes k old g old0 Hc) as [M1 M2].
  rewrite zlen_app, zlen_app. unfold map_bytes. rewrite zlen_app, M1, M2.
  rewrite zlen_base by (done || apply (cp_shaped _ _ _ _ _ _ Hc)). rewrite (zlen_totals _ _ _ _ _ _ Hc). lia.
Qed.

Lemma group_bytes_parts h g r f cur n : exists pad,
  group_bytes sb h g r f cur n =
  base_bytes h g r f cur n ++ total_bytes g ++ cg_inosused g ++ (cg_blksfree g ++ cluster_bytes sb h g) ++ pad.
Proof using Type. eexists. unfold group_bytes, map_bytes. rewrite <- !app_assoc. reflexivity. Qed.

(** The sizes as the code computes them. *)
Lemma table_bounds : 168 <= off_iused sb /\ off_iused sb <= off_free sb /\ off_free sb < off_end sb.
Proof using Ht Hipg Hfit.
  destruct (table_sizes sb Ht Hipg) as (T1 & T2 & T3 & T4 & T5 & T6). pose proof (sum_pad sb).
  unfold off_end, off_clusters. case_match; unfold off_free, off_iused, off_boff in *; lia.
Qed.

Lemma sizes_compared k old (h := new_header sb false k old) :
  (cg_iusedoff h - cg_btotoff h)%int = off_iused sb - 168 /\
  (cg_freeoff h - cg_iusedoff h)%int = off_free sb - off_iused sb /\
  (cg_nextfreeoff h - cg_freeoff h)%int = off_end sb - off_free sb.
Proof using Ht Hipg Hfit.
  destruct (header_offsets sb Ht Hipg Hfit false k old) as (E1 & _ & E3 & E4 & E5 & _). unfold h. rewrite E1, E3, E4, E5.
  destruct table_bounds as (B1 & B2 & B3). change (2 ^ 30) with 1073741824 in Hfit.
  rewrite !s32_small by (unfold in_s32; zify_pow; lia). done.
Qed.

Section Tables.
Context (k : Z) (Hk : 0 <= k < fs_ncg sb) (old0 old : list Z) (g : cg) (Hc : computed sb bm sm k old0 g) (r f : Z).
#[local] Abbreviation h := (new_header sb false k old).

Lemma block_totals_found cur n z : 168 <= zlen cur -> blktot_off (base_bytes h g r f cur n ++ z) = 168.
Proof using Ht Hipg Hfit Hc.
  intros Hcur. pose proof (zlen_base_group sb false k bm sm old old0 g Hc r f n cur Hcur) as Hb.
  destruct (macros_find sb Ht Hipg Hfit false k bm sm old old0 g Hc r f n cur [] Hcur) as (_ & M & _).
  rewrite <- M. by apply blktot_front.
Qed.

(** The maps, then the header with the block totals. *)
Lemma check_tables_ok s :
  agreeing s -> placed old -> k_cg s k = old ->
  exists s' rest,
    check_tables k 168 (off_iused sb - 168) (off_free sb - off_iused sb) (off_end sb - off_free sb) (group_bytes sb h g r f) s = ok s' /\
    moved k s s' /\ zlen (k_cg s' k) = fs_cgsize sb /\
    k_cg s' k = base_bytes h g r f old (word32 old at_new_niblk) ++ total_bytes g ++ map_bytes sb h g ++ rest.
Proof using Ht Hipg Hfit Hc.
  intros Ha [P1 P2 P3] Eold. destruct table_bounds as (B1 & B2 & B3).
  destruct (zlen_map_bytes k old0 g old Hc) as [L1 L2]. pose proof (zlen_totals sb k bm sm old0 g Hc) as L3.
  destruct (split_at old 168) as (A & l1 & E1 & HA); [lia|].
  destruct (split_at l1 (off_iused sb - 168)) as (T & l2 & E2 & HT); [rewrite E1, zlen_app in P1; lia|].
  destruct (split_at l2 (off_free sb - off_iused sb)) as (I & l3 & E3 & HI); [rewrite E1, E2, !zlen_app in P1; lia|].
  destruct (split_at l3 (off_end sb - off_free sb)) as (F & R & E4 & HF); [rewrite E1, E2, E3, !zlen_app in P1; lia|].
  subst l1 l2 l3. unfold check_tables. rewrite Eold. assert (168 <= zlen old) as Hold by lia.
  (* The inode map. *)
  destruct (group_bytes_parts h g r f old 0) as [pad Ep].
  destruct (macros_find sb Ht Hipg Hfit false k bm sm old old0 g Hc r f 0 old pad Hold) as (_ & _ & _ & M4 & M5).
  unfold map_bytes in M4, M5. rewrite <- !app_assoc in M4, M5. rewrite <- !app_assoc in Ep. rewrite <- Ep in M4, M5.
  pose proof (zlen_base_group sb false k bm sm old old0 g Hc r f 0 old Hold) as Hb0.
  destruct (check_map_ok k (group_bytes sb h g r f old 0) inosused_off (off_free sb - off_iused sb) s (A ++ T) I (F ++ R)
    (base_bytes h g r f old 0 ++ total_bytes g) (cg_inosused g) (cg_blksfree g ++ cluster_bytes sb h g ++ pad))
    as (s1 & -> & N1 & G1); try done.
  { by rewrite Eold, E1, <- !app_assoc. } { by rewrite Ep, <- !app_assoc. } { rewrite M4, zlen_app. lia. } { rewrite Eold, P2, zlen_app. lia. }
  cbn [rbind ok]. rewrite (proj2 (Z.eqb_neq (off_end sb - off_free sb) 0)) by lia.
  (* The fragments and clusters. *)
  rewrite <- !app_assoc in G1. rewrite E1 in P2, P3. destruct (tables_front A (T ++ I ++ F ++ R) (T ++ cg_inosused g ++ F ++ R) HA) as [_ Q3].
  destruct (check_map_ok k (group_bytes sb h g r f old 0) blksfree_off (off_end sb - off_free sb) s1 (A ++ T ++ cg_inosused g) F R
    (base_bytes h g r f old 0 ++ total_bytes g ++ cg_inosused g) (cg_blksfree g ++ cluster_bytes sb h g) pad)
    as (s2 & -> & N2 & G2); try done.
  { by apply N1. } { by rewrite G1, <- !app_assoc. } { by rewrite Ep, <- !app_assoc. } { rewrite M5, !zlen_app. lia. }
  { rewrite G1, <- Q3, P3, !zlen_app. lia. }
  cbn [rbind ok]. rewrite <- !app_assoc in G2.
  (* The header and the block totals. *)
  set (n := word32 (k_cg s2 k) at_new_niblk).
  assert (n = word32 old at_new_niblk) as En by (unfold n; rewrite G2, E1; by apply niblk_front).
  assert (base_bytes h g r f (k_cg s2 k) n = base_bytes h g r f old n) as Eb by (rewrite G2, E1; by apply base_front).
  destruct (group_bytes_parts h g r f (k_cg s2 k) n) as [pad' Ep']. rewrite Eb in Ep'.
  destruct (check_summary_ok k 168 (off_iused sb - 168) (group_bytes sb h g r f (k_cg s2 k) n) s2 A T
    (cg_inosused g ++ (cg_blksfree g ++ cluster_bytes sb h g) ++ R) (base_bytes h g r f old n) (total_bytes g)
    (cg_inosused g ++ (cg_blksfree g ++ cluster_bytes sb h g) ++ pad')) as (s3 & -> & N3 & G3); try done.
  { by apply N2. } { by rewrite G2, <- !app_assoc. }
  { by apply (zlen_base_group sb false k bm sm old old0 g Hc). } { intros z. by apply block_totals_found. }
  exists s3, R. split; [done|]. split; [eapply moved_trans; [exact N1|]; eapply moved_trans; [exact N2|exact N3]|].
  split.
  - rewrite G3, !zlen_app, L1, L3. rewrite (zlen_base_group sb false k bm sm old old0 g Hc r f n old Hold).
    rewrite E1, !zlen_app in P1. rewrite zlen_app in L2. lia.
  - rewrite G3, En. unfold map_bytes. by rewrite <- !app_assoc.
Qed.

End Tables.

(** What is written is clean. *)
Lemma written_clean k old g r f n rest l :
  0 <= k < fs_ncg sb -> new_group sb bm sm false k old = ok g -> computed sb bm sm k old g -> 168 <= zlen old ->
  r = keep_rotor (word32 old at_rotor) (cg_ndblk g) -> f = keep_rotor (word32 old at_frotor) (cg_ndblk g) -> in_s32 n ->
  l = base_bytes (new_header sb false k old) g r f old n ++ total_bytes g ++ map_bytes sb (new_header sb false k old) g ++ rest ->
  zlen l = fs_cgsize sb -> clean_group k l g.
Proof using Ht Hipg Hsize.
  intros Hk Hn Hc Hold Er Ef Hns El Hlen. destruct (group_range k Hk) as [K1 K2].
  destruct (sh_frsum _ _ (cp_shaped _ _ _ _ _ _ Hc)) as [_ Hfr].
  destruct (numbers_fit sb Ht Hipg k bm sm old g Hc K1 K2) as (_ & _ & Hi & _).
  assert (word32 l at_irotor = cg_irotor g) as Ei by (rewrite El; by apply header_irotor).
  assert (word32 l at_rotor = r) as R1 by (rewrite El; apply header_rotor; try done; rewrite Er; apply keep_rotor_range).
  assert (word32 l at_frotor = f) as R2 by (rewrite El; apply header_frotor; try done; rewrite Ef; apply keep_rotor_range).
  assert (word32 l at_new_niblk = n) as R3 by (rewrite El; by apply header_new_niblk).
  constructor.
  - rewrite <- Hn. apply new_group_irotor. unfold kept_irotor at 1. cbn zeta. rewrite Ei, (cp_irotor _ _ _ _ _ _ Hc).
    pose proof (kept_irotor_bounds sb Ht old) as Hb. by rewrite (proj2 (Z.leb_le 0 _)), (proj2 (Z.ltb_lt _ _)) by lia.
  - exact Hlen.
  - exists rest. cbn zeta. rewrite R1, R2, R3. rewrite (base_header sb k l old), (map_header sb k l old).
    rewrite Er, Ef, !keep_rotor_again, <- Er, <- Ef. rewrite El at 1. f_equal. symmetry. rewrite El. by apply base_again.
Qed.

(** ** The loop over the groups *)

(** What stays as it is while the groups are checked. *)
Record standing (s : fsck) : Prop := {
  sd_sb : k_sb s = sb;
  sd_maps : k_blockmap s = bm /\ k_statemap s = sm;
  sd_flags : k_updated s = false;
  sd_csp : zlen (k_csp s) = fs_ncg sb;
  sd_agree : agreeing s }.

(** Group [k] is as pass 5 wants it. *)
Definition settled (s : fsck) (k : Z) (g : cg) : Prop :=
  clean_group k (k_cg s k) g /\ zget (k_csp s) k = cg_cs g.

(** Nothing but group [k] and its summary has changed. *)
Record kept_but (k : Z) (s s' : fsck) : Prop := {
  kb_user : k_user s' = k_user s;
  kb_flags : k_flags s' = k_flags s;
  kb_other : forall j, j <> k -> k_cg s' j = k_cg s j /\ zget (k_csp s') j = zget (k_csp s) j }.

(** The summary of the group in fs_cs. *)
Lemma salvage_entry s k v : standing s -> 0 <= k < fs_ncg sb ->
  exists s1, salvage s 0 (negb (csum_eqb v (zget (k_csp s) k))) (fun s => ok (set_cs_entry s k v)) = ok s1 /\
    standing s1 /\ kept_but k s s1 /\ k_cg s1 = k_cg s /\ zget (k_csp s1) k = v.
Proof using Type.
  intros [S1 S2 S3 S4 S5] Hk. unfold salvage. destruct (csum_eqb v (zget (k_csp s) k)) eqn:E; cbn [negb].
  - apply csum_eqb_eq in E. exists s. split; [done|]. split; [done|]. split; [by constructor|]. done.
  - destruct (ask_agree s 0 S5) as (f & -> & Hf); [done|]. cbn beta iota. eexists. split; [reflexivity|].
    split; [|split; [|split; [done|]]].
    + constructor; try done. { cbn. by rewrite zlen_zset. } by destruct Hf.
    + constructor; try done. intros j Hj. cbn. split; [done|]. by apply zget_zset_ne.
    + cbn. apply zget_zset_eq. lia.
Qed.

Lemma moved_standing k s s' : moved k s s' -> standing s -> standing s' /\ kept_but k s s'.
Proof using Type.
  intros [M1 M2 M3 M4 M5 M6 M7 M8] [S1 [S2 S2'] S3 S4 S5]. split.
  - constructor; [congruence|destruct M8; split; congruence|unfold k_updated in *; congruence|congruence|done].
  - constructor; [done|done|]. intros j Hj. rewrite M5. split; [by apply M7|done].
Qed.

Lemma kept_but_trans k s1 s2 s3 : kept_but k s1 s2 -> kept_but k s2 s3 -> kept_but k s1 s3.
Proof using Type.
  intros [A1 A2 A3] [B1 B2 B3]. constructor; [congruence|congruence|]. intros j Hj.
  destruct (A3 j Hj) as [<- <-]. by apply B3.
Qed.

Lemma check_group_ok s k :
  standing s -> 0 <= k < fs_ncg sb -> placed (k_cg s k) -> cg_chkmagic (k_cg s k) || negb (preen (k_user s)) = true ->
  exists s' g, check_group false s k = ok (s', cg_cs g) /\ standing s' /\ settled s' k g /\ kept_but k s s'.
Proof using Ht Hsize Hipg Hmax Hfit Htail Hst Hres.
  intros Hs Hk Hp Hm. pose proof Hs as [S1 [S2 S2'] S3 S4 S5]. destruct (group_computed k (k_cg s k) Hk) as (g & Eg & Hc).
  assert (168 <= zlen (k_cg s k)) as Hold by (rewrite (pl_len _ Hp); destruct table_bounds as (B1 & B2 & B3); lia).
  destruct (salvage_entry s k (cg_cs g) Hs Hk) as (s1 & E1 & T1 & K1 & C1 & V1).
  destruct (sizes_compared k (k_cg s k)) as (Z1 & Z2 & Z3).
  destruct (check_tables_ok k (k_cg s k) (k_cg s k) g Hc (keep_rotor (word32 (k_cg s k) at_rotor) (cg_ndblk g))
    (keep_rotor (word32 (k_cg s k) at_frotor) (cg_ndblk g)) s1 (sd_agree _ T1) Hp) as (s2 & rest & E2 & M2 & L2 & B2); [by rewrite C1|].
  destruct (moved_standing k s1 s2 M2 T1) as [T2 K2].
  exists s2, g. split; [|split; [exact T2|split; [split|by eapply kept_but_trans]]].
  - unfold check_group. rewrite Hm, S1, S2, S2', S3, Eg. cbn [rbind ok]. rewrite Z1, Z2, Z3, E1. cbn [rbind ok].
    by rewrite E2.
  - exact (written_clean k _ g _ _ _ rest _ Hk Eg Hc Hold eq_refl eq_refl (word32_range _ _) B2 L2).
  - by rewrite (mv_csp _ _ _ M2).
Qed.

Lemma clean_old k l g : clean_group k l g -> 168 <= zlen l.
Proof using Ht Hipg Hfit. intros [_ H _]. destruct table_bounds as (B1 & B2 & B3). lia. Qed.

Lemma clean_computed k l g : 0 <= k < fs_ncg sb -> clean_group k l g -> computed sb bm sm k l g.
Proof using Ht Hsize Hipg Hmax Htail Hst Hres.
  intros Hk [E _ _]. destruct (group_computed k l Hk) as (g' & E' & H). rewrite E in E'. by injection E' as ->.
Qed.

(** What the handler reads of it. *)
Lemma clean_read k l g : 0 <= k < fs_ncg sb -> clean_group k l g -> same_tables sb g (read_cg sb l).
Proof using Ht Hsize Hipg Hmax Hfit Htail Hst Hres.
  intros Hk Hl. pose proof (clean_computed k l g Hk Hl) as Hc. pose proof (clean_old k l g Hl) as Hold.
  destruct (group_range k Hk) as [K1 K2]. destruct Hl as [_ _ [rest El]]. cbn zeta in El. rewrite El.
  by apply (read_group sb Ht Hipg Hfit false k bm sm l l g Hc K1 K2).
Qed.

Lemma check_groups_ok l : forall s T,
  NoDup l -> standing s ->
  (forall k, k ∈ l -> 0 <= k < fs_ncg sb /\ placed (k_cg s k) /\ cg_chkmagic (k_cg s k) || negb (preen (k_user s)) = true) ->
  exists s' T', check_groups false s l (csum_wrap T) = ok (s', csum_wrap T') /\ standing s' /\
    k_user s' = k_user s /\ k_flags s' = k_flags s /\
    (forall k, k ∉ l -> k_cg s' k = k_cg s k /\ zget (k_csp s') k = zget (k_csp s) k) /\
    (forall k, k ∈ l -> exists g, settled s' k g) /\
    T' = csum_plus T (csum_sum (fun k => cg_cs (read_cg sb (k_cg s' k))) l).
Proof using Ht Hsize Hipg Hmax Hfit Htail Hst Hres.
  induction l as [|k l IH]; intros s T Hnd Hs Hl; cbn [check_groups].
  - exists s, T. split; [done|]. split; [done|]. split; [done|]. split; [done|]. split; [done|].
    split; [|apply csum_plus_nil]. intros k Hk. by apply not_elem_of_nil in Hk.
  - apply NoDup_cons in Hnd as [Hk Hnd]. destruct (Hl k) as (Hr & Hp & Hm); [by left|].
    destruct (check_group_ok s k Hs Hr Hp Hm) as (s1 & g & -> & S1 & G1 & K1). cbn [rbind ok]. rewrite csum_add_wrap.
    destruct (IH s1 (csum_plus T (cg_cs g)) Hnd S1) as (s' & T' & E & S' & U' & F' & O' & G' & ET).
    { intros j Hj. destruct (Hl j) as (? & ? & ?); [by right|]. rewrite (kb_user _ _ _ K1).
      assert (j <> k) as Hne by (by intros ->). by destruct (kb_other _ _ _ K1 j Hne) as [-> _]. }
    exists s', T'. split; [done|]. split; [done|]. split; [rewrite U'; apply K1|]. split; [rewrite F'; apply K1|].
    destruct (O' k Hk) as [Ok1 Ok2].
    assert (settled s' k g) as Gk by (destruct G1; split; [by rewrite Ok1|by rewrite Ok2]).
    split; [|split].
    + intros j Hj. apply not_elem_of_cons in Hj as [Hne Hj]. destruct (O' j Hj) as [-> ->]. by apply K1.
    + intros j [->|Hj]%elem_of_cons; [by exists g|by apply G'].
    + rewrite ET, csum_sum_cons, csum_plus_assoc. do 2 f_equal. symmetry. apply (st_cs sb), (clean_read k); [done|apply Gk].
Qed.

(** ** Nothing more to repair *)

Lemma check_tables_clean s k g (l := k_cg s k) (h := new_header sb false k l) :
  0 <= k < fs_ncg sb -> clean_group k l g ->
  check_tables k 168 (off_iused sb - 168) (off_free sb - off_iused sb) (off_end sb - off_free sb)
    (group_bytes sb h g (keep_rotor (word32 l at_rotor) (cg_ndblk g)) (keep_rotor (word32 l at_frotor) (cg_ndblk g))) s = ok s.
Proof using Ht Hsize Hipg Hmax Hfit Htail Hst Hres.
  intros Hk Hl. unfold h. clear h. pose proof (clean_computed k l g Hk Hl) as Hc. pose proof (clean_old k l g Hl) as Hold.
  destruct table_bounds as (B1 & B2 & B3). destruct Hl as [_ _ [rest El]]. cbn zeta in El.
  set (r := keep_rotor (word32 l at_rotor) (cg_ndblk g)) in *. set (f := keep_rotor (word32 l at_frotor) (cg_ndblk g)) in *.
  set (n := word32 l at_new_niblk) in *.
  destruct (zlen_map_bytes k l g l Hc) as [L1 L2]. pose proof (zlen_totals sb k bm sm l g Hc) as L3.
  pose proof (zlen_base_group sb false k bm sm l l g Hc r f 0 l Hold) as Hb0.
  pose proof (zlen_base_group sb false k bm sm l l g Hc r f n l Hold) as Hb.
  destruct (group_bytes_parts (new_header sb false k l) g r f l 0) as [pad Ep].
  destruct (group_bytes_parts (new_header sb false k l) g r f l n) as [pad' Ep'].
  destruct (macros_find sb Ht Hipg Hfit false k bm sm l l g Hc r f 0 l pad Hold) as (_ & _ & _ & M4 & M5).
  destruct (macros_find sb Ht Hipg Hfit false k bm sm l l g Hc r f n l rest Hold) as (_ & _ & _ & N4 & N5).
  rewrite <- El in N4, N5. unfold map_bytes in M4, M5, El. rewrite <- !app_assoc in M4, M5, El. rewrite <- !app_assoc in Ep.
  rewrite <- Ep in M4, M5. unfold check_tables. fold l.
  rewrite (check_map_same k (group_bytes sb (new_header sb false k l) g r f l 0) inosused_off _ s
    (base_bytes (new_header sb false k l) g r f l n ++ total_bytes g) (cg_inosused g) (cg_blksfree g ++ cluster_bytes sb (new_header sb false k l) g ++ rest)
    (base_bytes (new_header sb false k l) g r f l 0 ++ total_bytes g) (cg_blksfree g ++ cluster_bytes sb (new_header sb false k l) g ++ pad));
    [|by rewrite <- app_assoc|by rewrite <- app_assoc|rewrite M4, zlen_app; lia|rewrite zlen_app; fold l; lia|done].
  cbn [rbind ok]. rewrite (proj2 (Z.eqb_neq (off_end sb - off_free sb) 0)) by lia.
  rewrite (check_map_same k (group_bytes sb (new_header sb false k l) g r f l 0) blksfree_off _ s
    (base_bytes (new_header sb false k l) g r f l n ++ total_bytes g ++ cg_inosused g)
    (cg_blksfree g ++ cluster_bytes sb (new_header sb false k l) g) rest
    (base_bytes (new_header sb false k l) g r f l 0 ++ total_bytes g ++ cg_inosused g) pad);
    [|by rewrite <- !app_assoc|by rewrite <- !app_assoc|rewrite M5, !zlen_app; lia|rewrite !zlen_app; fold l; lia|done].
  cbn [rbind ok]. fold l. fold n.
  eapply check_summary_same; [exact El|exact Ep'|done|done|].
  intros z. by apply (block_totals_found k l l g Hc).
Qed.

Lemma check_group_clean s k g :
  k_sb s = sb -> k_blockmap s = bm -> k_statemap s = sm -> k_updated s = false -> 0 <= k < fs_ncg sb -> settled s k g ->
  check_group false s k = ok (s, cg_cs g).
Proof using Ht Hsize Hipg Hmax Hfit Htail Hst Hres.
  intros S1 S2 S2' S3 Hk [Hl Hv]. pose proof (clean_computed k _ g Hk Hl) as Hc. pose proof (clean_old k _ g Hl) as Hold.
  pose proof (check_tables_clean s k g Hk Hl) as E2. cbn zeta in E2.
  destruct (sizes_compared k (k_cg s k)) as (Z1 & Z2 & Z3).
  assert (cg_chkmagic (k_cg s k) = true) as Hm.
  { destruct Hl as [_ _ [rest El]]. cbn zeta in El. unfold cg_chkmagic. apply orb_true_iff. left. apply Z.eqb_eq. rewrite El.
    apply header_magic; [done|]. apply (cp_shaped _ _ _ _ _ _ Hc). }
  unfold check_group. rewrite Hm, S1, S2, S2', S3, (cl_group _ _ _ Hl). cbn [rbind ok orb]. rewrite Z1, Z2, Z3, Hv.
  rewrite (proj2 (csum_eqb_eq (cg_cs g) (cg_cs g)) eq_refl). cbn [negb salvage rbind ok]. by rewrite E2.
Qed.

Lemma check_groups_clean s l : forall T,
  k_sb s = sb -> k_blockmap s = bm -> k_statemap s = sm -> k_updated s = false ->
  (forall k, k ∈ l -> 0 <= k < fs_ncg sb /\ exists g, settled s k g) ->
  check_groups false s l (csum_wrap T) =
    ok (s, csum_wrap (csum_plus T (csum_sum (fun k => cg_cs (read_cg sb (k_cg s k))) l))).
Proof using Ht Hsize Hipg Hmax Hfit Htail Hst Hres.
  induction l as [|k l IH]; intros T S1 S2 S2' S3 Hl; cbn [check_groups].
  - by rewrite <- csum_plus_nil.
  - destruct (Hl k) as (Hk & g & Hg'); [by left|]. rewrite (check_group_clean s k g) by done. cbn [rbind ok].
    rewrite csum_add_wrap, IH by (done || (intros j Hj; apply Hl; by right)).
    by rewrite csum_sum_cons, csum_plus_assoc, (st_cs sb _ _ (clean_read k _ g Hk (proj1 Hg'))).
Qed.

(** ** The file system after the pass *)

Record passed (s : fsck) : Prop := {
  pd_sb : k_sb s = sb;
  pd_maps : k_blockmap s = bm /\ k_statemap s = sm;
  pd_flags : k_updated s = false;
  pd_csp : zlen (k_csp s) = fs_ncg sb;
  pd_groups : forall k, 0 <= k < fs_ncg sb -> exists g, settled s k g;
  pd_total : k_cstotal s = csum_wrap (csum_sum (fun k => cg_cs (read_group_of s k)) (seqZ 0 (fs_ncg sb))) }.

Section Passed.
Context (s : fsck) (Hp : passed s).

Lemma passed_group k : 0 <= k < fs_ncg sb ->
  exists l g, computed sb bm sm k l g /\ same_tables sb g (read_group_of s k) /\ zget (k_csp s) k = cg_cs g.
Proof using Ht Hsize Hipg Hmax Hfit Htail Hst Hres Hp.
  intros Hk. destruct (pd_groups s Hp k Hk) as (g & Hl & Hv). exists (k_cg s k), g. split; [by apply clean_computed|].
  split; [|done]. unfold read_group_of. rewrite (pd_sb s Hp). apply (clean_read k); [done|apply Hl].
Qed.

Lemma passed_free k i : 0 <= k < fs_ncg sb -> 0 <= i < frags_of sb k ->
  is_free (cg_blksfree (read_group_of s k)) i = negb (isset bm (fs_fpg sb * k + i)).
Proof using Ht Hsize Hipg Hmax Hfit Htail Hst Hres Hp.
  intros Hk Hi. destruct (passed_group k Hk) as (l & g & Hc & St & _). rewrite (st_blksfree _ _ _ St), (cp_free _ _ _ _ _ _ Hc).
  assert (in_range 0 (frags_of sb k) i = true) as -> by (apply in_range_spec; lia). done.
Qed.

Lemma passed_fs : isset bm 0 = true -> fs_inv (checked s) (read_group_of s).
Proof using Ht Hsize Hipg Hmax Hfit Htail Hst Hres Hp.
  intros H0. pose proof (pd_sb s Hp) as E. pose proof (wg_ncg sb Hg) as Hncg.
  assert (forall k, 0 <= k < fs_ncg sb -> wf_blocks sb (read_group_of s k) /\ wf_frags sb (read_group_of s k)) as Hw.
  { intros k Hk. destruct (passed_group k Hk) as (l & g & Hc & St & _). exact (same_tables_blocks sb k bm sm l g Hc _ St). }
  constructor; [constructor|]; unfold checked; cbn [fs_geo]; rewrite ?E.
  - exact Hg.
  - intros k Hk. by apply Hw.
  - constructor; cbn [fs_geo fs_csp fs_cstotal]; rewrite ?E.
    + apply (pd_csp s Hp).
    + intros k Hk. destruct (passed_group k Hk) as (l & g & _ & St & Hv). by rewrite (st_cs _ _ _ St).
    + apply (pd_total s Hp).
    + intros Hu. pose proof (pd_flags s Hp) as Hn. unfold fs_updated, k_updated in *. cbn [fs_flags] in Hu. congruence.
  - rewrite passed_free; [|lia|destruct (frags_bounds sb Ht Hsize 0); lia].
    by rewrite Z.mul_0_r, Z.add_0_l, H0.
  - intros k Hk. by apply Hw.
Qed.

Lemma passed_used i : 0 <= i < fs_ipg sb * fs_ncg sb ->
  inode_used (checked s) (read_group_of s) i = state_used (zget sm i) || (i <? ROOTINO).
Proof using Ht Hsize Hipg Hmax Hfit Htail Hst Hres Hp.
  intros Hi. unfold inode_used, itog, ino_used, checked. cbn [fs_geo]. rewrite (pd_sb s Hp). destruct (wg_ipg sb Hg) as [Hq _].
  pose proof (Z.mod_pos_bound i (fs_ipg sb) Hq). pose proof (Z.div_mod i (fs_ipg sb) ltac:(lia)) as Hd.
  assert (0 <= i / fs_ipg sb < fs_ncg sb) as Hk by (split; [apply Z.div_pos; lia|apply Z.div_lt_upper_bound; lia]).
  destruct (passed_group _ Hk) as (l & g & Hc & St & _). rewrite (st_inosused _ _ _ St), (cp_used _ _ _ _ _ _ Hc).
  assert (in_range 0 (fs_ipg sb) (i mod fs_ipg sb) = true) as -> by (apply in_range_spec; lia). rewrite <- Hd. cbn [andb]. f_equal.
  apply eq_true_iff_eq. rewrite andb_true_iff, Z.eqb_eq, !Z.ltb_lt. unfold ROOTINO in *. split; intros; nia.
Qed.

Lemma passed_inodes : state_used (zget sm ROOTINO) = true -> inode_inv (checked s) (read_group_of s).
Proof using Ht Hsize Hipg Hmax Hfit Htail Hst Hres Hp.
  intros H2. constructor; unfold checked; cbn [fs_geo]; rewrite (pd_sb s Hp); [|exact Hmax]. intros k Hk.
  destruct (passed_group k Hk) as (l & g & Hc & St & _). destruct (cp_inosused _ _ _ _ _ _ Hc) as [_ Hlen].
  destruct (wg_ipg sb Hg) as [Hq _]. change (2 ^ 15) with 32768 in Hipg.
  destruct (howmany_bits (fs_ipg sb)) as [_ Hb]; [change (2 ^ 30) with 1073741824; lia|].
  constructor.
  - by rewrite (st_niblk _ _ _ St), (cp_niblk _ _ _ _ _ _ Hc).
  - rewrite (st_niblk _ _ _ St), (cp_niblk _ _ _ _ _ _ Hc), (st_inosused _ _ _ St), Hlen. unfold NBBY in *. lia.
  - rewrite (st_irotor _ _ _ St), (cp_irotor _ _ _ _ _ _ Hc). apply (kept_irotor_bounds sb Ht l).
  - unfold free_inodes, ino_used. rewrite (st_niblk _ _ _ St), (st_inosused _ _ _ St), (st_cs _ _ _ St). apply (cp_nifree _ _ _ _ _ _ Hc).
  - intros -> i Hi. unfold ino_used. rewrite (st_inosused _ _ _ St), (cp_used _ _ _ _ _ _ Hc), Z.mul_0_r, Z.add_0_l.
    assert (in_range 0 (fs_ipg sb) i = true) as -> by (apply in_range_spec; lia). cbn [Z.eqb andb].
    unfold ROOTINO in *. destruct (Z.ltb_spec i 2); [by rewrite orb_true_r|]. replace i with 2 by lia. by rewrite H2.
Qed.

End Passed.

(** ** The pass *)

(** The start of the pass: no question asked, the end of the last block in
    use in [bm]. *)
Section Pass5.
Context (Hformat : fs_postblformat sb = FS_DYNAMICPOSTBLFMT) (cvtlevel : Z) (Hlevel : cvtlevel <= 3) (dl2 : bool).
#[local] Abbreviation start s := (set_blockmap (set_asked s (k_user s) (repeat (if dl2 then FIX else DONTKNOW) 3)) bm).

Lemma pass5_eq s : k_sb s = sb -> k_updated s = false -> mark_tail sb (k_blockmap s) = bm ->
  pass5 cvtlevel false dl2 s =
    (r <-- check_groups false (start s) (upto 0 (fs_ncg sb) 1) csum0 ;;
     let '(s, total) := r in
     if k_updated s then
       salvage s 0 (negb (csum_eqb total (k_new_cstotal s))) (fun s => ok (set_totals s total total))
     else
       salvage s 0 (negb (csum_eqb total (k_cstotal s))) (fun s => ok (set_totals s total (k_new_cstotal s)))).
Proof using Hformat Hlevel.
  intros S1 S3 Hm. unfold pass5. rewrite (proj2 (Z.ltb_ge 3 cvtlevel) Hlevel), S1, S3, Hformat.
  change (FS_DYNAMICPOSTBLFMT =? FS_42POSTBLFMT) with false. rewrite Z.eqb_refl. cbn [negb andb orb].
  change (k_sb (set_asked s (k_user s) (repeat (if dl2 then FIX else DONTKNOW) 3))) with (k_sb s).
  change (k_blockmap (set_asked s (k_user s) (repeat (if dl2 then FIX else DONTKNOW) 3))) with (k_blockmap s).
  rewrite S1, Hm. change (k_sb (start s)) with (k_sb s). by rewrite S1.
Qed.

Lemma pass5_ok s :
  k_sb s = sb -> k_updated s = false -> mark_tail sb (k_blockmap s) = bm -> k_statemap s = sm -> zlen (k_csp s) = fs_ncg sb ->
  preen (k_user s) || negb (nflag (k_user s)) && yflag (k_user s) = true ->
  (forall k, 0 <= k < fs_ncg sb -> placed (k_cg s k) /\ cg_chkmagic (k_cg s k) || negb (preen (k_user s)) = true) ->
  exists s', pass5 cvtlevel false dl2 s = ok s' /\ passed s'.
Proof using Ht Hsize Hipg Hmax Hfit Htail Hst Hres Hformat Hlevel.
  intros S1 S3 Hm S2 S4 Hu Hl. rewrite pass5_eq by done.
  assert (standing (start s)) as Hs.
  { constructor; try done. constructor; [done|by destruct dl2|]. intros i Hi.
    assert (i = 0 \/ i = 1 \/ i = 2) as [-> | [-> | ->]] by lia; destruct dl2; auto. }
  change csum0 with (csum_wrap csum0). rewrite upto0_seqZ.
  destruct (check_groups_ok (seqZ 0 (fs_ncg sb)) (start s) csum0) as (s1 & T & E & T1 & U1 & F1 & _ & G1 & ET);
    [apply NoDup_seqZ|done|intros k Hk%elem_of_seqZ; split; [lia|apply Hl; lia]|].
  rewrite E. cbn [rbind ok]. rewrite (sd_flags _ T1). set (t := csum_wrap T) in *.
  assert (t = csum_wrap (csum_sum (fun k => cg_cs (read_group_of s1 k)) (seqZ 0 (fs_ncg sb)))) as Et.
  { unfold t. rewrite ET. unfold read_group_of. rewrite (sd_sb _ T1). done. }
  assert (forall k, 0 <= k < fs_ncg sb -> exists g, settled s1 k g) as Hg1 by (intros k Hk; apply G1, elem_of_seqZ; lia).
  clearbody t. destruct T1 as [A1 A2 A3 A4 A5]. unfold salvage. destruct (csum_eqb t (k_cstotal s1)) eqn:Ee; cbn [negb].
  - apply csum_eqb_eq in Ee. exists s1. split; [done|]. constructor; try done. by rewrite <- Ee.
  - destruct (ask_agree s1 0 A5) as (f & -> & Hf); [done|]. cbn beta iota. eexists. split; [reflexivity|]. by constructor.
Qed.

(** A second pass, whoever answers. *)
Lemma pass5_clean s : passed s -> mark_tail sb bm = bm -> forall u f,
  pass5 cvtlevel false dl2 (set_asked s u f) = ok (set_asked s u (repeat (if dl2 then FIX else DONTKNOW) 3)).
Proof using Ht Hsize Hipg Hmax Hfit Htail Hst Hres Hformat Hlevel.
  intros Hp Hm u f. destruct Hp as [P1 [P2 P2'] P3 P4 P5 P6].
  rewrite pass5_eq; [|done|done|cbn [set_asked k_blockmap]; by rewrite P2].
  set (s1 := start (set_asked s u f)).
  assert (s1 = set_asked s u (repeat (if dl2 then FIX else DONTKNOW) 3)) as E1.
  { unfold s1. rewrite <- P2. by destruct s. }
  change csum0 with (csum_wrap csum0). rewrite upto0_seqZ, (check_groups_clean s1) by
    (done || (by rewrite E1) || (intros k Hk%elem_of_seqZ; split; [lia|rewrite E1; apply P5; lia])).
  cbn [rbind ok]. assert (csum_wrap (csum_plus csum0 (csum_sum (fun k => cg_cs (read_cg sb (k_cg s1 k))) (seqZ 0 (fs_ncg sb)))) = k_cstotal s1) as ->.
  { rewrite E1. cbn [set_asked k_cstotal k_cg]. rewrite P6. unfold read_group_of. by rewrite P1. }
  assert (k_updated s1 = false) as -> by done. rewrite (proj2 (csum_eqb_eq (k_cstotal s1) (k_cstotal s1)) eq_refl).
  cbn [negb salvage]. by rewrite E1.
Qed.

End Pass5.

End Pass.

(** ** The fragments past the end of the disk *)

Lemma setbit_same map i : Forall byte map -> 0 <= i -> is_free map i = true -> setbit map i = map.
Proof.
  intros Hb Hi Hf. rewrite setbit_set by done. unfold bit_set. rewrite shiftr3, (land_low3 i 7) by lia.
  rewrite <- (zset_zget_id map (i / 8)) at 3. f_equal. unfold is_free in Hf.
  assert (byte (zget map (i / 8))) as Hbi.
  { unfold zget. destruct (_ <? 0); [done|]. destruct (map !! Z.to_nat (i / 8)) eqn:E; [|done].
    by eapply Forall_lookup_1 in Hb. }
  apply byte_eq; [apply byte_u8|done|]. intros j Hj. rewrite u8_testbit by lia. rewrite Z.lor_spec.
  assert (Z.testbit (Z.shiftl 1 (Z.land (i mod 8) 7)) j = (j =? i mod 8)) as ->.
  { revert Hj. byte_cases; intros Hj; assert (j = 0 \/ j = 1 \/ j = 2 \/ j = 3 \/ j = 4 \/ j = 5 \/ j = 6 \/ j = 7) as Hc by lia;
      repeat (destruct Hc as [-> | Hc]; [reflexivity|]); subst; reflexivity. }
  destruct (Z.eqb_spec j (i mod 8)) as [->|]; [by rewrite Hf|by rewrite orb_false_r].
Qed.

Lemma setbits_fold l map : Forall (fun i => 0 <= i) l -> fold_left setbit l map = set_bits map l.
Proof.
  intros Hl. revert map. induction Hl as [|i l Hi Hl IH]; intros map; [done|]. cbn [fold_left]. by rewrite IH, setbit_set.
Qed.

Lemma setbits_same l map : Forall byte map -> Forall (fun i => 0 <= i) l -> (forall i, i ∈ l -> is_free map i = true) ->
  fold_left setbit l map = map.
Proof.
  intros Hb Hl. induction Hl as [|i l Hi Hl IH]; intros H; [done|]. cbn [fold_left].
  rewrite setbit_same by (done || (apply H; by left)). apply IH. intros j Hj. apply H. by right.
Qed.

Lemma mark_tail_spec sb bm (e := (fs_size sb + fs_frag sb - 1) / fs_frag sb * fs_frag sb) :
  group_tables sb -> 0 < fs_size sb <= fs_fpg sb * fs_ncg sb -> Forall byte bm -> fs_size sb <= 8 * zlen bm ->
  mark_tail sb (mark_tail sb bm) = mark_tail sb bm /\
  forall i, 0 <= i -> isset (mark_tail sb bm) i = isset bm i || (fs_size sb <=? i) && (i <? e).
Proof.
  intros Ht Hs Hb Hlen. pose proof (gt_wf sb Ht) as Hg. pose proof (frag_pos sb Hg) as HF.
  destruct (wg_fpg sb Hg) as [_ [q Hq]]. pose proof (wg_size sb Hg) as Hmax.
  assert (exists p, 8 = p * fs_frag sb) as [p Hp8].
  { destruct (wg_frag sb Hg) as [-> | [-> | [-> | ->]]]; [by exists 8|by exists 4|by exists 2|by exists 1]. }
  assert (exists p, 2 ^ 31 = p * fs_frag sb) as [w Hw].
  { exists (2 ^ 28 * p). rewrite <- Z.mul_assoc, <- Hp8. done. }
  assert (q * fs_ncg sb < w) as Hqw by nia. assert (fs_size sb + fs_frag sb <= 2 ^ 31) as Hend.
  { rewrite Hw. transitivity ((q * fs_ncg sb + 1) * fs_frag sb); [|apply Z.mul_le_mono_nonneg_r; lia].
    replace (fs_fpg sb * fs_ncg sb) with (q * fs_ncg sb * fs_frag sb) in Hs by (rewrite Hq; lia). lia. }
  change (2 ^ 31) with 2147483648 in Hend.
  assert (blknum sb (fs_size sb + fs_frag sb - 1)%int = e) as Ee.
  { rewrite (blknum_eq sb Hg). unfold e. rewrite <- (Z.add_opp_r (s32 _)), s32_add, Z.add_opp_r, s32_small; [done|unfold in_s32; zify_pow; lia]. }
  assert (e <= 8 * zlen bm) as He.
  { unfold e. assert ((fs_size sb + fs_frag sb - 1) / fs_frag sb <= p * zlen bm); [|nia].
    apply Z.lt_succ_r, Z.div_lt_upper_bound; nia. }
  set (l := upto (fs_size sb) e 1).
  assert (forall i, i ∈ l <-> fs_size sb <= i < e) as Hl.
  { intros i. unfold l. rewrite elem_of_upto by done. split; [intros (x & ? & -> & ?); lia|]. intros. exists (i - fs_size sb). lia. }
  assert (Forall (fun i => 0 <= i) l) as Hpos by (apply Forall_forall; intros i Hi%Hl; lia).
  assert (forall i, is_free (set_bits bm l) i = is_free bm i || bool_decide (i ∈ l)) as Hf.
  { intros i. apply set_bits_free. intros x Hx%Hl. unfold in_map. lia. }
  unfold mark_tail. rewrite Ee. fold l. rewrite (setbits_fold l bm Hpos). split.
  - apply setbits_same; [by apply bytes_set_bits|done|]. intros i Hi. rewrite Hf, (bool_decide_true _ Hi). apply orb_true_r.
  - intros i Hi. rewrite !isset_free, Hf by done. f_equal. apply eq_true_iff_eq.
    rewrite bool_decide_eq_true, Hl, andb_true_iff, Z.leb_le, Z.ltb_lt. done.
Qed.

(** ** A user who refuses *)

Definition refuses (s : fsck) : Prop := preen (k_user s) = false /\ nflag (k_user s) = true.

Record refusing (s : fsck) : Prop := {
  rf_user : refuses s;
  rf_fix : forall i, zget (k_fix s) i <> FIX }.

(** What is written to the disk in the end. *)
Definition on_disk_same (s s' : fsck) : Prop :=
  k_cg s' = k_cg s /\ k_csp s' = k_csp s /\ k_cstotal s' = k_cstotal s /\ k_new_cstotal s' = k_new_cstotal s /\
  k_flags s' = k_flags s /\ k_sbdirty s' = k_sbdirty s.

#[export] Instance on_disk_same_preorder : PreOrder on_disk_same.
Proof. split; [by repeat split|]. unfold on_disk_same. intros s1 s2 s3 H1 H2. decompose [and] H1. decompose [and] H2. repeat split; congruence. Qed.

Definition untouched (s s' : fsck) : Prop := refusing s' /\ on_disk_same s s' /\ k_sb s' = k_sb s.

Lemma untouched_refl s : refusing s -> untouched s s.
Proof. by intros H. Qed.
Lemma untouched_trans s1 s2 s3 : untouched s1 s2 -> untouched s2 s3 -> untouched s1 s3.
Proof. intros (A1 & A2 & A3) (B1 & B2 & B3). split; [done|]. split; [by etrans|congruence]. Qed.

Lemma salvage_refused s i d r : refusing s -> exists s', salvage s i d r = ok s' /\ untouched s s'.
Proof.
  intros Hs. pose proof Hs as [[P N] F]. unfold salvage. destruct d; [|exists s; split; [done|by apply untouched_refl]].
  assert (exists f, dofix (k_user s) (zget (k_fix s) i) = (false, f, k_user s) /\ f <> FIX) as (f & E & Hf).
  { unfold dofix, reply. rewrite P, N. specialize (F i). destruct (zget (k_fix s) i); try done; by eexists. }
  unfold ask. rewrite E. eexists. split; [reflexivity|]. split; [|done]. constructor; [done|]. cbn. intros j.
  destruct (decide (0 <= i < zlen (k_fix s))) as [Hi|Hi].
  - rewrite zget_zset by done. case_match; [done|apply F].
  - intros E'. apply (F j). rewrite <- E'. unfold zset, zget. destruct (Z.ltb_spec i 0); [done|].
    rewrite list_insert_ge; [done|]. unfold zlen in Hi. lia.
Qed.

Lemma salvage_untouched s i d r s' : refusing s -> salvage s i d r = ok s' -> untouched s s'.
Proof. intros Hs H. destruct (salvage_refused s i d r Hs) as (s1 & E & U). rewrite E in H. by injection H as <-. Qed.

Lemma check_map_untouched c new off size s s' : refusing s -> check_map c new off size s = ok s' -> untouched s s'.
Proof. intros Hs H. apply rbind_ok in H as (d & _ & H). by eapply salvage_untouched. Qed.

Lemma check_summary_untouched c b n new s s' : refusing s -> check_summary c b n new s = ok s' -> untouched s s'.
Proof.
  intros Hs H. apply rbind_ok in H as (d & _ & H). apply rbind_ok in H as (s1 & H1 & H). apply salvage_untouched in H1; [|done].
  apply rbind_ok in H as (d' & _ & H). eapply untouched_trans; [exact H1|]. eapply salvage_untouched; [apply H1|exact H].
Qed.

Lemma check_tables_untouched c b n i f make s s' : refusing s -> check_tables c b n i f make s = ok s' -> untouched s s'.
Proof.
  intros Hs H. apply rbind_ok in H as (s1 & H1 & H). apply check_map_untouched in H1; [|done].
  apply rbind_ok in H as (s2 & H2 & H). assert (untouched s1 s2) as U2.
  { destruct (f =? 0); [injection H2 as <-; apply untouched_refl, H1|]. eapply check_map_untouched; [apply H1|exact H2]. }
  eapply untouched_trans; [exact H1|]. eapply untouched_trans; [exact U2|]. eapply check_summary_untouched; [apply U2|exact H].
Qed.

Lemma check_group_untouched s k s' t : refusing s -> check_group false s k = ok (s', t) -> untouched s s'.
Proof.
  intros Hs H. unfold check_group in H. cbv zeta in H. destruct (_ || _); [|done].
  apply rbind_ok in H as (g & _ & H). apply rbind_ok in H as (s1 & H1 & H). apply salvage_untouched in H1; [|done].
  apply rbind_ok in H as (s2 & H2 & H). injection H as <- _. eapply untouched_trans; [exact H1|].
  eapply check_tables_untouched; [apply H1|exact H2].
Qed.

Lemma check_groups_untouched l : forall s t s' t', refusing s -> check_groups false s l t = ok (s', t') -> untouched s s'.
Proof.
  induction l as [|k l IH]; intros s t s' t' Hs H; cbn [check_groups] in H; [injection H as <- _; by apply untouched_refl|].
  apply rbind_ok in H as ([s1 t1] & H1 & H). apply check_group_untouched in H1; [|done].
  eapply untouched_trans; [exact H1|]. eapply IH; [apply H1|exact H].
Qed.

(** The questions of the cluster maps are refused as well. *)
Lemma agree_refused s : refuses s -> agree s = (false, s).
Proof. intros [P N]. unfold agree, reply. rewrite P, N. by destruct s. Qed.

Lemma convert_refused s level1 s' : refuses s -> convert_clusters false s = (level1, s') ->
  level1 = false /\ refuses s' /\ on_disk_same s s'.
Proof.
  intros Hs H. unfold convert_clusters in H. rewrite (agree_refused s Hs) in H.
  assert (forall b : bool, (if b then (false, s) else (false, s)) = (false, s)) as E by (by intros []).
  rewrite E in H. destruct (_ && _) in H; [|by injection H as <- <-].
  destruct (_ <? _) in H; [by injection H as <- <-|].
  rewrite agree_refused in H by done. injection H as <- <-. done.
Qed.

(** ** The theorems *)

(** What pass 5 is given: a superblock the other passes accepted, their maps,
    and groups whose tables are in their places. *)
Record pass5_ready (s : fsck) : Prop := {
  pr_tables : group_tables (k_sb s);
  pr_size : fs_fpg (k_sb s) * (fs_ncg (k_sb s) - 1) < fs_size (k_sb s) <= fs_fpg (k_sb s) * fs_ncg (k_sb s);
  pr_ipg : 2 < fs_ipg (k_sb s) < 2 ^ 15;
  pr_inodes : fs_ipg (k_sb s) * fs_ncg (k_sb s) < 2 ^ 31;
  pr_cgsize : off_end (k_sb s) <= fs_cgsize (k_sb s) < 2 ^ 30;
  pr_format : fs_postblformat (k_sb s) = FS_DYNAMICPOSTBLFMT /\ k_updated s = false;
  pr_csp : zlen (k_csp s) = fs_ncg (k_sb s);
  pr_blockmap : Forall byte (k_blockmap s) /\ fs_size (k_sb s) <= 8 * zlen (k_blockmap s) /\ isset (k_blockmap s) 0 = true;
  pr_states : forall j, 0 <= j < fs_ipg (k_sb s) * fs_ncg (k_sb s) -> state_ok j (zget (k_statemap s) j);
  pr_reserved : state_used (zget (k_statemap s) 0) = false /\ state_used (zget (k_statemap s) 1) = false /\
    state_used (zget (k_statemap s) ROOTINO) = true;
  pr_groups : forall k, 0 <= k < fs_ncg (k_sb s) -> placed (k_sb s) (k_cg s k) /\
    cg_chkmagic (k_cg s k) || negb (preen (k_user s)) = true }.

(** The user says yes. *)
Definition agreeable (s : fsck) : Prop := preen (k_user s) || negb (nflag (k_user s)) && yflag (k_user s) = true.

Section Ready.
Context (s : fsck) (Hr : pass5_ready s) (Hu : agreeable s) (cvtlevel : Z) (Hlevel : cvtlevel <= 3) (dl2 : bool).
#[local] Abbreviation sb := (k_sb s).
#[local] Abbreviation marked := (mark_tail (k_sb s) (k_blockmap s)).

Lemma ready_marked : mark_tail sb marked = marked /\
  forall i, 0 <= i -> isset marked i = isset (k_blockmap s) i ||
    (fs_size sb <=? i) && (i <? (fs_size sb + fs_frag sb - 1) / fs_frag sb * fs_frag sb).
Proof using Hr.
  destruct Hr as [R1 R2 _ _ _ _ _ (B1 & B2 & _) _ _ _]. apply mark_tail_spec; try done.
  pose proof (gt_wf _ R1) as Hg. destruct (wg_fpg _ Hg) as [Hp _]. pose proof (wg_ncg _ Hg). nia.
Qed.

Lemma ready_tail i : fs_size sb <= i < (fs_size sb + fs_frag sb - 1) / fs_frag sb * fs_frag sb -> isset marked i = true.
Proof using Hr.
  intros Hi. destruct Hr as [R1 R2 _ _ _ _ _ _ _ _ _]. pose proof (gt_wf _ R1) as Hg.
  destruct (wg_fpg _ Hg) as [Hp _]. pose proof (wg_ncg _ Hg). destruct ready_marked as [_ E]. rewrite E by nia.
  by rewrite (proj2 (Z.leb_le _ i)), (proj2 (Z.ltb_lt i _)), orb_true_r by lia.
Qed.

Lemma ready_reserved : 2 < fs_ipg sb /\ state_used (zget (k_statemap s) 0) = false /\ state_used (zget (k_statemap s) 1) = false.
Proof using Hr. destruct Hr as [_ _ [R _] _ _ _ _ _ _ (R1 & R2 & _) _]. done. Qed.

Lemma ready_passed : exists s', pass5 cvtlevel false dl2 s = ok s' /\ passed sb marked (k_statemap s) s'.
Proof using Hr Hu Hlevel.
  pose proof ready_tail as Ht. pose proof ready_reserved as H0. destruct Hr as [R1 R2 [_ R3] R4 R5 [R6 R6'] R7 R8 R9 R10 R11].
  by apply pass5_ok.
Qed.

End Ready.



(** C13: Whatever the groups hold, a user who refuses leaves the disk as it is. *)
Theorem pass5_refused s cvtlevel s' : refuses s -> pass5 cvtlevel false false s = ok s' -> on_disk_same s s'.
Proof.
  intros Hs H. unfold pass5 in H.
  assert (exists s0, (if 3 <? cvtlevel then convert_clusters false s else (false, s)) = (false, s0) /\ refuses s0 /\ on_disk_same s s0)
    as (s0 & E & R0 & D0).
  { destruct (3 <? cvtlevel); [|by exists s]. destruct (convert_clusters false s) as [level1 s0] eqn:E.
    apply convert_refused in E as (-> & R & D); [|done]. by exists s0. }
  rewrite E in H. cbv zeta in H. destruct (_ && _) in H; [done|]. destruct (_ || _) in H; [|done].
  apply rbind_ok in H as ([s2 t] & H1 & H). etrans; [exact D0|].
  apply check_groups_untouched in H1 as (R2 & D2 & _).
  2:{ constructor; [exact R0|]. intros i. cbn [set_blockmap set_asked k_fix]. unfold zget. destruct (i <? 0); [done|]. cbn beta iota.
      destruct (repeat DONTKNOW 3 !! Z.to_nat i) as [f|] eqn:Ei; [|done]. pose proof (Forall_lookup_1 (fun f => f <> FIX) _ _ _ (Forall_repeat (fun f => f <> FIX) DONTKNOW 3 ltac:(done)) Ei). done. }
  etrans; [exact D2|]. destruct (k_updated s2); by apply salvage_untouched in H as (_ & D & _).
Qed.

(** ** The theorems at the floppy disk of newfs *)

(** Groups without counts and maps, but for the places of the tables; the
    boot blocks, the inodes and the root directory in use. *)
Definition bare_group (sb : sblock) : list Z :=
  let l := zeros (fs_cgsize sb) in
  let put off x l := take (Z.to_nat off) l ++ be32 x ++ drop (Z.to_nat (off + 4)) l in
  put at_freeoff (off_free sb) (put at_iusedoff (off_iused sb) (put at_magic CG_MAGIC l)).

Definition floppy_disk (u : user) (sb : sblock) : fsck :=
  Fsck sb csum0 csum0 (repeat csum0 (Z.to_nat (fs_ncg sb))) 0 0 0 false (fun _ => bare_group sb)
    (repeat 255 20 ++ repeat 0 (Z.to_nat (fs_size sb))) ([USTATE; USTATE; DSTATE] ++ repeat USTATE (Z.to_nat (fs_ipg sb * fs_ncg sb)))
    u (repeat DONTKNOW 3).
Definition yes : user := User false false true [].
Definition no : user := User false true false [].

Definition ready_numbers (sb : sblock) : bool :=
  (fs_fpg sb * (fs_ncg sb - 1) <? fs_size sb) && (fs_size sb <=? fs_fpg sb * fs_ncg sb) && (2 <? fs_ipg sb) && (fs_ipg sb <? 2 ^ 15) &&
  (fs_ipg sb * fs_ncg sb <? 2 ^ 31) && (off_end sb <=? fs_cgsize sb) && (fs_cgsize sb <? 2 ^ 30) &&
  (fs_postblformat sb =? FS_DYNAMICPOSTBLFMT) && (zlen (bare_group sb) =? fs_cgsize sb) &&
  (inosused_off (bare_group sb) =? off_iused sb) && (blksfree_off (bare_group sb) =? off_free sb) && (0 <=? fs_ncg sb).

Lemma floppy_states u (sb : sblock) j : 0 <= j < fs_ipg sb * fs_ncg sb -> state_ok j (zget (k_statemap (floppy_disk u sb)) j).
Proof.
  intros Hr. cbn [floppy_disk k_statemap]. unfold zget. rewrite (proj2 (Z.ltb_ge j 0)) by lia.
  destruct (decide (j < 2)) as [Hj|Hj]; [assert (j = 0 \/ j = 1) as [-> | ->] by lia; by left|].
  destruct (decide (j = 2)) as [->|]; [right; by left|].
  rewrite lookup_app_r by (cbn; lia). cbn [length]. destruct (repeat USTATE _ !! _) eqn:E.
  - left. by apply (Forall_lookup_1 (fun x => x = USTATE) _ _ _ (Forall_repeat (fun x => x = USTATE) USTATE _ eq_refl) E).
  - apply lookup_ge_None in E. rewrite repeat_length in E. lia.
Qed.

Lemma floppy_blocks u (sb : sblock) : 0 <= fs_size sb ->
  let map := k_blockmap (floppy_disk u sb) in Forall byte map /\ fs_size sb <= 8 * zlen map /\ isset map 0 = true.
Proof.
  intros Hs map. split; [|split; [|done]].
  - apply Forall_app_2; apply Forall_repeat; unfold byte; lia.
  - unfold map, floppy_disk, k_blockmap, zlen. rewrite length_app, !repeat_length. lia.
Qed.

Lemma floppy_ready u : preen u = false -> exists sb, mkfs_super floppy = ok sb /\ pass5_ready (floppy_disk u sb) /\
  isset (k_blockmap (floppy_disk u sb)) 200 = false /\ fs_ncg sb = 5 /\ 200 < frags_of sb 0.
Proof.
  intros Hu. destruct (accepted_ok (mkfs_super floppy) (fun sb => ready_numbers sb && (fs_ncg sb =? 5) && (200 <? frags_of sb 0)))
    as (sb & H & Hb); [vm_compute; reflexivity|].
  rewrite !andb_true_iff in Hb. destruct Hb as [[Hb H5] Hlong]. unfold ready_numbers in Hb. rewrite !andb_true_iff in Hb.
  decompose [and] Hb. clear Hb. rewrite ?Z.ltb_lt, ?Z.leb_le, ?Z.eqb_eq in *.
  exists sb. split; [exact H|]. split.
  - constructor; cbn [floppy_disk k_sb k_csp k_user k_cg].
    + apply (mkfs_super_fits floppy sb floppy_good H). lia.
    + lia.
    + lia.
    + assumption.
    + lia.
    + split; [assumption|done].
    + unfold zlen. rewrite repeat_length. lia.
    + apply floppy_blocks. lia.
    + apply floppy_states.
    + split; [reflexivity|split; reflexivity].
    + intros k _. split; [by constructor|]. by rewrite Hu, orb_true_r.
  - split; [|lia]. unfold isset, zget. cbn [floppy_disk k_blockmap]. change (Z.quot 200 NBBY) with 25. cbn [Z.ltb Z.compare].
    rewrite lookup_app_r by (rewrite repeat_length; lia). rewrite repeat_length.
    destruct (repeat 0 _ !! _) eqn:E; [|done].
    by rewrite (Forall_lookup_1 (fun x => x = 0) _ _ _ (Forall_repeat (fun x => x = 0) 0 _ eq_refl) E).
Qed.



(** The summary, a map and the header differ, and nothing is changed. *)
Lemma pass5_refused_witness : exists s s', pass5 0 false false s = ok s' /\ k_fix s' = [NOFIX; NOFIX; NOFIX] /\ on_disk_same s s'.
Proof.
  destruct (accepted_ok (mkfs_super floppy) (fun sb => accepted (pass5 0 false false (floppy_disk no sb))
    (fun s' => match k_fix s' with [NOFIX; NOFIX; NOFIX] => true | _ => false end))) as (sb & _ & H); [vm_compute; reflexivity|].
  apply accepted_ok in H as (s' & H & Hf). exists (floppy_disk no sb), s'. split; [exact H|]. split.
  - destruct (k_fix s') as [|[] [|[] [|[] [|]]]]; try discriminate Hf. reflexivity.
  - refine (pass5_refused (floppy_disk no sb) 0 s' _ H). by split.
Defined.
